(* ===== verification/_CoqProject ===== *)
-Q . S2P
Prelude.v
Rv64State.v
Rv64Mem.v
Rv64Csr.v
Rv64Alu.v
Rv64Float.v
Rv64Exec.v
Rv64Run.v
Rv64Inv.v
Rv64Vm.v
Rv64Uart.v
Rv64Trap.v
Rv64LoadStore.v
Runner.v
Pmm.v
Paging.v
PagingInv.v
PagingMap.v
PagingCow.v
Ramfs.v
RamfsInv.v
RamfsData.v
Tar.v
LibTcc1.v
RiscvLink.v
WasmEmit.v
RvGen.v
RvGenRun.v
RvGenOk.v
RvGenOps.v
RvGenJump.v
RvGenAddr.v
RvGenFloat.v
Optimise.v
Elf.v
Process.v
ProcessPipe.v
ProcessFds.v
ProcessExec.v
ProcessSys.v
ProcessInv.v
ProcessSafe.v
ProcessThm.v
ElfLoad.v
Syscall.v
SyscallInv.v
SyscallSafe.v
SyscallThm.v
SyscallPath.v
SyscallMem.v
SyscallFile.v
SyscallDents.v
TccElf.v
TccElfHash.v
TccElfResolve.v
TccElfSort.v
TccLink.v
TccOutput.v
TccObject.v
TccLayout.v
TccImage.v
TccArchive.v
TccLoads.v
TccAr.v
Token.v
TokenTab.v
TokenStr.v
Symbols.v
SymHeap.v
SymPush.v
SymPop.v
SymScope.v
SymBlocks.v
Scopes.v
SoftQuad.v
Kprintf.v
CTypes.v
