(* ===== verification/Prelude.v ===== *)
(** * Ouroboot: a verification development

    Ouroboot is a self-hosting system: a RISC-V (RV64) emulator ([src/emulator/]) runs a small kernel
    ([src/kernel/]) that offers Linux system calls to static user programs, among them a C compiler
    ([src/compiler/], a descendant of TCC) that builds the system itself.  The development models the
    three parts in the C they are written in, with integers kept at their width, and proves what each
    promises to the next: the kernel's page tables are proved against the emulator's address
    translation, the compiler's instructions against the emulator's execution, and the linker's
    output against the kernel's loader.

    ** The emulator ([src/emulator/rv64.c], [runner.c])

    - Rv64State: the statics of [rv64.c]; Rv64Mem: physical memory, devices, [translate], [load],
      [store]; Rv64Csr: [csr_write], [trap], [sret], SYSTEM instructions; Rv64Alu: the integer ALU;
      Rv64Float: the F/D subset over SpecFloat; Rv64Exec: [execute]; Rv64Run: [rv_init], [rv_run], the
      host interface.
    - Rv64Inv: every reachable state is well-formed ([rv_ok]).  Rv64Vm: [translate], with its software
      TLB, refines the Sv39 walk [sv39].  Rv64Uart: the UART rings are queues.  Rv64Trap,
      Rv64LoadStore: trap/[sret] and store/load round trips, precise load faults, the timer.  Runner:
      the native front end never writes outside the emulated RAM.

    ** The kernel ([src/kernel/])

    Physical memory is one identity-mapped array of bytes; the states nest as the components call
    each other: [pmm] (Pmm, [mm/pmm.c]) inside [vm] (Paging, [riscv64_paging.c], [paging_common.c]) inside
    [ksys] (Process, [sched/process.c]) inside [kern] (Syscall, [syscall_posix.c], [syscall_common.c],
    [riscv64_syscall.c]); [kfs] (Ramfs, [mm/ramfs.c], [mm/tar.c]) works on the same memory through [lend]
    and [give].

    - Pmm: the allocator; its bitmap and its reference counts agree in every reachable state.
    - Paging (definitions), PagingInv (the tree of tables), PagingMap (mapping a page changes that page
      and no other, for the kernel's lookups and for the processor), PagingCow (copy-on-write).
    - Ramfs (definitions), RamfsInv (the hash table is a partial map), RamfsData (contents, directory
      cache), Tar (the initrd is installed; the loader ends on any bytes).
    - Kprintf ([drivers/kprintf.c]): formatted output; numbers read back as themselves.
    - Elf and ElfLoad ([mm/elf.c]): what a loaded segment leaves in the address space.
    - Process and ProcessExec (definitions), ProcessSys (the cooperative kernel as a step relation),
      ProcessFds (descriptors and pipe counts), ProcessPipe (pipes refine bounded queues), ProcessInv and
      ProcessSafe (the invariant, step by step), ProcessThm (the theorems: invariant, pipes, fairness,
      [fork], [wait4], orphans).
    - Syscall (definitions), SyscallInv (a Hoare logic for its monad), SyscallSafe (the handlers one by
      one), SyscallThm (the dispatch keeps the invariants of processes, files and console), SyscallPath
      (path resolution), SyscallMem ([brk]), SyscallFile (reading a file into a grown heap: system
      calls, process table, page tables and page allocator together), SyscallDents (the records of
      [getdents64], read back).

    A handler may call [process_schedule], and other processes then run: in ProcessSys this is the
    interleaving of the step relation, in Syscall the environment [env], a list with what the others do
    at each such call; the theorems hold for every [env] that keeps the invariants.

    ** The compiler ([src/compiler/])

    - Optimise ([optimise.c]): constant folding and simplification equal the operation they replace.
    - RvGen ([risc/riscv64-gen.c], [riscv64-encode.h]): instruction selection; RvGenRun, RvGenOk,
      RvGenOps, RvGenJump, RvGenAddr, RvGenFloat: the emitted code, run by the emulator's [execute],
      computes what C says (constants, operators, comparisons, jump lists, addresses, floating point).
    - RiscvLink ([risc/riscv64-link.c], [target.h]): the emulator decodes from a relocated instruction the
      displacement the linker was asked for.
    - The linker ([tccelf.c]) works on one heap of sections, [TCCState] (TccElf), in the monad [L], where
      [None] is [tcc_error]'s exit and a counted error leaves the state with [nb_errors] raised.
      TccElf (definitions: sections, strings, symbols and their hash table, relocation tables), TccElfHash
      (the hash table finds what a search of the symbol table finds), TccElfResolve (weak, common and
      global definitions of a name), TccElfSort (locals before globals, and relocations follow);
      TccLink (common and linker-defined symbols, the global offset table, relocation), TccOutput
      (layout and the file), TccObject (loading objects and archives) hold definitions; TccArchive: the
      rounds over an archive's index end; TccLayout: the layout puts every section where the program
      headers say, apart from the others; TccImage: the bytes of the file; TccLoads: the kernel's
      [elf_load] puts every section of a linked program at the address it was linked for.
    - TccAr ([tcctools.c]): the archiver; the index it writes leads the linker to the right members.
    - Token ([parsing.c], [tok_get] of [tccpp.c]) holds definitions: the table of identifiers and token
      strings.  TokenTab: the table interns, so that equal spellings have equal tokens; TokenStr: what
      is written to a token string is read back.
    - Symbols ([symbols.c], and what [tccgen.c] does to the symbols at the start and end of functions and
      scopes) holds definitions in the monad [F], whose state [front] is the token table, the symbols and
      the two symbol stacks.  SymHeap (the allocator), SymPush and SymPop (one call at a time), SymScope and
      SymBlocks (the invariant, and each step on it) lead to Scopes: the steps refine nested
      environments, and the token table always leads to the innermost declaration.
    - CTypes ([types.c]): the usual arithmetic conversions are those of C11; compatibility of types is
      decided for every type a declaration builds, symmetric and reflexive.
    - SoftQuad ([risc/riscv64-softquad.c]): long double is double in another format.
    - LibTcc1 ([lib/libtcc1.c]): 64-bit division, shifts and conversions.
    - WasmEmit ([wasm/wasm-emit.c]): a decoder of the WebAssembly format reads back what was encoded.

    ** Conventions

    A w-bit integer is a [Z] with [u8], [u32], [i32], [u64], ... where C converts.  A C string is the list of
    its bytes before the NUL; a pointer into a static table is an index.  [None] (in Syscall, [Halted]) is
    where the code stops for good: a FATAL loop, [tcc_error], a kernel fault.  Loops with a static bound
    or over a list are structural.  The others have fuel:
    - table and chain walks ([ramfs]) get the number of slots, which the invariant shows is enough;
    - [grow_loop] gets one more than the pages there are, since every round takes one;
    - [munmap_loop] and [ensure_loop] get a little more than the pages of the range, and run out only
      when the counter wraps at the top of the address space, where the code does not end;
    - [getdents_loop] gets the entries a directory can list plus three; [tar_loop] the archive's blocks;
    - [alacarte_rounds] gets the number of symbols in the archive's index plus one: every round but the last loads a
      member that was not loaded before;
    - [tok_walk] gets the number of tokens plus one, the walks over symbols the number of symbols;
    - [tcc_load_archive] is given fuel, and runs out where a negative member size makes the code loop.

    Parameters: [RT], the address of the kernel's root table; [HostFloat], what C leaves open about
    NaNs and conversions; [can_alloc], the sizes [tcc_realloc] provides; [can_open], whether the
    output file opens; [tcc_add_runtime], the search for libraries; [fetch], the host's network.

    ** Not modelled

    - The rest of the compiler: preprocessor, parser and type checking ([tccpp.c], [tccgen.c], [expr.c], and
      pointers and structures in [combine_types]), the redeclaration of globals in [symbols.c], register allocation and calls, the driver
      ([tcc.c], and the glue to the front end in [tccelf.c]), the assemblers, and the i386 and WebAssembly
      code generators.  The parser is one pass over a very large mutable state, of which only the
      tables are modelled.
    - The i386 port of the kernel, whose paging, processes and system calls mirror the riscv64 ones.
    - Device registers behind [serial_putc], boot code, the in-kernel tests, assembly
      ([switch_context] is the continuation of ProcessSys; the trap entry is the register file [live]).
    - [sfence.vma]: the kernel model has no TLB; coherence of the emulator's TLB is Rv64Vm's.
    - Time: the clock moves only while other processes run. *)
From stdpp Require Export base numbers list fin_maps gmap.
From Stdlib Require Export ZArith Lia String Ascii.
Abbreviation length := List.length.
#[global] Open Scope Z_scope.

(** ** Machine integers

    A w-bit unsigned C integer is a [Z] in [[0, 2^w)]; a signed one is a [Z] in
    [[-2^(w-1), 2^(w-1))].  Every C conversion is written out with one of the
    functions below, so wrap-around is visible where the code has it. *)

Definition u8 (v : Z) : Z := v mod 256.
Definition u16 (v : Z) : Z := v mod 65536.
Definition u32 (v : Z) : Z := v mod 4294967296.
Definition u64 (v : Z) : Z := v mod 18446744073709551616.
Definition i8 (v : Z) : Z := (v + 128) mod 256 - 128.
Definition i16 (v : Z) : Z := (v + 32768) mod 65536 - 32768.
Definition i32 (v : Z) : Z := (v + 2147483648) mod 4294967296 - 2147483648.
Definition i64 (v : Z) : Z :=
  (v + 9223372036854775808) mod 18446744073709551616 - 9223372036854775808.

Abbreviation isu8 v := (0 <= v < 256).
Abbreviation isu32 v := (0 <= v < 4294967296).
Abbreviation isu64 v := (0 <= v < 18446744073709551616).

(** C truth values: [if (a & b)] is [tst a b]; a comparison used as an integer is [Z.b2z]. *)
Definition tst (a b : Z) : bool := negb (Z.land a b =? 0).
(** [~v] at 64 and at 32 bits. *)
Definition not64 (v : Z) : Z := 18446744073709551615 - v.
Definition not32 (v : Z) : Z := 4294967295 - v.

Ltac zlia := Z.div_mod_to_equations; lia.

Lemma u64_small v : isu64 v -> u64 v = v.
Proof. apply Z.mod_small. Qed.
Lemma u32_small v : isu32 v -> u32 v = v.
Proof. apply Z.mod_small. Qed.
Lemma u8_small v : isu8 v -> u8 v = v.
Proof. apply Z.mod_small. Qed.
Lemma u64_bound v : isu64 (u64 v).
Proof. apply Z.mod_pos_bound; lia. Qed.
Lemma u32_bound v : isu32 (u32 v).
Proof. apply Z.mod_pos_bound; lia. Qed.
Lemma u8_bound v : isu8 (u8 v).
Proof. apply Z.mod_pos_bound; lia. Qed.
Lemma i64_bound v : -9223372036854775808 <= i64 v < 9223372036854775808.
Proof. unfold i64; zlia. Qed.
Lemma i32_bound v : -2147483648 <= i32 v < 2147483648.
Proof. unfold i32; zlia. Qed.
Lemma u64_i64 v : u64 (i64 v) = u64 v.
Proof. unfold u64, i64; zlia. Qed.
Lemma i64_u64 v : i64 (u64 v) = i64 v.
Proof. unfold u64, i64; zlia. Qed.
Lemma u64_idem v : u64 (u64 v) = u64 v.
Proof. apply u64_small, u64_bound. Qed.
Lemma i64_small v : -9223372036854775808 <= v < 9223372036854775808 -> i64 v = v.
Proof. intros; unfold i64; zlia. Qed.
Lemma i32_small v : -2147483648 <= v < 2147483648 -> i32 v = v.
Proof. intros; unfold i32; zlia. Qed.
Lemma i64_neg v : isu64 v -> (i64 v <? 0) = (9223372036854775808 <=? v).
Proof. intros; unfold i64; zlia. Qed.
Lemma i64_val v : isu64 v ->
  i64 v = if v <? 9223372036854775808 then v else v - 18446744073709551616.
Proof. intros; unfold i64; destruct (Z.ltb_spec v 9223372036854775808); zlia. Qed.

Create HintDb words discriminated.
#[export] Hint Constants Opaque : words.
#[export] Hint Resolve u64_bound u32_bound u8_bound : words.
Create Rewrite HintDb wrap.
#[export] Hint Rewrite u64_i64 i64_u64 u64_idem : wrap.

(** ** Bit lemmas *)

Lemma land_ones_mod a k : 0 <= k -> Z.land a (2 ^ k - 1) = a mod 2 ^ k.
Proof.
  intros. replace (2 ^ k - 1) with (Z.ones k); [by apply Z.land_ones|].
  rewrite Z.ones_equiv; lia.
Qed.

Lemma testbit_high a n i : 0 <= a < 2 ^ n -> n <= i -> Z.testbit a i = false.
Proof.
  intros [H0 H1] Hi.
  destruct (Z.lt_ge_cases n 0) as [Hn|Hn].
  { rewrite Z.pow_neg_r in H1 by done; lia. }
  rewrite <- (Z.mod_small a (2 ^ n)) by lia.
  by apply Z.mod_pow2_bits_high.
Qed.

(** Bounded non-negative numbers are closed under the bitwise operations. *)
Lemma bits_bound a n : 0 <= n -> 0 <= a ->
  (forall i, n <= i -> Z.testbit a i = false) -> a < 2 ^ n.
Proof.
  intros Hn Ha H.
  destruct (Z.eq_dec a 0) as [->|]; [by apply Z.pow_pos_nonneg; lia|].
  apply Z.log2_lt_pow2; [lia|].
  destruct (Z.lt_ge_cases (Z.log2 a) n) as [|Hge]; [done|].
  specialize (H _ Hge). by rewrite Z.bit_log2 in H by lia.
Qed.

Lemma lor_bound n a b : 0 <= n -> 0 <= a < 2 ^ n -> 0 <= b < 2 ^ n -> 0 <= Z.lor a b < 2 ^ n.
Proof.
  intros. split; [by apply Z.lor_nonneg; lia|].
  apply bits_bound; [lia| apply Z.lor_nonneg; lia|].
  intros i Hi. by rewrite Z.lor_spec, !(testbit_high _ n) by lia.
Qed.

Lemma land_bound_r n a b : 0 <= n -> 0 <= b < 2 ^ n -> 0 <= Z.land a b < 2 ^ n.
Proof.
  intros. split; [apply Z.land_nonneg; lia|].
  apply bits_bound; [lia| apply Z.land_nonneg; lia|].
  intros i Hi. rewrite Z.land_spec, (testbit_high b n) by lia. apply andb_false_r.
Qed.

Lemma land_bound_l n a b : 0 <= n -> 0 <= a < 2 ^ n -> 0 <= Z.land a b < 2 ^ n.
Proof. intros. rewrite Z.land_comm. by apply land_bound_r. Qed.

Lemma lxor_bound n a b : 0 <= n -> 0 <= a < 2 ^ n -> 0 <= b < 2 ^ n -> 0 <= Z.lxor a b < 2 ^ n.
Proof.
  intros. split; [apply Z.lxor_nonneg; lia|].
  apply bits_bound; [lia| apply Z.lxor_nonneg; lia|].
  intros i Hi. by rewrite Z.lxor_spec, !(testbit_high _ n) by lia.
Qed.

(** [a | b] is [a + b] when [a] is a multiple of [2^k] and [b] below it. *)
Lemma lor_add a b k : 0 <= k -> 0 <= b < 2 ^ k -> Z.lor (a * 2 ^ k) b = a * 2 ^ k + b.
Proof.
  intros Hk Hb. rewrite <- Z.shiftl_mul_pow2 by done.
  rewrite <- Z.lxor_lor; [rewrite <- Z.add_nocarry_lxor; [done|]|].
  all: apply Z.bits_inj'; intros i Hi; rewrite Z.land_spec, Z.bits_0.
  all: destruct (Z.lt_ge_cases i k);
    [by rewrite Z.shiftl_spec_low by lia
    |by rewrite (testbit_high b k) by lia; apply andb_false_r].
Qed.

Lemma tst_pow2 a k : 0 <= k -> tst a (2 ^ k) = Z.testbit a k.
Proof.
  intros Hk. unfold tst.
  destruct (Z.testbit a k) eqn:E.
  - apply negb_true_iff, Z.eqb_neq. intros H0.
    assert (Z.testbit (Z.land a (2 ^ k)) k = false) as Hc by (rewrite H0; apply Z.bits_0).
    by rewrite Z.land_spec, E, Z.pow2_bits_true in Hc by lia.
  - apply negb_false_iff, Z.eqb_eq, Z.bits_inj'. intros i Hi.
    rewrite Z.land_spec, Z.bits_0, Z.pow2_bits_eqb by lia.
    destruct (Z.eqb_spec k i) as [<-|]; [by rewrite E|apply andb_false_r].
Qed.

(** The complement of one bit in [n] bits. *)
Lemma testbit_clear_mask n k i : 0 <= k < n -> 0 <= i ->
  Z.testbit (Z.ones n - 2 ^ k) i = (i <? n) && negb (i =? k).
Proof.
  intros Hk Hi.
  assert (forall j, 0 <= j -> Z.testbit (Z.ldiff (Z.ones n) (2 ^ k)) j = (j <? n) && negb (j =? k)) as H.
  { intros j Hj. rewrite Z.ldiff_spec, Z.testbit_ones, Z.pow2_bits_eqb by lia.
    destruct (Z.eqb_spec k j), (Z.eqb_spec j k), (Z.leb_spec 0 j), (Z.ltb_spec j n); try done; lia. }
  rewrite Z.sub_nocarry_ldiff; [by apply H|].
  apply Z.bits_inj'. intros j Hj. rewrite Z.ldiff_spec, Z.bits_0, Z.testbit_ones by lia.
  rewrite Z.pow2_bits_eqb by lia.
  destruct (Z.eqb_spec k j), (Z.leb_spec 0 j), (Z.ltb_spec j n); try done; lia.
Qed.
Lemma testbit_not64_pow2 k i : 0 <= k < 64 -> 0 <= i ->
  Z.testbit (not64 (2 ^ k)) i = (i <? 64) && negb (i =? k).
Proof. apply (testbit_clear_mask 64). Qed.
Lemma testbit_not32_pow2 k i : 0 <= k < 32 -> 0 <= i ->
  Z.testbit (not32 (2 ^ k)) i = (i <? 32) && negb (i =? k).
Proof. apply (testbit_clear_mask 32). Qed.

(** The same closure facts at 64 bits, in the form the invariants use. *)
Lemma isu64_lor a b : isu64 a -> isu64 b -> isu64 (Z.lor a b).
Proof. intros; by apply (lor_bound 64). Qed.
Lemma isu64_lxor a b : isu64 a -> isu64 b -> isu64 (Z.lxor a b).
Proof. intros; by apply (lxor_bound 64). Qed.
Lemma isu64_land_l a b : isu64 a -> isu64 (Z.land a b).
Proof. intros; by apply (land_bound_l 64). Qed.
Lemma isu64_shiftr a n : isu64 a -> 0 <= n -> isu64 (Z.shiftr a n).
Proof.
  intros Ha Hn. rewrite Z.shiftr_div_pow2 by done. pose proof (Z.pow_pos_nonneg 2 n).
  split; [apply Z.div_pos; lia|]. apply Z.div_lt_upper_bound; nia.
Qed.
Lemma isu64_b2z b : isu64 (Z.b2z b).
Proof. destruct b; simpl; lia. Qed.
Lemma isu64_not64 v : isu64 v -> isu64 (not64 v).
Proof. unfold not64. lia. Qed.
#[export] Hint Resolve isu64_lor isu64_lxor isu64_land_l isu64_shiftr isu64_b2z isu64_not64 : words.

(** Truncating division by absolute values. *)
Lemma quot_rem_abs u v : v <> 0 ->
  Z.quot u v = (if xorb (u <? 0) (v <? 0) then - (Z.abs u / Z.abs v) else Z.abs u / Z.abs v) /\
  Z.rem u v = (if u <? 0 then - (Z.abs u mod Z.abs v) else Z.abs u mod Z.abs v).
Proof.
  intros Hv. rewrite Z.quot_div, Z.rem_mod by done.
  destruct (Z.eq_dec u 0) as [->|Hu0].
  { cbn [Z.abs Z.sgn Z.ltb Z.compare]. rewrite Z.div_0_l, Z.mod_0_l by lia. by destruct (v <? 0). }
  destruct (Z.ltb_spec u 0), (Z.ltb_spec v 0); cbn [xorb];
    rewrite ?(Z.sgn_neg u), ?(Z.sgn_neg v), ?(Z.sgn_pos u), ?(Z.sgn_pos v) by lia; lia.
Qed.

(** ** Static C arrays

    A static array is zero-initialised, so a cell never written reads 0.  Equality of arrays is
    equality of every read ([aeq]), which is coarser than equality of the maps. *)

Definition aget (a : gmap Z Z) (i : Z) : Z := default 0 (a !! i).
Definition aset (a : gmap Z Z) (i v : Z) : gmap Z Z := <[i := v]> a.
Definition aeq (a b : gmap Z Z) : Prop := forall i, aget a i = aget b i.

Lemma aget_empty i : aget ∅ i = 0.
Proof. unfold aget. by rewrite lookup_empty. Qed.
Lemma aget_aset_eq a i v : aget (aset a i v) i = v.
Proof. unfold aget, aset. by rewrite lookup_insert_eq. Qed.
Lemma aget_aset_ne a i j v : i ≠ j -> aget (aset a i v) j = aget a j.
Proof. intros. unfold aget, aset. by rewrite lookup_insert_ne. Qed.
Lemma aget_aset a i j v : aget (aset a i v) j = if decide (i = j) then v else aget a j.
Proof. case_decide; subst; [apply aget_aset_eq | by apply aget_aset_ne]. Qed.

#[export] Instance aeq_equiv : Equivalence aeq.
Proof.
  split; [intros a i; done | intros a b H i; by rewrite H |].
  intros a b c H1 H2 i; by rewrite H1, H2.
Qed.
#[export] Instance aget_proper : Proper (aeq ==> eq ==> eq) aget.
Proof. intros a b H i j ->. apply H. Qed.
#[export] Instance aset_proper : Proper (aeq ==> eq ==> eq ==> aeq) aset.
Proof. intros a b H i j -> v w -> k. rewrite !aget_aset. case_decide; [done|apply H]. Qed.

Create Rewrite HintDb arr.
#[export] Hint Rewrite aget_empty aget_aset_eq : arr.
#[export] Hint Rewrite aget_aset_ne using (done || lia) : arr.

(** [for (i = lo; i < lo + n; i++) a[i] = v;] *)
Fixpoint afill (n : nat) (a : gmap Z Z) (lo v : Z) : gmap Z Z :=
  match n with
  | O => a
  | S n => afill n (aset a lo v) (lo + 1) v
  end.

Lemma aget_afill n a lo v i :
  aget (afill n a lo v) i = if bool_decide (lo <= i < lo + Z.of_nat n) then v else aget a i.
Proof.
  revert a lo. induction n as [|n IH]; intros a lo; simpl.
  - rewrite bool_decide_eq_false_2 by lia. done.
  - rewrite IH, aget_aset.
    repeat case_bool_decide; repeat case_decide; try lia; done.
Qed.

(** [for (i = 0; i < n; i++) a[off + i] = l[i];] for the [n] bytes of [l]. *)
Fixpoint aputs (l : list Z) (off : Z) (a : gmap Z Z) : gmap Z Z :=
  match l with
  | [] => a
  | b :: l => aputs l (off + 1) (aset a off b)
  end.

Lemma aget_aputs l off a i :
  aget (aputs l off a) i =
  if bool_decide (off <= i < off + Z.of_nat (length l)) then nth (Z.to_nat (i - off)) l 0 else aget a i.
Proof.
  revert off a. induction l as [|b l IH]; intros off a; cbn [aputs length].
  - by rewrite bool_decide_eq_false_2 by (cbn; lia).
  - rewrite IH. repeat case_bool_decide; try lia.
    + by replace (Z.to_nat (i - off)) with (S (Z.to_nat (i - (off + 1)))) by lia.
    + assert (i = off) as -> by lia. by rewrite aget_aset_eq, Z.sub_diag.
    + apply aget_aset_ne. lia.
Qed.

(** [for (i = 0; i < n; i++) a[dst + i] = a[src + i];] *)
Fixpoint acopy (n : nat) (dst src : Z) (a : gmap Z Z) : gmap Z Z :=
  match n with
  | O => a
  | S n => acopy n (dst + 1) (src + 1) (aset a dst (aget a src))
  end.

Lemma aget_acopy n dst src a i :
  (src + Z.of_nat n <= dst \/ dst + Z.of_nat n <= src) ->
  aget (acopy n dst src a) i =
  if bool_decide (dst <= i < dst + Z.of_nat n) then aget a (src + (i - dst)) else aget a i.
Proof.
  revert dst src a. induction n as [|n IH]; intros dst src a Hd; cbn [acopy].
  - by rewrite bool_decide_eq_false_2 by lia.
  - rewrite IH by lia. repeat case_bool_decide; try lia.
    + rewrite aget_aset_ne by lia. f_equal. lia.
    + assert (i = dst) as -> by lia. rewrite aget_aset_eq. f_equal. lia.
    + apply aget_aset_ne. lia.
Qed.

(** ** Byte memory

    Memory is an array of bytes; the code's [u16], [u32] and [u64] accesses through a cast
    pointer are little-endian on every host and target of this repository. *)

Fixpoint mget (n : nat) (m : gmap Z Z) (a : Z) : Z :=
  match n with
  | O => 0
  | S n => aget m a + 256 * mget n m (a + 1)
  end.

Fixpoint mput (n : nat) (m : gmap Z Z) (a v : Z) : gmap Z Z :=
  match n with
  | O => m
  | S n => mput n (aset m a (u8 v)) (a + 1) (v / 256)
  end.

(** Every cell is a byte. *)
Definition bytes_ok (m : gmap Z Z) : Prop := forall i, isu8 (aget m i).

Lemma bytes_ok_empty : bytes_ok ∅.
Proof. intros i. rewrite aget_empty. lia. Qed.
Lemma bytes_ok_aset m a v : bytes_ok m -> isu8 v -> bytes_ok (aset m a v).
Proof. intros H Hv i. rewrite aget_aset. case_decide; [done|apply H]. Qed.
Lemma bytes_ok_mput n m a v : bytes_ok m -> bytes_ok (mput n m a v).
Proof.
  revert m a v. induction n as [|n IH]; intros m a v H; simpl; [done|].
  apply IH, bytes_ok_aset; [done | apply u8_bound].
Qed.
Lemma bytes_ok_acopy n dst src m : bytes_ok m -> bytes_ok (acopy n dst src m).
Proof.
  revert dst src m. induction n as [|n IH]; intros dst src m H; [done|]. cbn [acopy].
  apply IH, bytes_ok_aset; [done|apply H].
Qed.
Lemma bytes_ok_afill n m lo v : bytes_ok m -> isu8 v -> bytes_ok (afill n m lo v).
Proof. intros H Hv i. rewrite aget_afill. case_bool_decide; [done|apply H]. Qed.
#[export] Hint Resolve bytes_ok_empty bytes_ok_aset bytes_ok_mput bytes_ok_afill bytes_ok_acopy : words.

Lemma mget_bound n m a : bytes_ok m -> 0 <= mget n m a < 256 ^ Z.of_nat n.
Proof.
  intros H. revert a. induction n as [|n IH]; intros a; [simpl; lia|].
  cbn [mget]. specialize (IH (a + 1)). pose proof (H a).
  rewrite Nat2Z.inj_succ, Z.pow_succ_r by lia. lia.
Qed.

Lemma mget_isu64 n m a : bytes_ok m -> (n <= 8)%nat -> isu64 (mget n m a).
Proof.
  intros H Hn. pose proof (mget_bound n m a H) as Hb.
  pose proof (Z.pow_le_mono_r 256 (Z.of_nat n) 8 ltac:(lia) ltac:(lia)). lia.
Qed.

Lemma aget_mput_other n m a v i :
  (i < a \/ a + Z.of_nat n <= i) -> aget (mput n m a v) i = aget m i.
Proof.
  revert m a v. induction n as [|n IH]; intros m a v H; simpl; [done|].
  rewrite IH by lia. apply aget_aset_ne. lia.
Qed.

Lemma mget_ext n m m' a :
  (forall i, a <= i < a + Z.of_nat n -> aget m i = aget m' i) -> mget n m a = mget n m' a.
Proof.
  revert a. induction n as [|n IH]; intros a H; simpl; [done|].
  rewrite (H a) by lia. f_equal. f_equal. apply IH. intros i Hi. apply H. lia.
Qed.

(** The same bytes at another place. *)
Lemma mget_shift n m m' a a' :
  (forall j, 0 <= j < Z.of_nat n -> aget m (a + j) = aget m' (a' + j)) -> mget n m a = mget n m' a'.
Proof.
  revert a a'. induction n as [|n IH]; intros a a' H; cbn [mget]; [done|].
  pose proof (H 0 ltac:(lia)) as H0. rewrite !Z.add_0_r in H0. rewrite H0. do 2 f_equal.
  apply IH. intros j Hj. rewrite <- !Z.add_assoc. apply H. lia.
Qed.
Lemma mget_zero n m a : (forall i, aget m i = 0) -> mget n m a = 0.
Proof. intros H. revert a. induction n as [|n IH]; intros a; cbn [mget]; [done|]. by rewrite H, IH. Qed.

Lemma mget_mput_same n m a v : mget n (mput n m a v) a = v mod 256 ^ Z.of_nat n.
Proof.
  revert m a v. induction n as [|n IH]; intros m a v; [simpl; by rewrite Z.mod_1_r|].
  cbn [mget mput]. rewrite aget_mput_other by lia. rewrite aget_aset_eq, IH.
  rewrite Nat2Z.inj_succ, Z.pow_succ_r by lia.
  rewrite (Z.rem_mul_r v 256) by lia. done.
Qed.

Lemma mget_mput_other n k m a b v :
  (b + Z.of_nat k <= a \/ a + Z.of_nat n <= b) -> mget k (mput n m a v) b = mget k m b.
Proof. intros H. apply mget_ext. intros i Hi. apply aget_mput_other. lia. Qed.

(** Writing back what was read changes no cell. *)
Lemma mput_mget_id n m a : bytes_ok m -> aeq (mput n m a (mget n m a)) m.
Proof.
  intros H i. revert m a H. induction n as [|n IH]; intros m a H; [done|].
  cbn [mput mget].
  assert (u8 (aget m a + 256 * mget n m (a + 1)) = aget m a) as ->.
  { unfold u8. specialize (H a). zlia. }
  replace ((aget m a + 256 * mget n m (a + 1)) / 256) with (mget n m (a + 1))
    by (specialize (H a); zlia).
  rewrite <- (mget_ext n (aset m a (aget m a)) m (a + 1)).
  - rewrite IH; [|by apply bytes_ok_aset].
    rewrite aget_aset. case_decide; congruence.
  - intros j Hj. apply aget_aset_ne. lia.
Qed.

#[export] Instance mget_proper n : Proper (aeq ==> eq ==> eq) (mget n).
Proof. intros m m' H a b ->. apply mget_ext. intros i _. apply H. Qed.

(** ** Lists *)

Lemma filter_ne_id (x : Z) (l : list Z) : x ∉ l -> filter (fun i => i <> x) l = l.
Proof.
  induction l as [|y l IH]; intros H; [done|]. apply not_elem_of_cons in H as [Hy Hl].
  rewrite filter_cons_True by congruence. by rewrite IH.
Qed.

(** ** Strings

    A C string is the list of its bytes before the NUL. *)
Definition lit (s : string) : list Z :=
  map (fun c => Z.of_N (N_of_ascii c)) (list_ascii_of_string s).

Definition cstr_ok (s : list Z) : Prop := Forall (fun c => 1 <= c < 256) s.
