(* ===== verification/Rv64State.v ===== *)
(** The state of the RV64 emulator ([src/emulator/rv64.c], lines 9-47 and 63-71).

    The static variables of [rv64.c] are grouped in four records (CPU, UART queues, fetch device,
    TLBs) next to the RAM array; every static has a getter and a setter of its own, named after
    the C variable ([x] and [f] are [xreg] and [freg]).  Arrays are zero-initialised. *)
From S2P Require Import Prelude.

Definition RAM_BASE : Z := 0x80000000.
Definition RAM_SIZE : Z := 0x08000000.
Definition UART_BASE : Z := 0x10000000.
Definition FETCH_BASE : Z := 0x10000100.
Definition UART_CAP : Z := 4096.

Definition SSTATUS : Z := 0x100.
Definition SIE : Z := 0x104.
Definition STVEC : Z := 0x105.
Definition SSCRATCH : Z := 0x140.
Definition SEPC : Z := 0x141.
Definition SCAUSE : Z := 0x142.
Definition STVAL : Z := 0x143.
Definition SIP : Z := 0x144.
Definition SATP : Z := 0x180.
Definition STIMECMP : Z := 0x14d.
Definition TIME : Z := 0xc01.

Definition STATUS_SIE : Z := 2.
Definition STATUS_SPIE : Z := 32.
Definition STATUS_SPP : Z := 256.
Definition STATUS_SUM : Z := 262144.
Definition IP_STIP : Z := 32.

Record cpu := Cpu {
  c_xreg : gmap Z Z;
  c_freg : gmap Z Z;
  c_csr : gmap Z Z;
  c_pc : Z;
  c_ticks : Z;
  c_timecmp : Z;
  c_privilege : Z;
  c_halted : Z;
  c_fault : Z;
  c_fault_addr : Z;
  c_tick_step : Z;
  c_timer_steps : Z
}.

Record uart := Uart {
  c_uart_in : gmap Z Z;
  c_uart_out : gmap Z Z;
  c_in_read : Z;
  c_in_write : Z;
  c_out_read : Z;
  c_out_write : Z
}.

Record fetchdev := Fetchdev {
  c_fetch_url : Z;
  c_fetch_destination : Z;
  c_fetch_url_length : Z;
  c_fetch_capacity : Z;
  c_fetch_length : Z;
  c_fetch_status : Z
}.

Record tlb := Tlb {
  c_tlb_tag : gmap Z Z;
  c_tlb_ppage : gmap Z Z;
  c_fetch_vpage : Z;
  c_fetch_delta : Z
}.

Record rv := Rv { ram : gmap Z Z; rcpu : cpu; ruart : uart; rfetch : fetchdev; rtlb : tlb }.

Definition set_ram (v : gmap Z Z) (s : rv) : rv := Rv v (rcpu s) (ruart s) (rfetch s) (rtlb s).
Definition set_rcpu (v : cpu) (s : rv) : rv := Rv (ram s) v (ruart s) (rfetch s) (rtlb s).
Definition set_ruart (v : uart) (s : rv) : rv := Rv (ram s) (rcpu s) v (rfetch s) (rtlb s).
Definition set_rfetch (v : fetchdev) (s : rv) : rv := Rv (ram s) (rcpu s) (ruart s) v (rtlb s).
Definition set_rtlb (v : tlb) (s : rv) : rv := Rv (ram s) (rcpu s) (ruart s) (rfetch s) v.

Definition xreg (s : rv) : gmap Z Z := c_xreg (rcpu s).
Definition freg (s : rv) : gmap Z Z := c_freg (rcpu s).
Definition csr (s : rv) : gmap Z Z := c_csr (rcpu s).
Definition pc (s : rv) : Z := c_pc (rcpu s).
Definition ticks (s : rv) : Z := c_ticks (rcpu s).
Definition timecmp (s : rv) : Z := c_timecmp (rcpu s).
Definition privilege (s : rv) : Z := c_privilege (rcpu s).
Definition halted (s : rv) : Z := c_halted (rcpu s).
Definition fault (s : rv) : Z := c_fault (rcpu s).
Definition fault_addr (s : rv) : Z := c_fault_addr (rcpu s).
Definition tick_step (s : rv) : Z := c_tick_step (rcpu s).
Definition timer_steps (s : rv) : Z := c_timer_steps (rcpu s).

Definition set_xreg (v : gmap Z Z) (s : rv) : rv :=
  set_rcpu (Cpu v (freg s) (csr s) (pc s) (ticks s) (timecmp s) (privilege s) (halted s) (fault s) (fault_addr s) (tick_step s) (timer_steps s)) s.
Definition set_freg (v : gmap Z Z) (s : rv) : rv :=
  set_rcpu (Cpu (xreg s) v (csr s) (pc s) (ticks s) (timecmp s) (privilege s) (halted s) (fault s) (fault_addr s) (tick_step s) (timer_steps s)) s.
Definition set_csr_arr (v : gmap Z Z) (s : rv) : rv :=
  set_rcpu (Cpu (xreg s) (freg s) v (pc s) (ticks s) (timecmp s) (privilege s) (halted s) (fault s) (fault_addr s) (tick_step s) (timer_steps s)) s.
Definition set_pc (v : Z) (s : rv) : rv :=
  set_rcpu (Cpu (xreg s) (freg s) (csr s) v (ticks s) (timecmp s) (privilege s) (halted s) (fault s) (fault_addr s) (tick_step s) (timer_steps s)) s.
Definition set_ticks (v : Z) (s : rv) : rv :=
  set_rcpu (Cpu (xreg s) (freg s) (csr s) (pc s) v (timecmp s) (privilege s) (halted s) (fault s) (fault_addr s) (tick_step s) (timer_steps s)) s.
Definition set_timecmp (v : Z) (s : rv) : rv :=
  set_rcpu (Cpu (xreg s) (freg s) (csr s) (pc s) (ticks s) v (privilege s) (halted s) (fault s) (fault_addr s) (tick_step s) (timer_steps s)) s.
Definition set_privilege (v : Z) (s : rv) : rv :=
  set_rcpu (Cpu (xreg s) (freg s) (csr s) (pc s) (ticks s) (timecmp s) v (halted s) (fault s) (fault_addr s) (tick_step s) (timer_steps s)) s.
Definition set_halted (v : Z) (s : rv) : rv :=
  set_rcpu (Cpu (xreg s) (freg s) (csr s) (pc s) (ticks s) (timecmp s) (privilege s) v (fault s) (fault_addr s) (tick_step s) (timer_steps s)) s.
Definition set_fault (v : Z) (s : rv) : rv :=
  set_rcpu (Cpu (xreg s) (freg s) (csr s) (pc s) (ticks s) (timecmp s) (privilege s) (halted s) v (fault_addr s) (tick_step s) (timer_steps s)) s.
Definition set_fault_addr (v : Z) (s : rv) : rv :=
  set_rcpu (Cpu (xreg s) (freg s) (csr s) (pc s) (ticks s) (timecmp s) (privilege s) (halted s) (fault s) v (tick_step s) (timer_steps s)) s.
Definition set_tick_step (v : Z) (s : rv) : rv :=
  set_rcpu (Cpu (xreg s) (freg s) (csr s) (pc s) (ticks s) (timecmp s) (privilege s) (halted s) (fault s) (fault_addr s) v (timer_steps s)) s.
Definition set_timer_steps (v : Z) (s : rv) : rv :=
  set_rcpu (Cpu (xreg s) (freg s) (csr s) (pc s) (ticks s) (timecmp s) (privilege s) (halted s) (fault s) (fault_addr s) (tick_step s) v) s.

Definition uart_in (s : rv) : gmap Z Z := c_uart_in (ruart s).
Definition uart_out (s : rv) : gmap Z Z := c_uart_out (ruart s).
Definition in_read (s : rv) : Z := c_in_read (ruart s).
Definition in_write (s : rv) : Z := c_in_write (ruart s).
Definition out_read (s : rv) : Z := c_out_read (ruart s).
Definition out_write (s : rv) : Z := c_out_write (ruart s).

Definition set_uart_in (v : gmap Z Z) (s : rv) : rv :=
  set_ruart (Uart v (uart_out s) (in_read s) (in_write s) (out_read s) (out_write s)) s.
Definition set_uart_out (v : gmap Z Z) (s : rv) : rv :=
  set_ruart (Uart (uart_in s) v (in_read s) (in_write s) (out_read s) (out_write s)) s.
Definition set_in_read (v : Z) (s : rv) : rv :=
  set_ruart (Uart (uart_in s) (uart_out s) v (in_write s) (out_read s) (out_write s)) s.
Definition set_in_write (v : Z) (s : rv) : rv :=
  set_ruart (Uart (uart_in s) (uart_out s) (in_read s) v (out_read s) (out_write s)) s.
Definition set_out_read (v : Z) (s : rv) : rv :=
  set_ruart (Uart (uart_in s) (uart_out s) (in_read s) (in_write s) v (out_write s)) s.
Definition set_out_write (v : Z) (s : rv) : rv :=
  set_ruart (Uart (uart_in s) (uart_out s) (in_read s) (in_write s) (out_read s) v) s.

Definition fetch_url (s : rv) : Z := c_fetch_url (rfetch s).
Definition fetch_destination (s : rv) : Z := c_fetch_destination (rfetch s).
Definition fetch_url_length (s : rv) : Z := c_fetch_url_length (rfetch s).
Definition fetch_capacity (s : rv) : Z := c_fetch_capacity (rfetch s).
Definition fetch_length (s : rv) : Z := c_fetch_length (rfetch s).
Definition fetch_status (s : rv) : Z := c_fetch_status (rfetch s).

Definition set_fetch_url (v : Z) (s : rv) : rv :=
  set_rfetch (Fetchdev v (fetch_destination s) (fetch_url_length s) (fetch_capacity s) (fetch_length s) (fetch_status s)) s.
Definition set_fetch_destination (v : Z) (s : rv) : rv :=
  set_rfetch (Fetchdev (fetch_url s) v (fetch_url_length s) (fetch_capacity s) (fetch_length s) (fetch_status s)) s.
Definition set_fetch_url_length (v : Z) (s : rv) : rv :=
  set_rfetch (Fetchdev (fetch_url s) (fetch_destination s) v (fetch_capacity s) (fetch_length s) (fetch_status s)) s.
Definition set_fetch_capacity (v : Z) (s : rv) : rv :=
  set_rfetch (Fetchdev (fetch_url s) (fetch_destination s) (fetch_url_length s) v (fetch_length s) (fetch_status s)) s.
Definition set_fetch_length (v : Z) (s : rv) : rv :=
  set_rfetch (Fetchdev (fetch_url s) (fetch_destination s) (fetch_url_length s) (fetch_capacity s) v (fetch_status s)) s.
Definition set_fetch_status (v : Z) (s : rv) : rv :=
  set_rfetch (Fetchdev (fetch_url s) (fetch_destination s) (fetch_url_length s) (fetch_capacity s) (fetch_length s) v) s.

Definition tlb_tag (s : rv) : gmap Z Z := c_tlb_tag (rtlb s).
Definition tlb_ppage (s : rv) : gmap Z Z := c_tlb_ppage (rtlb s).
Definition fetch_vpage (s : rv) : Z := c_fetch_vpage (rtlb s).
Definition fetch_delta (s : rv) : Z := c_fetch_delta (rtlb s).

Definition set_tlb_tag (v : gmap Z Z) (s : rv) : rv :=
  set_rtlb (Tlb v (tlb_ppage s) (fetch_vpage s) (fetch_delta s)) s.
Definition set_tlb_ppage (v : gmap Z Z) (s : rv) : rv :=
  set_rtlb (Tlb (tlb_tag s) v (fetch_vpage s) (fetch_delta s)) s.
Definition set_fetch_vpage (v : Z) (s : rv) : rv :=
  set_rtlb (Tlb (tlb_tag s) (tlb_ppage s) v (fetch_delta s)) s.
Definition set_fetch_delta (v : Z) (s : rv) : rv :=
  set_rtlb (Tlb (tlb_tag s) (tlb_ppage s) (fetch_vpage s) v) s.
(** Register and CSR access as the code writes it: [x[r]], [f[r]], [csr[n]]. *)
Definition getx (s : rv) (r : Z) : Z := aget (xreg s) r.
Definition getf (s : rv) (r : Z) : Z := aget (freg s) r.
Definition getcsr (s : rv) (n : Z) : Z := aget (csr s) n.
Definition setx (r v : Z) (s : rv) : rv := set_xreg (aset (xreg s) r v) s.
Definition setf (r v : Z) (s : rv) : rv := set_freg (aset (freg s) r v) s.
Definition setcsr (n v : Z) (s : rv) : rv := set_csr_arr (aset (csr s) n v) s.

(** [TLB_SLOT(va, access)] and [TLB_TAG(va)]. *)
Definition TLB_SLOT (va access : Z) : Z :=
  u32 (Z.land (u32 (Z.shiftr va 12)) 255 + access * 256).
Definition TLB_TAG (s : rv) (va : Z) : Z :=
  u64 (Z.lor (Z.lor (u64 (Z.shiftl (Z.shiftr va 12) 2)) (privilege s))
             (if tst (getcsr s SSTATUS) STATUS_SUM then 2 else 0) + 1).

Definition flush_tlb (s : rv) : rv :=
  set_fetch_vpage 0xffffffffffffffff (set_tlb_tag (afill 768 (tlb_tag s) 0 0) s).

(** The power-on state: every static is zero but [fetch_vpage], which is initialised. *)
Definition rv_bss : rv :=
  Rv ∅ (Cpu ∅ ∅ ∅ 0 0 0 0 0 0 0 0 0) (Uart ∅ ∅ 0 0 0 0) (Fetchdev 0 0 0 0 0 0)
     (Tlb ∅ ∅ 0xffffffffffffffff 0).
