(* ===== verification/Rv64Mem.v ===== *)
(** The emulator's physical memory map, Sv39 translation and load/store path
    ([src/emulator/rv64.c], lines 72-235).

    A C function that returns an [int] success flag and writes an out parameter is a function
    returning the flag, the out parameter's final value and the new state.  [*v] may be written
    even by a call that fails (a load that crosses a page), so loads take the old value too. *)
From S2P Require Import Prelude Rv64State.

(** The four access widths the code distinguishes; any other size is the [else] branch. *)
Definition width (size : Z) : nat :=
  if size =? 1 then 1%nat else if size =? 2 then 2%nat else if size =? 4 then 4%nat else 8%nat.

Definition in_ram (off size : Z) : bool := (off <? RAM_SIZE) && (u64 (off + size) <=? RAM_SIZE).
Definition in_uart (addr size : Z) : bool :=
  (UART_BASE <=? addr) && (addr <? UART_BASE + 8) && (size =? 1).
Definition in_fetch (addr size : Z) : bool :=
  (FETCH_BASE <=? addr) && (addr <? FETCH_BASE + 32) && (size =? 4).

Definition uart_read (reg : Z) (s : rv) : Z * rv :=
  if reg =? 0 then
    if in_read s =? in_write s then (0, s)
    else (aget (uart_in s) (Z.land (in_read s) (UART_CAP - 1)),
          set_in_read (u32 (in_read s + 1)) s)
  else if reg =? 5 then (Z.lor 0x20 (Z.b2z (negb (in_read s =? in_write s))), s)
  else (0, s).

Definition fetch_read (reg : Z) (s : rv) : Z :=
  if reg =? 0 then fetch_status s
  else if reg =? 4 then u32 (fetch_url s)
  else if reg =? 8 then fetch_url_length s
  else if reg =? 12 then u32 (fetch_destination s)
  else if reg =? 16 then fetch_capacity s
  else if reg =? 20 then fetch_length s
  else 0.

Definition physical_read (addr size value : Z) (s : rv) : bool * Z * rv :=
  let off := u64 (addr - RAM_BASE) in
  if in_ram off size then (true, mget (width size) (ram s) off, s)
  else if in_uart addr size then
    let '(v, s) := uart_read (u32 (addr - UART_BASE)) s in (true, v, s)
  else if in_fetch addr size then (true, fetch_read (u32 (addr - FETCH_BASE)) s, s)
  else (false, value, set_fault 2 (set_fault_addr addr s)).

Definition uart_write (addr value : Z) (s : rv) : rv :=
  if (addr =? UART_BASE) && (u32 (out_write s - out_read s) <? UART_CAP) then
    set_uart_out (aset (uart_out s) (Z.land (out_write s) (UART_CAP - 1)) (u8 value))
      (set_out_write (u32 (out_write s + 1)) s)
  else s.

Definition fetch_write (reg value : Z) (s : rv) : rv :=
  if reg =? 0 then set_fetch_status (u32 value) s
  else if reg =? 4 then set_fetch_url (u32 value) s
  else if reg =? 8 then set_fetch_url_length (u32 value) s
  else if reg =? 12 then set_fetch_destination (u32 value) s
  else if reg =? 16 then set_fetch_capacity (u32 value) s
  else s.

Definition physical_write (addr size value : Z) (s : rv) : bool * rv :=
  let off := u64 (addr - RAM_BASE) in
  if in_ram off size then (true, set_ram (mput (width size) (ram s) off value) s)
  else if in_uart addr size then (true, uart_write addr value s)
  else if in_fetch addr size then (true, fetch_write (u32 (addr - FETCH_BASE)) value s)
  else (false, set_fault 2 (set_fault_addr addr s)).

(** [fault_addr = va; fault = 1; return 0;] *)
Definition page_fault (va : Z) (s : rv) : option Z * rv :=
  (None, set_fault 1 (set_fault_addr va s)).

(** The walk loop [for (level = 3; level-- != 0;)]: [n] is the value of [level] the condition
    tests, so the body runs with [level = n - 1].  [None] is a fault inside the loop; otherwise
    the values of [level], [pte] and [pte_addr] when the loop ends. *)
Fixpoint walk_loop (n : nat) (va table pte pte_addr : Z) (s : rv) : option (Z * Z * Z) * rv :=
  match n with
  | O => (Some (u32 (-1), pte, pte_addr), s)
  | S level =>
      let idx := Z.land (Z.shiftr va (12 + 9 * Z.of_nat level)) 511 in
      let pte_addr := u64 (table + idx * 8) in
      match physical_read pte_addr 8 pte s with
      | (false, _, s) => (None, set_fault 1 (set_fault_addr va s))
      | (true, pte, s) =>
          if negb (tst pte 1) then (None, set_fault 1 (set_fault_addr va s))
          else if tst pte 14 then (Some (Z.of_nat level, pte, pte_addr), s)
          else walk_loop level va (u64 (Z.shiftl (Z.shiftr pte 10) 12)) pte pte_addr s
      end
  end.

(** The permission test of lines 165-169: true when the access must fault. *)
Definition pte_denied (access level pte : Z) (s : rv) : bool :=
  negb (tst pte 14) || ((access =? 0) && negb (tst pte 8)) ||
  ((access =? 1) && negb (tst pte 2)) || ((access =? 2) && negb (tst pte 4)) ||
  negb (level =? 0) ||
  (tst pte 16 && (privilege s =? 0) &&
     ((access =? 0) || negb (tst (getcsr s SSTATUS) STATUS_SUM))) ||
  (negb (tst pte 16) && (privilege s =? 1)).

(** Lines 174-177: set the accessed and dirty bits in memory when they are clear. *)
Definition update_ad (access pte_addr pte : Z) (s : rv) : bool * Z * rv :=
  if negb (tst pte 64) || ((access =? 2) && negb (tst pte 128)) then
    let pte := Z.lor pte (Z.lor 64 (if access =? 2 then 128 else 0)) in
    let '(ok, s) := physical_write pte_addr 8 pte s in (ok, pte, s)
  else (true, pte, s).

Definition tlb_fill (slot tag pa : Z) (s : rv) : rv :=
  set_tlb_ppage (aset (tlb_ppage s) slot (Z.land pa (not64 4095)))
    (set_tlb_tag (aset (tlb_tag s) slot tag) s).

Definition translate (va access : Z) (s : rv) : option Z * rv :=
  let satp := getcsr s SATP in
  let mode := u32 (Z.shiftr satp 60) in
  if mode =? 0 then (Some va, s)
  else if negb (mode =? 8) then page_fault va s
  else
    let slot := TLB_SLOT va access in
    let tag := TLB_TAG s va in
    if aget (tlb_tag s) slot =? tag then
      (Some (Z.lor (aget (tlb_ppage s) slot) (Z.land va 4095)), s)
    else
      let table := u64 (Z.shiftl (Z.land satp (Z.shiftl 1 44 - 1)) 12) in
      match walk_loop 3 va table 0 0 s with
      | (None, s) => (None, s)
      | (Some (level, pte, pte_addr), s) =>
          if pte_denied access level pte s then page_fault va s
          else
            let '(ok, pte, s) := update_ad access pte_addr pte s in
            if negb ok then (None, s)
            else
              let pa := Z.lor (u64 (Z.shiftl (Z.shiftr pte 10) 12)) (Z.land va 4095) in
              (Some pa, tlb_fill slot tag pa s)
      end.

(** The byte loop of a load that crosses a page: [n] bytes are left, [i] is the loop index. *)
Fixpoint load_bytes (n : nat) (i va access v : Z) (s : rv) : bool * Z * rv :=
  match n with
  | O => (true, v, s)
  | S n =>
      match translate (u64 (va + i)) access s with
      | (None, s) => (false, v, s)
      | (Some pa, s) =>
          match physical_read pa 1 0 s with
          | (false, _, s) => (false, v, s)
          | (true, byte, s) =>
              load_bytes n (i + 1) va access (Z.lor v (u64 (Z.shiftl byte (i * 8)))) s
          end
      end
  end.

(** The TLB probe [load] and [store] make before calling [translate]. *)
Definition probe (va access : Z) (s : rv) : option Z * rv :=
  let slot := TLB_SLOT va access in
  if aget (tlb_tag s) slot =? TLB_TAG s va then
    (Some (Z.lor (aget (tlb_ppage s) slot) (Z.land va 4095)), s)
  else translate va access s.

Definition load (va size access v : Z) (s : rv) : bool * Z * rv :=
  if 4096 <? u64 (Z.land va 4095 + size) then load_bytes (Z.to_nat size) 0 va access 0 s
  else
    match probe va access s with
    | (None, s) => (false, v, s)
    | (Some pa, s) =>
        let off := u64 (pa - RAM_BASE) in
        if in_ram off size then (true, mget (width size) (ram s) off, s)
        else physical_read pa size v s
    end.

Fixpoint store_bytes (n : nat) (i va v : Z) (s : rv) : bool * rv :=
  match n with
  | O => (true, s)
  | S n =>
      match translate (u64 (va + i)) 2 s with
      | (None, s) => (false, s)
      | (Some pa, s) =>
          match physical_write pa 1 (Z.shiftr v (i * 8)) s with
          | (false, s) => (false, s)
          | (true, s) => store_bytes n (i + 1) va v s
          end
      end
  end.

Definition store (va size v : Z) (s : rv) : bool * rv :=
  if 4096 <? u64 (Z.land va 4095 + size) then store_bytes (Z.to_nat size) 0 va v s
  else
    match probe va 2 s with
    | (None, s) => (false, s)
    | (Some pa, s) =>
        let off := u64 (pa - RAM_BASE) in
        if in_ram off size then (true, set_ram (mput (width size) (ram s) off v) s)
        else physical_write pa size v s
    end.
