(* ===== verification/Rv64Csr.v ===== *)
(** CSR writes, traps and the SYSTEM instructions of the emulator
    ([src/emulator/rv64.c], lines 236-316). *)
From S2P Require Import Prelude Rv64State.

(** The number of [rv_run] steps until [ticks] reaches the compare value [v]. *)
Definition timer_count (v ticks tick_step : Z) : Z :=
  if (ticks <? v) && negb (tick_step =? 0) then u64 (u64 (u64 (v - ticks) + tick_step) - 1) / tick_step
  else Z.b2z (negb (v =? 0)).

Definition set_csr (n v : Z) (s : rv) : rv :=
  let s := setcsr n v s in
  let s :=
    if n =? STIMECMP then
      let steps := timer_count v (ticks s) (tick_step s) in
      let s := set_timecmp v s in
      let s := if (v =? 0) || (ticks s <? v)
               then setcsr SIP (Z.land (getcsr s SIP) (not64 IP_STIP)) s else s in
      set_timer_steps (if 0xffffffff <? steps then 0xffffffff else u32 steps) s
    else s in
  if (n =? SATP) || (n =? SSTATUS) then flush_tlb s else s.

(** [status |= bit] or [status &= ~bit]. *)
Definition put_bit (b : bool) (bit status : Z) : Z :=
  if b then Z.lor status bit else Z.land status (not64 bit).

Definition trap (cause value interrupt : Z) (s : rv) : rv :=
  let status := getcsr s SSTATUS in
  let s := setcsr SEPC (pc s) s in
  let s := setcsr SCAUSE (Z.lor cause (if interrupt =? 0 then 0 else Z.shiftl 1 63)) s in
  let s := setcsr STVAL value s in
  let status := put_bit (privilege s =? 0) STATUS_SPP status in
  let status := put_bit (tst status STATUS_SIE) STATUS_SPIE status in
  let status := Z.land status (not64 STATUS_SIE) in
  let s := setcsr SSTATUS status s in
  let s := set_privilege 0 s in
  let s := set_pc (Z.land (getcsr s STVEC) (not64 3)) s in
  let s := set_halted 0 s in
  flush_tlb s.

(** The supervisor return (imm 0x102). *)
Definition sret (s : rv) : rv :=
  let st := getcsr s SSTATUS in
  let s := set_privilege (if tst st STATUS_SPP then 0 else 1) s in
  let st := put_bit (tst st STATUS_SPIE) STATUS_SIE st in
  let s := setcsr SSTATUS (Z.land (Z.lor st STATUS_SPIE) (not64 STATUS_SPP)) s in
  flush_tlb (set_pc (getcsr s SEPC) s).

Definition csr_value (kind old src : Z) : option Z :=
  if kind =? 1 then Some src
  else if kind =? 2 then Some (Z.lor old src)
  else if kind =? 3 then Some (Z.land old (not64 src))
  else None.

Definition execute_system (insn rd f3 rs1 next : Z) (s : rv) : bool * rv :=
  let imm := Z.shiftr insn 20 in
  if f3 =? 0 then
    if imm =? 0 then (true, trap (if privilege s =? 0 then 9 else 8) 0 0 s)
    else if imm =? 1 then (true, trap 3 (pc s) 0 s)
    else if imm =? 0x102 then (true, sret s)
    else if imm =? 0x105 then (true, set_pc next (set_halted 1 s))
    else if Z.shiftr insn 25 =? 9 then (true, set_pc next (flush_tlb s))
    else (false, s)
  else
    let n := Z.land imm 4095 in
    let kind := Z.land f3 3 in
    let old := if n =? TIME then ticks s else getcsr s n in
    let src := if 5 <=? f3 then rs1 else getx s rs1 in
    match csr_value kind old src with
    | None => (false, s)
    | Some value =>
        let s := if (kind =? 1) || negb (rs1 =? 0) then set_csr n value s else s in
        let s := if rd =? 0 then s else setx rd old s in
        (true, set_pc next s)
    end.
