(* ===== verification/Rv64Alu.v ===== *)
(** The integer ALU of the emulator ([src/emulator/rv64.c], lines 263-269, 285 and the register
    cases of [execute], lines 336-415), and its agreement with a reference definition of the
    RV64IM arithmetic. *)
From S2P Require Import Prelude.

Definition mulhu (a b : Z) : Z :=
  let a0 := u32 a in let a1 := Z.shiftr a 32 in
  let b0 := u32 b in let b1 := Z.shiftr b 32 in
  let p0 := u64 (a0 * b0) in let p1 := u64 (a0 * b1) in
  let p2 := u64 (a1 * b0) in let p3 := u64 (a1 * b1) in
  let carry := u64 (u64 (Z.shiftr p0 32 + u32 p1) + u32 p2) in
  u64 (u64 (u64 (p3 + Z.shiftr p1 32) + Z.shiftr p2 32) + Z.shiftr carry 32).

(** [(i32)(v << (32 - bits)) >> (32 - bits)] *)
Definition sext32 (v bits : Z) : Z :=
  Z.shiftr (i32 (u32 (Z.shiftl v (32 - bits)))) (32 - bits).

(** Instruction fields.  The immediates are C [i32] values. *)
Definition insn_op (insn : Z) : Z := Z.land insn 127.
Definition insn_rd (insn : Z) : Z := Z.land (Z.shiftr insn 7) 31.
Definition insn_f3 (insn : Z) : Z := Z.land (Z.shiftr insn 12) 7.
Definition insn_rs1 (insn : Z) : Z := Z.land (Z.shiftr insn 15) 31.
Definition insn_rs2 (insn : Z) : Z := Z.land (Z.shiftr insn 20) 31.
Definition insn_f7 (insn : Z) : Z := Z.shiftr insn 25.
Definition imm_i (insn : Z) : Z := Z.shiftr (i32 insn) 20.
Definition imm_s (insn : Z) : Z :=
  sext32 (Z.lor (Z.land (Z.shiftr insn 7) 31) (u32 (Z.shiftl (Z.shiftr insn 25) 5))) 12.
Definition imm_j (insn : Z) : Z :=
  i32 (Z.lor (Z.lor (Z.lor (Z.shiftl (Z.land (Z.shiftr insn 21) 1023) 1)
                           (Z.shiftl (Z.land (Z.shiftr insn 20) 1) 11))
                    (Z.shiftl (Z.land (Z.shiftr insn 12) 255) 12))
             (u32 (Z.shiftl (Z.shiftr (i32 insn) 31) 20))).
Definition imm_b (insn : Z) : Z :=
  i32 (Z.lor (Z.lor (Z.lor (Z.shiftl (Z.land (Z.shiftr insn 8) 15) 1)
                           (Z.shiftl (Z.land (Z.shiftr insn 25) 63) 5))
                    (Z.shiftl (Z.land (Z.shiftr insn 7) 1) 11))
             (u32 (Z.shiftl (Z.shiftr (i32 insn) 31) 12))).
(** [(i64)(i32)(insn & 0xfffff000)] *)
Definition imm_u (insn : Z) : Z := i32 (Z.land insn 0xfffff000).

(** [case 0x63]: is the branch taken. *)
Definition branch_taken (f3 a b : Z) : bool :=
  ((f3 =? 0) && (a =? b)) || ((f3 =? 1) && negb (a =? b)) ||
  ((f3 =? 4) && (i64 a <? i64 b)) || ((f3 =? 5) && (i64 b <=? i64 a)) ||
  ((f3 =? 6) && (a <? b)) || ((f3 =? 7) && (b <=? a)).

(** [case 0x13]: [None] is [ok = 0]. *)
Definition alu_imm (f3 f7 insn a : Z) : option Z :=
  let imm := imm_i insn in
  let sh := Z.land (Z.shiftr insn 20) 63 in
  if f3 =? 1 then Some (u64 (Z.shiftl a sh))
  else if f3 =? 2 then Some (Z.b2z (i64 a <? imm))
  else if f3 =? 3 then Some (Z.b2z (a <? u64 imm))
  else if f3 =? 4 then Some (Z.lxor a (u64 imm))
  else if f3 =? 5 then
    Some (if tst f7 32 then u64 (Z.shiftr (i64 a) sh) else Z.shiftr a sh)
  else if f3 =? 6 then Some (Z.lor a (u64 imm))
  else if f3 =? 7 then Some (Z.land a (u64 imm))
  else None.

(** [case 0x1b] *)
Definition alu_imm32 (f3 f7 insn a : Z) : option Z :=
  let imm := imm_i insn in
  let sh := Z.land (Z.shiftr insn 20) 31 in
  if f3 =? 0 then Some (u64 (i32 (u32 (u32 a + imm))))
  else if f3 =? 1 then Some (u64 (i32 (u32 (Z.shiftl (u32 a) sh))))
  else if f3 =? 5 then
    Some (u64 (i32 (if tst f7 32 then u32 (Z.shiftr (i32 a) sh) else Z.shiftr (u32 a) sh)))
  else None.

Definition MIN64 : Z := 0x8000000000000000.
Definition ONES64 : Z := 0xffffffffffffffff.

(** [case 0x33] with [f7 == 1]: the M extension. *)
Definition alu_mul (f3 a b : Z) : Z :=
  if f3 =? 0 then u64 (a * b)
  else if f3 =? 1 then
    u64 (u64 (mulhu a b - (if i64 a <? 0 then b else 0)) - (if i64 b <? 0 then a else 0))
  else if f3 =? 2 then u64 (mulhu a b - (if i64 a <? 0 then b else 0))
  else if f3 =? 3 then mulhu a b
  else if f3 =? 4 then
    if b =? 0 then ONES64
    else if (a =? MIN64) && (b =? ONES64) then a else u64 (Z.quot (i64 a) (i64 b))
  else if f3 =? 5 then if b =? 0 then ONES64 else a / b
  else if f3 =? 6 then
    if b =? 0 then a
    else if (a =? MIN64) && (b =? ONES64) then 0 else u64 (Z.rem (i64 a) (i64 b))
  else if f3 =? 7 then if b =? 0 then a else a mod b
  else 0.

(** [case 0x33]: the result [v], which starts at 0. *)
Definition alu_reg (f3 f7 a b : Z) : Z :=
  if f7 =? 1 then alu_mul f3 a b
  else if f3 =? 0 then if tst f7 32 then u64 (a - b) else u64 (a + b)
  else if f3 =? 1 then u64 (Z.shiftl a (Z.land b 63))
  else if f3 =? 2 then Z.b2z (i64 a <? i64 b)
  else if f3 =? 3 then Z.b2z (a <? b)
  else if f3 =? 4 then Z.lxor a b
  else if f3 =? 5 then
    if tst f7 32 then u64 (Z.shiftr (i64 a) (Z.land b 63)) else Z.shiftr a (Z.land b 63)
  else if f3 =? 6 then Z.lor a b
  else if f3 =? 7 then Z.land a b
  else 0.

(** [case 0x3b]: [None] is [ok = 0]; [w] is a C [i32]. *)
Definition alu_reg32 (f3 f7 a b : Z) : option Z :=
  let aa := i32 a in let bb := i32 b in
  let sh := Z.land (u32 bb) 31 in
  let w :=
    if f7 =? 1 then
      if f3 =? 0 then Some (i32 (u32 (u32 aa * u32 bb)))
      else if f3 =? 4 then
        Some (if bb =? 0 then -1
              else if (aa =? -2147483648) && (bb =? -1) then aa else Z.quot aa bb)
      else if f3 =? 5 then Some (i32 (if bb =? 0 then u32 (-1) else u32 aa / u32 bb))
      else if f3 =? 6 then
        Some (if bb =? 0 then aa
              else if (aa =? -2147483648) && (bb =? -1) then 0 else Z.rem aa bb)
      else if f3 =? 7 then Some (i32 (if bb =? 0 then u32 aa else u32 aa mod u32 bb))
      else None
    else if f3 =? 0 then Some (if tst f7 32 then i32 (aa - bb) else i32 (aa + bb))
    else if f3 =? 1 then Some (i32 (u32 (Z.shiftl (u32 aa) sh)))
    else if f3 =? 5 then
      Some (i32 (if tst f7 32 then u32 (Z.shiftr aa sh) else Z.shiftr (u32 aa) sh))
    else None in
  match w with Some w => Some (u64 w) | None => None end.

(** The read-modify-write value of [case 0x2f]; [None] is [ok = 0].  At size 4 both operands
    have been truncated to 32 bits. *)
Definition amo_value (fn size old b : Z) : option Z :=
  if fn =? 0 then Some (u64 (old + b))
  else if fn =? 1 then Some b
  else if fn =? 4 then Some (Z.lxor old b)
  else if fn =? 8 then Some (Z.lor old b)
  else if fn =? 12 then Some (Z.land old b)
  else if fn =? 16 then
    Some (if size =? 4 then (if i32 old <? i32 b then old else b)
          else if i64 old <? i64 b then old else b)
  else if fn =? 20 then
    Some (if size =? 4 then (if i32 b <? i32 old then old else b)
          else if i64 b <? i64 old then old else b)
  else if fn =? 24 then Some (if old <? b then old else b)
  else if fn =? 28 then Some (if b <? old then old else b)
  else None.

(** ** Reference semantics of RV64M on integers *)

(** The 64-bit results the ISA manual gives for [funct3] 0..7, stated on mathematical integers:
    [Z.quot]/[Z.rem] round towards zero, and division by zero gives all ones / the dividend. *)
Definition rv64m (f3 a b : Z) : Z :=
  let sa := i64 a in let sb := i64 b in
  match f3 with
  | 0 => u64 (a * b)
  | 1 => u64 (sa * sb / 2 ^ 64)
  | 2 => u64 (sa * b / 2 ^ 64)
  | 3 => a * b / 2 ^ 64
  | 4 => if b =? 0 then 2 ^ 64 - 1 else u64 (Z.quot sa sb)
  | 5 => if b =? 0 then 2 ^ 64 - 1 else a / b
  | 6 => if b =? 0 then a else u64 (Z.rem sa sb)
  | _ => if b =? 0 then a else a mod b
  end.

(** The same for the W forms: the low halves as signed or unsigned 32-bit numbers, the result
    sign-extended. *)
Definition rv64mw (f3 a b : Z) : option Z :=
  let sa := i32 a in let sb := i32 b in
  let ua := u32 a in let ub := u32 b in
  match f3 with
  | 0 => Some (u64 (i32 (a * b)))
  | 4 => Some (u64 (i32 (if ub =? 0 then -1 else Z.quot sa sb)))
  | 5 => Some (u64 (i32 (if ub =? 0 then -1 else ua / ub)))
  | 6 => Some (u64 (i32 (if ub =? 0 then sa else Z.rem sa sb)))
  | 7 => Some (u64 (i32 (if ub =? 0 then ua else ua mod ub)))
  | _ => None
  end.

(** ** Lemmas *)

Lemma mulhu_high a b : isu64 a -> isu64 b -> mulhu a b = a * b / 18446744073709551616.
Proof.
  intros Ha Hb. unfold mulhu.
  rewrite !Z.shiftr_div_pow2 by lia. change (2 ^ 32) with 4294967296.
  unfold u32. set (K := 4294967296).
  assert (0 <= a mod K < K) as H1 by (apply Z.mod_pos_bound; lia).
  assert (0 <= b mod K < K) as H2 by (apply Z.mod_pos_bound; lia).
  assert (0 <= a / K < K) as H3 by (subst K; zlia).
  assert (0 <= b / K < K) as H4 by (subst K; zlia).
  assert (a = K * (a / K) + a mod K) as Ea by (apply Z.div_mod; lia).
  assert (b = K * (b / K) + b mod K) as Eb by (apply Z.div_mod; lia).
  generalize dependent (a mod K). generalize dependent (a / K).
  generalize dependent (b mod K). generalize dependent (b / K).
  intros b1 H4 b0 H2 Eb a1 H3 a0 H1 Ea. subst a b. clear Ha Hb.
  assert (0 <= a0 * b0 <= (K-1)*(K-1)) by nia.
  assert (0 <= a0 * b1 <= (K-1)*(K-1)) by nia.
  assert (0 <= a1 * b0 <= (K-1)*(K-1)) by nia.
  assert (0 <= a1 * b1 <= (K-1)*(K-1)) by nia.
  replace ((K * a1 + a0) * (K * b1 + b0))
    with (K * K * (a1 * b1) + K * (a0 * b1 + a1 * b0) + a0 * b0) by ring.
  generalize dependent (a0 * b0). generalize dependent (a0 * b1).
  generalize dependent (a1 * b0). generalize dependent (a1 * b1).
  intros p3 P3 p2 P2 p1 P1 p0 P0. subst K. unfold u64. zlia.
Qed.

Lemma mulhu_bound a b : isu64 a -> isu64 b -> isu64 (a * b / 18446744073709551616).
Proof.
  intros Ha Hb. split; [apply Z.div_pos; nia|].
  apply Z.div_lt_upper_bound; nia.
Qed.

(** High words of products with a signed operand, in terms of the unsigned high word. *)
Lemma high_signed a b sa sb : isu64 a -> isu64 b ->
  (sa = 0 \/ sa = 1) -> (sb = 0 \/ sb = 1) ->
  (a - 18446744073709551616 * sa) * (b - 18446744073709551616 * sb) / 18446744073709551616
  = a * b / 18446744073709551616 - sa * b - sb * a + sa * sb * 18446744073709551616.
Proof.
  intros Ha Hb Hsa Hsb.
  replace ((a - 18446744073709551616 * sa) * (b - 18446744073709551616 * sb))
    with (a * b + (- sa * b - sb * a + sa * sb * 18446744073709551616) * 18446744073709551616)
    by ring.
  rewrite Z.div_add by lia. ring.
Qed.

Lemma i64_split a : isu64 a ->
  i64 a = a - 18446744073709551616 * (if i64 a <? 0 then 1 else 0).
Proof. intros. destruct (Z.ltb_spec (i64 a) 0); unfold i64 in *; zlia. Qed.

Lemma mulh_split a b : isu64 a -> isu64 b ->
  i64 a * i64 b / 18446744073709551616 = a * b / 18446744073709551616
    - (if i64 a <? 0 then b else 0) - (if i64 b <? 0 then a else 0)
    + (if i64 a <? 0 then if i64 b <? 0 then 18446744073709551616 else 0 else 0).
Proof.
  intros Ha Hb.
  rewrite (i64_split a Ha) at 1. rewrite (i64_split b Hb) at 1.
  rewrite high_signed by (try done; case_match; lia).
  destruct (i64 a <? 0), (i64 b <? 0); lia.
Qed.

Lemma mulhsu_split a b : isu64 a -> isu64 b ->
  i64 a * b / 18446744073709551616 = a * b / 18446744073709551616 - (if i64 a <? 0 then b else 0).
Proof.
  intros Ha Hb. rewrite (i64_split a Ha) at 1.
  pose proof (high_signed a b (if i64 a <? 0 then 1 else 0) 0 Ha Hb) as Hs.
  rewrite Z.mul_0_r, Z.sub_0_r in Hs. rewrite Hs by (try case_match; lia).
  destruct (i64 a <? 0); lia.
Qed.

Lemma quot_min64 a b : isu64 a -> isu64 b -> a = MIN64 -> b = ONES64 ->
  u64 (Z.quot (i64 a) (i64 b)) = a /\ u64 (Z.rem (i64 a) (i64 b)) = 0.
Proof. intros _ _ -> ->. split; reflexivity. Qed.

Lemma i32_u32 v : i32 (u32 v) = i32 v.
Proof. unfold i32, u32. zlia. Qed.
Lemma u32_i32 v : u32 (i32 v) = u32 v.
Proof. unfold i32, u32. zlia. Qed.
Lemma i32_zero v : (i32 v =? 0) = (u32 v =? 0).
Proof. unfold i32, u32. zlia. Qed.
Lemma i32_idem v : i32 (i32 v) = i32 v.
Proof. apply i32_small, i32_bound. Qed.

Lemma quot_small a b : -2147483648 <= a < 2147483648 -> -2147483648 <= b < 2147483648 ->
  b <> 0 -> ~ (a = -2147483648 /\ b = -1) -> -2147483648 <= Z.quot a b < 2147483648.
Proof. intros Ha Hb Hb0 Hov. Z.to_euclidean_division_equations. nia. Qed.

Lemma rem_small a b : -2147483648 <= a < 2147483648 -> -2147483648 <= b < 2147483648 ->
  b <> 0 -> -2147483648 <= Z.rem a b < 2147483648.
Proof. intros Ha Hb Hb0. Z.to_euclidean_division_equations. nia. Qed.

(** ** The ALU agrees with the reference *)

(** RV64M.  For every [funct3] and all 64-bit register values the M-extension case of
    [execute] computes the ISA result: high products of the three signedness combinations from
    the 32-bit limb algorithm of [mulhu], division and remainder rounding towards zero, with the
    ISA's results on division by zero and on the overflowing [-2^63 / -1]. *)
Theorem alu_mul_rv64m f3 a b :
  0 <= f3 < 8 -> isu64 a -> isu64 b -> alu_mul f3 a b = rv64m f3 a b.
Proof.
  intros Hf Ha Hb.
  pose proof (mulhu_high a b Ha Hb) as Hm.
  assert (f3 = 0 \/ f3 = 1 \/ f3 = 2 \/ f3 = 3 \/ f3 = 4 \/ f3 = 5 \/ f3 = 6 \/ f3 = 7)
    as [->|[->|[->|[->|[->|[->|[->| ->]]]]]]] by lia;
    cbv [alu_mul rv64m]; cbn [Z.eqb Pos.eqb]; try done.
  - change (2 ^ 64) with 18446744073709551616. rewrite Hm, mulh_split by done.
    unfold u64. destruct (i64 a <? 0), (i64 b <? 0); zlia.
  - change (2 ^ 64) with 18446744073709551616. rewrite Hm, mulhsu_split by done.
    unfold u64. destruct (i64 a <? 0); zlia.
  - destruct (b =? 0); [done|].
    destruct (Z.eqb_spec a MIN64) as [E1|], (Z.eqb_spec b ONES64) as [E2|]; simpl; try done.
    by destruct (quot_min64 a b Ha Hb E1 E2).
  - destruct (b =? 0); [done|].
    destruct (Z.eqb_spec a MIN64) as [E1|], (Z.eqb_spec b ONES64) as [E2|]; simpl; try done.
    by destruct (quot_min64 a b Ha Hb E1 E2).
Qed.

Lemma alu_mul_rv64m_witness :
  alu_mul 1 0xffffffffffffffff 0x8000000000000000 = rv64m 1 0xffffffffffffffff 0x8000000000000000.
Proof. apply (alu_mul_rv64m 1); lia. Defined.

Lemma rem_neg1 a : Z.rem a (-1) = 0.
Proof. Z.to_euclidean_division_equations. nia. Qed.
Lemma u32_eq0_i32 b : u32 b <> 0 -> i32 b <> 0.
Proof. unfold u32, i32. zlia. Qed.

(** The RV64M W forms.  The 32-bit multiply and divide cases of [execute] compute the ISA result
    on the low halves, sign-extended, for every operand pair, including division by zero and
    [-2^31 / -1]; other [funct3] values are illegal. *)
Theorem alu_reg32_rv64mw f3 a b :
  0 <= f3 < 8 -> alu_reg32 f3 1 a b = rv64mw f3 a b.
Proof.
  intros Hf. pose proof (i32_bound a) as Ha. pose proof (i32_bound b) as Hb.
  assert (f3 = 0 \/ f3 = 1 \/ f3 = 2 \/ f3 = 3 \/ f3 = 4 \/ f3 = 5 \/ f3 = 6 \/ f3 = 7)
    as [->|[->|[->|[->|[->|[->|[->| ->]]]]]]] by lia;
    cbv [alu_reg32 rv64mw]; cbn [Z.eqb Pos.eqb]; try done; rewrite ?i32_zero, ?u32_i32, ?i32_u32.
  - do 2 f_equal. unfold i32, u32. zify. Z.div_mod_to_equations. nia.
  - do 2 f_equal. destruct (Z.eqb_spec (u32 b) 0) as [|Hb0]; [done|].
    apply u32_eq0_i32 in Hb0.
    destruct (Z.eqb_spec (i32 a) (-2147483648)) as [E1|], (Z.eqb_spec (i32 b) (-1)) as [E2|];
      simpl; [by rewrite E1, E2|..]; by rewrite (i32_small (Z.quot (i32 a) (i32 b))) by (apply quot_small; lia).
  - destruct (u32 b =? 0); reflexivity.
  - do 2 f_equal. destruct (Z.eqb_spec (u32 b) 0) as [|Hb0]; [by rewrite i32_idem|].
    apply u32_eq0_i32 in Hb0.
    destruct (Z.eqb_spec (i32 a) (-2147483648)) as [E1|], (Z.eqb_spec (i32 b) (-1)) as [E2|];
      simpl; [by rewrite E1, E2|..]; by rewrite (i32_small (Z.rem (i32 a) (i32 b))) by (apply rem_small; lia).
  - done.
Qed.

Lemma alu_reg32_rv64mw_witness :
  alu_reg32 4 1 0x80000000 0xffffffff = rv64mw 4 0x80000000 0xffffffff.
Proof. apply (alu_reg32_rv64mw 4); lia. Defined.
