(* ===== verification/Rv64Float.v ===== *)
(** The floating-point subset of the emulator ([src/emulator/rv64.c], lines 48-62, 271-283 and
    [case 0x53]).

    C's [float] and [double] are IEEE binary32 and binary64 with round-to-nearest-even, modelled
    by the Standard Library's [SpecFloat].  What C leaves to the implementation is gathered in
    the class [HostFloat]: the bit patterns of a NaN result, and the value of a conversion of a
    NaN or out-of-range number to an integer type. *)
From S2P Require Import Prelude.
From Stdlib Require Import SpecFloat.

(** Binary interchange formats: [mw] significand bits, [ew] exponent bits. *)
Definition fprec (mw : Z) : Z := mw + 1.
Definition femax (ew : Z) : Z := 2 ^ (ew - 1).
Definition femin (mw ew : Z) : Z := 3 - femax ew - fprec mw.

Definition sf_of_bits (mw ew bits : Z) : spec_float :=
  let sign := Z.testbit bits (mw + ew) in
  let e := (bits / 2 ^ mw) mod 2 ^ ew in
  let m := bits mod 2 ^ mw in
  if e =? 0 then
    match m with Zpos p => S754_finite sign p (femin mw ew) | _ => S754_zero sign end
  else if e =? 2 ^ ew - 1 then
    if m =? 0 then S754_infinity sign else S754_nan
  else
    match m + 2 ^ mw with
    | Zpos p => S754_finite sign p (e - 1 + femin mw ew)
    | _ => S754_nan
    end.

(** The storage of a value: the union access reads exactly [1 + ew + mw] bits. *)
Definition sf_to_bits (mw ew nan : Z) (x : spec_float) : Z :=
  let sgn (s : bool) := if s then 2 ^ (mw + ew) else 0 in
  let bits :=
    match x with
    | S754_zero s => sgn s
    | S754_infinity s => sgn s + (2 ^ ew - 1) * 2 ^ mw
    | S754_nan => nan
    | S754_finite s m e =>
        if Zpos m <? 2 ^ mw then sgn s + Zpos m
        else sgn s + (e - femin mw ew + 1) * 2 ^ mw + (Zpos m - 2 ^ mw)
    end in
  bits mod 2 ^ (mw + ew + 1).

(** Rounding an exact number [m * 2^e] into a format; conversion between formats. *)
Definition sf_round (mw ew m e : Z) (szero : bool) : spec_float :=
  binary_normalize (fprec mw) (femax ew) m e szero.
Definition sf_convert (mw ew : Z) (x : spec_float) : spec_float :=
  match x with
  | S754_finite s m e => sf_round mw ew (cond_Zopp s (Zpos m)) e s
  | x => x
  end.

(** Truncation towards zero; [None] on NaN and infinities. *)
Definition sf_trunc (x : spec_float) : option Z :=
  match x with
  | S754_zero _ => Some 0
  | S754_finite s m e => Some (cond_Zopp s (if 0 <=? e then Zpos m * 2 ^ e else Zpos m / 2 ^ (- e)))
  | _ => None
  end.

Class HostFloat := {
  nan32 : Z;
  nan64 : Z;
  cvt_undef : Z -> Z -> spec_float -> Z  (* lower bound, upper bound, operand *)
}.

(** One host: quiet NaNs, and saturation to the lower bound. *)
Definition plain_host : HostFloat :=
  {| nan32 := 0x7fc00000; nan64 := 0x7ff8000000000000; cvt_undef := fun lo _ _ => lo |}.

Section float.
Context `{HF : HostFloat}.

(** [(T)n] for an integer type with values in [[lo, hi)]. *)
Definition sf_to_int (lo hi : Z) (x : spec_float) : Z :=
  match sf_trunc x with
  | Some v => if (lo <=? v) && (v <? hi) then v else cvt_undef lo hi x
  | None => cvt_undef lo hi x
  end.

Definition f64_of_bits : Z -> spec_float := sf_of_bits 52 11.
Definition f64_bits : spec_float -> Z := sf_to_bits 52 11 nan64.
Definition f32_of_bits : Z -> spec_float := sf_of_bits 23 8.
Definition f32_bits : spec_float -> Z := sf_to_bits 23 8 nan32.

Definition f64_op (f : Z -> Z -> spec_float -> spec_float -> spec_float) :=
  f (fprec 52) (femax 11).
Definition f32_op (f : Z -> Z -> spec_float -> spec_float -> spec_float) :=
  f (fprec 23) (femax 8).

(** [(double)n] for an integer [n]. *)
Definition int_to_double (n : Z) : spec_float := sf_round 52 11 n 0 false.

Definition i64_to_double (n : Z) : spec_float := int_to_double n.
Definition u64_to_double (n : Z) : spec_float :=
  f64_op SFadd
    (f64_op SFmul (i64_to_double (i64 (Z.shiftr n 1))) (int_to_double 2))
    (int_to_double (u32 (Z.land n 1))).
Definition double_to_u64 (n : spec_float) : Z :=
  let two63 := int_to_double 9223372036854775808 in
  if SFltb n two63 then u64 (sf_to_int (-9223372036854775808) 9223372036854775808 n)
  else Z.lor (u64 (sf_to_int (-9223372036854775808) 9223372036854775808 (f64_op SFsub n two63)))
             (Z.shiftl 1 63).

(** [get_f64], [get_f32] on the register bits; [set_f32]'s boxed result. *)
Definition get_f64 (bits : Z) : spec_float := f64_of_bits bits.
Definition get_f32 (bits : Z) : spec_float :=
  if negb (Z.shiftr bits 32 =? 0xffffffff) then S754_nan else f32_of_bits (u32 bits).
Definition box32 (v : Z) : Z := Z.lor 0xffffffff00000000 v.
Definition set_f32_bits (n : spec_float) : Z := box32 (f32_bits n).
Definition set_f64_bits (d : spec_float) : Z := f64_bits d.

(** The arithmetic lines 461-474 of [case 0x53]: the value stored in [f[rd]], from the bits of
    [f[rs1]] and [f[rs2]].  [None]: another line of the chain applies. *)
Definition fp_arith (f7 f3 rs2 a b : Z) : option Z :=
  if f7 =? 0x00 then Some (set_f32_bits (f32_op SFadd (get_f32 a) (get_f32 b)))
  else if f7 =? 0x01 then Some (set_f64_bits (f64_op SFadd (get_f64 a) (get_f64 b)))
  else if f7 =? 0x04 then Some (set_f32_bits (f32_op SFsub (get_f32 a) (get_f32 b)))
  else if f7 =? 0x05 then Some (set_f64_bits (f64_op SFsub (get_f64 a) (get_f64 b)))
  else if f7 =? 0x08 then Some (set_f32_bits (f32_op SFmul (get_f32 a) (get_f32 b)))
  else if f7 =? 0x09 then Some (set_f64_bits (f64_op SFmul (get_f64 a) (get_f64 b)))
  else if f7 =? 0x0c then Some (set_f32_bits (f32_op SFdiv (get_f32 a) (get_f32 b)))
  else if f7 =? 0x0d then Some (set_f64_bits (f64_op SFdiv (get_f64 a) (get_f64 b)))
  else if (f7 =? 0x10) && (f3 =? 0) then
    Some (Z.lor (Z.lor 0xffffffff00000000 (Z.land (u32 a) 0x7fffffff)) (Z.land (u32 b) 0x80000000))
  else if (f7 =? 0x11) && (f3 =? 0) then
    Some (Z.lor (Z.land a 0x7fffffffffffffff) (Z.land b 0x8000000000000000))
  else if (f7 =? 0x20) && (rs2 =? 1) then Some (set_f32_bits (sf_convert 23 8 (get_f64 a)))
  else if (f7 =? 0x21) && (rs2 =? 0) then Some (set_f64_bits (sf_convert 52 11 (get_f32 a)))
  else None.

(** [f7 & 1 ? get_f64(r) : get_f32(r)] as a [double]. *)
Definition fp_operand (f7 a : Z) : spec_float :=
  if tst f7 1 then get_f64 a else sf_convert 52 11 (get_f32 a).

(** Lines 475-479: [feq], [flt], [fle]. *)
Definition fp_compare (f7 f3 a b : Z) : Z :=
  let aa := fp_operand f7 a in let bb := fp_operand f7 b in
  Z.b2z (if f3 =? 2 then SFeqb aa bb else if f3 =? 1 then SFltb aa bb else SFleb aa bb).

(** Lines 480-487: float to integer.  [None] is [ok = 0]. *)
Definition fp_to_int (f7 rs2 a : Z) : option Z :=
  let n := fp_operand f7 a in
  if rs2 =? 0 then Some (u64 (sf_to_int (-2147483648) 2147483648 n))
  else if rs2 =? 1 then Some (u32 (sf_to_int 0 4294967296 n))
  else if rs2 =? 2 then Some (u64 (sf_to_int (-9223372036854775808) 9223372036854775808 n))
  else if rs2 =? 3 then Some (double_to_u64 n)
  else None.

(** Lines 488-495: integer to float, the value stored in [f[rd]]. *)
Definition int_to_fp (f7 rs2 v : Z) : option Z :=
  let n :=
    if rs2 =? 0 then Some (int_to_double (i32 v))
    else if rs2 =? 1 then Some (int_to_double (u32 v))
    else if rs2 =? 2 then Some (int_to_double (i64 v))
    else if rs2 =? 3 then Some (u64_to_double v)
    else None in
  match n with
  | None => None
  | Some n => Some (if tst f7 1 then set_f64_bits n else set_f32_bits (sf_convert 23 8 n))
  end.

End float.
