(* ===== verification/Rv64Exec.v ===== *)
(** One instruction of the emulator ([execute], [src/emulator/rv64.c], lines 318-514). *)
From S2P Require Import Prelude Rv64State Rv64Mem Rv64Csr Rv64Alu Rv64Float.

(** [if (!ok) { pc = at; trap(cause, value, 0); return pc; }] *)
Definition exec_trap (at_ cause value : Z) (s : rv) : Z * rv :=
  let s := trap cause value 0 (set_pc at_ s) in (pc s, s).

Definition load_trap (at_ : Z) (s : rv) : Z * rv :=
  exec_trap at_ (if fault s =? 2 then 5 else 13) (fault_addr s) s.
Definition store_trap (at_ : Z) (s : rv) : Z * rv :=
  exec_trap at_ (if fault s =? 2 then 7 else 15) (fault_addr s) s.

(** The label [write:] (lines 510-513); [None] is [ok = 0]. *)
Definition write_back (insn rd at_ next : Z) (v : option Z) (s : rv) : Z * rv :=
  match v with
  | None => exec_trap at_ 2 insn s
  | Some v =>
      let s := if rd =? 0 then s else setx rd v s in
      (next, setx 0 0 s)
  end.

(** The exit of lines 508-509. *)
Definition finish (insn at_ next : Z) (ok : bool) (s : rv) : Z * rv :=
  if ok then (next, setx 0 0 s) else exec_trap at_ 2 insn s.

(** Lines 326-335. *)
Definition exec_load (insn at_ : Z) (s : rv) : Z * rv :=
  let rd := insn_rd insn in let f3 := insn_f3 insn in
  let addr := u64 (getx s (insn_rs1 insn) + imm_i insn) in
  let '(ok, v, s) :=
    if f3 =? 0 then
      let '(ok, v, s) := load addr 1 1 0 s in (ok, u64 (i8 v), s)
    else if f3 =? 1 then
      let '(ok, v, s) := load addr 2 1 0 s in (ok, u64 (i16 v), s)
    else if f3 =? 2 then
      let '(ok, v, s) := load addr 4 1 0 s in (ok, u64 (i32 v), s)
    else if f3 <=? 6 then load addr (Z.shiftl 1 (Z.land f3 3)) 1 0 s
    else (false, 0, s) in
  if ok then write_back insn rd at_ (u64 (at_ + 4)) (Some v) s
  else load_trap at_ s.

(** Lines 338-344. *)
Definition exec_store (insn at_ : Z) (s : rv) : Z * rv :=
  let f3 := insn_f3 insn in
  let '(ok, s) :=
    if f3 <=? 3 then
      store (u64 (getx s (insn_rs1 insn) + imm_s insn)) (Z.shiftl 1 f3)
            (getx s (insn_rs2 insn)) s
    else (false, s) in
  if ok then (u64 (at_ + 4), setx 0 0 s) else store_trap at_ s.

(** Lines 349-357. *)
Definition exec_branch (insn at_ : Z) (s : rv) : Z * rv :=
  let f3 := insn_f3 insn in
  let a := getx s (insn_rs1 insn) in let b := getx s (insn_rs2 insn) in
  if branch_taken f3 a b then (u64 (at_ + imm_b insn), setx 0 0 s)
  else if (f3 =? 2) || (f3 =? 3) then exec_trap at_ 2 insn s
  else (u64 (at_ + 4), setx 0 0 s).

(** [case 0x2f] *)
Definition exec_amo (insn at_ : Z) (s : rv) : Z * rv :=
  let rd := insn_rd insn in let f3 := insn_f3 insn in
  let rs2 := insn_rs2 insn in
  let next := u64 (at_ + 4) in
  let a := getx s (insn_rs1 insn) in let b := getx s rs2 in
  let fn := Z.shiftr (insn_f7 insn) 2 in
  let size := if f3 =? 2 then 4 else if f3 =? 3 then 8 else 0 in
  if (size =? 0) || ((fn =? 2) && negb (rs2 =? 0)) then finish insn at_ next false s
  else
    let '(ok, old, s) := load a size 1 0 s in
    if negb ok then load_trap at_ s
    else
      let v := if size =? 4 then u64 (i32 old) else old in
      if fn =? 2 then write_back insn rd at_ next (Some v) s
      else if fn =? 3 then
        let '(ok, s) := store a size b s in
        if ok then write_back insn rd at_ next (Some 0) s else store_trap at_ s
      else
        let old := if size =? 4 then u32 old else old in
        let b := if size =? 4 then u32 b else b in
        match amo_value fn size old b with
        | None => finish insn at_ next false s
        | Some value =>
            let '(ok, s) := store a size value s in
            if ok then write_back insn rd at_ next (Some v) s else store_trap at_ s
        end.

(** [case 0x07] *)
Definition exec_fload (insn at_ : Z) (s : rv) : Z * rv :=
  let rd := insn_rd insn in let f3 := insn_f3 insn in
  let addr := u64 (getx s (insn_rs1 insn) + imm_i insn) in
  let '(ok, s) :=
    if f3 =? 2 then
      let '(ok, v, s) := load addr 4 1 0 s in
      (ok, setf rd (Z.lor 0xffffffff00000000 (u32 v)) s)
    else if f3 =? 3 then
      let '(ok, v, s) := load addr 8 1 (getf s rd) s in (ok, setf rd v s)
    else (false, s) in
  if ok then finish insn at_ (u64 (at_ + 4)) true s else load_trap at_ s.

(** [case 0x27] *)
Definition exec_fstore (insn at_ : Z) (s : rv) : Z * rv :=
  let f3 := insn_f3 insn in
  let addr := u64 (getx s (insn_rs1 insn) + imm_s insn) in
  let '(ok, s) :=
    if f3 =? 2 then store addr 4 (getf s (insn_rs2 insn)) s
    else if f3 =? 3 then store addr 8 (getf s (insn_rs2 insn)) s
    else (false, s) in
  if ok then finish insn at_ (u64 (at_ + 4)) true s else store_trap at_ s.

Section exec.
Context `{HF : HostFloat}.

(** [case 0x53] *)
Definition exec_fp (insn at_ : Z) (s : rv) : Z * rv :=
  let rd := insn_rd insn in let f3 := insn_f3 insn in
  let rs1 := insn_rs1 insn in let rs2 := insn_rs2 insn in
  let f7 := insn_f7 insn in
  let next := u64 (at_ + 4) in
  let fa := getf s rs1 in let fb := getf s rs2 in
  match fp_arith f7 f3 rs2 fa fb with
  | Some v => finish insn at_ next true (setf rd v s)
  | None =>
      if ((f7 =? 0x50) || (f7 =? 0x51)) && (f3 <=? 2) then
        write_back insn rd at_ next (Some (fp_compare f7 f3 fa fb)) s
      else if (f7 =? 0x60) || (f7 =? 0x61) then
        write_back insn rd at_ next (fp_to_int f7 rs2 fa) s
      else if (f7 =? 0x68) || (f7 =? 0x69) then
        match int_to_fp f7 rs2 (getx s rs1) with
        | Some v => finish insn at_ next true (setf rd v s)
        | None => finish insn at_ next false s
        end
      else if (f7 =? 0x70) && (rs2 =? 0) && (f3 =? 0) then
        write_back insn rd at_ next (Some (u64 (i32 fa))) s
      else if (f7 =? 0x71) && (rs2 =? 0) && (f3 =? 0) then
        write_back insn rd at_ next (Some fa) s
      else if (f7 =? 0x78) && (rs2 =? 0) && (f3 =? 0) then
        finish insn at_ next true (setf rd (box32 (u32 (getx s rs1))) s)
      else if (f7 =? 0x79) && (rs2 =? 0) && (f3 =? 0) then
        finish insn at_ next true (setf rd (getx s rs1) s)
      else finish insn at_ next false s
  end.

(** [case 0x73]: the result of [execute_system] does not reach [ok]'s test. *)
Definition exec_system (insn at_ : Z) (s : rv) : Z * rv :=
  let '(_, s) := execute_system insn (insn_rd insn) (insn_f3 insn) (insn_rs1 insn)
                   (u64 (at_ + 4)) (set_pc at_ s) in
  (pc s, s).

Definition execute (insn at_ : Z) (s : rv) : Z * rv :=
  let op := insn_op insn in let rd := insn_rd insn in let f3 := insn_f3 insn in
  let f7 := insn_f7 insn in
  let next := u64 (at_ + 4) in
  let a := getx s (insn_rs1 insn) in let b := getx s (insn_rs2 insn) in
  let write := write_back insn rd at_ next in
  if op =? 0x03 then exec_load insn at_ s
  else if (op =? 0x13) && (f3 =? 0) then write (Some (u64 (a + imm_i insn))) s
  else if op =? 0x23 then exec_store insn at_ s
  else if op =? 0x6f then
    write_back insn rd at_ (u64 (at_ + imm_j insn)) (Some next) s
  else if op =? 0x63 then exec_branch insn at_ s
  else if op =? 0x37 then write (Some (u64 (imm_u insn))) s
  else if op =? 0x17 then write (Some (u64 (at_ + imm_u insn))) s
  else if op =? 0x67 then
    write_back insn rd at_ (Z.land (u64 (a + imm_i insn)) (not64 1)) (Some next) s
  else if op =? 0x13 then write (alu_imm f3 f7 insn a) s
  else if op =? 0x1b then write (alu_imm32 f3 f7 insn a) s
  else if op =? 0x33 then write (Some (alu_reg f3 f7 a b)) s
  else if op =? 0x3b then write (alu_reg32 f3 f7 a b) s
  else if op =? 0x2f then exec_amo insn at_ s
  else if op =? 0x0f then finish insn at_ next true s
  else if op =? 0x07 then exec_fload insn at_ s
  else if op =? 0x27 then exec_fstore insn at_ s
  else if op =? 0x53 then exec_fp insn at_ s
  else if op =? 0x73 then exec_system insn at_ s
  else finish insn at_ next false s.

End exec.
