(* ===== verification/Rv64Run.v ===== *)
(** Reset, the run loop and the host interface of the emulator
    ([src/emulator/rv64.c], lines 516-580), and the native front end [src/emulator/runner.c]. *)
From S2P Require Import Prelude Rv64State Rv64Mem Rv64Csr Rv64Alu Rv64Float Rv64Exec.

Definition rv_init (entry : Z) (s : rv) : rv :=
  let s := set_xreg (afill 32 (xreg s) 0 0) (set_freg (afill 32 (freg s) 0 0) s) in
  let s := set_csr_arr (afill 4096 (csr s) 0 0) s in
  let s := set_pc entry (set_ticks 0 (set_timecmp 0 s)) in
  let s := set_privilege 0 (set_halted 0 (set_fault 0 (set_timer_steps 0 s))) in
  let s := set_in_read 0 (set_in_write 0 (set_out_read 0 (set_out_write 0 s))) in
  let s := set_fetch_url 0 (set_fetch_destination 0 s) in
  let s := set_fetch_url_length 0 (set_fetch_capacity 0 (set_fetch_length 0 (set_fetch_status 0 s))) in
  flush_tlb s.

Section run.
Context `{HF : HostFloat}.

(** The locals of [rv_run] that live across iterations. *)
Record loop := Loop { l_now : Z; l_here : Z; l_until : Z; l_stopped : Z; l_s : rv }.

(** The timer block, lines 539-546.  [inl]: the interrupt was taken ([continue]). *)
Definition timer_tick (now here until stopped : Z) (s : rv) : loop + (Z * rv) :=
  if until =? 0 then inr (until, s)
  else
    let until := u32 (until - 1) in
    if negb (until =? 0) then inr (until, s)
    else
      let s := setcsr SIP (Z.lor (getcsr s SIP) IP_STIP) s in
      if (negb (privilege s =? 0) || tst (getcsr s SSTATUS) STATUS_SIE) &&
         tst (Z.land (getcsr s SIP) (getcsr s SIE)) IP_STIP then
        let s := set_pc here (set_timer_steps until (set_ticks now s)) in
        let s := trap 5 0 1 s in
        inl (Loop now (pc s) until 0 s)
      else inr (1, s).

(** The instruction fetch, lines 548-557: the raw word, or the state after a fetch fault. *)
Definition fetch_insn (here : Z) (s : rv) : option Z * rv :=
  if negb (Z.shiftr (Z.lxor here (fetch_vpage s)) 12 =? 0) then
    match load here 4 0 0 s with
    | (false, _, s) =>
        let s := set_pc here s in
        (None, trap (if fault s =? 2 then 1 else 12) (fault_addr s) 0 s)
    | (true, raw, s) =>
        let slot := TLB_SLOT here 0 in
        let ppage := aget (tlb_ppage s) slot in
        if (aget (tlb_tag s) slot =? TLB_TAG s here) && (u64 (ppage - RAM_BASE) <? RAM_SIZE) then
          let vpage := Z.land here (not64 4095) in
          (Some raw, set_fetch_delta (u64 (ppage - vpage)) (set_fetch_vpage vpage s))
        else (Some raw, s)
    end
  else (Some (mget 4 (ram s) (u32 (u64 (u64 (here + fetch_delta s) - RAM_BASE)))), s).

(** One iteration of the loop of [rv_run]. *)
Definition run_step (time_advance : Z) (l : loop) : loop :=
  let now := u64 (l_now l + time_advance) in
  match timer_tick now (l_here l) (l_until l) (l_stopped l) (l_s l) with
  | inl l => l
  | inr (until, s) =>
      if negb (l_stopped l =? 0) then Loop now (l_here l) until (l_stopped l) s
      else
        match fetch_insn (l_here l) s with
        | (None, s) => Loop now (pc s) until (l_stopped l) s
        | (Some raw, s) =>
            if Z.land (u32 raw) 127 =? 0x73 then
              let s := set_timer_steps until (set_ticks now s) in
              let '(here, s) := execute (u32 raw) (l_here l) s in
              Loop now here (timer_steps s) (halted s) s
            else
              let '(here, s) := execute (u32 raw) (l_here l) s in
              Loop now here until (l_stopped l) s
        end
  end.

Fixpoint run_loop (count : nat) (time_advance : Z) (l : loop) : loop :=
  match count with
  | O => l
  | S count => run_loop count time_advance (run_step time_advance l)
  end.

Definition rv_run (count time_advance : Z) (s : rv) : Z * rv :=
  let now := ticks s in let here := pc s in
  let s := set_tick_step time_advance s in
  let s := if timecmp s =? 0 then s else set_csr STIMECMP (timecmp s) s in
  let l := run_loop (Z.to_nat count) time_advance (Loop now here (timer_steps s) (halted s) s) in
  let s := set_ticks (l_now l) (set_timer_steps (l_until l) (l_s l)) in
  let s := set_pc (l_here l) (set_halted (l_stopped l) s) in
  (fault s, s).

End run.

(** ** UART queues and the fetch device, seen from the host *)

Definition rv_input (byte : Z) (s : rv) : rv :=
  if u32 (in_write s - in_read s) <? UART_CAP then
    set_uart_in (aset (uart_in s) (Z.land (in_write s) (UART_CAP - 1)) (u8 byte))
      (set_in_write (u32 (in_write s + 1)) s)
  else s.

Definition rv_output_count (s : rv) : Z := u32 (out_write s - out_read s).
Definition rv_output (s : rv) : Z * rv :=
  if out_read s =? out_write s then (0xffffffff, s)
  else (aget (uart_out s) (Z.land (out_read s) (UART_CAP - 1)),
        set_out_read (u32 (out_read s + 1)) s).
Definition rv_fetch_complete (length status : Z) (s : rv) : rv :=
  set_fetch_status status (set_fetch_length length s).
