(* ===== verification/Rv64Inv.v ===== *)
(** The well-formedness invariant of the emulator and its preservation.

    [rv_ok] says that every static holds a value of its C type, that [x0] is 0, that the mode,
    halt and fault flags are in range and that neither UART queue is over full.  Every operation
    reachable from the entry points preserves it. *)
From Stdlib Require Import SpecFloat.
From S2P Require Import Prelude Rv64State Rv64Mem Rv64Csr Rv64Alu Rv64Float Rv64Exec Rv64Run.

Record cpu_ok (c : cpu) : Prop := {
  ok_x : forall r, isu64 (aget (c_xreg c) r);
  ok_x0 : aget (c_xreg c) 0 = 0;
  ok_f : forall r, isu64 (aget (c_freg c) r);
  ok_csr : forall n, isu64 (aget (c_csr c) n);
  ok_pc : isu64 (c_pc c);
  ok_ticks : isu64 (c_ticks c);
  ok_timecmp : isu64 (c_timecmp c);
  ok_privilege : 0 <= c_privilege c < 2;
  ok_halted : 0 <= c_halted c < 2;
  ok_fault : 0 <= c_fault c < 3;
  ok_fault_addr : isu64 (c_fault_addr c);
  ok_tick_step : isu32 (c_tick_step c);
  ok_timer_steps : isu32 (c_timer_steps c)
}.

Record uart_ok (u : uart) : Prop := {
  ok_uart_in : bytes_ok (c_uart_in u);
  ok_uart_out : bytes_ok (c_uart_out u);
  ok_in_read : isu32 (c_in_read u);
  ok_in_write : isu32 (c_in_write u);
  ok_out_read : isu32 (c_out_read u);
  ok_out_write : isu32 (c_out_write u);
  ok_in_cap : u32 (c_in_write u - c_in_read u) <= UART_CAP;
  ok_out_cap : u32 (c_out_write u - c_out_read u) <= UART_CAP
}.

Record fetch_ok (d : fetchdev) : Prop := {
  ok_url : isu32 (c_fetch_url d);
  ok_destination : isu32 (c_fetch_destination d);
  ok_url_length : isu32 (c_fetch_url_length d);
  ok_capacity : isu32 (c_fetch_capacity d);
  ok_length : isu32 (c_fetch_length d);
  ok_status : isu32 (c_fetch_status d)
}.

Record tlb_ok (t : tlb) : Prop := {
  ok_tag : forall i, isu64 (aget (c_tlb_tag t) i);
  ok_ppage : forall i, isu64 (aget (c_tlb_ppage t) i);
  ok_vpage : isu64 (c_fetch_vpage t);
  ok_delta : isu64 (c_fetch_delta t)
}.

Record rv_ok (s : rv) : Prop := {
  ok_ram : bytes_ok (ram s);
  ok_cpu : cpu_ok (rcpu s);
  ok_uart : uart_ok (ruart s);
  ok_fetch : fetch_ok (rfetch s);
  ok_tlb : tlb_ok (rtlb s)
}.

Create HintDb rvok discriminated.
#[export] Hint Constants Opaque : rvok.

(** ** One lemma per static *)

Ltac solve_ok :=
  intros;
  match goal with H : rv_ok ?s |- _ =>
    destruct H as [? [] [] [] []]; constructor; simpl; [assumption | constructor | constructor | constructor | constructor];
    simpl; solve [assumption | auto | lia]
  end.

Lemma ok_set_ram v s : bytes_ok v -> rv_ok s -> rv_ok (set_ram v s).
Proof. solve_ok. Qed.
Lemma ok_set_xreg v s : (forall r, isu64 (aget v r)) -> aget v 0 = 0 -> rv_ok s -> rv_ok (set_xreg v s).
Proof. solve_ok. Qed.
Lemma ok_set_freg v s : (forall r, isu64 (aget v r)) -> rv_ok s -> rv_ok (set_freg v s).
Proof. solve_ok. Qed.
Lemma ok_set_csr_arr v s : (forall n, isu64 (aget v n)) -> rv_ok s -> rv_ok (set_csr_arr v s).
Proof. solve_ok. Qed.
Lemma ok_set_pc v s : isu64 v -> rv_ok s -> rv_ok (set_pc v s).
Proof. solve_ok. Qed.
Lemma ok_set_ticks v s : isu64 v -> rv_ok s -> rv_ok (set_ticks v s).
Proof. solve_ok. Qed.
Lemma ok_set_timecmp v s : isu64 v -> rv_ok s -> rv_ok (set_timecmp v s).
Proof. solve_ok. Qed.
Lemma ok_set_fault_addr v s : isu64 v -> rv_ok s -> rv_ok (set_fault_addr v s).
Proof. solve_ok. Qed.
Lemma ok_set_privilege v s : 0 <= v < 2 -> rv_ok s -> rv_ok (set_privilege v s).
Proof. solve_ok. Qed.
Lemma ok_set_halted v s : 0 <= v < 2 -> rv_ok s -> rv_ok (set_halted v s).
Proof. solve_ok. Qed.
Lemma ok_set_fault v s : 0 <= v < 3 -> rv_ok s -> rv_ok (set_fault v s).
Proof. solve_ok. Qed.
Lemma ok_set_tick_step v s : isu32 v -> rv_ok s -> rv_ok (set_tick_step v s).
Proof. solve_ok. Qed.
Lemma ok_set_timer_steps v s : isu32 v -> rv_ok s -> rv_ok (set_timer_steps v s).
Proof. solve_ok. Qed.
Lemma ok_set_uart_in v s : bytes_ok v -> rv_ok s -> rv_ok (set_uart_in v s).
Proof. solve_ok. Qed.
Lemma ok_set_uart_out v s : bytes_ok v -> rv_ok s -> rv_ok (set_uart_out v s).
Proof. solve_ok. Qed.
Lemma ok_set_fetch_url v s : isu32 v -> rv_ok s -> rv_ok (set_fetch_url v s).
Proof. solve_ok. Qed.
Lemma ok_set_fetch_destination v s : isu32 v -> rv_ok s -> rv_ok (set_fetch_destination v s).
Proof. solve_ok. Qed.
Lemma ok_set_fetch_url_length v s : isu32 v -> rv_ok s -> rv_ok (set_fetch_url_length v s).
Proof. solve_ok. Qed.
Lemma ok_set_fetch_capacity v s : isu32 v -> rv_ok s -> rv_ok (set_fetch_capacity v s).
Proof. solve_ok. Qed.
Lemma ok_set_fetch_length v s : isu32 v -> rv_ok s -> rv_ok (set_fetch_length v s).
Proof. solve_ok. Qed.
Lemma ok_set_fetch_status v s : isu32 v -> rv_ok s -> rv_ok (set_fetch_status v s).
Proof. solve_ok. Qed.
Lemma ok_set_tlb_tag v s : (forall i, isu64 (aget v i)) -> rv_ok s -> rv_ok (set_tlb_tag v s).
Proof. solve_ok. Qed.
Lemma ok_set_tlb_ppage v s : (forall i, isu64 (aget v i)) -> rv_ok s -> rv_ok (set_tlb_ppage v s).
Proof. solve_ok. Qed.
Lemma ok_set_fetch_vpage v s : isu64 v -> rv_ok s -> rv_ok (set_fetch_vpage v s).
Proof. solve_ok. Qed.
Lemma ok_set_fetch_delta v s : isu64 v -> rv_ok s -> rv_ok (set_fetch_delta v s).
Proof. solve_ok. Qed.
#[export] Hint Resolve
  ok_set_ram ok_set_xreg ok_set_freg ok_set_csr_arr ok_set_pc ok_set_ticks ok_set_timecmp
  ok_set_fault_addr ok_set_privilege ok_set_halted ok_set_fault ok_set_tick_step
  ok_set_timer_steps ok_set_uart_in ok_set_uart_out ok_set_fetch_url
  ok_set_fetch_destination ok_set_fetch_url_length ok_set_fetch_capacity ok_set_fetch_length
  ok_set_fetch_status ok_set_tlb_tag ok_set_tlb_ppage ok_set_fetch_vpage ok_set_fetch_delta : rvok.

(** ** Values *)

Ltac ok_cases :=
  repeat match goal with
  | H : (_, _) = (_, _) |- _ => injection H; clear H; intros; subst
  | H : context [match ?x with _ => _ end] |- _ =>
      lazymatch x with
      | context [match _ with _ => _ end] => fail
      | _ => let E := fresh "E" in destruct x eqn:E
      end
  end.

Ltac ok_get :=
  intros [? [] [] [] []]; match goal with H : _ |- _ => solve [exact H | exact (H _)] end.

Lemma rv_x s r : rv_ok s -> isu64 (getx s r).
Proof. ok_get. Qed.
Lemma rv_f s r : rv_ok s -> isu64 (getf s r).
Proof. ok_get. Qed.
Lemma rv_csr s r : rv_ok s -> isu64 (getcsr s r).
Proof. ok_get. Qed.
Lemma rv_pc s : rv_ok s -> isu64 (pc s).
Proof. ok_get. Qed.
Lemma rv_ticks s : rv_ok s -> isu64 (ticks s).
Proof. ok_get. Qed.
Lemma rv_timecmp s : rv_ok s -> isu64 (timecmp s).
Proof. ok_get. Qed.
Lemma rv_timer_steps s : rv_ok s -> isu32 (timer_steps s).
Proof. ok_get. Qed.
Lemma rv_halted s : rv_ok s -> 0 <= halted s < 2.
Proof. ok_get. Qed.
Lemma rv_fault_addr s : rv_ok s -> isu64 (fault_addr s).
Proof. ok_get. Qed.
Lemma rv_ppage s i : rv_ok s -> isu64 (aget (tlb_ppage s) i).
Proof. ok_get. Qed.
Lemma rv_tag s i : rv_ok s -> isu64 (aget (tlb_tag s) i).
Proof. ok_get. Qed.
Lemma rv_mget n s off : rv_ok s -> (n <= 8)%nat -> isu64 (mget n (ram s) off).
Proof. intros [H _ _ _ _]. by apply mget_isu64. Qed.
Lemma width_le size : (width size <= 8)%nat.
Proof. unfold width. repeat case_match; lia. Qed.
#[export] Hint Resolve rv_x rv_f rv_csr rv_pc rv_ticks rv_timecmp rv_timer_steps rv_halted
  rv_fault_addr rv_ppage rv_tag rv_mget width_le : rvok.

Lemma ok_setx r v s : isu64 v -> r <> 0 -> rv_ok s -> rv_ok (setx r v s).
Proof.
  intros Hv Hr Hs. apply ok_set_xreg; [| |done].
  - intros r'. rewrite aget_aset. case_decide; [done|by apply rv_x].
  - rewrite aget_aset_ne by done. by destruct Hs as [_ [] _ _ _].
Qed.
Lemma ok_setx0 s : rv_ok s -> rv_ok (setx 0 0 s).
Proof.
  intros Hs. apply ok_set_xreg; [| |done].
  - intros r'. rewrite aget_aset. case_decide; [lia|by apply rv_x].
  - apply aget_aset_eq.
Qed.
Lemma ok_setf r v s : isu64 v -> rv_ok s -> rv_ok (setf r v s).
Proof.
  intros Hv Hs. apply ok_set_freg; [|done].
  intros r'. rewrite aget_aset. case_decide; [done|by apply rv_f].
Qed.
Lemma ok_setcsr r v s : isu64 v -> rv_ok s -> rv_ok (setcsr r v s).
Proof.
  intros Hv Hs. apply ok_set_csr_arr; [|done].
  intros r'. rewrite aget_aset. case_decide; [done|by apply rv_csr].
Qed.
Lemma ok_flush s : rv_ok s -> rv_ok (flush_tlb s).
Proof.
  intros Hs. apply ok_set_fetch_vpage, ok_set_tlb_tag; [lia| |done].
  intros i. rewrite aget_afill. case_bool_decide; [lia|by apply rv_tag].
Qed.
Lemma ok_mput n off v s : rv_ok s -> rv_ok (set_ram (mput n (ram s) off v) s).
Proof. intros Hs. apply ok_set_ram; [|done]. apply bytes_ok_mput. by destruct Hs. Qed.
#[export] Hint Resolve ok_setx ok_setx0 ok_setf ok_setcsr ok_flush ok_mput : rvok.

(** ** Memory and translation *)

Lemma u32_pred_sub a b : isu32 a -> isu32 b -> a <> b ->
  u32 (a - u32 (b + 1)) = u32 (a - b) - 1.
Proof. intros. unfold u32. zlia. Qed.
Lemma u32_succ_sub a b : isu32 a -> isu32 b -> u32 (a - b) < UART_CAP ->
  u32 (u32 (a + 1) - b) = u32 (a - b) + 1.
Proof. unfold UART_CAP, u32. intros. zlia. Qed.

Lemma ok_in_pop s : rv_ok s -> in_read s <> in_write s ->
  rv_ok (set_in_read (u32 (in_read s + 1)) s).
Proof.
  intros [? ? [] ? ?] Hne. split; try done. split; try done; [apply u32_bound|].
  cbn. unfold in_read, in_write, out_read, out_write in *.
  rewrite u32_pred_sub by auto. lia.
Qed.
Lemma ok_in_push s b : rv_ok s -> u32 (in_write s - in_read s) < UART_CAP ->
  rv_ok (set_uart_in (aset (uart_in s) (Z.land (in_write s) (UART_CAP - 1)) (u8 b))
           (set_in_write (u32 (in_write s + 1)) s)).
Proof.
  intros [? ? [] ? ?] Hc. split; try done.
  split; try done; cbn; [by auto with words | apply u32_bound |].
  unfold in_write, in_read in *. rewrite u32_succ_sub by auto. lia.
Qed.
Lemma ok_out_pop s : rv_ok s -> out_read s <> out_write s ->
  rv_ok (set_out_read (u32 (out_read s + 1)) s).
Proof.
  intros [? ? [] ? ?] Hne. split; try done. split; try done; [apply u32_bound|].
  cbn. unfold in_read, in_write, out_read, out_write in *.
  rewrite u32_pred_sub by auto. lia.
Qed.
Lemma ok_out_push s b : rv_ok s -> u32 (out_write s - out_read s) < UART_CAP ->
  rv_ok (set_uart_out (aset (uart_out s) (Z.land (out_write s) (UART_CAP - 1)) (u8 b))
           (set_out_write (u32 (out_write s + 1)) s)).
Proof.
  intros [? ? [] ? ?] Hc. split; try done.
  split; try done; cbn; [by auto with words | apply u32_bound |].
  unfold out_write, out_read in *. rewrite u32_succ_sub by auto. lia.
Qed.
#[export] Hint Resolve ok_in_pop ok_in_push ok_out_pop ok_out_push : rvok.

#[export] Hint Extern 6 (_ /\ _) => lia : rvok.
#[export] Hint Extern 6 (_ <> _) => lia : rvok.
#[export] Hint Extern 6 (_ < _) => lia : rvok.
Ltac rvok := auto 10 with rvok words; try lia.

Lemma isu64_u32 v : isu64 (u32 v).
Proof. pose proof (u32_bound v). lia. Qed.
Lemma rv_uart_in s i : rv_ok s -> isu64 (aget (uart_in s) i).
Proof. intros [? ? [Hin] ? ?]. specialize (Hin i). unfold uart_in. lia. Qed.
Lemma fetch_read_ok reg s : rv_ok s -> isu64 (fetch_read reg s).
Proof.
  intros [? ? ? [] ?]. unfold fetch_read.
  unfold fetch_status, fetch_url_length, fetch_capacity, fetch_length.
  repeat case_match; try apply isu64_u32; lia.
Qed.
#[export] Hint Resolve isu64_u32 rv_uart_in fetch_read_ok : rvok.

Lemma physical_read_ok addr size v s ok v' s' :
  rv_ok s -> isu64 addr -> isu64 v -> physical_read addr size v s = (ok, v', s') ->
  isu64 v' /\ rv_ok s'.
Proof.
  intros Hs Ha Hv E. unfold physical_read, uart_read in E.
  ok_cases; (split; [|by rvok]); rvok.
  all: apply isu64_lor; [lia|apply isu64_b2z].
Qed.

Lemma physical_write_ok addr size v s ok s' :
  rv_ok s -> isu64 addr -> physical_write addr size v s = (ok, s') -> rv_ok s'.
Proof.
  intros Hs Ha E. unfold physical_write, uart_write, fetch_write in E.
  ok_cases; rvok; try apply andb_true_iff in E2 as [? ?]; rvok.
  all: repeat case_match; rvok.
Qed.

Lemma ok_page_fault va s : rv_ok s -> isu64 va -> rv_ok (set_fault 1 (set_fault_addr va s)).
Proof. intros. rvok. Qed.
#[export] Hint Resolve ok_page_fault : rvok.

Lemma walk_loop_ok n va table pte pte_addr s r s' :
  rv_ok s -> isu64 va -> isu64 pte -> isu64 pte_addr ->
  walk_loop n va table pte pte_addr s = (r, s') ->
  rv_ok s' /\ (forall level pte pte_addr, r = Some (level, pte, pte_addr) ->
                 isu64 pte /\ isu64 pte_addr).
Proof.
  revert table pte pte_addr s. induction n as [|n IH]; intros table pte pte_addr s Hs Hva Hp Hpa E.
  - injection E as <- <-. split; [done|]. intros ??? [=]; subst; done.
  - cbn [walk_loop] in E.
    destruct (physical_read _ 8 pte s) as [[ok v] s1] eqn:Er.
    apply physical_read_ok in Er as [Hv Hs1]; [|done|apply u64_bound|done].
    destruct ok; [|injection E as <- <-; split; [rvok|done]].
    destruct (negb (tst v 1)); [injection E as <- <-; split; [rvok|done]|].
    destruct (tst v 14).
    + injection E as <- <-. split; [done|]. intros ??? [=]; subst. auto with words.
    + eapply IH; [| | |apply u64_bound|exact E]; done.
Qed.

Lemma tlb_fill_ok slot tag pa s : rv_ok s -> isu64 tag -> isu64 pa -> rv_ok (tlb_fill slot tag pa s).
Proof.
  intros Hs Ht Hpa. unfold tlb_fill.
  apply ok_set_tlb_ppage; [|apply ok_set_tlb_tag; [|done]].
  - intros i. rewrite aget_aset. case_decide; [by apply isu64_land_l|by apply rv_ppage].
  - intros i. rewrite aget_aset. case_decide; [done|by apply rv_tag].
Qed.

Lemma translate_ok va access s r s' :
  rv_ok s -> isu64 va -> translate va access s = (r, s') ->
  rv_ok s' /\ (forall pa, r = Some pa -> isu64 pa).
Proof.
  intros Hs Hva E. unfold translate, page_fault in E.
  destruct (_ =? 0); [injection E as <- <-; split; [done|by intros ? [= <-]]|].
  destruct (negb _); [injection E as <- <-; split; [rvok|done]|].
  destruct (_ =? TLB_TAG s va).
  { injection E as <- <-. split; [done|]. intros ? [= <-]. rvok. }
  destruct (walk_loop _ _ _ _ _ _) as [[[[level pte] pte_addr]|] s1] eqn:Ew;
    apply walk_loop_ok in Ew as [Hs1 Hw]; try done;
    [|injection E as <- <-; split; [done|done]].
  destruct (Hw _ _ _ eq_refl) as [Hp Hpa].
  destruct (pte_denied _ _ _ _); [injection E as <- <-; split; [rvok|done]|].
  destruct (update_ad _ _ _ _) as [[ok p] s2] eqn:Ew2. unfold update_ad in Ew2.
  assert (isu64 p /\ rv_ok s2) as [Hp2 Hs2].
  { destruct (_ || _); [|by injection Ew2 as <- <- <-].
    destruct (physical_write _ _ _ _) as [ok' s3] eqn:Epw.
    injection Ew2 as <- <- <-. apply physical_write_ok in Epw; [|done..].
    split; [|done]. apply isu64_lor; [done|]. apply isu64_lor; [lia|]. destruct (access =? 2); lia. }
  destruct ok; [|injection E as <- <-; split; done].
  injection E as <- <-. split.
  - apply tlb_fill_ok; [done|apply u64_bound|]. rvok.
  - intros ? [= <-]. rvok.
Qed.

Lemma probe_ok va access s r s' :
  rv_ok s -> isu64 va -> probe va access s = (r, s') ->
  rv_ok s' /\ (forall pa, r = Some pa -> isu64 pa).
Proof.
  intros Hs Hva E. unfold probe in E. destruct (_ =? TLB_TAG s va).
  - injection E as <- <-. split; [done|]. intros ? [= <-]. rvok.
  - by eapply translate_ok.
Qed.

Lemma load_bytes_ok n i va access v s ok v' s' :
  rv_ok s -> isu64 v -> load_bytes n i va access v s = (ok, v', s') -> isu64 v' /\ rv_ok s'.
Proof.
  revert i v s. induction n as [|n IH]; intros i v s Hs Hv E; cbn [load_bytes] in E.
  { by injection E as <- <- <-. }
  destruct (translate _ _ _) as [[pa|] s1] eqn:Et;
    apply translate_ok in Et as [Hs1 Hpa]; try done; try apply u64_bound;
    [|by injection E as <- <- <-].
  destruct (physical_read _ _ _ _) as [[okr byte] s2] eqn:Er.
  apply physical_read_ok in Er as [Hb Hs2]; [|done|by apply Hpa|lia].
  destruct okr; [|by injection E as <- <- <-].
  eapply IH; [..|exact E]; [done|]. apply isu64_lor; [done|apply u64_bound].
Qed.

Lemma load_ok va size access v s ok v' s' :
  rv_ok s -> isu64 va -> isu64 v -> load va size access v s = (ok, v', s') ->
  isu64 v' /\ rv_ok s'.
Proof.
  intros Hs Hva Hv E. unfold load in E.
  destruct (_ <? _); [eapply load_bytes_ok; [done| |exact E]; lia|].
  destruct (probe _ _ _) as [[pa|] s1] eqn:Ep; apply probe_ok in Ep as [Hs1 Hpa]; try done;
    [|by injection E as <- <- <-].
  destruct (in_ram _ _); [injection E as <- <- <-; rvok|].
  eapply physical_read_ok; [..|exact E]; auto.
Qed.

Lemma store_bytes_ok n i va v s ok s' :
  rv_ok s -> store_bytes n i va v s = (ok, s') -> rv_ok s'.
Proof.
  revert i s. induction n as [|n IH]; intros i s Hs E; cbn [store_bytes] in E.
  { by injection E as <- <-. }
  destruct (translate _ _ _) as [[pa|] s1] eqn:Et;
    apply translate_ok in Et as [Hs1 Hpa]; try done; try apply u64_bound;
    [|by injection E as <- <-].
  destruct (physical_write _ _ _ _) as [okw s2] eqn:Ew.
  apply physical_write_ok in Ew; [|done|by apply Hpa].
  destruct okw; [by eapply IH|by injection E as <- <-].
Qed.

Lemma store_ok va size v s ok s' :
  rv_ok s -> isu64 va -> store va size v s = (ok, s') -> rv_ok s'.
Proof.
  intros Hs Hva E. unfold store in E.
  destruct (_ <? _); [by eapply store_bytes_ok|].
  destruct (probe _ _ _) as [[pa|] s1] eqn:Ep; apply probe_ok in Ep as [Hs1 Hpa]; try done;
    [|by injection E as <- <-].
  destruct (in_ram _ _); [injection E as <- <-; rvok|].
  eapply physical_write_ok; [..|exact E]; auto.
Qed.

(** ** CSRs, traps and system instructions *)

Lemma put_bit_ok b bit status : isu64 bit -> isu64 status -> isu64 (put_bit b bit status).
Proof. unfold put_bit. destruct b; auto with words. Qed.
#[export] Hint Resolve put_bit_ok : rvok.

Lemma trap_ok cause value interrupt s :
  rv_ok s -> isu64 cause -> isu64 value -> rv_ok (trap cause value interrupt s).
Proof.
  intros Hs Hc Hv. unfold trap.
  set (c := Z.lor cause _).
  assert (isu64 c) by (apply isu64_lor; [done|]; destruct (interrupt =? 0); by vm_compute).
  set (st := Z.land _ (not64 STATUS_SIE)).
  assert (isu64 st).
  { apply isu64_land_l, put_bit_ok, put_bit_ok; [by vm_compute..|by apply rv_csr]. }
  set (s3 := setcsr STVAL value _).
  assert (rv_ok s3) by (subst s3; rvok).
  set (s4 := set_privilege 0 _). assert (rv_ok s4) by (subst s4; apply ok_set_privilege; rvok).
  apply ok_flush, ok_set_halted; [lia|]. apply ok_set_pc; [apply isu64_land_l; by apply rv_csr|done].
Qed.

Lemma sret_ok s : rv_ok s -> rv_ok (sret s).
Proof.
  intros Hs. unfold sret.
  set (s1 := set_privilege _ s).
  assert (rv_ok s1) by (subst s1; apply ok_set_privilege; [case_match; lia|done]).
  set (st := Z.land _ (not64 STATUS_SPP)).
  assert (isu64 st).
  { apply isu64_land_l, isu64_lor; [apply put_bit_ok; [by vm_compute|by apply rv_csr]|by vm_compute]. }
  apply ok_flush, ok_set_pc; [apply rv_csr|]; rvok.
Qed.

Lemma timer_count_nonneg v t step : 0 <= step -> 0 <= timer_count v t step.
Proof.
  intros. unfold timer_count. destruct (_ && _) eqn:E; [|destruct (v =? 0); by vm_compute].
  apply andb_true_iff in E as [_ E]. apply negb_true_iff, Z.eqb_neq in E.
  apply Z.div_pos; [apply u64_bound|lia].
Qed.

Lemma set_csr_ok n v s : rv_ok s -> isu64 v -> rv_ok (set_csr n v s).
Proof.
  intros Hs Hv. unfold set_csr.
  set (s1 := setcsr n v s). assert (rv_ok s1) as Hs1 by (subst s1; rvok).
  set (s2 := if n =? STIMECMP then _ else s1).
  assert (rv_ok s2) as Hs2.
  { subst s2. destruct (n =? STIMECMP); [|done].
    apply ok_set_timer_steps.
    - destruct (_ <? _); [lia|apply u32_bound].
    - destruct (_ || _); rvok. }
  clearbody s2. destruct (_ || _); rvok.
Qed.
#[export] Hint Resolve trap_ok sret_ok set_csr_ok : rvok.

Lemma csr_value_ok kind old src v :
  isu64 old -> isu64 src -> csr_value kind old src = Some v -> isu64 v.
Proof. intros Ho Hsrc E. unfold csr_value in E. ok_cases; simplify_eq; auto with words. Qed.

Lemma execute_system_ok insn rd f3 rs1 next s ok s' :
  rv_ok s -> isu64 next -> 0 <= rs1 < 32 ->
  execute_system insn rd f3 rs1 next s = (ok, s') -> rv_ok s'.
Proof.
  intros Hs Hn Hr E. unfold execute_system in E.
  destruct (f3 =? 0).
  { assert (forall c, isu64 c -> rv_ok (trap c 0 0 s)) by (intros; apply trap_ok; [done|done|lia]).
    repeat match type of E with context [if ?b then _ else _] => destruct b end;
      injection E as <- <-; try assumption; auto with lia.
    - apply trap_ok; [done|lia|by apply rv_pc].
    - by apply sret_ok.
    - by apply ok_set_pc, ok_set_halted.
    - by apply ok_set_pc, ok_flush. }
  assert (isu64 (if Z.land (Z.shiftr insn 20) 4095 =? TIME then ticks s
                 else getcsr s (Z.land (Z.shiftr insn 20) 4095))) as Hold
    by (destruct (_ =? TIME); rvok).
  assert (isu64 (if 5 <=? f3 then rs1 else getx s rs1)) as Hsrc by (destruct (5 <=? f3); rvok).
  destruct (csr_value _ _ _) as [value|] eqn:Ev; [|by injection E as <- <-].
  apply csr_value_ok in Ev; [|done..].
  apply (f_equal snd) in E; cbn [snd] in E; subst s'. apply ok_set_pc; [done|].
  set (s1 := if (_ || _) then _ else s).
  assert (rv_ok s1) by (subst s1; destruct (_ || _); rvok).
  destruct (rd =? 0) eqn:?; [done|]. apply ok_setx; rvok.
Qed.

(** ** Instructions *)

Lemma insn_fields insn : isu32 insn ->
  0 <= insn_rs1 insn < 32 /\ 0 <= insn_rs2 insn < 32 /\ 0 <= insn_rd insn < 32 /\
  0 <= insn_f3 insn < 8 /\ 0 <= insn_f7 insn < 128.
Proof.
  intros H. unfold insn_rs1, insn_rs2, insn_rd, insn_f3, insn_f7.
  repeat split; try (apply (land_bound_r 5); lia); try (apply (land_bound_r 3); lia).
  all: rewrite Z.shiftr_div_pow2 by lia; change (2 ^ 25) with 33554432; zlia.
Qed.

(** The pair an instruction returns: the next pc and the state. *)
Definition result_ok (r : Z * rv) : Prop := isu64 (fst r) /\ rv_ok (snd r).

Lemma exec_trap_ok at_ cause value s :
  rv_ok s -> isu64 at_ -> isu64 cause -> isu64 value -> result_ok (exec_trap at_ cause value s).
Proof.
  intros. unfold exec_trap, result_ok. cbn [fst snd].
  assert (rv_ok (trap cause value 0 (set_pc at_ s))) by rvok. rvok.
Qed.
Lemma load_trap_ok at_ s : rv_ok s -> isu64 at_ -> result_ok (load_trap at_ s).
Proof.
  intros. unfold load_trap. destruct (_ =? 2); apply exec_trap_ok; auto with rvok; by vm_compute.
Qed.
Lemma store_trap_ok at_ s : rv_ok s -> isu64 at_ -> result_ok (store_trap at_ s).
Proof.
  intros. unfold store_trap. destruct (_ =? 2); apply exec_trap_ok; auto with rvok; by vm_compute.
Qed.

Section instr.
Context (insn at_ : Z) (Hinsn : isu32 insn) (Hat : isu64 at_).

Lemma illegal_ok s : rv_ok s -> result_ok (exec_trap at_ 2 insn s).
Proof. intros. apply exec_trap_ok; try done; lia. Qed.

Lemma write_back_ok rd next v s :
  rv_ok s -> isu64 next -> (forall w, v = Some w -> isu64 w) ->
  result_ok (write_back insn rd at_ next v s).
Proof.
  intros Hs Hn Hv. unfold write_back. destruct v as [w|]; [|by apply illegal_ok].
  split; [done|]. cbn [snd]. apply ok_setx0. destruct (rd =? 0) eqn:?; [done|].
  apply ok_setx; auto; lia.
Qed.
Lemma finish_ok next b s : rv_ok s -> isu64 next -> result_ok (finish insn at_ next b s).
Proof. intros. unfold finish. destruct b; [split; cbn; rvok|by apply illegal_ok]. Qed.
Lemma write_some_ok rd next w s :
  rv_ok s -> isu64 next -> isu64 w -> result_ok (write_back insn rd at_ next (Some w) s).
Proof. intros. apply write_back_ok; try done. by intros ? [= <-]. Qed.

Hint Resolve write_back_ok finish_ok write_some_ok load_trap_ok store_trap_ok illegal_ok
  u64_bound : rvok.

Lemma exec_load_ok s : rv_ok s -> result_ok (exec_load insn at_ s).
Proof.
  intros Hs. unfold exec_load.
  set (addr := u64 (getx s (insn_rs1 insn) + imm_i insn)).
  assert (forall size ok v s', load addr size 1 0 s = (ok, v, s') -> isu64 v /\ rv_ok s') as Hl.
  { intros. eapply load_ok; [..|done]; [done|apply u64_bound|lia]. }
  repeat case_match; simplify_eq;
    repeat match goal with H : load _ _ _ _ _ = _ |- _ => apply Hl in H as [? ?] end; rvok.
Qed.

Lemma exec_store_ok s : rv_ok s -> result_ok (exec_store insn at_ s).
Proof.
  intros Hs. unfold exec_store.
  destruct (_ <=? 3).
  - destruct (store _ _ _ _) as [ok s'] eqn:E. apply store_ok in E; [|done|apply u64_bound].
    destruct ok; [split; cbn; rvok|rvok].
  - rvok.
Qed.

Lemma exec_branch_ok s : rv_ok s -> result_ok (exec_branch insn at_ s).
Proof.
  intros Hs. unfold exec_branch.
  repeat case_match; rvok; split; cbn; rvok; apply u64_bound.
Qed.

Lemma amo_value_ok fn size old b v :
  isu64 old -> isu64 b -> amo_value fn size old b = Some v -> isu64 v.
Proof.
  intros Ho Hb E. unfold amo_value in E.
  repeat case_match; simplify_eq; auto with words.
Qed.

Lemma exec_amo_ok s : rv_ok s -> result_ok (exec_amo insn at_ s).
Proof.
  intros Hs. unfold exec_amo.
  set (size := if insn_f3 insn =? 2 then 4 else _). clearbody size.
  destruct (_ || _); [rvok|].
  destruct (load _ _ _ _ _) as [[ok old] s1] eqn:El.
  apply load_ok in El as [Hold Hs1]; [|done|rvok|lia].
  destruct ok; cbn [negb]; [|rvok].
  set (w := if size =? 4 then u64 (i32 old) else old).
  assert (isu64 w) by (subst w; destruct (size =? 4); [apply u64_bound|done]). clearbody w.
  assert (isu64 (getx s (insn_rs1 insn))) by rvok.
  destruct (Z.shiftr _ 2 =? 2); [rvok|].
  destruct (Z.shiftr _ 2 =? 3).
  { destruct (store _ _ _ _) as [ok s2] eqn:Est. apply store_ok in Est; [|done|rvok].
    destruct ok; rvok. }
  destruct (amo_value _ _ _ _) as [v|] eqn:Ev; [|rvok].
  destruct (store _ _ _ _) as [ok s2] eqn:Est. apply store_ok in Est; [|done|rvok].
  destruct ok; rvok.
Qed.

Lemma exec_fload_ok s : rv_ok s -> result_ok (exec_fload insn at_ s).
Proof.
  intros Hs. unfold exec_fload.
  destruct (_ =? 2).
  { destruct (load _ _ _ _ _) as [[ok v] s1] eqn:El.
    apply load_ok in El as [Hv Hs1]; [|done|apply u64_bound|lia].
    assert (rv_ok (setf (insn_rd insn) (Z.lor 0xffffffff00000000 (u32 v)) s1)).
    { apply ok_setf; [|done]. apply isu64_lor; [lia|apply isu64_u32]. }
    destruct ok; rvok. }
  destruct (_ =? 3); [|rvok].
  destruct (load _ _ _ _ _) as [[ok v] s1] eqn:El.
  apply load_ok in El as [Hv Hs1]; [|done|apply u64_bound|rvok].
  destruct ok; rvok.
Qed.

Lemma exec_fstore_ok s : rv_ok s -> result_ok (exec_fstore insn at_ s).
Proof.
  intros Hs. unfold exec_fstore. 
  repeat (case_match; simplify_eq);
    try match goal with H : store _ _ _ _ = _ |- _ =>
      apply store_ok in H; [|done|apply u64_bound] end; rvok.
Qed.
End instr.

Section run.
Context `{HF : HostFloat}.
Context (insn at_ : Z) (Hinsn : isu32 insn) (Hat : isu64 at_).
Hint Resolve write_back_ok finish_ok write_some_ok load_trap_ok store_trap_ok illegal_ok
  u64_bound : rvok.

Lemma set_f32_ok x : isu64 (set_f32_bits x).
Proof.
  apply isu64_lor; [by vm_compute|]. unfold f32_bits, sf_to_bits.
  match goal with |- isu64 (?v mod ?m) => pose proof (Z.mod_pos_bound v m ltac:(done)) as Hb end.
  split; [apply Hb|]. eapply Z.lt_trans; [apply Hb|done].
Qed.
Lemma set_f64_ok x : isu64 (set_f64_bits x).
Proof. unfold set_f64_bits, f64_bits, sf_to_bits. by apply Z.mod_pos_bound. Qed.
Lemma sf_convert_bits_ok f7 x :
  isu64 (if tst f7 1 then set_f64_bits x else set_f32_bits (sf_convert 23 8 x)).
Proof. destruct (tst f7 1); [apply set_f64_ok|apply set_f32_ok]. Qed.

Lemma fp_arith_ok f7 f3 rs2 a b v :
  isu64 a -> fp_arith f7 f3 rs2 a b = Some v -> isu64 v.
Proof.
  intros Ha E. unfold fp_arith in E.
  repeat match type of E with (if ?c then _ else _) = _ => destruct c end;
    try discriminate; apply (inj Some) in E; subst v;
    try apply set_f64_ok; try apply set_f32_ok.
  - apply isu64_lor; [apply isu64_lor; [by vm_compute|]|]; rewrite Z.land_comm;
      by apply isu64_land_l.
  - apply isu64_lor; [by apply isu64_land_l|]. rewrite Z.land_comm. by apply isu64_land_l.
Qed.

Lemma fp_to_int_ok f7 rs2 a v : fp_to_int f7 rs2 a = Some v -> isu64 v.
Proof.
  intros E. unfold fp_to_int in E.
  repeat match type of E with (if ?c then _ else _) = _ => destruct c end;
    try discriminate; apply (inj Some) in E; subst v;
    try apply u64_bound; try apply isu64_u32.
  unfold double_to_u64. destruct (SFltb _ _); [apply u64_bound|].
  apply isu64_lor; [apply u64_bound|by vm_compute].
Qed.

Lemma int_to_fp_ok f7 rs2 a v : int_to_fp f7 rs2 a = Some v -> isu64 v.
Proof.
  intros E. unfold int_to_fp in E.
  repeat match type of E with context [if ?c =? ?d then _ else _] => destruct (c =? d) end;
    try discriminate; apply (inj Some) in E; subst v;
    apply sf_convert_bits_ok.
Qed.

Lemma exec_fp_ok s : rv_ok s -> result_ok (exec_fp insn at_ s).
Proof.
  intros Hs. unfold exec_fp.
  assert (forall r, isu64 (getf s r)) by (intros; rvok).
  destruct (fp_arith _ _ _ _ _) as [v|] eqn:Ea.
  { apply fp_arith_ok in Ea; [|done]. apply finish_ok; [done|done|rvok|apply u64_bound]. }
  destruct (_ && _); [apply write_some_ok; try done; [apply u64_bound|apply isu64_b2z]|].
  destruct (_ || _).
  { apply write_back_ok; try done; [apply u64_bound|]. intros w. apply fp_to_int_ok. }
  destruct (_ || _).
  { destruct (int_to_fp _ _ _) as [v|] eqn:Ei.
    - apply int_to_fp_ok in Ei. apply finish_ok; [done|done|rvok|apply u64_bound].
    - apply finish_ok; [done|done|rvok|apply u64_bound]. }
  repeat match goal with |- result_ok (if ?c then _ else _) => destruct c end.
  all: try (apply write_some_ok; [done|done|done|apply u64_bound|auto using u64_bound]).
  all: apply finish_ok; [done|done| |apply u64_bound]; try done; apply ok_setf; rvok.
  apply isu64_lor; [by vm_compute|apply isu64_u32].
Qed.

Lemma exec_system_ok s : rv_ok s -> result_ok (exec_system insn at_ s).
Proof.
  intros Hs. unfold exec_system.
  destruct (execute_system _ _ _ _ _ _) as [b s'] eqn:E.
  apply execute_system_ok in E;
    [|rvok|apply u64_bound|by pose proof (insn_fields insn Hinsn); tauto].
  split; cbn [fst snd]; [by apply rv_pc|done].
Qed.

(** One case of an ALU table. *)
Lemma shr_ok a n m : isu64 a -> 0 <= m -> isu64 (Z.shiftr a (Z.land n m)).
Proof. intros. apply isu64_shiftr; [done|]. apply Z.land_nonneg. by right. Qed.

Ltac alu_case :=
  match goal with
  | |- isu64 (if ?c then _ else _) => destruct c
  | |- isu64 (u64 _) => apply u64_bound
  | |- isu64 (u32 _) => apply isu64_u32
  | |- isu64 (Z.b2z _) => apply isu64_b2z
  | |- isu64 (Z.lor _ _) => apply isu64_lor
  | |- isu64 (Z.lxor _ _) => apply isu64_lxor
  | |- isu64 (Z.land _ _) => apply isu64_land_l
  | |- isu64 (Z.shiftr _ (Z.land _ _)) => apply shr_ok
  | |- isu64 _ => first [assumption | unfold MIN64, ONES64; lia]
  | |- _ => lia
  end.
Ltac alu_split E :=
  repeat match type of E with
    | (if ?c then _ else _) = _ => destruct c
    | (match ?c with Some _ => _ | None => _ end) = _ => destruct c
    end;
  try discriminate; apply (inj Some) in E; subst.

Lemma alu_imm_ok f3 f7 a v : isu64 a -> alu_imm f3 f7 insn a = Some v -> isu64 v.
Proof. intros Ha E. unfold alu_imm in E. alu_split E; repeat alu_case. Qed.
Lemma alu_imm32_ok f3 f7 a v : alu_imm32 f3 f7 insn a = Some v -> isu64 v.
Proof. intros E. unfold alu_imm32 in E. alu_split E; repeat alu_case. Qed.
Lemma alu_reg32_ok f3 f7 a b v : alu_reg32 f3 f7 a b = Some v -> isu64 v.
Proof. intros E. unfold alu_reg32 in E. alu_split E; repeat alu_case. Qed.

Lemma alu_mul_ok f3 a b : isu64 a -> isu64 b -> isu64 (alu_mul f3 a b).
Proof.
  intros Ha Hb. unfold alu_mul.
  assert (b <> 0 -> isu64 (a / b)).
  { intros. split; [apply Z.div_pos; lia|]. apply Z.div_lt_upper_bound; nia. }
  assert (b <> 0 -> isu64 (a mod b)) by (intros; pose proof (Z.mod_pos_bound a b); lia).
  assert (isu64 (mulhu a b)) by apply u64_bound.
  destruct (Z.eqb_spec b 0); repeat alu_case; auto.
Qed.
Lemma alu_reg_ok f3 f7 a b : isu64 a -> isu64 b -> isu64 (alu_reg f3 f7 a b).
Proof.
  intros Ha Hb. unfold alu_reg. destruct (f7 =? 1); [by apply alu_mul_ok|]. repeat alu_case.
Qed.

Lemma execute_ok s : rv_ok s -> result_ok (execute insn at_ s).
Proof.
  intros Hs. unfold execute.
  assert (forall r, isu64 (getx s r)) as Hx by (intros; rvok).
  repeat match goal with |- result_ok (if ?c then _ else _) => destruct c end;
    auto using exec_load_ok, exec_store_ok, exec_branch_ok, exec_amo_ok, exec_fload_ok,
      exec_fstore_ok, exec_fp_ok, exec_system_ok, finish_ok, u64_bound.
  all: try (apply write_some_ok; auto using u64_bound, alu_reg_ok; by apply isu64_land_l, u64_bound).
  all: apply write_back_ok; auto using u64_bound.
  - intros w. by apply alu_imm_ok.
  - intros w. by apply alu_imm32_ok.
  - intros w. by apply alu_reg32_ok.
Qed.
End run.

(** ** The run loop and the host interface *)

Definition loop_ok (l : loop) : Prop :=
  isu64 (l_now l) /\ isu64 (l_here l) /\ isu32 (l_until l) /\ 0 <= l_stopped l < 2 /\ rv_ok (l_s l).

Lemma loop_ok_intro now here until stopped s :
  isu64 now -> isu64 here -> isu32 until -> 0 <= stopped < 2 -> rv_ok s ->
  loop_ok (Loop now here until stopped s).
Proof. unfold loop_ok. done. Qed.

Section loop.
Context `{HF : HostFloat}.

Lemma timer_tick_ok now here until stopped s :
  isu64 now -> isu64 here -> isu32 until -> rv_ok s ->
  match timer_tick now here until stopped s with
  | inl l => loop_ok l
  | inr (until, s) => isu32 until /\ rv_ok s
  end.
Proof.
  intros Hn Hh Hu Hs. unfold timer_tick.
  destruct (until =? 0); [done|].
  assert (isu32 (u32 (until - 1))) by apply u32_bound.
  destruct (negb _) eqn:E; [done|].
  set (s1 := setcsr SIP _ s).
  assert (rv_ok s1) by (apply ok_setcsr; [apply isu64_lor; [by apply rv_csr|by vm_compute]|done]).
  destruct (_ && _); [|split; [lia|done]].
  set (s2 := trap _ _ _ _).
  assert (rv_ok s2).
  { apply trap_ok; [|lia..].
    by apply ok_set_pc, ok_set_timer_steps, ok_set_ticks. }
  apply loop_ok_intro; [done|by apply rv_pc|done|lia|done].
Qed.

Lemma fetch_insn_ok here s r s' :
  rv_ok s -> isu64 here -> fetch_insn here s = (r, s') -> rv_ok s'.
Proof.
  intros Hs Hh E. unfold fetch_insn in E.
  destruct (negb _); [|by apply (f_equal snd) in E; cbn [snd] in E; subst].
  destruct (load _ _ _ _ _) as [[ok raw] s1] eqn:El.
  apply load_ok in El as [_ Hs1]; [|done|done|lia].
  destruct ok.
  - destruct (_ && _); apply (f_equal snd) in E; cbn [snd] in E; subst; [|done].
    apply ok_set_fetch_delta; [apply u64_bound|].
    apply ok_set_fetch_vpage; [by apply isu64_land_l|done].
  - apply (f_equal snd) in E; cbn [snd] in E; subst.
    apply trap_ok; [by apply ok_set_pc| destruct (_ =? 2); lia | by apply rv_fault_addr, ok_set_pc].
Qed.

Lemma run_step_ok adv l : loop_ok l -> loop_ok (run_step adv l).
Proof.
  intros (Hn & Hh & Hu & Hst & Hs). unfold run_step.
  pose proof (timer_tick_ok (u64 (l_now l + adv)) (l_here l) (l_until l) (l_stopped l) (l_s l)
    ltac:(apply u64_bound) Hh Hu Hs) as Ht.
  destruct (timer_tick _ _ _ _ _) as [l'|[until s]]; [done|]. destruct Ht as [Hu' Hs'].
  assert (isu64 (u64 (l_now l + adv))) by apply u64_bound.
  destruct (negb (l_stopped l =? 0)); [done|].
  destruct (fetch_insn _ _) as [[raw|] s1] eqn:Ef; apply fetch_insn_ok in Ef; try done.
  - destruct (_ =? 0x73).
    + assert (rv_ok (set_timer_steps until (set_ticks (u64 (l_now l + adv)) s1))) as Hs2
        by by apply ok_set_timer_steps, ok_set_ticks.
      pose proof (execute_ok (u32 raw) (l_here l) ltac:(apply u32_bound) Hh _ Hs2) as [Hp Hs3].
      destruct (execute _ _ _) as [here s3]; cbn [fst snd] in *.
      apply loop_ok_intro; [done|done|by apply rv_timer_steps|by apply rv_halted|done].
    + pose proof (execute_ok (u32 raw) (l_here l) ltac:(apply u32_bound) Hh _ Ef) as [Hp Hs3].
      destruct (execute _ _ _) as [here s3]; cbn [fst snd] in *. done.
  - apply loop_ok_intro; [done|by apply rv_pc|done|done|done].
Qed.

Lemma run_loop_ok n adv l : loop_ok l -> loop_ok (run_loop n adv l).
Proof.
  revert l. induction n as [|n IH]; intros l H; [done|]. cbn [run_loop]. by apply IH, run_step_ok.
Qed.

Lemma rv_run_ok count adv s : rv_ok s -> isu32 adv -> rv_ok (snd (rv_run count adv s)).
Proof.
  intros Hs Ha. unfold rv_run. cbn [snd].
  set (s1 := set_tick_step adv s). assert (rv_ok s1) by by apply ok_set_tick_step.
  set (s2 := if timecmp s1 =? 0 then s1 else _).
  assert (rv_ok s2) by (subst s2; destruct (_ =? 0); [done|]; apply set_csr_ok; [done|by apply rv_timecmp]).
  assert (loop_ok (Loop (ticks s) (pc s) (timer_steps s2) (halted s2) s2)) as Hl.
  { apply loop_ok_intro; [by apply rv_ticks|by apply rv_pc|by apply rv_timer_steps
      |by apply rv_halted|done]. }
  apply (run_loop_ok (Z.to_nat count) adv) in Hl as (? & ? & ? & ? & ?).
  apply ok_set_pc; [done|]. apply ok_set_halted; [done|].
  apply ok_set_ticks; [done|]. by apply ok_set_timer_steps.
Qed.
End loop.

Lemma rv_input_ok b s : rv_ok s -> rv_ok (rv_input b s).
Proof. intros Hs. unfold rv_input. destruct (_ <? _) eqn:E; [|done]. apply ok_in_push; [done|lia]. Qed.
Lemma rv_output_ok s : rv_ok s -> rv_ok (snd (rv_output s)).
Proof.
  intros Hs. unfold rv_output. destruct (_ =? _) eqn:E; cbn [snd]; [done|].
  apply ok_out_pop; [done|lia].
Qed.
Lemma rv_fetch_complete_ok len st s :
  rv_ok s -> isu32 len -> isu32 st -> rv_ok (rv_fetch_complete len st s).
Proof. intros. by apply ok_set_fetch_status, ok_set_fetch_length. Qed.

Lemma isu64_afill0 n a lo i : (forall i, isu64 (aget a i)) -> isu64 (aget (afill n a lo 0) i).
Proof. intros H. rewrite aget_afill. case_bool_decide; [lia|apply H]. Qed.

Lemma ok_reset_uart s :
  rv_ok s -> rv_ok (set_in_read 0 (set_in_write 0 (set_out_read 0 (set_out_write 0 s)))).
Proof. intros [? [] [] [] []]. constructor; [done | done | constructor | done | done]; cbn; done. Qed.
Lemma ok_reset_regs s :
  rv_ok s -> rv_ok (set_xreg (afill 32 (xreg s) 0 0) (set_freg (afill 32 (freg s) 0 0) s)).
Proof.
  intros Hs. apply ok_set_xreg; [|by rewrite aget_afill|].
  - intros r. apply isu64_afill0. intros; by apply rv_x.
  - apply ok_set_freg; [|done]. intros r. apply isu64_afill0. intros; by apply rv_f.
Qed.

Lemma rv_init_ok entry s : rv_ok s -> isu64 entry -> rv_ok (rv_init entry s).
Proof.
  intros Hs He. unfold rv_init. apply ok_reset_regs in Hs.
  set (s1 := set_xreg _ _) in *. clearbody s1.
  apply ok_flush, ok_set_fetch_url_length, ok_set_fetch_capacity, ok_set_fetch_length,
    ok_set_fetch_status, ok_set_fetch_url, ok_set_fetch_destination, ok_reset_uart,
    ok_set_privilege, ok_set_halted, ok_set_fault, ok_set_timer_steps, ok_set_pc, ok_set_ticks,
    ok_set_timecmp, ok_set_csr_arr; try lia; [|done].
  intros r. apply isu64_afill0. intros; by apply rv_csr.
Qed.

Lemma rv_bss_ok : rv_ok rv_bss.
Proof.
  constructor; [apply bytes_ok_empty | constructor | constructor | constructor | constructor];
    cbn; try done; intros r; rewrite aget_empty; lia.
Qed.

(** ** Reachability

    What the embedder can do with the emulator after loading an image: step it, feed and drain the
    UART, complete a fetch, write RAM through [rv_ram] (the image loader) and reset. *)
Section reach.
Context `{HF : HostFloat}.

Inductive host_step : rv -> rv -> Prop :=
  | host_init s entry : isu64 entry -> host_step s (rv_init entry s)
  | host_run s count adv : isu32 count -> isu32 adv -> host_step s (snd (rv_run count adv s))
  | host_input s b : host_step s (rv_input b s)
  | host_output s : host_step s (snd (rv_output s))
  | host_fetch s len st : isu32 len -> isu32 st -> host_step s (rv_fetch_complete len st s)
  | host_ram s i v : isu8 v -> host_step s (set_ram (aset (ram s) i v) s).

Inductive host_reach : rv -> Prop :=
  | reach_bss : host_reach rv_bss
  | reach_step s s' : host_reach s -> host_step s s' -> host_reach s'.

(** C22: every state the embedder can reach from power-on satisfies the emulator's invariant. *)
Theorem reach_ok s : host_reach s -> rv_ok s.
Proof.
  induction 1 as [|s s' Hr IH Hstep]; [apply rv_bss_ok|].
  destruct Hstep.
  - by apply rv_init_ok.
  - by apply rv_run_ok.
  - by apply rv_input_ok.
  - by apply rv_output_ok.
  - by apply rv_fetch_complete_ok.
  - apply ok_set_ram; [|done]. apply bytes_ok_aset; [apply IH|done].
Qed.
End reach.

Lemma reach_ok_witness : rv_ok (rv_input 7 (rv_init 0x80000000 rv_bss)).
Proof.
  pose (HF := {| nan32 := 0; nan64 := 0; cvt_undef := fun lo _ _ => lo |}).
  apply (@reach_ok HF), (reach_step (rv_init 0x80000000 rv_bss)); [|apply host_input].
  apply (reach_step rv_bss); [apply reach_bss|apply host_init; lia].
Defined.
