(* ===== verification/Rv64Vm.v ===== *)
(** Address translation of the emulator refines the Sv39 page-table walk.

    [sv39] is the specification: a pure function of RAM, [satp], [sstatus] and the privilege.
    [translate] adds a software TLB and sets accessed/dirty bits in memory; under [coherent] it
    computes [sv39], and it keeps the TLB coherent. *)
From S2P Require Import Prelude Rv64State Rv64Mem Rv64Inv.

(** ** Specification *)

(** A page-table entry is read from RAM only. *)
Definition pte_at (m : gmap Z Z) (addr : Z) : option Z :=
  let off := u64 (addr - RAM_BASE) in
  if in_ram off 8 then Some (mget 8 m off) else None.

Definition pte_addr_of (level va table : Z) : Z :=
  u64 (table + Z.land (Z.shiftr va (12 + 9 * level)) 511 * 8).
Definition pte_base (pte : Z) : Z := u64 (Z.shiftl (Z.shiftr pte 10) 12).

(** The leaf entry for [va] and its level, address included. *)
Fixpoint sv39_walk (n : nat) (m : gmap Z Z) (va table : Z) : option (Z * Z * Z) :=
  match n with
  | O => None
  | S level =>
      let addr := pte_addr_of (Z.of_nat level) va table in
      match pte_at m addr with
      | None => None
      | Some pte =>
          if negb (tst pte 1) then None
          else if tst pte 14 then Some (Z.of_nat level, pte, addr)
          else sv39_walk level m va (pte_base pte)
      end
  end.

(** What a leaf entry allows at access kind 0 (fetch), 1 (load), 2 (store). *)
Definition leaf_allows (access privilege_ sum level pte : Z) : bool :=
  (level =? 0) &&
  (if access =? 0 then tst pte 8 else if access =? 1 then tst pte 2 else tst pte 4) &&
  (if tst pte 16 then (privilege_ =? 1) || (negb (access =? 0) && negb (sum =? 0))
   else privilege_ =? 0).

Definition satp_mode (s : rv) : Z := u32 (Z.shiftr (getcsr s SATP) 60).
Definition satp_table (s : rv) : Z :=
  u64 (Z.shiftl (Z.land (getcsr s SATP) (Z.shiftl 1 44 - 1)) 12).
Definition sum_of (s : rv) : Z := Z.b2z (tst (getcsr s SSTATUS) STATUS_SUM).

Definition sv39 (s : rv) (va access : Z) : option Z :=
  if satp_mode s =? 0 then Some va
  else if satp_mode s =? 8 then
    match sv39_walk 3 (ram s) va (satp_table s) with
    | Some (level, pte, _) =>
        if leaf_allows access (privilege s) (sum_of s) level pte
        then Some (Z.lor (pte_base pte) (Z.land va 4095)) else None
    | None => None
    end
  else None.

(** The accessed bit, and for stores the dirty bit, of the entry that maps [va]. *)
Definition ad_set (s : rv) (va access : Z) : Prop :=
  forall level pte addr, sv39_walk 3 (ram s) va (satp_table s) = Some (level, pte, addr) ->
    tst pte 64 = true /\ (access = 2 -> tst pte 128 = true).

(** Every TLB entry that would be used now agrees with the page tables. *)
Definition coherent (s : rv) : Prop :=
  forall va access, isu64 va -> 0 <= access < 3 ->
    aget (tlb_tag s) (TLB_SLOT va access) = TLB_TAG s va ->
    satp_mode s = 8 /\
    sv39 s va access = Some (Z.lor (aget (tlb_ppage s) (TLB_SLOT va access)) (Z.land va 4095)) /\
    ad_set s va access.

(** ** The TLB tag and slot *)

Lemma TLB_SLOT_eq va access : isu64 va -> 0 <= access < 3 ->
  TLB_SLOT va access = (va / 4096) mod 256 + access * 256.
Proof.
  intros Hva Ha. unfold TLB_SLOT.
  rewrite Z.shiftr_div_pow2 by lia. change (2 ^ 12) with 4096.
  change 255 with (2 ^ 8 - 1). rewrite land_ones_mod by lia. unfold u32.
  change (2 ^ 8) with 256.
  rewrite (Z.mod_mod_divide _ 4294967296 256) by (by exists 16777216).
  apply Z.mod_small. pose proof (Z.mod_pos_bound (va / 4096) 256). lia.
Qed.

Lemma TLB_TAG_eq s va : isu64 va -> 0 <= privilege s < 2 ->
  TLB_TAG s va = va / 4096 * 4 + privilege s + 2 * sum_of s + 1.
Proof.
  intros Hva Hp. unfold TLB_TAG, sum_of.
  rewrite Z.shiftr_div_pow2, Z.shiftl_mul_pow2 by lia. change (2 ^ 12) with 4096. change (2 ^ 2) with 4.
  rewrite (u64_small (va / 4096 * 4)) by zlia.
  rewrite <- Z.lor_assoc.
  assert (Z.lor (privilege s) (if tst (getcsr s SSTATUS) STATUS_SUM then 2 else 0) =
          privilege s + 2 * Z.b2z (tst (getcsr s SSTATUS) STATUS_SUM)) as ->.
  { assert (privilege s = 0 \/ privilege s = 1) as [->| ->] by lia; by destruct (tst _ _). }
  change 4 with (2 ^ 2). rewrite lor_add; [|done|destruct (tst _ _); cbn; lia].
  rewrite Z.add_assoc. apply u64_small. change (2 ^ 2) with 4. destruct (tst _ _); cbn [Z.b2z]; zlia.
Qed.

Lemma TLB_TAG_page s va va' : isu64 va -> isu64 va' -> 0 <= privilege s < 2 ->
  TLB_TAG s va = TLB_TAG s va' -> va / 4096 = va' / 4096.
Proof. intros. rewrite !TLB_TAG_eq in * by done. lia. Qed.

(** ** The walk depends on the page only *)

Lemma walk_page n m va va' table :
  va / 4096 = va' / 4096 -> sv39_walk n m va table = sv39_walk n m va' table.
Proof.
  intros E. revert table. induction n as [|n IH]; intros table; [done|]. cbn [sv39_walk].
  assert (forall l, 0 <= l -> pte_addr_of l va table = pte_addr_of l va' table) as Ha.
  { intros l Hl. unfold pte_addr_of. do 3 f_equal.
    rewrite !Z.shiftr_div_pow2, Z.pow_add_r, <- !Z.div_div by lia.
    change (2 ^ 12) with 4096. by rewrite E. }
  rewrite !Ha by lia. case_match; [|done]. by rewrite IH.
Qed.

(** ** The accessed/dirty update *)

Section ad_update.
Context (m : gmap Z Z) (addr access : Z) (Hm : bytes_ok m).

Definition ad_bits : Z := Z.lor 64 (if access =? 2 then 128 else 0).
Definition ad_mem : gmap Z Z :=
  mput 8 m (u64 (addr - RAM_BASE)) (Z.lor (mget 8 m (u64 (addr - RAM_BASE))) ad_bits).

Lemma ad_bits_tst pte k : (k = 1 \/ k = 2 \/ k = 4 \/ k = 8 \/ k = 14 \/ k = 16) ->
  tst (Z.lor pte ad_bits) k = tst pte k.
Proof.
  intros Hk. unfold tst. do 2 f_equal. rewrite Z.land_lor_distr_l.
  assert (Z.land ad_bits k = 0) as ->; [|apply Z.lor_0_r].
  unfold ad_bits. destruct (access =? 2); destruct Hk as [->|[->|[->|[->|[->| ->]]]]]; done.
Qed.

Lemma ad_bits_base pte : pte_base (Z.lor pte ad_bits) = pte_base pte.
Proof.
  unfold pte_base. do 2 f_equal. rewrite Z.shiftr_lor.
  assert (Z.shiftr ad_bits 10 = 0) as ->; [|apply Z.lor_0_r].
  unfold ad_bits. by destruct (access =? 2).
Qed.

Lemma ad_bits_set pte : tst (Z.lor pte ad_bits) 64 = true /\ (access = 2 -> tst (Z.lor pte ad_bits) 128 = true).
Proof.
  change 64 with (2 ^ 6). change 128 with (2 ^ 7). rewrite !tst_pow2 by lia.
  rewrite !Z.lor_spec. unfold ad_bits. split; [|intros ->]; rewrite Z.lor_spec; apply orb_true_r.
Qed.

Lemma u64_aligned x k : x mod 8 = 0 -> u64 (x + k * 8) mod 8 = 0.
Proof. unfold u64. intros. zlia. Qed.

Lemma pte_base_aligned pte : pte_base pte mod 8 = 0.
Proof. unfold pte_base, u64. rewrite Z.shiftl_mul_pow2 by lia. change (2 ^ 12) with 4096. zlia. Qed.

Lemma pte_at_ad addr' p :
  isu64 addr -> isu64 addr' -> addr mod 8 = 0 -> addr' mod 8 = 0 ->
  pte_at m addr = Some p ->
  pte_at ad_mem addr' = if addr' =? addr then Some (Z.lor p ad_bits) else pte_at m addr'.
Proof.
  intros Ha Ha' H8 H8' Hp. unfold pte_at, ad_mem in *.
  destruct (in_ram (u64 (addr - RAM_BASE)) 8) eqn:Er; [|done].
  apply (inj Some) in Hp. rewrite Hp.
  destruct (Z.eqb_spec addr' addr) as [->|Hne].
  - rewrite Er, mget_mput_same. f_equal. apply (Z.mod_small _ (2 ^ 64)).
    apply lor_bound; [lia| |].
    + subst p. by apply (mget_isu64 8).
    + unfold ad_bits. by destruct (access =? 2).
  - destruct (in_ram (u64 (addr' - RAM_BASE)) 8) eqn:Er'; [|done].
    f_equal. apply mget_mput_other. unfold in_ram, RAM_BASE, u64 in *. zlia.
Qed.

Lemma walk_ad n va table p :
  isu64 addr -> addr mod 8 = 0 -> pte_at m addr = Some p -> tst p 14 = true ->
  table mod 8 = 0 ->
  sv39_walk n ad_mem va table =
  match sv39_walk n m va table with
  | Some (l, q, a) => Some (l, if a =? addr then Z.lor q ad_bits else q, a)
  | None => None
  end.
Proof.
  intros Ha H8 Hp Hl. revert table. induction n as [|n IH]; intros table Ht; [done|].
  cbn [sv39_walk].
  assert (isu64 (pte_addr_of (Z.of_nat n) va table)) as Hb by apply u64_bound.
  assert (pte_addr_of (Z.of_nat n) va table mod 8 = 0) as Hb8 by (by apply u64_aligned).
  set (a := pte_addr_of (Z.of_nat n) va table) in *.
  rewrite (pte_at_ad a p) by done.
  destruct (Z.eqb_spec a addr) as [E|E].
  - rewrite E, Hp, !ad_bits_tst, Hl by auto 6.
    destruct (negb (tst p 1)); [done|]. by rewrite Z.eqb_refl.
  - destruct (pte_at m a) as [q|]; [|done].
    destruct (negb (tst q 1)); [done|]. destruct (tst q 14).
    + by apply Z.eqb_neq in E as ->.
    + apply IH, pte_base_aligned.
Qed.
End ad_update.

(** ** [walk_loop] computes the walk *)

Lemma physical_read_pte addr v s :
  physical_read addr 8 v s =
  match pte_at (ram s) addr with
  | Some pte => (true, pte, s)
  | None => (false, v, set_fault 2 (set_fault_addr addr s))
  end.
Proof.
  unfold physical_read, pte_at. destruct (in_ram _ _); [done|].
  unfold in_uart, in_fetch. by rewrite !andb_false_r.
Qed.

Lemma walk_loop_spec n va table pte pte_addr s :
  tst pte 14 = false ->
  match sv39_walk n (ram s) va table with
  | Some (l, p, a) => walk_loop n va table pte pte_addr s = (Some (l, p, a), s) /\
      tst p 14 = true /\ pte_at (ram s) a = Some p /\ isu64 a /\ (table mod 8 = 0 -> a mod 8 = 0)
  | None =>
      (exists s', walk_loop n va table pte pte_addr s = (None, s') /\
         exists s0, s' = set_fault 1 (set_fault_addr va s0) /\
           (s0 = s \/ exists a, s0 = set_fault 2 (set_fault_addr a s))) \/
      (exists l p a, walk_loop n va table pte pte_addr s = (Some (l, p, a), s) /\ tst p 14 = false)
  end.
Proof.
  revert table pte pte_addr. induction n as [|n IH]; intros table pte pte_addr Hp.
  { right. cbn. by repeat eexists. }
  cbn [sv39_walk walk_loop]. rewrite physical_read_pte.
  fold (pte_addr_of (Z.of_nat n) va table).
  destruct (pte_at (ram s) (pte_addr_of (Z.of_nat n) va table)) as [q|] eqn:Eq.
  - destruct (negb (tst q 1)); [left; repeat eexists; by left|].
    destruct (tst q 14) eqn:E14.
    + repeat split; try done; try apply u64_bound. intros. by apply u64_aligned.
    + specialize (IH (pte_base q) q (pte_addr_of (Z.of_nat n) va table) E14).
      destruct (sv39_walk n (ram s) va (pte_base q)) as [[[l p] a]|] eqn:Ew; [|done].
      destruct IH as (? & ? & ? & ? & H8). repeat split; try done; try lia.
      intros _. apply H8, pte_base_aligned.
  - left. repeat eexists. right. by eexists.
Qed.

Lemma pte_denied_spec access level pte s :
  0 <= access < 3 -> 0 <= privilege s < 2 -> tst pte 14 = true ->
  pte_denied access level pte s = negb (leaf_allows access (privilege s) (sum_of s) level pte).
Proof.
  intros Ha Hp E. unfold pte_denied, leaf_allows, sum_of. rewrite E.
  assert (privilege s = 0 \/ privilege s = 1) as [-> | ->] by lia;
  assert (access = 0 \/ access = 1 \/ access = 2) as [->|[-> | ->]] by lia; cbn [Z.eqb Pos.eqb];
  destruct (level =? 0), (tst pte 8), (tst pte 2), (tst pte 4), (tst pte 16),
    (tst (getcsr s SSTATUS) STATUS_SUM); done.
Qed.

(** ** Coherence is preserved by the update and by a fill *)

Lemma tst_lor a b k : 0 <= k -> tst (Z.lor a b) (2 ^ k) = tst a (2 ^ k) || tst b (2 ^ k).
Proof. intros. by rewrite !tst_pow2, Z.lor_spec. Qed.

Lemma page_mask p va :
  isu64 va ->
  Z.land (Z.lor (pte_base p) (Z.land va 4095)) (not64 4095) = pte_base p.
Proof.
  intros Hva. unfold pte_base. rewrite Z.shiftl_mul_pow2 by lia. unfold u64.
  change 4095 with (2 ^ 12 - 1) at 1. rewrite land_ones_mod by lia.
  set (x := Z.shiftr p 10). change (2 ^ 12) with 4096 at 2.
  assert ((x * 2 ^ 12) mod 18446744073709551616 = (x mod 4503599627370496) * 2 ^ 12) as ->
    by (change (2 ^ 12) with 4096; zlia).
  assert (isu64 (x mod 4503599627370496 * 2 ^ 12)) as Hx by (change (2 ^ 12) with 4096; zlia).
  assert (0 <= va mod 4096 < 4096) as Hy by (apply Z.mod_pos_bound; lia).
  set (y := x mod 4503599627370496) in *. apply Z.bits_inj'. intros i Hi.
  change (not64 4095) with (Z.shiftl (2 ^ 52 - 1) 12).
  rewrite Z.land_spec, Z.lor_spec.
  destruct (Z.lt_ge_cases i 12).
  - rewrite Z.shiftl_spec_low, andb_false_r by lia. by rewrite Z.mul_pow2_bits_low by lia.
  - rewrite (testbit_high (va mod 4096) 12 i), orb_false_r by lia.
    rewrite Z.shiftl_spec by lia. destruct (Z.lt_ge_cases i 64).
    + replace (2 ^ 52 - 1) with (Z.ones 52) by done.
      rewrite Z.ones_spec_low by lia. apply andb_true_r.
    + rewrite (testbit_high _ 64 i) by lia. done.
Qed.

Lemma sv39_page s va va' access :
  va / 4096 = va' / 4096 -> satp_mode s = 8 ->
  match sv39 s va access with
  | Some pa => exists p, pa = Z.lor (pte_base p) (Z.land va 4095) /\
                 sv39 s va' access = Some (Z.lor (pte_base p) (Z.land va' 4095))
  | None => sv39 s va' access = None
  end.
Proof.
  intros E Hm. unfold sv39. rewrite Hm. cbn [Z.eqb Pos.eqb].
  rewrite (walk_page _ _ va' va) by done.
  destruct (sv39_walk _ _ _ _) as [[[l p] a]|]; [|done].
  destruct (leaf_allows _ _ _ _ _); [|done]. by eexists.
Qed.

Lemma satp_table_aligned s : satp_table s mod 8 = 0.
Proof. unfold satp_table, u64. rewrite Z.shiftl_mul_pow2 by lia. change (2 ^ 12) with 4096. zlia. Qed.

Section update.
Context (s : rv) (addr access p : Z).
Context (Hok : rv_ok s) (Haddr : isu64 addr) (H8 : addr mod 8 = 0)
  (Hp : pte_at (ram s) addr = Some p) (Hleaf : tst p 14 = true).

Let s' := set_ram (ad_mem (ram s) addr access) s.

Lemma walk_update n va :
  sv39_walk n (ram s') va (satp_table s') =
  match sv39_walk n (ram s) va (satp_table s) with
  | Some (l, q, a) => Some (l, if a =? addr then Z.lor q (ad_bits access) else q, a)
  | None => None
  end.
Proof.
  apply (walk_ad (ram s) addr access) with (p := p); try done; [by destruct Hok|].
  apply satp_table_aligned.
Qed.

Lemma sv39_update va a : sv39 s' va a = sv39 s va a.
Proof.
  unfold sv39. rewrite walk_update.
  change (satp_mode s') with (satp_mode s). change (privilege s') with (privilege s).
  change (sum_of s') with (sum_of s).
  destruct (sv39_walk _ _ _ _) as [[[l q] b]|]; [|done].
  destruct (b =? addr); [|done].
  unfold leaf_allows. rewrite !ad_bits_tst, ad_bits_base by auto 7. done.
Qed.

Lemma ad_set_update va a : ad_set s va a -> ad_set s' va a.
Proof.
  intros H l q b. rewrite walk_update.
  destruct (sv39_walk _ _ _ _) as [[[l' q'] b']|] eqn:E; [|done].
  intros [= <- <- <-]. apply H in E as [E64 E128].
  destruct (b' =? addr); [|done].
  change 64 with (2 ^ 6) in *. change 128 with (2 ^ 7) in *.
  rewrite !tst_lor by lia. rewrite E64. split; [done|]. intros Ha. by rewrite E128.
Qed.

Lemma coherent_update : coherent s -> coherent s'.
Proof.
  intros Hc va a Hva Ha Htag. destruct (Hc va a Hva Ha Htag) as (Hm & Hs & Had).
  split; [done|]. rewrite sv39_update. split; [done|]. by apply ad_set_update.
Qed.
End update.

Lemma coherent_fill s va access pa p :
  rv_ok s -> coherent s -> isu64 va -> 0 <= access < 3 ->
  satp_mode s = 8 -> pa = Z.lor (pte_base p) (Z.land va 4095) ->
  sv39 s va access = Some pa -> ad_set s va access ->
  coherent (tlb_fill (TLB_SLOT va access) (TLB_TAG s va) pa s).
Proof.
  intros Hok Hc Hva Ha Hm Hpa Hs Had va' a' Hva' Ha'.
  set (s' := tlb_fill _ _ _ _).
  change (TLB_TAG s' va') with (TLB_TAG s va').
  change (sv39 s' va' a') with (sv39 s va' a').
  change (tlb_tag s') with (aset (tlb_tag s) (TLB_SLOT va access) (TLB_TAG s va)).
  change (tlb_ppage s') with (aset (tlb_ppage s) (TLB_SLOT va access) (Z.land pa (not64 4095))).
  rewrite !aget_aset. destruct (decide _) as [E|E].
  - intros Ht. pose proof (TLB_TAG_page s va va' Hva Hva' ltac:(apply Hok) Ht) as Hpg.
    assert (a' = access) as ->.
    { rewrite !TLB_SLOT_eq, Hpg in E by done. lia. }
    split; [done|]. subst pa. rewrite page_mask by done. split.
    + pose proof (sv39_page s va va' access Hpg Hm) as Hq. rewrite Hs in Hq.
      destruct Hq as (q & Hq1 & ->). f_equal. f_equal.
      apply (f_equal (fun x => Z.land x (not64 4095))) in Hq1.
      by rewrite !page_mask in Hq1 by done.
    + intros l q b. change (ram s') with (ram s). change (satp_table s') with (satp_table s).
      rewrite <- (walk_page _ _ va va') by done. apply Had.
  - intros Ht. by apply Hc.
Qed.

(** After a flush no entry is used. *)
Lemma coherent_flush s : 0 <= privilege s < 2 -> coherent (flush_tlb s).
Proof.
  intros Hok va a Hva Ha Ht. exfalso.
  change (TLB_TAG (flush_tlb s) va) with (TLB_TAG s va) in Ht.
  rewrite TLB_TAG_eq in Ht by done.
  change (tlb_tag (flush_tlb s)) with (afill 768 (tlb_tag s) 0 0) in Ht.
  rewrite aget_afill, bool_decide_eq_true_2 in Ht.
  - pose proof (Z.div_pos va 4096 ltac:(lia) ltac:(lia)).
    unfold sum_of in Ht. destruct (tst _ _); cbn [Z.b2z] in Ht; lia.
  - rewrite TLB_SLOT_eq by done. pose proof (Z.mod_pos_bound (va / 4096) 256). lia.
Qed.

Lemma update_ad_spec s access addr p :
  rv_ok s -> pte_at (ram s) addr = Some p ->
  exists s2 p', update_ad access addr p s = (true, p', s2) /\ pte_base p' = pte_base p /\
    ((s2 = s /\ tst p 64 = true /\ (access = 2 -> tst p 128 = true)) \/
     (s2 = set_ram (ad_mem (ram s) addr access) s /\ p' = Z.lor p (ad_bits access))).
Proof.
  intros Hok Hp. unfold update_ad.
  destruct (negb (tst p 64) || _) eqn:E.
  - unfold physical_write, pte_at, ad_mem in *. destruct (in_ram _ _); [|done].
    apply (inj Some) in Hp. rewrite Hp. do 2 eexists. split; [done|].
    split; [apply ad_bits_base|by right].
  - do 2 eexists. split; [done|]. split; [done|]. left. split; [done|].
    apply orb_false_iff in E as [E64 E128]. apply negb_false_iff in E64. split; [done|].
    intros ->. cbn in E128. by apply negb_false_iff in E128.
Qed.

(** ** The theorem *)

(** C1: under a coherent TLB, [translate] returns exactly what the Sv39 walk gives, whatever it
    caches, faults with the faulting address when the walk denies the access, and leaves the
    TLB coherent and every translation unchanged. *)
Theorem translate_refines_sv39 s va access r s' :
  rv_ok s -> coherent s -> isu64 va -> 0 <= access < 3 ->
  translate va access s = (r, s') ->
  r = sv39 s va access /\ coherent s' /\ (forall va' a', sv39 s' va' a' = sv39 s va' a') /\
  (r = None -> fault s' = 1 /\ fault_addr s' = va).
Proof.
  intros Hok Hc Hva Ha E. unfold translate in E.
  pose proof (proj1 (Z.eqb_neq 8 0) ltac:(done)) as H80.
  fold (satp_mode s) in E. fold (satp_table s) in E. unfold sv39 at 1.
  destruct (satp_mode s =? 0) eqn:E0; [injection E as <- <-; split; [done|]; split; done|].
  destruct (Z.eqb_spec (satp_mode s) 8) as [E8|E8]; cbn [negb] in E.
  2: { injection E as <- <-. split; [done|]. split; [exact Hc|]. done. }
  destruct (Z.eqb_spec (aget (tlb_tag s) (TLB_SLOT va access)) (TLB_TAG s va)) as [Et|_].
  { injection E as <- <-. destruct (Hc va access Hva Ha Et) as (_ & Hs & _).
    unfold sv39 in Hs. rewrite E0, E8 in Hs. cbn [Z.eqb Pos.eqb] in Hs. rewrite Hs. done. }
  pose proof (walk_loop_spec 3 va (satp_table s) 0 0 s eq_refl) as Hw.
  destruct (sv39_walk 3 (ram s) va (satp_table s)) as [[[l p] a]|] eqn:Ew.
  - destruct Hw as (Hw & Hl & Hp & Hau & H8). rewrite Hw in E.
    specialize (H8 (satp_table_aligned s)).
    rewrite pte_denied_spec in E by (try done; apply Hok).
    destruct (leaf_allows access (privilege s) (sum_of s) l p) eqn:Eal; cbn [negb] in E.
    2: { injection E as <- <-. split; [done|]. split; [exact Hc|]. done. }
    destruct (update_ad_spec s access a p Hok Hp) as (s2 & p' & Hu & Hb & Hs2).
    rewrite Hu in E. cbn [negb] in E. injection E as <- <-. fold (pte_base p'). rewrite Hb.
    split; [done|]. split; [|split; [|done]].
    + destruct Hs2 as [(-> & Hp')|(Hs2 & Hp')].
      * apply (coherent_fill s va access _ p); try done.
        -- unfold sv39. by rewrite E0, E8, Ew, Eal.
        -- intros l' q b. rewrite Ew. by intros [= <- <- <-].
      * pose proof (coherent_update s a access p Hok Hau H8 Hp Hl Hc) as Hc2.
        pose proof (sv39_update s a access p Hok Hau H8 Hp Hl va access) as Hs3.
        assert (rv_ok s2) by (subst s2; apply ok_mput; done). rewrite <- Hs2 in *.
        change (TLB_TAG s va) with (TLB_TAG (set_ram (ram s2) s) va).
        replace (TLB_TAG (set_ram (ram s2) s) va) with (TLB_TAG s2 va) by (by rewrite Hs2).
        apply (coherent_fill s2 va access _ p); try done.
        -- by rewrite Hs2.
        -- rewrite Hs3. unfold sv39. by rewrite E0, E8, Ew, Eal.
        -- intros l' q b. rewrite Hs2, (walk_update s a access p), Ew, Z.eqb_refl by done.
           intros [= <- <- <-]. apply ad_bits_set.
    + intros va' a'. destruct Hs2 as [(-> & Hp')|(-> & Hp')]; [done|].
      by apply (sv39_update s a access p).
  - destruct Hw as [(s1 & Hw & s0 & -> & Hs0)|(l & p & a & Hw & Hl)]; rewrite Hw in E.
    + injection E as <- <-. split; [done|].
      destruct Hs0 as [->|[a ->]]; (split; [exact Hc|]; done).
    + unfold pte_denied in E. rewrite Hl in E. cbn [negb orb] in E.
      injection E as <- <-. split; [done|]. split; [exact Hc|]. done.
Qed.

(** A three-level table that maps the page 0x1000 to 0x80004000. *)
Definition vm_example_ram : gmap Z Z :=
  mput 8 (mput 8 (mput 8 ∅ 0x3008 (Z.lor (Z.shiftl 0x80004 10) 7))
    0x2000 (Z.lor (Z.shiftl 0x80003 10) 1)) 0x1000 (Z.lor (Z.shiftl 0x80002 10) 1).
Definition vm_example : rv :=
  flush_tlb (setcsr SATP 0x8000000000080001 (set_ram vm_example_ram rv_bss)).

Lemma vm_example_ok : rv_ok vm_example /\ coherent vm_example.
Proof.
  assert (rv_ok (setcsr SATP 0x8000000000080001 (set_ram vm_example_ram rv_bss))) as H.
  { apply ok_setcsr; [lia|]. apply ok_set_ram; [|apply rv_bss_ok].
    do 3 apply bytes_ok_mput. apply bytes_ok_empty. }
  unfold vm_example. generalize dependent (setcsr SATP 0x8000000000080001 (set_ram vm_example_ram rv_bss)).
  intros s H. split; [by apply ok_flush|apply coherent_flush, H].
Qed.

Lemma translate_refines_sv39_witness :
  fst (translate 0x1234 1 vm_example) = Some 0x80004234 /\
  fst (translate 0x1234 1 vm_example) = sv39 vm_example 0x1234 1.
Proof.
  split; [vm_compute; reflexivity|].
  destruct (translate_refines_sv39 vm_example 0x1234 1 _ _
    (proj1 vm_example_ok) (proj2 vm_example_ok) ltac:(lia) ltac:(lia) (surjective_pairing _)) as [Hr _].
  exact Hr.
Defined.
