(* ===== verification/Rv64Uart.v ===== *)
(** The UART queues of the emulator are bounded FIFOs.

    The queues are rings of 4096 bytes indexed by free-running [u32] counters.  [ring] is the list
    of bytes a ring holds; every operation on either side is the list operation, also when a
    counter wraps. *)
From S2P Require Import Prelude Rv64State Rv64Mem Rv64Run Rv64Inv.

Definition ring (buf : gmap Z Z) (rd wr : Z) : list Z :=
  map (fun i => aget buf (Z.land (u32 (rd + Z.of_nat i)) (UART_CAP - 1)))
      (seq 0 (Z.to_nat (u32 (wr - rd)))).

Definition input_queue (s : rv) : list Z := ring (uart_in s) (in_read s) (in_write s).
Definition output_queue (s : rv) : list Z := ring (uart_out s) (out_read s) (out_write s).

(** The specification: a bounded queue that drops what does not fit. *)
Definition push (b : Z) (q : list Z) : list Z :=
  if Z.of_nat (length q) <? UART_CAP then q ++ [u8 b] else q.

Lemma ring_length buf rd wr : length (ring buf rd wr) = Z.to_nat (u32 (wr - rd)).
Proof. unfold ring. by rewrite length_map, length_seq. Qed.

Lemma ring_slot a : Z.land a (UART_CAP - 1) = a mod 4096.
Proof. unfold UART_CAP. change (4096 - 1) with (2 ^ 12 - 1). by rewrite land_ones_mod. Qed.

Lemma u32_mod4096 a : u32 a mod 4096 = a mod 4096.
Proof. unfold u32. apply Z.mod_mod_divide. by exists 1048576. Qed.

Lemma ring_slot_ne rd i j :
  0 <= i < 4096 -> 0 <= j < 4096 -> i <> j -> (rd + i) mod 4096 <> (rd + j) mod 4096.
Proof. intros. zlia. Qed.

Lemma ring_push buf rd wr v :
  isu32 rd -> isu32 wr -> u32 (wr - rd) < UART_CAP ->
  ring (aset buf (Z.land wr (UART_CAP - 1)) v) rd (u32 (wr + 1)) = ring buf rd wr ++ [v].
Proof.
  intros Hr Hw Hc. unfold ring.
  assert (u32 (u32 (wr + 1) - rd) = u32 (wr - rd) + 1) as -> by by apply u32_succ_sub.
  pose proof (u32_bound (wr - rd)) as Hb.
  replace (Z.to_nat (u32 (wr - rd) + 1)) with (Z.to_nat (u32 (wr - rd)) + 1)%nat by lia.
  rewrite seq_app, map_app. cbn [seq map]. f_equal.
  - apply map_ext_in. intros i Hi. apply in_seq in Hi.
    rewrite aget_aset_ne; [done|]. rewrite !ring_slot, u32_mod4096. unfold UART_CAP, u32 in *. zlia.
  - f_equal. rewrite !ring_slot, u32_mod4096.
    replace ((rd + Z.of_nat (0 + Z.to_nat (u32 (wr - rd)))) mod 4096) with (wr mod 4096)
      by (unfold u32 in *; zlia).
    apply aget_aset_eq.
Qed.

Lemma ring_pop buf rd wr :
  isu32 rd -> isu32 wr -> rd <> wr ->
  ring buf rd wr = aget buf (Z.land rd (UART_CAP - 1)) :: ring buf (u32 (rd + 1)) wr.
Proof.
  intros Hr Hw Hne. unfold ring.
  rewrite (u32_pred_sub wr rd) by auto.
  pose proof (u32_bound (wr - rd)).
  assert (u32 (wr - rd) <> 0) by (unfold u32; zlia).
  replace (Z.to_nat (u32 (wr - rd))) with (S (Z.to_nat (u32 (wr - rd) - 1))) by lia.
  cbn [seq map]. f_equal.
  - rewrite !ring_slot, u32_mod4096. do 2 f_equal. lia.
  - rewrite <- seq_shift, map_map. apply map_ext. intros i.
    rewrite !ring_slot, !u32_mod4096. f_equal. unfold u32. zlia.
Qed.

Lemma ring_empty buf rd wr : isu32 rd -> isu32 wr -> ring buf rd wr = [] <-> rd = wr.
Proof.
  intros Hr Hw. split.
  - intros E. apply (f_equal length) in E. rewrite ring_length in E. cbn in E.
    unfold u32 in E. zlia.
  - intros ->. unfold ring. by rewrite Z.sub_diag.
Qed.

Lemma ring_push_full buf rd wr v :
  isu32 rd -> isu32 wr -> u32 (wr - rd) <= UART_CAP ->
  (if u32 (wr - rd) <? UART_CAP
   then ring (aset buf (Z.land wr (UART_CAP - 1)) (u8 v)) rd (u32 (wr + 1))
   else ring buf rd wr) = push v (ring buf rd wr).
Proof.
  intros Hr Hw Hc. unfold push. rewrite ring_length, Z2Nat.id by apply u32_bound.
  destruct (Z.ltb_spec (u32 (wr - rd)) UART_CAP); [by apply ring_push|done].
Qed.

(** [rv_input] appends a byte to the input queue, dropping it when 4096 bytes wait, and the
    guest's read of the receive register takes the oldest byte (0 when there is none), the line
    status register telling whether one waits. *)
Theorem uart_input_fifo s b :
  rv_ok s ->
  input_queue (rv_input b s) = push b (input_queue s) /\
  (forall v s', uart_read 0 s = (v, s') ->
     match input_queue s with
     | [] => v = 0 /\ s' = s
     | c :: q => v = c /\ input_queue s' = q
     end) /\
  uart_read 5 s = (if bool_decide (input_queue s = []) then 0x20 else 0x21, s).
Proof.
  intros [_ _ [? ? Hr Hw _ _ Hc _] _ _].
  fold (in_read s) in Hr, Hc. fold (in_write s) in Hw, Hc.
  split; [|split].
  - unfold input_queue, rv_input. rewrite <- ring_push_full by done.
    by destruct (u32 _ <? _).
  - intros v s' E. unfold uart_read in E. cbn [Z.eqb] in E. unfold input_queue.
    destruct (Z.eqb_spec (in_read s) (in_write s)) as [Ee|Ene]; injection E as <- <-.
    + by rewrite (proj2 (ring_empty _ _ _ Hr Hw)) by done.
    + by rewrite ring_pop by done.
  - unfold uart_read, input_queue. cbn [Z.eqb Pos.eqb].
    destruct (Z.eqb_spec (in_read s) (in_write s)) as [Ee|Ene].
    + rewrite bool_decide_eq_true_2; [done|by apply ring_empty].
    + rewrite bool_decide_eq_false_2; [done|]. by rewrite ring_empty.
Qed.

Lemma uart_input_fifo_witness :
  input_queue (rv_input 7 rv_bss) = push 7 (input_queue rv_bss) /\
  input_queue (rv_input 7 rv_bss) = [7].
Proof.
  split; [|by vm_compute]. exact (proj1 (uart_input_fifo rv_bss 7 rv_bss_ok)).
Defined.

(** A guest write to the transmit register appends the byte's low eight bits, dropping it when
    4096 bytes wait; [rv_output] takes the oldest byte, or returns [~0] on an empty queue, and
    [rv_output_count] is the number of waiting bytes. *)
Theorem uart_output_fifo s v :
  rv_ok s ->
  output_queue (uart_write UART_BASE v s) = push v (output_queue s) /\
  rv_output_count s = Z.of_nat (length (output_queue s)) /\
  match output_queue s with
  | [] => rv_output s = (0xffffffff, s)
  | c :: q => fst (rv_output s) = c /\ output_queue (snd (rv_output s)) = q /\ isu8 c
  end.
Proof.
  intros [_ _ [? Hb _ _ Hr Hw _ Hc] _ _].
  fold (out_read s) in Hr, Hc. fold (out_write s) in Hw, Hc.
  split; [|split].
  - unfold output_queue, uart_write. cbn [Z.eqb Pos.eqb andb]. rewrite <- ring_push_full by done.
    rewrite Z.eqb_refl. cbn [andb]. by destruct (u32 _ <? _).
  - unfold output_queue, rv_output_count. rewrite ring_length, Z2Nat.id; [done|].
    apply u32_bound.
  - unfold output_queue, rv_output.
    destruct (Z.eqb_spec (out_read s) (out_write s)) as [Ee|Ene].
    + by rewrite (proj2 (ring_empty _ _ _ Hr Hw)) by done.
    + rewrite ring_pop by done. split; [done|]. split; [done|]. apply Hb.
Qed.

Lemma uart_output_fifo_witness :
  output_queue (uart_write UART_BASE 321 rv_bss) = push 321 (output_queue rv_bss) /\
  output_queue (uart_write UART_BASE 321 rv_bss) = [65].
Proof.
  split; [|by vm_compute]. exact (proj1 (uart_output_fifo rv_bss 321 rv_bss_ok)).
Defined.
