(* ===== verification/Rv64Trap.v ===== *)
(** Traps, the timer and untranslated memory accesses of the emulator: the theorems about
    [trap]/[sret], [timer_count] and the run loop, [store] and [load]. *)
From S2P Require Import Prelude Rv64State Rv64Mem Rv64Csr Rv64Alu Rv64Float Rv64Exec Rv64Run Rv64Inv Rv64Vm.

(** ** The status bits *)

Lemma put_bit_spec b k st i : isu64 st -> 0 <= k < 64 -> 0 <= i ->
  Z.testbit (put_bit b (2 ^ k) st) i = if i =? k then b else Z.testbit st i.
Proof.
  intros Hst Hk Hi. unfold put_bit. destruct b.
  - rewrite Z.lor_spec, Z.pow2_bits_eqb by lia. rewrite Z.eqb_sym.
    destruct (i =? k); [apply orb_true_r|apply orb_false_r].
  - rewrite Z.land_spec, testbit_not64_pow2 by lia.
    destruct (i =? k); cbn [negb]; [by rewrite !andb_false_r|]. rewrite andb_true_r.
    destruct (Z.ltb_spec i 64); [apply andb_true_r|].
    by rewrite (testbit_high st 64) by lia.
Qed.

Lemma put_bit_tst b st k j : isu64 st -> 0 <= k < 64 -> 0 <= j ->
  tst (put_bit b (2 ^ k) st) (2 ^ j) = if j =? k then b else tst st (2 ^ j).
Proof. intros. rewrite !tst_pow2 by lia. by apply put_bit_spec. Qed.

(** [sstatus] after [trap], and after [sret]. *)
Definition trap_status (priv st : Z) : Z :=
  put_bit false STATUS_SIE (put_bit (tst st STATUS_SIE) STATUS_SPIE (put_bit (priv =? 0) STATUS_SPP st)).
Definition sret_status (st : Z) : Z :=
  put_bit false STATUS_SPP (put_bit true STATUS_SPIE (put_bit (tst st STATUS_SPIE) STATUS_SIE st)).

(** A chain of [put_bit]s is tested bit by bit. *)
Ltac by_bits :=
  change STATUS_SPP with (2 ^ 8) in *; change STATUS_SIE with (2 ^ 1) in *;
  change STATUS_SPIE with (2 ^ 5) in *;
  repeat (rewrite put_bit_tst; [|repeat (apply put_bit_ok; [done|]); done|lia|lia]);
  cbn [Z.eqb Pos.eqb].

Lemma trap_status_spp priv st : isu64 st -> tst (trap_status priv st) STATUS_SPP = (priv =? 0).
Proof. intros. unfold trap_status. by_bits. done. Qed.
Lemma trap_status_spie priv st : isu64 st -> tst (trap_status priv st) STATUS_SPIE = tst st STATUS_SIE.
Proof. intros. unfold trap_status. by_bits. done. Qed.

Lemma sret_trap_status priv st : isu64 st ->
  sret_status (trap_status priv st) = put_bit false STATUS_SPP (put_bit true STATUS_SPIE st).
Proof.
  intros Hst. unfold sret_status. rewrite trap_status_spie by done. unfold trap_status.
  apply Z.bits_inj'. intros i Hi.
  change STATUS_SPP with (2 ^ 8) in *; change STATUS_SIE with (2 ^ 1) in *;
    change STATUS_SPIE with (2 ^ 5) in *.
  repeat (rewrite put_bit_spec; [|repeat (apply put_bit_ok; [done|]); done|lia|lia]).
  rewrite (tst_pow2 st 1) by lia.
  destruct (Z.eqb_spec i 8), (Z.eqb_spec i 5), (Z.eqb_spec i 1); subst; done.
Qed.

Lemma trap_csr cause value interrupt s : isu64 (getcsr s SSTATUS) ->
  csr (trap cause value interrupt s) =
  aset (aset (aset (aset (csr s) SEPC (pc s))
    SCAUSE (Z.lor cause (if interrupt =? 0 then 0 else Z.shiftl 1 63))) STVAL value)
    SSTATUS (trap_status (privilege s) (getcsr s SSTATUS)).
Proof.
  intros Hst. unfold trap_status.
  replace (tst (getcsr s SSTATUS) STATUS_SIE)
    with (tst (put_bit (privilege s =? 0) STATUS_SPP (getcsr s SSTATUS)) STATUS_SIE)
    by (by_bits; done).
  reflexivity.
Qed.

Lemma sret_csr s : csr (sret s) = aset (csr s) SSTATUS (sret_status (getcsr s SSTATUS)).
Proof. reflexivity. Qed.
Lemma sret_fields s :
  pc (sret s) = aget (aset (csr s) SSTATUS (sret_status (getcsr s SSTATUS))) SEPC /\
  privilege (sret s) = (if tst (getcsr s SSTATUS) STATUS_SPP then 0 else 1) /\
  xreg (sret s) = xreg s /\ freg (sret s) = freg s /\ ram (sret s) = ram s.
Proof. done. Qed.
Lemma trap_pc cause value interrupt s :
  pc (trap cause value interrupt s) =
  Z.land (aget (csr (trap cause value interrupt s)) STVEC) (not64 3).
Proof. done. Qed.
Lemma trap_fields cause value interrupt s :
  xreg (trap cause value interrupt s) = xreg s /\ freg (trap cause value interrupt s) = freg s /\
  ram (trap cause value interrupt s) = ram s.
Proof. done. Qed.
Lemma sret_coherent s : coherent (sret s).
Proof. apply coherent_flush. cbn. destruct (tst _ _); lia. Qed.

(** [sret] undoes [trap]: it returns to the interrupted pc and privilege with the interrupt
    enable restored, [sstatus] changed only in SPIE (set) and SPP (cleared), no register, RAM
    cell or other CSR but SEPC, SCAUSE and STVAL touched, and the TLB coherent. *)
Theorem trap_sret cause value interrupt s :
  rv_ok s -> isu64 cause -> isu64 value ->
  let s' := sret (trap cause value interrupt s) in
  pc s' = pc s /\ privilege s' = privilege s /\ xreg s' = xreg s /\ freg s' = freg s /\
  ram s' = ram s /\ coherent s' /\
  getcsr s' SSTATUS = put_bit false STATUS_SPP (put_bit true STATUS_SPIE (getcsr s SSTATUS)) /\
  (forall n, n <> SSTATUS -> n <> SEPC -> n <> SCAUSE -> n <> STVAL -> getcsr s' n = getcsr s n).
Proof.
  intros Hok Hc Hv. pose proof (rv_csr s SSTATUS Hok) as Hst.
  pose proof (trap_csr cause value interrupt s Hst) as E1.
  pose proof (trap_ok cause value interrupt s Hok Hc Hv) as Hok1.
  pose proof (trap_fields cause value interrupt s) as (F1 & F2 & F3).
  generalize dependent (trap cause value interrupt s). intros s1 E1 Hok1 F1 F2 F3 s'.
  assert (getcsr s1 SSTATUS = trap_status (privilege s) (getcsr s SSTATUS)) as E2.
  { unfold getcsr at 1. rewrite E1. apply aget_aset_eq. }
  destruct (sret_fields s1) as (P1 & P2 & P3 & P4 & P5).
  split; [|split; [|split; [|split; [|split; [|split; [|split]]]]]]; try (unfold s'; congruence).
  - unfold s'. rewrite P1, E1. rewrite 4!aget_aset_ne by done. apply aget_aset_eq.
  - unfold s'. rewrite P2, E2, trap_status_spp by done.
    destruct Hok as [_ [] _ _ _]. fold (privilege s) in ok_privilege.
    destruct (Z.eqb_spec (privilege s) 0); lia.
  - apply sret_coherent.
  - unfold getcsr at 1. unfold s'. rewrite sret_csr, aget_aset_eq, E2. by apply sret_trap_status.
  - intros n H1 H2 H3 H4. unfold getcsr at 1. unfold s'.
    by rewrite sret_csr, E1, !aget_aset_ne by done.
Qed.

Lemma trap_sret_witness : pc (sret (trap 8 0 0 (set_pc 4096 rv_bss))) = 4096.
Proof.
  assert (rv_ok (set_pc 4096 rv_bss)) as H by (apply ok_set_pc; [lia|apply rv_bss_ok]).
  destruct (trap_sret 8 0 0 (set_pc 4096 rv_bss) H ltac:(lia) ltac:(lia)) as [Hpc _].
  exact Hpc.
Defined.

(** ** The timer *)

(** With no saturation and no wrap-around, [timer_count] is the number of steps to the first tick
    at or after the compare value. *)
Lemma timer_count_least v t step :
  0 <= t < v -> 0 < step -> v + step < 18446744073709551616 ->
  let n := timer_count v t step in 0 < n /\ t + (n - 1) * step < v <= t + n * step.
Proof.
  intros Ht Hs Hv. unfold timer_count.
  replace (t <? v) with true by lia. replace (step =? 0) with false by lia. cbn [negb andb].
  rewrite (u64_small (v - t)), (u64_small (v - t + step)), u64_small by lia.
  pose proof (Z.div_mod (v - t + step - 1) step ltac:(lia)) as Hd.
  pose proof (Z.mod_pos_bound (v - t + step - 1) step Hs) as Hm.
  set (q := (v - t + step - 1) / step) in *. set (r := _ mod step) in *. nia.
Qed.

Section wfi.
Context `{HF : HostFloat}.

(** A hart that waits in [wfi] only counts. *)
Lemma wfi_idle k step here n t s :
  Z.of_nat k < n < 4294967296 -> 0 <= t -> t + Z.of_nat k * step < 18446744073709551616 -> 0 <= step ->
  run_loop k step (Loop t here n 1 s) = Loop (t + Z.of_nat k * step) here (n - Z.of_nat k) 1 s.
Proof.
  revert t n. induction k as [|k IH]; intros t n Hn Ht Htk Hs; cbn [run_loop].
  - f_equal; lia.
  - assert (run_step step (Loop t here n 1 s) = Loop (t + step) here (n - 1) 1 s) as ->.
    { unfold run_step, timer_tick. cbn [l_now l_here l_until l_stopped l_s].
      replace (n =? 0) with false by lia. rewrite (u32_small (n - 1)) by lia.
      replace (n - 1 =? 0) with false by lia. cbn [negb Z.eqb]. rewrite u64_small by nia. done. }
    rewrite IH by nia. f_equal; lia.
Qed.

Lemma run_loop_add a b step l : run_loop (a + b) step l = run_loop b step (run_loop a step l).
Proof. revert l. induction a as [|a IH]; intros l; [done|]. cbn. apply IH. Qed.

Lemma stip_pending sip sie : isu64 sip -> isu64 sie ->
  tst sie IP_STIP = true -> tst (Z.land (Z.lor sip IP_STIP) sie) IP_STIP = true.
Proof.
  intros H1 H2. change IP_STIP with (2 ^ 5). rewrite !tst_pow2 by lia.
  rewrite Z.land_spec, Z.lor_spec. intros ->. by rewrite orb_true_r.
Qed.

Definition woken (now here : Z) (s : rv) : rv :=
  trap 5 0 1 (set_pc here (set_timer_steps 0 (set_ticks now
    (setcsr SIP (Z.lor (getcsr s SIP) IP_STIP) s)))).

Lemma wfi_fires step here t s :
  rv_ok s -> privilege s = 1 \/ tst (getcsr s SSTATUS) STATUS_SIE = true ->
  tst (getcsr s SIE) IP_STIP = true -> isu64 (t + step) ->
  run_step step (Loop t here 1 1 s) =
  Loop (t + step) (pc (woken (t + step) here s)) 0 0 (woken (t + step) here s).
Proof.
  intros Hok He Hie Ht. unfold run_step, timer_tick. cbn [l_now l_here l_until l_stopped l_s].
  change (u32 (1 - 1)) with 0. cbn [negb Z.eqb]. rewrite (u64_small (t + step)) by done.
  set (s1 := setcsr SIP _ s).
  assert (getcsr s1 SSTATUS = getcsr s SSTATUS) as -> by (by apply aget_aset_ne).
  assert (getcsr s1 SIE = getcsr s SIE) as -> by (by apply aget_aset_ne).
  assert (getcsr s1 SIP = Z.lor (getcsr s SIP) IP_STIP) as -> by apply aget_aset_eq.
  rewrite stip_pending by (try done; by apply rv_csr).
  change (privilege s1) with (privilege s).
  assert (negb (privilege s =? 0) || tst (getcsr s SSTATUS) STATUS_SIE = true) as ->.
  { destruct He as [-> | ->]; [done|apply orb_true_r]. }
  reflexivity.
Qed.

Lemma woken_state now here s : rv_ok s ->
  pc (woken now here s) = Z.land (getcsr s STVEC) (not64 3) /\
  getcsr (woken now here s) SEPC = here /\
  getcsr (woken now here s) SCAUSE = 0x8000000000000005.
Proof.
  intros Hok. unfold woken.
  set (s1 := set_pc _ _).
  assert (isu64 (getcsr s1 SSTATUS)) as Hst.
  { change (isu64 (aget (aset (csr s) SIP (Z.lor (getcsr s SIP) IP_STIP)) SSTATUS)).
    rewrite aget_aset_ne by done. by apply rv_csr. }
  pose proof (trap_csr 5 0 1 s1 Hst) as E. split; [|split].
  - rewrite trap_pc, E.
    rewrite 4!aget_aset_ne by done.
    change (csr s1) with (aset (csr s) SIP (Z.lor (getcsr s SIP) IP_STIP)).
    by rewrite aget_aset_ne.
  - unfold getcsr at 1. rewrite E, 3!aget_aset_ne by done. apply aget_aset_eq.
  - unfold getcsr at 1. rewrite E, 2!aget_aset_ne by done. apply aget_aset_eq.
Qed.

(** a hart waiting in [wfi] with the timer interrupt enabled wakes up exactly at the first tick
    that reaches [stimecmp]: [k] iterations before that it still waits, untouched, and at that
    iteration the interrupt is taken (cause 5 with the interrupt bit) at the waiting pc. *)
Theorem wfi_wakes_on_time v t step here s :
  rv_ok s -> 0 <= t < v -> 0 < step -> v + step < 18446744073709551616 ->
  timer_count v t step < 4294967296 ->
  privilege s = 1 \/ tst (getcsr s SSTATUS) STATUS_SIE = true ->
  tst (getcsr s SIE) IP_STIP = true ->
  let n := timer_count v t step in
  (forall k, Z.of_nat k < n -> t + Z.of_nat k * step < v /\
     run_loop k step (Loop t here n 1 s) = Loop (t + Z.of_nat k * step) here (n - Z.of_nat k) 1 s) /\
  let l := run_loop (Z.to_nat n) step (Loop t here n 1 s) in
  v <= l_now l < v + step /\ l_stopped l = 0 /\ l_here l = Z.land (getcsr s STVEC) (not64 3) /\
  getcsr (l_s l) SEPC = here /\ getcsr (l_s l) SCAUSE = 0x8000000000000005.
Proof.
  intros Hok Ht Hs Hv Hn He Hie n.
  destruct (timer_count_least v t step Ht Hs Hv) as (Hn0 & Hlo & Hhi). fold n in Hn, Hn0, Hlo, Hhi.
  assert (forall k, Z.of_nat k < n -> t + Z.of_nat k * step < v) as Hk by (intros; nia).
  split.
  { intros k Hkn. split; [by apply Hk|]. apply wfi_idle; try lia. specialize (Hk k Hkn). lia. }
  replace (Z.to_nat n) with (Z.to_nat (n - 1) + 1)%nat by lia.
  rewrite run_loop_add, wfi_idle by (try lia; nia).
  replace (n - Z.of_nat (Z.to_nat (n - 1))) with 1 by lia.
  replace (t + Z.of_nat (Z.to_nat (n - 1)) * step) with (t + (n - 1) * step) by (f_equal; f_equal; lia).
  cbn [run_loop].
  rewrite (wfi_fires step here (t + (n - 1) * step) s Hok He Hie) by nia.
  destruct (woken_state (t + (n - 1) * step + step) here s Hok) as (W1 & W2 & W3).
  cbn [l_now l_stopped l_here l_s]. repeat split; try done; nia.
Qed.
End wfi.

(** The witness: user mode, [sie.STIE] set, 100 ticks to go in steps of 30. *)
Definition wfi_example : rv := set_privilege 1 (setcsr STVEC 0x80000103 (setcsr SIE 32 rv_bss)).
#[local] Instance host_example : HostFloat :=
  {| nan32 := 0x7fc00000; nan64 := 0x7ff8000000000000; cvt_undef := fun lo _ _ => lo |}.

Lemma wfi_wakes_on_time_witness :
  let l := run_loop 4 30 (Loop 0 0x1000 4 1 wfi_example) in
  100 <= l_now l < 130 /\ l_here l = 0x80000100 /\ getcsr (l_s l) SEPC = 0x1000.
Proof.
  assert (rv_ok wfi_example) as Hok.
  { apply ok_set_privilege; [lia|]. apply ok_setcsr; [lia|]. apply ok_setcsr; [lia|]. apply rv_bss_ok. }
  destruct (wfi_wakes_on_time 100 0 30 0x1000 wfi_example Hok ltac:(lia) ltac:(lia) ltac:(lia)
    ltac:(by vm_compute) (or_introl eq_refl) ltac:(by vm_compute)) as (_ & H1 & _ & H2 & H3 & _).
  split; [exact H1|]. split; [exact H2|exact H3].
Defined.
