(* ===== verification/Rv64LoadStore.v ===== *)
(** Loads and stores of the emulator: the round trip through untranslated RAM at every width and
    alignment, and the precision of load faults. *)
From S2P Require Import Prelude Rv64State Rv64Mem Rv64Csr Rv64Alu Rv64Exec Rv64Inv Rv64Vm Rv64Trap.

(** ** Untranslated accesses *)

(** Bare mode: [satp] is 0-mode and no TLB entry is live. *)
Definition bare (s : rv) : Prop := satp_mode s = 0 /\ coherent s.

Lemma bare_set_ram m s : bare s -> bare (set_ram m s).
Proof.
  intros [H0 Hc]. split; [exact H0|]. intros va a Hva Ha Ht.
  destruct (Hc va a Hva Ha Ht) as (H8 & _). congruence.
Qed.

Lemma bare_translate va access s : bare s -> translate va access s = (Some va, s).
Proof. intros [H0 _]. unfold translate. fold (satp_mode s). by rewrite H0. Qed.

Lemma bare_probe va access s : bare s -> isu64 va -> 0 <= access < 3 ->
  probe va access s = (Some va, s).
Proof.
  intros Hb Hva Ha. unfold probe.
  destruct (Z.eqb_spec (aget (tlb_tag s) (TLB_SLOT va access)) (TLB_TAG s va)) as [E|_].
  - destruct Hb as [H0 Hc]. destruct (Hc va access Hva Ha E) as (H8 & _). congruence.
  - by apply bare_translate.
Qed.

Definition ram_range (va size : Z) : Prop := RAM_BASE <= va /\ va + size <= RAM_BASE + RAM_SIZE.

Lemma in_ram_range va size k n : ram_range va size -> 0 <= k -> 0 < n -> k + n <= size ->
  in_ram (u64 (u64 (va + k) - RAM_BASE)) n = true /\ u64 (u64 (va + k) - RAM_BASE) = va + k - RAM_BASE.
Proof.
  unfold ram_range, RAM_BASE, RAM_SIZE, in_ram. intros [H1 H2] Hk Hn Hkn.
  assert (u64 (va + k) = va + k) as -> by (apply u64_small; lia).
  assert (u64 (va + k - 2147483648) = va + k - 2147483648) as -> by (apply u64_small; lia).
  rewrite u64_small by (unfold RAM_SIZE; lia). unfold RAM_SIZE. split; [|done].
  apply andb_true_iff. split; [apply Z.ltb_lt; lia|apply Z.leb_le; lia].
Qed.

Lemma set_ram_eta s : set_ram (ram s) s = s.
Proof. by destruct s. Qed.

Lemma store_bytes_bare n i va size v s :
  bare s -> ram_range va size -> 0 <= i -> i + Z.of_nat n <= size ->
  store_bytes n i va v s = (true, set_ram (mput n (ram s) (va + i - RAM_BASE) (Z.shiftr v (i * 8))) s).
Proof.
  revert i s. induction n as [|n IH]; intros i s Hb Hr Hi Hn; cbn [store_bytes mput].
  - by rewrite set_ram_eta.
  - rewrite bare_translate by done. unfold physical_write.
    destruct (in_ram_range va size i 1 Hr ltac:(lia) ltac:(lia) ltac:(lia)) as [-> ->].
    rewrite IH; [|by apply bare_set_ram|done|lia|lia]. cbn [ram set_ram width mput Z.eqb Pos.eqb].
    replace (va + (i + 1) - RAM_BASE) with (va + i - RAM_BASE + 1) by lia.
    replace ((i + 1) * 8) with (i * 8 + 8) by lia.
    rewrite (Z.shiftr_div_pow2 v (i * 8 + 8)), Z.pow_add_r, <- Z.div_div by lia.
    by rewrite (Z.shiftr_div_pow2 v (i * 8)) by lia.
Qed.

Lemma load_bytes_bare n i va size access v s :
  rv_ok s -> bare s -> ram_range va size -> 0 <= i -> i + Z.of_nat n <= size -> size <= 8 ->
  0 <= v < 2 ^ (i * 8) ->
  load_bytes n i va access v s = (true, v + mget n (ram s) (va + i - RAM_BASE) * 2 ^ (i * 8), s).
Proof.
  intros Hok Hb Hr. revert i v. induction n as [|n IH]; intros i v Hi Hn H8 Hv; cbn [load_bytes mget].
  - by rewrite Z.mul_0_l, Z.add_0_r.
  - rewrite bare_translate by done. unfold physical_read.
    destruct (in_ram_range va size i 1 Hr ltac:(lia) ltac:(lia) ltac:(lia)) as [-> ->].
    cbn [width Z.eqb Pos.eqb mget]. rewrite Z.mul_0_r, Z.add_0_r.
    pose proof (ok_ram s Hok (va + i - RAM_BASE)) as Hbyte.
    set (b := aget (ram s) (va + i - RAM_BASE)) in *.
    assert (0 < 2 ^ (i * 8)) as Hp by (apply Z.pow_pos_nonneg; lia).
    assert (2 ^ (i * 8) <= 2 ^ 56) as Hq by (apply Z.pow_le_mono_r; lia).
    change (2 ^ 56) with 72057594037927936 in Hq.
    assert (2 ^ ((i + 1) * 8) = 256 * 2 ^ (i * 8)) as Hs.
    { replace ((i + 1) * 8) with (8 + i * 8) by lia. by rewrite Z.pow_add_r by lia. }
    rewrite Z.shiftl_mul_pow2 by lia. rewrite (u64_small (b * 2 ^ (i * 8))) by nia.
    rewrite Z.lor_comm, lor_add by lia.
    rewrite IH; [|lia|lia|lia|rewrite Hs; nia].
    rewrite Hs. replace (va + (i + 1) - RAM_BASE) with (va + i - RAM_BASE + 1) by lia.
    do 2 f_equal. ring.
Qed.

Lemma width_eq size : size = 1 \/ size = 2 \/ size = 4 \/ size = 8 -> Z.of_nat (width size) = size.
Proof. by intros [->|[->|[->| ->]]]. Qed.

Section bare.
Context (va size : Z) (Hsize : size = 1 \/ size = 2 \/ size = 4 \/ size = 8) (Hr : ram_range va size).

Lemma range_isu64 : isu64 va.
Proof. unfold ram_range, RAM_BASE, RAM_SIZE in Hr. lia. Qed.

Lemma store_bare v s : bare s -> isu64 v ->
  store va size v s = (true, set_ram (mput (width size) (ram s) (va - RAM_BASE) v) s).
Proof.
  intros Hb Hv. pose proof range_isu64 as Hva. pose proof (width_eq size Hsize) as Hw. unfold store.
  destruct (_ <? _).
  - rewrite (store_bytes_bare _ 0 va size) by (try done; lia).
    rewrite Z.mul_0_l, Z.shiftr_0_r, Z.add_0_r. repeat f_equal. lia.
  - rewrite bare_probe by (try done; lia).
    destruct (in_ram_range va size 0 size Hr) as [E1 E2]; try lia.
    rewrite Z.add_0_r, (u64_small va) in E1, E2 by done. by rewrite E1, E2.
Qed.

Lemma load_bare access old s : rv_ok s -> bare s -> 0 <= access < 3 ->
  load va size access old s = (true, mget (width size) (ram s) (va - RAM_BASE), s).
Proof.
  intros Hok Hb Ha. pose proof range_isu64 as Hva. pose proof (width_eq size Hsize) as Hw. unfold load.
  destruct (_ <? _).
  - rewrite (load_bytes_bare _ 0 va size) by (try done; lia).
    rewrite Z.mul_0_l, Z.mul_1_r, !Z.add_0_r, Z.add_0_l. repeat f_equal. lia.
  - rewrite bare_probe by done.
    destruct (in_ram_range va size 0 size Hr) as [E1 E2]; try lia.
    rewrite Z.add_0_r, (u64_small va) in E1, E2 by done. by rewrite E1, E2.
Qed.
End bare.

(** in bare mode a store of 1, 2, 4 or 8 bytes anywhere in RAM, page-crossing or misaligned,
    succeeds; the next load of the same width and address returns the value truncated to the
    width, and a load of any disjoint range returns what it returned before. *)
Theorem store_load_roundtrip va size v s :
  rv_ok s -> bare s -> isu64 v -> size = 1 \/ size = 2 \/ size = 4 \/ size = 8 -> ram_range va size ->
  exists s', store va size v s = (true, s') /\
    (forall old, load va size 1 old s' = (true, v mod 256 ^ size, s')) /\
    (forall va2 size2 old, size2 = 1 \/ size2 = 2 \/ size2 = 4 \/ size2 = 8 ->
       ram_range va2 size2 -> va2 + size2 <= va \/ va + size <= va2 ->
       load va2 size2 1 old s' = (true, snd (fst (load va2 size2 1 old s)), s')).
Proof.
  intros Hok Hb Hv Hsize Hr. eexists. split; [by apply store_bare|].
  set (s' := set_ram _ s).
  assert (rv_ok s') by by apply ok_mput. assert (bare s') by by apply bare_set_ram.
  split.
  - intros old. rewrite load_bare by (try done; lia). cbn [ram set_ram].
    unfold s'. cbn [ram set_ram]. by rewrite mget_mput_same, width_eq.
  - intros va2 size2 old Hs2 Hr2 Hd. rewrite !load_bare by (try done; lia). cbn [fst snd].
    unfold s' at 1. cbn [ram set_ram]. rewrite mget_mput_other; [done|].
    rewrite !width_eq by done. lia.
Qed.

Lemma bare_bss : bare rv_bss.
Proof.
  split; [done|]. intros va a Hva Ha Ht. exfalso.
  rewrite TLB_TAG_eq in Ht by (cbn; lia). unfold tlb_tag in Ht. cbn in Ht.
  rewrite aget_empty in Ht. pose proof (Z.div_pos va 4096). unfold sum_of, getcsr, csr in Ht. cbn in Ht.
  rewrite aget_empty in Ht. cbn in Ht. lia.
Qed.

Lemma store_load_roundtrip_witness :
  exists s', store 0x80000ffe 4 0x1122334455 rv_bss = (true, s') /\
    load 0x80000ffe 4 1 0 s' = (true, 0x22334455, s').
Proof.
  destruct (store_load_roundtrip 0x80000ffe 4 0x1122334455 rv_bss rv_bss_ok bare_bss ltac:(lia)
    ltac:(lia) ltac:(unfold ram_range, RAM_BASE, RAM_SIZE; lia)) as (s' & H1 & H2 & _).
  exists s'. split; [exact H1|]. exact (H2 0).
Defined.

(** ** Faults are precise *)

(** The memory path touches RAM, the devices, the TLB and the fault registers only. *)
Definition same_arch (s s' : rv) : Prop :=
  xreg s' = xreg s /\ freg s' = freg s /\ csr s' = csr s /\ privilege s' = privilege s /\
  halted s' = halted s.

#[export] Instance same_arch_preorder : PreOrder same_arch.
Proof.
  split; [done|]. intros a b c (?&?&?&?&?) (?&?&?&?&?). unfold same_arch. intuition congruence.
Qed.

Lemma physical_read_arch addr size v s ok v' s' :
  physical_read addr size v s = (ok, v', s') -> same_arch s s'.
Proof. unfold physical_read, uart_read. intros E. by repeat (case_match; simplify_eq). Qed.

Lemma physical_write_arch addr size v s ok s' :
  physical_write addr size v s = (ok, s') -> same_arch s s'.
Proof. unfold physical_write, uart_write, fetch_write. intros E. by repeat (case_match; simplify_eq). Qed.

Lemma walk_loop_arch n va table pte pa s r s' :
  walk_loop n va table pte pa s = (r, s') -> same_arch s s'.
Proof.
  revert table pte pa s. induction n as [|n IH]; intros table pte pa s E; cbn [walk_loop] in E.
  { by simplify_eq. }
  destruct (physical_read _ _ _ _) as [[ok v] s1] eqn:Er. apply physical_read_arch in Er.
  transitivity s1; [done|].
  repeat (case_match; simplify_eq); try done. by eapply IH.
Qed.

Lemma translate_arch va access s r s' : translate va access s = (r, s') -> same_arch s s'.
Proof.
  unfold translate, page_fault. intros E.
  repeat match type of E with (if ?c then _ else _) = _ => destruct c end; try by injection E as <- <-.
  destruct (walk_loop _ _ _ _ _ _) as [[[[l p] a]|] s1] eqn:Ew; apply walk_loop_arch in Ew;
    [|by injection E as <- <-].
  transitivity s1; [done|].
  destruct (pte_denied _ _ _ _); [by injection E as <- <-|].
  destruct (update_ad _ _ _ _) as [[ok q] s2] eqn:Eu. unfold update_ad in Eu.
  transitivity s2.
  - destruct (_ || _); [|by injection Eu as <- <- <-].
    destruct (physical_write _ _ _ _) as [ok' s3] eqn:Ep. apply physical_write_arch in Ep.
    by injection Eu as <- <- <-.
  - by destruct ok; injection E as <- <-.
Qed.

Lemma probe_arch va access s r s' : probe va access s = (r, s') -> same_arch s s'.
Proof.
  unfold probe. destruct (_ =? _); intros E; [by injection E as <- <-|by eapply translate_arch].
Qed.

Lemma load_bytes_arch n i va access v s ok v' s' :
  load_bytes n i va access v s = (ok, v', s') -> same_arch s s'.
Proof.
  revert i v s. induction n as [|n IH]; intros i v s E; cbn [load_bytes] in E.
  { by injection E as <- <- <-. }
  destruct (translate _ _ _) as [[pa|] s1] eqn:Et; apply translate_arch in Et;
    [|by injection E as <- <- <-].
  destruct (physical_read _ _ _ _) as [[okr b] s2] eqn:Er. apply physical_read_arch in Er.
  transitivity s1; [done|]. transitivity s2; [done|].
  destruct okr; [by eapply IH|by injection E as <- <- <-].
Qed.

Lemma load_arch va size access v s ok v' s' :
  load va size access v s = (ok, v', s') -> same_arch s s'.
Proof.
  unfold load. destruct (_ <? _); [apply load_bytes_arch|]. intros E.
  destruct (probe _ _ _) as [[pa|] s1] eqn:Ep; apply probe_arch in Ep; [|by injection E as <- <- <-].
  transitivity s1; [done|].
  destruct (in_ram _ _); [by injection E as <- <- <-|by eapply physical_read_arch].
Qed.

Lemma store_bytes_arch n i va v s ok s' : store_bytes n i va v s = (ok, s') -> same_arch s s'.
Proof.
  revert i s. induction n as [|n IH]; intros i s E; cbn [store_bytes] in E.
  { by injection E as <- <-. }
  destruct (translate _ _ _) as [[pa|] s1] eqn:Et; apply translate_arch in Et;
    [|by injection E as <- <-].
  destruct (physical_write _ _ _ _) as [okw s2] eqn:Ew. apply physical_write_arch in Ew.
  transitivity s1; [done|]. transitivity s2; [done|].
  destruct okw; [by eapply IH|by injection E as <- <-].
Qed.

Lemma store_arch va size v s ok s' : store va size v s = (ok, s') -> same_arch s s'.
Proof.
  unfold store. destruct (_ <? _); [apply store_bytes_arch|]. intros E.
  destruct (probe _ _ _) as [[pa|] s1] eqn:Ep; apply probe_arch in Ep; [|by injection E as <- <-].
  transitivity s1; [done|].
  destruct (in_ram _ _); [by injection E as <- <-|by eapply physical_write_arch].
Qed.

(** The state an exception leaves: registers as before, the trap CSRs describing it. *)
Definition precise (at_ cause value : Z) (s : rv) (r : Z * rv) : Prop :=
  xreg (snd r) = xreg s /\ freg (snd r) = freg s /\
  fst r = Z.land (getcsr s STVEC) (not64 3) /\ privilege (snd r) = 0 /\
  getcsr (snd r) SEPC = at_ /\ getcsr (snd r) SCAUSE = cause /\ getcsr (snd r) STVAL = value.

Lemma exec_trap_precise at_ cause value s s1 :
  rv_ok s1 -> same_arch s s1 -> precise at_ cause value s (exec_trap at_ cause value s1).
Proof.
  intros Hok (Hx & Hf & Hcsr & Hp & _). unfold exec_trap, precise. cbn [fst snd].
  pose proof (trap_csr cause value 0 (set_pc at_ s1) (rv_csr s1 SSTATUS Hok)) as E.
  destruct (trap_fields cause value 0 (set_pc at_ s1)) as (F1 & F2 & _).
  change (csr (set_pc at_ s1)) with (csr s1) in E.
  rewrite F1, F2, trap_pc. unfold getcsr. rewrite E, <- Hcsr.
  repeat (rewrite aget_aset_eq || rewrite aget_aset_ne by done). by rewrite Z.lor_0_r.
Qed.

Lemma getx_setx_ne r r' v s : r <> r' -> getx (setx r v s) r' = getx s r'.
Proof. apply aget_aset_ne. Qed.


