(* ===== verification/Runner.v ===== *)
(** The native front end of the emulator ([src/emulator/runner.c]).

    A file is the list of its bytes; [fseek]/[fread] pairs are reads of a slice of it.  [exit(1)]
    is [None].  Standard input and output are lists of bytes: [host_io] takes what [read] delivered
    (at most 4096 bytes) and returns what it passes to [write]. *)
From S2P Require Import Prelude Rv64State Rv64Mem Rv64Csr Rv64Float Rv64Exec Rv64Run Rv64Inv Rv64Uart.

Fixpoint elfint (n : nat) (p : list Z) (value : Z) : Z :=
  match n with
  | O => value
  | S n => elfint n p (Z.lor (u64 (Z.shiftl value 8)) (nth n p 0))
  end.
Definition elf16 (p : list Z) : Z := u16 (elfint 2 p 0).
Definition elf32 (p : list Z) : Z := u32 (elfint 4 p 0).
Definition elf64 (p : list Z) : Z := elfint 8 p 0.

(** [fseek(file, pos, SEEK_SET)] and [fread] of exactly [n] bytes; [None] when either fails. *)
Definition read_at (pos : Z) (n : Z) (file : list Z) : option (list Z) :=
  if pos <? 0 then None
  else if n =? 0 then Some []
  else if Z.of_nat (length file) <? pos + n then None
  else Some (firstn (Z.to_nat n) (skipn (Z.to_nat pos) file)).

(** The guard of lines 52-54. *)
Definition segment_bad (offset address filesz memsz : Z) : bool :=
  (address <? RAM_BASE) || (RAM_SIZE <? address - RAM_BASE) ||
  (RAM_SIZE - (address - RAM_BASE) <? memsz) || (memsz <? filesz) || (0x7fffffff <? offset).

(** One program header; [inl] is [continue] or the end of the body. *)
Definition load_program (file program : list Z) (entry : Z) (entry_ok : bool) (m : gmap Z Z)
  : option (bool * gmap Z Z) :=
  if negb (elf32 program =? 1) then Some (entry_ok, m)
  else
    let offset := elf64 (skipn 8 program) in let address := elf64 (skipn 16 program) in
    let filesz := elf64 (skipn 32 program) in let memsz := elf64 (skipn 40 program) in
    if segment_bad offset address filesz memsz then None
    else
      match read_at offset filesz file with
      | None => None
      | Some bytes =>
          let m := aputs bytes (u32 (address - RAM_BASE)) m in
          let m := afill (Z.to_nat (memsz - filesz)) m (u32 (address - RAM_BASE + filesz)) 0 in
          Some (entry_ok || (tst (elf32 (skipn 4 program)) 1 && (address <=? entry) &&
                             (entry - address <? memsz)), m)
      end.

Fixpoint load_programs (n : nat) (i phoff phsize : Z) (file : list Z) (entry : Z) (entry_ok : bool)
  (m : gmap Z Z) : option (bool * gmap Z Z) :=
  match n with
  | O => Some (entry_ok, m)
  | S n =>
      match read_at (i64 (phoff + i * phsize)) 56 file with
      | None => None
      | Some program =>
          match load_program file program entry entry_ok m with
          | None => None
          | Some (entry_ok, m) => load_programs n (i + 1) phoff phsize file entry entry_ok m
          end
      end
  end.

Definition load_elf (file : list Z) (s : rv) : option (Z * rv) :=
  match read_at 0 64 file with
  | None => None
  | Some header =>
      if negb (elf32 header =? 0x464c457f) || negb (nth 4 header 0 =? 2) || negb (nth 5 header 0 =? 1) ||
         negb (elf16 (skipn 18 header) =? 243) then None
      else
        let phoff := elf64 (skipn 32 header) in let entry := elf64 (skipn 24 header) in
        let phsize := elf16 (skipn 54 header) in let phnum := elf16 (skipn 56 header) in
        if phsize <? 56 then None
        else
          match load_programs (Z.to_nat phnum) 0 phoff phsize file entry false (ram s) with
          | Some (true, m) => Some (entry, set_ram m s)
          | _ => None
          end
  end.

Definition load_initrd (file : list Z) (s : rv) : option rv :=
  if 0x01000000 <? Z.of_nat (length file) then None
  else Some (set_ram (aputs file 0x04000000 (ram s)) s).

(** [for (i = 0; i < n; ++i) rv_input(bytes[i]);] *)
Fixpoint feed (bytes : list Z) (s : rv) : rv :=
  match bytes with [] => s | b :: bytes => feed bytes (rv_input b s) end.
(** [while (rv_output_count()) bytes[n++] = rv_output();] *)
Fixpoint drain (fuel : nat) (s : rv) : option (list Z * rv) :=
  match fuel with
  | O => None
  | S fuel =>
      if rv_output_count s =? 0 then Some ([], s)
      else
        let '(b, s) := rv_output s in
        match drain fuel s with Some (l, s) => Some (u8 b :: l, s) | None => None end
  end.
Definition host_io (input : list Z) (s : rv) : option (list Z * rv) :=
  drain (Z.to_nat (UART_CAP + 1)) (feed input s).

Section main.
Context `{HF : HostFloat}.

(** The batch of one iteration of [main]'s loop, given [limit] and [done]. *)
Definition batch_of (limit done_ : Z) : Z :=
  if negb (limit =? 0) && (u64 (limit - done_) <? 200000) then u32 (limit - done_) else 200000.

(** The iterations of the loop while input lists last; [in1], [in2] are what the two [read]s of an
    iteration deliver.  The result collects what was written. *)
Fixpoint main_loop (limit done_ : Z) (inputs : list (list Z * list Z)) (s : rv)
  : option (Z * list Z * rv) :=
  match inputs with
  | [] => Some (done_, [], s)
  | (in1, in2) :: inputs =>
      if negb (limit =? 0) && negb (done_ <? limit) then Some (done_, [], s)
      else
        let batch := batch_of limit done_ in
        match host_io in1 s with
        | None => None
        | Some (out1, s) =>
            let '(_, s) := rv_run batch 100 s in
            match host_io in2 s with
            | None => None
            | Some (out2, s) =>
                match main_loop limit (u64 (done_ + batch)) inputs s with
                | None => None
                | Some (d, out, s) => Some (d, out1 ++ out2 ++ out, s)
                end
            end
        end
  end.
End main.

(** ** Lemmas *)

Lemma elfint_bound n p v : Forall (fun b => isu8 b) p -> isu64 v -> isu64 (elfint n p v).
Proof.
  intros Hp. revert v. induction n as [|n IH]; intros v Hv; cbn [elfint]; [done|]. apply IH.
  apply isu64_lor; [apply u64_bound|].
  destruct (decide (n < length p)%nat) as [Hn|Hn].
  - rewrite Forall_forall in Hp. specialize (Hp (nth n p 0)). assert (isu8 (nth n p 0)); [|lia].
    apply Hp. apply list_elem_of_In. apply nth_In. done.
  - rewrite nth_overflow by lia. lia.
Qed.


Lemma read_at_bytes pos n file l :
  Forall (fun b => isu8 b) file -> read_at pos n file = Some l ->
  Forall (fun b => isu8 b) l /\ (0 <= n -> Z.of_nat (length l) = n).
Proof.
  intros Hf E. unfold read_at in E.
  destruct (Z.ltb_spec pos 0); [done|]. destruct (Z.eqb_spec n 0); [by simplify_eq; split; [apply Forall_nil_2|]|].
  destruct (Z.ltb_spec (Z.of_nat (length file)) (pos + n)); [done|]. simplify_eq. split.
  - by apply Forall_take, Forall_drop.
  - intros Hn. rewrite length_firstn, length_skipn. lia.
Qed.

Lemma bytes_ok_aputs l off m : Forall (fun b => isu8 b) l -> bytes_ok m -> bytes_ok (aputs l off m).
Proof.
  revert off m. induction l as [|b l IH]; intros off m Hl Hm; [done|]. cbn [aputs].
  apply Forall_cons in Hl as [Hb Hl]. apply IH; [done|]. by apply bytes_ok_aset.
Qed.

Definition outside_ram (m m' : gmap Z Z) : Prop :=
  forall i, ~ (0 <= i < RAM_SIZE) -> aget m' i = aget m i.

Lemma outside_refl m : outside_ram m m.
Proof. by intros i _. Qed.

(** One program header loads inside the RAM array, and vouches only for entries in RAM. *)
Lemma load_program_safe file program entry ok m ok' m' :
  Forall (fun b => isu8 b) file -> Forall (fun b => isu8 b) program -> bytes_ok m ->
  load_program file program entry ok m = Some (ok', m') ->
  bytes_ok m' /\ outside_ram m m' /\
  (ok' = true -> ok = true \/ RAM_BASE <= entry < RAM_BASE + RAM_SIZE).
Proof.
  intros Hf Hp Hm E. unfold load_program in E.
  destruct (negb (elf32 program =? 1)); [simplify_eq; by auto using outside_refl|].
  assert (forall k, isu64 (elf64 (skipn k program))) as H64.
  { intros k. apply elfint_bound; [|lia]. by apply Forall_drop. }
  pose proof (H64 8%nat) as Ho. pose proof (H64 16%nat) as Ha.
  pose proof (H64 32%nat) as Hfs. pose proof (H64 40%nat) as Hms.
  set (offset := elf64 (skipn 8 program)) in *. set (address := elf64 (skipn 16 program)) in *.
  set (filesz := elf64 (skipn 32 program)) in *. set (memsz := elf64 (skipn 40 program)) in *.
  clearbody offset address filesz memsz. unfold segment_bad in E.
  destruct (Z.ltb_spec address RAM_BASE); [done|]. destruct (Z.ltb_spec RAM_SIZE (address - RAM_BASE)); [done|].
  destruct (Z.ltb_spec (RAM_SIZE - (address - RAM_BASE)) memsz); [done|].
  destruct (Z.ltb_spec memsz filesz); [done|]. destruct (Z.ltb_spec 0x7fffffff offset); [done|]. cbn [orb] in E.
  destruct (read_at offset filesz file) as [bytes|] eqn:Er; [|done].
  apply read_at_bytes in Er as [Hb Hlen]; [|done]. specialize (Hlen ltac:(lia)).
  unfold RAM_SIZE, RAM_BASE in *.
  rewrite (u32_small (address - 2147483648)), (u32_small (address - 2147483648 + filesz)) in E by lia.
  simplify_eq. split; [|split].
  - apply bytes_ok_afill; [|lia]. by apply bytes_ok_aputs.
  - intros i Hi. unfold RAM_SIZE in Hi. rewrite aget_afill, bool_decide_eq_false_2 by lia.
    rewrite aget_aputs, bool_decide_eq_false_2 by lia. done.
  - intros Hok. apply orb_true_iff in Hok as [->|Hok]; [by left|right].
    apply andb_true_iff in Hok as [Hok Hen]. apply andb_true_iff in Hok as [_ Hlo].
    apply Z.leb_le in Hlo. apply Z.ltb_lt in Hen. lia.
Qed.

Lemma load_programs_safe n i phoff phsize file entry ok m ok' m' :
  Forall (fun b => isu8 b) file -> bytes_ok m ->
  load_programs n i phoff phsize file entry ok m = Some (ok', m') ->
  bytes_ok m' /\ outside_ram m m' /\
  (ok' = true -> ok = true \/ RAM_BASE <= entry < RAM_BASE + RAM_SIZE).
Proof.
  intros Hf. revert i ok m. induction n as [|n IH]; intros i ok m Hm E; cbn [load_programs] in E.
  { simplify_eq. by auto using outside_refl. }
  destruct (read_at _ _ _) as [program|] eqn:Er; [|done]. apply read_at_bytes in Er as [Hp _]; [|done].
  destruct (load_program _ _ _ _ _) as [[ok1 m1]|] eqn:El; [|done].
  apply load_program_safe in El as (Hm1 & Ho1 & He1); [|done..].
  apply IH in E as (Hm2 & Ho2 & He2); [|done].
  split; [done|]. split; [intros j Hj; rewrite Ho2, Ho1; done|]. intros Hok.
  destruct (He2 Hok) as [H1|H1]; [by apply He1|by right].
Qed.


(** A minimal image: one program header, an executable segment of 4 bytes at 0x80000000. *)
Definition le (n : nat) (v : Z) : list Z :=
  map (fun i => Z.shiftr v (8 * Z.of_nat i) mod 256) (seq 0 n).
Definition elf_example : list Z :=
  [0x7f; 69; 76; 70; 2; 1] ++ repeat 0 10 ++ le 2 2 ++ le 2 243 ++ le 4 1 ++ le 8 0x80000000 ++
  le 8 64 ++ le 8 0 ++ le 4 0 ++ le 2 64 ++ le 2 56 ++ le 2 1 ++ le 6 0 ++
  le 4 1 ++ le 4 5 ++ le 8 120 ++ le 8 0x80000000 ++ le 8 0x80000000 ++ le 8 4 ++ le 8 8 ++ le 8 0 ++
  [0x73; 0; 0x50; 0x10].


(** ** Host I/O *)

Lemma feed_ok bytes s : rv_ok s -> rv_ok (feed bytes s).
Proof. revert s. induction bytes as [|b bytes IH]; intros s Hs; [done|]. by apply IH, rv_input_ok. Qed.

Lemma input_queue_push b s : rv_ok s -> input_queue (rv_input b s) = push b (input_queue s).
Proof.
  intros [_ _ [? ? Hr Hw _ _ Hc _] _ _].
  unfold input_queue, rv_input. rewrite <- ring_push_full by done. by destruct (u32 _ <? _).
Qed.

Lemma feed_queue bytes s : rv_ok s ->
  input_queue (feed bytes s) = fold_left (fun q b => push b q) bytes (input_queue s) /\
  output_queue (feed bytes s) = output_queue s.
Proof.
  revert s. induction bytes as [|b bytes IH]; intros s Hs; [done|]. cbn [feed fold_left].
  destruct (IH (rv_input b s)) as [-> ->]; [by apply rv_input_ok|].
  rewrite input_queue_push by done. split; [done|].
  unfold rv_input. by destruct (_ <? _).
Qed.

Lemma drain_spec fuel s : rv_ok s -> (length (output_queue s) < fuel)%nat ->
  exists s', drain fuel s = Some (output_queue s, s') /\ rv_ok s' /\ output_queue s' = [] /\
    input_queue s' = input_queue s.
Proof.
  revert s. induction fuel as [|fuel IH]; intros s Hs Hf; [lia|]. cbn [drain].
  destruct Hs as [H1 H2 Hu H4 H5] eqn:Es. pose proof Hu as [Hb1 Hb Hr1 Hw1 Hr Hw Hc1 Hc]. clear Es.
  fold (out_read s) in Hr, Hc. fold (out_write s) in Hw, Hc.
  assert (rv_ok s) as Hok by done.
  unfold rv_output_count, rv_output, output_queue in *.
  destruct (Z.eqb_spec (out_read s) (out_write s)) as [Ee|Ene].
  - rewrite Ee, Z.sub_diag. change (u32 0 =? 0) with true. cbn match.
    exists s. rewrite Ee. rewrite (proj2 (ring_empty _ _ _ Hw Hw) eq_refl). done.
  - assert (u32 (out_write s - out_read s) <> 0) by (unfold u32; zlia).
    replace (u32 (out_write s - out_read s) =? 0) with false by lia.
    rewrite (ring_pop _ _ _ Hr Hw Ene) in Hf. cbn [length] in Hf.
    pose proof (ok_out_pop s Hok Ene) as Hok'.
    destruct (IH _ Hok') as (s' & Ed & Hs' & Ho & Hi); [cbn; lia|].
    change (ring (uart_out _) (out_read _) (out_write _)) with
      (ring (uart_out s) (u32 (out_read s + 1)) (out_write s)) in Ed. rewrite Ed.
    exists s'. rewrite (ring_pop _ _ _ Hr Hw Ene). unfold u8. rewrite Z.mod_small by (apply Hb).
    split; [done|]. split; [done|]. split; [done|]. exact Hi.
Qed.

Lemma host_io_spec input s :
  rv_ok s ->
  exists s', host_io input s = Some (output_queue s, s') /\ rv_ok s' /\
    Z.of_nat (length (output_queue s)) <= UART_CAP /\ output_queue s' = [] /\
    input_queue s' = fold_left (fun q b => push b q) input (input_queue s).
Proof.
  intros Hs. assert (Z.of_nat (length (output_queue s)) <= UART_CAP) as Hl.
  { unfold output_queue. rewrite ring_length, Z2Nat.id by apply u32_bound. apply Hs. }
  destruct (feed_queue input s Hs) as [Hi Ho].
  destruct (drain_spec (Z.to_nat (UART_CAP + 1)) (feed input s)) as (s' & E & Hs' & Ho' & Hi').
  - by apply feed_ok.
  - rewrite Ho. unfold UART_CAP in *. lia.
  - exists s'. unfold host_io. rewrite E, Ho. split; [done|]. split; [done|]. split; [done|].
    split; [done|]. by rewrite Hi'.
Qed.

(** [host_io] always returns; it writes out exactly the bytes the guest had queued, at most the
    4096 its buffer holds, leaves the output queue empty, and appends the input in order
    (dropping what does not fit). *)
Theorem host_io_correct input s :
  rv_ok s ->
  exists s', host_io input s = Some (output_queue s, s') /\ rv_ok s' /\
    Z.of_nat (length (output_queue s)) <= UART_CAP /\ output_queue s' = [] /\
    input_queue s' = fold_left (fun q b => push b q) input (input_queue s).
Proof. apply host_io_spec. Qed.

Lemma host_io_correct_witness :
  exists s', host_io [1; 2] rv_bss = Some ([], s') /\ input_queue s' = [1; 2].
Proof.
  destruct (host_io_correct [1; 2] rv_bss rv_bss_ok) as (s' & E & _ & _ & _ & Hi).
  exists s'. split; [exact E|]. rewrite Hi. vm_compute. reflexivity.
Defined.

Section limit.
Context `{HF : HostFloat}.

Lemma main_loop_spec limit done_ inputs s :
  rv_ok s -> 0 < limit < 18446744073709551616 - 200000 -> 0 <= done_ <= limit ->
  exists out s', main_loop limit done_ inputs s =
    Some (Z.min limit (done_ + 200000 * Z.of_nat (length inputs)), out, s') /\ rv_ok s'.
Proof.
  revert done_ s. induction inputs as [|[in1 in2] inputs IH]; intros d s Hs Hl Hd; cbn [main_loop].
  { exists [], s. split; [|done]. cbn [length Z.of_nat]. repeat f_equal. lia. }
  replace (limit =? 0) with false by lia. cbn [negb andb].
  destruct (Z.ltb_spec d limit) as [Hlt|Hge]; cbn [negb].
  2: { exists [], s. split; [|done]. do 3 f_equal. lia. }
  assert (0 < batch_of limit d /\ d + batch_of limit d = Z.min limit (d + 200000)) as [Hb0 Hb].
  { unfold batch_of. replace (limit =? 0) with false by lia. cbn [negb andb].
    rewrite (u64_small (limit - d)) by lia. destruct (Z.ltb_spec (limit - d) 200000); [|lia].
    rewrite u32_small by lia. lia. }
  destruct (host_io_spec in1 s Hs) as (s1 & -> & Hs1 & _).
  destruct (rv_run (batch_of limit d) 100 s1) as [r s2] eqn:Er.
  assert (rv_ok s2) as Hs2.
  { pose proof (rv_run_ok (batch_of limit d) 100 s1 Hs1 ltac:(lia)) as H. by rewrite Er in H. }
  destruct (host_io_spec in2 s2 Hs2) as (s3 & -> & Hs3 & _).
  rewrite (u64_small (d + batch_of limit d)) by lia.
  destruct (IH (d + batch_of limit d) s3 Hs3 Hl ltac:(lia)) as (out & s' & -> & Hs').
  eexists _, s'. split; [|done]. do 3 f_equal. cbn [length]. lia.
Qed.

(** With a limit, the runner executes exactly that many instruction slots: after [k]
    iterations it has run [min(limit, 200000 k)] of them, and it stops at the limit; the machine
    stays well formed whatever arrives on standard input. *)
Theorem main_runs_to_limit limit inputs s :
  rv_ok s -> 0 < limit < 18446744073709551616 - 200000 ->
  exists out s', main_loop limit 0 inputs s =
    Some (Z.min limit (200000 * Z.of_nat (length inputs)), out, s') /\ rv_ok s'.
Proof. intros Hs Hl. apply (main_loop_spec limit 0 inputs s); [done|done|lia]. Qed.
End limit.

Lemma main_runs_to_limit_witness :
  exists out s', @main_loop {| nan32 := 0; nan64 := 0; cvt_undef := fun lo _ _ => lo |} 3 0 [([], [])] rv_bss =
    Some (3, out, s') /\ rv_ok s'.
Proof.
  exact (@main_runs_to_limit {| nan32 := 0; nan64 := 0; cvt_undef := fun lo _ _ => lo |} 3 [([], [])] rv_bss
    rv_bss_ok ltac:(lia)).
Defined.
