(* ===== verification/Pmm.v ===== *)
(** The kernel's physical page allocator ([src/kernel/mm/pmm.c]).

    The statics are the record [pmm]; the bitmap keeps its 32-bit words.  [kernel_end] is a linker
    symbol and [mem_top], [base] come from the boot code, so they are arguments of [pmm_init]; its
    [kprintf] line is not modelled.  The abstract view is the reference count of each page. *)
From S2P Require Import Prelude.

Definition PAGE_SIZE : Z := 4096.
Definition MAX_PAGES : Z := 32768.
Definition BITMAP_WORDS : Z := 1024.

Record pmm := Pmm {
  bitmap : gmap Z Z;
  refs : gmap Z Z;
  total_pages : Z;
  free_pages : Z;
  phys_base : Z;
  next_free_hint : Z
}.

Definition bitmap_set (page : Z) (b : gmap Z Z) : gmap Z Z :=
  aset b (page / 32) (Z.lor (aget b (page / 32)) (Z.shiftl 1 (page mod 32))).
Definition bitmap_clear (page : Z) (b : gmap Z Z) : gmap Z Z :=
  aset b (page / 32) (Z.land (aget b (page / 32)) (not32 (Z.shiftl 1 (page mod 32)))).
Definition bitmap_test (page : Z) (b : gmap Z Z) : bool :=
  negb (Z.land (Z.shiftr (aget b (page / 32)) (page mod 32)) 1 =? 0).

(** [for (p = ...; n pages left; p++) { bitmap_clear(p); refs[p] = 0; free_pages++; }] *)
Fixpoint free_range (n : nat) (p : Z) (s : pmm) : pmm :=
  match n with
  | O => s
  | S n => free_range n (p + 1)
      (Pmm (bitmap_clear p (bitmap s)) (aset (refs s) p 0) (total_pages s)
           (u32 (free_pages s + 1)) (phys_base s) (next_free_hint s))
  end.

Definition pmm_init (mem_top base kernel_end : Z) (s : pmm) : pmm :=
  let total := u32 (mem_top - base) / PAGE_SIZE in
  let total := if MAX_PAGES <? total then MAX_PAGES else total in
  let first_free_page := u32 (kernel_end - base + PAGE_SIZE - 1) / PAGE_SIZE in
  free_range (Z.to_nat (total - first_free_page)) first_free_page
    (Pmm (afill (Z.to_nat BITMAP_WORDS) (bitmap s) 0 0xffffffff) (afill (Z.to_nat MAX_PAGES) (refs s) 0 1) total 0 base
         (next_free_hint s)).

(** Marks one free page used, as the three allocating functions do. *)
Definition take (p : Z) (s : pmm) : pmm :=
  Pmm (bitmap_set p (bitmap s)) (aset (refs s) p 1) (total_pages s) (free_pages s)
      (phys_base s) (next_free_hint s).
Definition set_free_pages (v : Z) (s : pmm) : pmm :=
  Pmm (bitmap s) (refs s) (total_pages s) v (phys_base s) (next_free_hint s).
Definition set_hint (v : Z) (s : pmm) : pmm :=
  Pmm (bitmap s) (refs s) (total_pages s) (free_pages s) (phys_base s) v.

(** The loop of [pmm_alloc_page]: [n] iterations left, [i] the loop counter. *)
Fixpoint alloc_loop (n : nat) (i : Z) (s : pmm) : Z * pmm :=
  match n with
  | O => (0, s)
  | S n =>
      let p := u32 (next_free_hint s + i) mod total_pages s in
      if negb (bitmap_test p (bitmap s)) then
        (u32 (phys_base s + p * PAGE_SIZE),
         set_hint (u32 (p + 1)) (set_free_pages (u32 (free_pages s - 1)) (take p s)))
      else alloc_loop n (i + 1) s
  end.
Definition pmm_alloc_page (s : pmm) : Z * pmm := alloc_loop (Z.to_nat (total_pages s)) 0 s.

(** [for (q = run_start; q < run_start + count; q++) bitmap_set(q), refs[q] = 1;] *)
Fixpoint take_range (n : nat) (q : Z) (s : pmm) : pmm :=
  match n with O => s | S n => take_range n (q + 1) (take q s) end.

(** The scan of [pmm_alloc_contiguous]. *)
Fixpoint contiguous_loop (n : nat) (p run_start run_len count : Z) (s : pmm) : Z * pmm :=
  match n with
  | O => (0, s)
  | S n =>
      if negb (bitmap_test p (bitmap s)) then
        let run_start := if run_len =? 0 then p else run_start in
        let run_len := run_len + 1 in
        if run_len =? count then
          (u32 (phys_base s + run_start * PAGE_SIZE),
           set_free_pages (u32 (free_pages s - count)) (take_range (Z.to_nat count) run_start s))
        else contiguous_loop n (p + 1) run_start run_len count s
      else contiguous_loop n (p + 1) run_start 0 count s
  end.
Definition pmm_alloc_contiguous (count : Z) (s : pmm) : Z * pmm :=
  if (count =? 0) || (total_pages s <? count) then (0, s)
  else if count =? 1 then pmm_alloc_page s
  else contiguous_loop (Z.to_nat (total_pages s)) 0 0 0 count s.

Definition page_of (addr : Z) (s : pmm) : Z := u32 (addr - phys_base s) / PAGE_SIZE.

Definition pmm_retain_page (addr : Z) (s : pmm) : pmm :=
  let p := page_of addr s in
  if (p <? total_pages s) && bitmap_test p (bitmap s) && negb (aget (refs s) p =? 0xffff) then
    Pmm (bitmap s) (aset (refs s) p (u16 (aget (refs s) p + 1))) (total_pages s) (free_pages s)
        (phys_base s) (next_free_hint s)
  else s.

Definition pmm_free_page (addr : Z) (s : pmm) : pmm :=
  let p := page_of addr s in
  if (p <? total_pages s) && bitmap_test p (bitmap s) && negb (aget (refs s) p =? 0) then
    let r := u16 (aget (refs s) p - 1) in
    let s := Pmm (bitmap s) (aset (refs s) p r) (total_pages s) (free_pages s) (phys_base s)
                 (next_free_hint s) in
    if r =? 0 then
      Pmm (bitmap_clear p (bitmap s)) (refs s) (total_pages s) (u32 (free_pages s + 1))
          (phys_base s) (next_free_hint s)
    else s
  else s.

Definition pmm_free_pages (s : pmm) : Z := free_pages s.

Fixpoint reserve_loop (n : nat) (p : Z) (s : pmm) : pmm :=
  match n with
  | O => s
  | S n =>
      reserve_loop n (p + 1)
        (if negb (bitmap_test p (bitmap s)) then set_free_pages (u32 (free_pages s - 1)) (take p s)
         else s)
  end.
Definition pmm_reserve_range (lo hi : Z) (s : pmm) : pmm :=
  let first := u32 (lo - phys_base s) / PAGE_SIZE in
  let last := u32 (hi - phys_base s + PAGE_SIZE - 1) / PAGE_SIZE in
  let last := if total_pages s <? last then total_pages s else last in
  reserve_loop (Z.to_nat (last - first)) first s.

(** ** Bitmap lemmas *)

Definition words_ok (b : gmap Z Z) : Prop := forall w, isu32 (aget b w).

Lemma bitmap_test_bits p b : 0 <= p -> bitmap_test p b = Z.testbit (aget b (p / 32)) (p mod 32).
Proof.
  intros Hp. unfold bitmap_test. fold (tst (Z.shiftr (aget b (p / 32)) (p mod 32)) 1).
  change 1 with (2 ^ 0). rewrite tst_pow2 by lia. rewrite Z.shiftr_spec by lia. done.
Qed.

Lemma bitmap_test_set p q b : 0 <= p -> 0 <= q ->
  bitmap_test q (bitmap_set p b) = (p =? q) || bitmap_test q b.
Proof.
  intros Hp Hq. rewrite !bitmap_test_bits by done. unfold bitmap_set. rewrite aget_aset, Z.shiftl_1_l.
  destruct (decide (p / 32 = q / 32)) as [E|E].
  - rewrite Z.lor_spec, Z.pow2_bits_eqb, E, orb_comm by zlia. f_equal.
    destruct (Z.eqb_spec (p mod 32) (q mod 32)), (Z.eqb_spec p q); try done; exfalso; zlia.
  - destruct (Z.eqb_spec p q); [by subst|done].
Qed.

Lemma bitmap_test_clear p q b : 0 <= p -> 0 <= q -> words_ok b ->
  bitmap_test q (bitmap_clear p b) = negb (p =? q) && bitmap_test q b.
Proof.
  intros Hp Hq Hb. rewrite !bitmap_test_bits by done. unfold bitmap_clear.
  rewrite aget_aset, Z.shiftl_1_l.
  destruct (decide (p / 32 = q / 32)) as [E|E].
  - rewrite Z.land_spec, testbit_not32_pow2, E, andb_comm by zlia. f_equal.
    destruct (Z.ltb_spec (q mod 32) 32); [|zlia].
    destruct (Z.eqb_spec (q mod 32) (p mod 32)), (Z.eqb_spec p q); try done; exfalso; zlia.
  - destruct (Z.eqb_spec p q); [by subst|done].
Qed.

Lemma words_ok_set p b : words_ok b -> words_ok (bitmap_set p b).
Proof.
  intros Hb w. unfold bitmap_set. rewrite aget_aset. case_decide; [|apply Hb].
  apply (lor_bound 32); [lia|apply Hb|]. rewrite Z.shiftl_1_l.
  pose proof (Z.mod_pos_bound p 32 ltac:(lia)).
  split; [apply Z.pow_nonneg; lia|apply Z.pow_lt_mono_r; lia].
Qed.
Lemma words_ok_clear p b : words_ok b -> words_ok (bitmap_clear p b).
Proof.
  intros Hb w. unfold bitmap_clear. rewrite aget_aset. case_decide; [|apply Hb].
  apply (land_bound_l 32); [lia|apply Hb].
Qed.
#[export] Hint Resolve words_ok_set words_ok_clear : words.

(** ** Counting free pages *)

(** The pages below [n] with no reference. *)
Fixpoint nfree (n : nat) (r : gmap Z Z) : Z :=
  match n with
  | O => 0
  | S n => nfree n r + Z.b2z (aget r (Z.of_nat n) =? 0)
  end.

Lemma nfree_aset n r p v :
  nfree n (aset r p v) =
  nfree n r + (if bool_decide (0 <= p < Z.of_nat n) then Z.b2z (v =? 0) - Z.b2z (aget r p =? 0) else 0).
Proof.
  induction n as [|n IH]; cbn [nfree].
  - rewrite bool_decide_eq_false_2; lia.
  - rewrite IH, aget_aset. repeat case_bool_decide; case_decide; subst; try lia.
Qed.

Lemma nfree_bounds n r : 0 <= nfree n r <= Z.of_nat n.
Proof. induction n as [|n IH]; cbn [nfree]; [lia|]. destruct (_ =? 0); cbn [Z.b2z]; lia. Qed.

Lemma nfree_zero n r :
  nfree n r = 0 <-> (forall p, 0 <= p < Z.of_nat n -> aget r p <> 0).
Proof.
  induction n as [|n IH]; cbn [nfree]; [split; [lia|done]|].
  pose proof (nfree_bounds n r). split.
  - intros H0 p Hp. destruct (Z.eqb_spec (aget r (Z.of_nat n)) 0) as [E|E]; cbn [Z.b2z] in H0; [lia|].
    destruct (decide (p = Z.of_nat n)) as [->|]; [done|]. apply IH; lia.
  - intros Hp. destruct (Z.eqb_spec (aget r (Z.of_nat n)) 0) as [E|E].
    + exfalso. apply (Hp (Z.of_nat n)); [lia|done].
    + cbn [Z.b2z]. rewrite Z.add_0_r. apply IH. intros; apply Hp; lia.
Qed.

(** ** The invariant *)

Record pmm_ok (s : pmm) : Prop := {
  ok_total : 0 <= total_pages s <= MAX_PAGES;
  ok_base : 0 <= phys_base s /\ phys_base s + total_pages s * PAGE_SIZE <= 4294967296;
  ok_hint : isu32 (next_free_hint s) /\ next_free_hint s <= MAX_PAGES;
  ok_words : words_ok (bitmap s);
  ok_refs : forall p, 0 <= p < total_pages s -> 0 <= aget (refs s) p < 65536;
  ok_used : forall p, 0 <= p < total_pages s -> bitmap_test p (bitmap s) = negb (aget (refs s) p =? 0);
  ok_free : free_pages s = nfree (Z.to_nat (total_pages s)) (refs s)
}.

(** A new bitmap and new counts that agree re-establish the invariant. *)
Lemma pmm_ok_update s b r f h :
  pmm_ok s -> words_ok b ->
  (forall p, 0 <= p < total_pages s ->
     0 <= aget r p < 65536 /\ bitmap_test p b = negb (aget r p =? 0)) ->
  f = nfree (Z.to_nat (total_pages s)) r -> 0 <= h <= MAX_PAGES ->
  pmm_ok (Pmm b r (total_pages s) f (phys_base s) h).
Proof.
  intros [] Hb Hr Hf Hh. unfold MAX_PAGES in *.
  constructor; cbn; try done; try (intros p Hp; by apply Hr); unfold MAX_PAGES in *; lia.
Qed.

Lemma free_page_counts s p : pmm_ok s -> 0 <= p < total_pages s -> aget (refs s) p = 0 ->
  0 < free_pages s.
Proof.
  intros [] Hp E. rewrite ok_free0.
  pose proof (nfree_bounds (Z.to_nat (total_pages s)) (refs s)).
  destruct (decide (nfree (Z.to_nat (total_pages s)) (refs s) = 0)) as [E0|]; [|lia].
  exfalso. revert E. apply (proj1 (nfree_zero _ _) E0). lia.
Qed.

Lemma free_pages_bound s : pmm_ok s -> 0 <= free_pages s <= 32768.
Proof.
  intros []. rewrite ok_free0. pose proof (nfree_bounds (Z.to_nat (total_pages s)) (refs s)).
  unfold MAX_PAGES in *. lia.
Qed.

Lemma take_ok p h s : pmm_ok s -> 0 <= p < total_pages s -> aget (refs s) p = 0 ->
  0 <= h <= MAX_PAGES ->
  pmm_ok (set_hint h (set_free_pages (u32 (free_pages s - 1)) (take p s))).
Proof.
  intros Hok Hp E Hh. pose proof (free_page_counts s p Hok Hp E) as Hf.
  pose proof (free_pages_bound s Hok) as Hfb.
  apply (pmm_ok_update s (bitmap_set p (bitmap s)) (aset (refs s) p 1) _ h); try done.
  - apply words_ok_set, Hok.
  - intros q Hq. rewrite bitmap_test_set, (ok_used s Hok q Hq), aget_aset by lia.
    pose proof (ok_refs s Hok q Hq). case_decide; subst.
    + rewrite Z.eqb_refl. split; [lia|done].
    + split; [done|]. destruct (Z.eqb_spec p q); [done|]. by rewrite orb_false_l.
  - rewrite u32_small by lia. rewrite nfree_aset, bool_decide_eq_true_2 by lia.
    rewrite E, (ok_free s Hok). cbn. lia.
Qed.

(** ** [pmm_alloc_page] *)

Lemma alloc_loop_spec n i s :
  pmm_ok s -> 0 <= i -> i + Z.of_nat n <= total_pages s ->
  (alloc_loop n i s = (0, s) /\
     forall j, i <= j < i + Z.of_nat n -> aget (refs s) ((next_free_hint s + j) mod total_pages s) <> 0) \/
  (exists p, 0 <= p < total_pages s /\ aget (refs s) p = 0 /\
     alloc_loop n i s = (phys_base s + p * PAGE_SIZE,
       set_hint (p + 1) (set_free_pages (u32 (free_pages s - 1)) (take p s)))).
Proof.
  intros Hok. revert i. induction n as [|n IH]; intros i Hi Hn; cbn [alloc_loop].
  { left. split; [done|lia]. }
  destruct Hok as [Ht [Hb0 Hb1] [Hh0 Hh1] Hw Hr Hu Hf]. unfold MAX_PAGES, PAGE_SIZE in *.
  rewrite (u32_small (next_free_hint s + i)) by lia.
  set (p := (next_free_hint s + i) mod total_pages s).
  assert (0 <= p < total_pages s) as Hp by (apply Z.mod_pos_bound; lia).
  rewrite (Hu p Hp). destruct (Z.eqb_spec (aget (refs s) p) 0) as [E|E]; cbn [negb].
  - right. exists p. split; [done|]. split; [done|]. by rewrite !u32_small by lia.
  - destruct (IH (i + 1)) as [[Hl Hall]|Hex]; [lia|lia| |by right].
    left. split; [done|]. intros j Hj. destruct (decide (j = i)) as [->|]; [done|]. apply Hall; lia.
Qed.

Lemma rotate_covers h t p : 0 <= h -> 0 <= p < t -> exists j, 0 <= j < t /\ (h + j) mod t = p.
Proof.
  intros Hh Hp. exists ((p - h) mod t). split; [apply Z.mod_pos_bound; lia|].
  rewrite Zplus_mod_idemp_r. replace (h + (p - h)) with p by lia. apply Z.mod_small. lia.
Qed.

(** What a successful allocation of one page does to the counts. *)
Definition allocated (p : Z) (s s' : pmm) : Prop :=
  0 <= p < total_pages s /\ aget (refs s) p = 0 /\ refs s' = aset (refs s) p 1 /\
  free_pages s' = free_pages s - 1 /\ total_pages s' = total_pages s /\ phys_base s' = phys_base s.

Lemma alloc_page_cases s : pmm_ok s ->
  (pmm_alloc_page s = (0, s) /\ free_pages s = 0) \/
  (exists p s', pmm_alloc_page s = (phys_base s + p * PAGE_SIZE, s') /\ allocated p s s' /\ pmm_ok s').
Proof.
  intros Hok. unfold pmm_alloc_page.
  destruct (alloc_loop_spec (Z.to_nat (total_pages s)) 0 s Hok) as [[E Hall]|(p & Hp & Hr & E)].
  - lia.
  - pose proof (ok_total s Hok). lia.
  - left. split; [done|]. rewrite (ok_free s Hok). apply nfree_zero. intros p Hp Hr.
    pose proof (ok_total s Hok). pose proof (ok_hint s Hok).
    destruct (rotate_covers (next_free_hint s) (total_pages s) p) as (j & Hj & Hm); [lia|lia|].
    apply (Hall j); [lia|]. by rewrite Hm.
  - right. exists p. eexists. split; [exact E|].
    pose proof (free_page_counts s p Hok Hp Hr). pose proof (free_pages_bound s Hok).
    pose proof (ok_total s Hok). split.
    + repeat split; cbn; try done; try lia. apply u32_small. lia.
    + apply take_ok; try done. lia.
Qed.

(** ** [pmm_alloc_contiguous] *)

Lemma take_range_fields n q s :
  total_pages (take_range n q s) = total_pages s /\ free_pages (take_range n q s) = free_pages s /\
  phys_base (take_range n q s) = phys_base s /\
  next_free_hint (take_range n q s) = next_free_hint s.
Proof. revert q s. induction n as [|n IH]; intros q s; [done|]. apply (IH (q + 1) (take q s)). Qed.

Lemma take_range_words n q s : words_ok (bitmap s) -> words_ok (bitmap (take_range n q s)).
Proof.
  revert q s. induction n as [|n IH]; intros q s H; [done|]. cbn [take_range].
  apply IH. by apply words_ok_set.
Qed.

Lemma take_range_refs n q s x :
  aget (refs (take_range n q s)) x =
  if bool_decide (q <= x < q + Z.of_nat n) then 1 else aget (refs s) x.
Proof.
  revert q s. induction n as [|n IH]; intros q s; cbn [take_range].
  - by rewrite bool_decide_eq_false_2 by lia.
  - rewrite IH. cbn [refs take]. rewrite aget_aset.
    case_decide; repeat case_bool_decide; try lia; done.
Qed.

Lemma take_range_test n q s x : 0 <= q -> 0 <= x ->
  bitmap_test x (bitmap (take_range n q s)) =
  bool_decide (q <= x < q + Z.of_nat n) || bitmap_test x (bitmap s).
Proof.
  revert q s. induction n as [|n IH]; intros q s Hq Hx; cbn [take_range].
  - by rewrite bool_decide_eq_false_2 by lia.
  - rewrite IH by lia. cbn [bitmap take]. rewrite bitmap_test_set by lia.
    destruct (Z.eqb_spec q x); repeat case_bool_decide; try lia; done.
Qed.

Lemma take_range_nfree m n q s :
  0 <= q -> q + Z.of_nat n <= Z.of_nat m ->
  (forall x, q <= x < q + Z.of_nat n -> aget (refs s) x = 0) ->
  nfree m (refs (take_range n q s)) = nfree m (refs s) - Z.of_nat n.
Proof.
  revert q s. induction n as [|n IH]; intros q s Hq Hn Hfree; cbn [take_range]; [lia|].
  rewrite IH; [|lia|lia|].
  - cbn [refs take]. rewrite nfree_aset, bool_decide_eq_true_2, (Hfree q) by lia. cbn. lia.
  - intros x Hx. cbn [refs take]. rewrite aget_aset_ne by lia. apply Hfree. lia.
Qed.

Lemma take_range_ok n q s :
  pmm_ok s -> 0 <= q -> q + Z.of_nat n <= total_pages s ->
  (forall x, q <= x < q + Z.of_nat n -> aget (refs s) x = 0) ->
  pmm_ok (set_free_pages (u32 (free_pages s - Z.of_nat n)) (take_range n q s)).
Proof.
  intros Hok Hq Hn Hfree.
  destruct (take_range_fields n q s) as (E1 & _ & E3 & E4).
  unfold set_free_pages. rewrite E1, E3, E4.
  pose proof (take_range_nfree (Z.to_nat (total_pages s)) n q s Hq ltac:(lia) Hfree) as Hnf.
  apply (pmm_ok_update s); try done.
  - apply take_range_words, Hok.
  - intros x Hx. rewrite take_range_refs, take_range_test, (ok_used s Hok x Hx) by lia.
    pose proof (ok_refs s Hok x Hx). by case_bool_decide.
  - rewrite Hnf, (ok_free s Hok). apply u32_small.
    pose proof (nfree_bounds (Z.to_nat (total_pages s)) (refs (take_range n q s))).
    pose proof (ok_total s Hok). unfold MAX_PAGES in *. lia.
  - pose proof (ok_hint s Hok). lia.
Qed.

(** [q .. q+count) are all free. *)
Definition free_run (s : pmm) (q count : Z) : Prop :=
  0 <= q /\ q + count <= total_pages s /\ forall x, q <= x < q + count -> aget (refs s) x = 0.

Lemma contiguous_loop_spec n p run_start run_len count s :
  pmm_ok s -> 1 < count -> p + Z.of_nat n = total_pages s ->
  0 <= run_len < count -> run_len <= p -> (0 < run_len -> run_start = p - run_len) ->
  (forall x, p - run_len <= x < p -> aget (refs s) x = 0) ->
  (run_len < p -> aget (refs s) (p - run_len - 1) <> 0) ->
  (forall q, q + count <= p -> ~ free_run s q count) ->
  (contiguous_loop n p run_start run_len count s = (0, s) /\ forall q, ~ free_run s q count) \/
  (exists q, free_run s q count /\
     contiguous_loop n p run_start run_len count s =
     (phys_base s + q * PAGE_SIZE,
      set_free_pages (u32 (free_pages s - count)) (take_range (Z.to_nat count) q s))).
Proof.
  intros Hok Hc. revert p run_start run_len.
  induction n as [|n IH]; intros p rs rl Hn Hrl Hp Hrs Hrun Hmax Hnone; cbn [contiguous_loop].
  { left. split; [done|]. intros q Hq. apply (Hnone q); [|done]. destruct Hq as (_ & Hq & _). lia. }
  rewrite (ok_used s Hok p) by lia.
  destruct (Z.eqb_spec (aget (refs s) p) 0) as [E|E]; cbn [negb].
  - assert ((if rl =? 0 then p else rs) = p - rl) as -> by (destruct (Z.eqb_spec rl 0); [lia|apply Hrs; lia]).
    destruct (Z.eqb_spec (rl + 1) count) as [Ec|Ec].
    + right. exists (p - rl). split.
      * split; [lia|]. split; [lia|]. intros x Hx. destruct (decide (x = p)) as [->|]; [done|].
        apply Hrun. lia.
      * rewrite u32_small; [done|]. pose proof (ok_base s Hok). unfold PAGE_SIZE in *. lia.
    + apply IH; try lia.
      * intros x Hx. destruct (decide (x = p)) as [->|]; [done|]. apply Hrun. lia.
      * intros Hlt. replace (p + 1 - (rl + 1) - 1) with (p - rl - 1) by lia. apply Hmax. lia.
      * intros q Hq Hfr. destruct (decide (q + count <= p)) as [Hle|]; [by apply (Hnone q)|].
        destruct Hfr as (H0 & _ & Hfr). apply Hmax; [lia|]. apply Hfr. lia.
  - apply IH; try lia.
    + intros _. by replace (p + 1 - 0 - 1) with p by lia.
    + intros q Hq Hfr. destruct (decide (q + count <= p)) as [Hle|]; [by apply (Hnone q)|].
      destruct Hfr as (H0 & _ & Hfr). apply E, Hfr. lia.
Qed.

Lemma alloc_contiguous_cases count s :
  pmm_ok s -> 1 < count ->
  (pmm_alloc_contiguous count s = (0, s) /\ forall q, ~ free_run s q count) \/
  (exists q, free_run s q count /\
     pmm_alloc_contiguous count s =
     (phys_base s + q * PAGE_SIZE,
      set_free_pages (u32 (free_pages s - count)) (take_range (Z.to_nat count) q s))).
Proof.
  intros Hok Hc. unfold pmm_alloc_contiguous.
  replace (count =? 0) with false by lia. replace (count =? 1) with false by lia. cbn [orb].
  pose proof (ok_total s Hok).
  destruct (Z.ltb_spec (total_pages s) count) as [Hlt|Hge].
  - left. split; [done|]. intros q (? & ? & _). lia.
  - apply contiguous_loop_spec; try done; try lia. intros q Hq (? & ? & _). lia.
Qed.

(** ** Retain, free, reserve and init *)

Definition set_ref (p v : Z) (s : pmm) : pmm :=
  Pmm (bitmap s) (aset (refs s) p v) (total_pages s) (free_pages s) (phys_base s) (next_free_hint s).

Lemma set_ref_ok p v s : pmm_ok s -> 0 <= p < total_pages s -> aget (refs s) p <> 0 -> 0 < v < 65536 ->
  pmm_ok (set_ref p v s).
Proof.
  intros Hok Hp Hr Hv. apply (pmm_ok_update s); try done.
  - apply Hok.
  - intros q Hq. rewrite (ok_used s Hok q Hq), aget_aset. pose proof (ok_refs s Hok q Hq).
    case_decide; subst; [|done]. split; [lia|].
    destruct (Z.eqb_spec (aget (refs s) q) 0), (Z.eqb_spec v 0); try done; lia.
  - rewrite nfree_aset, bool_decide_eq_true_2 by lia. rewrite (ok_free s Hok).
    replace (v =? 0) with false by lia. replace (aget (refs s) p =? 0) with false by lia. cbn. lia.
  - pose proof (ok_hint s Hok). lia.
Qed.

Definition drop (p : Z) (s : pmm) : pmm :=
  Pmm (bitmap_clear p (bitmap s)) (aset (refs s) p 0) (total_pages s) (u32 (free_pages s + 1))
      (phys_base s) (next_free_hint s).

Lemma drop_ok p s : pmm_ok s -> 0 <= p < total_pages s -> aget (refs s) p <> 0 ->
  pmm_ok (drop p s) /\ free_pages (drop p s) = free_pages s + 1.
Proof.
  intros Hok Hp Hr. pose proof (free_pages_bound s Hok).
  assert (u32 (free_pages s + 1) = free_pages s + 1) as Eu by (apply u32_small; lia).
  split; [|done]. apply (pmm_ok_update s); try done.
  - apply words_ok_clear, Hok.
  - intros q Hq. rewrite bitmap_test_clear by (try lia; apply Hok).
    rewrite (ok_used s Hok q Hq), aget_aset.
    pose proof (ok_refs s Hok q Hq). destruct (Z.eqb_spec p q); case_decide; try done; lia.
  - rewrite Eu, nfree_aset, bool_decide_eq_true_2 by lia. rewrite (ok_free s Hok).
    replace (aget (refs s) p =? 0) with false by lia. cbn. lia.
  - pose proof (ok_hint s Hok). lia.
Qed.

(** The page an address inside the managed range belongs to. *)
Lemma page_of_addr p k s : pmm_ok s -> 0 <= p < total_pages s -> 0 <= k < PAGE_SIZE ->
  page_of (phys_base s + p * PAGE_SIZE + k) s = p.
Proof.
  intros Hok Hp Hk. unfold page_of. pose proof (ok_base s Hok). unfold PAGE_SIZE in *.
  rewrite u32_small by lia. zlia.
Qed.

Lemma page_of_nonneg addr s : 0 <= page_of addr s.
Proof. unfold page_of, PAGE_SIZE. pose proof (u32_bound (addr - phys_base s)). zlia. Qed.

Lemma retain_cases addr s : pmm_ok s ->
  pmm_retain_page addr s = s \/
  (let p := page_of addr s in 0 <= p < total_pages s /\ 0 < aget (refs s) p < 65535 /\
     pmm_retain_page addr s = set_ref p (aget (refs s) p + 1) s).
Proof.
  intros Hok. unfold pmm_retain_page. pose proof (page_of_nonneg addr s).
  set (p := page_of addr s) in *.
  destruct (Z.ltb_spec p (total_pages s)) as [Hp|]; [|by left]. cbn [andb].
  rewrite (ok_used s Hok p) by lia. pose proof (ok_refs s Hok p ltac:(lia)).
  destruct (Z.eqb_spec (aget (refs s) p) 0); [by left|].
  destruct (Z.eqb_spec (aget (refs s) p) 0xffff); [by left|]. right. cbn zeta.
  split; [done|]. split; [lia|]. unfold set_ref, u16. by rewrite Z.mod_small by lia.
Qed.

Lemma free_cases addr s : pmm_ok s ->
  pmm_free_page addr s = s \/
  (let p := page_of addr s in 0 <= p < total_pages s /\ 0 < aget (refs s) p /\
     pmm_free_page addr s =
     if aget (refs s) p =? 1 then drop p s else set_ref p (aget (refs s) p - 1) s).
Proof.
  intros Hok. unfold pmm_free_page. pose proof (page_of_nonneg addr s).
  set (p := page_of addr s) in *.
  destruct (Z.ltb_spec p (total_pages s)) as [Hp|]; [|by left]. cbn [andb].
  rewrite (ok_used s Hok p) by lia. pose proof (ok_refs s Hok p ltac:(lia)).
  destruct (Z.eqb_spec (aget (refs s) p) 0); [by left|]. cbn [negb andb]. right. cbn zeta.
  split; [done|]. split; [lia|]. unfold set_ref, drop, u16. rewrite Z.mod_small by lia.
  destruct (Z.eqb_spec (aget (refs s) p - 1) 0), (Z.eqb_spec (aget (refs s) p) 1); try lia; [|done].
  cbn. by replace (aget (refs s) p - 1) with 0 by lia.
Qed.

Lemma reserve_loop_ok n p s : pmm_ok s -> 0 <= p -> p + Z.of_nat n <= total_pages s ->
  pmm_ok (reserve_loop n p s) /\ total_pages (reserve_loop n p s) = total_pages s /\
  (forall x, 0 <= x < total_pages s -> aget (refs (reserve_loop n p s)) x =
     if bool_decide (p <= x < p + Z.of_nat n /\ aget (refs s) x = 0) then 1 else aget (refs s) x).
Proof.
  revert p s. induction n as [|n IH]; intros p s Hok Hp Hn; cbn [reserve_loop].
  { split; [done|]. split; [done|]. intros x Hx. by rewrite bool_decide_eq_false_2 by lia. }
  rewrite (ok_used s Hok p) by lia.
  destruct (Z.eqb_spec (aget (refs s) p) 0) as [E|E]; cbn [negb].
  - set (s1 := set_free_pages _ _).
    assert (pmm_ok s1) as Hok1.
    { pose proof (take_ok p (next_free_hint s) s Hok ltac:(lia) E) as H. apply H.
      pose proof (ok_hint s Hok). lia. }
    destruct (IH (p + 1) s1 Hok1 ltac:(lia)) as (H1 & H2 & H3); [cbn; lia|].
    split; [done|]. split; [done|]. intros x Hx. rewrite H3 by done.
    change (refs s1) with (aset (refs s) p 1). rewrite aget_aset.
    case_decide; repeat case_bool_decide; subst; try lia; try done; intuition lia.
  - destruct (IH (p + 1) s Hok ltac:(lia)) as (H1 & H2 & H3); [lia|].
    split; [done|]. split; [done|]. intros x Hx. rewrite H3 by done.
    repeat case_bool_decide; try done; try lia.
    assert (x = p) as -> by lia. tauto.
Qed.

Lemma free_range_spec n p s :
  0 <= p -> 0 <= free_pages s -> free_pages s + Z.of_nat n < 4294967296 -> words_ok (bitmap s) ->
  let s' := free_range n p s in
  total_pages s' = total_pages s /\ phys_base s' = phys_base s /\
  next_free_hint s' = next_free_hint s /\ words_ok (bitmap s') /\
  free_pages s' = free_pages s + Z.of_nat n /\
  forall x, 0 <= x ->
    aget (refs s') x = (if bool_decide (p <= x < p + Z.of_nat n) then 0 else aget (refs s) x) /\
    bitmap_test x (bitmap s') =
      (if bool_decide (p <= x < p + Z.of_nat n) then false else bitmap_test x (bitmap s)).
Proof.
  revert p s. induction n as [|n IH]; intros p s Hp Hf0 Hf Hw; cbn [free_range].
  { do 5 (split; [first [done|lia]|]). intros x Hx. by rewrite !bool_decide_eq_false_2 by lia. }
  set (s1 := Pmm _ _ _ _ _ _).
  assert (free_pages s1 = free_pages s + 1) as E1 by (apply u32_small; lia).
  destruct (IH (p + 1) s1) as (H1 & H2 & H3 & H4 & H5 & H6); try lia; [by apply words_ok_clear|].
  do 5 (split; [first [done|lia]|]). intros x Hx. destruct (H6 x Hx) as [-> ->]. split.
  - change (refs s1) with (aset (refs s) p 0). rewrite aget_aset.
    case_decide; repeat case_bool_decide; try lia; done.
  - change (bitmap s1) with (bitmap_clear p (bitmap s)). rewrite bitmap_test_clear by done.
    destruct (Z.eqb_spec p x); repeat case_bool_decide; try lia; done.
Qed.

Lemma nfree_range r n a :
  0 <= a <= Z.of_nat n ->
  (forall x, 0 <= x < Z.of_nat n -> aget r x = if bool_decide (a <= x) then 0 else 1) ->
  nfree n r = Z.of_nat n - a.
Proof.
  induction n as [|n IH]; intros Ha H; cbn [nfree]; [lia|].
  rewrite (H (Z.of_nat n)) by lia. case_bool_decide; cbn [Z.eqb Z.b2z].
  - rewrite IH; [lia|lia|]. intros; apply H; lia.
  - assert (nfree n r = 0) as ->; [|lia]. apply nfree_zero. intros x Hx.
    rewrite H by lia. by rewrite bool_decide_eq_false_2 by lia.
Qed.

Lemma bitmap_test_full x b : 0 <= x < MAX_PAGES ->
  bitmap_test x (afill (Z.to_nat BITMAP_WORDS) b 0 0xffffffff) = true.
Proof.
  intros Hx. rewrite bitmap_test_bits by lia. rewrite aget_afill, bool_decide_eq_true_2.
  - apply (Z.ones_spec_low 32). apply Z.mod_pos_bound. lia.
  - unfold MAX_PAGES, BITMAP_WORDS in *. zlia.
Qed.

(** What the boot code must pass: an address range that does not wrap, the kernel at its start. *)
Definition boot_args (mem_top base kernel_end : Z) : Prop :=
  0 <= base < kernel_end /\ base <= mem_top < 4294967296 /\ kernel_end + PAGE_SIZE <= 4294967296.

Lemma pmm_init_spec mem_top base kernel_end s :
  boot_args mem_top base kernel_end -> 0 <= next_free_hint s <= MAX_PAGES -> words_ok (bitmap s) ->
  let s' := pmm_init mem_top base kernel_end s in
  pmm_ok s' /\ phys_base s' = base /\
  total_pages s' = Z.min MAX_PAGES ((mem_top - base) / PAGE_SIZE) /\
  (forall p, 0 <= p < total_pages s' ->
     aget (refs s') p = if bool_decide (kernel_end <= base + p * PAGE_SIZE) then 0 else 1).
Proof.
  intros (Hb & Hm & Hk) Hh Hw. unfold pmm_init.
  assert (PAGE_SIZE = 4096) as EP by done. rewrite EP in *.
  rewrite (u32_small (mem_top - base)), (u32_small (kernel_end - base + 4096 - 1)) by lia.
  assert ((if MAX_PAGES <? (mem_top - base) / 4096 then MAX_PAGES else (mem_top - base) / 4096) =
    Z.min MAX_PAGES ((mem_top - base) / 4096)) as -> by (destruct (Z.ltb_spec MAX_PAGES ((mem_top - base) / 4096)); lia).
  set (total := Z.min _ _). set (first := (kernel_end - base + 4096 - 1) / 4096).
  assert (0 <= total <= MAX_PAGES) by (unfold total, MAX_PAGES; zlia).
  assert (0 <= base + total * 4096 <= mem_top) by (unfold total; zlia).
  assert (0 < first) as Hfirst by (unfold first; zlia).
  assert (forall p, first <= p <-> kernel_end <= base + p * 4096) as Hfp by (intros; unfold first; zlia).
  set (s0 := Pmm _ _ _ _ _ _).
  assert (words_ok (bitmap s0)) as Hw0.
  { intros w. change (bitmap s0) with (afill (Z.to_nat BITMAP_WORDS) (bitmap s) 0 0xffffffff).
    rewrite aget_afill. case_bool_decide; [lia|apply Hw]. }
  destruct (free_range_spec (Z.to_nat (total - first)) first s0) as (H1 & H2 & H3 & H4 & H5 & H6);
    [lia|done|change (free_pages s0) with 0; unfold MAX_PAGES in *; lia|done|].
  assert (forall p, 0 <= p < total -> aget (refs s0) p = 1) as Hr0.
  { intros p Hp. change (refs s0) with (afill (Z.to_nat MAX_PAGES) (refs s) 0 1).
    rewrite aget_afill, bool_decide_eq_true_2; [done|unfold MAX_PAGES in *; lia]. }
  assert (forall p, 0 <= p < total -> aget (refs (free_range (Z.to_nat (total - first)) first s0)) p =
    if bool_decide (kernel_end <= base + p * 4096) then 0 else 1) as Hr.
  { intros p Hp. destruct (H6 p ltac:(lia)) as [-> _]. rewrite Hr0 by done. specialize (Hfp p).
    repeat case_bool_decide; try done; lia. }
  split; [|split; [done|split; [done|]]].
  2: { intros p Hp. apply Hr. rewrite H1 in Hp. done. }
  constructor; rewrite ?H1, ?H2, ?H3, ?H5; change (total_pages s0) with total;
    change (phys_base s0) with base; change (next_free_hint s0) with (next_free_hint s);
    change (free_pages s0) with 0; try done.
  - rewrite EP. lia.
  - unfold MAX_PAGES in *. lia.
  - intros p Hp. rewrite Hr by done. case_bool_decide; lia.
  - intros p Hp. rewrite Hr by done. destruct (H6 p ltac:(lia)) as [_ ->]. specialize (Hfp p).
    change (bitmap s0) with (afill (Z.to_nat BITMAP_WORDS) (bitmap s) 0 0xffffffff).
    rewrite bitmap_test_full by lia. repeat case_bool_decide; try done; lia.
  - destruct (Z.le_gt_cases first total).
    + rewrite (nfree_range _ _ first); [lia|lia|]. intros x Hx. rewrite Hr by lia. specialize (Hfp x).
      repeat case_bool_decide; try done; lia.
    + assert (nfree (Z.to_nat total) (refs (free_range (Z.to_nat (total - first)) first s0)) = 0) as ->; [|lia].
      apply nfree_zero. intros p Hp. rewrite Hr by lia. specialize (Hfp p).
      case_bool_decide; [lia|done].
Qed.

(** ** Theorems *)

Lemma refs_set_id r p : 0 <= p -> aeq (aset r p (aget r p)) r.
Proof. intros Hp i. rewrite aget_aset. by case_decide; subst. Qed.

(** [pmm_alloc_page] returns 0 exactly when no page is free, and otherwise the address of a
    page nobody holds, which becomes held once; nothing else changes hands.  The hypothesis on
    page 0 (used, or RAM not at address 0) is what makes 0 unambiguous. *)
Theorem pmm_alloc_page_correct s a s' :
  pmm_ok s -> phys_base s <> 0 \/ aget (refs s) 0 <> 0 -> pmm_alloc_page s = (a, s') ->
  pmm_ok s' /\
  (a = 0 <-> free_pages s = 0) /\
  (a = 0 -> s' = s) /\
  (a <> 0 -> exists p, a = phys_base s + p * PAGE_SIZE /\ allocated p s s' /\ page_of a s' = p).
Proof.
  intros Hok H0 E. destruct (alloc_page_cases s Hok) as [[E1 Hf]|(p & s1 & E1 & Hal & Hok1)];
    rewrite E1 in E; injection E as <- <-; [done|].
  pose proof (ok_base s Hok) as Hb. destruct Hal as (Hp & Hr & Hs & Hf & Ht & Hbb).
  pose proof (free_page_counts s p Hok Hp Hr).
  assert (phys_base s + p * PAGE_SIZE <> 0) as Hne.
  { unfold PAGE_SIZE. destruct H0 as [H0|H0]; [lia|]. destruct (decide (p = 0)) as [->|]; [congruence|lia]. }
  split; [done|]. split; [lia|]. split; [done|]. intros _. exists p. split; [done|]. split; [done|].
  rewrite <- Ht in Hp. rewrite <- Hbb. rewrite <- (Z.add_0_r (_ + _)).
  by apply page_of_addr.
Qed.

(** A machine with 16 pages of RAM at 0x80000000 and a kernel of two pages. *)
Definition pmm_example : pmm := pmm_init 0x80010000 0x80000000 0x80001800 (Pmm ∅ ∅ 0 0 0 0).
Lemma pmm_example_ok : pmm_ok pmm_example /\ phys_base pmm_example = 0x80000000.
Proof.
  destruct (pmm_init_spec 0x80010000 0x80000000 0x80001800 (Pmm ∅ ∅ 0 0 0 0)) as (H1 & H2 & _).
  - unfold boot_args, PAGE_SIZE. lia.
  - unfold MAX_PAGES. cbn. lia.
  - intros w. cbn. rewrite aget_empty. lia.
  - exact (conj H1 H2).
Qed.

Lemma pmm_alloc_page_correct_witness :
  fst (pmm_alloc_page pmm_example) = 0x80002000 /\
  (fst (pmm_alloc_page pmm_example) = 0 <-> free_pages pmm_example = 0).
Proof.
  split; [vm_compute; reflexivity|].
  assert (phys_base pmm_example <> 0) as Hb by (rewrite (proj2 pmm_example_ok); lia).
  exact (proj1 (proj2 (pmm_alloc_page_correct pmm_example _ _ (proj1 pmm_example_ok)
    (or_introl Hb) (surjective_pairing _)))).
Defined.

(** [pmm_alloc_contiguous] of two or more pages finds a run of free pages whenever one exists,
    takes exactly that run, and otherwise returns 0 and reserves nothing. *)
Theorem pmm_alloc_contiguous_correct count s a s' :
  pmm_ok s -> 1 < count -> pmm_alloc_contiguous count s = (a, s') ->
  pmm_ok s' /\
  ((a = 0 /\ s' = s /\ forall q, ~ free_run s q count) \/
   (exists q, free_run s q count /\ a = phys_base s + q * PAGE_SIZE /\
      free_pages s' = free_pages s - count /\
      forall x, aget (refs s') x = if bool_decide (q <= x < q + count) then 1 else aget (refs s) x)).
Proof.
  intros Hok Hc E.
  destruct (alloc_contiguous_cases count s Hok Hc) as [[E1 Hn]|(q & Hfr & E1)];
    rewrite E1 in E; injection E as <- <-.
  - split; [done|]. by left.
  - assert (Z.of_nat (Z.to_nat count) = count) as Ec by lia.
    destruct Hfr as (Hq0 & Hq1 & Hq2).
    pose proof (take_range_ok (Z.to_nat count) q s Hok Hq0 ltac:(lia) ltac:(by rewrite Ec)) as Hok'.
    rewrite Ec in Hok'. split; [done|]. right. exists q. split; [done|]. split; [done|]. split.
    + cbn. pose proof (ok_free _ Hok') as Hf. cbn in Hf. rewrite Hf.
      destruct (take_range_fields (Z.to_nat count) q s) as (-> & _).
      rewrite take_range_nfree by (try lia; by rewrite Ec). rewrite (ok_free s Hok). lia.
    + intros x. cbn [refs set_free_pages]. by rewrite take_range_refs, Ec.
Qed.

Lemma pmm_alloc_contiguous_correct_witness :
  fst (pmm_alloc_contiguous 3 pmm_example) = 0x80002000 /\
  pmm_ok (snd (pmm_alloc_contiguous 3 pmm_example)).
Proof.
  split; [vm_compute; reflexivity|].
  exact (proj1 (pmm_alloc_contiguous_correct 3 pmm_example _ _ (proj1 pmm_example_ok) ltac:(lia)
    (surjective_pairing _))).
Defined.

(** Reference counting: for an address in a held page, [pmm_retain_page] followed by
    [pmm_free_page] changes no count (below saturation at 65535 references), and the
    last [pmm_free_page] makes the page free again. *)
Theorem pmm_refcount s p k :
  pmm_ok s -> 0 <= p < total_pages s -> 0 <= k < PAGE_SIZE -> 0 < aget (refs s) p < 65535 ->
  let a := phys_base s + p * PAGE_SIZE + k in
  let s1 := pmm_free_page a (pmm_retain_page a s) in
  aeq (refs s1) (refs s) /\ free_pages s1 = free_pages s /\ pmm_ok s1 /\
  (aget (refs s) p = 1 ->
     aget (refs (pmm_free_page a s)) p = 0 /\ free_pages (pmm_free_page a s) = free_pages s + 1 /\
     pmm_ok (pmm_free_page a s)).
Proof.
  intros Hok Hp Hk Hr a s1.
  assert (page_of a s = p) as Ea by by apply page_of_addr. clearbody a.
  assert (pmm_retain_page a s = set_ref p (aget (refs s) p + 1) s) as E1.
  { unfold pmm_retain_page. rewrite Ea, (ok_used s Hok p) by done.
    replace (p <? total_pages s) with true by lia. replace (aget (refs s) p =? 0) with false by lia.
    replace (aget (refs s) p =? 65535) with false by lia. cbn [negb andb].
    unfold set_ref, u16. by rewrite Z.mod_small by lia. }
  assert (pmm_ok (set_ref p (aget (refs s) p + 1) s)) as Hok1 by (apply set_ref_ok; try done; lia).
  set (s2 := set_ref p (aget (refs s) p + 1) s) in *.
  assert (aget (refs s2) p = aget (refs s) p + 1) as Er2 by apply aget_aset_eq.
  assert (s1 = set_ref p (aget (refs s) p) s2) as E2.
  { unfold s1. rewrite E1. unfold pmm_free_page. change (page_of a s2) with (page_of a s).
    rewrite Ea, (ok_used s2 Hok1 p) by done. rewrite Er2.
    change (total_pages s2) with (total_pages s).
    replace (p <? total_pages s) with true by lia.
    replace (aget (refs s) p + 1 =? 0) with false by lia. cbn [negb andb].
    unfold u16. rewrite Z.mod_small by lia.
    replace (aget (refs s) p + 1 - 1) with (aget (refs s) p) by lia.
    by replace (aget (refs s) p =? 0) with false by lia. }
  split; [|split; [|split]].
  - rewrite E2. intros i. cbn [refs set_ref s2]. rewrite !aget_aset. by case_decide; subst.
  - by rewrite E2.
  - rewrite E2. apply set_ref_ok; try done; lia.
  - intros H1.
    assert (pmm_free_page a s = drop p s) as ->.
    { unfold pmm_free_page. rewrite Ea, (ok_used s Hok p), H1 by done.
      by replace (p <? total_pages s) with true by lia. }
    destruct (drop_ok p s Hok Hp) as [? ?]; [lia|].
    split; [apply aget_aset_eq|done].
Qed.

Lemma pmm_refcount_witness :
  let s1 := pmm_free_page 0x80001234 pmm_example in
  aget (refs s1) 1 = 0 /\ free_pages s1 = free_pages pmm_example + 1.
Proof.
  assert (0 <= 1 < total_pages pmm_example) as Ht by (vm_compute; split; congruence).
  assert (aget (refs pmm_example) 1 = 1) as Hr by (vm_compute; reflexivity).
  destruct (pmm_refcount pmm_example 1 0x234 (proj1 pmm_example_ok) Ht ltac:(unfold PAGE_SIZE; lia)
    ltac:(rewrite Hr; lia)) as (_ & _ & _ & H).
  destruct (H Hr) as (H1 & H2 & _). rewrite (proj2 pmm_example_ok) in H1, H2.
  split; [exact H1|exact H2].
Defined.

(** ** Reachable allocator states *)

Inductive pmm_step : pmm -> pmm -> Prop :=
  | step_alloc s : pmm_step s (snd (pmm_alloc_page s))
  | step_contiguous s count : 0 <= count -> pmm_step s (snd (pmm_alloc_contiguous count s))
  | step_retain s addr : pmm_step s (pmm_retain_page addr s)
  | step_free s addr : pmm_step s (pmm_free_page addr s)
  | step_reserve s lo hi : pmm_step s (pmm_reserve_range lo hi s).

Inductive pmm_reach : pmm -> Prop :=
  | reach_boot mem_top base kernel_end :
      boot_args mem_top base kernel_end ->
      pmm_reach (pmm_init mem_top base kernel_end (Pmm ∅ ∅ 0 0 0 0))
  | reach_next s s' : pmm_reach s -> pmm_step s s' -> pmm_reach s'.

Lemma pmm_boot_ok mem_top base kernel_end :
  boot_args mem_top base kernel_end -> pmm_ok (pmm_init mem_top base kernel_end (Pmm ∅ ∅ 0 0 0 0)).
Proof.
  intros Hb. refine (proj1 (pmm_init_spec mem_top base kernel_end _ Hb _ _)).
  - unfold MAX_PAGES. cbn. lia.
  - intros w. cbn. rewrite aget_empty. lia.
Qed.

Lemma alloc_page_ok s : pmm_ok s -> pmm_ok (snd (pmm_alloc_page s)).
Proof.
  intros Hok. destruct (alloc_page_cases s Hok) as [[E1 Hf]|(p & s1 & E1 & Hal & Hok1)]; by rewrite E1.
Qed.

Lemma alloc_contiguous_ok count s : pmm_ok s -> 0 <= count -> pmm_ok (snd (pmm_alloc_contiguous count s)).
Proof.
  intros Hok Hc. destruct (decide (count <= 1)) as [Hle|Hgt].
  - unfold pmm_alloc_contiguous. destruct (Z.eqb_spec count 0); [done|].
    assert (count = 1) as -> by lia. cbn [orb Z.eqb Pos.eqb].
    destruct (_ <? _); [done|by apply alloc_page_ok].
  - destruct (alloc_contiguous_cases count s Hok ltac:(lia)) as [[E1 Hn]|(q & (Hq0 & Hq1 & Hq2) & E1)];
      rewrite E1; cbn [snd]; [done|].
    assert (Z.of_nat (Z.to_nat count) = count) as Ec by lia.
    pose proof (take_range_ok (Z.to_nat count) q s Hok Hq0 ltac:(lia) ltac:(by rewrite Ec)) as H.
    by rewrite Ec in H.
Qed.

(** C29: whatever the kernel does with the allocator after boot, [free_pages] is the number of
    unreferenced pages, the bitmap agrees with the counts, and every count stays in 16 bits. *)
Theorem pmm_reach_ok s : pmm_reach s -> pmm_ok s.
Proof.
  induction 1 as [|s s' Hr IH Hstep]; [by apply pmm_boot_ok|].
  destruct Hstep as [s|s count Hc|s addr|s addr|s lo hi].
  - by apply alloc_page_ok.
  - by apply alloc_contiguous_ok.
  - destruct (retain_cases addr s IH) as [->|(Hp & Hc & ->)]; [done|]. apply set_ref_ok; try done; lia.
  - destruct (free_cases addr s IH) as [->|(Hp & Hc & ->)]; [done|].
    destruct (Z.eqb_spec (aget (refs s) (page_of addr s)) 1).
    + apply drop_ok; try done; lia.
    + pose proof (ok_refs s IH _ Hp). apply set_ref_ok; try done; lia.
  - unfold pmm_reserve_range. pose proof (ok_total s IH).
    assert (0 <= u32 (lo - phys_base s) / PAGE_SIZE)
      by (apply Z.div_pos; [apply u32_bound|unfold PAGE_SIZE; lia]).
    destruct (Z.ltb_spec (total_pages s) (u32 (hi - phys_base s + PAGE_SIZE - 1) / PAGE_SIZE)).
    + destruct (Z.le_gt_cases (u32 (lo - phys_base s) / PAGE_SIZE) (total_pages s)).
      * apply reserve_loop_ok; try done; lia.
      * by replace (Z.to_nat _) with 0%nat by lia.
    + destruct (Z.le_gt_cases (u32 (lo - phys_base s) / PAGE_SIZE)
        (u32 (hi - phys_base s + PAGE_SIZE - 1) / PAGE_SIZE)).
      * apply reserve_loop_ok; try done; lia.
      * by replace (Z.to_nat _) with 0%nat by lia.
Qed.

Lemma pmm_reach_ok_witness : pmm_ok (snd (pmm_alloc_page pmm_example)).
Proof.
  apply pmm_reach_ok, (reach_next pmm_example); [|apply step_alloc].
  apply reach_boot. unfold boot_args, PAGE_SIZE. lia.
Defined.
