(* ===== verification/Paging.v ===== *)
(** Sv39 page tables and copy-on-write of the riscv64 kernel ([src/kernel/arch/risc/riscv64_paging.c],
    [src/kernel/mm/paging_common.c]): definitions.

    Physical memory is identity-mapped, so a table pointer is its physical address and [t[i]] is the
    64-bit word at [t + 8 i].  [None] is the loop [for (;;) riscv_wfi();] after a FATAL message.
    [sfence.vma] has no effect on this state: the processor's TLB is the emulator's subject.  The
    static [root_table]'s address is the parameter [RT]; [process_handle_stack_fault], of another
    component, is the parameter [stack_fault]. *)
From S2P Require Import Prelude Pmm.

Definition ENTRIES : nat := 512.
Definition PTE_PRESENT : Z := 0x00b.
Definition PTE_WRITABLE : Z := 0x004.
Definition PTE_USER : Z := 0x010.
Definition PTE_COW : Z := 0x100.
Definition RV64_RAM_BASE : Z := 0x80000000.
Definition RV64_MEM_TOP : Z := 0x88000000.
Definition SATP_MODE_SV39 : Z := Z.shiftl 8 60.

Record vm := Vm { vmem : gmap Z Z; vpmm : pmm; active_root : Z; satp : Z }.
Definition set_vmem (m : gmap Z Z) (s : vm) : vm := Vm m (vpmm s) (active_root s) (satp s).
Definition set_vpmm (p : pmm) (s : vm) : vm := Vm (vmem s) p (active_root s) (satp s).

Definition rd (m : gmap Z Z) (a : Z) : Z := mget 8 m a.
Definition wr (a v : Z) (s : vm) : vm := set_vmem (mput 8 (vmem s) a v) s.
(** The address of [t[i]], the index of [virt] at a level, the table an entry points to. *)
Definition slot (t i : Z) : Z := t + 8 * i.
Definition vpn (virt level : Z) : Z := Z.land (Z.shiftr virt (12 + 9 * level)) 0x1ff.
Definition pte_table (e : Z) : Z := u64 (Z.shiftl (Z.shiftr e 10) 12).
(** [((phys >> 12) << PPN_SHIFT) | flags] *)
Definition mk_pte (phys flags : Z) : Z := Z.lor (u64 (Z.shiftl (Z.shiftr phys 12) 10)) flags.

(** [for (int i = 0; i < ENTRIES; i++) t[i] = 0;] *)
Fixpoint zero_table (n : nat) (t i : Z) (m : gmap Z Z) : gmap Z Z :=
  match n with
  | O => m
  | S n => zero_table n t (i + 1) (mput 8 m (slot t i) 0)
  end.

Definition alloc_table (s : vm) : option (Z * vm) :=
  let '(phys, p) := pmm_alloc_page (vpmm s) in
  if phys =? 0 then None
  else Some (phys, set_vmem (zero_table ENTRIES phys 0 (vmem s)) (set_vpmm p s)).

(** One level of the walk: the next table; the inner [None] is [return 0]. *)
Definition walk_level (create : bool) (table idx : Z) (s : vm) : option (option Z * vm) :=
  if negb (tst (rd (vmem s) (slot table idx)) 1) then
    if create then
      match alloc_table s with
      | None => None
      | Some (next, s) =>
          let s := wr (slot table idx) (mk_pte next 1) s in
          Some (Some (pte_table (rd (vmem s) (slot table idx))), s)
      end
    else Some (None, s)
  else Some (Some (pte_table (rd (vmem s) (slot table idx))), s).

Definition get_pte_in (root virt : Z) (create : bool) (s : vm) : option (option Z * vm) :=
  match walk_level create root (vpn virt 2) s with
  | None => None
  | Some (None, s) => Some (None, s)
  | Some (Some t1, s) =>
      match walk_level create t1 (vpn virt 1) s with
      | None => None
      | Some (None, s) => Some (None, s)
      | Some (Some t0, s) => Some (Some (slot t0 (vpn virt 0)), s)
      end
  end.

Definition paging_map_page_in (root virt phys flags : Z) (s : vm) : option vm :=
  match get_pte_in root virt true s with
  | Some (Some pte, s) => Some (wr pte (mk_pte phys flags) s)
  | _ => None
  end.
Definition paging_map_page (virt phys flags : Z) (s : vm) : option vm :=
  paging_map_page_in (active_root s) virt phys flags s.

(** The lookups create nothing, so they return a value only. *)
Definition lookup_pte (root virt : Z) (s : vm) : option Z :=
  match get_pte_in root virt false s with
  | Some (Some a, _) => Some (rd (vmem s) a)
  | _ => None
  end.
Definition paging_get_phys_in (root virt : Z) (s : vm) : Z :=
  match lookup_pte root virt s with
  | Some pte => if negb (tst pte 1) then 0 else Z.lor (pte_table pte) (Z.land virt 0xfff)
  | None => 0
  end.
Definition paging_get_phys (virt : Z) (s : vm) : Z := paging_get_phys_in (active_root s) virt s.
Definition paging_get_flags_in (root virt : Z) (s : vm) : Z :=
  match lookup_pte root virt s with
  | Some pte => if negb (tst pte 1) then 0 else Z.land pte 0x3ff
  | None => 0
  end.
Definition paging_get_flags (virt : Z) (s : vm) : Z := paging_get_flags_in (active_root s) virt s.

Definition paging_activate (root : Z) (s : vm) : vm :=
  Vm (vmem s) (vpmm s) root (Z.lor SATP_MODE_SV39 (Z.shiftr root 12)).
Definition paging_active_root (s : vm) : Z := active_root s.

(** ** Address spaces *)

Section root.
Context (RT : Z).

Definition share_l1_slot (dst_root va : Z) (s : vm) : option vm :=
  let l2idx := Z.land (Z.shiftr va 30) 0x1ff in
  let l2ent := rd (vmem s) (slot RT l2idx) in
  if negb (tst l2ent 1) then Some s
  else
    let l1idx := Z.land (Z.shiftr va 21) 0x1ff in
    let l1ent := rd (vmem s) (slot (pte_table l2ent) l1idx) in
    if negb (tst l1ent 1) then Some s
    else
      let dst_l2ent := rd (vmem s) (slot dst_root l2idx) in
      if negb (tst dst_l2ent 1) then
        match alloc_table s with
        | None => None
        | Some (dst_l1, s) =>
            let s := wr (slot dst_root l2idx) (mk_pte dst_l1 1) s in
            Some (wr (slot dst_l1 l1idx) l1ent s)
        end
      else Some (wr (slot (pte_table dst_l2ent) l1idx) l1ent s).

(** [for (va = ...; n windows of 2 MB left; va += 1 << 21) share_l1_slot(root, va);] *)
Fixpoint share_loop (n : nat) (root va : Z) (s : vm) : option vm :=
  match n with
  | O => Some s
  | S n =>
      match share_l1_slot root va s with
      | None => None
      | Some s => share_loop n root (va + 0x200000) s
      end
  end.
Definition paging_new_addrspace (s : vm) : option (Z * vm) :=
  match alloc_table s with
  | None => None
  | Some (root, s) =>
      match share_loop (Z.to_nat ((RV64_MEM_TOP - RV64_RAM_BASE) / 0x200000)) root RV64_RAM_BASE s with
      | None => None
      | Some s =>
          match share_l1_slot root 0x10000000 s with
          | None => None
          | Some s => Some (root, s)
          end
      end
  end.

Definition free_at (a : Z) (s : vm) : vm := set_vpmm (pmm_free_page (u32 a) (vpmm s)) s.

(** The three nested loops of [paging_destroy_addrspace], innermost first. *)
Fixpoint destroy_l0 (n : nat) (l0 j : Z) (s : vm) : vm :=
  match n with
  | O => s
  | S n =>
      let pte := rd (vmem s) (slot l0 j) in
      destroy_l0 n l0 (j + 1)
        (if Z.land pte (Z.lor 1 PTE_USER) =? Z.lor 1 PTE_USER then free_at (pte_table pte) s else s)
  end.
Fixpoint destroy_l1 (n : nat) (l1 : Z) (master_l1 : option Z) (i : Z) (s : vm) : vm :=
  match n with
  | O => s
  | S n =>
      let e := rd (vmem s) (slot l1 i) in
      let shared := match master_l1 with Some t => e =? rd (vmem s) (slot t i) | None => false end in
      destroy_l1 n l1 master_l1 (i + 1)
        (if negb (tst e 1) || shared then s
         else free_at (pte_table e) (destroy_l0 ENTRIES (pte_table e) 0 s))
  end.
Fixpoint destroy_l2 (n : nat) (root l2 : Z) (s : vm) : vm :=
  match n with
  | O => s
  | S n =>
      let e := rd (vmem s) (slot root l2) in
      let master := rd (vmem s) (slot RT l2) in
      destroy_l2 n root (l2 + 1)
        (if negb (tst e 1) then s
         else free_at (pte_table e)
                (destroy_l1 ENTRIES (pte_table e) (if tst master 1 then Some (pte_table master) else None) 0 s))
  end.
Definition paging_destroy_addrspace (root : Z) (s : vm) : vm :=
  if (root =? 0) || (root =? RT) then s else free_at root (destroy_l2 ENTRIES root 0 s).

Fixpoint fork_l0 (n : nat) (dst l2 i l0 j : Z) (s : vm) : option vm :=
  match n with
  | O => Some s
  | S n =>
      let pte := rd (vmem s) (slot l0 j) in
      if negb (Z.land pte (Z.lor 1 PTE_USER) =? Z.lor 1 PTE_USER) then fork_l0 n dst l2 i l0 (j + 1) s
      else
        let phys := pte_table pte in
        let flags := Z.lor (Z.land (Z.land pte 0x3ff) (not64 PTE_WRITABLE)) PTE_COW in
        let va := Z.lor (Z.lor (Z.shiftl l2 30) (Z.shiftl i 21)) (Z.shiftl j 12) in
        let s := wr (slot l0 j) (mk_pte phys flags) s in
        let s := set_vpmm (pmm_retain_page (u32 phys) (vpmm s)) s in
        match paging_map_page_in dst va phys flags s with
        | None => None
        | Some s => fork_l0 n dst l2 i l0 (j + 1) s
        end
  end.
Fixpoint fork_l1 (n : nat) (dst l2 l1 i : Z) (s : vm) : option vm :=
  match n with
  | O => Some s
  | S n =>
      let e := rd (vmem s) (slot l1 i) in
      if negb (tst e 1) then fork_l1 n dst l2 l1 (i + 1) s
      else
        match fork_l0 ENTRIES dst l2 i (pte_table e) 0 s with
        | None => None
        | Some s => fork_l1 n dst l2 l1 (i + 1) s
        end
  end.
Fixpoint fork_l2 (n : nat) (dst src l2 : Z) (s : vm) : option vm :=
  match n with
  | O => Some s
  | S n =>
      let e := rd (vmem s) (slot src l2) in
      if negb (tst e 1) then fork_l2 n dst src (l2 + 1) s
      else
        match fork_l1 ENTRIES dst l2 (pte_table e) 0 s with
        | None => None
        | Some s => fork_l2 n dst src (l2 + 1) s
        end
  end.
Definition paging_fork_user (dst src : Z) (s : vm) : option vm := fork_l2 ENTRIES dst src 0 s.

(** The identity map of [paging_init]: [n] pages left. *)
Fixpoint map_identity (n : nat) (addr : Z) (s : vm) : option vm :=
  match n with
  | O => Some s
  | S n =>
      match paging_map_page addr addr (Z.lor PTE_PRESENT PTE_WRITABLE) s with
      | None => None
      | Some s => map_identity n (addr + PAGE_SIZE) s
      end
  end.
Definition paging_init (mem_top : Z) (s : vm) : option vm :=
  let s := Vm (zero_table ENTRIES RT 0 (vmem s)) (vpmm s) RT (satp s) in
  match map_identity (Z.to_nat ((mem_top - RV64_RAM_BASE + PAGE_SIZE - 1) / PAGE_SIZE)) RV64_RAM_BASE s with
  | None => None
  | Some s =>
      match paging_map_page 0x10000000 0x10000000 (Z.lor PTE_PRESENT PTE_WRITABLE) s with
      | None => None
      | Some s => Some (Vm (vmem s) (vpmm s) (active_root s) (Z.lor SATP_MODE_SV39 (Z.shiftr RT 12)))
      end
  end.
End root.

(** ** Copy-on-write ([paging_common.c]) *)

(** The inner [bool] is the C return value. *)
Definition fix_cow_page (page : Z) (s : vm) : option (bool * vm) :=
  let old_phys := Z.land (paging_get_phys page s) (not64 0xfff) in
  let flags := paging_get_flags page s in
  let '(new_phys, p) := pmm_alloc_page (vpmm s) in
  let s := set_vpmm p s in
  if new_phys =? 0 then Some (false, s)
  else
    let s := set_vmem (acopy (Z.to_nat PAGE_SIZE) new_phys old_phys (vmem s)) s in
    match paging_map_page page new_phys (Z.lor (Z.lor PTE_PRESENT PTE_WRITABLE) (Z.land flags PTE_USER)) s with
    | None => None
    | Some s => Some (true, set_vpmm (pmm_free_page (u32 old_phys) (vpmm s)) s)
    end.

Definition PAGE_FAULT_FIXED : Z := 0.
Definition PAGE_FAULT_FATAL : Z := 1.

Definition paging_handle_fault (stack_fault : Z -> vm -> option (bool * vm)) (fault_addr : Z)
  (is_write from_user : bool) (s : vm) : option (Z * vm) :=
  let page := Z.land fault_addr (not64 0xfff) in
  let flags := paging_get_flags page s in
  if is_write && tst flags PTE_PRESENT && tst flags PTE_COW then
    match fix_cow_page page s with
    | None => None
    | Some (ok, s) => Some (if ok then PAGE_FAULT_FIXED else PAGE_FAULT_FATAL, s)
    end
  else if from_user && negb (tst flags PTE_PRESENT) then
    match stack_fault fault_addr s with
    | None => None
    | Some (ok, s) => Some (if ok then PAGE_FAULT_FIXED else PAGE_FAULT_FATAL, s)
    end
  else Some (PAGE_FAULT_FATAL, s).

(** riscv64_paging.c's trap wrapper: [None] is the loop after the FATAL message. *)
Definition page_fault_handler (stack_fault : Z -> vm -> option (bool * vm)) (scause stval sstatus : Z) (s : vm)
  : option vm :=
  let fault_addr := stval in
  let is_write := scause =? 15 in
  let from_user := negb (tst sstatus 0x100) in
  match paging_handle_fault stack_fault fault_addr is_write from_user s with
  | Some (r, s) => if r =? PAGE_FAULT_FIXED then Some s else None
  | None => None
  end.

(** The loop of [paging_ensure_writable]; it stops when [page > end], so it needs fuel: a range that
    ends in the last page of the address space never stops. *)
Fixpoint ensure_loop (fuel : nat) (page end_ : Z) (s : vm) : option vm :=
  match fuel with
  | O => None
  | S fuel =>
      if negb (page <=? end_) then Some s
      else
        let flags := paging_get_flags page s in
        match (if tst flags PTE_PRESENT && tst flags PTE_COW then fix_cow_page page s else Some (true, s)) with
        | None => None
        | Some (_, s) => ensure_loop fuel (u64 (page + PAGE_SIZE)) end_ s
        end
  end.
Definition paging_ensure_writable (addr len : Z) (s : vm) : option vm :=
  if len =? 0 then Some s
  else
    let start := Z.land addr (not64 0xfff) in
    let end_ := Z.land (u64 (addr + len - 1)) (not64 0xfff) in
    ensure_loop (Z.to_nat ((end_ - start) / PAGE_SIZE + 2)) start end_ s.

Fixpoint fork_cow_loop (n : nat) (dst_root src_root va : Z) (s : vm) : option vm :=
  match n with
  | O => Some s
  | S n =>
      let phys := paging_get_phys_in src_root va s in
      let flags := paging_get_flags_in src_root va s in
      if (phys =? 0) || negb (tst flags PTE_PRESENT) then fork_cow_loop n dst_root src_root (va + PAGE_SIZE) s
      else
        let new_flags := Z.lor (Z.land flags (not64 PTE_WRITABLE)) PTE_COW in
        let phys := Z.land phys (not64 0xfff) in
        let s := set_vpmm (pmm_retain_page (u32 phys) (vpmm s)) s in
        match paging_map_page_in src_root va phys new_flags s with
        | None => None
        | Some s =>
            match paging_map_page_in dst_root va phys new_flags s with
            | None => None
            | Some s => fork_cow_loop n dst_root src_root (va + PAGE_SIZE) s
            end
        end
  end.
Definition paging_fork_cow (dst_root src_root lo hi : Z) (s : vm) : option vm :=
  fork_cow_loop (Z.to_nat ((hi - lo + PAGE_SIZE - 1) / PAGE_SIZE)) dst_root src_root lo s.
