(* ===== verification/PagingInv.v ===== *)
(** The page tables the kernel builds: a tree of distinct pages, on which mapping a page changes the
    translation of that page and of nothing else. *)
From S2P Require Import Prelude Pmm Paging.

(** ** Words and entries *)

Lemma rd_bound m a : bytes_ok m -> isu64 (rd m a).
Proof. intros. by apply mget_isu64. Qed.

Lemma rd_same m a v : isu64 v -> rd (mput 8 m a v) a = v.
Proof. intros. unfold rd. rewrite mget_mput_same. by apply Z.mod_small. Qed.

Lemma rd_other m a b v : a + 8 <= b \/ b + 8 <= a -> rd (mput 8 m a v) b = rd m b.
Proof. intros. unfold rd. apply mget_mput_other. lia. Qed.

Lemma rd_ext m m' a : (forall i, a <= i < a + 8 -> aget m' i = aget m i) -> rd m' a = rd m a.
Proof. intros H. apply mget_ext. intros i Hi. apply H. lia. Qed.

Lemma vpn_bound virt level : 0 <= vpn virt level < 512.
Proof. unfold vpn. by apply (land_bound_r 9). Qed.

(** A physical address the entries can hold: page aligned, below 2^32. *)
Definition page_addr (t : Z) : Prop := 0 <= t < 4294967296 /\ t mod 4096 = 0.

Lemma mk_pte_val phys flags : page_addr phys -> 0 <= flags < 1024 ->
  mk_pte phys flags = phys / 4096 * 1024 + flags.
Proof.
  intros [Hp Hm] Hf. unfold mk_pte. rewrite Z.shiftr_div_pow2, Z.shiftl_mul_pow2 by lia.
  change (2 ^ 12) with 4096. change (2 ^ 10) with 1024.
  rewrite u64_small by zlia. change 1024 with (2 ^ 10). by apply lor_add.
Qed.

Lemma mk_pte_isu64 phys flags : page_addr phys -> 0 <= flags < 1024 -> isu64 (mk_pte phys flags).
Proof. intros Hp Hf. rewrite mk_pte_val by done. destruct Hp. zlia. Qed.

Lemma pte_table_mk phys flags : page_addr phys -> 0 <= flags < 1024 ->
  pte_table (mk_pte phys flags) = phys.
Proof.
  intros Hp Hf. rewrite mk_pte_val by done. destruct Hp as [Hp Hm]. unfold pte_table.
  rewrite Z.shiftr_div_pow2, Z.shiftl_mul_pow2 by lia.
  change (2 ^ 12) with 4096. change (2 ^ 10) with 1024. rewrite u64_small by zlia. zlia.
Qed.

Lemma mk_pte_flags phys flags : page_addr phys -> 0 <= flags < 1024 ->
  Z.land (mk_pte phys flags) 0x3ff = flags.
Proof.
  intros Hp Hf. rewrite mk_pte_val by done. change 0x3ff with (2 ^ 10 - 1).
  rewrite land_ones_mod by lia. change (2 ^ 10) with 1024. destruct Hp. zlia.
Qed.

Lemma mk_pte_tst phys flags k : page_addr phys -> 0 <= flags < 1024 -> 0 <= k < 1024 ->
  tst (mk_pte phys flags) k = tst flags k.
Proof.
  intros Hp Hf Hk. unfold tst. do 2 f_equal.
  rewrite <- (mk_pte_flags phys flags) at 2 by done. rewrite <- Z.land_assoc. f_equal.
  rewrite Z.land_comm. change 0x3ff with (2 ^ 10 - 1). rewrite land_ones_mod by lia.
  symmetry. apply Z.mod_small. lia.
Qed.

Lemma slot_inj t i t' i' : 0 <= i < 512 -> 0 <= i' < 512 -> page_addr t -> page_addr t' ->
  (t = t' /\ i = i') \/ slot t i + 8 <= slot t' i' \/ slot t' i' + 8 <= slot t i.
Proof. unfold slot, page_addr. intros. destruct (decide (t = t' /\ i = i')); [by left|right]. zlia. Qed.

Lemma slot_page t i t' : 0 <= i < 512 -> page_addr t -> page_addr t' -> t <> t' ->
  slot t i + 8 <= t' \/ t' + 4096 <= slot t i.
Proof. unfold slot, page_addr. intros. zlia. Qed.

(** ** The tree of tables *)

Definition child (m : gmap Z Z) (t i : Z) : option Z :=
  let e := rd m (slot t i) in if tst e 1 then Some (pte_table e) else None.

(** The table reached from [t] along a list of indices. *)
Fixpoint table_at (m : gmap Z Z) (t : Z) (path : list Z) : option Z :=
  match path with
  | [] => Some t
  | i :: path => match child m t i with Some t' => table_at m t' path | None => None end
  end.

Definition path_ok (path : list Z) : Prop := Forall (fun i => 0 <= i < 512) path /\ (length path <= 2)%nat.

(** [t] is a page the allocator has handed out (or the kernel's own image). *)
Definition held (p : pmm) (t : Z) : Prop :=
  exists k, 0 <= k < total_pages p /\ aget (refs p) k <> 0 /\ t = phys_base p + k * PAGE_SIZE.

Record pt_ok (m : gmap Z Z) (p : pmm) (root : Z) : Prop := {
  pt_bytes : bytes_ok m;
  pt_pmm : pmm_ok p;
  pt_base : phys_base p <> 0 /\ phys_base p mod 4096 = 0;
  pt_held : forall path t, path_ok path -> table_at m root path = Some t -> held p t;
  pt_inj : forall q q' t, path_ok q -> path_ok q' ->
    table_at m root q = Some t -> table_at m root q' = Some t -> q = q';
  pt_entry : forall path t i, path_ok path -> (length path <= 1)%nat -> 0 <= i < 512 ->
    table_at m root path = Some t -> tst (rd m (slot t i)) 1 = true ->
    exists t', rd m (slot t i) = mk_pte t' 1 /\ page_addr t'
}.

Lemma held_page p t : pmm_ok p -> phys_base p mod 4096 = 0 -> held p t -> page_addr t.
Proof.
  intros Hp Hb (k & Hk & _ & ->). pose proof (ok_base p Hp). unfold page_addr, PAGE_SIZE in *. zlia.
Qed.

Lemma pt_page m p root path t : pt_ok m p root -> path_ok path -> table_at m root path = Some t -> page_addr t.
Proof. intros H Hp Ht. eapply held_page; [apply H|apply H|]. by eapply pt_held. Qed.

Lemma table_at_app m t q q' :
  table_at m t (q ++ q') = match table_at m t q with Some t' => table_at m t' q' | None => None end.
Proof. revert t. induction q as [|i q IH]; intros t; [done|]. cbn. destruct (child m t i); [apply IH|done]. Qed.

Lemma path_ok_nil : path_ok [].
Proof. split; [apply Forall_nil_2|cbn; lia]. Qed.
Lemma path_ok_snoc path i : path_ok path -> (length path <= 1)%nat -> 0 <= i < 512 -> path_ok (path ++ [i]).
Proof.
  intros [H1 _] H2 Hi. split; [apply Forall_app; split; [done|by apply Forall_singleton]|].
  rewrite length_app. cbn. lia.
Qed.
Lemma path_ok_prefix q q' : path_ok (q ++ q') -> path_ok q.
Proof. intros [H1 H2]. apply Forall_app in H1 as [H1 _]. rewrite length_app in H2. split; [done|lia]. Qed.

(** A path to a table reads one entry in each table before it. *)
Lemma table_at_ext m m' root q :
  (forall q1 i q2 t, q = q1 ++ i :: q2 -> table_at m root q1 = Some t -> rd m' (slot t i) = rd m (slot t i)) ->
  table_at m' root q = table_at m root q.
Proof.
  revert root. induction q as [|i q IH]; intros root H; [done|]. cbn [table_at].
  assert (child m' root i = child m root i) as ->.
  { unfold child. by rewrite (H [] i q root). }
  destruct (child m root i) as [t|] eqn:E; [|done]. apply IH.
  intros q1 j q2 t' -> Ht. apply (H (i :: q1) j q2 t'); [done|]. cbn. by rewrite E.
Qed.

(** Writes that avoid every table page, and one entry at most, keep the paths that avoid it. *)
Definition same_words (m m' : gmap Z Z) (root : Z) (except : Z -> Z -> Prop) : Prop :=
  forall path t i, path_ok path -> table_at m root path = Some t -> 0 <= i < 512 ->
    ~ except t i -> rd m' (slot t i) = rd m (slot t i).

Lemma same_words_path m m' root except q :
  same_words m m' root except -> path_ok q ->
  (forall q1 i q2 t, q = q1 ++ i :: q2 -> table_at m root q1 = Some t -> ~ except t i) ->
  table_at m' root q = table_at m root q.
Proof.
  intros Hs Hq Hex. apply table_at_ext. intros q1 i q2 t -> Ht. apply (Hs q1).
  - by eapply path_ok_prefix.
  - done.
  - destruct Hq as [Hq _]. apply Forall_app in Hq as [_ Hq]. by apply Forall_cons in Hq as [Hq _].
  - by apply (Hex q1 i q2 t).
Qed.

(** ** Allocating a table *)

Lemma zero_table_other n t i m a : 0 <= i ->
  ~ (slot t i <= a < slot t (i + Z.of_nat n)) -> aget (zero_table n t i m) a = aget m a.
Proof.
  unfold slot. revert i m. induction n as [|n IH]; intros i m Hi Ha; cbn [zero_table]; [done|].
  rewrite IH by lia. apply aget_mput_other. unfold slot. lia.
Qed.

Lemma zero_table_word n t i m j : 0 <= i -> i <= j < i + Z.of_nat n ->
  rd (zero_table n t i m) (slot t j) = 0.
Proof.
  revert i m. induction n as [|n IH]; intros i m Hi Hj; cbn [zero_table]; [lia|].
  destruct (decide (j = i)) as [->|].
  - rewrite (rd_ext (mput 8 m (slot t i) 0)); [by apply rd_same|].
    intros a Ha. apply zero_table_other; [lia|]. unfold slot in *. lia.
  - apply IH; lia.
Qed.

Lemma zero_table_bytes n t i m : bytes_ok m -> bytes_ok (zero_table n t i m).
Proof. revert i m. induction n as [|n IH]; intros i m H; [done|]. apply IH. by apply bytes_ok_mput. Qed.

Lemma alloc_table_spec s :
  pmm_ok (vpmm s) -> phys_base (vpmm s) <> 0 -> bytes_ok (vmem s) ->
  alloc_table s = None \/
  exists k s', alloc_table s = Some (phys_base (vpmm s) + k * PAGE_SIZE, s') /\
    let t := phys_base (vpmm s) + k * PAGE_SIZE in
    allocated k (vpmm s) (vpmm s') /\ pmm_ok (vpmm s') /\ bytes_ok (vmem s') /\
    (forall j, 0 <= j < 512 -> rd (vmem s') (slot t j) = 0) /\
    (forall a, ~ (t <= a < t + 4096) -> aget (vmem s') a = aget (vmem s) a) /\
    active_root s' = active_root s /\ satp s' = satp s.
Proof.
  intros Hp Hb Hm. unfold alloc_table.
  destruct (alloc_page_cases (vpmm s) Hp) as [[E _]|(k & p' & E & Hal & Hok)]; rewrite E.
  - by left.
  - right. pose proof (ok_base _ Hp). destruct Hal as (Hk & Hal). unfold PAGE_SIZE in *.
    replace (phys_base (vpmm s) + k * 4096 =? 0) with false by lia. eexists k, _. split; [done|].
    cbn [vmem vpmm set_vmem set_vpmm active_root satp]. split; [done|]. split; [done|].
    split; [by apply zero_table_bytes|]. split; [|split; [|done]].
    + intros j Hj. apply zero_table_word; [lia|]. unfold ENTRIES. lia.
    + intros a Ha. apply zero_table_other; [lia|]. unfold slot, ENTRIES. lia.
Qed.

Lemma allocated_held k p p' x : allocated k p p' -> held p x -> held p' x.
Proof.
  intros (Hk & H0 & Hr & _ & Ht & Hb) (j & Hj & Hrj & ->). exists j. rewrite Ht, Hb, Hr.
  split; [done|]. split; [|done]. rewrite aget_aset. by case_decide.
Qed.
Lemma allocated_new k p p' : allocated k p p' ->
  held p' (phys_base p + k * PAGE_SIZE) /\ ~ held p (phys_base p + k * PAGE_SIZE).
Proof.
  intros (Hk & H0 & Hr & _ & Ht & Hb). split.
  - exists k. rewrite Ht, Hb, Hr, aget_aset_eq. done.
  - intros (j & Hj & Hrj & E). assert (j = k) as -> by (unfold PAGE_SIZE in *; lia). done.
Qed.

(** ** One level of the walk *)

(** The valid leaf entry for [virt]. *)
Definition vleaf (m : gmap Z Z) (root virt : Z) : option Z :=
  match table_at m root [vpn virt 2; vpn virt 1] with
  | Some t0 => let e := rd m (slot t0 (vpn virt 0)) in if tst e 1 then Some e else None
  | None => None
  end.

(** [s'] extends the tables of [s] under [root] without changing any translation. *)
Record extends (root : Z) (s s' : vm) : Prop := {
  ex_ok : pt_ok (vmem s') (vpmm s') root;
  ex_tables : forall q t, path_ok q -> table_at (vmem s) root q = Some t -> table_at (vmem s') root q = Some t;
  ex_new : forall q t, path_ok q -> table_at (vmem s') root q = Some t ->
    table_at (vmem s) root q = Some t \/ ~ held (vpmm s) t;
  ex_leaf : forall virt, vleaf (vmem s') root virt = vleaf (vmem s) root virt;
  ex_frame : forall a,
    (forall q t, path_ok q -> table_at (vmem s') root q = Some t -> ~ (t <= a < t + 4096)) ->
    aget (vmem s') a = aget (vmem s) a;
  ex_refs : forall k, aget (refs (vpmm s)) k <> 0 -> aget (refs (vpmm s')) k = aget (refs (vpmm s)) k;
  ex_range : total_pages (vpmm s') = total_pages (vpmm s) /\ phys_base (vpmm s') = phys_base (vpmm s);
  ex_active : active_root s' = active_root s /\ satp s' = satp s
}.

Lemma extends_refl root s : pt_ok (vmem s) (vpmm s) root -> extends root s s.
Proof. intros H. constructor; try done. intros. by left. Qed.

Lemma held_mono p p' t : (forall k, aget (refs p) k <> 0 -> aget (refs p') k = aget (refs p) k) ->
  total_pages p' = total_pages p /\ phys_base p' = phys_base p -> held p t -> held p' t.
Proof. intros Hr [Ht Hb] (k & Hk & H0 & ->). exists k. rewrite Ht, Hb, Hr by done. done. Qed.

Lemma extends_trans root s1 s2 s3 : extends root s1 s2 -> extends root s2 s3 -> extends root s1 s3.
Proof.
  intros [A1 A2 AN A3 A4 A5 A67 [A8 A9]] [B1 B2 BN B3 B4 B5 B67 [B8 B9]].
  constructor; try done; try (split; congruence); try (destruct A67, B67; split; congruence).
  - auto.
  - intros q t Hq Ht. destruct (BN q t Hq Ht) as [Ht2|Hn]; [by apply AN|]. right.
    intros Hh. by apply Hn, (held_mono (vpmm s1)).
  - intros v. by rewrite B3.
  - intros a Ha. rewrite B4 by done. apply A4. intros q t Hq Ht. apply (Ha q); [done|]. by apply B2.
  - intros k Hk. rewrite B5; [by apply A5|]. by rewrite A5.
Qed.

(** Linking a zeroed page as a new table at [path ++ [i]]. *)
Section link.
Context (s s1 : vm) (root tp i k : Z) (path : list Z).
Let t := phys_base (vpmm s) + k * PAGE_SIZE.
Context (Hpt : pt_ok (vmem s) (vpmm s) root) (Hpath : path_ok path) (Hlen : (length path <= 1)%nat)
  (Hi : 0 <= i < 512) (Htp : table_at (vmem s) root path = Some tp)
  (Hinv : tst (rd (vmem s) (slot tp i)) 1 = false)
  (Hal : allocated k (vpmm s) (vpmm s1)) (Hok1 : pmm_ok (vpmm s1)) (Hb1 : bytes_ok (vmem s1))
  (Hzero : forall j, 0 <= j < 512 -> rd (vmem s1) (slot t j) = 0)
  (Hsame : forall a, ~ (t <= a < t + 4096) -> aget (vmem s1) a = aget (vmem s) a).

Let m' := mput 8 (vmem s1) (slot tp i) (mk_pte t 1).

Lemma new_page : page_addr t.
Proof.
  pose proof (allocated_held k (vpmm s) (vpmm s1)) as _. destruct (allocated_new _ _ _ Hal) as [Hh _].
  eapply held_page; [exact Hok1| |exact Hh].
  destruct Hal as (_ & _ & _ & _ & _ & ->). apply Hpt.
Qed.

Lemma new_distinct q x : path_ok q -> table_at (vmem s) root q = Some x -> x <> t /\ page_addr x.
Proof.
  intros Hq Hx. split; [|by eapply pt_page]. intros ->.
  destruct (allocated_new _ _ _ Hal) as [_ Hn]. apply Hn. by eapply pt_held.
Qed.

Lemma linked_words : same_words (vmem s) m' root (fun x j => x = tp /\ j = i).
Proof.
  intros q x j Hq Hx Hj Hne. destruct (new_distinct q x Hq Hx) as [Hxt Hxp].
  destruct (new_distinct path tp Hpath Htp) as [_ Htpp].
  unfold m'. rewrite rd_other.
  - apply rd_ext. intros a Ha. apply Hsame. pose proof (slot_page x j t Hj Hxp new_page Hxt). lia.
  - destruct (slot_inj tp i x j Hi Hj Htpp Hxp) as [[-> ->]|H]; [tauto|lia].
Qed.

Lemma linked_entry : rd m' (slot tp i) = mk_pte t 1.
Proof. apply rd_same. apply mk_pte_isu64; [apply new_page|lia]. Qed.

Lemma linked_zero j : 0 <= j < 512 -> rd m' (slot t j) = 0.
Proof.
  intros Hj. unfold m'. rewrite rd_other; [by apply Hzero|].
  destruct (new_distinct path tp Hpath Htp) as [Hne Htpp].
  destruct (slot_inj tp i t j Hi Hj Htpp new_page) as [[? _]|H]; [done|lia].
Qed.

(** The tree gains exactly the one table. *)
Lemma linked_tables q : path_ok q ->
  table_at m' root q = if decide (q = path ++ [i]) then Some t else table_at (vmem s) root q.
Proof.
  intros Hq.
  assert (table_at m' root path = Some tp) as Hp'.
  { rewrite (same_words_path _ _ _ _ _ linked_words Hpath); [done|].
    intros q1 j q2 x -> Hx [-> ->].
    assert (q1 = q1 ++ i :: q2) as E.
    { apply (pt_inj _ _ _ Hpt q1 (q1 ++ i :: q2) tp); try done. by eapply path_ok_prefix. }
    apply (f_equal length) in E. rewrite length_app in E. cbn in E. lia. }
  assert (child m' tp i = Some t) as Hc'.
  { unfold child. rewrite linked_entry, (mk_pte_tst t 1 1) by (try apply new_page; lia).
    cbn. by rewrite pte_table_mk by (try apply new_page; lia). }
  assert (child (vmem s) tp i = None) as Hc by (unfold child; by rewrite Hinv).
  case_decide as E.
  { subst q. rewrite table_at_app, Hp'. cbn [table_at]. by rewrite Hc'. }
  destruct (decide ((path ++ [i]) `prefix_of` q)) as [[q2 ->]|Hn].
  - rewrite <- app_assoc in *. cbn [app] in *. rewrite !table_at_app, Hp', Htp. cbn [table_at]. rewrite Hc, Hc'.
    destruct q2 as [|j q2]; [done|]. cbn [table_at]. unfold child.
    rewrite linked_zero; [done|]. destruct Hq as [Hq _]. apply Forall_app in Hq as [_ Hq].
    apply Forall_cons in Hq as [_ Hq]. by apply Forall_cons in Hq as [Hq _].
  - apply (same_words_path _ _ _ _ _ linked_words Hq).
    intros q1 j q2 x -> Hx [-> ->]. apply Hn. exists q2. rewrite <- app_assoc. cbn [app]. f_equal.
    apply (pt_inj _ _ _ Hpt q1 path tp); try done. by eapply path_ok_prefix.
Qed.

Lemma linked_vleaf virt : vleaf m' root virt = vleaf (vmem s) root virt.
Proof.
  assert (path_ok [vpn virt 2; vpn virt 1]) as Hq.
  { split; [|cbn; lia]. repeat constructor; apply vpn_bound. }
  unfold vleaf. rewrite (linked_tables _ Hq). case_decide as E.
  - rewrite linked_zero by apply vpn_bound. rewrite E, table_at_app, Htp. cbn [table_at].
    unfold child. by rewrite Hinv.
  - destruct (table_at (vmem s) root [vpn virt 2; vpn virt 1]) as [t0|] eqn:Et; [|done].
    rewrite (linked_words _ t0 _ Hq Et (vpn_bound _ _)); [done|]. intros [-> _].
    pose proof (pt_inj _ _ _ Hpt _ path tp Hq Hpath Et Htp) as Ep. rewrite <- Ep in Hlen. cbn in Hlen. lia.
Qed.

Lemma linked_ok : pt_ok m' (vpmm s1) root.
Proof.
  assert (path_ok (path ++ [i])) as Hpi by by apply path_ok_snoc.
  constructor.
  - by apply bytes_ok_mput.
  - done.
  - destruct Hal as (_ & _ & _ & _ & _ & ->). apply Hpt.
  - intros q x Hq. rewrite linked_tables by done. case_decide.
    + intros [= <-]. apply (allocated_new _ _ _ Hal).
    + intros Hx. eapply allocated_held; [done|]. by eapply pt_held.
  - intros q q' x Hq Hq'. rewrite !linked_tables by done. repeat case_decide; intros E E'.
    + congruence.
    + injection E as <-. by destruct (new_distinct q' t Hq' E').
    + injection E' as <-. by destruct (new_distinct q t Hq E).
    + by eapply pt_inj.
  - intros q x j Hq Hl Hj. rewrite linked_tables by done. case_decide.
    + intros [= <-]. by rewrite linked_zero.
    + intros Hx. destruct (decide (x = tp /\ j = i)) as [[-> ->]|Hne].
      * rewrite linked_entry. intros _. exists t. split; [done|apply new_page].
      * rewrite (linked_words q x j) by done. by apply (pt_entry _ _ _ Hpt q).
Qed.

Lemma linked_extends s2 : vmem s2 = m' -> vpmm s2 = vpmm s1 ->
  active_root s2 = active_root s /\ satp s2 = satp s ->
  extends root s s2 /\ table_at (vmem s2) root (path ++ [i]) = Some t.
Proof.
  intros Em Ep Ea. rewrite Em. split.
  2: { rewrite linked_tables by by apply path_ok_snoc. by case_decide. }
  destruct Hal as (Hk & H0 & Hr & _ & Ht & Hb).
  constructor; rewrite ?Em, ?Ep; try done.
  - apply linked_ok.
  - intros q x Hq Hx. rewrite linked_tables by done. case_decide as E; [|done].
    subst q. rewrite table_at_app, Htp in Hx. cbn [table_at] in Hx. unfold child in Hx. by rewrite Hinv in Hx.
  - intros q x Hq. rewrite linked_tables by done. case_decide; [|by left]. intros [= <-]. right.
    apply (allocated_new _ _ _ Hal).
  - apply linked_vleaf.
  - intros a Ha. destruct (new_distinct path tp Hpath Htp) as [_ Htpp].
    assert (path_ok (path ++ [i])) as Hpi by by apply path_ok_snoc.
    unfold m'. rewrite aget_mput_other.
    + apply Hsame. apply (Ha (path ++ [i])); [done|]. rewrite linked_tables by done. by case_decide.
    + assert (~ (tp <= a < tp + 4096)).
      { apply (Ha path); [done|]. rewrite linked_tables by done. case_decide as E; [|done].
        apply (f_equal length) in E. rewrite length_app in E. cbn in E. lia. }
      unfold slot. lia.
  - intros j Hj. rewrite Hr, aget_aset. case_decide; [by subst|done].
Qed.

End link.

Lemma walk_level_spec root path tp i s :
  pt_ok (vmem s) (vpmm s) root -> path_ok path -> (length path <= 1)%nat -> 0 <= i < 512 ->
  table_at (vmem s) root path = Some tp ->
  walk_level true tp i s = None \/
  exists t s', walk_level true tp i s = Some (Some t, s') /\ extends root s s' /\
    table_at (vmem s') root (path ++ [i]) = Some t.
Proof.
  intros Hpt Hpath Hlen Hi Htp. unfold walk_level.
  destruct (tst (rd (vmem s) (slot tp i)) 1) eqn:Hv; cbn [negb].
  - right. eexists _, s. split; [done|]. split; [by apply extends_refl|].
    rewrite table_at_app, Htp. cbn [table_at]. unfold child. by rewrite Hv.
  - destruct (alloc_table_spec s) as [->|(k & s1 & -> & Hal & Hok & Hb & Hz & Hs & Hact)]; try apply Hpt.
    { by left. }
    right. set (t := phys_base (vpmm s) + k * PAGE_SIZE) in *.
    assert (page_addr t) as Hpg by (eapply new_page; done).
    exists t. eexists. split.
    { cbn [wr vmem set_vmem]. rewrite rd_same by (apply mk_pte_isu64; [done|lia]).
      rewrite pte_table_mk by (done || lia). reflexivity. }
    eapply linked_extends; eauto.
Qed.

(** ** Writing a leaf entry *)

Definition leaf_path (virt : Z) : list Z := [vpn virt 2; vpn virt 1].
(** Two addresses on the same page of the 39-bit space. *)
Definition same_page (v v' : Z) : Prop := (v / 4096) mod 2 ^ 27 = (v' / 4096) mod 2 ^ 27.
#[global] Instance same_page_dec v v' : Decision (same_page v v') := ltac:(unfold same_page; apply _).

Lemma leaf_path_ok virt : path_ok (leaf_path virt).
Proof. split; [|cbn; lia]. repeat constructor; apply vpn_bound. Qed.

Lemma vpn_val virt l : 0 <= l -> vpn virt l = virt / 2 ^ (12 + 9 * l) mod 512.
Proof.
  intros. unfold vpn. rewrite Z.shiftr_div_pow2 by lia. change 0x1ff with (2 ^ 9 - 1).
  by rewrite land_ones_mod by lia.
Qed.

Lemma same_page_vpn v v' :
  same_page v v' <-> leaf_path v = leaf_path v' /\ vpn v 0 = vpn v' 0.
Proof.
  unfold same_page, leaf_path. rewrite !vpn_val by lia.
  change (2 ^ (12 + 9 * 2)) with (4096 * 262144). change (2 ^ (12 + 9 * 1)) with (4096 * 512).
  change (2 ^ (12 + 9 * 0)) with 4096. change (2 ^ 27) with 134217728.
  rewrite <- !Z.div_div by lia. generalize (v / 4096), (v' / 4096). intros a b. split.
  - intros E. split; [f_equal; [|f_equal]|]; zlia.
  - intros [E E0]. injection E as E2 E1. zlia.
Qed.

Lemma vleaf_leaf_path m root virt : vleaf m root virt =
  match table_at m root (leaf_path virt) with
  | Some t0 => let e := rd m (slot t0 (vpn virt 0)) in if tst e 1 then Some e else None
  | None => None
  end.
Proof. done. Qed.

Section leaf_write.
Context (m : gmap Z Z) (p : pmm) (root t0 virt e : Z).
Context (Hpt : pt_ok m p root) (Ht0 : table_at m root (leaf_path virt) = Some t0) (He : isu64 e).
Let m' := mput 8 m (slot t0 (vpn virt 0)) e.

Lemma leaf_write_words : same_words m m' root (fun x j => x = t0 /\ j = vpn virt 0).
Proof.
  intros q x j Hq Hx Hj Hne. unfold m'. apply rd_other.
  destruct (slot_inj t0 (vpn virt 0) x j (vpn_bound _ _) Hj
    (pt_page _ _ _ _ _ Hpt (leaf_path_ok virt) Ht0) (pt_page _ _ _ _ _ Hpt Hq Hx)) as [[E E']|H1]; [|lia].
  by destruct Hne.
Qed.

Lemma leaf_write_tables q : path_ok q -> table_at m' root q = table_at m root q.
Proof.
  intros Hq. apply (same_words_path _ _ _ _ _ leaf_write_words Hq). intros q1 j q2 x -> Hx [-> ->].
  assert (q1 = leaf_path virt) as ->.
  { apply (pt_inj _ _ _ Hpt _ _ t0); try done; [by eapply path_ok_prefix|apply leaf_path_ok]. }
  destruct Hq as [_ Hq]. rewrite length_app in Hq. cbn in Hq. lia.
Qed.

Lemma leaf_write_ok : pt_ok m' p root.
Proof.
  constructor; try apply Hpt.
  - apply bytes_ok_mput, Hpt.
  - intros q x Hq. rewrite leaf_write_tables by done. by apply Hpt.
  - intros q q' x Hq Hq'. rewrite !leaf_write_tables by done. by apply Hpt.
  - intros q x j Hq Hl Hj. rewrite leaf_write_tables by done. intros Hx.
    rewrite (leaf_write_words q x j Hq Hx Hj); [by apply (pt_entry _ _ _ Hpt q)|].
    intros [-> _]. pose proof (pt_inj _ _ _ Hpt _ _ _ Hq (leaf_path_ok virt) Hx Ht0). subst q. cbn in Hl. lia.
Qed.

Lemma leaf_write_vleaf v :
  vleaf m' root v = if decide (same_page v virt) then (if tst e 1 then Some e else None) else vleaf m root v.
Proof.
  rewrite !vleaf_leaf_path, leaf_write_tables by apply leaf_path_ok. case_decide as E.
  - apply same_page_vpn in E as [-> ->]. rewrite Ht0. cbn zeta. unfold m'. by rewrite rd_same.
  - destruct (table_at m root (leaf_path v)) as [t|] eqn:Et; [|done]. cbn zeta.
    rewrite (leaf_write_words _ t _ (leaf_path_ok v) Et (vpn_bound _ _)); [done|]. intros [-> E0]. apply E.
    apply same_page_vpn. split; [|done].
    apply (pt_inj _ _ _ Hpt _ _ t0); try done; apply leaf_path_ok.
Qed.
End leaf_write.

(** ** The walk and the lookups *)

Lemma lookup_pte_vleaf root virt s : match lookup_pte root virt s with
  | Some e => vleaf (vmem s) root virt = if tst e 1 then Some e else None
  | None => vleaf (vmem s) root virt = None
  end.
Proof.
  unfold lookup_pte, get_pte_in, walk_level, vleaf. cbn [table_at]. unfold child at 1 3.
  destruct (tst (rd (vmem s) (slot root (vpn virt 2))) 1); cbn [negb]; [|done]. unfold child.
  destruct (tst (rd (vmem s) _) 1); done.
Qed.

Lemma get_phys_vleaf root virt s : paging_get_phys_in root virt s =
  match vleaf (vmem s) root virt with Some e => Z.lor (pte_table e) (Z.land virt 0xfff) | None => 0 end.
Proof.
  unfold paging_get_phys_in. pose proof (lookup_pte_vleaf root virt s) as H.
  destruct (lookup_pte root virt s) as [e|]; [|by rewrite H]. rewrite H. by destruct (tst e 1).
Qed.
Lemma get_flags_vleaf root virt s : paging_get_flags_in root virt s =
  match vleaf (vmem s) root virt with Some e => Z.land e 0x3ff | None => 0 end.
Proof.
  unfold paging_get_flags_in. pose proof (lookup_pte_vleaf root virt s) as H.
  destruct (lookup_pte root virt s) as [e|]; [|by rewrite H]. rewrite H. by destruct (tst e 1).
Qed.

Lemma get_pte_create_spec root virt s :
  pt_ok (vmem s) (vpmm s) root ->
  get_pte_in root virt true s = None \/
  exists t0 s', get_pte_in root virt true s = Some (Some (slot t0 (vpn virt 0)), s') /\
    extends root s s' /\ table_at (vmem s') root (leaf_path virt) = Some t0.
Proof.
  intros Hpt. unfold get_pte_in.
  destruct (walk_level_spec root [] root (vpn virt 2) s Hpt path_ok_nil ltac:(cbn; lia) (vpn_bound _ _) eq_refl)
    as [->|(t1 & s1 & -> & He1 & Ht1)]; [by left|].
  destruct (walk_level_spec root [vpn virt 2] t1 (vpn virt 1) s1 (ex_ok _ _ _ He1)
    (path_ok_snoc [] _ path_ok_nil ltac:(cbn; lia) (vpn_bound _ _)) ltac:(cbn; lia) (vpn_bound _ _) Ht1)
    as [->|(t0 & s2 & -> & He2 & Ht2)]; [by left|].
  right. exists t0, s2. split; [done|]. split; [by eapply extends_trans|done].
Qed.

(** What a successful mapping leaves, as a relation between the states. *)
Record mapped (root virt phys flags : Z) (s s' : vm) : Prop := {
  mp_ok : pt_ok (vmem s') (vpmm s') root;
  mp_tables : forall q t, path_ok q -> table_at (vmem s) root q = Some t -> table_at (vmem s') root q = Some t;
  mp_new : forall q t, path_ok q -> table_at (vmem s') root q = Some t ->
    table_at (vmem s) root q = Some t \/ ~ held (vpmm s) t;
  mp_leaf : forall v, vleaf (vmem s') root v =
    if decide (same_page v virt) then (if tst flags 1 then Some (mk_pte phys flags) else None)
    else vleaf (vmem s) root v;
  mp_frame : forall a,
    (forall q t, path_ok q -> table_at (vmem s') root q = Some t -> ~ (t <= a < t + 4096)) ->
    aget (vmem s') a = aget (vmem s) a;
  mp_refs : forall k, aget (refs (vpmm s)) k <> 0 -> aget (refs (vpmm s')) k = aget (refs (vpmm s)) k;
  mp_range : total_pages (vpmm s') = total_pages (vpmm s) /\ phys_base (vpmm s') = phys_base (vpmm s);
  mp_active : active_root s' = active_root s /\ satp s' = satp s
}.

Lemma map_page_mapped root virt phys flags s :
  pt_ok (vmem s) (vpmm s) root -> page_addr phys -> 0 <= flags < 1024 ->
  paging_map_page_in root virt phys flags s = None \/
  exists s', paging_map_page_in root virt phys flags s = Some s' /\ mapped root virt phys flags s s'.
Proof.
  intros Hpt Hph Hf. unfold paging_map_page_in.
  destruct (get_pte_create_spec root virt s Hpt) as [->|(t0 & s1 & -> & He & Ht0)]; [by left|].
  right. eexists. split; [done|]. destruct He as [Hok Htab Hnw Hl Hfr Hr Hrg Hact].
  pose proof (mk_pte_isu64 phys flags Hph Hf) as Hu.
  pose proof (leaf_write_tables _ _ _ _ _ (mk_pte phys flags) Hok Ht0) as Htw.
  constructor; cbn [wr vmem set_vmem vpmm active_root satp]; try done.
  - by apply (leaf_write_ok _ _ _ _ virt).
  - intros q t Hq Ht. rewrite Htw by done. by apply Htab.
  - intros q t Hq. rewrite Htw by done. by apply Hnw.
  - intros v. rewrite (leaf_write_vleaf _ _ _ _ virt _ Hok Ht0 Hu).
    rewrite (mk_pte_tst phys flags 1) by (done || lia). by rewrite Hl.
  - intros a Ha. rewrite aget_mput_other.
    + apply Hfr. intros q t Hq Ht. apply (Ha q); [done|]. by rewrite Htw.
    + pose proof (Ha _ t0 (leaf_path_ok virt)) as H0. rewrite Htw in H0 by apply leaf_path_ok.
      specialize (H0 Ht0). pose proof (vpn_bound virt 0). unfold slot. lia.
Qed.
