(* ===== verification/PagingMap.v ===== *)
(** What [paging_map_page_in] does, read back by the kernel's lookups and by the processor's own
    page-table walk ([Rv64Vm.sv39]). *)
From S2P Require Import Prelude Pmm Paging PagingInv Rv64State Rv64Mem Rv64Vm.

(** ** Two free pages are enough *)

Lemma alloc_table_free s : pmm_ok (vpmm s) -> phys_base (vpmm s) <> 0 -> 0 < free_pages (vpmm s) ->
  exists t s', alloc_table s = Some (t, s') /\ free_pages (vpmm s') = free_pages (vpmm s) - 1.
Proof.
  intros Hp Hb Hf. unfold alloc_table.
  destruct (alloc_page_cases (vpmm s) Hp) as [[E E0]|(k & p' & E & (Hk & _ & _ & Hfr & _) & _)]; [lia|].
  rewrite E. pose proof (ok_base _ Hp). unfold PAGE_SIZE in *.
  replace (phys_base (vpmm s) + k * 4096 =? 0) with false by lia. by do 2 eexists.
Qed.

Lemma walk_level_free tp i s n :
  pmm_ok (vpmm s) -> phys_base (vpmm s) <> 0 -> 0 < n <= free_pages (vpmm s) ->
  exists r s', walk_level true tp i s = Some (r, s') /\ n - 1 <= free_pages (vpmm s').
Proof.
  intros Hp Hb Hf. unfold walk_level. destruct (negb _).
  - destruct (alloc_table_free s Hp Hb) as (t & s' & -> & Hs'); [lia|]. do 2 eexists. split; [done|]. cbn. lia.
  - do 2 eexists. split; [done|lia].
Qed.

Lemma get_pte_free root virt s : pt_ok (vmem s) (vpmm s) root -> 2 <= free_pages (vpmm s) ->
  get_pte_in root virt true s <> None.
Proof.
  intros Hpt Hf. unfold get_pte_in.
  destruct (walk_level_free root (vpn virt 2) s 2) as (r & s' & E & Hs'); [apply Hpt|apply Hpt|lia|].
  destruct (walk_level_spec root [] root (vpn virt 2) s Hpt path_ok_nil ltac:(cbn; lia) (vpn_bound _ _) eq_refl)
    as [E'|(t1 & s1 & E' & He & _)]; rewrite E in E'; [done|]. rewrite E. injection E' as -> <-.
  destruct (walk_level_free t1 (vpn virt 1) s' 1) as ([r|] & s2 & -> & _); try done; try lia; apply He.
Qed.

Lemma map_page_free root virt phys flags s : pt_ok (vmem s) (vpmm s) root -> 2 <= free_pages (vpmm s) ->
  paging_map_page_in root virt phys flags s <> None.
Proof.
  intros Hpt Hf. unfold paging_map_page_in. pose proof (get_pte_free root virt s Hpt Hf).
  by destruct (get_pte_create_spec root virt s Hpt) as [?|(t0 & s1 & -> & _)].
Qed.

Lemma same_page_refl v : same_page v v.
Proof. done. Qed.

(** C21: mapping a page with two frames free cannot fail; afterwards the page and every address in it
    looks up to the frame with the flags given, every other page of the address space looks up as
    before, memory outside the address space's table pages is untouched, no frame in use changes
    its reference count, and the tables are still a tree of distinct allocated pages. *)
Theorem paging_map_page_correct root virt phys flags s :
  pt_ok (vmem s) (vpmm s) root -> page_addr phys -> 0 <= flags < 1024 -> tst flags 1 = true ->
  (2 <= free_pages (vpmm s) -> paging_map_page_in root virt phys flags s <> None) /\
  forall s', paging_map_page_in root virt phys flags s = Some s' ->
    pt_ok (vmem s') (vpmm s') root /\
    (forall v, same_page v virt ->
       paging_get_phys_in root v s' = Z.lor phys (Z.land v 0xfff) /\ paging_get_flags_in root v s' = flags) /\
    (forall v, ~ same_page v virt ->
       paging_get_phys_in root v s' = paging_get_phys_in root v s /\
       paging_get_flags_in root v s' = paging_get_flags_in root v s) /\
    (forall a, (forall q t, path_ok q -> table_at (vmem s') root q = Some t -> ~ (t <= a < t + 4096)) ->
       aget (vmem s') a = aget (vmem s) a) /\
    (forall k, aget (refs (vpmm s)) k <> 0 -> aget (refs (vpmm s')) k = aget (refs (vpmm s)) k).
Proof.
  intros Hpt Hph Hf Hv. split; [by apply map_page_free|]. intros s' E.
  destruct (map_page_mapped root virt phys flags s Hpt Hph Hf) as [E'|(s1 & E' & [M1 M2 _ M3 M4 M5 _ _])];
    rewrite E in E'; [done|]. injection E' as <-.
  split; [done|]. split; [|split; [|done]]; intros v Hs; rewrite !get_phys_vleaf, !get_flags_vleaf, M3.
  - rewrite decide_True, Hv by done. by rewrite pte_table_mk, mk_pte_flags.
  - by rewrite decide_False.
Qed.

(** An address space with no mapping: the root is a zeroed page. *)
Lemma empty_tables q root t : table_at ∅ root q = Some t -> q = [] /\ t = root.
Proof.
  destruct q as [|i q]; cbn [table_at]; [by intros [= <-]|]. unfold child, rd.
  rewrite mget_zero by (intros; apply aget_empty). done.
Qed.
Lemma empty_pt_ok p root : pmm_ok p -> phys_base p <> 0 -> phys_base p mod 4096 = 0 -> held p root ->
  pt_ok ∅ p root.
Proof.
  intros Hp Hb Hm Hh.
  assert (forall a, rd ∅ a = 0) as H0 by (intros a; unfold rd; apply mget_zero; intros; apply aget_empty).
  pose proof (fun q => empty_tables q root) as Ht.
  constructor; [apply bytes_ok_empty|done|done| | |].
  - intros q t _ E. by destruct (Ht _ _ E) as [_ ->].
  - intros q q' t _ _ E E'. destruct (Ht _ _ E) as [-> _]. by destruct (Ht _ _ E') as [-> _].
  - intros q t i _ _ _ _. by rewrite H0.
Qed.
Definition paging_example : vm := Vm ∅ pmm_example 0x80001000 0.
Lemma paging_example_ok : pt_ok (vmem paging_example) (vpmm paging_example) 0x80001000.
Proof.
  apply empty_pt_ok.
  - apply pmm_example_ok.
  - cbn [vpmm paging_example]. rewrite (proj2 pmm_example_ok). lia.
  - cbn [vpmm paging_example]. by rewrite (proj2 pmm_example_ok).
  - exists 1. vm_compute. repeat split; congruence.
Qed.

Lemma paging_map_page_correct_witness :
  exists s', paging_map_page_in 0x80001000 0x1000 0x80008000 0x1f paging_example = Some s' /\
    paging_get_phys_in 0x80001000 0x1234 s' = 0x80008234.
Proof.
  assert (page_addr 0x80008000) as Hp by (split; [lia|done]).
  destruct (paging_map_page_correct 0x80001000 0x1000 0x80008000 0x1f paging_example paging_example_ok Hp
    ltac:(lia) eq_refl) as [Hn H].
  destruct (paging_map_page_in 0x80001000 0x1000 0x80008000 0x1f paging_example) as [s'|].
  - exists s'. split; [reflexivity|]. destruct (H s' eq_refl) as (_ & Hg & _). apply (Hg 0x1234). reflexivity.
  - destruct Hn; [|reflexivity]. vm_compute. congruence.
Defined.

(** ** The processor's view *)

(** The emulated machine runs on the kernel's memory, under the address space [root]. *)
Record runs_on (e : rv) (s : vm) (root : Z) : Prop := {
  on_mem : forall a, RAM_BASE <= a < RAM_BASE + RAM_SIZE -> aget (ram e) (a - RAM_BASE) = aget (vmem s) a;
  on_satp : getcsr e SATP = satp (paging_activate root s);
  on_range : RAM_BASE <= phys_base (vpmm s) /\
    phys_base (vpmm s) + total_pages (vpmm s) * PAGE_SIZE <= RAM_BASE + RAM_SIZE
}.

Lemma satp_root root : page_addr root ->
  let v := Z.lor SATP_MODE_SV39 (Z.shiftr root 12) in
  u32 (Z.shiftr v 60) = 8 /\ u64 (Z.shiftl (Z.land v (Z.shiftl 1 44 - 1)) 12) = root.
Proof.
  intros [Hr Hm] v. assert (v = 8 * 2 ^ 60 + root / 4096) as ->.
  { unfold v, SATP_MODE_SV39. rewrite Z.shiftl_mul_pow2, Z.shiftr_div_pow2 by lia.
    apply lor_add; [lia|]. change (2 ^ 12) with 4096. zlia. }
  rewrite Z.shiftl_mul_pow2, Z.shiftr_div_pow2 by lia.
  change (Z.shiftl 1 44 - 1) with (2 ^ 44 - 1). rewrite land_ones_mod by lia.
  change (2 ^ 60) with (65536 * 2 ^ 44). change (2 ^ 44) with 17592186044416. change (2 ^ 12) with 4096.
  unfold u32, u64. split; zlia.
Qed.

Section mmu.
Context (e : rv) (s : vm) (root : Z).
Context (Hpt : pt_ok (vmem s) (vpmm s) root) (Hon : runs_on e s root).

Lemma mmu_reads path t i : path_ok path -> table_at (vmem s) root path = Some t -> 0 <= i < 512 ->
  pte_at (ram e) (u64 (t + i * 8)) = Some (rd (vmem s) (slot t i)).
Proof.
  intros Hp Ht Hi. destruct (pt_held _ _ _ Hpt _ _ Hp Ht) as (k & Hk & _ & ->).
  destruct Hon as [Hm _ Hr]. pose proof (ok_base _ (pt_pmm _ _ _ Hpt)). unfold RAM_BASE, RAM_SIZE, PAGE_SIZE in *.
  unfold pte_at, in_ram, slot, RAM_BASE, RAM_SIZE.
  rewrite (u64_small (_ + i * 8)) by lia. rewrite (u64_small (_ - _)) by lia. rewrite u64_small by lia.
  replace (_ && _) with true by lia. f_equal. unfold rd. apply mget_shift.
  intros j Hj. specialize (Hm (phys_base (vpmm s) + k * 4096 + 8 * i + j)).
  rewrite <- Hm by lia. f_equal. lia.
Qed.

Lemma mmu_walk virt : sv39_walk 3 (ram e) virt root =
  match table_at (vmem s) root (leaf_path virt) with
  | Some t0 =>
      let p := rd (vmem s) (slot t0 (vpn virt 0)) in
      if negb (tst p 1) then None
      else if tst p 14 then Some (0, p, u64 (t0 + vpn virt 0 * 8)) else None
  | None => None
  end.
Proof.
  cbn [sv39_walk leaf_path table_at]. change (Z.of_nat 2) with 2. change (Z.of_nat 1) with 1.
  change (Z.of_nat 0) with 0. unfold pte_addr_of. fold (vpn virt 2) (vpn virt 1) (vpn virt 0).
  rewrite (mmu_reads [] root (vpn virt 2) path_ok_nil eq_refl (vpn_bound _ _)).
  destruct (tst (rd (vmem s) (slot root (vpn virt 2))) 1) eqn:E2; unfold child at 1; rewrite E2; cbn [negb]; [|done].
  destruct (pt_entry _ _ _ Hpt [] root (vpn virt 2) path_ok_nil ltac:(cbn; lia) (vpn_bound _ _) eq_refl E2)
    as (t1 & Er & Ht1).
  assert (table_at (vmem s) root [vpn virt 2] = Some t1) as Hp1.
  { cbn [table_at]. unfold child. by rewrite E2, Er, pte_table_mk by (done || lia). }
  assert (path_ok [vpn virt 2]) as Hpo by (apply (path_ok_snoc [] _ path_ok_nil); [cbn; lia|apply vpn_bound]).
  rewrite Er, (mk_pte_tst t1 1 14) by (done || lia). change (tst 1 14) with false.
  unfold pte_base. fold (pte_table (mk_pte t1 1)). rewrite pte_table_mk by (done || lia). cbn match.
  rewrite (mmu_reads [vpn virt 2] t1 (vpn virt 1) Hpo Hp1 (vpn_bound _ _)).
  destruct (tst (rd (vmem s) (slot t1 (vpn virt 1))) 1) eqn:E1; unfold child at 1; rewrite E1; cbn [negb]; [|done].
  destruct (pt_entry _ _ _ Hpt _ t1 (vpn virt 1) Hpo ltac:(cbn; lia) (vpn_bound _ _) Hp1 E1) as (t0 & Er0 & Ht0).
  assert (table_at (vmem s) root (leaf_path virt) = Some t0) as Hp0.
  { unfold leaf_path. change [vpn virt 2; vpn virt 1] with ([vpn virt 2] ++ [vpn virt 1]).
    rewrite table_at_app, Hp1. cbn [table_at]. unfold child. by rewrite E1, Er0, pte_table_mk by (done || lia). }
  rewrite Er0, (mk_pte_tst t0 1 14) by (done || lia). change (tst 1 14) with false.
  fold (pte_table (mk_pte t0 1)). rewrite pte_table_mk by (done || lia). cbn match.
  by rewrite (mmu_reads (leaf_path virt) t0 (vpn virt 0) (leaf_path_ok virt) Hp0 (vpn_bound _ _)).
Qed.

Lemma mmu_sv39 virt access : 0 <= access < 3 -> sv39 e virt access =
  match vleaf (vmem s) root virt with
  | Some p => if leaf_allows access (privilege e) (sum_of e) 0 p
              then Some (Z.lor (pte_table p) (Z.land virt 0xfff)) else None
  | None => None
  end.
Proof.
  intros Ha. destruct (satp_root root) as [Hmode Htab].
  { eapply pt_page; [done|apply path_ok_nil|done]. }
  unfold sv39, satp_mode, satp_table. rewrite (on_satp _ _ _ Hon). cbn [satp paging_activate].
  rewrite Hmode, Htab. cbn [Z.eqb Pos.eqb]. rewrite mmu_walk, vleaf_leaf_path.
  destruct (table_at _ _ _) as [t0|]; [|done]. cbn zeta.
  set (p := rd _ _). destruct (tst p 1); cbn [negb]; [|done].
  destruct (tst p 14) eqn:E14; [done|].
  assert (leaf_allows access (privilege e) (sum_of e) 0 p = false) as ->; [|done].
  unfold leaf_allows. cbn [Z.eqb andb].
  assert (tst p 8 = false /\ tst p 2 = false /\ tst p 4 = false) as (-> & -> & ->).
  { change 14 with (Z.lor 8 (Z.lor 2 4)) in E14. unfold tst in *.
    apply negb_false_iff, Z.eqb_eq in E14. rewrite !Z.land_lor_distr_r in E14.
    apply Z.lor_eq_0_iff in E14 as [-> E14]. by apply Z.lor_eq_0_iff in E14 as [-> ->]. }
  by repeat case_match.
Qed.
End mmu.

(** C2: the kernel's mapping is what the processor sees.  When the machine runs on the memory the
    kernel leaves and [satp] is what [paging_activate] writes, the Sv39 walk translates every address of
    the mapped page to its frame exactly when the flags allow the access, and every other
    address as it did before the mapping. *)
Theorem mapping_seen_by_mmu e0 e s s' root virt phys flags v access :
  pt_ok (vmem s) (vpmm s) root -> page_addr phys -> 0 <= flags < 1024 -> tst flags 1 = true ->
  paging_map_page_in root virt phys flags s = Some s' ->
  runs_on e0 s root -> runs_on e s' root -> privilege e = privilege e0 -> sum_of e = sum_of e0 ->
  0 <= access < 3 ->
  sv39 e v access =
  if decide (same_page v virt) then
    if leaf_allows access (privilege e) (sum_of e) 0 flags then Some (Z.lor phys (Z.land v 0xfff)) else None
  else sv39 e0 v access.
Proof.
  intros Hpt Hph Hf Hv E Hon0 Hon Ep Es Ha.
  destruct (map_page_mapped root virt phys flags s Hpt Hph Hf) as [E'|(s1 & E' & [M1 _ _ M3 _ _ _ _])];
    rewrite E in E'; [done|]. injection E' as <-.
  rewrite (mmu_sv39 e s' root M1 Hon v access Ha), (mmu_sv39 e0 s root Hpt Hon0 v access Ha), M3.
  case_decide; [|by rewrite Ep, Es]. rewrite Hv, pte_table_mk by done.
  unfold leaf_allows. by rewrite !(mk_pte_tst phys flags) by (done || lia).
Qed.

(** The machine of [paging_example] before and after mapping 0x1000 to 0x80008000. *)
Definition example_cpu (m : gmap Z Z) : rv := setcsr SATP 0x8000000000080001 (set_ram m rv_bss).
Definition example_mapped : vm :=
  default paging_example (paging_map_page_in 0x80001000 0x1000 0x80008000 0x0f paging_example).
Definition example_ram (s : vm) : gmap Z Z := kmap (fun a => a - RAM_BASE) (vmem s).

Lemma example_runs_on s : vpmm s = pmm_example \/ total_pages (vpmm s) = 16 /\ phys_base (vpmm s) = 0x80000000 ->
  runs_on (example_cpu (example_ram s)) s 0x80001000.
Proof.
  intros Hp. constructor.
  - intros a _. unfold example_cpu, example_ram, aget. cbn [ram setcsr set_ram].
    assert (Inj (=) (=) (fun a : Z => a - RAM_BASE)) by (intros x y; lia).
    f_equal. apply (lookup_kmap (fun a => a - RAM_BASE) (vmem s) a).
  - unfold example_cpu. vm_compute. reflexivity.
  - unfold RAM_BASE, RAM_SIZE, PAGE_SIZE. destruct Hp as [->|[-> ->]]; [vm_compute; split; congruence|lia].
Qed.

Lemma example_cpu_privilege m : privilege (example_cpu m) = 0.
Proof. vm_compute; reflexivity. Qed.
Lemma example_cpu_sum m : sum_of (example_cpu m) = 0.
Proof. vm_compute; reflexivity. Qed.

Lemma mapping_seen_by_mmu_witness :
  sv39 (example_cpu (example_ram example_mapped)) 0x1234 2 = Some 0x80008234.
Proof.
  assert (page_addr 0x80008000) as Hp by (split; [lia|done]).
  rewrite (mapping_seen_by_mmu (example_cpu (example_ram paging_example))
    (example_cpu (example_ram example_mapped)) paging_example example_mapped 0x80001000 0x1000 0x80008000 0x0f
    0x1234 2 paging_example_ok Hp).
  - rewrite example_cpu_privilege, example_cpu_sum. reflexivity.
  - lia.
  - reflexivity.
  - unfold example_mapped. destruct (paging_map_page_in _ _ _ _ _) eqn:E; [reflexivity|].
    exfalso. revert E. apply map_page_free; [apply paging_example_ok|]. vm_compute. congruence.
  - apply example_runs_on. by left.
  - apply example_runs_on. right. split; vm_compute; reflexivity.
  - rewrite !example_cpu_privilege. reflexivity.
  - rewrite !example_cpu_sum. reflexivity.
  - lia.
Defined.
