(* ===== verification/PagingCow.v ===== *)
(** Copy-on-write: the page fault of a write to a shared page gives the faulting address space
    a private copy ([fix_cow_page], [paging_handle_fault]). *)
From S2P Require Import Prelude Pmm Paging PagingInv PagingMap.

(** ** Frames *)

Lemma free_held p k : pmm_ok p -> 0 <= k < total_pages p -> aget (refs p) k <> 0 ->
  let p' := pmm_free_page (phys_base p + k * PAGE_SIZE) p in
  pmm_ok p' /\ total_pages p' = total_pages p /\ phys_base p' = phys_base p /\
  forall j, aget (refs p') j = if decide (j = k) then aget (refs p) k - 1 else aget (refs p) j.
Proof.
  intros Hok Hk Hr. cbn zeta. unfold pmm_free_page.
  pose proof (page_of_addr k 0 p Hok Hk ltac:(unfold PAGE_SIZE; lia)) as E0. rewrite Z.add_0_r in E0. rewrite E0.
  pose proof (ok_refs p Hok k Hk) as Hb. rewrite (ok_used p Hok k Hk).
  replace (k <? total_pages p) with true by lia. replace (aget (refs p) k =? 0) with false by lia. cbn [negb andb].
  unfold u16. rewrite Z.mod_small by lia. destruct (Z.eqb_spec (aget (refs p) k - 1) 0) as [E|E].
  - destruct (drop_ok k p Hok Hk Hr) as [Hd _]. rewrite E. split; [exact Hd|]. split; [done|]. split; [done|].
    intros j. cbn [refs]. rewrite aget_aset. by repeat case_decide; subst.
  - split; [apply (set_ref_ok k _ p); (done || lia)|]. split; [done|]. split; [done|].
    intros j. cbn [refs]. rewrite aget_aset. by repeat case_decide; subst.
Qed.

(** A change of memory and counts that leaves the table pages alone leaves the address space alone. *)
Lemma pt_ok_frame m m' p p' root : pt_ok m p root -> bytes_ok m' -> pmm_ok p' ->
  phys_base p' = phys_base p ->
  (forall q t, path_ok q -> table_at m root q = Some t ->
     held p' t /\ forall a, t <= a < t + 4096 -> aget m' a = aget m a) ->
  pt_ok m' p' root /\ (forall q, path_ok q -> table_at m' root q = table_at m root q) /\
  (forall v, vleaf m' root v = vleaf m root v).
Proof.
  intros Hpt Hb Hp Eb Hf.
  assert (forall q t i, path_ok q -> table_at m root q = Some t -> 0 <= i < 512 ->
    rd m' (slot t i) = rd m (slot t i)) as Hw.
  { intros q t i Hq Ht Hi. apply rd_ext. intros a Ha. apply (Hf q t Hq Ht). unfold slot in Ha. lia. }
  assert (forall q, path_ok q -> table_at m' root q = table_at m root q) as Ht.
  { intros q Hq. apply (same_words_path m m' root (fun _ _ => False)); [|done|tauto].
    intros q1 t i Hq1 Ht1 Hi _. by apply (Hw q1). }
  split; [|split; [done|]].
  - constructor; try done.
    + rewrite Eb. apply Hpt.
    + intros q t Hq. rewrite Ht by done. intros E. by apply (Hf q).
    + intros q q' t Hq Hq'. rewrite !Ht by done. by apply Hpt.
    + intros q t i Hq Hl Hi. rewrite Ht by done. intros E. rewrite (Hw q) by done. by apply (pt_entry _ _ _ Hpt q).
  - intros v. rewrite !vleaf_leaf_path, Ht by apply leaf_path_ok.
    destruct (table_at m root (leaf_path v)) as [t|] eqn:E; [|done].
    by rewrite (Hw (leaf_path v) t _ (leaf_path_ok v) E (vpn_bound _ _)).
Qed.

(** Remapping a page that is mapped allocates nothing. *)
Lemma map_existing root virt phys flags s e : vleaf (vmem s) root virt = Some e ->
  exists t0, table_at (vmem s) root (leaf_path virt) = Some t0 /\
    paging_map_page_in root virt phys flags s = Some (wr (slot t0 (vpn virt 0)) (mk_pte phys flags) s).
Proof.
  unfold vleaf, leaf_path, paging_map_page_in, get_pte_in, walk_level. cbn [table_at]. unfold child at 1 2.
  destruct (tst (rd (vmem s) (slot root (vpn virt 2))) 1) eqn:E2; [|done]. cbn [negb]. unfold child.
  destruct (tst (rd (vmem s) (slot (pte_table _) (vpn virt 1))) 1) eqn:E1; [|done]. cbn [negb]. intros _.
  eexists. rewrite E2, E1. split; reflexivity.
Qed.

Lemma page_part a off : page_addr a -> 0 <= off < 4096 -> Z.land (Z.lor a off) (not64 0xfff) = a.
Proof.
  intros [Ha Hm] Ho. apply Z.bits_inj'. intros i Hi.
  change (not64 0xfff) with (Z.ldiff (Z.ones 64) (Z.ones 12)).
  rewrite Z.land_spec, Z.lor_spec, Z.ldiff_spec, !Z.testbit_ones by lia.
  destruct (Z.lt_ge_cases i 12) as [Hl|Hl].
  - replace a with (Z.shiftl (a / 4096) 12).
    + rewrite Z.shiftl_spec_low by lia. replace (i <? 12) with true by lia.
      replace (0 <=? i) with true by lia. cbn [negb andb]. by rewrite !andb_false_r.
    + rewrite Z.shiftl_mul_pow2 by lia. change (2 ^ 12) with 4096. zlia.
  - rewrite (testbit_high off 12) by lia. replace (i <? 12) with false by lia. rewrite orb_false_r.
    replace (0 <=? i) with true by lia. rewrite andb_true_r.
    destruct (Z.ltb_spec i 64); [apply andb_true_r|]. rewrite (testbit_high a 32) by lia. done.
Qed.

(** ** Resolving a copy-on-write fault *)

(** [page] is mapped to the frame [old] with [flags], and the frame holds data, not a table. *)
Record cow_page (s : vm) (page old flags : Z) : Prop := {
  cw_ok : pt_ok (vmem s) (vpmm s) (active_root s);
  cw_leaf : vleaf (vmem s) (active_root s) page = Some (mk_pte old flags);
  cw_flags : 0 <= flags < 1024;
  cw_held : held (vpmm s) old;
  cw_data : forall q, path_ok q -> table_at (vmem s) (active_root s) q <> Some old
}.

(** The private copy: [new] takes over from [old] in one page of one address space. *)
Record copied (page old new flags : Z) (s s' : vm) : Prop := {
  cp_ok : pt_ok (vmem s') (vpmm s') (active_root s');
  cp_root : active_root s' = active_root s /\ satp s' = satp s;
  cp_fresh : ~ held (vpmm s) new /\ held (vpmm s') new;
  cp_leaf : forall v, vleaf (vmem s') (active_root s) v =
    if decide (same_page v page)
    then Some (mk_pte new (Z.lor (Z.lor PTE_PRESENT PTE_WRITABLE) (Z.land flags PTE_USER)))
    else vleaf (vmem s) (active_root s) v;
  cp_data : forall i, 0 <= i < PAGE_SIZE -> aget (vmem s') (new + i) = aget (vmem s) (old + i);
  cp_frame : forall a, ~ (new <= a < new + PAGE_SIZE) ->
    (forall q t, path_ok q -> table_at (vmem s) (active_root s) q = Some t -> ~ (t <= a < t + 4096)) ->
    aget (vmem s') a = aget (vmem s) a;
  cp_refs : forall k, phys_base (vpmm s) + k * PAGE_SIZE <> new -> aget (refs (vpmm s')) k =
    aget (refs (vpmm s)) k - (if decide (phys_base (vpmm s) + k * PAGE_SIZE = old) then 1 else 0)
}.

Lemma cow_flags_bound flags : 0 <= flags < 1024 ->
  let f := Z.lor (Z.lor PTE_PRESENT PTE_WRITABLE) (Z.land flags PTE_USER) in 0 <= f < 1024 /\ tst f 1 = true.
Proof.
  intros Hf f. assert (0 <= Z.land flags PTE_USER < 2 ^ 10) as Hb by (apply land_bound_r; [lia|done]).
  split; [apply (lor_bound 10); [lia|done|done]|].
  change 1 with (2 ^ 0). rewrite tst_pow2 by lia. unfold f. rewrite Z.lor_spec. done.
Qed.

(** The step by step effect: [p] and [m1] are the frames after the allocation and the memory after the
    copy loop. *)
Section private_copy.
Context (s : vm) (page old flags k : Z) (p : pmm) (m1 : gmap Z Z).
Let root := active_root s.
Let new := phys_base (vpmm s) + k * PAGE_SIZE.
Let fl := Z.lor (Z.lor PTE_PRESENT PTE_WRITABLE) (Z.land flags PTE_USER).
Context (Hcow : cow_page s page old flags) (Hal : allocated k (vpmm s) p) (Hpok : pmm_ok p).
Context (Hb1 : bytes_ok m1).
Context (Hm1 : forall i, aget m1 i =
  if bool_decide (new <= i < new + PAGE_SIZE) then aget (vmem s) (old + (i - new)) else aget (vmem s) i).
Let s2 := set_vmem m1 (set_vpmm p s).

Lemma old_page : page_addr old.
Proof. destruct Hcow as [Hpt _ _ Hh _]. eapply held_page; [apply Hpt|apply Hpt|done]. Qed.

Lemma copy_new : page_addr new /\ new <> old /\ held p new /\ ~ held (vpmm s) new.
Proof.
  destruct (allocated_new _ _ _ Hal) as [Hnew Hfresh]. fold new in Hnew, Hfresh.
  split; [|split; [|done]].
  - eapply held_page; [exact Hpok| |done]. replace (phys_base p) with (phys_base (vpmm s)).
    + apply (cw_ok _ _ _ _ Hcow).
    + symmetry. apply Hal.
  - intros E. apply Hfresh. rewrite E. apply Hcow.
Qed.

Lemma copy_tables : pt_ok m1 p root /\ (forall q, path_ok q -> table_at m1 root q = table_at (vmem s) root q) /\
  (forall v, vleaf m1 root v = vleaf (vmem s) root v).
Proof.
  destruct Hcow as [Hpt _ _ _ _], copy_new as (Hpn & _ & _ & Hfresh).
  apply (pt_ok_frame (vmem s) m1 (vpmm s) p); [done|done|done|apply Hal|].
  intros q t Hq Ht. split; [eapply allocated_held; [done|by eapply pt_held]|].
  intros a Ha. rewrite Hm1, bool_decide_eq_false_2; [done|].
  assert (t <> new) by (intros ->; apply Hfresh; by eapply pt_held).
  destruct (pt_page _ _ _ _ _ Hpt Hq Ht), Hpn. unfold PAGE_SIZE. zlia.
Qed.

Lemma old_index : exists ko, 0 <= ko < total_pages p /\ old = phys_base p + ko * PAGE_SIZE /\
  aget (refs p) ko <> 0 /\ u32 old = phys_base p + ko * PAGE_SIZE.
Proof.
  destruct Hal as (Hk & H0 & Hr & _ & Ht & Hb). destruct (cw_held _ _ _ _ Hcow) as (ko & Hko & Hr0 & E).
  exists ko. rewrite Ht, Hb, Hr. split; [done|]. split; [done|]. split.
  - rewrite aget_aset. by case_decide.
  - rewrite <- E. apply u32_small. apply old_page.
Qed.

Lemma copy_remap : exists s', paging_map_page page new fl s2 = Some s' /\
  copied page old new flags s (set_vpmm (pmm_free_page (u32 old) (vpmm s')) s').
Proof.
  destruct copy_tables as (Hpt1 & Htab1 & Hleaf1), copy_new as (Hpn & Hno & Hnew & Hfresh).
  destruct Hcow as [Hpt Hleaf Hf Hheld Hdata], (cow_flags_bound flags Hf) as [Hfl Hfl1]. fold fl in Hfl, Hfl1.
  destruct (map_existing root page new fl s2 (mk_pte old flags)) as (t0 & Ht0 & Emap);
    [change (vmem s2) with m1; by rewrite Hleaf1|].
  eexists. split; [exact Emap|]. change (vmem s2) with m1 in Ht0.
  pose proof (mk_pte_isu64 new fl Hpn Hfl) as Hu.
  pose proof (leaf_write_ok m1 p root t0 page (mk_pte new fl) Hpt1 Ht0) as Hpt2.
  pose proof (leaf_write_tables m1 p root t0 page (mk_pte new fl) Hpt1 Ht0) as Htab2.
  pose proof (leaf_write_vleaf m1 p root t0 page _ Hpt1 Ht0 Hu) as Hleaf2.
  assert (table_at (vmem s) root (leaf_path page) = Some t0) as Ht0s by (by rewrite <- Htab1 by apply leaf_path_ok).
  pose proof (vpn_bound page 0) as Hv0. pose proof (pt_page _ _ _ _ _ Hpt (leaf_path_ok page) Ht0s) as Hpt0.
  assert (t0 <> new) as Hne0 by (intros ->; apply Hfresh; eapply pt_held; [done|apply (leaf_path_ok page)|done]).
  destruct old_index as (ko & Hko & Eold & Hro & Eu).
  destruct (free_held p ko Hpok Hko Hro) as (Hfok & Hft & Hfb & Hfr). rewrite <- Eu in Hfok, Hft, Hfb, Hfr.
  set (p' := pmm_free_page (u32 old) p) in *.
  set (m2 := mput 8 m1 (slot t0 (vpn page 0)) (mk_pte new fl)) in *.
  assert (forall t, held p t -> t <> old -> held p' t) as Hheld'.
  { intros t (j & Hj & Hrj & ->) Hne. exists j. rewrite Hft, Hfb, Hfr. split; [done|]. split; [|done].
    case_decide; [|done]. subst j. by rewrite Eold in Hne. }
  constructor; cbn [vmem vpmm set_vpmm wr set_vmem active_root satp s2]; fold m2; fold p'; fold root.
  - apply (pt_ok_frame m2 m2 p p' root); [exact Hpt2|apply Hpt2|done|done|].
    intros q t Hq Ht. split; [|done]. apply Hheld'; [by eapply pt_held|]. intros ->.
    rewrite Htab2, Htab1 in Ht by done. by apply (Hdata q).
  - done.
  - split; [done|]. by apply Hheld'.
  - intros v. rewrite Hleaf2. rewrite (mk_pte_tst new fl 1), Hfl1, Hleaf1 by (done || lia). done.
  - intros i Hi. unfold m2. rewrite aget_mput_other, Hm1, bool_decide_eq_true_2 by
      (lia || (pose proof (slot_page t0 _ new Hv0 Hpt0 Hpn Hne0); unfold PAGE_SIZE in *; lia)).
    f_equal. lia.
  - intros a Ha Hnt. unfold m2. rewrite aget_mput_other, Hm1, bool_decide_eq_false_2; try done.
    pose proof (Hnt _ t0 (leaf_path_ok page) Ht0s). unfold slot. lia.
  - intros j Hj. rewrite Hfr. destruct Hal as (Hk & H0 & Hr & _ & Ht & Hb). rewrite Hr, !aget_aset. rewrite Hb in Eold.
    unfold new, PAGE_SIZE in Hj, Eold |- *. repeat case_decide; subst; try lia.
Qed.
End private_copy.

Lemma fix_cow_page_spec s page old flags :
  cow_page s page old flags ->
  (free_pages (vpmm s) = 0 -> fix_cow_page page s = Some (false, s)) /\
  (0 < free_pages (vpmm s) -> exists new s', fix_cow_page page s = Some (true, s') /\
     copied page old new flags s s').
Proof.
  intros Hcow. pose proof (old_page _ _ _ _ Hcow) as Hpo. pose proof (cw_ok _ _ _ _ Hcow) as Hpt.
  assert (Z.land (paging_get_phys page s) (not64 0xfff) = old) as Eold.
  { unfold paging_get_phys. rewrite get_phys_vleaf, (cw_leaf _ _ _ _ Hcow), pte_table_mk by (done || apply Hcow).
    apply page_part; [done|]. apply (land_bound_r 12); [lia|done]. }
  assert (paging_get_flags page s = flags) as Efl.
  { unfold paging_get_flags. by rewrite get_flags_vleaf, (cw_leaf _ _ _ _ Hcow), mk_pte_flags by (done || apply Hcow). }
  unfold fix_cow_page. rewrite Eold, Efl. split.
  - intros H0. destruct (alloc_page_cases (vpmm s) (pt_pmm _ _ _ Hpt)) as [[E _]|(k & p & _ & Hal & _)].
    + rewrite E. by destruct s.
    + destruct Hal as (Hk & Hr & _). pose proof (free_page_counts _ k (pt_pmm _ _ _ Hpt) Hk Hr). lia.
  - intros Hfree.
    destruct (alloc_page_cases (vpmm s) (pt_pmm _ _ _ Hpt)) as [[_ E0]|(k & p & E & Hal & Hpok)]; [lia|].
    rewrite E. pose proof (copy_new s page old flags k p Hcow Hal Hpok) as (Hpn & Hno & _ & _).
    set (new := phys_base (vpmm s) + k * PAGE_SIZE) in *.
    replace (new =? 0) with false.
    2: { symmetry. apply Z.eqb_neq. unfold new, PAGE_SIZE. destruct Hal as [Hk _].
         pose proof (ok_base _ (pt_pmm _ _ _ Hpt)). pose proof (pt_base _ _ _ Hpt). lia. }
    cbn [vmem set_vpmm].
    pose proof (bytes_ok_acopy (Z.to_nat PAGE_SIZE) new old (vmem s) (pt_bytes _ _ _ Hpt)) as Hb.
    assert (forall i, aget (acopy (Z.to_nat PAGE_SIZE) new old (vmem s)) i =
      if bool_decide (new <= i < new + PAGE_SIZE) then aget (vmem s) (old + (i - new)) else aget (vmem s) i) as Hm.
    { intros i. rewrite aget_acopy; rewrite Z2Nat.id by done; [done|]. destruct Hpn, Hpo. unfold PAGE_SIZE. zlia. }
    revert Hb Hm. generalize (acopy (Z.to_nat PAGE_SIZE) new old (vmem s)). intros m1 Hb Hm.
    destruct (copy_remap s page old flags k p m1 Hcow Hal Hpok Hb Hm) as (s' & E1 & Hc). fold new in E1, Hc.
    change (Vm (vmem s) p (active_root s) (satp s)) with (set_vpmm p s).
    rewrite E1. eexists new, _. split; [done|done].
Qed.

(** C19: a write fault on a copy-on-write page.  With a frame free, the fault is resolved: the page gets a
    fresh frame with the old frame's bytes, writable, user or not as before and no longer
    copy-on-write; the old frame loses one reference, every other page of the address space and
    every byte outside the copy and the tables is unchanged.  With none free the fault is
    reported fatal and nothing changes. *)
Theorem cow_fault_correct s addr old flags user stack_fault :
  let page := Z.land addr (not64 0xfff) in
  cow_page s page old flags -> tst flags PTE_PRESENT = true -> tst flags PTE_COW = true ->
  (free_pages (vpmm s) = 0 -> paging_handle_fault stack_fault addr true user s = Some (PAGE_FAULT_FATAL, s)) /\
  (0 < free_pages (vpmm s) -> exists new s',
     paging_handle_fault stack_fault addr true user s = Some (PAGE_FAULT_FIXED, s') /\
     copied page old new flags s s').
Proof.
  intros page Hcow H1 H2. unfold paging_handle_fault. fold page.
  assert (paging_get_flags page s = flags) as ->.
  { unfold paging_get_flags. rewrite get_flags_vleaf, (cw_leaf _ _ _ _ Hcow). apply mk_pte_flags; [|apply Hcow].
    by apply (old_page s page old flags). }
  rewrite H1, H2. cbn [andb]. destruct (fix_cow_page_spec s page old flags Hcow) as [Hn Hs].
  split; intros Hf; [by rewrite Hn|]. destruct (Hs Hf) as (new & s' & -> & Hc). by exists new, s'.
Qed.

(** A page at 0x5000 that maps the last frame of the example machine, shared copy-on-write. *)
Definition cow_example : vm :=
  default paging_example (paging_map_page_in 0x80001000 0x5000 0x80000000 0x11b paging_example).

Lemma cow_example_ok : cow_page cow_example 0x5000 0x80000000 0x11b /\ active_root cow_example = 0x80001000.
Proof.
  assert (page_addr 0x80000000) as Hp by (split; [lia|done]).
  unfold cow_example.
  destruct (map_page_mapped 0x80001000 0x5000 0x80000000 0x11b paging_example paging_example_ok Hp ltac:(lia))
    as [E|(s' & E & [M1 M2 MN M3 M4 M5 M67 [M8 M9]])].
  - exfalso. revert E. apply map_page_free; [apply paging_example_ok|]. vm_compute. congruence.
  - rewrite E. cbn [default from_option id]. assert (active_root s' = 0x80001000) as Er by done.
    split; [|done].
    assert (held (vpmm paging_example) 0x80000000) as Hh by (exists 0; vm_compute; repeat split; congruence).
    constructor; rewrite ?Er.
    + exact M1.
    + rewrite M3. by rewrite decide_True.
    + lia.
    + by apply (held_mono (vpmm paging_example)).
    + intros q Hq Ht. destruct (MN q _ Hq Ht) as [Ht0|Hn]; [|exact (Hn Hh)].
      apply empty_tables in Ht0. lia.
Qed.

Lemma cow_fault_correct_witness :
  exists new s', paging_handle_fault (fun _ _ => None) 0x5678 true true cow_example = Some (PAGE_FAULT_FIXED, s') /\
    new <> 0x80000000 /\ aget (vmem s') (new + 5) = aget (vmem cow_example) 0x80000005.
Proof.
  destruct cow_example_ok as [Hcow _].
  destruct (cow_fault_correct cow_example 0x5678 0x80000000 0x11b true (fun _ _ => None) Hcow eq_refl eq_refl)
    as [_ H].
  destruct H as (new & s' & E & [_ _ [Hn _] _ Hd _ _]).
  - unfold cow_example. vm_compute. reflexivity.
  - exists new, s'. split; [exact E|]. split; [intros ->; exact (Hn (cw_held _ _ _ _ Hcow))|].
    apply (Hd 5). unfold PAGE_SIZE. lia.
Defined.
