(* ===== verification/Ramfs.v ===== *)
(** The in-memory filesystem ([src/kernel/mm/ramfs.c]) and the initrd loader
    ([src/kernel/mm/tar.c]): definitions.

    A C string is the list of its bytes before the NUL.  [dynamic_files] is an array indexed by
    slot, and a [struct ramfs_dynamic_file *] is the slot's index; [dynamic_hash] and
    [dynamic_next] keep their index-plus-one links.  File contents live in the identity-mapped
    physical memory [kmem], at the address the file's [data] pointer holds.  A loop that the code
    does not bound returns [None] when it runs out of fuel, that is, when the code would not
    return. *)
From S2P Require Import Prelude Pmm.

Definition RAMFS_MAX_DYNAMIC_FILES : Z := 8192.
Definition DIR_CACHE_ENTRIES : Z := 1024.

Record file := File {
  used : bool;
  name : list Z;
  data : Z;
  size : Z;
  capacity : Z
}.
Definition no_file : file := File false [] 0 0 0.

(** One row of the directory cache: name, is-directory, is-symlink. *)
Record dentry := Dentry { d_name : list Z; d_directory : bool; d_symlink : bool }.

Record kfs := Kfs {
  files : gmap Z file;
  high_water : Z;
  hash : gmap Z Z;
  next : gmap Z Z;
  cache_path : list Z;
  cache : list dentry;
  cache_valid : bool;
  kpmm : pmm;
  kmem : gmap Z Z
}.

Definition getfile (s : kfs) (i : Z) : file := default no_file (files s !! i).
Definition set_file (i : Z) (f : file) (s : kfs) : kfs :=
  Kfs (<[i := f]> (files s)) (high_water s) (hash s) (next s) (cache_path s) (cache s)
      (cache_valid s) (kpmm s) (kmem s).
Definition set_high_water (v : Z) (s : kfs) : kfs :=
  Kfs (files s) v (hash s) (next s) (cache_path s) (cache s) (cache_valid s) (kpmm s) (kmem s).
Definition set_hash (b v : Z) (s : kfs) : kfs :=
  Kfs (files s) (high_water s) (aset (hash s) b v) (next s) (cache_path s) (cache s)
      (cache_valid s) (kpmm s) (kmem s).
Definition set_next (i v : Z) (s : kfs) : kfs :=
  Kfs (files s) (high_water s) (hash s) (aset (next s) i v) (cache_path s) (cache s)
      (cache_valid s) (kpmm s) (kmem s).
Definition set_cache (p : list Z) (c : list dentry) (v : bool) (s : kfs) : kfs :=
  Kfs (files s) (high_water s) (hash s) (next s) p c v (kpmm s) (kmem s).
Definition invalidate (s : kfs) : kfs := set_cache (cache_path s) (cache s) false s.
Definition set_kpmm (v : pmm) (s : kfs) : kfs :=
  Kfs (files s) (high_water s) (hash s) (next s) (cache_path s) (cache s) (cache_valid s) v (kmem s).
Definition set_kmem (v : gmap Z Z) (s : kfs) : kfs :=
  Kfs (files s) (high_water s) (hash s) (next s) (cache_path s) (cache s) (cache_valid s) (kpmm s) v.

(** ** Names *)

Definition busybox_applets : list (list Z) :=
  map lit ["ash"; "gunzip"; "gzip"; "tar"; "basename"; "cat"; "chmod"; "chown"; "cp"; "cut";
    "dirname"; "echo"; "env"; "expr"; "false"; "head"; "ln"; "ls"; "mkdir"; "mv"; "printf"; "pwd";
    "rm"; "rmdir"; "sleep"; "sort"; "tail"; "test"; "touch"; "true"; "uniq"; "wc"; "which"; "sed";
    "find"; "grep"; "mount"; "umount"; "kill"; "ps"]%string.
Definition NUM_APPLETS : Z := Z.of_nat (length busybox_applets).

Definition SLASH : Z := 47.
Definition DOT : Z := 46.

Fixpoint streq (a b : list Z) : bool :=
  match a, b with
  | [], [] => true
  | x :: a, y :: b => (x =? y) && streq a b
  | _, _ => false
  end.

Fixpoint basename_loop (base p : list Z) : list Z :=
  match p with
  | [] => base
  | c :: p => basename_loop (if c =? SLASH then p else base) p
  end.
Definition basename_of (path : list Z) : list Z := basename_loop path path.

Fixpoint skip_dots (p : list Z) : list Z :=
  match p with
  | a :: b :: p' => if (a =? DOT) && (b =? SLASH) then skip_dots p' else p
  | _ => p
  end.
Definition normalize_path (path : list Z) : list Z :=
  skip_dots (match path with c :: p => if c =? SLASH then p else path | [] => path end).

Fixpoint hash_loop (h : Z) (s : list Z) : Z :=
  match s with
  | [] => h
  | c :: s => hash_loop (u32 (Z.lxor h (u8 c) * 16777619)) s
  end.
Definition name_hash (s : list Z) : Z :=
  Z.land (hash_loop 2166136261 s) (RAMFS_MAX_DYNAMIC_FILES - 1).

Definition name_copy (src : list Z) (cap : Z) : list Z := firstn (Z.to_nat (cap - 1)) src.

(** ** Lookup and creation *)

Fixpoint lookup_loop (fuel : nat) (link : Z) (norm : list Z) (s : kfs) : option (option Z) :=
  match fuel with
  | O => None
  | S fuel =>
      if link =? 0 then Some None
      else
        let i := link - 1 in
        if used (getfile s i) && streq norm (name (getfile s i)) then Some (Some i)
        else lookup_loop fuel (aget (next s) i) norm s
  end.
(** More fuel than there are slots. *)
Definition CHAIN_FUEL : nat := Z.to_nat (RAMFS_MAX_DYNAMIC_FILES + 1).

Definition ramfs_dynamic_lookup (path : list Z) (s : kfs) : option (option Z) :=
  let norm := normalize_path path in
  lookup_loop CHAIN_FUEL (aget (hash s) (name_hash norm)) norm s.

Definition hash_insert (index : Z) (s : kfs) : kfs :=
  let bucket := name_hash (name (getfile s index)) in
  let s := set_next index (aget (hash s) bucket) s in
  set_hash bucket (u16 (index + 1)) s.

(** The first unused slot among [n] slots from [i]. *)
Fixpoint unused_slot (n : nat) (i : Z) (s : kfs) : option Z :=
  match n with
  | O => None
  | S n => if negb (used (getfile s i)) then Some i else unused_slot n (i + 1) s
  end.

(** Lines 108-114 and 119-125: an empty file in slot [i]. *)
Definition install (i : Z) (norm : list Z) (s : kfs) : kfs :=
  hash_insert i (set_file i (File true (name_copy norm 128) 0 0 0) (invalidate s)).

(** The outer [option] is divergence, the inner one the null pointer. *)
Definition ramfs_dynamic_open_or_create (path : list Z) (s : kfs) : option (option Z * kfs) :=
  match ramfs_dynamic_lookup path s with
  | None => None
  | Some (Some i) => Some (Some i, s)
  | Some None =>
      let norm := normalize_path path in
      match unused_slot (Z.to_nat (high_water s)) 0 s with
      | Some i => Some (Some i, install i norm s)
      | None =>
          if high_water s <? RAMFS_MAX_DYNAMIC_FILES then
            let i := high_water s in
            Some (Some i, install i norm (set_high_water (high_water s + 1) s))
          else Some (None, s)
      end
  end.

Definition ramfs_dynamic_load (path : list Z) (data_ size_ : Z) (s : kfs) : option (Z * kfs) :=
  match ramfs_dynamic_open_or_create path s with
  | None => None
  | Some (None, s) => Some (-1, s)
  | Some (Some i, s) =>
      let f := getfile s i in
      Some (0, set_file i (File (used f) (name f) data_ size_ 0) s)
  end.

Definition ramfs_dynamic_truncate (i : Z) (s : kfs) : kfs :=
  let f := getfile s i in set_file i (File (used f) (name f) (data f) 0 (capacity f)) s.

(** ** Removal and renaming *)

(** [for (i = 0; i < pages; i++) pmm_free_page(base + i * PAGE_SIZE);] *)
Fixpoint free_pages_loop (n : nat) (base i : Z) (p : pmm) : pmm :=
  match n with
  | O => p
  | S n => free_pages_loop n base (i + 1) (pmm_free_page (u32 (base + i * PAGE_SIZE)) p)
  end.
(** Frees the pages behind [data], [capacity] bytes of them. *)
Definition free_backing (f : file) (s : kfs) : kfs :=
  if capacity f =? 0 then s
  else set_kpmm (free_pages_loop (Z.to_nat (u32 (capacity f / PAGE_SIZE))) (u32 (data f)) 0 (kpmm s)) s.

(** The pointer walk of lines 157-159 (and 177-179): follow [link] to the cell that holds
    [index + 1], and store [dynamic_next[index]] there,
    with [link] either the bucket's head ([None]) or the [next] cell of a slot. *)
Definition read_link (bucket : Z) (l : option Z) (s : kfs) : Z :=
  match l with None => aget (hash s) bucket | Some i => aget (next s) i end.
Definition write_link (bucket : Z) (l : option Z) (v : Z) (s : kfs) : kfs :=
  match l with None => set_hash bucket v s | Some i => set_next i v s end.
Fixpoint unchain_loop (fuel : nat) (bucket : Z) (l : option Z) (index : Z) (s : kfs) : option kfs :=
  match fuel with
  | O => None
  | S fuel =>
      let v := read_link bucket l s in
      if v =? 0 then Some s
      else if v - 1 =? index then Some (write_link bucket l (aget (next s) index) s)
      else unchain_loop fuel bucket (Some (v - 1)) index s
  end.
Definition unchain (index : Z) (s : kfs) : option kfs :=
  unchain_loop CHAIN_FUEL (name_hash (name (getfile s index))) None index s.

Definition ramfs_dynamic_unlink (path : list Z) (s : kfs) : option kfs :=
  match ramfs_dynamic_lookup path s with
  | None => None
  | Some None => Some s
  | Some (Some index) =>
      let f := getfile s index in
      let s := free_backing f s in
      match unchain index s with
      | None => None
      | Some s =>
          let s := set_next index 0 (invalidate s) in
          Some (set_file index (File false (name f) 0 0 0) s)
      end
  end.

Definition ramfs_dynamic_rename (old_path new_path : list Z) (s : kfs) : option (Z * kfs) :=
  match ramfs_dynamic_lookup old_path s with
  | None => None
  | Some None => Some (-1, s)
  | Some (Some index) =>
      let norm := normalize_path new_path in
      if 127 <? Z.of_nat (length norm) then Some (-1, s)
      else
        match ramfs_dynamic_unlink new_path s with
        | None => None
        | Some s =>
            match unchain index s with
            | None => None
            | Some s =>
                let f := getfile s index in
                let s := set_file index (File (used f) (name_copy norm 128) (data f) (size f) (capacity f)) s in
                Some (0, invalidate (hash_insert index s))
            end
        end
  end.

(** ** Contents *)

(** [while (c < needed) c *= 2;] *)
Fixpoint double_loop (fuel : nat) (c needed : Z) : option Z :=
  match fuel with
  | O => None
  | S fuel => if c <? needed then double_loop fuel (u64 (c * 2)) needed else Some c
  end.
(** 66 rounds: past 2^63 the doubled capacity is 0 and stays 0. *)
Definition ramfs_dynamic_grow (i needed : Z) (s : kfs) : option (Z * kfs) :=
  let f := getfile s i in
  if needed <=? capacity f then Some (0, s)
  else
    match double_loop 66 (if capacity f =? 0 then PAGE_SIZE else capacity f) needed with
    | None => None
    | Some new_capacity =>
        let '(new_base, p) := pmm_alloc_contiguous (u32 (new_capacity / PAGE_SIZE)) (kpmm s) in
        let s := set_kpmm p s in
        if new_base =? 0 then Some (-1, s)
        else
          let s := set_kmem (acopy (Z.to_nat (size f)) new_base (data f) (kmem s)) s in
          let s := free_backing f s in
          Some (0, set_file i (File (used f) (name f) new_base (size f) new_capacity) s)
    end.

(** [src] is the caller's buffer of [len] bytes. *)
Definition ramfs_dynamic_write (i offset : Z) (src : list Z) (s : kfs) : option (Z * kfs) :=
  let len := Z.of_nat (length src) in
  if len =? 0 then Some (0, s)
  else
    match ramfs_dynamic_grow i (u64 (offset + len)) s with
    | None => None
    | Some (r, s) =>
        if r <? 0 then Some (-1, s)
        else
          let f := getfile s i in
          let s := if size f <? offset
                   then set_kmem (afill (Z.to_nat (offset - size f)) (kmem s) (data f + size f) 0) s else s in
          let s := set_kmem (aputs src (data f + offset) (kmem s)) s in
          Some (0, if size f <? u64 (offset + len)
                   then set_file i (File (used f) (name f) (data f) (u64 (offset + len)) (capacity f)) s
                   else s)
    end.

(** ** Directories *)

Fixpoint prefix (s p : list Z) : bool :=
  match p with
  | [] => true
  | c :: p => match s with [] => false | d :: s => (d =? c) && prefix s p end
  end.

(** The bytes of [p] before its first slash. *)
Fixpoint component (p : list Z) : list Z :=
  match p with
  | [] => []
  | c :: p => if c =? SLASH then [] else c :: component p
  end.

(** What follows "dir/" in [path]; [None] is [return 0]. *)
Definition below (dir path : list Z) : option (list Z) :=
  match dir with
  | [] => Some path
  | _ =>
      if negb (prefix path dir) then None
      else match skipn (length dir) path with
           | c :: p => if c =? SLASH then Some p else None
           | [] => None
           end
  end.

Definition child_name (dir path : list Z) (capacity_ : Z) : option (list Z * bool) :=
  match below dir path with
  | None => None
  | Some [] => None
  | Some p =>
      let n := component p in
      if capacity_ <? Z.of_nat (length n) + 1 then None
      else Some (n, match skipn (length n) p with c :: _ => c =? SLASH | [] => false end)
  end.

Definition raw_child (dir : list Z) (raw capacity_ : Z) (s : kfs) : option dentry :=
  if raw <? NUM_APPLETS then
    match dir with
    | [] => Some (Dentry (name_copy (lit "bin") capacity_) true false)
    | _ =>
        if streq dir (lit "bin") then
          Some (Dentry (name_copy (nth (Z.to_nat raw) busybox_applets []) capacity_) false true)
        else None
    end
  else
    let slot := raw - NUM_APPLETS in
    if (RAMFS_MAX_DYNAMIC_FILES <=? slot) || negb (used (getfile s slot)) then None
    else
      match child_name dir (name (getfile s slot)) capacity_ with
      | None => None
      | Some (n, d) => Some (Dentry n d false)
      end.

(** The loop of lines 282-294: [n] raw indices left, [acc] the rows so far. *)
Fixpoint build_cache (n : nat) (raw : Z) (dir : list Z) (acc : list dentry) (s : kfs) : list dentry :=
  match n with
  | O => acc
  | S n =>
      if Z.of_nat (length acc) <? DIR_CACHE_ENTRIES then
        match raw_child dir raw 128 s with
        | None => build_cache n (raw + 1) dir acc s
        | Some e =>
            if existsb (fun r => streq (d_name e) (d_name r)) acc
            then build_cache n (raw + 1) dir acc s
            else build_cache n (raw + 1) dir
                   (acc ++ [Dentry (name_copy (d_name e) 128) (d_directory e) (d_symlink e)]) s
        end
      else acc
  end.
Definition listing (dir : list Z) (s : kfs) : list dentry :=
  build_cache (Z.to_nat (high_water s + NUM_APPLETS)) 0 dir [] s.

Definition ramfs_dir_entry (dir : list Z) (index capacity_ : Z) (s : kfs) : option dentry * kfs :=
  let s := if negb (cache_valid s) || negb (streq dir (cache_path s))
           then set_cache (name_copy dir 128) (listing dir s) true s else s in
  if Z.of_nat (length (cache s)) <=? index then (None, s)
  else match cache s !! Z.to_nat index with
       | Some e => (Some (Dentry (name_copy (d_name e) capacity_) (d_directory e) (d_symlink e)), s)
       | None => (None, s)
       end.

(** Is [norm] followed by a slash in [path]: the test of lines 312-314. *)
Definition under (norm path : list Z) : bool :=
  prefix path norm && match skipn (length norm) path with c :: _ => c =? SLASH | [] => false end.
Fixpoint is_dir_loop (n : nat) (i : Z) (norm : list Z) (s : kfs) : bool :=
  match n with
  | O => false
  | S n =>
      if used (getfile s i) && under norm (name (getfile s i)) then true
      else is_dir_loop n (i + 1) norm s
  end.
Definition ramfs_is_dir (dir : list Z) (s : kfs) : bool :=
  let norm := normalize_path dir in
  match norm with
  | [] => true
  | _ => if streq norm (lit "bin") then true else is_dir_loop (Z.to_nat (high_water s)) 0 norm s
  end.

(** The BusyBox alias: name, data and size of the [busybox] file. *)
Definition is_busybox (base : list Z) : bool :=
  streq base (lit "busybox") || existsb (streq base) busybox_applets.
Definition ramfs_lookup (path : list Z) (s : kfs) : option (option (list Z * Z * Z)) :=
  let base := basename_of path in
  if is_busybox base then
    match ramfs_dynamic_lookup (lit "busybox") s with
    | None => None
    | Some None => Some None
    | Some (Some i) => Some (Some (base, data (getfile s i), size (getfile s i)))
    end
  else Some None.

(** ** The initrd ([src/kernel/mm/tar.c]) *)

Definition TAR_BLOCK : Z := 512.
Definition TAR_NAME_LEN : nat := 100.
Definition TAR_SIZE_OFF : Z := 124.
Definition TAR_SIZE_LEN : nat := 12.
Definition TAR_TYPEFLAG_OFF : Z := 156.
Definition TAR_TYPE_REGULAR : Z := 48.

Fixpoint oct_loop (n : nat) (v p : Z) (m : gmap Z Z) : Z :=
  match n with
  | O => v
  | S n =>
      let c := aget m p in
      if (48 <=? c) && (c <=? 55) then oct_loop n (u64 (v * 8 + (c - 48))) (p + 1) m else v
  end.
Definition oct_to_ulong (p : Z) (maxlen : nat) (m : gmap Z Z) : Z := oct_loop maxlen 0 p m.

Fixpoint zero_loop (n : nat) (p : Z) (m : gmap Z Z) : bool :=
  match n with
  | O => true
  | S n => if negb (aget m p =? 0) then false else zero_loop n (p + 1) m
  end.
Definition block_all_zero (p : Z) (m : gmap Z Z) : bool := zero_loop (Z.to_nat TAR_BLOCK) p m.

Definition round_up_block (n : Z) : Z := u64 (n + TAR_BLOCK - 1) / TAR_BLOCK * TAR_BLOCK.

(** At most [n] bytes at [p], up to a NUL. *)
Fixpoint read_name (n : nat) (p : Z) (m : gmap Z Z) : list Z :=
  match n with
  | O => []
  | S n => if aget m p =? 0 then [] else aget m p :: read_name n (p + 1) m
  end.

(** [None]: some [ramfs_dynamic_load] would not return, or the fuel ran out. *)
Fixpoint tar_loop (fuel : nat) (data_ max_size off count : Z) (s : kfs) : option (Z * kfs) :=
  match fuel with
  | O => None
  | S fuel =>
      if negb (u64 (off + TAR_BLOCK) <=? max_size) then Some (count, s)
      else
        let hdr := data_ + off in
        if block_all_zero hdr (kmem s) then Some (count, s)
        else
          let typeflag := aget (kmem s) (hdr + TAR_TYPEFLAG_OFF) in
          let size_ := oct_to_ulong (hdr + TAR_SIZE_OFF) TAR_SIZE_LEN (kmem s) in
          let off := u64 (off + TAR_BLOCK) in
          let nm := read_name TAR_NAME_LEN hdr (kmem s) in
          let next_off := u64 (off + round_up_block size_) in
          if ((typeflag =? TAR_TYPE_REGULAR) || (typeflag =? 0)) &&
             match nm with [] => false | _ => u64 (off + size_) <=? max_size end then
            match ramfs_dynamic_load nm (data_ + off) size_ s with
            | None => None
            | Some (r, s) =>
                tar_loop fuel data_ max_size next_off (if r =? 0 then u32 (count + 1) else count) s
            end
          else tar_loop fuel data_ max_size next_off count s
  end.
Definition tar_load_initrd (data_ max_size : Z) (s : kfs) : option (Z * kfs) :=
  tar_loop (Z.to_nat (max_size / TAR_BLOCK + 1)) data_ max_size 0 0 s.
