(* ===== verification/RamfsInv.v ===== *)
(** The ramfs name table: the hash chains form a partial map from names to slots, every walk of a
    chain terminates, and create, unlink and rename are the map operations. *)
From S2P Require Import Prelude Pmm Ramfs.

Lemma streq_spec a b : streq a b = bool_decide (a = b).
Proof.
  revert b. induction a as [|x a IH]; intros [|y b]; cbn; try done.
  rewrite IH. destruct (Z.eqb_spec x y); subst; cbn.
  - repeat case_bool_decide; naive_solver.
  - case_bool_decide; naive_solver.
Qed.

Lemma name_hash_bound n : 0 <= name_hash n < 8192.
Proof. unfold name_hash. by apply (land_bound_r 13). Qed.

(** ** The representation invariant *)

(** The chain that starts at [link] visits exactly the slots [l]. *)
Fixpoint chained (nx : gmap Z Z) (link : Z) (l : list Z) : Prop :=
  match l with
  | [] => link = 0
  | i :: l => 0 <= i /\ link = i + 1 /\ chained nx (aget nx i) l
  end.

Definition slot_used (s : kfs) (i : Z) : Prop := used (getfile s i) = true.
(** Slot [i] holds the file named [n]. *)
Definition maps (s : kfs) (n : list Z) (i : Z) : Prop := slot_used s i /\ name (getfile s i) = n.

(** The chain of bucket [b]: the used slots whose names hash to [b], once each. *)
Definition bucket_ok (s : kfs) (b : Z) (l : list Z) : Prop :=
  chained (next s) (aget (hash s) b) l /\ NoDup l /\
  forall i, i ∈ l <-> slot_used s i /\ name_hash (name (getfile s i)) = b.

Record fs_ok (s : kfs) : Prop := {
  fs_high : 0 <= high_water s <= RAMFS_MAX_DYNAMIC_FILES;
  fs_range : forall i, slot_used s i -> 0 <= i < high_water s;
  fs_bucket : forall b, 0 <= b < RAMFS_MAX_DYNAMIC_FILES -> exists l, bucket_ok s b l;
  fs_names : forall n i j, maps s n i -> maps s n j -> i = j;
  fs_short : forall i, slot_used s i -> (length (name (getfile s i)) <= 127)%nat
}.

(** ** Walking a chain *)

Lemma chain_length s b l : fs_ok s -> bucket_ok s b l -> (length l < CHAIN_FUEL)%nat.
Proof.
  intros Hok (_ & Hnd & Hl).
  assert (l ⊆+ seqZ 0 RAMFS_MAX_DYNAMIC_FILES) as Hsub.
  { apply NoDup_submseteq; [done|]. intros i Hi. apply elem_of_seqZ.
    apply Hl in Hi as [Hu _]. apply (fs_range s Hok) in Hu. pose proof (fs_high s Hok). lia. }
  apply submseteq_length in Hsub. rewrite length_seqZ in Hsub. unfold CHAIN_FUEL.
  unfold RAMFS_MAX_DYNAMIC_FILES in *. lia.
Qed.

Lemma lookup_loop_spec fuel link norm s l :
  chained (next s) link l -> (length l < fuel)%nat -> (forall i, i ∈ l -> slot_used s i) ->
  (exists i, i ∈ l /\ maps s norm i /\ lookup_loop fuel link norm s = Some (Some i)) \/
  ((forall i, i ∈ l -> ~ maps s norm i) /\ lookup_loop fuel link norm s = Some None).
Proof.
  revert fuel link. induction l as [|i l IH]; intros fuel link Hc Hf Hu;
    (destruct fuel as [|fuel]; [cbn in Hf; lia|]); cbn [chained] in Hc.
  - subst link. right. split; [|done]. set_solver.
  - destruct Hc as (H0 & -> & Hc).
    assert (slot_used s i) as Hi by (apply Hu; by left).
    assert (lookup_loop (S fuel) (i + 1) norm s =
      if bool_decide (norm = name (getfile s i)) then Some (Some i)
      else lookup_loop fuel (aget (next s) i) norm s) as ->.
    { cbn [lookup_loop]. replace (i + 1 =? 0) with false by lia. replace (i + 1 - 1) with i by lia.
      by rewrite Hi, streq_spec. }
    case_bool_decide as Hn.
    + left. exists i. split; [by left|]. split; [|done]. by split.
    + cbn in Hf. destruct (IH fuel (aget (next s) i) Hc ltac:(lia)) as [(j & Hj & Hm & E1)|[Hno E1]].
      * intros j Hj. apply Hu. by right.
      * left. exists j. split; [by right|done].
      * right. split; [|done]. intros j Hj. apply elem_of_cons in Hj as [->|Hj]; [|by apply Hno].
        intros [_ ?]. congruence.
Qed.

(** Lookup returns, and finds the slot whose name is the normalized path. *)
Lemma dynamic_lookup_spec path s : fs_ok s ->
  exists r, ramfs_dynamic_lookup path s = Some r /\
    forall i, r = Some i <-> maps s (normalize_path path) i.
Proof.
  intros Hok. unfold ramfs_dynamic_lookup. set (n := normalize_path path).
  destruct (fs_bucket s Hok (name_hash n) (name_hash_bound n)) as [l Hl].
  pose proof (chain_length s _ l Hok Hl) as Hlen. destruct Hl as (Hc & Hnd & Hl).
  destruct (lookup_loop_spec CHAIN_FUEL _ n s l Hc Hlen) as [(i & Hi & Hm & E)|[Hno E]].
  - intros i Hi. by apply Hl in Hi as [? _].
  - exists (Some i). split; [done|]. intros j. split; [by intros [= <-]|].
    intros Hj. f_equal. by apply (fs_names s Hok n).
  - exists None. split; [done|]. intros j. split; [done|]. intros Hj. exfalso.
    apply (Hno j); [|done]. apply Hl. destruct Hj as [Hu <-]. done.
Qed.

Lemma lookup_found path s i : fs_ok s ->
  ramfs_dynamic_lookup path s = Some (Some i) <-> maps s (normalize_path path) i.
Proof.
  intros Hok. destruct (dynamic_lookup_spec path s Hok) as (r & -> & Hr). rewrite <- Hr.
  split; [by intros [= ->]|by intros ->].
Qed.

Lemma lookup_missing path s : fs_ok s ->
  ramfs_dynamic_lookup path s = Some None <-> forall i, ~ maps s (normalize_path path) i.
Proof.
  intros Hok. destruct (dynamic_lookup_spec path s Hok) as (r & -> & Hr). split.
  - intros [= ->] i Hm. by apply Hr in Hm.
  - intros Hno. destruct r as [i|]; [|done]. exfalso. apply (Hno i). by apply Hr.
Qed.

(** Lookups of a name agree when the slots that hold it agree. *)
Lemma lookup_ext path s s' : fs_ok s -> fs_ok s' ->
  (forall i, maps s (normalize_path path) i <-> maps s' (normalize_path path) i) ->
  ramfs_dynamic_lookup path s' = ramfs_dynamic_lookup path s.
Proof.
  intros Hok Hok' H. destruct (dynamic_lookup_spec path s Hok) as (r & -> & Hr).
  destruct r as [i|].
  - apply lookup_found; [done|]. apply H. by apply Hr.
  - apply lookup_missing; [done|]. intros i Hm. apply H, Hr in Hm. done.
Qed.

(** ** Chains under updates *)

Lemma chained_ext nx nx' link l :
  (forall i, i ∈ l -> aget nx' i = aget nx i) -> chained nx link l -> chained nx' link l.
Proof.
  revert link. induction l as [|i l IH]; intros link H Hc; [done|]. destruct Hc as (H0 & -> & Hc).
  split; [done|]. split; [done|]. rewrite H by (by left). apply IH; [|done].
  intros j Hj. apply H. by right.
Qed.

(** The state changes of [unchain] are links only. *)
Definition same_files (s s' : kfs) : Prop :=
  files s' = files s /\ high_water s' = high_water s /\ kmem s' = kmem s /\ kpmm s' = kpmm s /\
  cache s' = cache s /\ cache_path s' = cache_path s /\ cache_valid s' = cache_valid s.

Lemma unchain_loop_spec fuel b lp index s l :
  chained (next s) (read_link b lp s) l -> NoDup l -> index ∈ l -> (length l < fuel)%nat ->
  (forall i, lp = Some i -> i ∉ l) ->
  exists s', unchain_loop fuel b lp index s = Some s' /\ same_files s s' /\
    chained (next s') (read_link b lp s') (filter (fun i => i <> index) l) /\
    (forall i, i ∉ l -> lp <> Some i -> aget (next s') i = aget (next s) i) /\
    (forall b', b' <> b -> aget (hash s') b' = aget (hash s) b') /\
    (lp <> None -> aget (hash s') b = aget (hash s) b).
Proof.
  revert fuel lp. induction l as [|i l IH]; intros fuel lp Hc Hnd Hmem Hf Hlp; [set_solver|].
  destruct fuel as [|fuel]; [cbn in Hf; lia|]. cbn [unchain_loop].
  destruct Hc as (H0 & E & Hc). rewrite E. replace (i + 1 =? 0) with false by lia.
  replace (i + 1 - 1) with i by lia. apply NoDup_cons in Hnd as [Hi Hnd].
  destruct (Z.eqb_spec i index) as [->|Hne].
  - rewrite filter_cons_False, filter_ne_id by tauto.
    eexists. split; [done|]. destruct lp as [k|]; cbn [write_link read_link].
    + split; [done|]. assert (k ∉ index :: l) by (by apply Hlp). split; [|split; [|split; [|done]]].
      * cbn [next set_next]. rewrite aget_aset_eq. apply (chained_ext (next s)); [|done].
        intros j Hj. apply aget_aset_ne. set_solver.
      * intros j Hj Hk. apply aget_aset_ne. congruence.
      * done.
    + split; [done|]. split; [|split; [|split; [|done]]].
      * cbn [next hash set_hash]. by rewrite aget_aset_eq.
      * done.
      * intros b' Hb'. by apply aget_aset_ne.
  - cbn in Hf. destruct (IH fuel (Some i) Hc Hnd) as (s' & Es & Hsf & Hch & Hnx & Hhb & Hh);
      [set_solver|lia|by intros k [= <-]|].
    exists s'. split; [done|]. split; [done|].
    rewrite filter_cons_True by done. split; [|split; [|split]].
    + cbn [chained]. split; [done|]. split; [|done]. rewrite <- E.
      destruct lp as [k|]; cbn [read_link].
      * specialize (Hlp k eq_refl). apply Hnx; [set_solver|]. intros [= ->]. set_solver.
      * by apply Hh.
    + intros j Hj Hk. apply Hnx; [set_solver|]. intros [= ->]. set_solver.
    + done.
    + intros _. by apply Hh.
Qed.

(** ** Creating a file *)

Lemma getfile_set_file i j f s : getfile (set_file i f s) j = if decide (i = j) then f else getfile s j.
Proof.
  unfold getfile, set_file. cbn. case_decide; subst; [by rewrite lookup_insert_eq|].
  by rewrite lookup_insert_ne.
Qed.

(** The chains without slot [i]: what holds between unlinking it and inserting it again. *)
Definition bucket_but (i : Z) (s : kfs) (b : Z) (l : list Z) : Prop :=
  chained (next s) (aget (hash s) b) l /\ NoDup l /\
  forall j, j ∈ l <-> slot_used s j /\ name_hash (name (getfile s j)) = b /\ j <> i.
Definition detached (i : Z) (s : kfs) : Prop :=
  forall b, 0 <= b < RAMFS_MAX_DYNAMIC_FILES -> exists l, bucket_but i s b l.

(** [detached] says nothing about slot [i] itself. *)
Lemma detached_files i s s' :
  detached i s -> hash s' = hash s -> (forall j, j <> i -> aget (next s') j = aget (next s) j) ->
  (forall j, j <> i -> getfile s' j = getfile s j) -> detached i s'.
Proof.
  intros Hd Hh Hn Hf b Hb. destruct (Hd b Hb) as (l & Hc & Hnd & Hl). exists l. split; [|split; [done|]].
  - rewrite Hh. apply (chained_ext (next s)); [|done]. intros j Hj. apply Hn. apply Hl in Hj. tauto.
  - intros j. rewrite Hl. unfold slot_used.
    destruct (decide (j = i)) as [->|Hj]; [tauto|]. by rewrite (Hf j Hj).
Qed.

Lemma detached_unused i s : fs_ok s -> ~ slot_used s i -> detached i s.
Proof.
  intros Hok Hu b Hb. destruct (fs_bucket s Hok b Hb) as (l & Hc & Hnd & Hl). exists l.
  split; [done|]. split; [done|]. intros j. rewrite Hl. split; [|naive_solver].
  intros [? ?]. split; [done|]. split; [done|]. by intros ->.
Qed.

Lemma unchain_spec i s : fs_ok s -> slot_used s i ->
  exists s', unchain i s = Some s' /\ same_files s s' /\ detached i s'.
Proof.
  intros Hok Hu. unfold unchain. set (b := name_hash (name (getfile s i))).
  destruct (fs_bucket s Hok b (name_hash_bound _)) as [l Hb].
  pose proof (chain_length s b l Hok Hb) as Hlen. destruct Hb as (Hc & Hnd & Hl).
  assert (i ∈ l) as Hi by by apply Hl.
  destruct (unchain_loop_spec CHAIN_FUEL b None i s l Hc Hnd Hi Hlen) as (s' & E & Hsf & Hch & Hnx & Hhb & _);
    [done|].
  exists s'. split; [done|]. split; [done|]. intros b' Hb'.
  assert (forall j, getfile s' j = getfile s j) as Hg by (intros; unfold getfile; by destruct Hsf as [-> _]).
  unfold bucket_but, slot_used.
  destruct (decide (b' = b)) as [->|Hne].
  - exists (filter (fun j => j <> i) l). split; [done|]. split; [by apply NoDup_filter|].
    intros j. rewrite list_elem_of_filter, Hl, Hg. unfold slot_used. tauto.
  - destruct (fs_bucket s Hok b' Hb') as (l' & Hc' & Hnd' & Hl'). exists l'. split; [|split; [done|]].
    + rewrite Hhb by done. apply (chained_ext (next s)); [|done]. intros j Hj. apply Hnx; [|done].
      intros Hjl. apply Hl in Hjl as [_ Hjl]. apply Hl' in Hj as [_ Hj]. congruence.
    + intros j. rewrite Hl', Hg. unfold slot_used. split; [|tauto].
      intros [H1 H2]. split; [done|]. split; [done|]. intros ->. by apply Hne.
Qed.

Lemma hash_insert_files i s j : getfile (hash_insert i s) j = getfile s j.
Proof. done. Qed.

Lemma hash_insert_spec i s : detached i s -> slot_used s i -> 0 <= i < RAMFS_MAX_DYNAMIC_FILES ->
  forall b, 0 <= b < RAMFS_MAX_DYNAMIC_FILES -> exists l, bucket_ok (hash_insert i s) b l.
Proof.
  intros Hd Hu Hi b Hb. destruct (Hd b Hb) as (l & Hc & Hnd & Hl).
  assert (i ∉ l) as Hil by (intros H; apply Hl in H; tauto).
  assert (forall k v, chained (aset (next s) i v) k l <-> chained (next s) k l) as Hx.
  { intros k v. split; apply chained_ext; intros j Hj; [symmetry|]; apply aget_aset_ne; set_solver. }
  set (b0 := name_hash (name (getfile s i))).
  destruct (decide (b = b0)) as [->|Hne].
  - exists (i :: l). split; [|split].
    + unfold hash_insert. fold b0. cbn [next hash set_hash set_next chained].
      rewrite aget_aset_eq. split; [lia|]. split; [|by rewrite aget_aset_eq, Hx].
      unfold u16. apply Z.mod_small. unfold RAMFS_MAX_DYNAMIC_FILES in *. lia.
    + by apply NoDup_cons.
    + intros j. rewrite elem_of_cons, Hl. unfold slot_used. rewrite !hash_insert_files.
      destruct (decide (j = i)) as [->|]; naive_solver.
  - exists l. split; [|split; [done|]].
    + unfold hash_insert. fold b0. cbn [next hash set_hash set_next].
      rewrite aget_aset_ne by done. by apply Hx.
    + intros j. rewrite Hl. unfold slot_used. rewrite !hash_insert_files.
      destruct (decide (j = i)) as [->|]; naive_solver.
Qed.

(** Inserting slot [i] under a name no other slot holds. *)
Lemma insert_ok i n f s s' :
  fs_ok s -> detached i s' -> high_water s' = high_water s -> 0 <= i < high_water s ->
  (forall j, j <> i -> getfile s' j = getfile s j) -> getfile s' i = f ->
  used f = true -> name f = n -> (length n <= 127)%nat -> (forall j, j <> i -> ~ maps s n j) ->
  fs_ok (hash_insert i s').
Proof.
  intros Hok Hd Hh Hi Hj Hf Hu Hn Hlen Hno. pose proof (fs_high s Hok) as Hhw.
  assert (slot_used s' i) as Hui by (unfold slot_used; by rewrite Hf).
  assert (forall j, slot_used s' j -> j <> i -> slot_used s j) as Hus
    by (intros j H ?; unfold slot_used in *; by rewrite <- Hj).
  constructor.
  - change (high_water (hash_insert i s')) with (high_water s'). by rewrite Hh.
  - intros j Hju. change (high_water (hash_insert i s')) with (high_water s'). rewrite Hh.
    destruct (decide (j = i)) as [->|]; [done|]. apply (fs_range s Hok). by apply Hus.
  - apply hash_insert_spec; [done|done|lia].
  - intros m j k [Hj1 Hj2] [Hk1 Hk2]. rewrite hash_insert_files in Hj2, Hk2.
    unfold slot_used in Hj1, Hk1. rewrite hash_insert_files in Hj1, Hk1.
    destruct (decide (j = i)) as [->|Hji], (decide (k = i)) as [->|Hki]; [done| | |].
    + exfalso. apply (Hno k Hki). rewrite Hj in Hk1, Hk2 by done. split; [done|]. congruence.
    + exfalso. apply (Hno j Hji). rewrite Hj in Hj1, Hj2 by done. split; [done|]. congruence.
    + rewrite Hj in Hj1, Hj2, Hk1, Hk2 by done. by apply (fs_names s Hok m).
  - intros j Hju. rewrite hash_insert_files. destruct (decide (j = i)) as [->|Hji]; [congruence|].
    rewrite Hj by done. apply (fs_short s Hok), Hus; done.
Qed.

Lemma install_spec i n s :
  fs_ok s -> ~ slot_used s i -> 0 <= i < high_water s -> (length n <= 127)%nat ->
  (forall j, ~ maps s n j) ->
  let s' := install i n s in
  fs_ok s' /\ getfile s' i = File true n 0 0 0 /\ (forall j, j <> i -> getfile s' j = getfile s j).
Proof.
  intros Hok Hu Hi Hlen Hno s'.
  assert (name_copy n 128 = n) as En by (unfold name_copy; apply firstn_all2; lia).
  unfold s', install. rewrite En. set (s1 := set_file i _ _).
  assert (getfile s1 i = File true n 0 0 0) as Ei by (unfold s1; rewrite getfile_set_file; by case_decide).
  assert (forall j, j <> i -> getfile s1 j = getfile s j) as Ej.
  { intros j Hj. unfold s1. rewrite getfile_set_file. case_decide; [congruence|done]. }
  split; [|done].
  eapply (insert_ok i n _ s s1); try done.
  apply (detached_files i s); try done. by apply detached_unused.
Qed.

(** The invariant reads the name table only. *)
Lemma fs_ok_ext s s' :
  files s' = files s -> high_water s' = high_water s -> hash s' = hash s -> next s' = next s ->
  fs_ok s -> fs_ok s'.
Proof.
  destruct s, s'. cbn. intros -> -> -> -> []. by constructor.
Qed.

Lemma unused_slot_spec n i s :
  match unused_slot n i s with
  | Some j => i <= j < i + Z.of_nat n /\ ~ slot_used s j
  | None => forall j, i <= j < i + Z.of_nat n -> slot_used s j
  end.
Proof.
  revert i. induction n as [|n IH]; intros i; cbn [unused_slot]; [lia|].
  destruct (used (getfile s i)) eqn:E; cbn [negb].
  - specialize (IH (i + 1)). destruct (unused_slot n (i + 1) s) as [j|].
    + destruct IH. split; [lia|done].
    + intros j Hj. destruct (decide (j = i)) as [->|]; [done|]. apply IH. lia.
  - split; [lia|]. unfold slot_used. congruence.
Qed.

Lemma grow_high_ok s : fs_ok s -> high_water s < RAMFS_MAX_DYNAMIC_FILES ->
  fs_ok (set_high_water (high_water s + 1) s).
Proof.
  intros [] Hlt. constructor; try done.
  - cbn. lia.
  - intros i Hi. apply fs_range0 in Hi. cbn. lia.
Qed.

Lemma open_or_create_cases path s :
  fs_ok s -> (length (normalize_path path) <= 127)%nat ->
  exists r s', ramfs_dynamic_open_or_create path s = Some (r, s') /\ fs_ok s' /\
    (kmem s' = kmem s /\ kpmm s' = kpmm s /\ high_water s' <= high_water s + 1) /\
    match r with
    | Some i =>
        maps s' (normalize_path path) i /\ (forall j, j <> i -> getfile s' j = getfile s j) /\
        (s' = s \/ (~ slot_used s i /\ (forall j, ~ maps s (normalize_path path) j) /\
                    getfile s' i = File true (normalize_path path) 0 0 0))
    | None => s' = s /\ forall i, 0 <= i < RAMFS_MAX_DYNAMIC_FILES -> slot_used s i
    end.
Proof.
  intros Hok Hlen. unfold ramfs_dynamic_open_or_create. set (n := normalize_path path) in *.
  destruct (dynamic_lookup_spec path s Hok) as (r & E & Hr). fold n in Hr. rewrite E.
  destruct r as [i|].
  { exists (Some i), s. split; [done|]. split; [done|]. split; [split_and!; [done|done|lia]|].
    split; [by apply Hr|]. split; [done|by left]. }
  assert (forall j, ~ maps s n j) as Hno by (intros j Hj; by apply Hr in Hj).
  pose proof (fs_high s Hok) as Hhw.
  pose proof (unused_slot_spec (Z.to_nat (high_water s)) 0 s) as Hus.
  destruct (unused_slot _ _ _) as [i|].
  - destruct Hus as [Hi Hu].
    destruct (install_spec i n s Hok Hu ltac:(lia) Hlen Hno) as (Hok' & Ei & Ej).
    exists (Some i). eexists. split; [done|]. split; [done|]. split; [split_and!; [done|done|cbn; lia]|].
    split; [split; [unfold slot_used|]; by rewrite Ei|]. split; [done|]. right. done.
  - destruct (Z.ltb_spec (high_water s) RAMFS_MAX_DYNAMIC_FILES) as [Hlt|Hge].
    + set (s1 := set_high_water (high_water s + 1) s).
      assert (~ slot_used s1 (high_water s)) as Hu by (intros Hu; apply (fs_range s Hok) in Hu; lia).
      destruct (install_spec (high_water s) n s1 (grow_high_ok s Hok Hlt) Hu ltac:(cbn; lia) Hlen Hno)
        as (Hok' & Ei & Ej).
      exists (Some (high_water s)). eexists. split; [done|]. split; [done|].
      split; [split_and!; [done|done|cbn; lia]|].
      split; [split; [unfold slot_used|]; by rewrite Ei|]. split; [done|]. right. done.
    + exists None, s. split; [done|]. split; [done|]. split; [split_and!; [done|done|lia]|].
      split; [done|]. intros i Hi. apply Hus. lia.
Qed.

Lemma free_backing_table f s :
  files (free_backing f s) = files s /\ high_water (free_backing f s) = high_water s /\
  hash (free_backing f s) = hash s /\ next (free_backing f s) = next s /\ kmem (free_backing f s) = kmem s.
Proof. unfold free_backing. by destruct (_ =? 0). Qed.

Lemma free_backing_ok f s : fs_ok s -> fs_ok (free_backing f s).
Proof. destruct (free_backing_table f s) as (?&?&?&?&_). by apply fs_ok_ext. Qed.

(** Detaching a slot and marking it unused leaves a consistent table without it. *)
Lemma remove_ok i s s' :
  fs_ok s -> detached i s' -> high_water s' = high_water s -> ~ slot_used s' i ->
  (forall j, j <> i -> getfile s' j = getfile s j) -> fs_ok s'.
Proof.
  intros Hok Hd Hh Hu Hj.
  assert (forall j, slot_used s' j -> j <> i /\ slot_used s j) as Hus.
  { intros j H. assert (j <> i) by congruence. split; [done|]. unfold slot_used in *. by rewrite <- Hj. }
  constructor.
  - rewrite Hh. apply (fs_high s Hok).
  - intros j H. rewrite Hh. apply (fs_range s Hok). by apply Hus.
  - intros b Hb. destruct (Hd b Hb) as (l & Hc & Hnd & Hl). exists l. split; [done|]. split; [done|].
    intros j. rewrite Hl. split; [tauto|]. intros [H1 H2]. apply Hus in H1 as H3. tauto.
  - intros n j k [Hj1 Hj2] [Hk1 Hk2]. apply Hus in Hj1 as [? Hj1], Hk1 as [? Hk1].
    rewrite Hj in Hj2, Hk2 by done. by apply (fs_names s Hok n).
  - intros j H. apply Hus in H as [? ?]. rewrite Hj by done. by apply (fs_short s Hok).
Qed.

Lemma unlink_cases path s :
  fs_ok s ->
  exists s', ramfs_dynamic_unlink path s = Some s' /\ fs_ok s' /\
    high_water s' = high_water s /\ kmem s' = kmem s /\
    ((s' = s /\ forall j, ~ maps s (normalize_path path) j) \/
     exists i, maps s (normalize_path path) i /\ ~ slot_used s' i /\
       (forall j, j <> i -> getfile s' j = getfile s j)).
Proof.
  intros Hok. unfold ramfs_dynamic_unlink. set (n := normalize_path path).
  destruct (dynamic_lookup_spec path s Hok) as (r & E & Hr). fold n in Hr. rewrite E.
  destruct r as [i|].
  2: { exists s. do 4 (split; [done|]). left. split; [done|]. intros j Hj. by apply Hr in Hj. }
  assert (maps s n i) as Hm by by apply Hr.
  set (f := getfile s i). destruct (free_backing_table f s) as (F1 & F2 & F3 & F4 & F5).
  assert (slot_used (free_backing f s) i) as Hu by (unfold slot_used, getfile; rewrite F1; apply Hm).
  destruct (unchain_spec i (free_backing f s) (free_backing_ok f s Hok) Hu) as (s1 & -> & Hsf & Hd).
  destruct Hsf as (G1 & G2 & G3 & _). eexists. split; [done|].
  set (s' := set_file i _ _).
  assert (forall j, j <> i -> getfile s' j = getfile s j) as Hj.
  { intros j Hj. unfold s'. rewrite getfile_set_file. case_decide; [congruence|].
    unfold getfile. cbn. by rewrite G1, F1. }
  assert (~ slot_used s' i) as Hui.
  { unfold slot_used, s'. rewrite getfile_set_file. by case_decide. }
  assert (high_water s' = high_water s) as Hh by (cbn; congruence).
  split; [|split; [done|split; [cbn; congruence|]]].
  - apply (remove_ok i s s'); try done.
    apply (detached_files i s1); try done.
    + intros j Hji. cbn. by apply aget_aset_ne.
    + intros j Hji. unfold s'. rewrite getfile_set_file. case_decide; [congruence|done].
  - right. by exists i.
Qed.

(** ** Theorems *)

Lemma maps_frame s s' i n :
  (forall j, j <> i -> getfile s' j = getfile s j) -> ~ maps s n i -> ~ maps s' n i ->
  forall j, maps s n j <-> maps s' n j.
Proof.
  intros Hj H1 H2 j. destruct (decide (j = i)) as [->|Hne]; [tauto|].
  unfold maps, slot_used. by rewrite Hj.
Qed.

(** [ramfs_dynamic_open_or_create] always returns; it gives the file already there, or a new
    empty one, or 0 with all 8192 slots in use; after it the path is found and no other name
    has changed. *)
Theorem ramfs_create_correct path s :
  fs_ok s -> (length (normalize_path path) <= 127)%nat ->
  exists r s', ramfs_dynamic_open_or_create path s = Some (r, s') /\ fs_ok s' /\
    (forall q, normalize_path q <> normalize_path path ->
       ramfs_dynamic_lookup q s' = ramfs_dynamic_lookup q s) /\
    match r with
    | Some i => ramfs_dynamic_lookup path s' = Some (Some i) /\
        (ramfs_dynamic_lookup path s = Some None -> size (getfile s' i) = 0 /\ capacity (getfile s' i) = 0) /\
        (forall k, ramfs_dynamic_lookup path s = Some (Some k) -> i = k /\ s' = s)
    | None => ramfs_dynamic_lookup path s' = Some None /\
        forall i, 0 <= i < RAMFS_MAX_DYNAMIC_FILES -> slot_used s i
    end.
Proof.
  intros Hok Hlen. destruct (open_or_create_cases path s Hok Hlen) as (r & s' & E & Hok' & _ & Hr).
  exists r, s'. split; [done|]. split; [done|]. destruct r as [i|].
  - destruct Hr as (Hm & Hj & Hc). split; [|split; [|split]].
    + intros q Hq. apply lookup_ext; [done|done|]. apply (maps_frame s s' i); [done| |].
      * intros [Hu Hn]. destruct Hc as [->|(Hu' & _)]; [|done]. destruct Hm as [_ Hm]. congruence.
      * intros [_ Hn]. destruct Hm as [_ Hm]. congruence.
    + by apply lookup_found.
    + intros Hmiss. rewrite lookup_missing in Hmiss by done.
      destruct Hc as [->|(_ & _ & ->)]; [|done]. exfalso. by apply (Hmiss i).
    + intros k Hk. rewrite lookup_found in Hk by done.
      destruct Hc as [->|(_ & Hno & _)]; [|exfalso; by apply (Hno k)].
      split; [|done]. by apply (fs_names s Hok (normalize_path path)).
  - destruct Hr as [-> Hall]. split; [done|]. split; [|done]. apply lookup_missing; [done|].
    intros i Hm. apply (lookup_found path s i Hok) in Hm.
    unfold ramfs_dynamic_open_or_create in E. by rewrite Hm in E.
Qed.

(** [ramfs_dynamic_unlink] always returns; afterwards the path names no file, every other name
    is untouched, and no file content has changed. *)
Theorem ramfs_unlink_correct path s :
  fs_ok s ->
  exists s', ramfs_dynamic_unlink path s = Some s' /\ fs_ok s' /\ kmem s' = kmem s /\
    ramfs_dynamic_lookup path s' = Some None /\
    forall q, normalize_path q <> normalize_path path ->
      ramfs_dynamic_lookup q s' = ramfs_dynamic_lookup q s /\
      forall i, ramfs_dynamic_lookup q s = Some (Some i) -> getfile s' i = getfile s i.
Proof.
  intros Hok. destruct (unlink_cases path s Hok) as (s' & E & Hok' & _ & Hm & Hc).
  exists s'. do 3 (split; [done|]). destruct Hc as [[-> Hno]|(i & Hi & Hu & Hj)].
  - split; [by apply lookup_missing|done].
  - split.
    + apply lookup_missing; [done|]. intros j [Hju Hjn].
      destruct (decide (j = i)) as [->|Hne]; [done|]. apply Hne.
      unfold slot_used in Hju. rewrite Hj in Hju, Hjn by done.
      by apply (fs_names s Hok (normalize_path path)).
    + intros q Hq. assert (~ maps s (normalize_path q) i) as Hqi.
      { intros [_ Hn]. destruct Hi as [_ Hi]. congruence. }
      split.
      * apply lookup_ext; [done|done|]. apply (maps_frame s s' i); [done|done|]. by intros [? _].
      * intros k Hk. rewrite lookup_found in Hk by done. apply Hj. by intros ->.
Qed.

Lemma rename_spec old_path new_path s i :
  fs_ok s -> normalize_path old_path <> normalize_path new_path ->
  (length (normalize_path new_path) <= 127)%nat ->
  ramfs_dynamic_lookup old_path s = Some (Some i) ->
  exists s', ramfs_dynamic_rename old_path new_path s = Some (0, s') /\ fs_ok s' /\
    ramfs_dynamic_lookup new_path s' = Some (Some i) /\
    ramfs_dynamic_lookup old_path s' = Some None /\
    data (getfile s' i) = data (getfile s i) /\ size (getfile s' i) = size (getfile s i) /\
    capacity (getfile s' i) = capacity (getfile s i) /\ kmem s' = kmem s /\
    forall q, normalize_path q <> normalize_path old_path -> normalize_path q <> normalize_path new_path ->
      ramfs_dynamic_lookup q s' = ramfs_dynamic_lookup q s.
Proof.
  intros Hok Hne Hlen El. unfold ramfs_dynamic_rename. rewrite El.
  set (o := normalize_path old_path) in *. set (n := normalize_path new_path) in *.
  replace (127 <? Z.of_nat (length n)) with false by lia.
  apply (lookup_found old_path s i Hok) in El as Hm. fold o in Hm.
  destruct (unlink_cases new_path s Hok) as (s1 & -> & Hok1 & Hh1 & Hk1 & Hc). fold n in Hc.
  assert (getfile s1 i = getfile s i /\ (forall j, ~ maps s1 n j) /\
          (forall m j, m <> n -> maps s m j <-> maps s1 m j)) as (Ei & Hno & Hfr).
  { destruct Hc as [[-> Hno]|(k & Hk & Hu & Hj)]; [done|].
    assert (k <> i) as Hki by (intros ->; destruct Hk as [_ Hk], Hm as [_ Hm]; congruence).
    split; [by apply Hj|]. split.
    - intros j [Hju Hjn]. destruct (decide (j = k)) as [->|Hjk]; [done|]. apply Hjk.
      unfold slot_used in Hju. rewrite Hj in Hju, Hjn by done. by apply (fs_names s Hok n).
    - intros m j Hmn. apply (maps_frame s s1 k); [done| |by intros [? _]].
      intros [_ H]. destruct Hk as [_ Hk]. congruence. }
  assert (slot_used s1 i) as Hu1 by (unfold slot_used; rewrite Ei; apply Hm).
  destruct (unchain_spec i s1 Hok1 Hu1) as (s2 & -> & Hsf & Hd). destruct Hsf as (G1 & G2 & G3 & _).
  assert (forall j, getfile s2 j = getfile s1 j) as Hg by (intros; unfold getfile; by rewrite G1).
  rewrite Hg, Ei.
  assert (name_copy n 128 = n) as -> by (unfold name_copy; apply firstn_all2; lia).
  set (f := getfile s i). set (s3 := set_file i _ s2).
  assert (getfile s3 i = File (used f) n (data f) (size f) (capacity f)) as E3
    by (unfold s3; rewrite getfile_set_file; by case_decide).
  assert (forall j, j <> i -> getfile s3 j = getfile s1 j) as Hj3.
  { intros j Hj. unfold s3. rewrite getfile_set_file. case_decide; [congruence|]. apply Hg. }
  assert (fs_ok (hash_insert i s3)) as Hok3.
  { eapply (insert_ok i n (File true n (data f) (size f) (capacity f)) s1 s3); try done.
    - apply (detached_files i s2); try done. intros j Hj. by rewrite Hj3, Hg.
    - by apply (fs_range s1 Hok1).
    - rewrite E3. f_equal. apply Hm. }
  eexists. split; [done|]. set (s' := invalidate _).
  assert (fs_ok s') as Hok' by by apply (fs_ok_ext (hash_insert i s3)).
  assert (forall j, getfile s' j = getfile s3 j) as Hg' by done.
  assert (maps s' n i) as Hmn by (split; [unfold slot_used|]; rewrite Hg', E3; [apply Hm|done]).
  split; [done|]. split; [by apply lookup_found|]. split.
  { apply lookup_missing; [done|]. fold o. intros j [Hju Hjn]. unfold slot_used in Hju.
    rewrite Hg' in Hju, Hjn. destruct (decide (j = i)) as [->|Hji]; [rewrite E3 in Hjn; cbn in Hjn; congruence|].
    rewrite Hj3 in Hju, Hjn by done. apply Hji.
    apply (fs_names s1 Hok1 o); [by split|]. split; [done|]. rewrite Ei. apply Hm. }
  rewrite Hg', E3. do 3 (split; [done|]). split; [cbn; congruence|].
  intros q Hqo Hqn. fold o in Hqo. fold n in Hqn.
  transitivity (ramfs_dynamic_lookup q s1).
  - apply lookup_ext; [done|done|]. apply (maps_frame s1 s' i); [done| |].
    + intros [_ H]. rewrite Ei in H. destruct Hm as [_ Hm]. congruence.
    + intros [_ H]. rewrite Hg', E3 in H. cbn in H. congruence.
  - apply lookup_ext; [done|done|]. intros j. by apply Hfr.
Qed.

(** renaming a file to a different path of at most 127 bytes moves it there, replacing what was
    there; the file keeps its slot, contents and size, the old path becomes free and all
    other names stay. *)
Theorem ramfs_rename_correct old_path new_path s i :
  fs_ok s -> normalize_path old_path <> normalize_path new_path ->
  (length (normalize_path new_path) <= 127)%nat ->
  ramfs_dynamic_lookup old_path s = Some (Some i) ->
  exists s', ramfs_dynamic_rename old_path new_path s = Some (0, s') /\ fs_ok s' /\
    ramfs_dynamic_lookup new_path s' = Some (Some i) /\
    ramfs_dynamic_lookup old_path s' = Some None /\
    data (getfile s' i) = data (getfile s i) /\ size (getfile s' i) = size (getfile s i) /\
    capacity (getfile s' i) = capacity (getfile s i) /\ kmem s' = kmem s /\
    forall q, normalize_path q <> normalize_path old_path -> normalize_path q <> normalize_path new_path ->
      ramfs_dynamic_lookup q s' = ramfs_dynamic_lookup q s.
Proof. apply rename_spec. Qed.

(** ** Concrete tables *)

Definition pmm_bss : pmm := Pmm ∅ ∅ 0 0 0 0.
(** The statics at power-on, with the allocator in state [p] and memory [m]. *)
Definition fs_bss (p : pmm) (m : gmap Z Z) : kfs := Kfs ∅ 0 ∅ ∅ [] [] false p m.

Lemma fs_bss_ok p m : fs_ok (fs_bss p m).
Proof.
  assert (forall i, ~ slot_used (fs_bss p m) i) as Hu by (intros i; unfold slot_used, getfile; cbn; by rewrite lookup_empty).
  constructor.
  - unfold RAMFS_MAX_DYNAMIC_FILES. cbn. lia.
  - intros i Hi. by apply Hu in Hi.
  - intros b Hb. exists []. split; [apply aget_empty|]. split; [apply NoDup_nil_2|].
    intros i. split; [set_solver|]. intros [Hi _]. by apply Hu in Hi.
  - intros n i j [Hi _]. by apply Hu in Hi.
  - intros i Hi. by apply Hu in Hi.
Qed.

(** A table with one file, [bin/a]. *)
Definition fs_one : kfs :=
  match ramfs_dynamic_open_or_create (lit "/bin/a") (fs_bss pmm_bss ∅) with
  | Some (_, s) => s
  | None => fs_bss pmm_bss ∅
  end.

Lemma fs_one_ok : fs_ok fs_one.
Proof.
  unfold fs_one.
  destruct (open_or_create_cases (lit "/bin/a") (fs_bss pmm_bss ∅) (fs_bss_ok _ _))
    as (r & s & E & Hok & _); [vm_compute; lia|]. by rewrite E.
Qed.

Lemma ramfs_create_correct_witness :
  exists r s', ramfs_dynamic_open_or_create (lit "./x") fs_one = Some (r, s') /\ fs_ok s'.
Proof.
  destruct (ramfs_create_correct (lit "./x") fs_one fs_one_ok ltac:(vm_compute; lia))
    as (r & s' & E & Hok & _).
  exists r, s'. split; [exact E|exact Hok].
Defined.

Lemma ramfs_unlink_correct_witness :
  exists s', ramfs_dynamic_unlink (lit "bin/a") fs_one = Some s' /\
    ramfs_dynamic_lookup (lit "bin/a") s' = Some None.
Proof.
  destruct (ramfs_unlink_correct (lit "bin/a") fs_one fs_one_ok) as (s' & E & _ & _ & Hm & _).
  exists s'. split; [exact E|exact Hm].
Defined.

Lemma ramfs_rename_correct_witness :
  exists s', ramfs_dynamic_rename (lit "bin/a") (lit "b") fs_one = Some (0, s') /\
    ramfs_dynamic_lookup (lit "/b") s' = Some (Some 0).
Proof.
  destruct (ramfs_rename_correct (lit "bin/a") (lit "b") fs_one 0 fs_one_ok ltac:(by vm_compute)
    ltac:(vm_compute; lia) ltac:(vm_compute; reflexivity)) as (s' & E & _ & Hl & _).
  exists s'. split; [exact E|exact Hl].
Defined.

(** Renaming a path to itself.  The three steps of the scenario: create [a] and rename it to
    itself; create [a] again; look up [wjp], which hashes to the same bucket. *)
Definition self_rename : option (Z * kfs) :=
  match ramfs_dynamic_open_or_create (lit "a") (fs_bss pmm_bss ∅) with
  | Some (_, s) => ramfs_dynamic_rename (lit "a") (lit "a") s
  | None => None
  end.

(** [rename("a", "a")] reports success but loses the file: the path is gone afterwards; and
    once [a] is created again, its hash chain is a cycle, so looking up another name of the
    same bucket never returns. *)
Theorem ramfs_rename_self_loses_file :
  exists s, self_rename = Some (0, s) /\
    ramfs_dynamic_lookup (lit "a") s = Some None /\
    exists r s', ramfs_dynamic_open_or_create (lit "a") s = Some (r, s') /\
      forall fuel, lookup_loop fuel (aget (hash s') (name_hash (lit "wjp"))) (lit "wjp") s' = None.
Proof.
  eexists. split; [vm_compute; reflexivity|]. split; [vm_compute; reflexivity|].
  do 2 eexists. split; [vm_compute; reflexivity|].
  intros fuel. match goal with |- lookup_loop _ (aget (hash ?s) _) _ _ = _ => set (s' := s) end.
  assert (aget (hash s') (name_hash (lit "wjp")) = 1) as -> by (vm_compute; reflexivity).
  induction fuel as [|fuel IH]; [done|]. cbn [lookup_loop].
  replace (used (getfile s' (1 - 1)) && streq (lit "wjp") (name (getfile s' (1 - 1)))) with false
    by (vm_compute; reflexivity).
  replace (aget (next s') (1 - 1)) with 1 by (vm_compute; reflexivity). exact IH.
Qed.
