(* ===== verification/RamfsData.v ===== *)
(** File contents: [ramfs_dynamic_write] with its growth path against the byte-level meaning of a
    POSIX write, and the directory cache. *)
From S2P Require Import Prelude Pmm Ramfs RamfsInv.

(** ** Growing *)

Lemma double_loop_spec fuel c needed :
  0 < c -> needed <= 2 ^ 62 -> needed <= c * 2 ^ Z.of_nat fuel ->
  exists c', double_loop (S fuel) c needed = Some c' /\ needed <= c' /\ c <= c' /\
    (c' = c \/ c' < 2 * needed) /\ (c mod PAGE_SIZE = 0 -> c' mod PAGE_SIZE = 0).
Proof.
  revert c. induction fuel as [|fuel IH]; intros c Hc Hn Hf; cbn [double_loop].
  - replace (c <? needed) with false by (cbn in Hf; lia). exists c. repeat split; try lia.
  - destruct (Z.ltb_spec c needed) as [Hlt|Hge].
    + rewrite Nat2Z.inj_succ, Z.pow_succ_r in Hf by lia.
      change (2 ^ 62) with 4611686018427387904 in Hn.
      rewrite (u64_small (c * 2)) by lia.
      destruct (IH (c * 2)) as (c' & E & H1 & H2 & H3 & H4); [lia|done|lia|].
      exists c'. cbn [double_loop] in E. repeat split; try done; try lia.
      intros Hm. apply H4. unfold PAGE_SIZE in *. zlia.
    + exists c. repeat split; try lia.
Qed.

(** What the allocator gives the file: a run of pages nobody held. *)
Lemma alloc_run count p :
  pmm_ok p -> phys_base p <> 0 \/ aget (refs p) 0 <> 0 -> 1 <= count ->
  (pmm_alloc_contiguous count p = (0, p) /\ forall q, ~ free_run p q count) \/
  (exists q p', pmm_alloc_contiguous count p = (phys_base p + q * PAGE_SIZE, p') /\
     free_run p q count /\ pmm_ok p' /\ phys_base p + q * PAGE_SIZE <> 0).
Proof.
  intros Hok H0 Hc.
  assert (forall q, free_run p q count -> phys_base p + q * PAGE_SIZE <> 0) as Hne.
  { intros q (Hq0 & Hq1 & Hq2). pose proof (ok_base p Hok). unfold PAGE_SIZE in *.
    destruct H0 as [H0|H0]; [lia|]. destruct (decide (q = 0)) as [->|]; [|lia].
    exfalso. apply H0, Hq2. lia. }
  destruct (decide (count = 1)) as [->|Hn1].
  - unfold pmm_alloc_contiguous. cbn [Z.eqb Pos.eqb orb].
    destruct (Z.ltb_spec (total_pages p) 1) as [Ht|Ht].
    { left. split; [done|]. intros q (? & ? & _). lia. }
    destruct (alloc_page_cases p Hok) as [[E Hf]|(q & p' & E & (Hq & Hr & _) & Hok')].
    + left. split; [done|]. intros q (Hq0 & Hq1 & Hq2).
      rewrite (ok_free p Hok) in Hf. apply (proj1 (nfree_zero _ _) Hf q); [lia|]. apply Hq2. lia.
    + right. exists q, p'.
      assert (free_run p q 1) as Hfr
        by (split; [lia|]; split; [lia|]; intros x Hx; by replace x with q by lia).
      split; [done|]. split; [done|]. split; [done|]. by apply Hne.
  - destruct (alloc_contiguous_cases count p Hok ltac:(lia)) as [[E Hno]|(q & Hfr & E)].
    + by left.
    + right. exists q. eexists. split; [exact E|]. split; [done|]. split; [|by apply Hne].
      destruct Hfr as (? & ? & ?).
      assert (Z.of_nat (Z.to_nat count) = count) as Ec by lia.
      pose proof (take_range_ok (Z.to_nat count) q p Hok ltac:(lia) ltac:(lia) ltac:(by rewrite Ec)) as H'.
      by rewrite Ec in H'.
Qed.

(** The file's own bytes are not in a free page. *)
Definition live (s : kfs) (f : file) : Prop :=
  forall k p, 0 <= k < size f -> 0 <= p < total_pages (kpmm s) -> aget (refs (kpmm s)) p = 0 ->
    ~ (phys_base (kpmm s) + p * PAGE_SIZE <= data f + k < phys_base (kpmm s) + (p + 1) * PAGE_SIZE).

(** What a write needs of the file and the allocator; the last conjunct excludes a borrowed file
    longer than the backing the write allocates. *)
Record writable (s : kfs) (f : file) (needed : Z) : Prop := {
  w_pmm : pmm_ok (kpmm s);
  w_page0 : phys_base (kpmm s) <> 0 \/ aget (refs (kpmm s)) 0 <> 0;
  w_size : 0 <= size f <= 2 ^ 40;
  w_capacity : 0 <= capacity f <= 2 ^ 40 /\ capacity f mod PAGE_SIZE = 0;
  w_needed : 0 < needed <= 2 ^ 40;
  w_live : live s f;
  w_fits : size f <= Z.max needed (Z.max (capacity f) PAGE_SIZE);
  w_owned : capacity f <> 0 -> size f <= capacity f
}.

Lemma run_disjoint p q count a n :
  0 < n -> 0 < count -> (forall k r, 0 <= k < n -> q <= r < q + count ->
     ~ (phys_base p + r * PAGE_SIZE <= a + k < phys_base p + (r + 1) * PAGE_SIZE)) ->
  a + n <= phys_base p + q * PAGE_SIZE \/ phys_base p + (q + count) * PAGE_SIZE <= a.
Proof.
  intros Hn Hcount H. unfold PAGE_SIZE in *.
  destruct (Z.le_gt_cases (a + n) (phys_base p + q * 4096)) as [|H1]; [by left|].
  destruct (Z.le_gt_cases (phys_base p + (q + count) * 4096) a) as [|H2]; [by right|]. exfalso.
  (* a point in both ranges, and its page *)
  set (x := Z.max a (phys_base p + q * 4096)).
  apply (H (x - a) ((x - phys_base p) / 4096)); unfold x; zlia.
Qed.

(** After [ramfs_dynamic_grow]: room for [needed] bytes, the same bytes, and no store outside the
    file's own backing. *)
Definition grown (i needed : Z) (s s' : kfs) : Prop :=
  let f := getfile s i in let f' := getfile s' i in
  needed <= capacity f' /\ size f' = size f /\ used f' = used f /\ name f' = name f /\
  size f <= capacity f' /\
  (forall k, 0 <= k < size f -> aget (kmem s') (data f' + k) = aget (kmem s) (data f + k)) /\
  (forall a, ~ (data f' <= a < data f' + capacity f') -> aget (kmem s') a = aget (kmem s) a) /\
  (forall j, j <> i -> getfile s' j = getfile s j).

Lemma set_kpmm_eta s : set_kpmm (kpmm s) s = s.
Proof. by destruct s. Qed.

Lemma backing_grow_spec i needed s :
  writable s (getfile s i) needed ->
  ramfs_dynamic_grow i needed s = Some (-1, s) \/
  exists s', ramfs_dynamic_grow i needed s = Some (0, s') /\ grown i needed s s'.
Proof.
  intros [Hp H0 Hsz [Hcap Hmod] Hn Hlive Hfits Hown]. unfold ramfs_dynamic_grow.
  set (f := getfile s i) in *. change (2 ^ 40) with 1099511627776 in *.
  destruct (Z.leb_spec needed (capacity f)) as [Hle|Hgt].
  { right. exists s. split; [done|]. unfold grown. fold f.
    split; [done|]. do 3 (split; [done|]). split; [apply Hown; lia|]. done. }
  set (c0 := if capacity f =? 0 then PAGE_SIZE else capacity f).
  assert (PAGE_SIZE <= c0 /\ c0 mod PAGE_SIZE = 0 /\ c0 <= 1099511627776) as (Hc0 & Hc0m & Hc0b).
  { unfold c0, PAGE_SIZE in *. destruct (Z.eqb_spec (capacity f) 0).
    - split_and!; done.
    - split_and!; [zlia|done|lia]. }
  destruct (double_loop_spec 65 c0 needed) as (c & Ed & Hc1 & Hc2 & Hc3 & Hc4);
    [unfold PAGE_SIZE in *; lia|change (2 ^ 62) with 4611686018427387904; lia| |].
  { change (Z.of_nat 65) with 65. change (2 ^ 65) with 36893488147419103232. unfold PAGE_SIZE in *. lia. }
  specialize (Hc4 Hc0m). rewrite Ed.
  set (count := u32 (c / PAGE_SIZE)).
  assert (count = c / PAGE_SIZE) as Hcount by (apply u32_small; unfold PAGE_SIZE in *; zlia).
  assert (1 <= count /\ count * PAGE_SIZE = c) as [Hcnt1 Hcnt2] by (rewrite Hcount; unfold PAGE_SIZE in *; zlia).
  destruct (alloc_run count (kpmm s) Hp H0 Hcnt1) as [[E _]|(q & p' & E & Hfr & Hok' & Hne)].
  { left. rewrite E. cbn [Z.eqb]. by rewrite set_kpmm_eta. }
  right. rewrite E. set (base := phys_base (kpmm s) + q * PAGE_SIZE) in *.
  replace (base =? 0) with false by lia. eexists. split; [done|].
  set (f2 := File _ _ _ _ _). unfold grown. fold f.
  rewrite getfile_set_file. case_decide as Hii; [clear Hii|done].
  assert (size f <= c) as Hsc.
  { unfold c0, PAGE_SIZE in *. destruct (Z.eqb_spec (capacity f) 0); [lia|]. specialize (Hown ltac:(lia)). lia. }
  assert (size f = 0 \/ data f + size f <= base \/ base + size f <= data f) as Hdis.
  { destruct (decide (size f = 0)) as [|Hs0]; [by left|]. right.
    destruct Hfr as (Hq0 & Hq1 & Hq2).
    destruct (run_disjoint (kpmm s) q count (data f) (size f)) as [Hd1|Hd1]; [lia|lia| |by left|].
    - intros k r Hk Hr. apply Hlive; [done|lia|by apply Hq2].
    - right. unfold base. lia. }
  cbn [size capacity used name data f2].
  destruct (free_backing_table f (set_kmem (acopy (Z.to_nat (size f)) base (data f) (kmem (set_kpmm p' s)))
    (set_kpmm p' s))) as (F1 & F2 & F3 & F4 & F5).
  cbn [kmem set_file set_kmem set_kpmm] in *. rewrite F5.
  split; [done|]. do 3 (split; [done|]). split; [done|].
  assert (forall a, aget (acopy (Z.to_nat (size f)) base (data f) (kmem s)) a =
    if bool_decide (base <= a < base + size f) then aget (kmem s) (data f + (a - base)) else aget (kmem s) a) as Hcopy.
  { intros a. destruct Hdis as [->|Hdis].
    - cbn. by rewrite bool_decide_eq_false_2 by lia.
    - rewrite aget_acopy by lia. by rewrite Z2Nat.id by lia. }
  split; [|split].
  - intros k Hk. rewrite Hcopy, bool_decide_eq_true_2 by lia. f_equal. lia.
  - intros a Ha. rewrite Hcopy, bool_decide_eq_false_2 by lia. done.
  - intros j Hj. rewrite getfile_set_file. case_decide; [congruence|].
    unfold getfile. by rewrite F1.
Qed.

(** The bytes of a file after writing [src] at [offset]: old bytes, a zero-filled gap, the new
    bytes. *)
Definition written (old : Z -> Z) (old_size offset : Z) (src : list Z) (k : Z) : Z :=
  if bool_decide (offset <= k < offset + Z.of_nat (length src)) then nth (Z.to_nat (k - offset)) src 0
  else if k <? old_size then old k else 0.

(** a write of [len > 0] bytes at [offset] either fails with -1 and changes nothing, or leaves a
    file of size [max(size, offset + len)] whose bytes are the old ones, zeros in a gap past
    the old end, and the source bytes; nothing outside the file's backing is stored to and no
    other file's record changes. *)
Theorem ramfs_write_correct i offset src s :
  let len := Z.of_nat (length src) in let f := getfile s i in
  0 < len -> 0 <= offset -> writable s f (offset + len) ->
  ramfs_dynamic_write i offset src s = Some (-1, s) \/
  exists s', ramfs_dynamic_write i offset src s = Some (0, s') /\
    let f' := getfile s' i in
    size f' = Z.max (size f) (offset + len) /\ size f' <= capacity f' /\
    used f' = used f /\ name f' = name f /\
    (forall k, 0 <= k < size f' ->
       aget (kmem s') (data f' + k) = written (fun k => aget (kmem s) (data f + k)) (size f) offset src k) /\
    (forall a, ~ (data f' <= a < data f' + capacity f') -> aget (kmem s') a = aget (kmem s) a) /\
    (forall j, j <> i -> getfile s' j = getfile s j).
Proof.
  intros len f Hlen Hoff Hw. unfold ramfs_dynamic_write. fold len.
  replace (len =? 0) with false by lia.
  pose proof (w_needed _ _ _ Hw) as Hn. change (2 ^ 40) with 1099511627776 in Hn.
  rewrite (u64_small (offset + len)) by lia.
  pose proof (w_size _ _ _ Hw) as Hsz.
  destruct (backing_grow_spec i (offset + len) s Hw) as [->|(s1 & -> & Hg)]; [by left|].
  right. cbn [Z.ltb Z.compare]. fold f in Hsz.
  destruct Hg as (G1 & G2 & G3 & G4 & G5 & G6 & G7 & G8). fold f in G2, G3, G4, G5, G6.
  set (f1 := getfile s1 i) in *.
  set (s2 := if size f1 <? offset then _ else s1).
  assert (forall a, aget (kmem s2) a =
    if bool_decide (data f1 + size f1 <= a < data f1 + offset) then 0 else aget (kmem s1) a) as H2.
  { intros a. unfold s2. destruct (Z.ltb_spec (size f1) offset).
    - cbn [kmem set_kmem]. rewrite aget_afill.
      replace (data f1 + size f1 + Z.of_nat (Z.to_nat (offset - size f1))) with (data f1 + offset) by lia. done.
    - by rewrite bool_decide_eq_false_2 by lia. }
  assert (files s2 = files s1) as Hf2 by (unfold s2; by destruct (size f1 <? offset)).
  set (s3 := set_kmem _ s2).
  assert (forall a, aget (kmem s3) a =
    if bool_decide (data f1 + offset <= a < data f1 + offset + len) then nth (Z.to_nat (a - (data f1 + offset))) src 0
    else aget (kmem s2) a) as H3 by (intros a; apply aget_aputs).
  assert (getfile s3 i = f1) as Ef3 by (unfold getfile; cbn [files s3 set_kmem]; by rewrite Hf2).
  assert (forall j, j <> i -> getfile s3 j = getfile s j) as Hj3.
  { intros j Hj. rewrite <- G8 by done. unfold getfile. cbn [files s3 set_kmem]. by rewrite Hf2. }
  eexists. split; [done|]. set (s4 := if size f1 <? offset + len then _ else s3).
  assert (kmem s4 = kmem s3) as Hm4 by (unfold s4; by destruct (size f1 <? offset + len)).
  assert (getfile s4 i = File (used f1) (name f1) (data f1) (Z.max (size f) (offset + len)) (capacity f1)) as E4.
  { unfold s4. destruct (Z.ltb_spec (size f1) (offset + len)).
    - rewrite getfile_set_file. case_decide; [|done]. f_equal. lia.
    - rewrite Ef3, Z.max_l by lia. rewrite <- G2. by destruct f1. }
  assert (forall j, j <> i -> getfile s4 j = getfile s j) as Hj4.
  { intros j Hj. unfold s4. destruct (size f1 <? offset + len); [|by apply Hj3].
    rewrite getfile_set_file. case_decide; [congruence|by apply Hj3]. }
  cbv zeta. rewrite E4. cbn [size capacity used name data].
  split; [done|]. split; [lia|]. split; [done|]. split; [done|]. split; [|split; [|done]].
  - intros k Hk. rewrite Hm4, H3. unfold written. fold len.
    destruct (decide (offset <= k < offset + len)) as [Hin|Hout].
    { rewrite !bool_decide_eq_true_2 by lia. f_equal. lia. }
    rewrite !bool_decide_eq_false_2 by lia. rewrite H2. destruct (Z.ltb_spec k (size f)) as [Hks|Hks].
    + rewrite bool_decide_eq_false_2 by lia. apply G6. lia.
    + rewrite bool_decide_eq_true_2 by lia. done.
  - intros a Ha. rewrite Hm4, H3, bool_decide_eq_false_2 by lia.
    rewrite H2, bool_decide_eq_false_2 by lia. by apply G7.
Qed.

(** A file [bin/a] with the allocator of [pmm_example]. *)
Definition fs_example : kfs := set_kpmm pmm_example fs_one.

Lemma ramfs_write_correct_witness :
  exists s', ramfs_dynamic_write 0 3 (lit "hi") fs_example = Some (0, s') /\
    size (getfile s' 0) = 5.
Proof.
  assert (phys_base pmm_example <> 0) as Hb by (rewrite (proj2 pmm_example_ok); lia).
  assert (writable fs_example (getfile fs_example 0) (3 + 2)) as Hw.
  { assert (getfile fs_example 0 = File true (lit "bin/a") 0 0 0) as -> by (vm_compute; reflexivity).
    constructor; cbn [size capacity data]; unfold PAGE_SIZE;
      [exact (proj1 pmm_example_ok)|by left|lia|done|lia|intros k p Hk; cbn in Hk; lia|lia|lia]. }
  destruct (ramfs_write_correct 0 3 (lit "hi") fs_example ltac:(by vm_compute) ltac:(lia) Hw)
    as [E|(s' & E & Hs & _)].
  - exfalso. assert (fst <$> ramfs_dynamic_write 0 3 (lit "hi") fs_example = Some 0) as E0
      by (vm_compute; reflexivity).
    rewrite E in E0. discriminate E0.
  - exists s'. split; [exact E|]. rewrite Hs. vm_compute. reflexivity.
Defined.

(** ** A write to a borrowed file that is longer than the write *)

(** An initrd file of 4097 bytes at 0x80000100, loaded as [big]; its last byte is 65. *)
Definition borrowed : kfs :=
  match ramfs_dynamic_load (lit "big") 0x80000100 4097 (fs_bss pmm_example (aset ∅ 0x80001100 65)) with
  | Some (_, s) => s
  | None => fs_bss pmm_example ∅
  end.

Definition overflowed : kfs :=
  match ramfs_dynamic_write 0 0 [1] borrowed with Some (_, s) => s | None => borrowed end.

(** Writing one byte at offset 0 of an initrd file of 4097 bytes allocates one page for it but
    copies all 4097 old bytes, so a byte beyond the file's backing, in a page the allocator
    still counts as free, is overwritten. *)
Theorem ramfs_borrowed_write_overflows :
  exists s', ramfs_dynamic_write 0 0 [1] borrowed = Some (0, s') /\
    let f' := getfile s' 0 in
    size f' = 4097 /\ capacity f' = 4096 /\
    let a := data f' + 4096 in
    aget (kmem s') a = 65 /\ aget (kmem borrowed) a = 0 /\
    aget (refs (kpmm s')) (page_of a (kpmm s')) = 0 /\ page_of a (kpmm s') < total_pages (kpmm s').
Proof.
  exists overflowed. split; [|vm_compute; repeat split; reflexivity].
  unfold overflowed. destruct (ramfs_dynamic_write 0 0 [1] borrowed) as [[r s']|] eqn:E; cbn [fst snd].
  - f_equal. f_equal. change r with (default 0 (fst <$> Some (r, s'))). rewrite <- E. vm_compute. reflexivity.
  - exfalso. assert (fst <$> ramfs_dynamic_write 0 0 [1] borrowed = Some 0) as E0
      by (vm_compute; reflexivity). rewrite E in E0. discriminate E0.
Qed.

(** ** The directory cache *)

(** The cached rows are what a fresh scan would give. *)
Definition cache_ok (s : kfs) : Prop :=
  cache_valid s = true -> (length (cache_path s) <= 127)%nat /\ cache s = listing (cache_path s) s.

(** A listing reads which slots are used, and their names. *)
Definition same_names (s s' : kfs) : Prop :=
  high_water s' = high_water s /\
  forall i, used (getfile s' i) = used (getfile s i) /\ name (getfile s' i) = name (getfile s i).

#[export] Instance same_names_equiv : Equivalence same_names.
Proof.
  split; [done| |].
  - intros s s' [H1 H2]. split; [done|]. intros i. destruct (H2 i). done.
  - intros s s' s'' [H1 H2] [H3 H4]. split; [congruence|]. intros i. destruct (H2 i), (H4 i).
    split; congruence.
Qed.

#[export] Instance build_cache_proper :
  Proper (eq ==> eq ==> eq ==> eq ==> same_names ==> eq) build_cache.
Proof.
  intros n ? <- raw ? <- dir ? <- acc ? <- s s' [_ Hs].
  revert raw acc. induction n as [|n IH]; intros raw acc; [done|]. cbn [build_cache].
  assert (raw_child dir raw 128 s = raw_child dir raw 128 s') as ->.
  { unfold raw_child. destruct (Hs (raw - NUM_APPLETS)) as [-> ->]. done. }
  destruct (_ <? _); [|done]. destruct (raw_child _ _ _ _); [|apply IH].
  destruct (existsb _ _); apply IH.
Qed.
#[export] Instance listing_proper : Proper (eq ==> same_names ==> eq) listing.
Proof.
  intros dir ? <- s s' H. unfold listing. pose proof H as [-> _]. by apply build_cache_proper.
Qed.

(** Operations that keep the names keep the cache; the others invalidate it. *)
Lemma cache_ok_names s s' :
  cache_ok s -> same_names s s' -> cache_path s' = cache_path s -> cache s' = cache s ->
  cache_valid s' = cache_valid s -> cache_ok s'.
Proof.
  intros Hc Hn E1 E2 E3 Hv. rewrite E3 in Hv. destruct (Hc Hv) as [H1 H2].
  rewrite E1, E2. split; [done|]. by rewrite <- Hn.
Qed.

Lemma set_file_names i f s :
  used f = used (getfile s i) -> name f = name (getfile s i) -> same_names s (set_file i f s).
Proof.
  intros Hu Hn. split; [done|]. intros j. rewrite getfile_set_file. by case_decide; subst.
Qed.

Lemma truncate_cache i s : cache_ok s -> cache_ok (ramfs_dynamic_truncate i s).
Proof. intros Hc. apply (cache_ok_names s); try done. by apply set_file_names. Qed.

Lemma dir_entry_spec dir index capacity_ s :
  cache_ok s -> (length dir <= 127)%nat -> 0 <= index ->
  let '(r, s') := ramfs_dir_entry dir index capacity_ s in
  r = (match listing dir s !! Z.to_nat index with
       | Some e => Some (Dentry (name_copy (d_name e) capacity_) (d_directory e) (d_symlink e))
       | None => None
       end) /\ cache_ok s' /\ same_names s s'.
Proof.
  intros Hc Hd Hi. unfold ramfs_dir_entry.
  set (s1 := if _ || _ then _ else s).
  assert (cache s1 = listing dir s /\ cache_ok s1 /\ same_names s s1) as (E1 & Hc1 & Hn1).
  { unfold s1. destruct (negb (cache_valid s) || negb (streq dir (cache_path s))) eqn:E.
    - split; [done|]. split; [|done]. intros _. cbn [cache_path cache set_cache].
      assert (name_copy dir 128 = dir) as -> by (apply firstn_all2; lia).
      split; [done|]. by apply listing_proper.
    - apply orb_false_iff in E as [Ev Ep]. apply negb_false_iff in Ev, Ep.
      rewrite streq_spec in Ep. apply bool_decide_eq_true in Ep as ->.
      destruct (Hc Ev) as [_ ->]. done. }
  clearbody s1. rewrite E1.
  destruct (Z.leb_spec (Z.of_nat (length (listing dir s))) index) as [Hle|Hlt].
  - split; [|done]. by rewrite lookup_ge_None_2 by lia.
  - destruct (listing dir s !! Z.to_nat index); done.
Qed.

(** the directory cache is transparent: [ramfs_dir_entry] returns row [index] of a fresh scan of
    [dir] whatever was cached before, and keeps the cache coherent. *)
Theorem ramfs_dir_entry_correct dir index capacity_ s :
  cache_ok s -> (length dir <= 127)%nat -> 0 <= index ->
  let '(r, s') := ramfs_dir_entry dir index capacity_ s in
  r = (match listing dir s !! Z.to_nat index with
       | Some e => Some (Dentry (name_copy (d_name e) capacity_) (d_directory e) (d_symlink e))
       | None => None
       end) /\ cache_ok s' /\ same_names s s'.
Proof. apply dir_entry_spec. Qed.

Lemma ramfs_dir_entry_correct_witness :
  fst (ramfs_dir_entry (lit "bin") 40 128 fs_one) = Some (Dentry (lit "a") false false) /\
  cache_ok (snd (ramfs_dir_entry (lit "bin") 40 128 fs_one)).
Proof.
  split; [vm_compute; reflexivity|].
  assert (cache_ok fs_one) as Hc by (intros Hv; vm_compute in Hv; discriminate Hv).
  pose proof (ramfs_dir_entry_correct (lit "bin") 40 128 fs_one Hc ltac:(vm_compute; lia) ltac:(lia)) as H.
  destruct (ramfs_dir_entry (lit "bin") 40 128 fs_one) as [r s']. exact (proj1 (proj2 H)).
Defined.
