(* ===== verification/Tar.v ===== *)
(** The initrd loader ([src/kernel/mm/tar.c]): it terminates on any bytes, and it installs every
    file of a well-formed archive. *)
From S2P Require Import Prelude Pmm Ramfs RamfsInv.

(** ** [ramfs_dynamic_load] *)

Lemma load_cases path d sz s :
  fs_ok s -> (length (normalize_path path) <= 127)%nat ->
  exists r s', ramfs_dynamic_load path d sz s = Some (r, s') /\ fs_ok s' /\
    kmem s' = kmem s /\ high_water s' <= high_water s + 1 /\
    ((r = -1 /\ high_water s = RAMFS_MAX_DYNAMIC_FILES) \/
     (r = 0 /\ exists i, maps s' (normalize_path path) i /\
        data (getfile s' i) = d /\ size (getfile s' i) = sz /\ capacity (getfile s' i) = 0 /\
        (forall j, j <> i -> getfile s' j = getfile s j) /\
        (maps s (normalize_path path) i \/ ~ slot_used s i))).
Proof.
  intros Hok Hlen. unfold ramfs_dynamic_load.
  destruct (open_or_create_cases path s Hok Hlen) as (r & s1 & -> & Hok1 & (Hm1 & _ & Hh1) & Hr).
  destruct r as [i|].
  - destruct Hr as (Hm & Hj & Hc). eexists _, _. split; [done|]. set (s' := set_file i _ s1).
    assert (getfile s' i = File (used (getfile s1 i)) (name (getfile s1 i)) d sz 0) as Ei
      by (unfold s'; rewrite getfile_set_file; by case_decide).
    assert (forall j, j <> i -> getfile s' j = getfile s1 j) as Hj'.
    { intros j Hji. unfold s'. rewrite getfile_set_file. case_decide; [congruence|done]. }
    assert (forall j, used (getfile s' j) = used (getfile s1 j) /\ name (getfile s' j) = name (getfile s1 j)) as Hsame.
    { intros j. destruct (decide (j = i)) as [->|Hji]; [by rewrite Ei|by rewrite Hj']. }
    split; [|split; [done|split; [done|]]].
    + destruct Hok1. constructor; try done.
      * intros j Hu. apply fs_range. unfold slot_used in *. by rewrite <- (proj1 (Hsame j)).
      * intros b Hb. destruct (fs_bucket b Hb) as (l & Hc1 & Hnd & Hl). exists l.
        split; [done|]. split; [done|]. intros j. rewrite Hl. unfold slot_used.
        by destruct (Hsame j) as [-> ->].
      * intros n j k [Hj1 Hj2] [Hk1 Hk2]. unfold slot_used in *.
        destruct (Hsame j) as [Ej1 Ej2], (Hsame k) as [Ek1 Ek2].
        apply (fs_names n); (split; [unfold slot_used|]; congruence).
      * intros j Hu. unfold slot_used in Hu. destruct (Hsame j) as [E1 E2]. rewrite E1 in Hu.
        rewrite E2. by apply fs_short.
    + right. split; [done|]. exists i. rewrite Ei. cbn [data size capacity].
      split; [by destruct Hm as [Hu Hn]; split; [unfold slot_used|]; rewrite Ei|].
      do 3 (split; [done|]). split; [intros j Hji; rewrite Hj' by done; by apply Hj|].
      destruct Hc as [->|(Hu & _)]; [by left|by right].
  - destruct Hr as [-> Hall]. exists (-1), s. split; [done|]. split; [done|]. split; [done|].
    split; [lia|]. left. split; [done|]. pose proof (fs_high s Hok).
    destruct (decide (high_water s = RAMFS_MAX_DYNAMIC_FILES)) as [|Hne]; [done|]. exfalso.
    specialize (Hall (high_water s) ltac:(lia)). apply (fs_range s Hok) in Hall. lia.
Qed.

(** ** Lengths *)

Lemma skip_dots_length p : (length (skip_dots p) <= length p)%nat.
Proof.
  revert p. fix IH 1. intros [|a [|b p]]; cbn; try lia.
  destruct (_ && _); [|cbn; lia]. specialize (IH p). lia.
Qed.
Lemma normalize_length p : (length (normalize_path p) <= length p)%nat.
Proof.
  unfold normalize_path. destruct p as [|c p]; [cbn; lia|].
  destruct (c =? SLASH); [|apply skip_dots_length].
  pose proof (skip_dots_length p). cbn. lia.
Qed.
Lemma read_name_length n p m : (length (read_name n p m) <= n)%nat.
Proof.
  revert p. induction n as [|n IH]; intros p; cbn; [lia|]. destruct (_ =? 0); cbn; [lia|].
  specialize (IH (p + 1)). lia.
Qed.

Lemma oct_loop_bound n v p m : 0 <= v -> v * 8 ^ Z.of_nat n + 8 ^ Z.of_nat n <= 2 ^ 63 ->
  0 <= oct_loop n v p m < (v + 1) * 8 ^ Z.of_nat n.
Proof.
  revert v p. induction n as [|n IH]; intros v p Hv Hb; cbn [oct_loop]; [cbn; lia|].
  rewrite Nat2Z.inj_succ, Z.pow_succ_r in * by lia.
  pose proof (Z.pow_pos_nonneg 8 (Z.of_nat n) ltac:(lia) ltac:(lia)) as Hp.
  destruct (_ && _) eqn:E; [|nia].
  apply andb_true_iff in E as [E1 E2]. apply Z.leb_le in E1, E2.
  set (c := aget m p) in *. change (2 ^ 63) with 9223372036854775808 in *.
  rewrite (u64_small (v * 8 + (c - 48))) by nia.
  destruct (IH (v * 8 + (c - 48)) (p + 1)); [lia|nia|]. nia.
Qed.

Lemma tar_size_bound p m : 0 <= oct_to_ulong p TAR_SIZE_LEN m < 2 ^ 36.
Proof. apply (oct_loop_bound 12 0 p m); [done|]. by vm_compute. Qed.
Lemma round_up_bound n : 0 <= n < 2 ^ 36 -> n <= round_up_block n < n + 512.
Proof. intros Hn. unfold round_up_block, TAR_BLOCK. rewrite u64_small by lia. zlia. Qed.

(** ** Termination *)

Lemma tar_loop_returns fuel d max_size off count s :
  fs_ok s -> 0 <= off -> 0 <= max_size < 2 ^ 62 -> off <= max_size + 2 ^ 37 ->
  max_size - off < 512 * Z.of_nat fuel -> (0 < fuel)%nat ->
  exists n s', tar_loop fuel d max_size off count s = Some (n, s') /\ fs_ok s' /\ kmem s' = kmem s.
Proof.
  change (2 ^ 62) with 4611686018427387904. change (2 ^ 37) with 137438953472.
  revert off count s. induction fuel as [|fuel IH]; intros off count s Hok Ho Hm Hom Hf Hpos; [lia|].
  cbn [tar_loop]. rewrite (u64_small (off + TAR_BLOCK)) by (unfold TAR_BLOCK; lia).
  destruct (Z.leb_spec (off + TAR_BLOCK) max_size) as [Hle|Hgt]; cbn [negb]; [|by exists count, s].
  destruct (block_all_zero _ _); [by exists count, s|].
  set (sz := oct_to_ulong _ _ _).
  assert (0 <= sz < 2 ^ 36) as Hsz by apply tar_size_bound.
  pose proof (round_up_bound sz Hsz) as Hru. change (2 ^ 36) with 68719476736 in *. unfold TAR_BLOCK in *.
  rewrite (u64_small (off + 512 + round_up_block sz)), (u64_small (off + 512 + sz)) by lia.
  set (nm := read_name _ _ _).
  assert (forall c s1, fs_ok s1 -> kmem s1 = kmem s ->
    exists n s', tar_loop fuel d max_size (off + 512 + round_up_block sz) c s1 = Some (n, s') /\
      fs_ok s' /\ kmem s' = kmem s) as Hnext.
  { intros c s1 Hok1 Hk. destruct (IH (off + 512 + round_up_block sz) c s1) as (n & s' & E & Hok' & Hk');
      try done; try lia. exists n, s'. split; [done|]. split; [done|]. congruence. }
  destruct (_ && _); [|by apply Hnext].
  destruct (load_cases nm (d + (off + 512)) sz s Hok) as (r & s1 & -> & Hok1 & Hk1 & _).
  { pose proof (normalize_length nm). pose proof (read_name_length TAR_NAME_LEN (d + off) (kmem s)).
    unfold nm, TAR_NAME_LEN in *. lia. }
  by apply Hnext.
Qed.

(** [tar_load_initrd] returns on every memory content, valid archive or not, keeps the name table
    consistent and writes no file data. *)
Theorem tar_load_total d max_size s :
  fs_ok s -> 0 <= max_size < 2 ^ 62 ->
  exists n s', tar_load_initrd d max_size s = Some (n, s') /\ fs_ok s' /\ kmem s' = kmem s.
Proof.
  intros Hok Hm. unfold tar_load_initrd, TAR_BLOCK. apply tar_loop_returns; try done; try lia.
  - rewrite Z2Nat.id by zlia. zlia.
  - enough (0 < max_size / 512 + 1) by lia. zlia.
Qed.

Lemma tar_load_total_witness :
  exists n s', tar_load_initrd 4096 1024 (fs_bss pmm_bss ∅) = Some (n, s') /\ fs_ok s'.
Proof.
  destruct (tar_load_total 4096 1024 (fs_bss pmm_bss ∅) (fs_bss_ok _ _) ltac:(lia))
    as (n & s' & E & Hok & _).
  exists n, s'. split; [exact E|exact Hok].
Defined.

(** ** Well-formed archives *)

(** The bytes of [m] from [d + off] are an archive with the given entries (name, size), ending in a
    zero block before [max_size]. *)
Inductive archive (m : gmap Z Z) (d max_size : Z) : Z -> list (list Z * Z) -> Prop :=
  | archive_end off :
      off + TAR_BLOCK <= max_size -> block_all_zero (d + off) m = true ->
      archive m d max_size off []
  | archive_entry off nm sz rest :
      off + TAR_BLOCK <= max_size -> block_all_zero (d + off) m = false ->
      read_name TAR_NAME_LEN (d + off) m = nm -> nm <> [] ->
      aget m (d + off + TAR_TYPEFLAG_OFF) = TAR_TYPE_REGULAR ->
      oct_to_ulong (d + off + TAR_SIZE_OFF) TAR_SIZE_LEN m = sz ->
      off + TAR_BLOCK + sz <= max_size ->
      archive m d max_size (off + TAR_BLOCK + round_up_block sz) rest ->
      archive m d max_size off ((nm, sz) :: rest).

(** Every entry takes at least a block. *)
Lemma archive_length m d max_size off l :
  archive m d max_size off l -> 512 * (Z.of_nat (length l) + 1) + off <= max_size.
Proof.
  induction 1 as [off Hle Hz|off nm sz rest Hle Hz Hnm Hne Htf Hsz Hfit Ha IH]; unfold TAR_BLOCK in *;
    cbn [length]; [lia|].
  assert (0 <= sz < 2 ^ 36) as Hszb by (rewrite <- Hsz; apply tar_size_bound).
  pose proof (round_up_bound sz Hszb). lia.
Qed.

(** The data offsets of the entries. *)
Fixpoint entry_offsets (off : Z) (l : list (list Z * Z)) : list (list Z * Z * Z) :=
  match l with
  | [] => []
  | (nm, sz) :: l => (nm, sz, off + TAR_BLOCK) :: entry_offsets (off + TAR_BLOCK + round_up_block sz) l
  end.

(** Entry [(nm, sz, o)] is installed: borrowed storage at [d + o]. *)
Definition installed (d : Z) (s : kfs) (e : list Z * Z * Z) : Prop :=
  exists i, maps s (normalize_path (e.1.1)) i /\ data (getfile s i) = d + e.2 /\
    size (getfile s i) = e.1.2 /\ capacity (getfile s i) = 0.

Lemma tar_loop_archive fuel m d max_size off count l s :
  archive m d max_size off l -> fs_ok s -> kmem s = m -> 0 <= off -> 0 <= max_size < 2 ^ 62 ->
  (length l < fuel)%nat -> 0 <= count -> count + Z.of_nat (length l) < 4294967296 ->
  high_water s + Z.of_nat (length l) <= RAMFS_MAX_DYNAMIC_FILES ->
  NoDup (map (fun e => normalize_path (e.1)) l) ->
  exists s', tar_loop fuel d max_size off count s = Some (count + Z.of_nat (length l), s') /\ fs_ok s' /\
    Forall (installed d s') (entry_offsets off l) /\
    (forall n i, n ∉ map (fun e => normalize_path (e.1)) l -> maps s n i ->
       maps s' n i /\ getfile s' i = getfile s i).
Proof.
  change (2 ^ 62) with 4611686018427387904.
  intros Ha. revert fuel count s. induction Ha as [off Hle Hz|off nm sz rest Hle Hz Hnm Hne Htf Hsz Hfit Ha IH];
    intros fuel count s Hok Hk Ho Hm Hf Hc Hcb Hhw Hnd; (destruct fuel as [|fuel]; [cbn in Hf; lia|]);
    cbn [tar_loop]; rewrite (u64_small (off + TAR_BLOCK)) by (unfold TAR_BLOCK in *; lia).
  - replace (off + TAR_BLOCK <=? max_size) with true by lia. rewrite Hk, Hz. cbn [negb].
    exists s. cbn. rewrite Z.add_0_r. done.
  - replace (off + TAR_BLOCK <=? max_size) with true by lia. rewrite Hk, Hz, Hnm, Htf, Hsz. cbn [negb].
    assert (0 <= sz < 2 ^ 36) as Hszb by (rewrite <- Hsz; apply tar_size_bound).
    pose proof (round_up_bound sz Hszb) as Hru. change (2 ^ 36) with 68719476736 in *.
    rewrite (u64_small (off + TAR_BLOCK + round_up_block sz)), (u64_small (off + TAR_BLOCK + sz))
      by (unfold TAR_BLOCK in *; lia).
    rewrite Z.eqb_refl. cbn [orb]. replace (off + TAR_BLOCK + sz <=? max_size) with true by lia.
    destruct nm as [|c nm]; [done|]. cbn [andb]. set (path := c :: nm) in *.
    destruct (load_cases path (d + (off + TAR_BLOCK)) sz s Hok)
      as (r & s1 & -> & Hok1 & Hk1 & Hh1 & Hr).
    { pose proof (normalize_length path). pose proof (read_name_length TAR_NAME_LEN (d + off) m).
      rewrite Hnm in *. unfold TAR_NAME_LEN in *. lia. }
    cbn [length] in *. cbn [map] in Hnd. apply NoDup_cons in Hnd as [Hnin Hnd].
    destruct Hr as [[_ Hfull]|(-> & i & Hmi & Hd & Hs & Hcap & Hj & Hold)]; [lia|].
    cbn [Z.eqb]. rewrite (u32_small (count + 1)) by lia.
    destruct (IH fuel (count + 1) s1) as (s' & E & Hok' & Hall & Hkeep); try done; try lia;
      [congruence|unfold TAR_BLOCK in *; lia|].
    exists s'. split; [rewrite E; do 2 f_equal; lia|]. split; [done|]. split.
    + cbn [entry_offsets]. apply Forall_cons. split; [|done].
      destruct (Hkeep _ _ Hnin Hmi) as [Hm' Eg]. exists i. cbn. rewrite Eg. done.
    + intros n j Hn Hmj. apply not_elem_of_cons in Hn as [Hn1 Hn2].
      assert (j <> i) as Hji.
      { intros ->. destruct Hold as [[_ Hold]|Hold].
        - apply Hn1. destruct Hmj as [_ Hmj]. change ((path, sz).1) with path. congruence.
        - destruct Hmj as [Hmj _]. done. }
      assert (maps s1 n j) as Hm1 by (destruct Hmj as [? ?]; split; [unfold slot_used|]; by rewrite Hj).
      destruct (Hkeep n j Hn2 Hm1) as [? ->]. split; [done|]. by apply Hj.
Qed.


(** A one-file archive: [x], three bytes. *)
Definition tar_example : gmap Z Z :=
  aset (aset (aset (aset ∅ 4096 120) (4096 + 124) 51) (4096 + 156) 48) (4096 + 512) 7.

