(* ===== verification/LibTcc1.v ===== *)
(** The compiler's runtime library ([src/compiler/lib/libtcc1.c]): 64-bit division, the paired-word
    shifts the i386 backend calls, and the conversions from floating point to 64-bit integers.

    A [long long] is its signed value, an [unsigned long long] its unsigned one; a [float], [double]
    or x87 [long double] argument of the conversions is the bit pattern their unions read.  [None]
    is the trap of the deliberate [1U / zero]. *)
From S2P Require Import Prelude Rv64Float.
From Stdlib Require Import SpecFloat.

(** ** Division *)

(** The loop of [__udivmoddi4]: [k] rounds left. *)
Fixpoint udivmod_loop (k : nat) (n d q r : Z) : Z * Z :=
  match k with
  | O => (q, r)
  | S k =>
      let carry := Z.shiftr r 63 in
      let r := Z.lor (u64 (Z.shiftl r 1)) (Z.shiftr n 63) in
      let n := u64 (Z.shiftl n 1) in
      let q := u64 (Z.shiftl q 1) in
      if negb (carry =? 0) || (d <=? r) then udivmod_loop k n d (u64 (q + 1)) (u64 (r - d))
      else udivmod_loop k n d q r
  end.
Definition __udivmoddi4 (n d : Z) : option (Z * Z) :=
  if d =? 0 then None else Some (udivmod_loop 64 n d 0 0).

(** [DWunion]: the words of a [long long], and the [long long] of two words. *)
Definition dw_low (v : Z) : Z := i32 v.
Definition dw_high (v : Z) : Z := i32 (Z.shiftr v 32).
Definition dw_make (high low : Z) : Z := i64 (high * 4294967296 + u32 low).
Definition __negdi2 (v : Z) : Z := i64 (- v).

Definition __divdi3 (u v : Z) : option Z :=
  let '(c, uu) := if dw_high u <? 0 then (true, __negdi2 u) else (false, u) in
  let '(c, vv) := if dw_high v <? 0 then (negb c, __negdi2 v) else (c, v) in
  match __udivmoddi4 (u64 uu) (u64 vv) with
  | None => None
  | Some (w, _) => Some (if c then __negdi2 (i64 w) else i64 w)
  end.
Definition __moddi3 (u v : Z) : option Z :=
  let '(c, uu) := if dw_high u <? 0 then (true, __negdi2 u) else (false, u) in
  let vv := if dw_high v <? 0 then __negdi2 v else v in
  match __udivmoddi4 (u64 uu) (u64 vv) with
  | None => None
  | Some (_, w) => Some (if c then __negdi2 (i64 w) else i64 w)
  end.
Definition __udivdi3 (u v : Z) : option Z := option_map fst (__udivmoddi4 u v).
Definition __umoddi3 (u v : Z) : option Z := option_map snd (__udivmoddi4 u v).

(** ** Shifts of a pair of words (the [__i386__] branches; the others are C's own shifts) *)

Definition __ashrdi3 (a b : Z) : Z :=
  let low := dw_low a in
  let high := dw_high a in
  if 32 <=? b then dw_make (Z.shiftr high 31) (Z.shiftr high (b - 32))
  else if negb (b =? 0) then
    dw_make (Z.shiftr high b) (i32 (Z.lor (Z.shiftr (u32 low) b) (u32 (Z.shiftl high (32 - b)))))
  else a.
Definition __lshrdi3 (a b : Z) : Z :=
  let low := dw_low a in
  let high := dw_high a in
  u64 (if 32 <=? b then dw_make 0 (i32 (Z.shiftr (u32 high) (b - 32)))
       else if negb (b =? 0) then
         dw_make (i32 (Z.shiftr (u32 high) b))
           (i32 (Z.lor (Z.shiftr (u32 low) b) (u32 (Z.shiftl high (32 - b)))))
       else a).
Definition __ashldi3 (a b : Z) : Z :=
  let low := dw_low a in
  let high := dw_high a in
  if 32 <=? b then dw_make (i32 (u32 (Z.shiftl (u32 low) (b - 32)))) 0
  else if negb (b =? 0) then
    dw_make (i32 (Z.lor (u32 (Z.shiftl (u32 high) b)) (Z.shiftr (u32 low) (32 - b))))
      (i32 (u32 (Z.shiftl (u32 low) b)))
  else a.

(** ** Floating point to integer *)

Definition EXP (fp : Z) : Z := Z.land (Z.shiftr fp 23) 0xFF.
Definition MANT (fp : Z) : Z := Z.lor (Z.land fp 0x7FFFFF) (Z.shiftl 1 23).
Definition EXCESS : Z := 126.
Definition EXPD (fp : Z) : Z := Z.land (Z.shiftr (dw_high fp) 20) 0x7FF.
Definition MANTD_LL (fp : Z) : Z := Z.lor (Z.land fp (Z.shiftl 1 52 - 1)) (Z.shiftl 1 52).
Definition EXCESSD : Z := 1022.
Definition EXPLD (upper : Z) : Z := Z.land upper 0x7fff.
Definition EXCESSLD : Z := 16382.

(** [l << exp], [l >> -exp] or a saturated or zero result; the thresholds are the functions' own. *)
Definition __fixunssfdi (a1 : Z) : Z :=
  if a1 =? 0 then 0
  else
    let exp := EXP a1 - EXCESS - 24 in
    let l := MANT a1 in
    if 41 <=? exp then 18446744073709551615
    else if 0 <=? exp then u64 (Z.shiftl l exp)
    else if -23 <=? exp then Z.shiftr l (- exp)
    else 0.
Definition __fixunsdfdi (a1 : Z) : Z :=
  if a1 =? 0 then 0
  else
    let exp := EXPD a1 - EXCESSD - 53 in
    let l := MANTD_LL a1 in
    if 12 <=? exp then 18446744073709551615
    else if 0 <=? exp then u64 (Z.shiftl l exp)
    else if -52 <=? exp then Z.shiftr l (- exp)
    else 0.
(** An 80-bit x87 number as its [lower] and [upper] members. *)
Definition __fixunsxfdi (lower upper : Z) : Z :=
  if (lower =? 0) && (upper =? 0) then 0
  else
    let exp := EXPLD upper - EXCESSLD - 64 in
    if 0 <? exp then 18446744073709551615
    else if -63 <=? exp then Z.shiftr lower (- exp)
    else 0.

(** [a1 >= 0] and [-a1] of a value given by its bits. *)
Definition ge_zero (x : spec_float) : bool :=
  match SFcompare x (S754_zero false) with Some Lt => false | None => false | _ => true end.
Definition __fixsfdi (a1 : Z) : Z :=
  let s := ge_zero (f32_of_bits a1) in
  let ret := i64 (__fixunssfdi (if s then a1 else Z.lxor a1 0x80000000)) in
  if s then ret else i64 (- ret).
Definition __fixdfdi (a1 : Z) : Z :=
  let s := ge_zero (f64_of_bits a1) in
  let ret := i64 (__fixunsdfdi (if s then a1 else Z.lxor a1 0x8000000000000000)) in
  if s then ret else i64 (- ret).
(** [a1 >= 0] of an x87 number: false on a NaN, true on both zeros. *)
Definition xf_ge_zero (lower upper : Z) : bool :=
  if (EXPLD upper =? 0x7fff) && negb (Z.land lower 0x7fffffffffffffff =? 0) then false
  else (Z.land upper 0x8000 =? 0) || (lower =? 0) && (EXPLD upper =? 0).
Definition __fixxfdi (lower upper : Z) : Z :=
  let s := xf_ge_zero lower upper in
  let ret := i64 (__fixunsxfdi lower (if s then upper else Z.lxor upper 0x8000)) in
  if s then ret else i64 (- ret).

(** ** Integer to floating point

    [XFtype] is x87's 80-bit format (64 significand bits); the first branch converts the signed
    number directly. *)
Definition xf_of_Z (v : Z) : spec_float := binary_normalize 64 16384 v 0 false.
Definition xf_big (a : Z) : spec_float := SFadd 64 16384 (xf_of_Z (i64 a)) (xf_of_Z 18446744073709551616).
Definition __floatundisf (a : Z) : spec_float :=
  if 0 <=? dw_high (i64 a) then sf_round 23 8 (i64 a) 0 false else sf_convert 23 8 (xf_big a).
Definition __floatundidf (a : Z) : spec_float :=
  if 0 <=? dw_high (i64 a) then sf_round 52 11 (i64 a) 0 false else sf_convert 52 11 (xf_big a).
Definition __floatundixf (a : Z) : spec_float :=
  if 0 <=? dw_high (i64 a) then xf_of_Z (i64 a) else xf_big a.

(** ** Restoring division divides *)

Lemma udivmod_loop_spec k m d q r : (k <= 64)%nat ->
  0 <= m < 2 ^ Z.of_nat k -> 0 <= r < d -> d < 18446744073709551616 ->
  0 <= q < 2 ^ (64 - Z.of_nat k) ->
  udivmod_loop k (m * 2 ^ (64 - Z.of_nat k)) d q r =
  (q * 2 ^ Z.of_nat k + (r * 2 ^ Z.of_nat k + m) / d, (r * 2 ^ Z.of_nat k + m) mod d).
Proof.
  revert m q r. induction k as [|k IH]; intros m q r Hk Hm Hr Hd Hq.
  { cbn [udivmod_loop]. change (2 ^ Z.of_nat 0) with 1 in *. rewrite !Z.mul_1_r.
    assert (m = 0) as -> by lia. rewrite Z.add_0_r, Z.div_small, Z.mod_small by lia. f_equal; lia. }
  cbn [udivmod_loop]. set (K := Z.of_nat k) in *.
  assert (Z.of_nat (S k) = K + 1) as Ek by lia. rewrite Ek in *.
  assert (2 ^ (K + 1) = 2 * 2 ^ K) as E2 by (rewrite Z.pow_add_r by lia; lia).
  assert (2 ^ (64 - K) = 2 * 2 ^ (64 - (K + 1))) as E2'
    by (replace (64 - K) with (64 - (K + 1) + 1) by lia; rewrite Z.pow_add_r by lia; lia).
  assert (2 ^ K * 2 ^ (64 - (K + 1)) = 9223372036854775808) as E3.
  { rewrite <- Z.pow_add_r by lia. by replace (K + (64 - (K + 1))) with 63 by lia. }
  assert (0 < 2 ^ K) as HK by (apply Z.pow_pos_nonneg; lia).
  set (A := 2 ^ K) in *. set (B := 2 ^ (64 - (K + 1))) in *.
  (* the next bit of the dividend, and the rest *)
  set (t := m / A). set (m' := m mod A).
  assert (m = t * A + m' /\ 0 <= t < 2 /\ 0 <= m' < A) as (Em & Ht & Hm').
  { subst t m'. pose proof (Z.div_mod m A). pose proof (Z.mod_pos_bound m A).
    assert (m / A < 2) by (apply Z.div_lt_upper_bound; lia). assert (0 <= m / A) by (apply Z.div_pos; lia). lia. }
  assert (Z.shiftr (m * B) 63 = t) as ->.
  { rewrite Z.shiftr_div_pow2 by lia. change (2 ^ 63) with 9223372036854775808.
    symmetry. apply (Z.div_unique _ _ _ (m' * B)); nia. }
  assert (u64 (Z.shiftl (m * B) 1) = m' * 2 ^ (64 - K)) as ->.
  { rewrite Z.shiftl_mul_pow2, E2' by lia. symmetry. apply (Z.mod_unique _ _ t); nia. }
  assert (u64 (Z.shiftl q 1) = 2 * q) as -> by (rewrite Z.shiftl_mul_pow2 by lia; rewrite u64_small; nia).
  rewrite Z.shiftl_mul_pow2, Z.shiftr_div_pow2 by lia. change (2 ^ 1) with 2. change (2 ^ 63) with 9223372036854775808.
  assert (Z.lor (u64 (r * 2)) t = u64 (r * 2) + t) as ->.
  { assert (exists c, u64 (r * 2) = c * 2 ^ 1) as [c ->].
    { exists ((r * 2) mod 18446744073709551616 / 2). unfold u64. change (2 ^ 1) with 2. zlia. }
    apply lor_add; lia. }
  assert (negb (r / 9223372036854775808 =? 0) || (d <=? u64 (r * 2) + t) = (d <=? 2 * r + t)) as ->.
  { unfold u64. destruct (Z.leb_spec d (2 * r + t)); zlia. }
  assert (r * (2 * A) + m = (2 * r + t) * A + m') as En by lia.
  destruct (Z.leb_spec d (2 * r + t)) as [Hge|Hlt].
  - assert (u64 (u64 (r * 2) + t - d) = 2 * r + t - d) as -> by (unfold u64; zlia).
    rewrite (u64_small (2 * q + 1)) by nia. rewrite IH by nia.
    rewrite E2. assert (r * (2 * A) + m = (2 * r + t - d) * A + m' + A * d) as -> by lia.
    rewrite Z.div_add, Z.mod_add by lia. f_equal. lia.
  - assert (u64 (r * 2) + t = 2 * r + t) as -> by (unfold u64; zlia).
    rewrite IH by nia. rewrite E2, En. f_equal. lia.
Qed.

Lemma udivmoddi4_spec n d : isu64 n -> 0 < d < 18446744073709551616 ->
  __udivmoddi4 n d = Some (n / d, n mod d).
Proof.
  intros Hn Hd. unfold __udivmoddi4. replace (d =? 0) with false by lia. f_equal.
  pose proof (udivmod_loop_spec 64 n d 0 0 ltac:(lia)) as H. change (64 - Z.of_nat 64) with 0 in H.
  change (2 ^ 0) with 1 in H. rewrite Z.mul_1_r in H. rewrite H by (cbn; lia). by rewrite Z.mul_0_l.
Qed.

Abbreviation iss64 v := (-9223372036854775808 <= v < 9223372036854775808).

Lemma dw_high_neg u : iss64 u -> (dw_high u <? 0) = (u <? 0).
Proof.
  intros Hu. unfold dw_high. rewrite Z.shiftr_div_pow2 by lia. change (2 ^ 32) with 4294967296.
  rewrite i32_small by zlia. zlia.
Qed.

Lemma u64_abs u : iss64 u -> u64 (if u <? 0 then __negdi2 u else u) = Z.abs u.
Proof. intros. unfold __negdi2, u64, i64. destruct (Z.ltb_spec u 0); zlia. Qed.

(** C38: [__divdi3] and [__moddi3] are C's truncating division and remainder at 64 bits for every
    pair of operands (the one overflowing quotient wraps), their unsigned versions are
    the Euclidean ones, and every one of them traps on a zero divisor. *)
Theorem division_correct u v : iss64 u -> iss64 v ->
  __divdi3 u v = (if v =? 0 then None else Some (i64 (Z.quot u v))) /\
  __moddi3 u v = (if v =? 0 then None else Some (Z.rem u v)) /\
  __udivdi3 (u64 u) (u64 v) = (if v =? 0 then None else Some (u64 u / u64 v)) /\
  __umoddi3 (u64 u) (u64 v) = (if v =? 0 then None else Some (u64 u mod u64 v)).
Proof.
  intros Hu Hv. unfold __divdi3, __moddi3, __udivdi3, __umoddi3. rewrite !dw_high_neg by done.
  pose proof (u64_abs u Hu) as Eu. pose proof (u64_abs v Hv) as Ev.
  destruct (Z.eqb_spec v 0) as [->|Hv0]; [by destruct (u <? 0)|].
  rewrite !(udivmoddi4_spec (u64 u) (u64 v)) by (try apply u64_bound; unfold u64; zlia).
  assert (__udivmoddi4 (Z.abs u) (Z.abs v) = Some (Z.abs u / Z.abs v, Z.abs u mod Z.abs v)) as Hd
    by (apply udivmoddi4_spec; lia).
  destruct (quot_rem_abs u v Hv0) as [-> ->].
  assert (0 <= Z.abs u / Z.abs v) by (apply Z.div_pos; lia).
  pose proof (Z.mod_pos_bound (Z.abs u) (Z.abs v)) as HR.
  set (Q := Z.abs u / Z.abs v) in *. set (R := Z.abs u mod Z.abs v) in *.
  destruct (u <? 0), (v <? 0); rewrite Eu, Ev, Hd; cbn [negb xorb option_map fst snd];
    (split; [|split; [|done]]); f_equal; unfold __negdi2, i64; zlia.
Qed.

Lemma division_correct_witness :
  __divdi3 (-9223372036854775808) (-1) = Some (-9223372036854775808) /\ __moddi3 (-7) 2 = Some (-1).
Proof.
  split.
  - destruct (division_correct (-9223372036854775808) (-1) ltac:(lia) ltac:(lia)) as [H _]. rewrite H. reflexivity.
  - destruct (division_correct (-7) 2 ltac:(lia) ltac:(lia)) as (_ & H & _). rewrite H. reflexivity.
Defined.

(** ** Paired-word shifts *)

Lemma shift_split b : 0 <= b < 32 -> exists p q, 0 < p /\ 0 < q /\ p * q = 4294967296 /\
  2 ^ b = p /\ 2 ^ (32 - b) = q.
Proof.
  intros Hb. exists (2 ^ b), (2 ^ (32 - b)). rewrite <- Z.pow_add_r by lia.
  replace (b + (32 - b)) with 32 by lia. split; [|split]; [apply Z.pow_pos_nonneg; lia..|done].
Qed.
Lemma words_of a : iss64 a -> a = dw_high a * 4294967296 + u32 (dw_low a) /\
  -2147483648 <= dw_high a < 2147483648 /\ isu32 (u32 (dw_low a)).
Proof.
  intros Ha. unfold dw_high, dw_low. rewrite Z.shiftr_div_pow2 by lia. change (2 ^ 32) with 4294967296.
  unfold i32, u32. zlia.
Qed.

Lemma u32_of_i32 v : u32 (i32 v) = u32 v.
Proof. unfold u32, i32. zlia. Qed.

(** The two halves that meet in the low word of a right shift. *)
Lemma merge_low h l b p q : 0 <= b < 32 -> 0 < p -> 0 < q -> p * q = 4294967296 -> 2 ^ b = p ->
  2 ^ (32 - b) = q -> isu32 l ->
  Z.lor (Z.shiftr l b) (u32 (Z.shiftl h (32 - b))) = (h mod p) * q + l / p /\
  0 <= (h mod p) * q + l / p < 4294967296.
Proof.
  intros Hb Hp Hq Hpq Ep Eq Hl.
  rewrite Z.shiftr_div_pow2, Z.shiftl_mul_pow2, Ep, Eq by lia.
  assert (u32 (h * q) = (h mod p) * q) as ->.
  { unfold u32. rewrite <- Hpq. by rewrite Z.mul_mod_distr_r by lia. }
  pose proof (Z.mod_pos_bound h p Hp). assert (0 <= l / p < q).
  { split; [apply Z.div_pos; lia|]. apply Z.div_lt_upper_bound; lia. }
  split; [|nia]. rewrite Z.lor_comm. rewrite <- Eq. apply lor_add; lia.
Qed.

Lemma div_shrink x p lo hi : 0 < p -> lo <= 0 -> 0 < hi -> lo <= x < hi -> lo <= x / p < hi.
Proof.
  intros. split; [apply Z.div_le_lower_bound; nia|apply Z.div_lt_upper_bound; nia].
Qed.
Lemma dw_make_u64 x l : u64 (dw_make (i32 x) l) = u64 (x * 4294967296 + u32 l).
Proof. unfold dw_make, i32, u32, i64, u64. zlia. Qed.

Lemma ashr_spec a b : iss64 a -> 0 <= b < 64 -> __ashrdi3 a b = Z.shiftr a b.
Proof.
  intros Ha Hb. unfold __ashrdi3. destruct (words_of a Ha) as (Ea & Hh & Hl).
  set (h := dw_high a) in *. set (l := u32 (dw_low a)) in *. clearbody h l.
  destruct (Z.leb_spec 32 b) as [H32|H32].
  - destruct (shift_split (b - 32)) as (p & q & Hp & Hq & Hpq & Ep & Eq); [lia|].
    rewrite !Z.shiftr_div_pow2 by lia. replace (2 ^ b) with (4294967296 * p)
      by (rewrite <- Ep; change 4294967296 with (2 ^ 32); rewrite <- Z.pow_add_r by lia; f_equal; lia).
    rewrite Ep, <- Z.div_div by lia. replace (a / 4294967296) with h by zlia.
    unfold dw_make. change (2 ^ 31) with 2147483648.
    assert (-2147483648 <= h / p < 2147483648) as Hs by (apply div_shrink; lia).
    assert (h / 2147483648 = if h / p <? 0 then -1 else 0) as ->.
    { destruct (Z.ltb_spec (h / p) 0) as [Hn|Hn].
      - assert (h < 0) by (destruct (Z.lt_ge_cases h 0); [done|]; pose proof (Z.div_pos h p); lia). zlia.
      - assert (0 <= h) by (destruct (Z.lt_ge_cases h 0); [|done]; pose proof (Z.div_lt_upper_bound h p 0); lia). zlia. }
    revert Hs. generalize (h / p). intros x Hx. destruct (Z.ltb_spec x 0); unfold i64, u32; zlia.
  - destruct (Z.eqb_spec b 0) as [->|Hb0]; cbn [negb]; [by rewrite Z.shiftr_0_r|].
    destruct (shift_split b) as (p & q & Hp & Hq & Hpq & Ep & Eq); [lia|].
    destruct (merge_low h l b p q) as [-> Hw]; try done; [lia|].
    unfold dw_make. rewrite u32_of_i32, u32_small by done. rewrite !Z.shiftr_div_pow2, Ep by lia.
    assert (a / p = h / p * 4294967296 + (h mod p * q + l / p)) as E.
    { symmetry. apply (Z.div_unique _ _ _ (l mod p)); [left; by apply Z.mod_pos_bound|].
      rewrite Ea. pose proof (Z.div_mod h p). pose proof (Z.div_mod l p). rewrite <- Hpq. nia. }
    rewrite <- E. apply i64_small. apply div_shrink; lia.
Qed.

Lemma lshr_spec a b : isu64 a -> 0 <= b < 64 -> __lshrdi3 a b = Z.shiftr a b.
Proof.
  intros Ha Hb. unfold __lshrdi3.
  assert (u32 (dw_high a) = a / 4294967296 /\ u32 (dw_low a) = a mod 4294967296) as [Eh El].
  { unfold dw_high, dw_low. rewrite !u32_of_i32, Z.shiftr_div_pow2 by lia. change (2 ^ 32) with 4294967296.
    unfold u32. zlia. }
  rewrite Eh, El. set (h := dw_high a) in *.
  set (uh := a / 4294967296) in *. set (l := a mod 4294967296) in *.
  assert (a = uh * 4294967296 + l /\ isu32 uh /\ isu32 l) as (Ea & Huh & Hl) by (subst uh l; zlia). clearbody uh l.
  destruct (Z.leb_spec 32 b) as [H32|H32].
  - destruct (shift_split (b - 32)) as (p & q & Hp & Hq & Hpq & Ep & Eq); [lia|].
    rewrite !Z.shiftr_div_pow2 by lia. replace (2 ^ b) with (4294967296 * p)
      by (rewrite <- Ep; change 4294967296 with (2 ^ 32); rewrite <- Z.pow_add_r by lia; f_equal; lia).
    rewrite Ep, <- Z.div_div by lia. replace (a / 4294967296) with uh by zlia.
    assert (0 <= uh / p < 4294967296) by (apply div_shrink; lia).
    unfold dw_make. rewrite u32_of_i32, u32_small by lia. rewrite i64_small by lia. apply u64_small. lia.
  - destruct (Z.eqb_spec b 0) as [->|Hb0]; cbn [negb]; [by rewrite Z.shiftr_0_r, u64_small|].
    destruct (shift_split b) as (p & q & Hp & Hq & Hpq & Ep & Eq); [lia|].
    destruct (merge_low h l b p q) as [-> Hw]; try done; [lia|].
    assert (h mod p = uh mod p) as Em.
    { rewrite <- Eh. unfold u32. rewrite <- Hpq, Z.mul_comm. symmetry. apply Z.mod_mod_divide. by exists q. }
    rewrite !Z.shiftr_div_pow2, Ep by lia.
    assert (a / p = uh / p * 4294967296 + (h mod p * q + l / p)) as E.
    { symmetry. apply (Z.div_unique _ _ _ (l mod p)); [left; by apply Z.mod_pos_bound|].
      rewrite Ea, Em. pose proof (Z.div_mod uh p). pose proof (Z.div_mod l p). rewrite <- Hpq. nia. }
    rewrite dw_make_u64, u32_of_i32, u32_small, <- E by done. apply u64_small. apply div_shrink; lia.
Qed.

Lemma i64_cong x y k : x = y + k * 18446744073709551616 -> i64 x = i64 y.
Proof. intros ->. unfold i64. by rewrite <- Z.add_assoc, (Z.add_comm (_ * _)), Z.add_assoc, Z.mod_add by lia. Qed.
Lemma i32_cong v : exists k, i32 v = v + k * 4294967296.
Proof. exists (- ((v + 2147483648) / 4294967296)). unfold i32. zlia. Qed.
Lemma u32_cong v : exists k, u32 v = v + k * 4294967296.
Proof. exists (- (v / 4294967296)). unfold u32. zlia. Qed.

Lemma ashl_spec a b : iss64 a -> 0 <= b < 64 -> __ashldi3 a b = i64 (Z.shiftl a b).
Proof.
  intros Ha Hb. unfold __ashldi3. destruct (words_of a Ha) as (Ea & Hh & Hl).
  set (h := dw_high a) in *. set (l := u32 (dw_low a)) in *. clearbody h l.
  destruct (Z.leb_spec 32 b) as [H32|H32].
  - destruct (shift_split (b - 32)) as (p & q & Hp & Hq & Hpq & Ep & Eq); [lia|].
    rewrite !Z.shiftl_mul_pow2 by lia. replace (2 ^ b) with (4294967296 * p)
      by (rewrite <- Ep; change 4294967296 with (2 ^ 32); rewrite <- Z.pow_add_r by lia; f_equal; lia).
    rewrite Ep, Ea. unfold dw_make. change (u32 0) with 0.
    destruct (i32_cong (u32 (l * p))) as [k1 ->], (u32_cong (l * p)) as [k2 ->].
    apply (i64_cong _ _ (k1 + k2 - h * p)). lia.
  - destruct (Z.eqb_spec b 0) as [->|Hb0]; cbn [negb]; [by rewrite Z.shiftl_0_r, i64_small|].
    destruct (shift_split b) as (p & q & Hp & Hq & Hpq & Ep & Eq); [lia|].
    rewrite Z.shiftr_div_pow2, !Z.shiftl_mul_pow2, Ep, Eq by lia.
    assert (0 <= l / q < p) by (split; [apply Z.div_pos; lia|apply Z.div_lt_upper_bound; lia]).
    assert (u32 (u32 h * p) = u32 (h * p)) as ->.
    { unfold u32. by rewrite Z.mul_mod_idemp_l. }
    assert (u32 (h * p) = (h mod q) * p) as E0.
    { unfold u32. rewrite <- Hpq, (Z.mul_comm p q). by rewrite Z.mul_mod_distr_r by lia. }
    assert (Z.lor (u32 (h * p)) (l / q) = u32 (h * p) + l / q) as ->.
    { rewrite E0, <- Ep. apply lor_add; lia. }
    unfold dw_make. assert (u32 (i32 (u32 (l * p))) = l mod q * p) as ->.
    { rewrite u32_of_i32, u32_small by apply u32_bound. unfold u32. rewrite <- Hpq, (Z.mul_comm p q).
      by rewrite Z.mul_mod_distr_r by lia. }
    replace (a * p) with ((h * p + l / q) * 4294967296 + l mod q * p).
    2: { rewrite Ea. pose proof (Z.div_mod l q). rewrite <- Hpq. nia. }
    destruct (i32_cong (u32 (h * p) + l / q)) as [k1 ->], (u32_cong (h * p)) as [k2 ->].
    apply (i64_cong _ _ (k1 + k2)). lia.
Qed.

(** The i386 backend's paired-word shifts are the 64-bit shifts for every count from 0 to 63:
    arithmetic right, logical right, and left modulo 2^64. *)
Theorem shifts_correct a w b : iss64 a -> isu64 w -> 0 <= b < 64 ->
  __ashrdi3 a b = Z.shiftr a b /\ __lshrdi3 w b = Z.shiftr w b /\ __ashldi3 a b = i64 (Z.shiftl a b).
Proof. intros. split; [by apply ashr_spec|]. split; [by apply lshr_spec|by apply ashl_spec]. Qed.

Lemma shifts_correct_witness :
  __ashrdi3 (-6000000000) 33 = -1 /\ __lshrdi3 18446744073709551615 63 = 1 /\
  __ashldi3 3 63 = -9223372036854775808.
Proof.
  split; [|split].
  - destruct (shifts_correct (-6000000000) 0 33 ltac:(lia) ltac:(lia) ltac:(lia)) as (H & _). rewrite H. reflexivity.
  - destruct (shifts_correct 0 18446744073709551615 63 ltac:(lia) ltac:(lia) ltac:(lia)) as (_ & H & _).
    rewrite H. reflexivity.
  - destruct (shifts_correct 3 0 63 ltac:(lia) ltac:(lia) ltac:(lia)) as (_ & _ & H). rewrite H. reflexivity.
Defined.

(** ** Conversions *)

(** The exponent and significand fields, and what truncation makes of them. *)
Lemma trunc_fields mw ew a t : 0 < mw -> 0 < ew -> 0 <= a < 2 ^ (mw + ew) -> femin mw ew <= - (mw + 1) ->
  sf_trunc (sf_of_bits mw ew a) = Some t ->
  let E := (a / 2 ^ mw) mod 2 ^ ew in
  let L := a mod 2 ^ mw + 2 ^ mw in
  let x := E - 1 + femin mw ew in
  t = if E =? 0 then 0 else if 0 <=? x then L * 2 ^ x else L / 2 ^ (- x).
Proof.
  intros Hm He Ha Hmin. unfold sf_of_bits. cbn zeta.
  assert (Z.testbit a (mw + ew) = false) as -> by (apply (testbit_high a (mw + ew)); lia).
  pose proof (Z.mod_pos_bound a (2 ^ mw) ltac:(apply Z.pow_pos_nonneg; lia)) as Hf.
  destruct ((a / 2 ^ mw) mod 2 ^ ew =? 0).
  - destruct (a mod 2 ^ mw) as [|p|p] eqn:Ep; cbn [sf_trunc cond_Zopp]; try by intros [= <-].
    intros [= <-]. replace (0 <=? femin mw ew) with false by lia. apply Z.div_small.
    split; [lia|]. apply (Z.lt_le_trans _ (2 ^ mw)); [lia|]. apply Z.pow_le_mono_r; lia.
  - destruct (_ =? 2 ^ ew - 1); [destruct (_ =? 0); done|].
    destruct (a mod 2 ^ mw + 2 ^ mw) as [|p|p] eqn:Ep; [lia| |lia].
    cbn [sf_trunc cond_Zopp]. by intros [= <-].
Qed.

(** A positive significand at exponent [x], as the conversions shift it. *)
Lemma shift_convert L x mw hi : 0 < mw -> 2 ^ mw <= L < 2 ^ (mw + 1) -> mw + hi = 64 -> 0 < hi ->
  (if hi <=? x then 18446744073709551615
   else if 0 <=? x then u64 (Z.shiftl L x) else if - mw <=? x then Z.shiftr L (- x) else 0) =
  let t := if 0 <=? x then L * 2 ^ x else L / 2 ^ (- x) in if t <? 2 ^ 64 then t else 2 ^ 64 - 1.
Proof.
  intros Hm HL Hhi Hp. cbn zeta. pose proof (Z.pow_pos_nonneg 2 mw ltac:(lia) ltac:(lia)).
  destruct (Z.leb_spec 0 x).
  - pose proof (Z.pow_pos_nonneg 2 x ltac:(lia) ltac:(lia)).
    destruct (Z.leb_spec hi x) as [Hx|Hx].
    + assert (2 ^ 64 <= L * 2 ^ x) as Hbig.
      { transitivity (2 ^ mw * 2 ^ x); [|nia]. rewrite <- Z.pow_add_r by lia. apply Z.pow_le_mono_r; lia. }
      by replace (L * 2 ^ x <? 2 ^ 64) with false by lia.
    + assert (L * 2 ^ x < 2 ^ 64) as Hs.
      { apply (Z.lt_le_trans _ (2 ^ (mw + 1) * 2 ^ x)); [nia|]. rewrite <- Z.pow_add_r by lia.
        apply Z.pow_le_mono_r; lia. }
      replace (L * 2 ^ x <? 2 ^ 64) with true by lia. rewrite Z.shiftl_mul_pow2 by lia. apply u64_small. nia.
  - replace (hi <=? x) with false by lia.
    assert (2 ^ (mw + 1) <= 2 ^ 64) by (apply Z.pow_le_mono_r; lia).
    pose proof (Z.pow_pos_nonneg 2 (- x) ltac:(lia) ltac:(lia)).
    assert (0 <= L / 2 ^ (- x) <= L) by (split; [apply Z.div_pos; lia|apply Z.div_le_upper_bound; nia]).
    replace (L / 2 ^ (- x) <? 2 ^ 64) with true by lia.
    destruct (Z.leb_spec (- mw) x); [by rewrite Z.shiftr_div_pow2 by lia|].
    symmetry. apply Z.div_small. split; [lia|]. apply (Z.lt_le_trans _ (2 ^ (mw + 1))); [lia|].
    apply Z.pow_le_mono_r; lia.
Qed.

Lemma lor_hidden a mw : 0 < mw -> 0 <= a -> Z.lor (Z.land a (2 ^ mw - 1)) (Z.shiftl 1 mw) = a mod 2 ^ mw + 2 ^ mw.
Proof.
  intros Hm Ha. rewrite land_ones_mod by lia. rewrite Z.shiftl_1_l, Z.lor_comm.
  rewrite <- (Z.mul_1_l (2 ^ mw)) at 1. rewrite lor_add by (try apply Z.mod_pos_bound; lia). lia.
Qed.

Lemma fixunsdfdi_spec a t : 0 <= a < 2 ^ 63 -> sf_trunc (f64_of_bits a) = Some t ->
  __fixunsdfdi a = if t <? 2 ^ 64 then t else 2 ^ 64 - 1.
Proof.
  intros Ha Ht. apply trunc_fields in Ht; [|lia|lia|exact Ha|vm_compute; congruence]. cbn zeta in Ht.
  unfold __fixunsdfdi. destruct (Z.eqb_spec a 0) as [->|H0].
  { rewrite Ht. done. }
  assert (EXPD a = (a / 2 ^ 52) mod 2 ^ 11) as EE.
  { unfold EXPD, dw_high. change 0x7ff with (2 ^ 11 - 1). rewrite land_ones_mod, !Z.shiftr_div_pow2 by lia.
    change (2 ^ 32) with 4294967296. change (2 ^ 20) with 1048576. change (2 ^ 11) with 2048.
    change (2 ^ 52) with (4294967296 * 1048576). rewrite <- Z.div_div by lia. unfold i32. zlia. }
  assert (MANTD_LL a = a mod 2 ^ 52 + 2 ^ 52) as EM.
  { unfold MANTD_LL. rewrite (Z.shiftl_1_l 52) at 1. apply lor_hidden; lia. }
  rewrite EE, EM. set (E := (a / 2 ^ 52) mod 2 ^ 11) in *. pose proof (Z.mod_pos_bound a (2 ^ 52) ltac:(done)).
  change (femin 52 11) with (-1074) in Ht. unfold EXCESSD.
  destruct (Z.eqb_spec E 0) as [E0|E0].
  - rewrite E0, Ht. done.
  - replace (E - 1 + -1074) with (E - 1022 - 53) in Ht by lia.
    rewrite (shift_convert _ _ 52 12) by lia. by rewrite <- Ht.
Qed.

Lemma fixunssfdi_spec a t : 0 <= a < 2 ^ 31 -> sf_trunc (f32_of_bits a) = Some t ->
  __fixunssfdi a = if t <? 2 ^ 64 then t else 2 ^ 64 - 1.
Proof.
  intros Ha Ht. apply trunc_fields in Ht; [|lia|lia|exact Ha|vm_compute; congruence]. cbn zeta in Ht.
  unfold __fixunssfdi. destruct (Z.eqb_spec a 0) as [->|H0].
  { rewrite Ht. done. }
  assert (EXP a = (a / 2 ^ 23) mod 2 ^ 8) as EE.
  { unfold EXP. change 0xff with (2 ^ 8 - 1). by rewrite land_ones_mod, !Z.shiftr_div_pow2 by lia. }
  assert (MANT a = a mod 2 ^ 23 + 2 ^ 23) as EM by (apply (lor_hidden a 23); lia).
  rewrite EE, EM. set (E := (a / 2 ^ 23) mod 2 ^ 8) in *. pose proof (Z.mod_pos_bound a (2 ^ 23) ltac:(done)).
  change (femin 23 8) with (-149) in Ht. unfold EXCESS.
  destruct (Z.eqb_spec E 0) as [E0|E0].
  - rewrite E0, Ht. done.
  - replace (E - 1 + -149) with (E - 126 - 24) in Ht by lia.
    rewrite (shift_convert _ _ 23 41) by lia. by rewrite <- Ht.
Qed.

(** Setting the sign bit negates the value. *)
Lemma sf_of_bits_sign mw ew a : 0 < mw -> 0 < ew -> 0 <= a < 2 ^ (mw + ew) ->
  sf_of_bits mw ew (a + 2 ^ (mw + ew)) = SFopp (sf_of_bits mw ew a).
Proof.
  intros Hm He Ha. unfold sf_of_bits.
  assert (Z.testbit a (mw + ew) = false) as -> by (apply (testbit_high a (mw + ew)); lia).
  assert (2 ^ (mw + ew) = 2 ^ ew * 2 ^ mw) as E by (rewrite Z.pow_add_r by lia; lia).
  pose proof (Z.pow_pos_nonneg 2 mw ltac:(lia) ltac:(lia)).
  pose proof (Z.pow_pos_nonneg 2 ew ltac:(lia) ltac:(lia)).
  assert (Z.testbit (a + 2 ^ (mw + ew)) (mw + ew) = true) as ->.
  { rewrite Z.testbit_true by lia. replace (a + 2 ^ (mw + ew)) with (a + 1 * 2 ^ (mw + ew)) by lia.
    rewrite Z.div_add, (Z.div_small a) by lia. done. }
  rewrite E, Z.div_add, Z.mod_add by lia.
  replace ((a / 2 ^ mw + 2 ^ ew) mod 2 ^ ew) with ((a / 2 ^ mw) mod 2 ^ ew)
    by (replace (a / 2 ^ mw + 2 ^ ew) with (a / 2 ^ mw + 1 * 2 ^ ew) by lia; by rewrite Z.mod_add by lia).
  cbn zeta. repeat case_match; done.
Qed.

Lemma sf_trunc_opp x : sf_trunc (SFopp x) = option_map Z.opp (sf_trunc x).
Proof. destruct x as [s|s| |[] m e]; cbn; try done. f_equal. by rewrite Z.opp_involutive. Qed.

Lemma trunc_nonneg p e : 0 <= (if 0 <=? e then Zpos p * 2 ^ e else Zpos p / 2 ^ (- e)).
Proof.
  destruct (Z.leb_spec 0 e); [apply Z.mul_nonneg_nonneg; [lia|apply Z.pow_nonneg; lia]|].
  apply Z.div_pos; [lia|]. apply Z.pow_pos_nonneg; lia.
Qed.
Lemma sf_trunc_sign mw ew a t : 0 < mw -> 0 < ew -> 0 <= a < 2 ^ (mw + ew) ->
  sf_trunc (sf_of_bits mw ew a) = Some t ->
  0 <= t /\ (ge_zero (sf_of_bits mw ew a) = true) /\
  (ge_zero (SFopp (sf_of_bits mw ew a)) = true -> a = 0).
Proof.
  intros Hm He Ha. unfold sf_of_bits.
  assert (Z.testbit a (mw + ew) = false) as -> by (apply (testbit_high a (mw + ew)); lia).
  cbn zeta. destruct (Z.eqb_spec ((a / 2 ^ mw) mod 2 ^ ew) 0) as [E0|_]; [|destruct (_ =? 2 ^ ew - 1)].
  - assert (a mod 2 ^ mw = 0 -> a = 0) as Hz.
    { intros E1. rewrite Z.mod_small in E0.
      - pose proof (Z.div_mod a (2 ^ mw) ltac:(apply Z.pow_nonzero; lia)). lia.
      - split; [apply Z.div_pos; [lia|apply Z.pow_pos_nonneg; lia]|].
        apply Z.div_lt_upper_bound; [apply Z.pow_pos_nonneg; lia|]. rewrite <- Z.pow_add_r by lia. lia. }
    pose proof (Z.mod_pos_bound a (2 ^ mw) ltac:(apply Z.pow_pos_nonneg; lia)) as Hb.
    destruct (a mod 2 ^ mw) as [|p|p]; [| |lia]; intros E; injection E as <-; (split; [|split; [done|]]).
    + done.
    + intros _. by apply Hz.
    + apply trunc_nonneg.
    + done.
  - destruct (_ =? 0); done.
  - destruct (a mod 2 ^ mw + 2 ^ mw); intros E; try done. injection E as <-. split; [apply trunc_nonneg|done].
Qed.

(** The signed conversions, from the unsigned ones on the absolute value. *)
Lemma fix_signed mw ew a t fu : 0 < mw -> 0 < ew -> 0 <= a < 2 ^ (mw + ew + 1) -> iss64 t ->
  (forall b u, 0 <= b < 2 ^ (mw + ew) -> sf_trunc (sf_of_bits mw ew b) = Some u ->
     fu b = if u <? 2 ^ 64 then u else 2 ^ 64 - 1) ->
  sf_trunc (sf_of_bits mw ew a) = Some t ->
  (let s := ge_zero (sf_of_bits mw ew a) in
   let ret := i64 (fu (if s then a else Z.lxor a (2 ^ (mw + ew)))) in
   if s then ret else i64 (- ret)) = t \/ a = 2 ^ (mw + ew) /\ t = 0.
Proof.
  intros Hm He Ha Ht Hfu E. pose proof (Z.pow_pos_nonneg 2 (mw + ew) ltac:(lia) ltac:(lia)).
  assert (2 ^ (mw + ew + 1) = 2 * 2 ^ (mw + ew)) as E2 by (rewrite Z.pow_add_r by lia; lia).
  destruct (Z.lt_ge_cases a (2 ^ (mw + ew))) as [Hs|Hs].
  - left. destruct (sf_trunc_sign mw ew a t) as (Ht0 & Hge & _); try done; [lia|].
    cbn zeta. rewrite Hge, (Hfu a t) by (done || lia). replace (t <? 2 ^ 64) with true by lia. by apply i64_small.
  - set (b := a - 2 ^ (mw + ew)). assert (a = b + 2 ^ (mw + ew)) as Eb by lia.
    assert (0 <= b < 2 ^ (mw + ew)) as Hb by lia.
    rewrite Eb in E |- *. rewrite sf_of_bits_sign in E |- * by done. rewrite sf_trunc_opp in E.
    destruct (sf_trunc (sf_of_bits mw ew b)) as [u|] eqn:Eu; [|done]. injection E as <-.
    destruct (sf_trunc_sign mw ew b u) as (Hu0 & _ & Hge); try done.
    destruct (ge_zero (SFopp (sf_of_bits mw ew b))) eqn:Eg.
    + right. specialize (Hge eq_refl). split; [lia|]. rewrite Hge in Eu. unfold sf_of_bits in Eu.
      rewrite Z.div_0_l, Z.mod_0_l, Z.eqb_refl, Z.mod_0_l in Eu by (apply Z.pow_nonzero; lia). by injection Eu as <-.
    + left. cbn zeta. assert (Z.lxor (b + 2 ^ (mw + ew)) (2 ^ (mw + ew)) = b) as ->.
      { assert (b + 2 ^ (mw + ew) = Z.lxor b (2 ^ (mw + ew))) as ->.
        { apply Z.add_nocarry_lxor. apply Z.bits_inj'. intros i Hi. rewrite Z.land_spec, Z.bits_0, Z.pow2_bits_eqb by lia.
          destruct (Z.eqb_spec (mw + ew) i) as [<-|]; [|apply andb_false_r].
          by rewrite (testbit_high b (mw + ew)) by lia. }
        rewrite Z.lxor_assoc, Z.lxor_nilpotent. apply Z.lxor_0_r. }
      rewrite (Hfu b u) by done. replace (u <? 2 ^ 64) with true by lia. unfold i64. zlia.
Qed.

(** [__fixdfdi] and [__fixsfdi] truncate every [double] and [float] whose truncation fits a signed
    64-bit integer; the unsigned versions do so for non-negative operands and saturate
    above 2^64. *)
Theorem float_to_int_correct a b t u :
  isu64 a -> sf_trunc (f64_of_bits a) = Some t -> isu32 b -> sf_trunc (f32_of_bits b) = Some u ->
  (iss64 t -> __fixdfdi a = t) /\ (iss64 u -> __fixsfdi b = u) /\
  (a < 2 ^ 63 -> __fixunsdfdi a = Z.min t (2 ^ 64 - 1)) /\
  (b < 2 ^ 31 -> __fixunssfdi b = Z.min u (2 ^ 64 - 1)).
Proof.
  intros Ha Et Hb Eu. split; [|split; [|split]].
  - intros Ht. destruct (fix_signed 52 11 a t __fixunsdfdi) as [H|[-> ->]]; try done.
    apply fixunsdfdi_spec.
  - intros Hu. destruct (fix_signed 23 8 b u __fixunssfdi) as [H|[-> ->]]; try done.
    apply fixunssfdi_spec.
  - intros H. rewrite (fixunsdfdi_spec a t) by (done || lia).
    destruct (Z.ltb_spec t (2 ^ 64)); lia.
  - intros H. rewrite (fixunssfdi_spec b u) by (done || lia).
    destruct (Z.ltb_spec u (2 ^ 64)); lia.
Qed.

(** -2.5 as a double and 1e20 as a float. *)
Lemma float_to_int_correct_witness :
  __fixdfdi 0xC004000000000000 = -2 /\ __fixunssfdi 0x60AD78EC = 18446744073709551615.
Proof.
  destruct (float_to_int_correct 0xC004000000000000 0x60AD78EC (-2) 100000002004087734272
    ltac:(lia) eq_refl ltac:(lia) eq_refl) as (H1 & _ & _ & H4).
  split; [apply H1; lia|rewrite H4 by lia; reflexivity].
Defined.
