(* ===== verification/RiscvLink.v ===== *)
(** The linker's RISC-V relocations ([src/compiler/risc/riscv64-link.c], [src/compiler/target.h]),
    checked against the emulator's instruction decoder: what the processor reads back from a
    relocated instruction is the displacement the linker was asked for. *)
From S2P Require Import Prelude Rv64Alu.

(** ** Words in the section data ([target.h]) *)

Definition read16le (m : gmap Z Z) (p : Z) : Z := Z.lor (aget m p) (Z.shiftl (aget m (p + 1)) 8).
Definition write16le (p x : Z) (m : gmap Z Z) : gmap Z Z := aset (aset m p (u8 x)) (p + 1) (u8 (Z.shiftr x 8)).
Definition read32le (m : gmap Z Z) (p : Z) : Z := Z.lor (read16le m p) (Z.shiftl (read16le m (p + 2)) 16).
Definition write32le (p x : Z) (m : gmap Z Z) : gmap Z Z :=
  let x := u32 x in write16le (p + 2) (u16 (Z.shiftr x 16)) (write16le p (u16 x) m).
Definition read64le (m : gmap Z Z) (p : Z) : Z := Z.lor (read32le m p) (Z.shiftl (read32le m (p + 4)) 32).
Definition write64le (p x : Z) (m : gmap Z Z) : gmap Z Z :=
  let x := u64 x in write32le (p + 4) (u32 (Z.shiftr x 32)) (write32le p (u32 x) m).
Definition add32le (p x : Z) (m : gmap Z Z) : gmap Z Z := write32le p (u32 (read32le m p + x)) m.
Definition add64le (p x : Z) (m : gmap Z Z) : gmap Z Z := write64le p (u64 (read64le m p + x)) m.

(** ** [relocate] *)

Inductive reloc :=
  | R_RISCV_32 | R_RISCV_64 | R_RISCV_COPY | R_RISCV_JUMP_SLOT | R_RISCV_BRANCH | R_RISCV_JAL
  | R_RISCV_CALL | R_RISCV_CALL_PLT | R_RISCV_GOT_HI20 | R_RISCV_PCREL_HI20 | R_RISCV_PCREL_LO12_I
  | R_RISCV_PCREL_LO12_S | R_RISCV_ADD16 | R_RISCV_ADD32 | R_RISCV_ADD64 | R_RISCV_SUB16
  | R_RISCV_SUB32 | R_RISCV_SUB64 | R_RISCV_ALIGN | R_RISCV_RVC_BRANCH | R_RISCV_RVC_JUMP
  | R_RISCV_RELAX | R_RISCV_SUB6 | R_RISCV_SET6 | R_RISCV_32_PCREL | R_RISCV_other.

(** [ALWAYS_GOTPLT_ENTRY] or not. *)
Definition gotplt_entry_type (reloc_type : reloc) : bool :=
  match reloc_type with R_RISCV_GOT_HI20 => true | _ => false end.

(** Section data and [last_hi]. *)
Record lst := Lst { data : gmap Z Z; last_hi_addr : Z; last_hi_val : Z }.
Definition set_data (m : gmap Z Z) (s : lst) : lst := Lst m (last_hi_addr s) (last_hi_val s).
Definition patch32 (ptr x : Z) (s : lst) : lst := set_data (write32le ptr x (data s)) s.
Definition patch16 (ptr x : Z) (s : lst) : lst := set_data (write16le ptr (u16 x) (data s)) s.

(** The immediate fields [relocate] ors into an instruction. *)
Definition b_field (off32 : Z) : Z :=
  Z.lor (Z.lor (Z.lor (Z.shiftl (Z.land off32 0x800) 20) (Z.shiftl (Z.land off32 0x3f0) 21))
    (Z.shiftl (Z.land off32 0x00f) 8)) (Z.shiftr (Z.land off32 0x400) 3).
Definition j_field (off32 : Z) : Z :=
  Z.lor (Z.lor (Z.lor (Z.shiftl (Z.land (Z.shiftr off32 12) 0xff) 12) (Z.shiftl (Z.land (Z.shiftr off32 11) 1) 20))
    (Z.shiftl (Z.land (Z.shiftr off32 1) 0x3ff) 21)) (Z.shiftl (Z.land (Z.shiftr off32 20) 1) 31).
Definition s_field (off32 : Z) : Z :=
  Z.lor (Z.shiftl (Z.land off32 0xfe0) 20) (Z.shiftl (Z.land off32 0x01f) 7).
Definition i_field (off : Z) : Z := u32 (Z.shiftl (Z.land off 0xfff) 20).
Definition cb_field (off32 : Z) : Z :=
  Z.lor (Z.lor (Z.lor (Z.lor (Z.shiftl (Z.land (Z.shiftr off32 5) 1) 2) (Z.shiftl (Z.land (Z.shiftr off32 1) 3) 3))
    (Z.shiftl (Z.land (Z.shiftr off32 6) 3) 5)) (Z.shiftl (Z.land (Z.shiftr off32 3) 3) 10))
    (Z.shiftl (Z.land (Z.shiftr off32 8) 1) 12).
Definition cj_field (off32 : Z) : Z :=
  Z.lor (Z.lor (Z.lor (Z.lor (Z.lor (Z.lor (Z.lor
    (Z.shiftl (Z.land (Z.shiftr off32 5) 1) 2) (Z.shiftl (Z.land (Z.shiftr off32 1) 7) 3))
    (Z.shiftl (Z.land (Z.shiftr off32 7) 1) 6)) (Z.shiftl (Z.land (Z.shiftr off32 6) 1) 7))
    (Z.shiftl (Z.land (Z.shiftr off32 10) 1) 8)) (Z.shiftl (Z.land (Z.shiftr off32 8) 3) 9))
    (Z.shiftl (Z.land (Z.shiftr off32 4) 1) 11)) (Z.shiftl (Z.land (Z.shiftr off32 11) 1) 12).

(** [(int64_t)(val - addr + 0x800) >> 12] as a [uint64_t]. *)
Definition hi20_off (val addr : Z) : Z := u64 (Z.shiftr (i64 (val - addr + 0x800)) 12).

(** [None] is [tcc_error], which does not return.  [got_entry] is
    [s1->got->sh_addr + get_sym_attr(s1, sym_index, 0)->got_offset]. *)
Definition relocate (type : reloc) (got_entry ptr addr val : Z) (s : lst) : option lst :=
  let word := read32le (data s) ptr in
  match type with
  | R_RISCV_ALIGN | R_RISCV_RELAX | R_RISCV_32_PCREL | R_RISCV_COPY | R_RISCV_other => Some s
  | R_RISCV_BRANCH =>
      let off64 := u64 (val - addr) in
      if tst (u64 (off64 + Z.shiftl 1 12)) (not64 0x1ffe) then None
      else Some (patch32 ptr (Z.lor (Z.land word (not32 0xfe000f80)) (b_field (u32 (Z.shiftr off64 1)))) s)
  | R_RISCV_JAL =>
      let off64 := u64 (val - addr) in
      if tst (u64 (off64 + Z.shiftl 1 21)) (not64 (Z.shiftl 1 22 - 2)) then None
      else Some (patch32 ptr (Z.lor (Z.land word 0xfff) (j_field (u32 off64))) s)
  | R_RISCV_CALL | R_RISCV_CALL_PLT =>
      let s := patch32 ptr (Z.lor (Z.land word 0xfff) (Z.land (u64 (val - addr + 0x800)) (not64 0xfff))) s in
      Some (patch32 (ptr + 4)
        (Z.lor (Z.land (read32le (data s) (ptr + 4)) 0xfffff) (i_field (u64 (val - addr)))) s)
  | R_RISCV_PCREL_HI20 =>
      let off64 := hi20_off val addr in
      if negb (Z.shiftr (u64 (off64 + Z.shiftl 1 20)) 21 =? 0) then None
      else
        let s := patch32 ptr (Z.lor (Z.land word 0xfff) (Z.shiftl (Z.land off64 0xfffff) 12)) s in
        Some (Lst (data s) addr val)
  | R_RISCV_GOT_HI20 =>
      let val := got_entry in
      let off64 := hi20_off val addr in
      if negb (Z.shiftr (u64 (off64 + Z.shiftl 1 20)) 21 =? 0) then None
      else
        let s := Lst (data s) addr val in
        Some (patch32 ptr (Z.lor (Z.land word 0xfff) (Z.shiftl (Z.land off64 0xfffff) 12)) s)
  | R_RISCV_PCREL_LO12_I =>
      if negb (val =? last_hi_addr s) then None
      else Some (patch32 ptr (Z.lor (Z.land word 0xfffff) (i_field (u64 (last_hi_val s - last_hi_addr s)))) s)
  | R_RISCV_PCREL_LO12_S =>
      if negb (val =? last_hi_addr s) then None
      else Some (patch32 ptr (Z.lor (Z.land word (not32 0xfe000f80))
             (s_field (u32 (last_hi_val s - last_hi_addr s)))) s)
  | R_RISCV_RVC_BRANCH =>
      let off64 := u64 (val - addr) in
      if tst (u64 (off64 + Z.shiftl 1 8)) (not64 0x1fe) then None
      else Some (patch16 ptr (Z.lor (Z.land (read16le (data s) ptr) 0xe383) (cb_field (u32 off64))) s)
  | R_RISCV_RVC_JUMP =>
      let off64 := u64 (val - addr) in
      if tst (u64 (off64 + Z.shiftl 1 11)) (not64 0xffe) then None
      else Some (patch16 ptr (Z.lor (Z.land (read16le (data s) ptr) 0xe003) (cj_field (u32 off64))) s)
  | R_RISCV_32 => Some (set_data (add32le ptr (i32 val) (data s)) s)
  | R_RISCV_64 | R_RISCV_JUMP_SLOT => Some (set_data (add64le ptr (i64 val) (data s)) s)
  | R_RISCV_ADD64 => Some (set_data (write64le ptr (u64 (read64le (data s) ptr + val)) (data s)) s)
  | R_RISCV_ADD32 => Some (patch32 ptr (u64 (word + val)) s)
  | R_RISCV_SUB64 => Some (set_data (write64le ptr (u64 (read64le (data s) ptr - val)) (data s)) s)
  | R_RISCV_SUB32 => Some (patch32 ptr (u64 (word - val)) s)
  | R_RISCV_ADD16 => Some (patch16 ptr (u64 (read16le (data s) ptr + val)) s)
  | R_RISCV_SUB16 => Some (patch16 ptr (u64 (read16le (data s) ptr - val)) s)
  | R_RISCV_SET6 =>
      let b := aget (data s) ptr in
      Some (set_data (aset (data s) ptr (u8 (Z.lor (Z.land b (Z.lnot 0x3f)) (Z.land val 0x3f)))) s)
  | R_RISCV_SUB6 =>
      let b := aget (data s) ptr in
      Some (set_data (aset (data s) ptr (u8 (Z.lor (Z.land b (Z.lnot 0x3f)) (Z.land (u64 (b - val)) 0x3f)))) s)
  end.

(** ** Words read back *)

Lemma lor_shift a b k : 0 <= k -> 0 <= a < 2 ^ k -> Z.lor a (Z.shiftl b k) = a + b * 2 ^ k.
Proof. intros. rewrite Z.lor_comm, Z.shiftl_mul_pow2 by lia. rewrite lor_add by lia. lia. Qed.

Lemma read32_write32 p x m : read32le (write32le p x m) p = u32 x.
Proof.
  unfold read32le, write32le, read16le, write16le. cbn zeta.
  replace (p + 2 + 1) with (p + 3) by lia. autorewrite with arr.
  pose proof (u32_bound x). set (w := u32 x) in *.
  rewrite !Z.shiftr_div_pow2 by lia. change (2 ^ 8) with 256. change (2 ^ 16) with 65536.
  unfold u8, u16. rewrite !(lor_shift _ _ 8) by (try lia; change (2 ^ 8) with 256; zlia).
  change (2 ^ 8) with 256. rewrite lor_shift by (try lia; change (2 ^ 16) with 65536; zlia).
  change (2 ^ 16) with 65536. zlia.
Qed.

Lemma read32_ext p m m' : (forall a, p <= a < p + 4 -> aget m a = aget m' a) -> read32le m p = read32le m' p.
Proof.
  intros H. unfold read32le, read16le. rewrite !(H p), !(H (p + 1)), !(H (p + 2)), !(H (p + 2 + 1)) by lia. done.
Qed.
Lemma write32_other p x m a : ~ (p <= a < p + 4) -> aget (write32le p x m) a = aget m a.
Proof. intros Ha. unfold write32le, write16le. cbn zeta. by rewrite !aget_aset_ne by lia. Qed.

Lemma read32_bound p m : bytes_ok m -> isu32 (read32le m p).
Proof.
  intros H. unfold read32le, read16le.
  pose proof (H p); pose proof (H (p + 1)); pose proof (H (p + 2)); pose proof (H (p + 2 + 1)).
  rewrite !(lor_shift _ _ 8) by (change (2 ^ 8) with 256; lia). change (2 ^ 8) with 256.
  rewrite lor_shift by (change (2 ^ 16) with 65536; lia). change (2 ^ 16) with 65536. lia.
Qed.

(** ** Bit-by-bit equality of words *)

Lemma testbit_u32 x i : 0 <= i < 32 -> Z.testbit (u32 x) i = Z.testbit x i.
Proof. intros. unfold u32. change 4294967296 with (2 ^ 32). apply Z.mod_pow2_bits_low. lia. Qed.
Lemma testbit_u64 x i : 0 <= i < 64 -> Z.testbit (u64 x) i = Z.testbit x i.
Proof. intros. unfold u64. change 18446744073709551616 with (2 ^ 64). apply Z.mod_pow2_bits_low. lia. Qed.

(** A number of [n + 1] signed bits repeats its sign bit. *)
Lemma testbit_sign d n i : 0 <= n <= i -> - 2 ^ n <= d < 2 ^ n -> Z.testbit d i = Z.testbit d n.
Proof.
  intros Hi Hd. assert (forall j, n <= j -> Z.testbit d j = (d <? 0)) as H.
  { intros j Hj. destruct (Z.ltb_spec d 0).
    - rewrite <- (Z.lnot_involutive d), Z.lnot_spec by lia.
      rewrite (testbit_high (Z.lnot d) n); [done| |lia]. unfold Z.lnot. lia.
    - apply (testbit_high d n); lia. }
  by rewrite !H by lia.
Qed.
Lemma testbit_i32 w i : isu32 w -> 0 <= i -> Z.testbit (i32 w) i = Z.testbit w (Z.min i 31).
Proof.
  intros Hw Hi. pose proof (i32_bound w).
  assert (forall j, 0 <= j < 32 -> Z.testbit (i32 w) j = Z.testbit w j) as Hl.
  { intros j Hj. rewrite <- (testbit_u32 (i32 w)) by lia. f_equal. unfold u32, i32. zlia. }
  destruct (Z.lt_ge_cases i 31); [by rewrite Z.min_l, Hl by lia|].
  rewrite Z.min_r, (testbit_sign (i32 w) 31) by lia. apply Hl. lia.
Qed.

(** Decide the bits of constants, push [testbit] through the operations. *)
Ltac const_bits :=
  repeat match goal with
  | |- context [Z.testbit (Zpos ?p) ?k] =>
      let r := eval vm_compute in (Z.testbit (Zpos p) k) in change (Z.testbit (Zpos p) k) with r
  end.
Ltac norm_index :=
  repeat match goal with
  | |- context [Z.testbit ?x (?a + ?b)] =>
      let r := eval vm_compute in (a + b) in change (Z.testbit x (a + b)) with (Z.testbit x r)
  | |- context [Z.testbit ?x (?a - ?b)] =>
      let r := eval vm_compute in (a - b) in change (Z.testbit x (a - b)) with (Z.testbit x r)
  | |- context [Z.testbit ?x (Z.min ?a ?b)] =>
      let r := eval vm_compute in (Z.min a b) in change (Z.testbit x (Z.min a b)) with (Z.testbit x r)
  | |- context [Z.testbit ?x (Zneg ?p)] => rewrite (Z.testbit_neg_r x (Zneg p)) by lia
  end.
Ltac push_bits :=
  change (not32 4261416832) with 33550463;
  repeat (rewrite ?Z.lor_spec, ?Z.land_spec, ?Z.shiftr_spec, ?Z.shiftl_spec, ?testbit_u32, ?testbit_u64 by lia;
    norm_index; rewrite ?testbit_i32 by (assumption || lia); norm_index);
  const_bits; rewrite ?andb_true_r, ?andb_false_r, ?orb_false_r, ?orb_false_l.

(** [a = b] below [2^n] bit by bit; [each_bit n] leaves the [n] goals with concrete indices. *)
Lemma bits_below n a b : 0 <= a < 2 ^ n -> 0 <= b < 2 ^ n -> 0 <= n ->
  (forall i, 0 <= i < n -> Z.testbit a i = Z.testbit b i) -> a = b.
Proof.
  intros Ha Hb Hn H. apply Z.bits_inj'. intros i Hi. destruct (Z.lt_ge_cases i n); [apply H; lia|].
  by rewrite !(testbit_high _ n) by lia.
Qed.
Lemma forall_bits (P : Z -> Prop) (n : nat) : (forall k : nat, (k < n)%nat -> P (Z.of_nat k)) ->
  forall i, 0 <= i < Z.of_nat n -> P i.
Proof. intros H i Hi. rewrite <- (Z2Nat.id i) by lia. apply H. lia. Qed.
Ltac next_bit k Hk :=
  first [exfalso; lia
        |destruct k as [|k]; [simpl Z.of_nat; clear Hk|next_bit k Hk]].
Ltac each_bit n := apply (forall_bits _ n); let k := fresh "k" in let Hk := fresh "Hk" in intros k Hk; next_bit k Hk.

Lemma insn_patched w keep f : isu32 w -> isu32 f -> isu32 (Z.lor (Z.land w keep) f).
Proof. intros Hw Hf. apply (lor_bound 32); [lia| |done]. apply (land_bound_l 32); [lia|done]. Qed.

(** ** What the decoder reads from a patched instruction *)

(** Bounds of or-ed, masked and shifted fields. *)
Lemma field_bound o c k : 0 <= k -> 0 <= Z.shiftl c k < 2 ^ 32 -> isu32 (Z.shiftl (Z.land o c) k).
Proof. intros Hk Hc. rewrite Z.shiftl_land. by apply (land_bound_r 32). Qed.
Lemma field_bound_r o c k : 0 <= k -> isu32 c -> isu32 (Z.shiftr (Z.land o c) k).
Proof.
  intros Hk Hc. pose proof (land_bound_r 32 o c ltac:(lia) Hc). rewrite Z.shiftr_div_pow2 by lia.
  pose proof (Z.pow_pos_nonneg 2 k). split; [apply Z.div_pos; lia|apply Z.div_lt_upper_bound; nia].
Qed.
Ltac field_bound := apply field_bound; [lia|split; vm_compute; congruence].
Lemma b_field_bound o : isu32 (b_field o).
Proof.
  unfold b_field. repeat (apply (lor_bound 32); [lia| |]);
    [field_bound..|apply field_bound_r; lia].
Qed.
Lemma j_field_bound o : isu32 (j_field o).
Proof. unfold j_field. repeat (apply (lor_bound 32); [lia| |]); field_bound. Qed.
Lemma s_field_bound o : isu32 (s_field o).
Proof. unfold s_field. apply (lor_bound 32); [lia| |]; field_bound. Qed.

Ltac word_bound :=
  repeat (apply (lor_bound 32); [lia| |]);
  first [apply u32_bound|lia
        |rewrite Z.shiftl_mul_pow2 by lia; match goal with
          | |- context [Z.land ?x 1] => pose proof (land_bound_r 1 x 1); lia
          | |- context [Z.land ?x 15] => pose proof (land_bound_r 4 x 15); lia
          | |- context [Z.land ?x 63] => pose proof (land_bound_r 6 x 63); lia
          | |- context [Z.land ?x 255] => pose proof (land_bound_r 8 x 255); lia
          | |- context [Z.land ?x 1023] => pose proof (land_bound_r 10 x 1023); lia
          end].

Lemma imm_b_bits w o d : isu32 w -> -4096 <= d < 4096 ->
  (forall i, 0 <= i < 31 -> Z.testbit o i = Z.testbit d (i + 1)) -> Z.testbit d 0 = false ->
  imm_b (Z.lor (Z.land w (not32 0xfe000f80)) (b_field o)) = d.
Proof.
  intros Hw Hd Ho H0. pose proof (insn_patched w (not32 0xfe000f80) _ Hw (b_field_bound o)) as Hw'.
  set (w' := Z.lor _ _) in *. unfold imm_b.
  transitivity (i32 (u32 d)); [|unfold i32, u32; zlia]. f_equal.
  apply (bits_below 32); [word_bound|apply u32_bound|lia|].
  assert (forall i, 12 <= i -> Z.testbit d i = Z.testbit d 12) as Hs by (intros; apply testbit_sign; lia).
  each_bit 32%nat; push_bits; unfold w', b_field; push_bits; rewrite ?(Ho _) by lia; norm_index;
    try done; symmetry; apply Hs; lia.
Qed.

Lemma imm_j_bits w o d : isu32 w -> -1048576 <= d < 1048576 ->
  (forall i, 0 <= i < 21 -> Z.testbit o i = Z.testbit d i) -> Z.testbit d 0 = false ->
  imm_j (Z.lor (Z.land w 0xfff) (j_field o)) = d.
Proof.
  intros Hw Hd Ho H0. pose proof (insn_patched w 0xfff _ Hw (j_field_bound o)) as Hw'.
  set (w' := Z.lor _ _) in *. unfold imm_j.
  transitivity (i32 (u32 d)); [|unfold i32, u32; zlia]. f_equal.
  apply (bits_below 32); [word_bound|apply u32_bound|lia|].
  assert (forall i, 20 <= i -> Z.testbit d i = Z.testbit d 20) as Hs by (intros; apply testbit_sign; lia).
  each_bit 32%nat; push_bits; unfold w', j_field; push_bits; rewrite ?(Ho _) by lia; norm_index;
    try done; symmetry; apply Hs; lia.
Qed.

(** The low part of a pc-relative pair: 12 bits, sign-extended. *)
Definition lo12 (d : Z) : Z := (d + 2048) mod 4096 - 2048.
Definition hi20 (d : Z) : Z := (d + 2048) / 4096 * 4096.

Lemma lo12_bits x d : (forall i, 0 <= i -> Z.testbit x i = Z.testbit d (Z.min i 11)) -> x = lo12 d.
Proof.
  intros H. apply Z.bits_inj'. intros i Hi. rewrite H by done.
  assert (forall j, 0 <= j < 12 -> Z.testbit (lo12 d) j = Z.testbit d j) as Hl.
  { intros j Hj. rewrite <- (Z.mod_pow2_bits_low d 12), <- (Z.mod_pow2_bits_low (lo12 d) 12) by lia.
    f_equal. unfold lo12. change (2 ^ 12) with 4096. zlia. }
  destruct (Z.lt_ge_cases i 11); [by rewrite Z.min_l, Hl by lia|].
  rewrite Z.min_r, <- Hl, (testbit_sign (lo12 d) 11 i) by (try lia; unfold lo12; zlia). done.
Qed.

Lemma i_field_bound d : isu32 (i_field d).
Proof. apply u32_bound. Qed.

Lemma imm_i_bits w d : isu32 w -> imm_i (Z.lor (Z.land w 0xfffff) (i_field d)) = lo12 d.
Proof.
  intros Hw. pose proof (insn_patched w 0xfffff _ Hw (i_field_bound d)) as Hw'.
  apply lo12_bits. intros i Hi. unfold imm_i. rewrite Z.shiftr_spec, testbit_i32 by (done || lia).
  destruct (Z.lt_ge_cases i 11) as [Hl|Hl].
  - rewrite !Z.min_l by lia. pose proof (conj Hi Hl) as Hr. clear Hi Hl. revert i Hr.
    each_bit 11%nat; unfold i_field; push_bits; done.
  - rewrite !Z.min_r by lia. unfold i_field. push_bits. done.
Qed.

Lemma imm_s_bits w d : isu32 w ->
  imm_s (Z.lor (Z.land w (not32 0xfe000f80)) (s_field (u32 d))) = lo12 d.
Proof.
  intros Hw. pose proof (insn_patched w (not32 0xfe000f80) _ Hw (s_field_bound (u32 d))) as Hw'.
  set (w' := Z.lor _ _) in *. apply lo12_bits. intros i Hi. unfold imm_s, sext32. change (32 - 12) with 20.
  rewrite Z.shiftr_spec, testbit_i32 by (lia || apply u32_bound).
  destruct (Z.lt_ge_cases i 11) as [Hl|Hl].
  - rewrite !Z.min_l by lia. pose proof (conj Hi Hl) as Hr. clear Hi Hl. revert i Hr.
    each_bit 11%nat; push_bits; unfold w', s_field; push_bits; done.
  - rewrite !Z.min_r by lia. push_bits. unfold w', s_field. push_bits. done.
Qed.

(** The upper immediate of [auipc]: [hi] or-ed over the low 12 bits of the instruction. *)
Lemma imm_u_bits w hi d : isu32 w ->
  (forall i, 0 <= i < 32 -> Z.testbit hi i = (12 <=? i) && Z.testbit (d + 2048) i) ->
  imm_u (u32 (Z.lor (Z.land w 0xfff) hi)) = i32 (hi20 d).
Proof.
  intros Hw Hh. unfold imm_u. transitivity (i32 (u32 (hi20 d))); [|unfold i32, u32; zlia]. f_equal.
  apply (bits_below 32); [apply (land_bound_r 32); lia|apply u32_bound|lia|].
  assert (forall i, 0 <= i < 32 -> Z.testbit (hi20 d) i = (12 <=? i) && Z.testbit (d + 2048) i) as H2.
  { intros i Hi. unfold hi20. change 4096 with (2 ^ 12). rewrite <- Z.shiftl_mul_pow2, <- Z.shiftr_div_pow2 by lia.
    rewrite Z.shiftl_spec by lia. destruct (Z.leb_spec 12 i).
    - rewrite Z.shiftr_spec by lia. by replace (i - 12 + 12) with i by lia.
    - by rewrite Z.testbit_neg_r by lia. }
  each_bit 32%nat; push_bits; rewrite ?Hh, ?H2 by lia; done.
Qed.

(** ** The range checks *)

(** The linker's range test [(off + 2^n) & ~(2^(n+1) - 2)]: even, and within [2^n] of zero. *)
Lemma range_mask y n : isu64 y -> 0 <= n < 63 ->
  tst y (not64 (2 ^ (n + 1) - 2)) = negb ((y <? 2 ^ (n + 1)) && Z.even y).
Proof.
  intros Hy Hn. pose proof (Z.pow_pos_nonneg 2 n ltac:(lia) ltac:(lia)).
  assert (2 ^ (n + 1) = 2 * 2 ^ n) as E by (rewrite Z.pow_add_r by lia; lia).
  assert (2 ^ n < 2 ^ 63) as Hlt by (apply Z.pow_lt_mono_r; lia). change (2 ^ 63) with 9223372036854775808 in Hlt.
  unfold tst. f_equal. set (m := 2 ^ (n + 1) - 2).
  assert (Z.land y (not64 m) = y - Z.land y m) as ->.
  { assert (not64 m = Z.ldiff (Z.ones 64) m) as ->.
    { unfold not64. change 18446744073709551615 with (Z.ones 64). apply Z.sub_nocarry_ldiff.
      apply Z.bits_inj'. intros i Hi. rewrite Z.ldiff_spec, Z.bits_0, Z.testbit_ones by lia.
      destruct (Z.ltb_spec i 64); [by rewrite (proj2 (Z.leb_le 0 i) Hi), andb_false_r|].
      rewrite (testbit_high m 64); [done| |lia]. subst m. change (2 ^ 64) with 18446744073709551616. lia. }
    rewrite Z.sub_nocarry_ldiff.
    - apply Z.bits_inj'. intros i Hi. rewrite Z.land_spec, !Z.ldiff_spec, Z.land_spec, Z.testbit_ones by lia.
      rewrite (proj2 (Z.leb_le 0 i) Hi). destruct (Z.ltb_spec i 64).
      + by destruct (Z.testbit y i), (Z.testbit m i).
      + by rewrite (testbit_high y 64) by (try lia; change (2 ^ 64) with 18446744073709551616; lia).
    - apply Z.bits_inj'. intros i Hi. rewrite Z.ldiff_spec, Z.land_spec, Z.bits_0.
      by destruct (Z.testbit y i), (Z.testbit m i). }
  assert (Z.land y m = 2 * ((y / 2) mod 2 ^ n)) as ->.
  { assert (m = Z.shiftl (Z.ones n) 1) as Em.
    { subst m. rewrite Z.ones_equiv, Z.shiftl_mul_pow2 by lia. change (2 ^ 1) with 2. lia. }
    rewrite <- Z.land_ones by lia. apply Z.bits_inj'. intros i Hi.
    rewrite Z.land_spec, Em, Z.shiftl_spec, (Z.mul_comm 2) by lia. change 2 with (2 ^ 1) at 1 2.
    rewrite <- Z.shiftl_mul_pow2, <- Z.shiftr_div_pow2, Z.shiftl_spec, Z.land_spec by lia.
    destruct (Z.eq_dec i 0) as [->|]; [cbn [Z.sub Z.opp Z.add]; by rewrite !(Z.testbit_neg_r _ (0 - 1)), !andb_false_r by lia|].
    rewrite Z.shiftr_spec by lia. by replace (i - 1 + 1) with i by lia. }
  rewrite E. pose proof (Z.mod_pos_bound (y / 2) (2 ^ n)).
  destruct (Z.even y) eqn:Ey.
  - apply Z.even_spec in Ey as [k ->]. replace (2 * k / 2) with k in * by zlia.
    destruct (Z.ltb_spec (2 * k) (2 * 2 ^ n)); cbn [andb].
    + rewrite Z.mod_small by lia. lia.
    + lia.
  - rewrite andb_false_r. apply Z.eqb_neq. intros E0. assert (y = 2 * ((y / 2) mod 2 ^ n)) as Hy2 by lia.
    rewrite Hy2 in Ey. by rewrite Z.even_mul in Ey.
Qed.

Lemma range_check d n : 0 < n < 32 -> isu64 d ->
  tst (u64 (d + Z.shiftl 1 n)) (not64 (2 ^ (n + 1) - 2)) = false <->
  Z.Even (i64 d) /\ - 2 ^ n <= i64 d < 2 ^ n.
Proof.
  intros Hn Hd. rewrite range_mask by (apply u64_bound || lia). rewrite Z.shiftl_1_l, negb_false_iff, andb_true_iff.
  rewrite Z.ltb_lt, Z.even_spec. rewrite Z.pow_add_r by lia. change (2 ^ 1) with 2.
  assert (2 ^ n <= 2 ^ 31) by (apply Z.pow_le_mono_r; lia). change (2 ^ 31) with 2147483648 in *.
  assert (exists c, 2 ^ n = 2 * c) as [c Ec].
  { exists (2 ^ (n - 1)). rewrite <- (Z.pow_succ_r 2) by lia. f_equal. lia. }
  pose proof (Z.pow_pos_nonneg 2 n ltac:(lia) ltac:(lia)). set (p := 2 ^ n) in *. unfold u64, i64, Z.Even.
  split.
  - intros [H1 [k Hk]]. split; [|zlia].
    exists ((d + 9223372036854775808) mod 18446744073709551616 / 2 - 4611686018427387904). zlia.
  - intros [[k Hk] H1]. split; [zlia|].
    exists ((d + p) mod 18446744073709551616 / 2). zlia.
Qed.

(** ** Jumps *)

(** The fields a relocation must leave alone. *)
Lemma b_keeps w o : isu32 w -> let w' := Z.lor (Z.land w (not32 0xfe000f80)) (b_field o) in
  insn_op w' = insn_op w /\ insn_f3 w' = insn_f3 w /\ insn_rs1 w' = insn_rs1 w /\ insn_rs2 w' = insn_rs2 w.
Proof.
  intros Hw w'. unfold insn_op, insn_f3, insn_rs1, insn_rs2. split; [|split; [|split]].
  - apply (bits_below 7); [by apply (land_bound_r 7)..|lia|]. each_bit 7%nat; unfold w', b_field; push_bits; done.
  - apply (bits_below 3); [by apply (land_bound_r 3)..|lia|]. each_bit 3%nat; unfold w', b_field; push_bits; done.
  - apply (bits_below 5); [by apply (land_bound_r 5)..|lia|]. each_bit 5%nat; unfold w', b_field; push_bits; done.
  - apply (bits_below 5); [by apply (land_bound_r 5)..|lia|]. each_bit 5%nat; unfold w', b_field; push_bits; done.
Qed.
(** [keep] of the low 12 bits, with [f] above them: opcode and destination stay. *)
Lemma low_keeps w f : isu32 w -> (forall i, 0 <= i < 12 -> Z.testbit f i = false) ->
  let w' := Z.lor (Z.land w 0xfff) f in insn_op w' = insn_op w /\ insn_rd w' = insn_rd w.
Proof.
  intros Hw Hf w'. unfold insn_op, insn_rd. split.
  - apply (bits_below 7); [by apply (land_bound_r 7)..|lia|].
    each_bit 7%nat; unfold w'; push_bits; rewrite ?Hf by lia; rewrite ?orb_false_r; done.
  - apply (bits_below 5); [by apply (land_bound_r 5)..|lia|].
    each_bit 5%nat; unfold w'; push_bits; rewrite ?Hf by lia; rewrite ?orb_false_r; done.
Qed.

Lemma patch32_word ptr x s : isu32 x -> read32le (data (patch32 ptr x s)) ptr = x.
Proof. intros. cbn [data patch32 set_data]. rewrite read32_write32. by apply u32_small. Qed.

Definition sext21 (d : Z) : Z := (d + 1048576) mod 2097152 - 1048576.

Lemma even_bit0 d : Z.Even d -> Z.testbit d 0 = false.
Proof. intros [k ->]. by rewrite Z.testbit_even_0. Qed.

Lemma branch_word w d : isu32 w -> Z.Even (i64 d) -> -4096 <= i64 d < 4096 ->
  imm_b (Z.lor (Z.land w (not32 0xfe000f80)) (b_field (u32 (Z.shiftr (u64 d) 1)))) = i64 d.
Proof.
  intros Hw He Hr. apply imm_b_bits; try done; [|by apply even_bit0].
  intros i Hi. rewrite testbit_u32, Z.shiftr_spec by lia. rewrite <- u64_i64, testbit_u64 by lia. done.
Qed.

Lemma jal_word w d : isu32 w -> Z.Even (i64 d) ->
  imm_j (Z.lor (Z.land w 0xfff) (j_field (u32 (u64 d)))) = sext21 (i64 d).
Proof.
  intros Hw He.
  assert (forall i, 0 <= i < 21 -> Z.testbit (sext21 (i64 d)) i = Z.testbit (i64 d) i) as Hs.
  { intros i Hi. rewrite <- (Z.mod_pow2_bits_low (i64 d) 21), <- (Z.mod_pow2_bits_low (sext21 _) 21) by lia.
    f_equal. unfold sext21. change (2 ^ 21) with 2097152. zlia. }
  apply imm_j_bits; try done; [unfold sext21; zlia| |].
  - intros i Hi. rewrite Hs, testbit_u32 by lia. rewrite <- u64_i64, testbit_u64 by lia. done.
  - rewrite Hs by lia. by apply even_bit0.
Qed.

(** C30: branch and jump relocations.  The linker rejects exactly the displacements that are odd or outside
    [[-2^12, 2^12)] for a branch and [[-2^21, 2^21)] for [jal]; a relocated branch decodes to its
    target, with opcode, function and registers kept; a relocated [jal] decodes to its target
    exactly when the displacement is within [[-2^20, 2^20)], so the linker accepts jumps it cannot encode. *)
Theorem jump_relocation_decodes got ptr addr val s :
  bytes_ok (data s) -> isu64 addr -> isu64 val ->
  let d := i64 (val - addr) in
  let w := read32le (data s) ptr in
  (relocate R_RISCV_BRANCH got ptr addr val s <> None <-> Z.Even d /\ -4096 <= d < 4096) /\
  (relocate R_RISCV_JAL got ptr addr val s <> None <-> Z.Even d /\ -2097152 <= d < 2097152) /\
  (forall s', relocate R_RISCV_BRANCH got ptr addr val s = Some s' ->
     let w' := read32le (data s') ptr in
     u64 (addr + imm_b w') = val /\ insn_op w' = insn_op w /\ insn_f3 w' = insn_f3 w /\
     insn_rs1 w' = insn_rs1 w /\ insn_rs2 w' = insn_rs2 w) /\
  (forall s', relocate R_RISCV_JAL got ptr addr val s = Some s' ->
     let w' := read32le (data s') ptr in
     (u64 (addr + imm_j w') = val <-> -1048576 <= d < 1048576) /\ insn_op w' = insn_op w /\ insn_rd w' = insn_rd w).
Proof.
  intros Hb Ha Hv d w. pose proof (read32_bound ptr (data s) Hb) as Hw. fold w in Hw.
  pose proof (range_check (u64 (val - addr)) 12 ltac:(lia) (u64_bound _)) as HB.
  pose proof (range_check (u64 (val - addr)) 21 ltac:(lia) (u64_bound _)) as HJ.
  rewrite i64_u64 in HB, HJ. fold d in HB, HJ.
  change (not64 (2 ^ (12 + 1) - 2)) with (not64 0x1ffe) in HB.
  change (not64 (2 ^ (21 + 1) - 2)) with (not64 (Z.shiftl 1 22 - 2)) in HJ.
  change (2 ^ 12) with 4096 in HB. change (2 ^ 21) with 2097152 in HJ.
  cbn [relocate]. cbn zeta. fold w. split; [|split; [|split]].
  - rewrite <- HB. clear HJ. case (tst _ _); split; congruence.
  - rewrite <- HJ. clear HB. case (tst _ _); split; congruence.
  - clear HJ. intros s'. revert HB. case (tst _ _); [done|]. intros HB. destruct (proj1 HB eq_refl) as [He Hr]. intros [= <-].
    rewrite patch32_word by (apply insn_patched; [done|apply b_field_bound]).
    rewrite branch_word by done. fold d. split; [unfold d, u64, i64; zlia|by apply b_keeps].
  - clear HB. intros s'. revert HJ. case (tst _ _); [done|]. intros HJ. destruct (proj1 HJ eq_refl) as [He Hr]. intros [= <-].
    rewrite patch32_word by (apply insn_patched; [done|apply j_field_bound]).
    rewrite jal_word by done. fold d. split; [unfold sext21, d, u64, i64 in *; zlia|].
    apply low_keeps; [done|]. each_bit 12%nat; unfold j_field; push_bits; done.
Qed.

(** A backward branch, and a jump beyond what [jal] can hold. *)
Lemma jump_relocation_decodes_witness :
  (exists s', relocate R_RISCV_BRANCH 0 0 0x10100 0x10000 (Lst (write32le 0 0x00b50063 ∅) 0 0) = Some s' /\
     imm_b (read32le (data s') 0) = -256) /\
  (exists s', relocate R_RISCV_JAL 0 0 0x10000 0x190000 (Lst (write32le 0 0x0000006f ∅) 0 0) = Some s' /\
     u64 (0x10000 + imm_j (read32le (data s') 0)) <> 0x190000).
Proof.
  assert (forall w, bytes_ok (write32le 0 w ∅)) as Hb.
  { intros w. unfold write32le, write16le. cbn zeta. do 4 (apply bytes_ok_aset; [|apply u8_bound]). apply bytes_ok_empty. }
  split.
  - destruct (jump_relocation_decodes 0 0 0x10100 0x10000 (Lst (write32le 0 0x00b50063 ∅) 0 0) (Hb _) ltac:(lia) ltac:(lia))
      as (_ & _ & H & _).
    eexists. split; [reflexivity|]. destruct (H _ eq_refl) as [_ _]. vm_compute. reflexivity.
  - destruct (jump_relocation_decodes 0 0 0x10000 0x190000 (Lst (write32le 0 0x0000006f ∅) 0 0) (Hb _) ltac:(lia) ltac:(lia))
      as (_ & _ & _ & H).
    eexists. split; [reflexivity|]. destruct (H _ eq_refl) as [[H1 _] _]. intros E. specialize (H1 E).
    revert H1. vm_compute. intros [_ H1]. discriminate H1.
Defined.

(** ** Pc-relative pairs *)

Lemma patch32_other ptr x s p : ptr + 4 <= p \/ p + 4 <= ptr ->
  read32le (data (patch32 ptr x s)) p = read32le (data s) p.
Proof. intros H. apply read32_ext. intros a Ha. apply write32_other. lia. Qed.

Lemma hi_call d i : 0 <= i < 32 ->
  Z.testbit (Z.land (u64 (d + 0x800)) (not64 0xfff)) i = (12 <=? i) && Z.testbit (d + 2048) i.
Proof.
  intros Hi. rewrite Z.land_spec, testbit_u64 by lia. change (not64 0xfff) with (Z.ldiff (Z.ones 64) (Z.ones 12)).
  rewrite Z.ldiff_spec, !Z.testbit_ones by lia. rewrite andb_comm. f_equal.
  destruct (Z.leb_spec 12 i), (Z.ltb_spec i 12), (Z.ltb_spec i 64), (Z.leb_spec 0 i); try done; lia.
Qed.
Lemma hi_pcrel val addr i : 0 <= i < 32 ->
  Z.testbit (Z.shiftl (Z.land (hi20_off val addr) 0xfffff) 12) i = (12 <=? i) && Z.testbit (val - addr + 2048) i.
Proof.
  intros Hi. rewrite Z.shiftl_spec by lia. destruct (Z.leb_spec 12 i); [|by rewrite Z.testbit_neg_r by lia].
  change 0xfffff with (Z.ones 20). rewrite Z.land_spec, Z.testbit_ones_nonneg by lia.
  replace (i - 12 <? 20) with true by lia. rewrite andb_true_r. unfold hi20_off.
  rewrite testbit_u64, Z.shiftr_spec by lia. replace (i - 12 + 12) with i by lia.
  rewrite <- (testbit_u64 (i64 _)), u64_i64, testbit_u64 by lia. done.
Qed.

Lemma pair_sum addr val : isu64 addr -> isu64 val -> -2147483648 <= i64 (val - addr) + 2048 < 2147483648 ->
  u64 (u64 (addr + i32 (hi20 (val - addr))) + lo12 (val - addr)) = val.
Proof.
  intros Ha Hv Hr. unfold i32, hi20, lo12 in *.
  assert (exists k, val - addr = i64 (val - addr) + k * 18446744073709551616 /\ -1 <= k <= 1) as (k & Ek & Hk).
  { exists ((val - addr + 9223372036854775808) / 18446744073709551616). unfold i64. zlia. }
  set (d := i64 (val - addr)) in *. rewrite Ek. unfold u64. zlia.
Qed.

Lemma hi20_accepted val addr : -2147483648 <= i64 (val - addr) + 2048 < 2147483648 ->
  Z.shiftr (u64 (hi20_off val addr + Z.shiftl 1 20)) 21 = 0.
Proof.
  intros Hr. rewrite Z.shiftr_div_pow2 by lia. rewrite Z.shiftl_1_l. change (2 ^ 21) with 2097152.
  change (2 ^ 20) with 1048576. unfold hi20_off. rewrite Z.shiftr_div_pow2 by lia. change (2 ^ 12) with 4096.
  assert (i64 (val - addr + 0x800) = i64 (val - addr) + 2048) as -> by (unfold i64 in *; zlia).
  set (d := i64 (val - addr)) in *. unfold u64. zlia.
Qed.

Lemma lo12_u64 d : lo12 (u64 d) = lo12 d.
Proof. unfold lo12, u64. zlia. Qed.
Lemma patch32_read ptr x s : read32le (data (patch32 ptr x s)) ptr = u32 x.
Proof. apply read32_write32. Qed.
Lemma bytes_ok_patch32 ptr x s : bytes_ok (data s) -> bytes_ok (data (patch32 ptr x s)).
Proof.
  intros H. cbn [data patch32 set_data]. unfold write32le, write16le. cbn zeta.
  do 4 (apply bytes_ok_aset; [|apply u8_bound]). done.
Qed.

(** pc-relative pairs.  For a target within 2^31 (minus the rounding of the high part) of the [auipc]: [R_RISCV_CALL], and
    [R_RISCV_PCREL_HI20] followed by either form of [R_RISCV_PCREL_LO12] on another instruction,
    succeed, and the two decoded immediates added to the address of the [auipc] give the target. *)
Theorem pair_relocation_decodes got ptr ptr2 addr addr2 val s :
  bytes_ok (data s) -> isu64 addr -> isu64 val -> ptr + 4 <= ptr2 \/ ptr2 + 4 <= ptr ->
  -2147483648 <= i64 (val - addr) + 2048 < 2147483648 ->
  (exists s', relocate R_RISCV_CALL got ptr addr val s = Some s' /\
     u64 (u64 (addr + imm_u (read32le (data s') ptr)) + imm_i (read32le (data s') (ptr + 4))) = val) /\
  exists s1, relocate R_RISCV_PCREL_HI20 got ptr addr val s = Some s1 /\
    (exists s2, relocate R_RISCV_PCREL_LO12_I got ptr2 addr2 addr s1 = Some s2 /\
       u64 (u64 (addr + imm_u (read32le (data s2) ptr)) + imm_i (read32le (data s2) ptr2)) = val) /\
    (exists s2, relocate R_RISCV_PCREL_LO12_S got ptr2 addr2 addr s1 = Some s2 /\
       u64 (u64 (addr + imm_u (read32le (data s2) ptr)) + imm_s (read32le (data s2) ptr2)) = val).
Proof.
  intros Hb Ha Hv Hp Hr. pose proof (read32_bound ptr (data s) Hb) as Hw.
  pose proof (fun x => read32_bound ptr2 _ (bytes_ok_patch32 ptr x s Hb)) as Hw2.
  pose proof (fun x => read32_bound (ptr + 4) _ (bytes_ok_patch32 ptr x s Hb)) as Hw4.
  pose proof (pair_sum addr val Ha Hv Hr) as Hsum. pose proof (hi20_accepted val addr Hr) as Hok.
  cbn [relocate]. cbn zeta. split.
  - eexists. split; [reflexivity|].
    rewrite (patch32_other (ptr + 4) _ _ ptr), !patch32_read by lia.
    rewrite (imm_u_bits _ _ (val - addr)) by (try done; intros; by apply hi_call).
    rewrite u32_small by (apply insn_patched; [apply Hw4|apply i_field_bound]).
    by rewrite imm_i_bits, lo12_u64 by apply Hw4.
  - rewrite Hok. eexists. split; [reflexivity|]. cbn [data last_hi_addr last_hi_val]. rewrite Z.eqb_refl. cbn [negb].
    split; (eexists; split; [reflexivity|]); rewrite (patch32_other ptr2 _ _ ptr), patch32_read by lia; cbn [data];
      rewrite patch32_read, (imm_u_bits _ _ (val - addr)) by (try done; intros; by apply hi_pcrel).
    + rewrite u32_small by (apply insn_patched; [apply Hw2|apply i_field_bound]).
      by rewrite imm_i_bits, lo12_u64 by apply Hw2.
    + rewrite u32_small by (apply insn_patched; [apply Hw2|apply s_field_bound]).
      by rewrite imm_s_bits by apply Hw2.
Qed.

Lemma pair_relocation_decodes_witness :
  exists s', relocate R_RISCV_CALL 0 0 0x80000000 0x7ffff804 (Lst ∅ 0 0) = Some s' /\
    u64 (u64 (0x80000000 + imm_u (read32le (data s') 0)) + imm_i (read32le (data s') 4)) = 0x7ffff804.
Proof.
  destruct (pair_relocation_decodes 0 0 8 0x80000000 0 0x7ffff804 (Lst ∅ 0 0) bytes_ok_empty
    ltac:(lia) ltac:(lia) ltac:(lia) ltac:(unfold i64; zlia)) as [H _].
  exact H.
Defined.
