(* ===== verification/WasmEmit.v ===== *)
(** The WebAssembly encoder of the compiler ([src/compiler/wasm/wasm-emit.c]): the growable byte
    buffer, LEB128 integers, instruction shorthands and opcode tables; and that a decoder of the
    WebAssembly format reads back what was encoded.

    [None] is [tcc_error] (no return): a buffer that cannot grow, an invalid type or operator.
    The heap is the parameter [can_alloc]: the sizes [tcc_realloc] can provide. *)
From S2P Require Import Prelude.

Record WasmBuf := Wb { wdata : gmap Z Z; wlen : Z; wcap : Z }.

(** [(v + a - 1) & -a] on [int]s. *)
Definition wasm_align_up (v a : Z) : Z := i32 (Z.land (i32 (v + a - 1)) (- a)).

Section heap.
Context (can_alloc : Z -> bool).

(** [while (n < need) n = n * 2;] *)
Fixpoint grow (fuel : nat) (n need : Z) : option Z :=
  match fuel with
  | O => None
  | S fuel => if n <? need then grow fuel (i32 (n * 2)) need else Some n
  end.
Definition wb_reserve (b : WasmBuf) (add : Z) : option WasmBuf :=
  let need := i32 (wlen b + add) in
  if need <=? wcap b then Some b
  else
    match grow 32 (if wcap b =? 0 then 256 else wcap b) need with
    | Some n => if can_alloc n then Some (Wb (wdata b) (wlen b) n) else None
    | None => None
    end.
Definition wb_u8 (v : Z) (b : WasmBuf) : option WasmBuf :=
  b ← wb_reserve b 1; Some (Wb (aset (wdata b) (wlen b) (u8 v)) (wlen b + 1) (wcap b)).
Definition wb_mem (p : list Z) (b : WasmBuf) : option WasmBuf :=
  b ← wb_reserve b (Z.of_nat (length p));
  Some (Wb (aputs p (wlen b) (wdata b)) (wlen b + Z.of_nat (length p)) (wcap b)).

(** [do { ... } while (v);] *)
Fixpoint uleb_loop (fuel : nat) (v : Z) (b : WasmBuf) : option WasmBuf :=
  match fuel with
  | O => None
  | S fuel =>
      let c := Z.land v 0x7f in
      let v := Z.shiftr v 7 in
      let c := if negb (v =? 0) then Z.lor c 0x80 else c in
      b ← wb_u8 c b; if negb (v =? 0) then uleb_loop fuel v b else Some b
  end.
Definition wb_uleb (v : Z) (b : WasmBuf) : option WasmBuf := uleb_loop 5 (u32 v) b.

(** The loop of [wb_sleb] and of [wb_sleb64]. *)
Fixpoint sleb_loop (fuel : nat) (v : Z) (b : WasmBuf) : option WasmBuf :=
  match fuel with
  | O => None
  | S fuel =>
      let c := Z.land v 0x7f in
      let sign := Z.land c 0x40 in
      let v := Z.shiftr v 7 in
      let more := negb (((v =? 0) && (sign =? 0)) || ((v =? -1) && negb (sign =? 0))) in
      let c := if more then Z.lor c 0x80 else c in
      b ← wb_u8 c b; if more then sleb_loop fuel v b else Some b
  end.
Definition wb_sleb (v : Z) (b : WasmBuf) : option WasmBuf := sleb_loop 5 v b.
Definition wb_sleb64 (v : Z) (b : WasmBuf) : option WasmBuf := sleb_loop 10 v b.

(** The eight bytes of a [double] given by its bits. *)
Definition le_bytes (n : nat) (v : Z) : list Z := map (fun k => u8 (Z.shiftr v (8 * Z.of_nat k))) (seq 0 n).
Definition wb_f64 (x : Z) (b : WasmBuf) : option WasmBuf := wb_mem (le_bytes 8 x) b.

Definition wb_local_get (idx : Z) (b : WasmBuf) : option WasmBuf := b ← wb_u8 0x20 b; wb_uleb idx b.
Definition wb_local_set (idx : Z) (b : WasmBuf) : option WasmBuf := b ← wb_u8 0x21 b; wb_uleb idx b.
Definition wb_local_tee (idx : Z) (b : WasmBuf) : option WasmBuf := b ← wb_u8 0x22 b; wb_uleb idx b.
Definition wb_global_get (idx : Z) (b : WasmBuf) : option WasmBuf := b ← wb_u8 0x23 b; wb_uleb idx b.
Definition wb_global_set (idx : Z) (b : WasmBuf) : option WasmBuf := b ← wb_u8 0x24 b; wb_uleb idx b.
Definition wb_i32_const (v : Z) (b : WasmBuf) : option WasmBuf := b ← wb_u8 0x41 b; wb_sleb v b.
Definition wb_i64_const (v : Z) (b : WasmBuf) : option WasmBuf := b ← wb_u8 0x42 b; wb_sleb64 v b.
Definition wb_f64_const (v : Z) (b : WasmBuf) : option WasmBuf := b ← wb_u8 0x44 b; wb_f64 v b.
Definition wb_memarg (align_log2 : Z) (b : WasmBuf) : option WasmBuf := b ← wb_uleb align_log2 b; wb_uleb 0 b.
End heap.

(** ** Types and opcodes *)

Inductive valtype := WASM_VAL_VOID | WASM_VAL_I32 | WASM_VAL_I64 | WASM_VAL_F32 | WASM_VAL_F64.
#[global] Instance valtype_eq_dec : EqDecision valtype.
Proof. solve_decision. Defined.
Definition wasm_valtype_byte (t : valtype) : option Z :=
  match t with
  | WASM_VAL_I32 => Some 0x7f
  | WASM_VAL_I64 => Some 0x7e
  | WASM_VAL_F32 => Some 0x7d
  | WASM_VAL_F64 => Some 0x7c
  | WASM_VAL_VOID => None
  end.

(** The operator tokens of [parsing.h] the tables mention. *)
Inductive tok :=
  | TPLUS | TMINUS | TMUL | TDIV | TOK_UDIV | TOK_PDIV | TMOD | TOK_UMOD | TAND | TOR | TXOR
  | TOK_SHL | TOK_SAR | TOK_SHR
  | TOK_EQ | TOK_NE | TOK_LT | TOK_ULT | TOK_GT | TOK_UGT | TOK_LE | TOK_ULE | TOK_GE | TOK_UGE
  | TOK_other.
#[global] Instance tok_eq_dec : EqDecision tok.
Proof. solve_decision. Defined.

Definition wasm_i32_bin_opcode (op : tok) : option Z :=
  match op with
  | TPLUS => Some 0x6a | TMINUS => Some 0x6b | TMUL => Some 0x6c | TDIV => Some 0x6d
  | TOK_UDIV | TOK_PDIV => Some 0x6e | TMOD => Some 0x6f | TOK_UMOD => Some 0x70
  | TAND => Some 0x71 | TOR => Some 0x72 | TXOR => Some 0x73
  | TOK_SHL => Some 0x74 | TOK_SAR => Some 0x75 | TOK_SHR => Some 0x76
  | _ => None
  end.
Definition wasm_i32_cmp_opcode (op : tok) : option Z :=
  match op with
  | TOK_EQ => Some 0x46 | TOK_NE => Some 0x47 | TOK_LT => Some 0x48 | TOK_ULT => Some 0x49
  | TOK_GT => Some 0x4a | TOK_UGT => Some 0x4b | TOK_LE => Some 0x4c | TOK_ULE => Some 0x4d
  | TOK_GE => Some 0x4e | TOK_UGE => Some 0x4f
  | _ => None
  end.
Definition wasm_i64_bin_opcode (op : tok) : option Z :=
  match op with
  | TPLUS => Some 0x7c | TMINUS => Some 0x7d | TMUL => Some 0x7e
  | TDIV => Some 0x7f | TOK_UDIV | TOK_PDIV => Some 0x80
  | TMOD => Some 0x81 | TOK_UMOD => Some 0x82
  | TAND => Some 0x83 | TOR => Some 0x84 | TXOR => Some 0x85
  | TOK_SHL => Some 0x86 | TOK_SAR => Some 0x87 | TOK_SHR => Some 0x88
  | _ => None
  end.
Definition wasm_i64_cmp_opcode (op : tok) : option Z :=
  match op with
  | TOK_EQ => Some 0x51 | TOK_NE => Some 0x52 | TOK_LT => Some 0x53 | TOK_ULT => Some 0x54
  | TOK_GT => Some 0x55 | TOK_UGT => Some 0x56 | TOK_LE => Some 0x57 | TOK_ULE => Some 0x58
  | TOK_GE => Some 0x59 | TOK_UGE => Some 0x5a
  | _ => None
  end.
Definition wasm_f32_cmp_opcode (op : tok) : option Z :=
  match op with
  | TOK_EQ => Some 0x5b | TOK_NE => Some 0x5c | TOK_LT | TOK_ULT => Some 0x5d
  | TOK_GT | TOK_UGT => Some 0x5e | TOK_LE | TOK_ULE => Some 0x5f | TOK_GE | TOK_UGE => Some 0x60
  | _ => None
  end.
Definition wasm_f64_cmp_opcode (op : tok) : option Z :=
  match op with
  | TOK_EQ => Some 0x61 | TOK_NE => Some 0x62 | TOK_LT | TOK_ULT => Some 0x63
  | TOK_GT | TOK_UGT => Some 0x64 | TOK_LE | TOK_ULE => Some 0x65 | TOK_GE | TOK_UGE => Some 0x66
  | _ => None
  end.
Definition wasm_f_bin_opcode (op : tok) (is_f32 : bool) : option Z :=
  match op with
  | TPLUS => Some (if is_f32 then 0x92 else 0xa0)
  | TMINUS => Some (if is_f32 then 0x93 else 0xa1)
  | TMUL => Some (if is_f32 then 0x94 else 0xa2)
  | TDIV => Some (if is_f32 then 0x95 else 0xa3)
  | _ => None
  end.

(** ** A decoder of the format *)

Fixpoint read_uleb (l : list Z) : option (Z * list Z) :=
  match l with
  | [] => None
  | c :: l =>
      if c <? 128 then Some (c, l)
      else match read_uleb l with Some (v, l) => Some (c - 128 + 128 * v, l) | None => None end
  end.
Fixpoint read_sleb (l : list Z) : option (Z * list Z) :=
  match l with
  | [] => None
  | c :: l =>
      if c <? 128 then Some (if c <? 64 then c else c - 128, l)
      else match read_sleb l with Some (v, l) => Some (c - 128 + 128 * v, l) | None => None end
  end.
Fixpoint read_le (n : nat) (l : list Z) : option (Z * list Z) :=
  match n with
  | O => Some (0, l)
  | S n =>
      match l with
      | [] => None
      | c :: l => match read_le n l with Some (v, l) => Some (c + 256 * v, l) | None => None end
      end
  end.

Inductive instr :=
  | LocalGet (idx : Z) | LocalSet (idx : Z) | LocalTee (idx : Z) | GlobalGet (idx : Z) | GlobalSet (idx : Z)
  | I32Const (v : Z) | I64Const (v : Z) | F64Const (bits : Z).

Definition read_instr (l : list Z) : option (instr * list Z) :=
  match l with
  | [] => None
  | op :: l =>
      let k {A} (f : A -> instr) (r : option (A * list Z)) :=
        match r with Some (v, l) => Some (f v, l) | None => None end in
      if op =? 0x20 then k LocalGet (read_uleb l)
      else if op =? 0x21 then k LocalSet (read_uleb l)
      else if op =? 0x22 then k LocalTee (read_uleb l)
      else if op =? 0x23 then k GlobalGet (read_uleb l)
      else if op =? 0x24 then k GlobalSet (read_uleb l)
      else if op =? 0x41 then k I32Const (read_sleb l)
      else if op =? 0x42 then k I64Const (read_sleb l)
      else if op =? 0x44 then k F64Const (read_le 8 l)
      else None
  end.
Fixpoint read_instrs (n : nat) (l : list Z) : option (list instr * list Z) :=
  match n with
  | O => Some ([], l)
  | S n =>
      match read_instr l with
      | Some (i, l) => match read_instrs n l with Some (r, l) => Some (i :: r, l) | None => None end
      | None => None
      end
  end.

Definition instr_ok (i : instr) : Prop :=
  match i with
  | LocalGet n | LocalSet n | LocalTee n | GlobalGet n | GlobalSet n => isu32 n
  | I32Const v => -2147483648 <= v < 2147483648
  | I64Const v => -9223372036854775808 <= v < 9223372036854775808
  | F64Const v => isu64 v
  end.

(** ** The buffer *)

(** The capacities doubling from 256 gives without overflow. *)
Definition cap_ok (n : Z) : Prop := exists k, 0 <= k <= 22 /\ n = 256 * 2 ^ k.
Record wb_ok (b : WasmBuf) : Prop := {
  wb_len : 0 <= wlen b <= wcap b;
  wb_cap : wcap b = 0 \/ cap_ok (wcap b)
}.
Definition contents (b : WasmBuf) : list Z := map (fun k => aget (wdata b) (Z.of_nat k)) (seq 0 (Z.to_nat (wlen b))).

(** [b'] is [b] with [l] appended. *)
Definition appends (l : list Z) (b b' : WasmBuf) : Prop :=
  wb_ok b' /\ contents b' = contents b ++ l /\ wlen b' = wlen b + Z.of_nat (length l).

Lemma appends_nil b : wb_ok b -> appends [] b b.
Proof. intros H. split; [done|]. rewrite app_nil_r. split; [done|]. cbn. lia. Qed.
Lemma appends_trans l1 l2 b1 b2 b3 : appends l1 b1 b2 -> appends l2 b2 b3 -> appends (l1 ++ l2) b1 b3.
Proof.
  intros (_ & E1 & L1) (H & E2 & L2). split; [done|]. split; [by rewrite E2, E1, app_assoc|].
  rewrite length_app. lia.
Qed.

Lemma le_bytes_read n v rest : 0 <= v < 256 ^ Z.of_nat n -> read_le n (le_bytes n v ++ rest) = Some (v, rest).
Proof.
  revert v. induction n as [|n IH]; intros v Hv; [cbn in Hv |- *; do 2 f_equal; lia|].
  unfold le_bytes. cbn [seq map read_le app]. rewrite <- seq_shift, map_map.
  rewrite (map_ext _ (fun k => u8 (Z.shiftr (v / 256) (8 * Z.of_nat k)))).
  - fold (le_bytes n (v / 256)). rewrite IH.
    + rewrite Z.shiftr_0_r. do 2 f_equal. unfold u8. zlia.
    + rewrite Nat2Z.inj_succ, Z.pow_succ_r in Hv by lia. split; [apply Z.div_pos; lia|apply Z.div_lt_upper_bound; lia].
  - intros k. f_equal. change 256 with (2 ^ 8). rewrite <- Z.shiftr_div_pow2, Z.shiftr_shiftr by lia. f_equal. lia.
Qed.

Section heap.
Context (can_alloc : Z -> bool).

Lemma grow_stuck f need : 0 < need -> grow f 0 need = None.
Proof. intros Hn. induction f as [|f IH]; [done|]. cbn [grow]. by replace (0 <? need) with true by lia. Qed.

Lemma cap_bound n : cap_ok n -> 256 <= n <= 1073741824.
Proof.
  intros (k & Hk & ->). split.
  - pose proof (Z.pow_pos_nonneg 2 k). lia.
  - change 1073741824 with (256 * 2 ^ 22). pose proof (Z.pow_le_mono_r 2 k 22). lia.
Qed.
Lemma cap_double n : cap_ok n -> n = 1073741824 \/ cap_ok (n * 2) /\ n <= 536870912.
Proof.
  intros (k & Hk & ->). destruct (Z.eq_dec k 22) as [->|]; [by left|]. right. split.
  - exists (k + 1). split; [lia|]. rewrite Z.pow_add_r by lia. lia.
  - change 536870912 with (256 * 2 ^ 21). pose proof (Z.pow_le_mono_r 2 k 21). lia.
Qed.

Lemma grow_spec f n need n' : cap_ok n -> 0 < need -> grow f n need = Some n' ->
  cap_ok n' /\ need <= n'.
Proof.
  revert n. induction f as [|f IH]; intros n Hn Hneed; [done|]. cbn [grow].
  destruct (Z.ltb_spec n need); [|by intros [= <-]].
  destruct (cap_double n Hn) as [->|[Hd Hb]].
  - change (i32 (1073741824 * 2)) with (-2147483648). destruct f as [|f]; [done|]. cbn [grow].
    replace (-2147483648 <? need) with true by lia. change (i32 (-2147483648 * 2)) with 0.
    by rewrite grow_stuck.
  - pose proof (cap_bound n Hn). rewrite i32_small by lia. by apply IH.
Qed.

(** Enough rounds reach any size up to 2^30. *)
Lemma grow_total f k need : 0 <= k <= 22 -> (Z.to_nat (22 - k) < f)%nat -> need <= 1073741824 ->
  grow f (256 * 2 ^ k) need <> None.
Proof.
  revert k. induction f as [|f IH]; intros k Hk Hf Hn; [lia|]. cbn [grow].
  destruct (Z.ltb_spec (256 * 2 ^ k) need) as [Hl|]; [|done].
  destruct (Z.eq_dec k 22) as [->|]; [change (256 * 2 ^ 22) with 1073741824 in Hl; lia|].
  assert (256 * 2 ^ k * 2 = 256 * 2 ^ (k + 1)) as E by (rewrite Z.pow_add_r by lia; lia).
  assert (256 * 2 ^ (k + 1) <= 1073741824) by (change 1073741824 with (256 * 2 ^ 22); pose proof (Z.pow_le_mono_r 2 (k + 1) 22); lia).
  pose proof (Z.pow_pos_nonneg 2 k). rewrite i32_small, E by lia. apply IH; lia.
Qed.

Lemma reserve_spec b add b' : wb_ok b -> 0 <= add <= 255 -> wb_reserve can_alloc b add = Some b' ->
  wb_ok b' /\ wdata b' = wdata b /\ wlen b' = wlen b /\ wlen b + add <= wcap b'.
Proof.
  intros [Hl Hc] Ha. unfold wb_reserve.
  assert (wcap b <= 1073741824) by (destruct Hc as [->|Hc]; [lia|]; pose proof (cap_bound _ Hc); lia).
  rewrite i32_small by lia. destruct (Z.leb_spec (wlen b + add) (wcap b)) as [Hle|Hgt]; [by intros [= <-]|].
  destruct (grow _ _ _) as [n|] eqn:E; [|done]. destruct (can_alloc n); [|done]. intros [= <-].
  apply grow_spec in E as [Hn Hneed]; [|destruct (Z.eqb_spec (wcap b) 0); [by exists 0|by destruct Hc]|lia].
  cbn. split; [|done]. constructor; cbn; [lia|by right].
Qed.
Lemma reserve_total b add : (forall n, can_alloc n = true) -> wb_ok b -> wlen b + add <= 1073741824 -> 0 <= add ->
  wb_reserve can_alloc b add <> None.
Proof.
  intros Hall [Hl Hc] Hr Ha. unfold wb_reserve. rewrite i32_small by lia. destruct (_ <=? _); [done|].
  assert (exists k, 0 <= k <= 22 /\ (if wcap b =? 0 then 256 else wcap b) = 256 * 2 ^ k) as (k & Hk & ->).
  { destruct (Z.eqb_spec (wcap b) 0); [by exists 0|by destruct Hc]. }
  pose proof (grow_total 32 k (wlen b + add) Hk ltac:(lia) Hr). destruct (grow _ _ _) as [n|]; [|done]. by rewrite Hall.
Qed.

Lemma contents_put b p c : 0 <= wlen b ->
  contents (Wb (aputs p (wlen b) (wdata b)) (wlen b + Z.of_nat (length p)) c) = contents b ++ p.
Proof.
  intros Hl. unfold contents. cbn [wdata wlen].
  replace (Z.to_nat (wlen b + Z.of_nat (length p))) with (Z.to_nat (wlen b) + length p)%nat by lia.
  rewrite seq_app, map_app. f_equal.
  - apply map_ext_in. intros k Hk. apply in_seq in Hk. rewrite aget_aputs, bool_decide_eq_false_2 by lia. done.
  - apply nth_ext with (d := 0) (d' := 0); [by rewrite length_map, length_seq|].
    intros k Hk. rewrite length_map, length_seq in Hk.
    set (f := fun k : nat => aget (aputs p (wlen b) (wdata b)) (Z.of_nat k)).
    rewrite (nth_indep _ 0 (f 0%nat)) by (by rewrite length_map, length_seq).
    rewrite (map_nth f), seq_nth by lia. unfold f. rewrite aget_aputs, bool_decide_eq_true_2 by lia. f_equal. lia.
Qed.

Lemma mem_appends p b b' : wb_ok b -> (length p <= 255)%nat -> wb_mem can_alloc p b = Some b' -> appends p b b'.
Proof.
  intros Hb Hp. unfold wb_mem. destruct (wb_reserve _ _ _) as [b1|] eqn:E; [|done]. cbn. intros [= <-].
  apply reserve_spec in E as (H1 & Ed & El & Hc); [|done|lia]. pose proof (wb_len _ Hb). split; [|split].
  - constructor; cbn [wlen wcap]; [lia|apply H1].
  - rewrite contents_put by lia. unfold contents. by rewrite Ed, El.
  - cbn. lia.
Qed.
Lemma u8_appends v b b' : wb_ok b -> wb_u8 can_alloc v b = Some b' -> appends [u8 v] b b'.
Proof. intros Hb E. apply mem_appends; [done|cbn; lia|exact E]. Qed.

(** ** Integers *)

Lemma low7 v : Z.land v 0x7f = v mod 128.
Proof. change 0x7f with (2 ^ 7 - 1). by rewrite land_ones_mod. Qed.
Lemma high_bit c : 0 <= c < 128 -> Z.lor c 0x80 = c + 128.
Proof. intros. rewrite Z.lor_comm. change 0x80 with (1 * 2 ^ 7) at 1. rewrite lor_add by lia. lia. Qed.
Lemma sign_bit c : 0 <= c < 128 -> (Z.land c 0x40 =? 0) = (c <? 64).
Proof.
  intros Hc. pose proof (tst_pow2 c 6 ltac:(lia)) as H. unfold tst in H. change (2 ^ 6) with 0x40 in H.
  apply (f_equal negb) in H. rewrite negb_involutive in H. rewrite H.
  rewrite Z.testbit_odd, Z.shiftr_div_pow2 by lia. change (2 ^ 6) with 64.
  destruct (Z.ltb_spec c 64).
  - by rewrite Z.div_small by lia.
  - assert (c / 64 = 1) as -> by zlia. done.
Qed.

Lemma uleb_spec fuel v b b' : wb_ok b -> 0 <= v < 2 ^ (7 * Z.of_nat fuel) -> uleb_loop can_alloc fuel v b = Some b' ->
  exists l, appends l b b' /\ (length l <= fuel)%nat /\ forall rest, read_uleb (l ++ rest) = Some (v, rest).
Proof.
  revert v b. induction fuel as [|fuel IH]; intros v b Hb Hv; [done|]. cbn [uleb_loop]. cbn zeta.
  rewrite low7, Z.shiftr_div_pow2 by lia. change (2 ^ 7) with 128. pose proof (Z.mod_pos_bound v 128 ltac:(lia)) as Hc.
  destruct (Z.eqb_spec (v / 128) 0) as [E0|E0]; cbn [negb]; destruct (wb_u8 _ _ b) as [b1|] eqn:E1; try done; cbn; intros E.
  - injection E as <-. apply u8_appends in E1; [|done]. rewrite u8_small in E1 by lia.
    eexists. split; [exact E1|]. split; [cbn; lia|]. intros rest. cbn. replace (v mod 128 <? 128) with true by lia. do 2 f_equal. zlia.
  - rewrite high_bit in E1 by lia. apply u8_appends in E1; [|done]. rewrite u8_small in E1 by lia.
    replace (7 * Z.of_nat (S fuel)) with (7 * Z.of_nat fuel + 7) in Hv by lia. rewrite Z.pow_add_r in Hv by lia.
    change (2 ^ 7) with 128 in Hv.
    apply IH in E as (l & Hl & Hn & Hr); [|apply E1|split; [apply Z.div_pos; lia|apply Z.div_lt_upper_bound; lia]].
    eexists. split; [exact (appends_trans _ _ _ _ _ E1 Hl)|]. split; [cbn; lia|]. intros rest. cbn.
    replace (v mod 128 + 128 <? 128) with false by lia. rewrite Hr. do 2 f_equal. zlia.
Qed.

Lemma sleb_spec fuel v b b' : wb_ok b -> - 2 ^ (7 * Z.of_nat fuel - 1) <= v < 2 ^ (7 * Z.of_nat fuel - 1) ->
  sleb_loop can_alloc fuel v b = Some b' ->
  exists l, appends l b b' /\ (length l <= fuel)%nat /\ forall rest, read_sleb (l ++ rest) = Some (v, rest).
Proof.
  revert v b. induction fuel as [|fuel IH]; intros v b Hb Hv; [done|]. cbn [sleb_loop]. cbn zeta.
  rewrite low7, Z.shiftr_div_pow2 by lia. change (2 ^ 7) with 128. pose proof (Z.mod_pos_bound v 128 ltac:(lia)) as Hc.
  rewrite (sign_bit _ Hc).
  destruct (negb ((v / 128 =? 0) && (v mod 128 <? 64) || (v / 128 =? -1) && negb (v mod 128 <? 64))) eqn:Em;
    destruct (wb_u8 _ _ b) as [b1|] eqn:E1; try done; cbn; intros E.
  - rewrite high_bit in E1 by lia. apply u8_appends in E1; [|done]. rewrite u8_small in E1 by lia.
    destruct fuel as [|fuel].
    { exfalso. change (2 ^ (7 * Z.of_nat 1 - 1)) with 64 in Hv. apply negb_true_iff, orb_false_iff in Em as [Em1 Em2].
      destruct (Z.ltb_spec (v mod 128) 64); [rewrite andb_true_r in Em1; apply Z.eqb_neq in Em1
        |rewrite andb_true_r in Em2; apply Z.eqb_neq in Em2]; zlia. }
    assert (7 * Z.of_nat (S (S fuel)) - 1 = (7 * Z.of_nat (S fuel) - 1) + 7) as Ep by lia. rewrite Ep in Hv.
    rewrite Z.pow_add_r in Hv by lia. change (2 ^ 7) with 128 in Hv.
    apply IH in E as (l & Hl & Hn & Hr); [|apply E1|split; [apply Z.div_le_lower_bound; lia|apply Z.div_lt_upper_bound; lia]].
    eexists. split; [exact (appends_trans _ _ _ _ _ E1 Hl)|]. split; [cbn; lia|]. intros rest. cbn.
    replace (v mod 128 + 128 <? 128) with false by lia. rewrite Hr. do 2 f_equal. zlia.
  - injection E as <-. apply u8_appends in E1; [|done]. rewrite u8_small in E1 by lia.
    eexists. split; [exact E1|]. split; [cbn; lia|]. intros rest. cbn. replace (v mod 128 <? 128) with true by lia. do 2 f_equal.
    apply negb_false_iff, orb_true_iff in Em as [Em|Em]; apply andb_true_iff in Em as [Eq Es]; apply Z.eqb_eq in Eq.
    + rewrite Es. zlia.
    + apply negb_true_iff in Es. rewrite Es. zlia.
Qed.


(** ** Nothing but the heap stops the encoder *)

Lemma u8_total v b : (forall n, can_alloc n = true) -> wb_ok b -> wlen b + 1 <= 1073741824 ->
  exists b', wb_u8 can_alloc v b = Some b' /\ appends [u8 v] b b'.
Proof.
  intros Hall Hb Hr. destruct (wb_u8 can_alloc v b) as [b'|] eqn:E; [exists b'; split; [done|by apply u8_appends]|].
  unfold wb_u8 in E. pose proof (reserve_total b 1 Hall Hb ltac:(lia) ltac:(lia)).
  destruct (wb_reserve _ _ _); done.
Qed.
Lemma uleb_total fuel v b : (forall n, can_alloc n = true) -> wb_ok b -> (0 < fuel)%nat ->
  wlen b + Z.of_nat fuel <= 1073741824 -> 0 <= v < 2 ^ (7 * Z.of_nat fuel) -> uleb_loop can_alloc fuel v b <> None.
Proof.
  intros Hall. revert v b. induction fuel as [|fuel IH]; intros v b Hb Hf Hr Hv; [lia|]. cbn [uleb_loop]. cbn zeta.
  match goal with |- context [wb_u8 can_alloc ?c b] =>
    destruct (u8_total c b Hall Hb ltac:(lia)) as (b1 & -> & H1 & _ & L1) end. cbn.
  rewrite Z.shiftr_div_pow2 by lia. change (2 ^ 7) with 128. destruct (Z.eqb_spec (v / 128) 0) as [E0|E0]; cbn [negb]; [done|].
  replace (7 * Z.of_nat (S fuel)) with (7 * Z.of_nat fuel + 7) in Hv by lia. rewrite Z.pow_add_r in Hv by lia.
  change (2 ^ 7) with 128 in Hv.
  destruct fuel as [|fuel]; [change (2 ^ (7 * Z.of_nat 0)) with 1 in Hv; exfalso; zlia|].
  cbn [length] in L1. apply IH; try done; [lia|lia|].
  split; [apply Z.div_pos; lia|apply Z.div_lt_upper_bound; lia].
Qed.
Lemma sleb_total fuel v b : (forall n, can_alloc n = true) -> wb_ok b -> (0 < fuel)%nat ->
  wlen b + Z.of_nat fuel <= 1073741824 -> - 2 ^ (7 * Z.of_nat fuel - 1) <= v < 2 ^ (7 * Z.of_nat fuel - 1) ->
  sleb_loop can_alloc fuel v b <> None.
Proof.
  intros Hall. revert v b. induction fuel as [|fuel IH]; intros v b Hb Hf Hr Hv; [lia|]. cbn [sleb_loop]. cbn zeta.
  match goal with |- context [wb_u8 can_alloc ?c b] =>
    destruct (u8_total c b Hall Hb ltac:(lia)) as (b1 & -> & H1 & _ & L1) end. cbn.
  rewrite low7, (sign_bit (v mod 128)) by zlia.
  rewrite Z.shiftr_div_pow2 by lia. change (2 ^ 7) with 128.
  match goal with |- context [if ?c then sleb_loop _ _ _ _ else _] => destruct c eqn:Em end; [|done].
  destruct fuel as [|fuel].
  { exfalso. change (2 ^ (7 * Z.of_nat 1 - 1)) with 64 in Hv. apply negb_true_iff, orb_false_iff in Em as [Em1 Em2].
    destruct (Z.ltb_spec (v mod 128) 64); [rewrite andb_true_r in Em1; apply Z.eqb_neq in Em1
      |rewrite andb_true_r in Em2; apply Z.eqb_neq in Em2]; zlia. }
  replace (7 * Z.of_nat (S (S fuel)) - 1) with ((7 * Z.of_nat (S fuel) - 1) + 7) in Hv by lia.
  rewrite Z.pow_add_r in Hv by lia. change (2 ^ 7) with 128 in Hv.
  cbn [length] in L1. apply IH; try done; [lia|lia|].
  split; [apply Z.div_le_lower_bound; lia|apply Z.div_lt_upper_bound; lia].
Qed.
End heap.

(** ** Instructions *)

Definition emit (can_alloc : Z -> bool) (i : instr) (b : WasmBuf) : option WasmBuf :=
  match i with
  | LocalGet n => wb_local_get can_alloc n b
  | LocalSet n => wb_local_set can_alloc n b
  | LocalTee n => wb_local_tee can_alloc n b
  | GlobalGet n => wb_global_get can_alloc n b
  | GlobalSet n => wb_global_set can_alloc n b
  | I32Const v => wb_i32_const can_alloc v b
  | I64Const v => wb_i64_const can_alloc v b
  | F64Const v => wb_f64_const can_alloc v b
  end.
Fixpoint emit_all (can_alloc : Z -> bool) (l : list instr) (b : WasmBuf) : option WasmBuf :=
  match l with [] => Some b | i :: l => b ← emit can_alloc i b; emit_all can_alloc l b end.

(** An opcode byte, then what [f] writes and [rd] reads back as [x]. *)
Lemma opcode_then {A} ca op (f : WasmBuf -> option WasmBuf) b b' (rd : list Z -> option (A * list Z)) (g : A -> instr) x :
  wb_ok b ->
  (forall b1 b2, wb_ok b1 -> f b1 = Some b2 ->
     exists l, appends l b1 b2 /\ (length l <= 10)%nat /\ forall rest, rd (l ++ rest) = Some (x, rest)) ->
  (forall l, read_instr (u8 op :: l) = match rd l with Some (v, l) => Some (g v, l) | None => None end) ->
  (b ← wb_u8 ca op b; f b) = Some b' ->
  exists l, appends l b b' /\ (length l <= 11)%nat /\ forall rest, read_instr (l ++ rest) = Some (g x, rest).
Proof.
  intros Hb Hf Hrd. destruct (wb_u8 ca op b) as [b1|] eqn:E1; [|done]. cbn. intros E2.
  apply u8_appends in E1; [|done]. apply Hf in E2 as (l & Hl & Hn & Hr); [|apply E1].
  exists (u8 op :: l). split; [exact (appends_trans _ _ _ _ _ E1 Hl)|]. split; [cbn; lia|]. intros rest.
  cbn [app]. by rewrite Hrd, Hr.
Qed.

Lemma emit_spec ca i b b' : wb_ok b -> instr_ok i -> emit ca i b = Some b' ->
  exists l, appends l b b' /\ (length l <= 11)%nat /\ forall rest, read_instr (l ++ rest) = Some (i, rest).
Proof.
  intros Hb Hi.
  assert (forall n b1 b2, isu32 n -> wb_ok b1 -> wb_uleb ca n b1 = Some b2 ->
    exists l, appends l b1 b2 /\ (length l <= 10)%nat /\ forall rest, read_uleb (l ++ rest) = Some (n, rest)) as Hu.
  { intros n b1 b2 Hn H1. unfold wb_uleb. rewrite u32_small by done. intros E1.
    apply uleb_spec in E1 as (l & ? & ? & ?); [|done|cbn; lia]. exists l. split; [done|]. split; [lia|done]. }
  assert (forall fuel v b1 b2, (fuel <= 10)%nat -> - 2 ^ (7 * Z.of_nat fuel - 1) <= v < 2 ^ (7 * Z.of_nat fuel - 1) ->
    wb_ok b1 -> sleb_loop ca fuel v b1 = Some b2 ->
    exists l, appends l b1 b2 /\ (length l <= 10)%nat /\ forall rest, read_sleb (l ++ rest) = Some (v, rest)) as Hs.
  { intros fuel v b1 b2 Hf Hv H1 E1. apply sleb_spec in E1 as (l & ? & ? & ?); [|done..].
    exists l. split; [done|]. split; [lia|done]. }
  destruct i as [n|n|n|n|n|v|v|v]; cbn [emit instr_ok] in Hi |- *.
  1-5: eapply (opcode_then _ _ _ _ _ read_uleb); [done|intros b1 b2; by apply Hu|done].
  - eapply (opcode_then _ _ _ _ _ read_sleb I32Const); [done|intros b1 b2; apply Hs; [lia|]|done].
    change (2 ^ (7 * Z.of_nat 5 - 1)) with 17179869184. lia.
  - eapply (opcode_then _ _ _ _ _ read_sleb I64Const); [done|intros b1 b2; apply Hs; [lia|]|done].
    change (2 ^ (7 * Z.of_nat 10 - 1)) with 590295810358705651712. lia.
  - eapply (opcode_then _ _ _ _ _ (read_le 8) F64Const); [done|intros b1 b2 H1 E|done].
    exists (le_bytes 8 v). split; [eapply mem_appends; [done|cbn; lia|exact E]|].
    split; [cbn; lia|]. intros rest. apply le_bytes_read.
    change (256 ^ Z.of_nat 8) with 18446744073709551616. lia.
Qed.

Lemma emit_total ca i b : (forall n, ca n = true) -> wb_ok b -> instr_ok i -> wlen b + 11 <= 1073741824 ->
  emit ca i b <> None.
Proof.
  intros Hall Hb Hi Hr.
  assert (forall op (f : WasmBuf -> option WasmBuf),
    (forall b1, wb_ok b1 -> wlen b1 = wlen b + 1 -> f b1 <> None) -> (b ← wb_u8 ca op b; f b) <> None) as Ho.
  { intros op f Hf. destruct (u8_total ca op b Hall Hb) as (b1 & -> & H1 & _ & L1); [lia|]. by apply Hf. }
  destruct i as [n|n|n|n|n|v|v|v]; cbn [emit instr_ok] in Hi |- *; apply Ho; intros b1 H1 L1.
  1-5: unfold wb_uleb; rewrite u32_small by done; apply uleb_total; (done || lia).
  - apply sleb_total; try assumption; try lia; change (2 ^ (7 * Z.of_nat 5 - 1)) with 17179869184; lia.
  - apply sleb_total; try assumption; try lia; change (2 ^ (7 * Z.of_nat 10 - 1)) with 590295810358705651712; lia.
  - unfold wb_f64, wb_mem. pose proof (reserve_total ca b1 (Z.of_nat (length (le_bytes 8 v))) Hall H1) as Ht.
    assert (Z.of_nat (length (le_bytes 8 v)) = 8) as E8 by done. rewrite E8 in *.
    destruct (wb_reserve _ _ _); [done|]. by destruct Ht; [lia|lia|].
Qed.

(** C39: encoding is faithful.  Every sequence of local and global accesses and 32-bit, 64-bit and
    floating constants appended to a buffer decodes back to itself (signed and unsigned
    LEB128, IEEE bytes), whatever follows, after exactly the buffer's earlier contents; and with
    memory available and the buffer below 2^30 bytes the encoder does not fail. *)
Theorem wasm_emit_roundtrip ca l b :
  wb_ok b -> Forall instr_ok l ->
  ((forall n, ca n = true) -> wlen b + 11 * Z.of_nat (length l) <= 1073741824 -> emit_all ca l b <> None) /\
  forall b', emit_all ca l b = Some b' ->
    wb_ok b' /\ exists code, contents b' = contents b ++ code /\
      forall rest, read_instrs (length l) (code ++ rest) = Some (l, rest).
Proof.
  intros Hb Hl. revert b Hb. induction Hl as [|i l Hi Hl IH]; intros b Hb.
  { split; [done|]. intros b' [= <-]. split; [done|]. exists []. by rewrite app_nil_r. }
  cbn [emit_all length]. split.
  - intros Hall Hr. pose proof (emit_total ca i b Hall Hb Hi ltac:(lia)).
    destruct (emit ca i b) as [b1|] eqn:E; [|done]. cbn.
    apply emit_spec in E as E'; [|done..]. destruct E' as (c & (H1 & _ & L1) & Hn & _). apply (IH b1 H1); [done|lia].
  - intros b'. destruct (emit ca i b) as [b1|] eqn:E; [|done]. cbn. intros E'.
    apply emit_spec in E as (c & (H1 & C1 & L1) & _ & Hc); [|done..].
    destruct (proj2 (IH b1 H1) b' E') as (H2 & code & C2 & Hr). split; [done|].
    exists (c ++ code). split; [by rewrite C2, C1, app_assoc|].
    intros rest. cbn [read_instrs]. by rewrite <- app_assoc, Hc, Hr.
Qed.

Lemma wasm_emit_roundtrip_witness :
  exists b', emit_all (fun _ => true) [LocalGet 300; I32Const (-128); I64Const 5000000000; F64Const 0x3ff0000000000000]
      (Wb ∅ 0 0) = Some b' /\
    read_instrs 4 (contents b') =
      Some ([LocalGet 300; I32Const (-128); I64Const 5000000000; F64Const 0x3ff0000000000000], []).
Proof.
  assert (wb_ok (Wb ∅ 0 0)) as Hb by (constructor; cbn; [lia|by left]).
  assert (Forall instr_ok [LocalGet 300; I32Const (-128); I64Const 5000000000; F64Const 0x3ff0000000000000]) as Hl
    by (repeat constructor; cbn; lia).
  destruct (wasm_emit_roundtrip (fun _ => true) _ _ Hb Hl) as [Hn H].
  destruct (emit_all (fun _ => true) _ (Wb ∅ 0 0)) as [b'|]; [|destruct Hn; [done|cbn; lia|done]].
  exists b'. split; [reflexivity|]. destruct (H b' eq_refl) as (_ & code & E & Hr).
  rewrite E. change (contents (Wb ∅ 0 0)) with (@nil Z). cbn [app]. rewrite <- (app_nil_r code). apply Hr.
Defined.
