(* ===== verification/RvGen.v ===== *)
(** Instruction selection of the RISC-V back end ([src/compiler/risc/riscv64-gen.c],
    [riscv64-encode.h]): definitions.

    Code is emitted into the text section at [ind] by [o].  [None] is a failed [assert] or
    [tcc_error].  Registers are machine numbers ([x10] to [x17] for the allocator's 0 to 7); which
    register holds a value is the allocator's choice and an argument here. *)
From S2P Require Import Prelude RiscvLink.

(** ** Tokens ([parsing.h]) and types ([types.h], [vstack.h]) *)

Definition TOK_UDIV : Z := 0x83.
Definition TOK_UMOD : Z := 0x84.
Definition TOK_PDIV : Z := 0x85.
Definition TOK_SHR : Z := 0x8b.
Definition TOK_LAND : Z := 0x90.
Definition TOK_LOR : Z := 0x91.
Definition TOK_ULT : Z := 0x92.
Definition TOK_UGE : Z := 0x93.
Definition TOK_EQ : Z := 0x94.
Definition TOK_NE : Z := 0x95.
Definition TOK_ULE : Z := 0x96.
Definition TOK_UGT : Z := 0x97.
Definition TOK_LT : Z := 0x9c.
Definition TOK_GE : Z := 0x9d.
Definition TOK_LE : Z := 0x9e.
Definition TOK_GT : Z := 0x9f.
Definition TOK_SHL : Z := 60. (* < *)
Definition TOK_SAR : Z := 62. (* > *)
Definition T_ADD : Z := 43.
Definition T_SUB : Z := 45.
Definition T_MUL : Z := 42.
Definition T_DIV : Z := 47.
Definition T_MOD : Z := 37.
Definition T_AND : Z := 38.
Definition T_OR : Z := 124.
Definition T_XOR : Z := 94.
Definition VT_INT : Z := 3.
Definition VT_LLONG : Z := 4.
Definition VT_PTR : Z := 5.
Definition VT_FUNC : Z := 6.

(** ** Registers *)

Definition TREG_RA : Z := 17.
Definition TREG_SP : Z := 18.
Definition ireg (r : Z) : option Z :=
  if r =? TREG_RA then Some 1
  else if r =? TREG_SP then Some 2
  else if (0 <=? r) && (r <? 8) then Some (r + 10) else None.
Definition is_ireg (r : Z) : bool := (u32 r <? 8) || (r =? TREG_RA) || (r =? TREG_SP).
Definition freg (r : Z) : option Z := if (8 <=? r) && (r <? 16) then Some (r - 8 + 10) else None.
Definition is_freg (r : Z) : bool := (8 <=? r) && (r <? 16).

(** ** Encodings *)

Definition RV_RD (r : Z) : Z := u32 (Z.shiftl r 7).
Definition RV_RS1 (r : Z) : Z := u32 (Z.shiftl r 15).
Definition RV_RS2 (r : Z) : Z := u32 (Z.shiftl r 20).
Definition rv_r (op f3 f7 rd rs1 rs2 : Z) : Z :=
  Z.lor (Z.lor (Z.lor (Z.lor (Z.lor op (RV_RD rd)) (u32 (Z.shiftl f3 12))) (RV_RS1 rs1)) (RV_RS2 rs2))
    (u32 (Z.shiftl f7 25)).
Definition rv_i (op f3 rd rs1 imm : Z) : Z :=
  Z.lor (Z.lor (Z.lor (Z.lor op (RV_RD rd)) (u32 (Z.shiftl f3 12))) (RV_RS1 rs1)) (u32 (Z.shiftl imm 20)).
Definition rv_s (op f3 rs1 rs2 imm : Z) : Z :=
  Z.lor (Z.lor (Z.lor (Z.lor (Z.lor op (u32 (Z.shiftl (Z.land imm 31) 7))) (u32 (Z.shiftl f3 12))) (RV_RS1 rs1))
    (RV_RS2 rs2)) (u32 (Z.shiftl (Z.shiftr imm 5) 25)).
Definition rv_u (op rd imm : Z) : Z := Z.lor (Z.lor op (RV_RD rd)) (Z.land imm 0xfffff000).

(** ** Emission *)

Record gen := Gen { text : gmap Z Z; ind : Z; nocode_wanted : bool }.
Definition o (c : Z) (g : gen) : gen :=
  if nocode_wanted g then g
  else Gen (write32le (ind g) (u32 c) (text g)) (ind g + 4) (nocode_wanted g).
Definition EIu (opcode func3 rd rs1 imm : Z) (g : gen) : gen := o (rv_i opcode func3 rd rs1 imm) g.
Definition ER (opcode func3 rd rs1 rs2 func7 : Z) (g : gen) : gen := o (rv_r opcode func3 func7 rd rs1 rs2) g.
Definition EM (bits rd rs1 rs2 : Z) (g : gen) : gen :=
  o (Z.lor (Z.lor (Z.lor bits (RV_RD rd)) (RV_RS1 rs1)) (RV_RS2 rs2)) g.
(** [assert(! ((imm + (1 << 11)) >> 12));] *)
Definition imm_fits (imm : Z) : bool := Z.shiftr (u32 (imm + Z.shiftl 1 11)) 12 =? 0.
Definition EI (opcode func3 rd rs1 imm : Z) (g : gen) : option gen :=
  if imm_fits imm then Some (EIu opcode func3 rd rs1 (u32 imm) g) else None.
Definition ES (opcode func3 rs1 rs2 imm : Z) (g : gen) : option gen :=
  if imm_fits imm then Some (o (rv_s opcode func3 rs1 rs2 (u32 imm)) g) else None.

(** ** Constants: the [VT_CONST] case of [load] without a symbol

    [fc << 20 >> 20] and the like on [int]s. *)
Definition sx (bits v : Z) : Z := Z.shiftr (i32 (u32 (Z.shiftl v (32 - bits)))) (32 - bits).

(** Lines 286-296: the constant's high word is not zero. *)
Definition load_wide (rr fc si : Z) (g : gen) : option (Z * gen) :=
  let pi := u32 si in
  let pi := if fc <? 0 then u32 (pi + 1) else pi in
  let g := o (Z.lor (Z.lor 0x37 (RV_RD rr)) (Z.land (u32 (pi + 0x800)) 0xfffff000)) g in
  g ← EI 0x13 0 rr rr (sx 12 (i32 pi)) g;
  g ← EI 0x13 1 rr rr 12 g;
  g ← EI 0x13 0 rr rr (Z.shiftr (i32 (fc + Z.shiftl 1 19)) 20) g;
  g ← EI 0x13 1 rr rr 12 g;
  let fc := sx 20 fc in
  g ← EI 0x13 0 rr rr (Z.shiftr fc 8) g;
  g ← EI 0x13 1 rr rr 8 g;
  Some (Z.land fc 0xff, g).

(** After the high word: the low 12 or 32 bits, from [rb] ([x0] unless the constant is wide). *)
Definition load_low (rr fc rb do32bit : Z) (zext : bool) (g : gen) : option gen :=
  let '(rb, g) :=
    if negb (imm_fits fc) then
      (rr, o (Z.lor (Z.lor 0x37 (RV_RD rr)) (Z.land (u32 (0x800 + fc)) 0xfffff000)) g)
    else (rb, g) in
  g ← (if negb (fc =? 0) || negb (rr =? rb) || negb (do32bit =? 0)
       then EI (Z.lor 0x13 do32bit) 0 rr rb (sx 12 fc) g else Some g);
  if zext then g ← EI 0x13 1 rr rr 32 g; EI 0x13 5 rr rr 32 g else Some g.
Definition load_const (rr bt ci : Z) (g : gen) : option gen :=
  let fc := i32 ci in
  if negb (fc =? ci) then
    let si := Z.shiftr ci 32 in
    if negb (si =? 0) then
      match load_wide rr fc si g with
      | Some (fc, g) => load_low rr fc rr 0 false g
      | None => None
      end
    else load_low rr fc 0 8 ((bt =? VT_LLONG) || (bt =? VT_PTR) || (bt =? VT_FUNC)) g
  else load_low rr fc 0 8 false g.

(** ** Comparisons: the [VT_CMP] case of [load] *)

Definition load_cmp (rr op a b : Z) (g : gen) : option gen :=
  if (op =? TOK_NE) || (op =? TOK_EQ) then
    let g := if negb (rr =? a) || negb (b =? 0) then ER 0x33 0 rr a b 0x20 g else g in
    if op =? TOK_NE then Some (ER 0x33 3 rr 0 rr 0 g) else EI 0x13 3 rr rr 1 g
  else if (op =? TOK_ULT) || (op =? TOK_UGE) || (op =? TOK_ULE) || (op =? TOK_UGT) ||
          (op =? TOK_LT) || (op =? TOK_GE) || (op =? TOK_LE) || (op =? TOK_GT) then
    let '(inv, op) := if tst op 1 then (1, op - 1) else (0, op) in
    let '(a, b, inv) := if Z.land op 7 =? 6 then (b, a, Z.lxor inv 1) else (a, b, inv) in
    let g := ER 0x33 (if TOK_UGT <? op then 2 else 3) rr a b 0 g in
    if negb (inv =? 0) then EI 0x13 4 rr rr 1 g else Some g
  else Some g.

(** ** Jumps *)

Definition jmp_imm (r : Z) : Z :=
  Z.lor (Z.lor (Z.lor (Z.shiftl (Z.land (Z.shiftr r 12) 0xff) 12) (Z.shiftl (Z.land (Z.shiftr r 11) 1) 20))
    (Z.shiftl (Z.land (Z.shiftr r 1) 0x3ff) 21)) (Z.shiftl (Z.land (Z.shiftr r 20) 1) 31).
Definition jmp_range (r : Z) : bool := tst (u32 (r + Z.shiftl 1 21)) (not32 (Z.shiftl 1 22 - 2)).

Definition gjmp (t : Z) (g : gen) : Z * gen :=
  if nocode_wanted g then (t, g) else let g := o (u32 t) g in (ind g - 4, g).
Definition gjmp_addr (a : Z) (g : gen) : option gen :=
  let r := u32 (a - ind g) in
  if jmp_range r then
    let g := o (Z.lor (Z.lor 0x17 (Z.shiftl 5 7)) (Z.land (u32 (r + 0x800)) 0xfffff000)) g in
    EI 0x67 0 0 5 (sx 12 (i32 r)) g
  else Some (o (Z.lor 0x6f (jmp_imm r)) g).
Definition gjmp_cond (op a b t : Z) (g : gen) : Z * gen :=
  let '(op, a, b) :=
    if op =? TOK_ULT then (6, a, b) else if op =? TOK_UGE then (7, a, b)
    else if op =? TOK_ULE then (7, b, a) else if op =? TOK_UGT then (6, b, a)
    else if op =? TOK_LT then (4, a, b) else if op =? TOK_GE then (5, a, b)
    else if op =? TOK_LE then (5, b, a) else if op =? TOK_GT then (4, b, a)
    else if op =? TOK_NE then (1, a, b) else if op =? TOK_EQ then (0, a, b)
    else (op, a, b) in
  gjmp t (o (Z.lor (Z.lor (Z.lor (Z.lor 0x63 (Z.shiftl (Z.lxor op 1) 12)) (Z.shiftl a 15)) (Z.shiftl b 20))
             (Z.shiftl 8 7)) g).

(** The chain of forward jumps through [t]: each word holds the position of the next one; [fuel]
    bounds the chain. *)
Fixpoint gsym_addr (fuel : nat) (t a : Z) (m : gmap Z Z) : option (gmap Z Z) :=
  if t =? 0 then Some m
  else
    match fuel with
    | O => None
    | S fuel =>
        let next := read32le m t in
        let r := u32 (a - t) in
        if jmp_range r then None
        else gsym_addr fuel next a (write32le t (if r =? 4 then 0x33 else Z.lor 0x6f (jmp_imm r)) m)
    end.
Fixpoint chain_end (fuel : nat) (m : gmap Z Z) (n1 : Z) : option Z :=
  match fuel with
  | O => None
  | S fuel => let n2 := read32le m n1 in if n2 =? 0 then Some n1 else chain_end fuel m n2
  end.
Definition gjmp_append (fuel : nat) (n t : Z) (m : gmap Z Z) : option (Z * gmap Z Z) :=
  if negb (n =? 0) then
    match chain_end fuel m (u32 n) with
    | Some p => Some (n, write32le p (u32 t) m)
    | None => None
    end
  else Some (t, m).

(** ** Integer operations: [gen_opil] *)

(** Where the result of an operation is: a register, or a pending comparison of two registers. *)
Inductive result := InReg (r : Z) | Cmp (op a b : Z).

(** The register-register form; [ll] is 0 for 64-bit operands, 8 for the W forms. *)
Definition opil_bits (op ll : Z) : option Z :=
  let w (x y : Z) := if negb (ll =? 0) then x else y in
  if op =? T_ADD then Some (w 0x3b 0x33)
  else if op =? T_SUB then Some (w 0x4000003b 0x40000033)
  else if op =? TOK_SAR then Some (w 0x4000503b 0x40005033)
  else if op =? TOK_SHR then Some (w 0x503b 0x5033)
  else if op =? TOK_SHL then Some (w 0x103b 0x1033)
  else if op =? T_MUL then Some (w 0x0200003b 0x02000033)
  else if op =? T_DIV then Some (w 0x0200403b 0x02004033)
  else if op =? T_AND then Some 0x7033
  else if op =? T_XOR then Some 0x4033
  else if op =? T_OR then Some 0x6033
  else if op =? T_MOD then Some (w 0x0200603b 0x02006033)
  else if op =? TOK_UMOD then Some (w 0x0200703b 0x02007033)
  else if (op =? TOK_PDIV) || (op =? TOK_UDIV) then Some (w 0x0200503b 0x02005033)
  else None.
Definition opil_reg (op ll d a b : Z) (g : gen) : option (result * gen) :=
  match opil_bits op ll with
  | Some bits => Some (InReg d, EM bits d a b g)
  | None => if (TOK_ULT <=? op) && (op <=? TOK_GT) then Some (Cmp op a b, g) else None
  end.

(** The constant form: the outer [None] is a failed assertion, [Some None] falls through to the
    register form.  [d] is the register for the result and [a] the operand's. *)
Definition opil_imm (op ll d a fc : Z) (g : gen) : option (option (result * gen)) :=
  let m := if negb (ll =? 0) then 31 else 63 in
  let do_cop cll func3 fc :=
    g ← EI (Z.lor 0x13 cll) func3 d a fc g;
    Some (Some (if (TOK_ULT <=? op) && (op <=? TOK_GT) then Cmp TOK_NE d 0 else InReg d, g)) in
  if op =? T_SUB then if fc <=? -2048 then Some None else do_cop ll 0 (- fc)
  else if op =? T_ADD then do_cop ll 0 fc
  else if op =? TOK_LE then if 2047 <=? fc then Some None else do_cop 0 2 (fc + 1)
  else if op =? TOK_LT then do_cop 0 2 fc
  else if op =? TOK_ULE then if (2047 <=? fc) || (fc =? -1) then Some None else do_cop 0 3 (fc + 1)
  else if op =? TOK_ULT then do_cop 0 3 fc
  else if op =? T_XOR then do_cop 0 4 fc
  else if op =? T_OR then do_cop 0 6 fc
  else if op =? T_AND then do_cop 0 7 fc
  else if op =? TOK_SHL then do_cop ll 1 (Z.land fc m)
  else if op =? TOK_SHR then do_cop ll 5 (Z.land fc m)
  else if op =? TOK_SAR then do_cop ll 5 (Z.lor 1024 (Z.land fc m))
  else Some None.

(** The second operand: a register, or a constant of basic type [bt]; a constant that does not go
    into the instruction is loaded into [rb]. *)
Inductive operand := OReg (b : Z) | OConst (bt c rb : Z).
Definition opil_general (op ll d a : Z) (v : operand) (g : gen) : option (result * gen) :=
  match v with
  | OReg b => opil_reg op ll d a b g
  | OConst bt c rb => g ← load_const rb bt c g; opil_reg op ll d a rb g
  end.
(** The constant cases of the switch that do not call [gen_opil] again. *)
Definition opil_flat (op ll d a bt c rb : Z) (g : gen) : option (result * gen) :=
  match opil_imm op ll d a (i32 c) g with
  | None => None
  | Some (Some r) => Some r
  | Some None => opil_general op ll d a (OConst bt c rb) g
  end.
Definition cmp_flip (r : result) : result :=
  match r with Cmp op a b => Cmp (Z.lxor op 1) a b | InReg d => InReg d end.
Definition gen_opil (op : Z) (l : bool) (d a : Z) (v : operand) (g : gen) : option (result * gen) :=
  let ll := if l then 0 else 8 in
  match v with
  | OReg b => opil_general op ll d a (OReg b) g
  | OConst bt c rb =>
      let fc := i32 c in
      if (fc =? c) && imm_fits fc then
        if (op =? TOK_UGE) || (op =? TOK_UGT) || (op =? TOK_GE) || (op =? TOK_GT) then
          '(r, g) ← opil_flat (op - 1) ll d a bt c rb g; Some (cmp_flip r, g)
        else if (op =? TOK_NE) || (op =? TOK_EQ) then
          if negb (fc =? 0) then
            '(r, g) ← opil_flat T_SUB ll d a bt c rb g;
            match r with InReg d' => Some (Cmp op d' 0, g) | Cmp _ _ _ => None end
          else Some (Cmp op a 0, g)
        else opil_flat op ll d a bt c rb g
      else opil_general op ll d a v g
  end.
Definition gen_opi (op : Z) : Z -> Z -> operand -> gen -> option (result * gen) := gen_opil op false.
Definition gen_opl (op : Z) : Z -> Z -> operand -> gen -> option (result * gen) := gen_opil op true.

(** ** Loads and stores *)

Definition VT_FLOAT : Z := 8.
Definition VT_DOUBLE : Z := 9.
Definition VT_LDOUBLE : Z := 10.
Definition VT_STRUCT : Z := 7.
Definition is_float (bt : Z) : bool := (bt =? VT_LDOUBLE) || (bt =? VT_DOUBLE) || (bt =? VT_FLOAT).

(** [load_symofs], [VT_LOCAL] and [VT_LLOCAL] cases: the base register and the offset left in
    [sv->c.i].  [r] is the allocator's register, -1 for a store. *)
Definition load_symofs (r c : Z) (g : gen) : option (Z * Z * gen) :=
  let fc := i32 c in
  if negb (fc =? c) then None
  else if negb (imm_fits fc) then
    rr ← (if is_ireg r then ireg r else Some 5);
    let g := o (Z.lor (Z.lor 0x37 (Z.shiftl rr 7)) (Z.land (u32 (0x800 + fc)) 0xfffff000)) g in
    let g := ER 0x33 0 rr rr 8 0 g in
    Some (rr, sx 12 fc, g)
  else Some (8, c, g).

(** A fixed address in [t0], zero-extended from 32 bits (in [load] and in [store]). *)
Definition abs_addr (c : Z) (g : gen) : option gen :=
  let hi := Z.shiftr (i32 (i32 c + 0x800)) 12 in
  let lo := i32 (i32 c - i32 (Z.shiftl hi 12)) in
  let g := o (Z.lor (Z.lor 0x37 (Z.shiftl 5 7)) (u32 (Z.shiftl (u32 hi) 12))) g in
  g ← (if negb (lo =? 0) then EI 0x13 0 5 5 lo g else Some g);
  g ← EI 0x13 1 5 5 32 g;
  EI 0x13 5 5 5 32 g.

(** The lvalues without a symbol: a local, a pointer held in a local, a pointer in a register, a
    fixed address. *)
Inductive place := PLocal (c : Z) | PLLocal (c : Z) | PReg (v : Z) | PAbs (c : Z).
Definition size_func3 (size : Z) : Z :=
  if size =? 1 then 0 else if size =? 2 then 1 else if size =? 4 then 2 else 3.
Definition regno (r : Z) : option Z := if is_ireg r then ireg r else freg r.

Definition load_lval (r bt size : Z) (uns : bool) (p : place) (g : gen) : option gen :=
  rr ← regno r;
  let opcode := if is_freg r then 0x07 else 0x03 in
  if negb (negb (is_freg r) || (bt =? VT_FLOAT) || (bt =? VT_DOUBLE)) then None
  else
    let size := if bt =? VT_FUNC then 8 else size in
    let func3 := size_func3 size in
    let func3 := if (size <? 4) && negb (is_float bt) && uns then Z.lor func3 4 else func3 in
    match p with
    | PLocal c => '(br, fc, g) ← load_symofs r c g; EI opcode func3 rr br (i32 fc) g
    | PReg v => br ← ireg v; EI opcode func3 rr br 0 g
    | PLLocal c =>
        '(br, fc, g) ← load_symofs r c g;
        g ← EI 0x03 3 rr br (i32 fc) g;
        EI opcode func3 rr rr 0 g
    | PAbs c => g ← abs_addr c g; EI opcode func3 rr 5 0 g
    end.

(** [store]: [PLLocal] is an lvalue [store] does not take. *)
Definition store_lval (r bt size : Z) (p : place) (g : gen) : option gen :=
  rr ← regno r;
  if negb (negb (is_float bt) || is_freg r || (bt =? VT_LDOUBLE)) then None
  else
    let size := if bt =? VT_LDOUBLE then 8 else size in
    if (bt =? VT_STRUCT) || (8 <? size) then None
    else
      let opcode := if is_freg r then 0x27 else 0x23 in
      match p with
      | PLocal c => '(br, fc, g) ← load_symofs (-1) c g; ES opcode (size_func3 size) br rr (i32 fc) g
      | PReg v => br ← ireg v; ES opcode (size_func3 size) br rr 0 g
      | PAbs c => g ← abs_addr c g; ES opcode (size_func3 size) 5 rr 0 g
      | PLLocal _ => None
      end.

(** Values that are not lvalues: the rest of [load]. *)
Inductive sval := SLval (bt size : Z) (uns : bool) (p : place) | SConst (bt c : Z) | SLocal (c : Z)
  | SReg (v bt size : Z) | SCmp (op a b : Z) | SJmp (t fc : Z).
Definition load_reg (r rr v bt size : Z) (g : gen) : option gen :=
  if is_freg r && is_freg v then
    fv ← freg v; Some (ER 0x53 0 rr fv fv (if bt =? VT_DOUBLE then 0x11 else 0x10) g)
  else if is_ireg r && is_ireg v then iv ← ireg v; EI 0x13 0 rr iv 0 g
  else
    let func7 := if is_ireg r then 0x70 else 0x78 in
    let func7 := if size =? 8 then Z.lor func7 1 else func7 in
    if negb ((size =? 4) || (size =? 8)) then None
    else
      rv ← (if is_freg v then freg v else ireg v);
      Some (o (Z.lor (Z.lor (Z.lor 0x53 (Z.shiftl rr 7)) (Z.shiftl rv 15)) (Z.shiftl func7 25)) g).
Definition load_jmp (fuel : nat) (rr t fc : Z) (g : gen) : option gen :=
  g ← EI 0x13 0 rr 0 t g;
  g ← gjmp_addr (ind g + 8) g;
  m ← gsym_addr fuel (u32 fc) (ind g) (text g);
  EI 0x13 0 rr 0 (Z.lxor t 1) (Gen m (ind g) (nocode_wanted g)).
Definition load (fuel : nat) (r : Z) (sv : sval) (g : gen) : option gen :=
  rr ← regno r;
  match sv with
  | SLval bt size uns p => load_lval r bt size uns p g
  | SConst bt c =>
      if ((negb (is_float bt) && is_ireg r) || (bt =? VT_LDOUBLE)) && negb (is_float bt && negb (bt =? VT_LDOUBLE))
      then load_const rr bt c g else None
  | SLocal c => '(br, fc, g) ← load_symofs r c g; if is_ireg r then EI 0x13 0 rr br (i32 fc) g else None
  | SReg v bt size => load_reg r rr v bt size g
  | SCmp op a b => load_cmp rr op a b g
  | SJmp t fc => if is_ireg r then load_jmp fuel rr t fc g else None
  end.

(** ** Floating point: [gen_opf] and the conversions, without [long double] *)

(** The second half of the instruction table: [RV_fadd_s] and the others. *)
Definition fop_bits (op : Z) (dbl : bool) : option Z :=
  let w (x y : Z) := if dbl then x else y in
  if op =? T_ADD then Some (w 0x02007053 0x00007053)
  else if op =? T_SUB then Some (w 0x0a007053 0x08007053)
  else if op =? T_MUL then Some (w 0x12007053 0x10007053)
  else if op =? T_DIV then Some (w 0x1a007053 0x18007053)
  else None.
Definition fcmp_bits (op : Z) (dbl : bool) : option (Z * bool * bool) :=
  let w (x y : Z) := if dbl then x else y in
  let feq := w 0xa2002053 0xa0002053 in
  let flt := w 0xa2001053 0xa0001053 in
  let fle := w 0xa2000053 0xa0000053 in
  if op =? TOK_EQ then Some (feq, false, false)
  else if op =? TOK_NE then Some (feq, false, true)
  else if op =? TOK_LT then Some (flt, false, false)
  else if op =? TOK_LE then Some (fle, false, false)
  else if op =? TOK_GT then Some (flt, true, false)
  else if op =? TOK_GE then Some (fle, true, false)
  else None.

(** [rd] is the register [get_reg] gives: a float register for arithmetic, an integer one for a test. *)
Definition gen_opf (op : Z) (dbl : bool) (rd rs1 rs2 : Z) (g : gen) : option gen :=
  match fop_bits op dbl with
  | Some bits => Some (EM bits rd rs1 rs2 g)
  | None =>
      match fcmp_bits op dbl with
      | None => None
      | Some (bits, swap, invert) =>
          let g := if swap : bool then EM bits rd rs2 rs1 g else EM bits rd rs1 rs2 g in
          if invert : bool then EI 0x13 4 rd rd 1 g else Some g
      end
  end.

Definition gen_cvt_itof (todouble u l : bool) (dr rr : Z) (g : gen) : gen :=
  EIu 0x53 7 dr rr
    (Z.lor (Z.lor (Z.shiftl (Z.lor 0x68 (if todouble then 1 else 0)) 5) (if u then 1 else 0)) (if l then 2 else 0)) g.
Definition gen_cvt_ftoi (fromdouble u l : bool) (dr rr : Z) (g : gen) : gen :=
  EIu 0x53 1 dr rr
    (Z.lor (Z.lor (Z.shiftl (Z.lor 0x60 (if fromdouble then 1 else 0)) 5) (if u then 1 else 0)) (if l then 2 else 0)) g.
Definition gen_cvt_ftof (st dt rd rs : Z) (g : gen) : option gen :=
  if st =? dt then Some g
  else if dt =? VT_DOUBLE then EI 0x53 0 rd rs (Z.shiftl 0x21 5) g
  else EI 0x53 7 rd rs (Z.lor (Z.shiftl 0x20 5) 1) g.
