(* ===== verification/RvGenRun.v ===== *)
(** Emitted instructions run on the emulator: how [execute] decodes what the encoders of
    [RvGen] produce, and the effect on the registers. *)
From S2P Require Import Prelude Rv64State Rv64Alu Rv64Float Rv64Exec Rv64Inv RiscvLink RvGen.

(** ** Words as sums of fields *)

Definition isreg (r : Z) : Prop := 0 <= r < 32.

Lemma rd_val r : isreg r -> RV_RD r = r * 128.
Proof. intros H. unfold RV_RD, isreg in *. rewrite Z.shiftl_mul_pow2 by lia. change (2 ^ 7) with 128. apply u32_small. lia. Qed.
Lemma rs1_val r : isreg r -> RV_RS1 r = r * 32768.
Proof. intros H. unfold RV_RS1, isreg in *. rewrite Z.shiftl_mul_pow2 by lia. change (2 ^ 15) with 32768. apply u32_small. lia. Qed.
Lemma rs2_val r : isreg r -> RV_RS2 r = r * 1048576.
Proof. intros H. unfold RV_RS2, isreg in *. rewrite Z.shiftl_mul_pow2 by lia. change (2 ^ 20) with 1048576. apply u32_small. lia. Qed.

(** [a | b * 2^k] for a field [a] below [2^k]. *)
Lemma lor_field a b k p : 2 ^ k = p -> 0 <= k -> 0 <= a < p -> Z.lor a (b * p) = a + b * p.
Proof. intros <- Hk Ha. rewrite Z.lor_comm, lor_add by done. lia. Qed.

Definition fields (op rd f3 rs1 hi : Z) : Z := op + rd * 128 + f3 * 4096 + rs1 * 32768 + hi * 1048576.

Lemma rv_i_fields op f3 rd rs1 imm : 0 <= op < 128 -> 0 <= f3 < 8 -> isreg rd -> isreg rs1 ->
  rv_i op f3 rd rs1 imm = fields op rd f3 rs1 (imm mod 4096).
Proof.
  unfold isreg. intros Ho Hf Hd Hs. unfold rv_i, fields. rewrite rd_val, rs1_val by done.
  rewrite !Z.shiftl_mul_pow2 by lia. change (2 ^ 12) with 4096. change (2 ^ 20) with 1048576.
  rewrite (u32_small (f3 * 4096)) by lia.
  assert (u32 (imm * 1048576) = imm mod 4096 * 1048576) as -> by (unfold u32; zlia).
  rewrite (lor_field op rd 7) by (done || lia). rewrite (lor_field _ f3 12) by (done || lia).
  rewrite (lor_field _ rs1 15) by (done || lia). rewrite (lor_field _ _ 20) by (done || lia). done.
Qed.
Lemma rv_r_fields op f3 f7 rd rs1 rs2 : 0 <= op < 128 -> 0 <= f3 < 8 -> 0 <= f7 < 128 -> isreg rd -> isreg rs1 ->
  isreg rs2 -> rv_r op f3 f7 rd rs1 rs2 = fields op rd f3 rs1 (rs2 + 32 * f7).
Proof.
  unfold isreg. intros Ho Hf Hf7 Hd Hs Hs2. unfold rv_r, fields. rewrite rd_val, rs1_val, rs2_val by done.
  rewrite !Z.shiftl_mul_pow2 by lia. change (2 ^ 12) with 4096. change (2 ^ 25) with 33554432.
  rewrite (u32_small (f3 * 4096)), (u32_small (f7 * _)) by lia.
  rewrite (lor_field op rd 7) by (done || lia). rewrite (lor_field _ f3 12) by (done || lia).
  rewrite (lor_field _ rs1 15) by (done || lia). rewrite (lor_field _ rs2 20) by (done || lia).
  rewrite (lor_field _ f7 25) by (done || lia). lia.
Qed.

Section decode.
Context (op rd f3 rs1 hi : Z) (Ho : 0 <= op < 128) (Hd : isreg rd) (Hf : 0 <= f3 < 8) (Hs : isreg rs1)
  (Hh : 0 <= hi < 4096).
Let w := fields op rd f3 rs1 hi.
Lemma fields_bound : isu32 w.
Proof. unfold w, fields, isreg in *. lia. Qed.
Lemma fields_op : insn_op w = op.
Proof. unfold insn_op. change 127 with (2 ^ 7 - 1). rewrite land_ones_mod by lia. change (2 ^ 7) with 128. unfold w, fields. zlia. Qed.
Lemma fields_rd : insn_rd w = rd.
Proof.
  unfold insn_rd, isreg in *. change 31 with (2 ^ 5 - 1). rewrite land_ones_mod, Z.shiftr_div_pow2 by lia.
  change (2 ^ 5) with 32. change (2 ^ 7) with 128. unfold w, fields. zlia.
Qed.
Lemma fields_f3 : insn_f3 w = f3.
Proof.
  unfold insn_f3, isreg in *. change 7 with (2 ^ 3 - 1). rewrite land_ones_mod, Z.shiftr_div_pow2 by lia.
  change (2 ^ 3) with 8. change (2 ^ 12) with 4096. unfold w, fields. zlia.
Qed.
Lemma fields_rs1 : insn_rs1 w = rs1.
Proof.
  unfold insn_rs1, isreg in *. change 31 with (2 ^ 5 - 1). rewrite land_ones_mod, Z.shiftr_div_pow2 by lia.
  change (2 ^ 5) with 32. change (2 ^ 15) with 32768. unfold w, fields. zlia.
Qed.
Lemma fields_rs2 : insn_rs2 w = hi mod 32.
Proof.
  unfold insn_rs2, isreg in *. change 31 with (2 ^ 5 - 1). rewrite land_ones_mod, Z.shiftr_div_pow2 by lia.
  change (2 ^ 5) with 32. change (2 ^ 20) with 1048576. unfold w, fields. zlia.
Qed.
Lemma fields_f7 : insn_f7 w = hi / 32.
Proof. unfold insn_f7, isreg in *. rewrite Z.shiftr_div_pow2 by lia. change (2 ^ 25) with 33554432. unfold w, fields. zlia. Qed.
Lemma fields_imm : imm_i w = (hi + 2048) mod 4096 - 2048.
Proof.
  unfold imm_i, isreg in *. rewrite Z.shiftr_div_pow2 by lia. change (2 ^ 20) with 1048576.
  unfold w, fields, i32. zlia.
Qed.
Lemma fields_sh m : m = 31 \/ m = 63 -> Z.land (Z.shiftr w 20) m = hi mod (m + 1).
Proof.
  unfold isreg in *. intros Hm. assert (Z.shiftr w 20 = hi) as ->.
  { rewrite Z.shiftr_div_pow2 by lia. change (2 ^ 20) with 1048576. unfold w, fields. zlia. }
  destruct Hm as [->| ->]; [change 31 with (2 ^ 5 - 1)|change 63 with (2 ^ 6 - 1)]; by rewrite land_ones_mod by lia.
Qed.
End decode.

(** ** Emitted words *)

Definition emit (ws : list Z) (g : gen) : gen := fold_left (fun g w => o w g) ws g.
(** The text section from [ind g] holds the words [ws], and nothing else changed. *)
Definition code_at (ws : list Z) (g g' : gen) : Prop :=
  ind g' = ind g + 4 * Z.of_nat (length ws) /\
  (forall i w, ws !! i = Some w -> read32le (text g') (ind g + 4 * Z.of_nat i) = u32 w) /\
  (forall a, ~ (ind g <= a < ind g') -> aget (text g') a = aget (text g) a).

Lemma emit_app ws vs g : emit (ws ++ vs) g = emit vs (emit ws g).
Proof. apply fold_left_app. Qed.
Lemma emit_nocode ws g : nocode_wanted (emit ws g) = nocode_wanted g.
Proof. revert g. induction ws as [|w ws IH]; intros g; cbn; [done|]. rewrite IH. unfold o. by destruct (nocode_wanted g) eqn:E; cbn. Qed.
Lemma o_code w g : nocode_wanted g = false -> o w g = Gen (write32le (ind g) (u32 w) (text g)) (ind g + 4) false.
Proof. intros H. unfold o. by rewrite H. Qed.
Lemma emit_code ws g : nocode_wanted g = false -> code_at ws g (emit ws g).
Proof.
  revert g. induction ws as [|w ws IH]; intros g Hn; cbn [emit fold_left length].
  { split_and!; [cbn; lia|done|done]. }
  rewrite o_code by done. set (g1 := Gen _ _ _). destruct (IH g1 eq_refl) as (Hi & Hr & Ho).
  change (fold_left _ ws g1) with (emit ws g1). assert (ind g1 = ind g + 4) as H1 by done. rewrite H1 in *.
  split_and!; [rewrite Hi; cbn [List.length]; lia| |].
  - intros [|i] v Hv; cbn in Hv.
    + injection Hv as ->. rewrite Z.add_0_r.
      rewrite (read32_ext _ _ (text g1)) by (intros a Ha; apply Ho; rewrite Hi; lia).
      cbn. rewrite read32_write32. apply u32_small, u32_bound.
    + rewrite <- (Hr i v Hv). f_equal. lia.
  - intros a Ha. rewrite Ho by lia. cbn. apply write32_other. lia.
Qed.

(** ** Running words on the emulator *)

Section run.
Context `{HF : HostFloat}.

Fixpoint run_words (ws : list Z) (at_ : Z) (s : rv) : option (Z * rv) :=
  match ws with
  | [] => Some (at_, s)
  | w :: ws =>
      let '(next, s) := execute w at_ s in
      if next =? u64 (at_ + 4) then run_words ws next s else None
  end.

Lemma run_app ws vs at_ s : run_words (ws ++ vs) at_ s = ('(n, s) ← run_words ws at_ s; run_words vs n s).
Proof.
  revert at_ s. induction ws as [|w ws IH]; intros at_ s; cbn; [done|].
  destruct (execute w at_ s) as [n s1]. by case_match.
Qed.

(** [write:] with a value: register [rd] set, [x0] kept at zero. *)
Definition wreg (rd v : Z) (s : rv) : rv := setx 0 0 (if rd =? 0 then s else setx rd v s).
Lemma getx_wr rd v s r : rd <> 0 -> getx s 0 = 0 -> getx (wreg rd v s) r = if r =? rd then v else getx s r.
Proof.
  intros Hr H0. unfold wreg. destruct (Z.eqb_spec rd 0) as [|_]; [done|].
  change (aget (aset (aset (xreg s) rd v) 0 0) r = if r =? rd then v else getx s r). rewrite !aget_aset.
  repeat case_decide; destruct (Z.eqb_spec r rd); subst; try done; by rewrite ?H0.
Qed.
Lemma ok_wr rd v s : rv_ok s -> isu64 v -> rv_ok (wreg rd v s).
Proof. intros. unfold wreg. apply ok_setx0. destruct (Z.eqb_spec rd 0); [done|]. by apply ok_setx. Qed.
Lemma getx0 s : rv_ok s -> getx s 0 = 0.
Proof. intros [? [] ? ? ?]. done. Qed.

(** The state after a run of [ws] that sets [rd] to [v]: every other register keeps its value. *)
Definition sets (ws : list Z) (rd v : Z) (s : rv) : Prop :=
  forall at_, isu64 at_ -> exists s',
    run_words ws at_ s = Some (u64 (at_ + 4 * Z.of_nat (length ws)), s') /\ rv_ok s' /\
    (forall r, getx s' r = if r =? rd then v else getx s r) /\ ram s' = ram s.

Lemma sets_nil rd v s : rv_ok s -> getx s rd = v -> sets [] rd v s.
Proof.
  intros Hok Hv at_ Ha. exists s. cbn. rewrite Z.add_0_r, u64_small by done. split_and!; [done..| |done].
  intros r. destruct (Z.eqb_spec r rd); congruence.
Qed.
Lemma sets_one w rd v s : rd <> 0 -> rv_ok s -> isu64 v ->
  (forall at_, execute w at_ s = (u64 (at_ + 4), wreg rd v s)) -> sets [w] rd v s.
Proof.
  intros Hr Hok Hv He at_ Ha. exists (wreg rd v s). cbn. rewrite He, Z.eqb_refl.
  split_and!; [done|by apply ok_wr| |].
  - intros r. apply getx_wr; [done|by apply getx0].
  - unfold wreg. destruct (Z.eqb_spec rd 0); done.
Qed.
Lemma sets_app ws vs rd v v' s : sets ws rd v s ->
  (forall s', rv_ok s' -> getx s' rd = v -> (forall r, r <> rd -> getx s' r = getx s r) -> sets vs rd v' s') ->
  sets (ws ++ vs) rd v' s.
Proof.
  intros H1 H2 at_ Ha. destruct (H1 at_ Ha) as (s1 & Hrun & Hok & Hg & Hm).
  destruct (H2 s1 Hok) with (at_ := u64 (at_ + 4 * Z.of_nat (length ws))) as (s2 & Hrun2 & Hok2 & Hg2 & Hm2); [| | |].
  - by rewrite Hg, Z.eqb_refl.
  - intros r Hr. rewrite Hg. by destruct (Z.eqb_spec r rd).
  - apply u64_bound.
  - exists s2. rewrite run_app, Hrun. cbn. rewrite Hrun2. split_and!; [|done| |congruence].
    + do 2 f_equal. rewrite length_app. unfold u64. zlia.
    + intros r. rewrite Hg2, Hg. by destruct (Z.eqb_spec r rd).
Qed.
End run.

(** ** One instruction *)

(** [EM]'s word is [rv_r]'s for the parts of [bits]. *)
Lemma em_word bits op f3 f7 rd a b :
  bits = Z.lor (Z.lor op (u32 (Z.shiftl f3 12))) (u32 (Z.shiftl f7 25)) ->
  Z.lor (Z.lor (Z.lor bits (RV_RD rd)) (RV_RS1 a)) (RV_RS2 b) = rv_r op f3 f7 rd a b.
Proof.
  intros ->. unfold rv_r. apply Z.bits_inj'. intros i Hi. rewrite !Z.lor_spec.
  repeat match goal with |- context [Z.testbit ?x i] => generalize (Z.testbit x i); intros end.
  by repeat match goal with x : bool |- _ => destruct x end.
Qed.

(** The upper 20 bits of a 32-bit word, rounded for the sign of the low part. *)
Definition hi_part (x : Z) : Z := Z.land (u32 x) 0xfffff000.
Lemma hi_part_val x : hi_part x = u32 x - u32 x mod 4096.
Proof.
  unfold hi_part. pose proof (u32_bound x) as H. generalize dependent (u32 x). intros y H.
  assert (Z.land y 0xfffff000 = Z.shiftl (Z.shiftr y 12) 12) as ->.
  { apply Z.bits_inj'. intros i Hi. rewrite Z.land_spec. change 0xfffff000 with (Z.shiftl (Z.ones 20) 12).
    destruct (Z.lt_ge_cases i 12).
    - rewrite !(Z.shiftl_spec_low _ 12) by done. apply andb_false_r.
    - rewrite !(Z.shiftl_spec_high _ 12), Z.shiftr_spec by lia. replace (i - 12 + 12) with i by lia.
      rewrite Z.testbit_ones by lia. destruct (Z.leb_spec 0 (i - 12)); [|lia].
      destruct (Z.ltb_spec (i - 12) 20); [apply andb_true_r|]. rewrite (testbit_high y 32) by lia. done. }
  rewrite Z.shiftl_mul_pow2, Z.shiftr_div_pow2 by lia. change (2 ^ 12) with 4096. zlia.
Qed.
Lemma lui_word op rr x : 0 <= op < 128 -> isreg rr ->
  Z.lor (Z.lor op (RV_RD rr)) (hi_part x) = fields op rr (hi_part x / 4096 mod 8) (hi_part x / 32768 mod 32) (hi_part x / 1048576).
Proof.
  intros Ho Hr. rewrite rd_val by done. rewrite (lor_field op rr 7) by (done || lia).
  unfold isreg in *. rewrite hi_part_val. pose proof (u32_bound x). generalize dependent (u32 x). intros y Hy.
  replace (y - y mod 4096) with (y / 4096 * 4096) by zlia. rewrite (lor_field _ _ 12) by (done || lia).
  unfold fields. rewrite Z.div_mul by lia. zlia.
Qed.

Section exec.
Context `{HF : HostFloat}.
Context (s : rv) (Hok : rv_ok s).

Lemma upper_word op rr x : 0 <= op < 128 -> isreg rr -> let w := Z.lor (Z.lor op (RV_RD rr)) (hi_part x) in
  insn_op w = op /\ insn_rd w = rr /\ imm_u w = i32 (hi_part x).
Proof.
  intros Ho Hr. cbv zeta. rewrite lui_word by (done || lia). pose proof (hi_part_val x) as Hv. pose proof (u32_bound x).
  set (h := hi_part x) in *.
  assert (0 <= h / 4096 mod 8 < 8) by (apply Z.mod_pos_bound; lia).
  assert (isreg (h / 32768 mod 32)) by (apply Z.mod_pos_bound; lia).
  assert (0 <= h / 1048576 < 4096) by zlia.
  split_and!; [by apply fields_op|by apply fields_rd|].
  unfold imm_u. f_equal. rewrite <- (u32_small (fields _ _ _ _ _)) at 1 by (apply fields_bound; done || lia).
  change (hi_part (fields op rr (h / 4096 mod 8) (h / 32768 mod 32) (h / 1048576)) = h).
  rewrite hi_part_val, u32_small by (apply fields_bound; done || lia).
  unfold fields, isreg in *. clearbody h. zlia.
Qed.
Lemma exec_lui rr x at_ : isreg rr ->
  execute (Z.lor (Z.lor 0x37 (RV_RD rr)) (hi_part x)) at_ s = (u64 (at_ + 4), wreg rr (u64 (i32 (hi_part x))) s).
Proof.
  intros Hr. destruct (upper_word 0x37 rr x ltac:(lia) Hr) as (Ho & Hd & Hi).
  unfold execute. by rewrite Ho, Hd, Hi.
Qed.
Lemma exec_auipc rr x at_ : isreg rr ->
  execute (Z.lor (Z.lor 0x17 (RV_RD rr)) (hi_part x)) at_ s = (u64 (at_ + 4), wreg rr (u64 (at_ + i32 (hi_part x))) s).
Proof.
  intros Hr. destruct (upper_word 0x17 rr x ltac:(lia) Hr) as (Ho & Hd & Hi).
  unfold execute. by rewrite Ho, Hd, Hi.
Qed.
Lemma exec_jalr imm rs1 at_ : isreg rs1 ->
  execute (rv_i 0x67 0 0 rs1 imm) at_ s = (Z.land (u64 (getx s rs1 + lo12 imm)) (not64 1), setx 0 0 s).
Proof.
  intros Hs. assert (0 <= imm mod 4096 < 4096) by (apply Z.mod_pos_bound; lia). assert (isreg 0) by (unfold isreg; lia).
  rewrite rv_i_fields by (done || lia).
  assert (imm_i (fields 0x67 0 0 rs1 (imm mod 4096)) = lo12 imm) as Hi by (rewrite fields_imm by (done || lia); unfold lo12; zlia).
  unfold execute. rewrite fields_op, fields_rd, fields_rs1, Hi by (done || lia). done.
Qed.

Lemma exec_imm13 f3 rd rs1 imm at_ : 0 <= f3 < 8 -> f3 <> 0 -> isreg rd -> isreg rs1 ->
  execute (rv_i 0x13 f3 rd rs1 imm) at_ s =
  write_back (rv_i 0x13 f3 rd rs1 imm) rd at_ (u64 (at_ + 4))
    (alu_imm f3 (imm mod 4096 / 32) (rv_i 0x13 f3 rd rs1 imm) (getx s rs1)) s.
Proof.
  intros Hf H0 Hd Hs. assert (0 <= imm mod 4096 < 4096) by (apply Z.mod_pos_bound; lia).
  rewrite rv_i_fields by (done || lia). unfold execute.
  rewrite fields_op, fields_rd, fields_f3, fields_rs1, fields_f7 by (done || lia).
  destruct (Z.eqb_spec f3 0); [done|]. done.
Qed.

(** The value an immediate instruction computes: [OP-IMM], then [OP-IMM-32]. *)
Definition imm_val (f3 imm a : Z) : Z :=
  if f3 =? 0 then u64 (a + lo12 imm)
  else if f3 =? 1 then u64 (Z.shiftl a (imm mod 64))
  else if f3 =? 2 then Z.b2z (i64 a <? lo12 imm)
  else if f3 =? 3 then Z.b2z (a <? u64 (lo12 imm))
  else if f3 =? 4 then Z.lxor a (u64 (lo12 imm))
  else if f3 =? 5 then
    if tst (imm mod 4096 / 32) 32 then u64 (Z.shiftr (i64 a) (imm mod 64)) else Z.shiftr a (imm mod 64)
  else if f3 =? 6 then Z.lor a (u64 (lo12 imm))
  else Z.land a (u64 (lo12 imm)).
Definition imm_val32 (f3 imm a : Z) : Z :=
  if f3 =? 0 then u64 (i32 (u32 a + lo12 imm))
  else if f3 =? 1 then u64 (i32 (Z.shiftl (u32 a) (imm mod 32)))
  else u64 (i32 (if tst (imm mod 4096 / 32) 32 then Z.shiftr (i32 a) (imm mod 32) else Z.shiftr (u32 a) (imm mod 32))).

Lemma fields_lo12 op rd f3 rs1 imm : 0 <= op < 128 -> isreg rd -> 0 <= f3 < 8 -> isreg rs1 ->
  imm_i (rv_i op f3 rd rs1 imm) = lo12 imm.
Proof.
  intros. rewrite rv_i_fields by done. rewrite fields_imm; [unfold lo12; zlia|done..|apply Z.mod_pos_bound; lia].
Qed.
Lemma fields_shamt op rd f3 rs1 imm m : 0 <= op < 128 -> isreg rd -> 0 <= f3 < 8 -> isreg rs1 -> m = 31 \/ m = 63 ->
  Z.land (Z.shiftr (rv_i op f3 rd rs1 imm) 20) m = imm mod (m + 1).
Proof.
  intros ???? Hm. rewrite rv_i_fields by done. rewrite fields_sh; [|done..|apply Z.mod_pos_bound; lia|done].
  destruct Hm as [-> | ->]; zlia.
Qed.

Lemma sets_imm f3 rd rs1 imm : 0 <= f3 < 8 -> isreg rd -> rd <> 0 -> isreg rs1 ->
  sets [rv_i 0x13 f3 rd rs1 imm] rd (imm_val f3 imm (getx s rs1)) s.
Proof.
  intros Hf Hd H0 Hs. pose proof (rv_x s rs1 Hok) as Ha.
  assert (forall at_, execute (rv_i 0x13 f3 rd rs1 imm) at_ s = (u64 (at_ + 4), wreg rd (imm_val f3 imm (getx s rs1)) s) /\
    isu64 (imm_val f3 imm (getx s rs1))) as He.
  { intros at_. destruct (Z.eq_dec f3 0) as [->|Hn].
    - assert (0 <= imm mod 4096 < 4096) by (apply Z.mod_pos_bound; lia). split; [|apply u64_bound].
      assert (imm_i (rv_i 0x13 0 rd rs1 imm) = lo12 imm) as Hi by (apply fields_lo12; done || lia).
      rewrite rv_i_fields in * by (done || lia). unfold execute.
      rewrite fields_op, fields_rd, fields_f3, fields_rs1, Hi by (done || lia). done.
    - rewrite exec_imm13 by done. set (w := rv_i 0x13 f3 rd rs1 imm).
      assert (imm_i w = lo12 imm) as Hi by (apply fields_lo12; done || lia).
      assert (Z.land (Z.shiftr w 20) 63 = imm mod 64) as Hsh by (apply fields_shamt; auto; lia).
      assert (alu_imm f3 (imm mod 4096 / 32) w (getx s rs1) = Some (imm_val f3 imm (getx s rs1))) as E.
      { unfold alu_imm, imm_val. rewrite Hi, Hsh. destruct (Z.eqb_spec f3 0); [done|].
        repeat (case (Z.eqb_spec f3 _); intros; [done|]). lia. }
      rewrite E. split; [done|]. by eapply alu_imm_ok. }
  apply sets_one; [done..|apply (He 0)|intros; apply He].
Qed.

Lemma sets_imm32 f3 rd rs1 imm : f3 = 0 \/ f3 = 1 \/ f3 = 5 -> isreg rd -> rd <> 0 -> isreg rs1 ->
  sets [rv_i 0x1b f3 rd rs1 imm] rd (imm_val32 f3 imm (getx s rs1)) s.
Proof.
  intros Hf3 Hd H0 Hs. assert (0 <= f3 < 8) as Hf by lia.
  apply sets_one; [done..| |].
  { unfold imm_val32. destruct (f3 =? 0), (f3 =? 1); apply u64_bound. }
  intros at_. assert (0 <= imm mod 4096 < 4096) by (apply Z.mod_pos_bound; lia).
  assert (imm_i (rv_i 0x1b f3 rd rs1 imm) = lo12 imm) as Hi by (apply fields_lo12; done || lia).
  assert (Z.land (Z.shiftr (rv_i 0x1b f3 rd rs1 imm) 20) 31 = imm mod 32) as Hsh by (apply fields_shamt; auto; lia).
  rewrite rv_i_fields in * by (done || lia). unfold execute, alu_imm32.
  rewrite fields_op, fields_rd, fields_f3, fields_rs1, fields_f7, Hi, Hsh by (done || lia).
  unfold imm_val32, write_back, wreg. destruct Hf3 as [->|[->| ->]]; cbn -[u64 i32 u32 lo12 Z.shiftl Z.shiftr tst Z.modulo Z.div].
  1-2: by rewrite i32_u32.
  destruct (tst _ 32); by rewrite ?i32_u32.
Qed.

Lemma exec_reg op f3 f7 rd a b at_ : op = 0x33 \/ op = 0x3b -> 0 <= f3 < 8 -> 0 <= f7 < 128 -> isreg rd -> isreg a -> isreg b ->
  execute (rv_r op f3 f7 rd a b) at_ s =
  write_back (rv_r op f3 f7 rd a b) rd at_ (u64 (at_ + 4))
    (if op =? 0x33 then Some (alu_reg f3 f7 (getx s a) (getx s b)) else alu_reg32 f3 f7 (getx s a) (getx s b)) s.
Proof.
  unfold isreg. intros Ho Hf Hf7 Hd Ha Hb. assert (0 <= b + 32 * f7 < 4096) by lia. assert (0 <= op < 128) by lia.
  rewrite rv_r_fields by (done || lia). unfold execute.
  rewrite fields_op, fields_rd, fields_f3, fields_rs1, fields_rs2, fields_f7 by (done || lia).
  replace ((b + 32 * f7) mod 32) with b by zlia. replace ((b + 32 * f7) / 32) with f7 by zlia.
  by destruct Ho as [-> | ->].
Qed.
Lemma sets_reg f3 f7 rd a b : 0 <= f3 < 8 -> 0 <= f7 < 128 -> isreg rd -> rd <> 0 -> isreg a -> isreg b ->
  sets [rv_r 0x33 f3 f7 rd a b] rd (alu_reg f3 f7 (getx s a) (getx s b)) s.
Proof.
  intros. apply sets_one; [done..| |].
  - apply alu_reg_ok; by apply rv_x.
  - intros at_. rewrite exec_reg by auto. done.
Qed.
Lemma sets_reg32 f3 f7 rd a b v : 0 <= f3 < 8 -> 0 <= f7 < 128 -> isreg rd -> rd <> 0 -> isreg a -> isreg b ->
  alu_reg32 f3 f7 (getx s a) (getx s b) = Some v -> sets [rv_r 0x3b f3 f7 rd a b] rd v s.
Proof.
  intros ?????? E. apply sets_one; [done..| |].
  - by eapply alu_reg32_ok.
  - intros at_. rewrite exec_reg by auto. cbn [Z.eqb Pos.eqb]. by rewrite E.
Qed.
Lemma sets_lui rr x : isreg rr -> rr <> 0 ->
  sets [Z.lor (Z.lor 0x37 (RV_RD rr)) (hi_part x)] rr (u64 (i32 (hi_part x))) s.
Proof. intros. apply sets_one; [done..|apply u64_bound|]. intros. by apply exec_lui. Qed.
End exec.
