(* ===== verification/RvGenOk.v ===== *)
(** The RISC-V back end is correct on the emulator: constants, integer operations, comparisons. *)
From S2P Require Import Prelude Rv64State Rv64Alu Rv64Float Rv64Exec Rv64Inv RiscvLink RvGen RvGenRun.

Lemma u64_mul_l a b : u64 (u64 a * b) = u64 (a * b).
Proof. apply Z.mul_mod_idemp_l. lia. Qed.
Lemma u64_add_l a b : u64 (u64 a + b) = u64 (a + b).
Proof. apply Z.add_mod_idemp_l. lia. Qed.

(** ** Code that leaves a value in a register *)

Section code.
Context `{HF : HostFloat}.

(** [g'] is [g] with code appended that, run from state [s], sets register [rd] to [v]. *)
Definition gsets (g g' : gen) (rd v : Z) (s : rv) : Prop := exists ws, g' = emit ws g /\ sets ws rd v s.

Lemma gsets_start g rd s : rv_ok s -> gsets g g rd (getx s rd) s.
Proof. intros. exists []. split; [done|by apply sets_nil]. Qed.
Lemma gsets_o g g1 rd v v' w s : gsets g g1 rd v s ->
  (forall s', rv_ok s' -> getx s' rd = v -> (forall r, r <> rd -> getx s' r = getx s r) -> sets [w] rd v' s') ->
  gsets g (o w g1) rd v' s.
Proof.
  intros (ws & -> & Hs) H. exists (ws ++ [w]). split; [by rewrite emit_app|]. by eapply sets_app.
Qed.

Lemma imm_fits_iff imm : imm_fits imm = bool_decide (u32 (imm + 2048) < 4096).
Proof.
  unfold imm_fits. change (Z.shiftl 1 11) with 2048. rewrite Z.shiftr_div_pow2 by lia. change (2 ^ 12) with 4096.
  pose proof (u32_bound (imm + 2048)). case_bool_decide; zlia.
Qed.
Lemma imm_fits_small imm : -2048 <= imm < 2048 -> imm_fits imm = true.
Proof. intros. rewrite imm_fits_iff. apply bool_decide_eq_true_2. unfold u32. zlia. Qed.
Lemma imm_fits_int imm : -2147483648 <= imm < 2147483648 -> imm_fits imm = true -> -2048 <= imm < 2048.
Proof. intros H. rewrite imm_fits_iff. intros Hb%bool_decide_eq_true. unfold u32 in Hb. zlia. Qed.
Lemma lo12_u32 imm : lo12 (u32 imm) = lo12 imm.
Proof. unfold lo12, u32. zlia. Qed.
Lemma lo12_small imm : -2048 <= imm < 2048 -> lo12 imm = imm.
Proof. intros. unfold lo12. zlia. Qed.
Lemma imm_val_u32 f3 imm a : imm_val f3 (u32 imm) a = imm_val f3 imm a.
Proof.
  unfold imm_val. rewrite lo12_u32.
  assert (u32 imm mod 64 = imm mod 64) as -> by (unfold u32; zlia).
  by assert (u32 imm mod 4096 = imm mod 4096) as -> by (unfold u32; zlia).
Qed.
Lemma imm_val32_u32 f3 imm a : imm_val32 f3 (u32 imm) a = imm_val32 f3 imm a.
Proof.
  unfold imm_val32. rewrite lo12_u32.
  assert (u32 imm mod 32 = imm mod 32) as -> by (unfold u32; zlia).
  by assert (u32 imm mod 4096 = imm mod 4096) as -> by (unfold u32; zlia).
Qed.

(** [EI] on the register being built, and from another register. *)
Lemma gsets_EI f3 imm g g1 rd v s : gsets g g1 rd v s -> isreg rd -> rd <> 0 -> 0 <= f3 < 8 -> -2048 <= imm < 2048 ->
  exists g2, EI 0x13 f3 rd rd imm g1 = Some g2 /\ gsets g g2 rd (imm_val f3 imm v) s.
Proof.
  intros Hg Hr H0 Hf Hi. unfold EI. rewrite imm_fits_small by done. eexists; split; [done|].
  eapply gsets_o; [done|]. intros s' Hok <- _. rewrite <- imm_val_u32. by apply sets_imm.
Qed.
Lemma gsets_EI_from f3 imm g rd rs s : rv_ok s -> isreg rd -> rd <> 0 -> isreg rs -> 0 <= f3 < 8 -> -2048 <= imm < 2048 ->
  exists g2, EI 0x13 f3 rd rs imm g = Some g2 /\ gsets g g2 rd (imm_val f3 imm (getx s rs)) s.
Proof.
  intros Hok Hr H0 Hs Hf Hi. unfold EI. rewrite imm_fits_small by done. eexists; split; [done|].
  eapply gsets_o; [by apply gsets_start|]. intros s' Hok' Hv Ho.
  assert (getx s' rs = getx s rs) as <- by (destruct (Z.eq_dec rs rd); [congruence|auto]).
  rewrite <- imm_val_u32. by apply sets_imm.
Qed.
Lemma gsets_lui x g g1 rd v s : gsets g g1 rd v s -> isreg rd -> rd <> 0 ->
  gsets g (o (Z.lor (Z.lor 0x37 (RV_RD rd)) (hi_part x)) g1) rd (u64 (i32 (hi_part x))) s.
Proof. intros. eapply gsets_o; [done|]. intros. by apply sets_lui. Qed.
Lemma gsets_addiw imm g rd rs s : rv_ok s -> isreg rd -> rd <> 0 -> isreg rs -> -2048 <= imm < 2048 ->
  exists g2, EI 0x1b 0 rd rs imm g = Some g2 /\ gsets g g2 rd (imm_val32 0 imm (getx s rs)) s.
Proof.
  intros Hok Hr H0 Hs Hi. unfold EI. rewrite imm_fits_small by done. eexists; split; [done|].
  eapply gsets_o; [by apply gsets_start|]. intros s' Hok' Hv Ho.
  assert (getx s' rs = getx s rs) as <- by (destruct (Z.eq_dec rs rd); [congruence|auto]).
  rewrite <- imm_val32_u32. apply sets_imm32; auto.
Qed.

Ltac gstep f3 imm H g H' :=
  destruct (gsets_EI f3 imm _ _ _ _ _ H) as (g & -> & H'); [assumption|assumption|lia| |]; cbn [mbind option_bind].

(** ** Constants *)

Lemma sx_val k v : 0 < k < 32 -> sx k v = (v + 2 ^ (k - 1)) mod 2 ^ k - 2 ^ (k - 1).
Proof.
  intros Hk. unfold sx. rewrite i32_u32, Z.shiftl_mul_pow2, Z.shiftr_div_pow2 by lia. unfold i32.
  assert (2 ^ k * 2 ^ (32 - k) = 4294967296) as E1 by (rewrite <- Z.pow_add_r by lia; by replace (k + (32 - k)) with 32 by lia).
  assert (2 ^ (k - 1) * 2 = 2 ^ k) as E2 by (replace k with (Z.succ (k - 1)) at 2 by lia; rewrite Z.pow_succ_r by lia; lia).
  pose proof (Z.pow_pos_nonneg 2 (32 - k) ltac:(lia) ltac:(lia)). pose proof (Z.pow_pos_nonneg 2 (k - 1) ltac:(lia) ltac:(lia)).
  generalize dependent (2 ^ (k - 1)). generalize dependent (2 ^ (32 - k)). generalize dependent (2 ^ k).
  intros K p E1 Hp h E2 Hh. subst K.
  replace (v * p + 2147483648) with ((v + h) * p) by nia. replace 4294967296 with (h * 2 * p) by nia.
  rewrite Z.mul_mod_distr_r by lia. replace 2147483648 with (h * p) by nia.
  rewrite <- Z.mul_sub_distr_r. by rewrite Z.div_mul by lia.
Qed.

(** The constant a register holds after [load_const]: a 32-bit constant of a type narrower than 64
    bits is sign-extended; a 64-bit constant with a non-zero high word and its low word from
    [0x7ff80000] to [0x7fffffff] comes out 2^32 too small. *)
Definition wide (ci : Z) : bool := negb (i32 ci =? ci) && negb (Z.shiftr ci 32 =? 0).
Definition is64 (bt : Z) : bool := (bt =? VT_LLONG) || (bt =? VT_PTR) || (bt =? VT_FUNC).
Definition const_value (bt ci : Z) : Z :=
  if wide ci then if 0x7ff80000 <=? i32 ci then u64 (ci - 4294967296) else u64 ci
  else if is64 bt then u64 ci else u64 (i32 ci).

Lemma lui_addi x : -2147483648 <= x < 4294967296 -> exists c, -1 <= c <= 1 /\
  u64 (u64 (i32 (hi_part (x + 2048))) + lo12 x) = u64 (i32 x + 4294967296 * c) /\
  (c <> 0 -> 2147481600 <= i32 x) /\
  u64 (i32 (u32 (u64 (i32 (hi_part (x + 2048)))) + lo12 x)) = u64 (i32 x).
Proof.
  intros Hx. rewrite hi_part_val. set (h := u32 (x + 2048) - _).
  exists (if 2147481600 <=? i32 x then -1 else 0).
  assert (h = u32 (x - lo12 x)) as Hh by (subst h; unfold u32, lo12; zlia).
  assert (lo12 x = (x + 2048) mod 4096 - 2048) as Hl by done.
  destruct (Z.leb_spec 2147481600 (i32 x)); unfold u64, i32, u32 in *; split_and!; zlia.
Qed.

(** The last 12 bits and the zero-extension, from a register [rb]. *)
Lemma load_low_wide rr fc g g1 v s : gsets g g1 rr v s -> isreg rr -> rr <> 0 -> 0 <= fc < 256 ->
  exists g2, load_low rr fc rr 0 false g1 = Some g2 /\ gsets g g2 rr (u64 (v + fc)) s.
Proof.
  intros Hg Hr H0 Hf. unfold load_low. rewrite imm_fits_small by lia. cbn [negb]. rewrite !Z.eqb_refl. cbn [negb orb].
  destruct (Z.eqb_spec fc 0) as [->|Hn]; cbn [negb orb].
  - exists g1. split; [done|]. rewrite Z.add_0_r.
    replace (u64 v) with v; [done|]. destruct Hg as (ws & _ & Hs). destruct (Hs 0 ltac:(lia)) as (s' & _ & Hok & Hx & _).
    specialize (Hx rr). rewrite Z.eqb_refl in Hx. rewrite <- Hx. symmetry. by apply u64_small, rv_x.
  - rewrite sx_val by lia. change (2 ^ (12 - 1)) with 2048. change (2 ^ 12) with 4096.
    destruct (gsets_EI 0 ((fc + 2048) mod 4096 - 2048) g g1 rr v s) as (g2 & E & H2); [done..|lia|zlia|].
    change (Z.lor 19 0) with 19. rewrite E. exists g2. split; [done|].
    unfold imm_val in H2. cbn [Z.eqb] in H2. rewrite lo12_small in H2 by zlia.
    by replace ((fc + 2048) mod 4096 - 2048) with fc in H2 by zlia.
Qed.

Lemma load_wide_ok rr fc si g s : nocode_wanted g = false -> rv_ok s -> isreg rr -> rr <> 0 ->
  -2147483648 <= fc < 2147483648 -> -2147483648 <= si < 2147483648 ->
  exists fc' g', load_wide rr fc si g = Some (fc', g') /\ 0 <= fc' < 256 /\
    exists v, gsets g g' rr v s /\
      u64 (v + fc') = u64 (si * 4294967296 + u32 fc - (if 0x7ff80000 <=? fc then 4294967296 else 0)).
Proof.
  intros Hn Hok Hr H0 Hf Hs. unfold load_wide.
  set (pi := if fc <? 0 then u32 (u32 si + 1) else u32 si).
  assert (pi = u32 (si + (if fc <? 0 then 1 else 0))) as Hpi by (subst pi; destruct (fc <? 0); unfold u32; zlia).
  pose proof (u32_bound (si + (if fc <? 0 then 1 else 0))) as Hb. rewrite <- Hpi in Hb. clearbody pi.
  change (Z.land (u32 (pi + 2048)) 4294963200) with (hi_part (pi + 2048)).
  pose proof (gsets_lui (pi + 2048) g g rr _ s (gsets_start g rr s Hok) Hr H0) as H1.
  set (g1 := o _ g) in *. rewrite !sx_val by lia.
  change (2 ^ (12 - 1)) with 2048. change (2 ^ 12) with 4096. change (2 ^ (20 - 1)) with 524288. change (2 ^ 20) with 1048576.
  gstep 0 ((i32 pi + 2048) mod 4096 - 2048) H1 g2 H2; [zlia|].
  gstep 1 12 H2 g3 H3; [lia|].
  set (q := Z.shiftr (i32 (fc + Z.shiftl 1 19)) 20).
  assert (q = i32 (fc + 524288) / 1048576) as Hq by (unfold q; by rewrite Z.shiftr_div_pow2 by lia).
  gstep 0 q H3 g4 H4; [rewrite Hq; unfold i32; zlia|].
  gstep 1 12 H4 g5 H5; [lia|].
  set (f := (fc + 524288) mod 1048576 - 524288).
  assert (Z.shiftr f 8 = f / 256) as Hf8 by (by rewrite Z.shiftr_div_pow2 by lia). rewrite Hf8.
  gstep 0 (f / 256) H5 g6 H6; [unfold f; zlia|].
  gstep 1 8 H6 g7 H7; [lia|].
  assert (Z.land f 255 = f mod 256) as Hl by (change 255 with (2 ^ 8 - 1); by rewrite land_ones_mod by lia).
  rewrite Hl. eexists _, g7. split; [done|]. split; [zlia|]. eexists. split; [exact H7|].
  destruct (lui_addi pi ltac:(lia)) as (c & Hc & Hv & _). unfold imm_val. cbn [Z.eqb Pos.eqb].
  rewrite !Z.shiftl_mul_pow2 by (by apply Z.mod_pos_bound).
  change (2 ^ (12 mod 64)) with 4096. change (2 ^ (8 mod 64)) with 256.
  rewrite (lo12_small (_ - 2048)), (lo12_small q), (lo12_small (f / 256)) by (unfold f, i32 in *; zlia).
  replace ((i32 pi + 2048) mod 4096 - 2048) with (lo12 pi) by (unfold lo12, i32; zlia). rewrite Hv.
  repeat (rewrite u64_mul_l || rewrite u64_add_l).
  replace (f / 256 * 256) with (f - f mod 256) by zlia.
  clear - Hpi Hq Hf Hs. subst f. rewrite Hpi, Hq. clear Hpi Hq pi q.
  destruct (Z.ltb_spec fc 0), (Z.leb_spec 2146959360 fc); unfold u64, i32, u32 in *; zlia.
Qed.

Lemma gsets_addiw_from imm g g1 rd v s : gsets g g1 rd v s -> isreg rd -> rd <> 0 -> -2048 <= imm < 2048 ->
  exists g2, EI 0x1b 0 rd rd imm g1 = Some g2 /\ gsets g g2 rd (imm_val32 0 imm v) s.
Proof.
  intros Hg Hr H0 Hi. unfold EI. rewrite imm_fits_small by done. eexists; split; [done|].
  eapply gsets_o; [done|]. intros s' Hok <- _. rewrite <- imm_val32_u32. apply sets_imm32; auto.
Qed.

(** [slli rd, rd, 32; srli rd, rd, 32] *)
Lemma gsets_zext g g1 rd v s : gsets g g1 rd v s -> isreg rd -> rd <> 0 ->
  exists g2, (g1 ← EI 0x13 1 rd rd 32 g1; EI 0x13 5 rd rd 32 g1) = Some g2 /\ gsets g g2 rd (u32 v) s.
Proof.
  intros Hg Hr H0. gstep 1 32 Hg g2 H2; [lia|]. destruct (gsets_EI 5 32 _ _ _ _ _ H2) as (g3 & -> & H3); [done..|lia|lia|].
  exists g3. split; [done|].
  assert (imm_val 5 32 (imm_val 1 32 v) = u32 v) as <-; [|done].
  unfold imm_val. cbn [Z.eqb Pos.eqb]. change (tst (32 mod 4096 / 32) 32) with false. cbn iota.
  change (32 mod 64) with 32. rewrite Z.shiftl_mul_pow2, Z.shiftr_div_pow2 by lia. change (2 ^ 32) with 4294967296.
  unfold u64, u32. zlia.
Qed.

Lemma load_low_narrow rr fc zext g s : rv_ok s -> isreg rr -> rr <> 0 -> -2147483648 <= fc < 2147483648 ->
  exists g2, load_low rr fc 0 8 zext g = Some g2 /\ gsets g g2 rr (if zext then u32 fc else u64 fc) s.
Proof.
  intros Hok Hr H0 Hf. unfold load_low.
  assert (sx 12 fc = lo12 fc) as Hsx by (by rewrite sx_val by lia). rewrite Hsx.
  assert (-2048 <= lo12 fc < 2048) as Hl by (unfold lo12; zlia).
  assert (forall rb g1 v, gsets g g1 rr v s -> isreg rb -> (rb = 0 -> g1 = g) -> (rb <> 0 -> rb = rr) ->
    u64 (i32 (u32 (if rb =? 0 then 0 else v) + lo12 fc)) = u64 fc ->
    exists g2, (g2 ← EI 0x1b 0 rr rb (lo12 fc) g1; if zext then g3 ← EI 0x13 1 rr rr 32 g2; EI 0x13 5 rr rr 32 g3 else Some g2) =
      Some g2 /\ gsets g g2 rr (if zext then u32 fc else u64 fc) s) as Hz.
  { intros rb g1 v Hg Hb Hb0 Hbn Hv.
    assert (exists g2, EI 0x1b 0 rr rb (lo12 fc) g1 = Some g2 /\ gsets g g2 rr (u64 fc) s) as (g2 & -> & H2).
    { destruct (Z.eqb_spec rb 0) as [->|Hn].
      - rewrite (Hb0 eq_refl). destruct (gsets_addiw (lo12 fc) g rr 0 s) as (g2 & E & H2); [done..|]. exists g2. split; [done|].
        rewrite (getx0 s Hok) in H2. unfold imm_val32 in H2. cbn [Z.eqb] in H2. by rewrite (lo12_small (lo12 fc)), Hv in H2.
      - rewrite (Hbn Hn). destruct (gsets_addiw_from (lo12 fc) _ _ _ _ _ Hg) as (g2 & E & H2); [done..|]. exists g2. split; [done|].
        unfold imm_val32 in H2. cbn [Z.eqb] in H2. by rewrite (lo12_small (lo12 fc)), Hv in H2. }
    cbn [mbind option_bind]. destruct zext; [|by exists g2].
    destruct (gsets_zext _ _ _ _ _ H2) as (g3 & E & H3); [done..|]. exists g3. split; [done|].
    by replace (u32 (u64 fc)) with (u32 fc) in H3 by (unfold u32, u64; zlia). }
  destruct (imm_fits fc) eqn:Ef; cbn [negb]; rewrite ?Z.eqb_refl; change (8 =? 0) with false; cbn [negb]; rewrite !orb_true_r.
  all: change (Z.lor 19 8) with 0x1b.
  - apply imm_fits_int in Ef; [|done].
    apply (Hz 0 g _ (gsets_start g rr s Hok)); [unfold isreg; lia|done|done|].
    cbn [Z.eqb]. rewrite lo12_small by done. unfold u32, i32. f_equal. zlia.
  - destruct (lui_addi fc ltac:(lia)) as (_ & _ & _ & _ & Hv). rewrite (Z.add_comm 2048). fold (hi_part (fc + 2048)).
    apply (Hz rr _ _ (gsets_lui (fc + 2048) g g rr _ s (gsets_start g rr s Hok) Hr H0)); [done..|].
    destruct (Z.eqb_spec rr 0); [done|]. by rewrite Hv, i32_small.
Qed.

Lemma load_const_ok rr bt ci g s :
  nocode_wanted g = false -> rv_ok s -> isreg rr -> rr <> 0 -> -9223372036854775808 <= ci < 9223372036854775808 ->
  exists g', load_const rr bt ci g = Some g' /\ gsets g g' rr (const_value bt ci) s.
Proof.
  intros Hn Hok Hr H0 Hc.
  unfold load_const, const_value, wide, is64. pose proof (i32_bound ci) as Hb.
  assert (Z.shiftr ci 32 = ci / 4294967296) as Hsi by (by rewrite Z.shiftr_div_pow2 by lia). rewrite Hsi.
  assert (ci = ci / 4294967296 * 4294967296 + u32 (i32 ci)) as Hsplit by (unfold i32, u32; zlia).
  destruct (Z.eqb_spec (i32 ci) ci) as [He|He]; cbn [negb andb].
  { rewrite He. destruct (load_low_narrow rr ci false g s) as (g' & E & H); [done..|lia|]. rewrite E. exists g'.
    split; [done|]. by destruct (_ || _). }
  destruct (Z.eqb_spec (ci / 4294967296) 0) as [Hz|Hz]; cbn [negb].
  { destruct (load_low_narrow rr (i32 ci) ((bt =? VT_LLONG) || (bt =? VT_PTR) || (bt =? VT_FUNC)) g s) as (g' & E & H); [done..|].
    exists g'. split; [done|]. destruct (_ || _); [|done].
    by replace (u64 ci) with (u32 (i32 ci)) by (unfold u64, u32, i32; zlia). }
  destruct (load_wide_ok rr (i32 ci) (ci / 4294967296) g s) as (fc & g1 & -> & Hfc & v & Hg & Hv); [done..|zlia|].
  destruct (load_low_wide rr fc g g1 v s) as (g2 & -> & H2); [done..|]. exists g2. split; [done|]. rewrite Hv in H2.
  destruct (2146959360 <=? i32 ci).
  - replace (u64 (ci - 4294967296)) with (u64 (ci / 4294967296 * 4294967296 + u32 (i32 ci) - 4294967296)) by (by rewrite <- Hsplit).
    done.
  - rewrite Z.sub_0_r, <- Hsplit in H2. done.
Qed.

(** C34: the code [load] emits for an integer constant leaves that constant in the register and
    touches no other register: it is sign-extended, or zero-extended for a 64-bit type when its
    high word is zero, and never aborts.  One range of constants fails: a non-zero high word
    with a low word in 0x7ff80000..0x7fffffff comes out 2^32 too small, because
    [(fc + (1 << 19)) >> 20] overflows [int]. *)
Theorem load_const_correct rr bt ci g s :
  nocode_wanted g = false -> rv_ok s -> isreg rr -> rr <> 0 -> -9223372036854775808 <= ci < 9223372036854775808 ->
  exists ws, load_const rr bt ci g = Some (emit ws g) /\ code_at ws g (emit ws g) /\ sets ws rr (const_value bt ci) s.
Proof.
  intros Hn Hok Hr H0 Hc. destruct (load_const_ok rr bt ci g s) as (g' & E & ws & -> & Hs); [done..|].
  exists ws. split_and!; [done|by apply emit_code|done].
Qed.
End code.

Lemma load_const_correct_witness :
  exists ws, load_const 10 VT_LLONG 0x123456789 (Gen ∅ 0 false) = Some (emit ws (Gen ∅ 0 false)) /\
    code_at ws (Gen ∅ 0 false) (emit ws (Gen ∅ 0 false)) /\ sets (HF := plain_host) ws 10 0x123456789 rv_bss.
Proof.
  apply (load_const_correct (HF := plain_host) 10 VT_LLONG 0x123456789 (Gen ∅ 0 false) rv_bss);
    [done|exact rv_bss_ok|unfold isreg; lia|lia|lia].
Defined.
