(* ===== verification/RvGenOps.v ===== *)
(** Integer operations and comparisons of the RISC-V back end compute C's results on the emulator. *)
From S2P Require Import Prelude Rv64State Rv64Alu Rv64Float Rv64Exec Rv64Inv RiscvLink RvGen RvGenRun RvGenOk.

(** ** C's integers

    A 64-bit ([l]) or 32-bit integer is taken as its signed value; a register holds it
    sign-extended, the unsigned 32-bit ones too. *)

Definition sg (l : bool) (v : Z) : Z := if l then i64 v else i32 v.
Definition us (l : bool) (v : Z) : Z := if l then u64 v else u32 v.
Definition wd (l : bool) : Z := if l then 64 else 32.
Definition holds (l : bool) (x v : Z) : Prop := x = u64 v /\ sg l v = v.

Definition is_arith (op : Z) : bool :=
  existsb (Z.eqb op) [T_ADD; T_SUB; TOK_SAR; TOK_SHR; TOK_SHL; T_MUL; T_DIV; T_AND; T_XOR; T_OR; T_MOD; TOK_UMOD; TOK_PDIV; TOK_UDIV].
Definition is_cmp (op : Z) : bool :=
  existsb (Z.eqb op) [TOK_ULT; TOK_UGE; TOK_EQ; TOK_NE; TOK_ULE; TOK_UGT; TOK_LT; TOK_GE; TOK_LE; TOK_GT].

(** The value of [a op b].  Division by zero and [INT_MIN / -1], undefined in C, have the values
    of the instruction set; [TOK_PDIV], the division of a pointer difference, is unsigned here. *)
Definition cop (l : bool) (op a b : Z) : Z :=
  sg l (if op =? T_ADD then a + b
        else if op =? T_SUB then a - b
        else if op =? TOK_SAR then Z.shiftr a (b mod wd l)
        else if op =? TOK_SHR then Z.shiftr (us l a) (b mod wd l)
        else if op =? TOK_SHL then Z.shiftl a (b mod wd l)
        else if op =? T_MUL then a * b
        else if op =? T_DIV then if b =? 0 then -1 else Z.quot a b
        else if op =? T_AND then Z.land a b
        else if op =? T_XOR then Z.lxor a b
        else if op =? T_OR then Z.lor a b
        else if op =? T_MOD then if b =? 0 then a else Z.rem a b
        else if op =? TOK_UMOD then if b =? 0 then a else us l a mod us l b
        else if b =? 0 then -1 else us l a / us l b).
Definition ccmp (l : bool) (op a b : Z) : bool :=
  if op =? TOK_EQ then a =? b else if op =? TOK_NE then negb (a =? b)
  else if op =? TOK_LT then a <? b else if op =? TOK_GE then b <=? a
  else if op =? TOK_LE then a <=? b else if op =? TOK_GT then b <? a
  else if op =? TOK_ULT then us l a <? us l b else if op =? TOK_UGE then us l b <=? us l a
  else if op =? TOK_ULE then us l a <=? us l b else us l b <? us l a.
(** A pending comparison of two 64-bit registers. *)
Definition cmp_true (op x y : Z) : bool := ccmp true op (i64 x) (i64 y).

(** ** Words and signs *)

Lemma sg_range l v : sg l v = v -> -9223372036854775808 <= v < 9223372036854775808.
Proof. destruct l; cbn; intros <-; [apply i64_bound|pose proof (i32_bound v); lia]. Qed.
Lemma holds_i64 l x v : holds l x v -> i64 x = v.
Proof. intros [-> H]. rewrite i64_u64. apply i64_small. by eapply sg_range. Qed.
Lemma holds_i32 x v : holds false x v -> i32 x = v.
Proof. intros [-> H]. cbn in H. pose proof (i32_bound v). unfold i32, u64 in *. zlia. Qed.
Lemma holds_u32 x v : holds false x v -> u32 x = u32 v.
Proof. intros [-> H]. unfold u32, u64. zlia. Qed.

Lemma sign_bits n v : 0 <= n -> (-2 ^ n <= v < 2 ^ n <-> Z.shiftr v n = 0 \/ Z.shiftr v n = -1).
Proof.
  intros Hn. rewrite Z.shiftr_div_pow2 by done. pose proof (Z.pow_pos_nonneg 2 n ltac:(lia) Hn).
  pose proof (Z.div_mod v (2 ^ n) ltac:(lia)) as E. pose proof (Z.mod_pos_bound v (2 ^ n) ltac:(lia)).
  generalize dependent (v / 2 ^ n). generalize dependent (v mod 2 ^ n). generalize dependent (2 ^ n). intros p Hp r Hr q E.
  split; [intros; assert (q < 1) by nia; assert (-2 < q) by nia; lia | intros [->| ->]; lia].
Qed.
Section bitop.
Context (f : Z -> Z -> Z) (fb : bool -> bool -> bool).
Context (Hb : forall a b i, 0 <= i -> Z.testbit (f a b) i = fb (Z.testbit a i) (Z.testbit b i)) (Hff : fb false false = false).
Lemma bitop_signed n a b : 0 <= n -> -2 ^ n <= a < 2 ^ n -> -2 ^ n <= b < 2 ^ n -> -2 ^ n <= f a b < 2 ^ n.
Proof.
  intros Hn Ha Hbb. rewrite sign_bits in * by done.
  assert (Z.shiftr (f a b) n = f (Z.shiftr a n) (Z.shiftr b n)) as ->.
  { apply Z.bits_inj'. intros i Hi. rewrite Hb, !Z.shiftr_spec, Hb by lia. done. }
  assert (forall x y, (x = 0 \/ x = -1) -> (y = 0 \/ y = -1) -> f x y = 0 \/ f x y = -1) as H; [|by apply H].
  intros x y Hx Hy. destruct (Z.testbit (f x y) 0) eqn:E; [right|left]; rewrite Hb in E by lia; apply Z.bits_inj'; intros i Hi; rewrite Hb by done.
  all: destruct Hx as [-> | ->], Hy as [-> | ->]; rewrite ?Z.bits_0, ?Z.bits_m1 in * by lia; done.
Qed.
Lemma bitop_u64 a b : f (u64 a) (u64 b) = u64 (f a b).
Proof.
  apply Z.bits_inj'. intros i Hi. rewrite Hb by done. unfold u64. change 18446744073709551616 with (2 ^ 64).
  destruct (Z.lt_ge_cases i 64).
  - by rewrite !Z.mod_pow2_bits_low, Hb by lia.
  - by rewrite !Z.mod_pow2_bits_high by lia.
Qed.
Lemma bitop_holds l x y a b : holds l x a -> holds l y b -> f x y = u64 (sg l (f a b)).
Proof.
  intros [-> Ha] [-> Hbb]. rewrite bitop_u64. f_equal. symmetry. destruct l; cbn in *.
  - rewrite <- Ha, <- Hbb. apply i64_small. apply (bitop_signed 63); [lia|apply i64_bound..].
  - rewrite <- Ha, <- Hbb. apply i32_small. apply (bitop_signed 31); [lia|apply i32_bound..].
Qed.
End bitop.
Lemma land_holds l x y a b : holds l x a -> holds l y b -> Z.land x y = u64 (sg l (Z.land a b)).
Proof. apply (bitop_holds Z.land andb); [intros; apply Z.land_spec|done]. Qed.
Lemma lor_holds l x y a b : holds l x a -> holds l y b -> Z.lor x y = u64 (sg l (Z.lor a b)).
Proof. apply (bitop_holds Z.lor orb); [intros; apply Z.lor_spec|done]. Qed.
Lemma lxor_holds l x y a b : holds l x a -> holds l y b -> Z.lxor x y = u64 (sg l (Z.lxor a b)).
Proof. apply (bitop_holds Z.lxor xorb); [intros; apply Z.lxor_spec|done]. Qed.

(** ** The register form *)

Lemma land_mask x m k : 0 <= k -> m = 2 ^ k - 1 -> Z.land x m = x mod 2 ^ k.
Proof. intros Hk ->. by apply land_ones_mod. Qed.
Lemma quot_isu64 x y : isu64 x -> 0 <= y -> isu64 (x / y).
Proof.
  intros Hx Hy. destruct (Z.eq_dec y 0) as [->|]; [by rewrite Zdiv_0_r|].
  split; [apply Z.div_pos; lia|]. apply Z.div_lt_upper_bound; nia.
Qed.
Lemma u64_sg64 v : u64 (sg true v) = u64 v.
Proof. apply u64_i64. Qed.

Lemma arith64 f3 f7 op x y a b : holds true x a -> holds true y b ->
  In (op, f3, f7) [(T_ADD, 0, 0); (T_SUB, 0, 32); (TOK_SAR, 5, 32); (TOK_SHR, 5, 0); (TOK_SHL, 1, 0); (T_MUL, 0, 1); (T_DIV, 4, 1);
    (T_MOD, 6, 1); (TOK_UMOD, 7, 1); (TOK_PDIV, 5, 1); (TOK_UDIV, 5, 1)] ->
  alu_reg f3 f7 x y = u64 (cop true op a b).
Proof.
  intros Hx Hy Hin. pose proof (holds_i64 _ _ _ Hx) as Hxa. pose proof (holds_i64 _ _ _ Hy) as Hyb.
  assert (Z.land y 63 = b mod 64) as Hsh.
  { rewrite (land_mask y 63 6) by done. change (2 ^ 6) with 64. rewrite <- Hyb. unfold i64. zlia. }
  assert (0 <= b mod 64 < 64) as Hsb by (apply Z.mod_pos_bound; lia).
  destruct Hx as [Ex Ha], Hy as [Ey Hb]. cbn [sg] in Ha, Hb.
  assert (isu64 x /\ isu64 y) as [Bx By] by (subst; split; apply u64_bound).
  assert ((y =? 0) = (b =? 0)) as Hz by (subst y; rewrite <- Hb; unfold u64, i64; zlia).
  unfold cop. rewrite u64_sg64. cbn [us wd].
  repeat (destruct Hin as [[= <- <- <-]|Hin]; [unfold alu_reg, alu_mul; cbn [Z.eqb Pos.eqb T_ADD T_SUB TOK_SAR TOK_SHR TOK_SHL T_MUL T_DIV
     T_AND T_XOR T_OR T_MOD TOK_UMOD TOK_PDIV TOK_UDIV]; rewrite ?Hsh, ?Hz, ?Hxa, ?Hyb, <- ?Ex, <- ?Ey|]); [..|destruct Hin].
  - change (tst 0 32) with false. subst x y. unfold u64. zlia.
  - change (tst 32 32) with true. subst x y. unfold u64. zlia.
  - done.
  - change (tst 0 32) with false. symmetry. apply u64_small. apply isu64_shiftr; [done|lia].
  - rewrite !Z.shiftl_mul_pow2 by lia. subst x. apply u64_mul_l.
  - subst x y. unfold u64. by rewrite <- Z.mul_mod by lia.
  - destruct (Z.eqb_spec b 0); [done|]. destruct (Z.eqb_spec x MIN64) as [Em|]; [|done]. destruct (Z.eqb_spec y ONES64) as [Eo|]; [|done].
    rewrite <- Hxa, <- Hyb, Em, Eo. done.
  - destruct (Z.eqb_spec b 0); [done|]. destruct (Z.eqb_spec x MIN64) as [Em|]; [|done]. destruct (Z.eqb_spec y ONES64) as [Eo|]; [|done].
    rewrite <- Hyb, Eo. change (i64 ONES64) with (-1). by rewrite rem_neg1.
  - destruct (Z.eqb_spec b 0); [done|]. rewrite u64_small; [done|]. pose proof (Z.mod_pos_bound x y). lia.
  - destruct (Z.eqb_spec b 0); [done|]. symmetry. apply u64_small, quot_isu64; [done|lia].
  - destruct (Z.eqb_spec b 0); [done|]. symmetry. apply u64_small, quot_isu64; [done|lia].
Qed.

Lemma arith32 f3 f7 op x y a b : holds false x a -> holds false y b ->
  In (op, f3, f7) [(T_ADD, 0, 0); (T_SUB, 0, 32); (TOK_SAR, 5, 32); (TOK_SHR, 5, 0); (TOK_SHL, 1, 0); (T_MUL, 0, 1); (T_DIV, 4, 1);
    (T_MOD, 6, 1); (TOK_UMOD, 7, 1); (TOK_PDIV, 5, 1); (TOK_UDIV, 5, 1)] ->
  alu_reg32 f3 f7 x y = Some (u64 (cop false op a b)).
Proof.
  intros Hx Hy Hin. pose proof (holds_i32 _ _ Hx) as Hxa. pose proof (holds_i32 _ _ Hy) as Hyb.
  destruct Hx as [_ Ha], Hy as [_ Hb]. cbn [sg] in Ha, Hb.
  assert (Z.land (u32 b) 31 = b mod 32) as Hsh.
  { rewrite (land_mask _ 31 5) by done. change (2 ^ 5) with 32. unfold u32. zlia. }
  assert (0 <= b mod 32 < 32) as Hsb by (apply Z.mod_pos_bound; lia).
  unfold cop. cbn [us wd sg].
  repeat (destruct Hin as [[= <- <- <-]|Hin]; [unfold alu_reg32; rewrite Hxa, Hyb; cbn [Z.eqb Pos.eqb T_ADD T_SUB TOK_SAR TOK_SHR TOK_SHL T_MUL
     T_DIV T_AND T_XOR T_OR T_MOD TOK_UMOD TOK_PDIV TOK_UDIV]; rewrite ?Hsh; do 2 f_equal|]); [..|destruct Hin].
  - change (tst 32 32) with true. cbn iota. by rewrite i32_u32.
  - rewrite i32_u32, !Z.shiftl_mul_pow2 by lia. rewrite <- (i32_u32 (_ * _)), <- (i32_u32 (a * _)). f_equal. apply Z.mul_mod_idemp_l. lia.
  - rewrite <- (i32_u32 (a * b)). f_equal. symmetry. apply Z.mul_mod. lia.
  - destruct (Z.eqb_spec b 0); [done|]. destruct (Z.eqb_spec a (-2147483648)) as [->|], (Z.eqb_spec b (-1)) as [->|]; [done|..].
    all: cbn [andb]; symmetry; apply i32_small, quot_small; unfold i32 in *; zlia.
  - destruct (Z.eqb_spec b 0); [done|]. destruct (Z.eqb_spec a (-2147483648)) as [->|], (Z.eqb_spec b (-1)) as [->|]; [done|..].
    all: cbn [andb]; symmetry; apply i32_small; apply rem_small; unfold i32 in *; zlia.
  - destruct (b =? 0); [apply i32_u32|done].
  - by destruct (b =? 0).
  - by destruct (b =? 0).
Qed.

(** ** Pending comparisons *)

Lemma us_mono l a b : sg l a = a -> sg l b = b ->
  (us true a <? us true b) = (us l a <? us l b) /\ (us true a <=? us true b) = (us l a <=? us l b).
Proof. destruct l; [done|]. cbn. unfold i32, u64, u32. intros. split; zlia. Qed.
Lemma cmp_regs l op x y a b : holds l x a -> holds l y b -> cmp_true op x y = ccmp l op a b.
Proof.
  intros Hx Hy. unfold cmp_true. rewrite (holds_i64 _ _ _ Hx), (holds_i64 _ _ _ Hy). destruct Hx as [_ Ha], Hy as [_ Hb].
  destruct (us_mono l a b Ha Hb) as [H1 H2], (us_mono l b a Hb Ha) as [H3 H4]. unfold ccmp. by rewrite H1, H2, H3, H4.
Qed.
Lemma cmp_bit c : cmp_true TOK_NE (Z.b2z c) 0 = c.
Proof. by destruct c. Qed.
(** [cmp_op ^= 1] *)
Lemma ccmp_flip l op a b : is_cmp op = true -> ccmp l (Z.lxor op 1) a b = negb (ccmp l op a b).
Proof.
  intros H. unfold is_cmp in H. apply existsb_exists in H as (op' & Hin & ->%Z.eqb_eq).
  repeat (destruct Hin as [<-|Hin]; [match goal with |- context [Z.lxor ?x 1] => let t := eval vm_compute in (Z.lxor x 1) in change (Z.lxor x 1) with t end;
    unfold ccmp; cbn [Z.eqb Pos.eqb TOK_ULT TOK_UGE TOK_EQ TOK_NE TOK_ULE TOK_UGT TOK_LT TOK_GE TOK_LE TOK_GT]; lia|]).
  destruct Hin.
Qed.

Section ops.
Context `{HF : HostFloat}.

(** [g'] is [g] with code appended; the code runs from [s] to a state with [Q], changing no memory
    and no register outside [cl]. *)
Definition code_runs (g g' : gen) (cl : list Z) (s : rv) (Q : rv -> Prop) : Prop :=
  exists ws, g' = emit ws g /\ forall at_, isu64 at_ -> exists s',
    run_words ws at_ s = Some (u64 (at_ + 4 * Z.of_nat (length ws)), s') /\ rv_ok s' /\ Q s' /\
    ram s' = ram s /\ forall r, ~ In r cl -> getx s' r = getx s r.

Lemma code_runs_nil g cl s (Q : rv -> Prop) : rv_ok s -> Q s -> code_runs g g cl s Q.
Proof.
  intros. exists []. split; [done|]. intros at_ Ha. exists s. cbn. by rewrite Z.add_0_r, u64_small.
Qed.
Lemma code_runs_sets g g' rd v cl s (Q : rv -> Prop) : gsets g g' rd v s -> In rd cl ->
  (forall s', rv_ok s' -> (forall r, getx s' r = if r =? rd then v else getx s r) -> Q s') -> code_runs g g' cl s Q.
Proof.
  intros (ws & -> & Hs) Hin HQ. exists ws. split; [done|]. intros at_ Ha.
  destruct (Hs at_ Ha) as (s' & Hr & Hok & Hg & Hm). exists s'. split_and!; [done..|by apply HQ|done|].
  intros r Hn. rewrite Hg. destruct (Z.eqb_spec r rd); [by subst|done].
Qed.
Lemma code_runs_app g g1 vs cl s (Q1 Q : rv -> Prop) : code_runs g g1 cl s Q1 ->
  (forall s1 at_, isu64 at_ -> rv_ok s1 -> Q1 s1 -> (forall r, ~ In r cl -> getx s1 r = getx s r) -> exists s',
    run_words vs at_ s1 = Some (u64 (at_ + 4 * Z.of_nat (length vs)), s') /\ rv_ok s' /\ Q s' /\ ram s' = ram s1 /\
    forall r, ~ In r cl -> getx s' r = getx s1 r) ->
  code_runs g (emit vs g1) cl s Q.
Proof.
  intros (ws & -> & H1) H2. exists (ws ++ vs). split; [by rewrite emit_app|]. intros at_ Ha.
  destruct (H1 at_ Ha) as (s1 & Hr1 & Hok1 & HQ1 & Hm1 & Hg1).
  destruct (H2 s1 (u64 (at_ + 4 * Z.of_nat (length ws))) (u64_bound _) Hok1 HQ1 Hg1) as (s2 & Hr2 & Hok2 & HQ2 & Hm2 & Hg2).
  exists s2. rewrite run_app, Hr1. cbn. rewrite Hr2. split_and!; [|done|done|congruence|].
  - do 2 f_equal. rewrite length_app. unfold u64. zlia.
  - intros r Hr. by rewrite Hg2, Hg1.
Qed.

(** What [gen_opil] promises of its result, [d] being the register it was given. *)
Definition result_ok (l : bool) (op va vb d : Z) (r : result) (s' : rv) : Prop :=
  match r with
  | InReg d' => is_arith op = true /\ d' = d /\ getx s' d = u64 (cop l op va vb)
  | Cmp op' x y => is_cmp op = true /\ is_cmp op' = true /\ isreg x /\ isreg y /\ cmp_true op' (getx s' x) (getx s' y) = ccmp l op va vb
  end.
Definition ll_of (l : bool) : Z := if l then 0 else 8.

(** The parts of [opil_bits]. *)
Ltac split_op H f3 f7 := solve [eapply (H f3 f7); [reflexivity|reflexivity|lia|lia|cbn; tauto]].
Lemma opil_reg_arith l op d a b g : isreg d -> d <> 0 -> isreg a -> isreg b -> is_arith op = true ->
  exists w, opil_reg op (ll_of l) d a b g = Some (InReg d, o w g) /\
    forall s va vb, rv_ok s -> holds l (getx s a) va -> holds l (getx s b) vb -> sets [w] d (u64 (cop l op va vb)) s.
Proof.
  intros Hd H0 Ha Hb Hop. unfold is_arith in Hop. apply existsb_exists in Hop as (op' & Hin & ->%Z.eqb_eq).
  assert (forall f3 f7 bits, opil_bits op' (ll_of l) = Some bits -> bits = Z.lor (Z.lor (if l then 0x33 else 0x3b) (u32 (Z.shiftl f3 12))) (u32 (Z.shiftl f7 25)) ->
    0 <= f3 < 8 -> 0 <= f7 < 128 ->
    In (op', f3, f7) [(T_ADD, 0, 0); (T_SUB, 0, 32); (TOK_SAR, 5, 32); (TOK_SHR, 5, 0); (TOK_SHL, 1, 0); (T_MUL, 0, 1); (T_DIV, 4, 1);
      (T_MOD, 6, 1); (TOK_UMOD, 7, 1); (TOK_PDIV, 5, 1); (TOK_UDIV, 5, 1)] ->
    exists w, opil_reg op' (ll_of l) d a b g = Some (InReg d, o w g) /\
    forall s va vb, rv_ok s -> holds l (getx s a) va -> holds l (getx s b) vb -> sets [w] d (u64 (cop l op' va vb)) s) as Hsplit.
  { intros f3 f7 bits Hbits Hw H3 H7 Hl. unfold opil_reg, EM. rewrite Hbits, (em_word bits _ f3 f7 d a b Hw).
    eexists. split; [done|]. intros s va vb Hok Hx Hy. destruct l.
    - rewrite <- (arith64 f3 f7 op' _ _ va vb Hx Hy Hl). by apply sets_reg.
    - apply sets_reg32; try done. by apply arith32. }
  assert (forall f3 bits v, opil_bits op' (ll_of l) = Some bits -> bits = Z.lor (Z.lor 0x33 (u32 (Z.shiftl f3 12))) (u32 (Z.shiftl 0 25)) ->
    0 <= f3 < 8 -> (forall x y, alu_reg f3 0 x y = v x y) -> (forall x y va vb, holds l x va -> holds l y vb -> v x y = u64 (cop l op' va vb)) ->
    exists w, opil_reg op' (ll_of l) d a b g = Some (InReg d, o w g) /\
    forall s va vb, rv_ok s -> holds l (getx s a) va -> holds l (getx s b) vb -> sets [w] d (u64 (cop l op' va vb)) s) as Hbit.
  { intros f3 bits v Hbits Hw H3 Hv Hop. unfold opil_reg, EM. rewrite Hbits, (em_word bits _ f3 0 d a b Hw).
    eexists. split; [done|]. intros s va vb Hok Hx Hy. rewrite <- (Hop _ _ _ _ Hx Hy), <- Hv. apply sets_reg; try done; lia. }
  cbn [In] in Hin. repeat (destruct Hin as [<-|Hin];
    [solve [ destruct l; first [split_op Hsplit 0 0 | split_op Hsplit 0 32 | split_op Hsplit 5 32 | split_op Hsplit 5 0 | split_op Hsplit 1 0
               | split_op Hsplit 0 1 | split_op Hsplit 4 1 | split_op Hsplit 6 1 | split_op Hsplit 7 1 | split_op Hsplit 5 1]
           | eapply (Hbit 7 _ Z.land); [destruct l; reflexivity|reflexivity|lia|reflexivity|intros; by apply land_holds]
           | eapply (Hbit 4 _ Z.lxor); [destruct l; reflexivity|reflexivity|lia|reflexivity|intros; by apply lxor_holds]
           | eapply (Hbit 6 _ Z.lor); [destruct l; reflexivity|reflexivity|lia|reflexivity|intros; by apply lor_holds]]|]).
  destruct Hin.
Qed.

(** ** The constant form *)

(** [do_cop:] *)
Definition cop_val (cll f3 imm x : Z) : Z := if cll =? 0 then imm_val f3 imm x else imm_val32 f3 imm x.
Lemma EI_sets cll f3 imm d a g : isreg d -> d <> 0 -> isreg a -> -2048 <= imm < 2048 ->
  (cll = 0 /\ 0 <= f3 < 8) \/ (cll = 8 /\ (f3 = 0 \/ f3 = 1 \/ f3 = 5)) ->
  exists w, EI (Z.lor 0x13 cll) f3 d a imm g = Some (o w g) /\
    forall s, rv_ok s -> sets [w] d (cop_val cll f3 imm (getx s a)) s.
Proof.
  intros Hd H0 Ha Hi Hc. unfold EI. rewrite imm_fits_small by done. eexists. split; [done|]. intros s Hok. unfold cop_val.
  destruct Hc as [[-> Hf]|[-> Hf]].
  - change (Z.lor 19 0) with 0x13. cbn [Z.eqb]. rewrite <- imm_val_u32. by apply sets_imm.
  - change (Z.lor 19 8) with 0x1b. cbn [Z.eqb]. rewrite <- imm_val32_u32. by apply sets_imm32.
Qed.

(** The instruction chosen for [a op fc] and the value it computes. *)
Lemma imm_arith l op f3 imm x va fc : holds l x va -> -2048 <= fc < 2048 ->
  In (op, f3, imm) [(T_SUB, 0, - fc); (T_ADD, 0, fc); (TOK_SHL, 1, Z.land fc (wd l - 1)); (TOK_SHR, 5, Z.land fc (wd l - 1));
    (TOK_SAR, 5, Z.lor 1024 (Z.land fc (wd l - 1)))] ->
  -2048 <= imm < 2048 -> cop_val (ll_of l) f3 imm x = u64 (cop l op va fc).
Proof.
  intros Hx Hfc Hin Hi. unfold cop_val.
  assert (Z.land fc (wd l - 1) = fc mod wd l) as Hm by (destruct l; [by apply (land_mask fc 63 6)|by apply (land_mask fc 31 5)]).
  rewrite Hm in *. assert (0 <= fc mod wd l < wd l) as Hb by (apply Z.mod_pos_bound; by destruct l).
  assert (Z.lor 1024 (fc mod wd l) = 1024 + fc mod wd l) as Ho.
  { change 1024 with (1 * 2 ^ 10) at 1. rewrite lor_add; [done|done|]. destruct l; cbn [wd] in *; lia. }
  rewrite Ho in *.
  assert (tst ((fc mod wd l) mod 4096 / 32) 32 = false /\ tst ((1024 + fc mod wd l) mod 4096 / 32) 32 = true) as [Ht1 Ht2].
  { change 32 with (2 ^ 5) at 2 4. rewrite !tst_pow2 by done.
    destruct l; cbn [wd] in *; generalize dependent (fc mod 64) || generalize dependent (fc mod 32); intros; split.
    all: match goal with |- Z.testbit ?q 5 = _ => assert (q = 0 \/ q = 1 \/ q = 32 \/ q = 33) as Hq by zlia end.
    all: destruct Hq as [E|[E|[E|E]]]; rewrite E; try done; exfalso; zlia. }
  destruct l; cbn [ll_of Z.eqb wd] in *.
  - pose proof (holds_i64 _ _ _ Hx) as Hxi. destruct Hx as [Ex Ha]. cbn [sg] in Ha. unfold cop. rewrite u64_sg64. cbn [us wd]. rewrite <- Ex.
    repeat (destruct Hin as [[= <- <- <-]|Hin]; [unfold imm_val; cbn [Z.eqb Pos.eqb T_ADD T_SUB TOK_SAR TOK_SHR TOK_SHL];
      rewrite ?Ht1, ?Ht2, ?lo12_small, ?Z.mod_mod by lia|]); [..|destruct Hin].
    + subst x. apply u64_add_l.
    + subst x. apply u64_add_l.
    + subst x. rewrite !Z.shiftl_mul_pow2 by lia. apply u64_mul_l.
    + symmetry. apply u64_small, isu64_shiftr; [subst x; apply u64_bound|lia].
    + rewrite Hxi. by replace ((1024 + fc mod 64) mod 64) with (fc mod 64) by zlia.
  - pose proof (holds_i32 _ _ Hx) as Hxi. pose proof (holds_u32 _ _ Hx) as Hxu. destruct Hx as [_ Ha]. cbn [sg] in Ha. unfold cop. cbn [us wd sg].
    repeat (destruct Hin as [[= <- <- <-]|Hin]; [unfold imm_val32; cbn [Z.eqb Pos.eqb T_ADD T_SUB TOK_SAR TOK_SHR TOK_SHL];
      rewrite ?Ht1, ?Ht2, ?lo12_small, ?Z.mod_mod, ?Hxu, ?Hxi by lia; f_equal|]); [..|destruct Hin].
    + unfold i32, u32. zlia.
    + unfold i32, u32. zlia.
    + rewrite !Z.shiftl_mul_pow2 by lia. rewrite <- (i32_u32 (_ * _)), <- (i32_u32 (va * _)). f_equal. apply Z.mul_mod_idemp_l. lia.
    + by replace ((1024 + fc mod 32) mod 32) with (fc mod 32) by zlia.
Qed.
Lemma imm_bits l op f3 x va fc : holds l x va -> -2048 <= fc < 2048 -> In (op, f3) [(T_XOR, 4); (T_OR, 6); (T_AND, 7)] ->
  imm_val f3 fc x = u64 (cop l op va fc).
Proof.
  intros Hx Hfc Hin.
  assert (holds l (u64 fc) fc) as Hf by (split; [done|destruct l; [apply i64_small|apply i32_small]; lia]).
  repeat (destruct Hin as [[= <- <-]|Hin]; [unfold imm_val, cop; cbn [Z.eqb Pos.eqb T_XOR T_OR T_AND]; rewrite lo12_small by done|]); [..|destruct Hin].
  - by apply lxor_holds.
  - by apply lor_holds.
  - by apply land_holds.
Qed.
Lemma imm_cmp l op f3 imm x va fc : holds l x va -> -2048 <= fc < 2048 -> -2048 <= imm < 2048 ->
  In (op, f3, imm) [(TOK_LT, 2, fc); (TOK_LE, 2, fc + 1); (TOK_ULT, 3, fc); (TOK_ULE, 3, fc + 1)] -> (op = TOK_ULE -> fc <> -1) ->
  imm_val f3 imm x = Z.b2z (ccmp l op va fc).
Proof.
  intros Hx Hfc Hi Hin Hm1. pose proof (holds_i64 _ _ _ Hx) as Hxi. destruct Hx as [Ex Ha].
  assert (sg l fc = fc) as Hf by (destruct l; [apply i64_small|apply i32_small]; lia).
  destruct (us_mono l va fc Ha Hf) as [H1 H2]. cbn [us] in H1, H2.
  repeat (destruct Hin as [[= <- <- <-]|Hin]; [unfold imm_val, ccmp; cbn [Z.eqb Pos.eqb TOK_LT TOK_LE TOK_ULT TOK_ULE TOK_EQ TOK_NE TOK_GE TOK_GT TOK_UGE];
    rewrite lo12_small by done; f_equal|]); [..|destruct Hin].
  - by rewrite Hxi.
  - rewrite Hxi. lia.
  - by rewrite <- H1, Ex.
  - rewrite <- H2, Ex. specialize (Hm1 eq_refl). unfold u64. zlia.
Qed.

Ltac fin w Hw := eexists; split; [reflexivity|]; exists w; split; [reflexivity|exact Hw].
Ltac imm_op Har cll f3 imm :=
  destruct (Har cll f3 imm) as (w & -> & Hw);
  [lia|match goal with l : bool |- _ => destruct l end; cbn [ll_of]; lia|reflexivity|reflexivity
  |intros; eapply imm_arith; [eassumption|assumption|cbn; tauto|lia] |let w := w in fin w Hw].
Definition is_flat (op : Z) : bool := is_arith op || existsb (Z.eqb op) [TOK_LT; TOK_LE; TOK_ULT; TOK_ULE].
Lemma opil_imm_ok l op d a fc g : isreg d -> d <> 0 -> isreg a -> -2048 <= fc < 2048 -> is_flat op = true ->
  exists res, opil_imm op (ll_of l) d a fc g = Some res /\
    match res with
    | None => True
    | Some (r, g') => exists w, g' = o w g /\ forall s va, rv_ok s -> holds l (getx s a) va ->
        exists v, sets [w] d v s /\ forall s', rv_ok s' -> getx s' d = v -> result_ok l op va fc d r s'
    end.
Proof.
  intros Hd H0 Ha Hfc Hop.
  assert (isreg 0) as Hz by (unfold isreg; lia).
  assert (forall cll f3 imm, -2048 <= imm < 2048 -> (cll = 0 /\ 0 <= f3 < 8) \/ (cll = 8 /\ (f3 = 0 \/ f3 = 1 \/ f3 = 5)) ->
    is_arith op = true -> (TOK_ULT <=? op) && (op <=? TOK_GT) = false ->
    (forall x va, holds l x va -> cop_val cll f3 imm x = u64 (cop l op va fc)) ->
    exists w, EI (Z.lor 0x13 cll) f3 d a imm g = Some (o w g) /\ forall s va, rv_ok s -> holds l (getx s a) va ->
      exists v, sets [w] d v s /\ forall s', rv_ok s' -> getx s' d = v -> result_ok l op va fc d (InReg d) s') as Har.
  { intros cll f3 imm Hi Hc Hop' _ Hv. destruct (EI_sets cll f3 imm d a g Hd H0 Ha Hi Hc) as (w & E & Hw). exists w. split; [done|].
    intros s va Hok Hx. eexists. split; [by apply Hw|]. intros s' Hok' Hg. split_and!; [done..|]. by rewrite Hg, (Hv _ va). }
  assert (forall f3 imm, -2048 <= imm < 2048 -> f3 = 2 \/ f3 = 3 -> is_cmp op = true ->
    (forall x va, holds l x va -> imm_val f3 imm x = Z.b2z (ccmp l op va fc)) ->
    exists w, EI (Z.lor 0x13 0) f3 d a imm g = Some (o w g) /\ forall s va, rv_ok s -> holds l (getx s a) va ->
      exists v, sets [w] d v s /\ forall s', rv_ok s' -> getx s' d = v -> result_ok l op va fc d (Cmp TOK_NE d 0) s') as Hcm.
  { intros f3 imm Hi Hf Hop' Hv. destruct (EI_sets 0 f3 imm d a g Hd H0 Ha Hi ltac:(lia)) as (w & E & Hw). exists w. split; [done|].
    intros s va Hok Hx. eexists. split; [by apply Hw|]. intros s' Hok' Hg. split_and!; [done..|].
    rewrite Hg, (getx0 s' Hok'). change (cop_val 0) with imm_val. rewrite (Hv _ va) by done. apply cmp_bit. }
  assert (-2048 <= Z.land fc (wd l - 1) < 2048 /\ -2048 <= Z.lor 1024 (Z.land fc (wd l - 1)) < 2048) as [Hm1 Hm2].
  { destruct l; cbn [wd]; [rewrite (land_mask fc _ 6) by done|rewrite (land_mask fc _ 5) by done].
    all: change 1024 with (1 * 2 ^ 10); rewrite lor_add by zlia; zlia. }
  unfold is_flat, is_arith in Hop. apply orb_true_iff in Hop.
  assert (In op ([T_ADD; T_SUB; TOK_SAR; TOK_SHR; TOK_SHL; T_MUL; T_DIV; T_AND; T_XOR; T_OR; T_MOD; TOK_UMOD; TOK_PDIV; TOK_UDIV] ++
    [TOK_LT; TOK_LE; TOK_ULT; TOK_ULE])) as Hin.
  { apply in_or_app. destruct Hop as [H|H]; apply existsb_exists in H as (op' & Hin & ->%Z.eqb_eq); auto. }
  cbn [app In] in Hin.
  unfold opil_imm. replace (if negb (ll_of l =? 0) then 31 else 63) with (wd l - 1) by (by destruct l). cbv zeta.
  clear Hop. repeat (destruct Hin as [<-|Hin]; [cbn -[EI Z.leb imm_fits Z.land Z.lor ll_of Z.opp wd Z.add Z.sub]|]); [..|destruct Hin].
  all: try (by exists None).
  - imm_op Har (ll_of l) 0 fc.
  - destruct (Z.leb_spec fc (-2048)); [by exists None|]. imm_op Har (ll_of l) 0 (- fc).
  - imm_op Har (ll_of l) 5 (Z.lor 1024 (Z.land fc (wd l - 1))).
  - imm_op Har (ll_of l) 5 (Z.land fc (wd l - 1)).
  - imm_op Har (ll_of l) 1 (Z.land fc (wd l - 1)).
  - destruct (Har 0 7 fc) as (w & -> & Hw); [lia|lia|reflexivity|reflexivity|intros; eapply (imm_bits l); [done|done|cbn; tauto]|fin w Hw].
  - destruct (Har 0 4 fc) as (w & -> & Hw); [lia|lia|reflexivity|reflexivity|intros; eapply (imm_bits l); [done|done|cbn; tauto]|fin w Hw].
  - destruct (Har 0 6 fc) as (w & -> & Hw); [lia|lia|reflexivity|reflexivity|intros; eapply (imm_bits l); [done|done|cbn; tauto]|fin w Hw].
  - destruct (Hcm 2 fc) as (w & -> & Hw); [lia|lia|done|intros; eapply imm_cmp; [done|done|lia|cbn; tauto|done]|fin w Hw].
  - destruct (Z.leb_spec 2047 fc); [by exists None|].
    destruct (Hcm 2 (fc + 1)) as (w & -> & Hw); [lia|lia|done|intros; eapply imm_cmp; [done|done|lia|cbn; tauto|done]|fin w Hw].
  - destruct (Hcm 3 fc) as (w & -> & Hw); [lia|lia|done|intros; eapply imm_cmp; [done|done|lia|cbn; tauto|done]|fin w Hw].
  - destruct (Z.leb_spec 2047 fc); [by exists None|]. destruct (Z.eqb_spec fc (-1)); [by exists None|]. cbn [orb].
    destruct (Hcm 3 (fc + 1)) as (w & -> & Hw); [lia|lia|done|intros; eapply imm_cmp; [done|done|lia|cbn; tauto|done]|fin w Hw].
Qed.

(** ** [gen_opil] *)

Definition operand_reg (v : operand) : Z := match v with OReg b => b | OConst _ _ rb => rb end.
(** The second operand has value [vb] in state [s]; a constant's register is not the operand's [a]. *)
Definition operand_ok (l : bool) (a : Z) (v : operand) (vb : Z) (s : rv) : Prop :=
  isreg (operand_reg v) /\
  match v with
  | OReg b => holds l (getx s b) vb
  | OConst bt c rb =>
      rb <> 0 /\ rb <> a /\ -9223372036854775808 <= c < 9223372036854775808 /\ vb = sg l c /\ const_value bt c = u64 vb
  end.
Definition operand_clobbers (v : operand) : list Z := match v with OReg _ => [] | OConst _ _ rb => [rb] end.

Lemma cmp_no_bits op ll d a b g : is_cmp op = true -> opil_reg op ll d a b g = Some (Cmp op a b, g).
Proof.
  intros H. unfold is_cmp in H. apply existsb_exists in H as (op' & Hin & ->%Z.eqb_eq).
  repeat (destruct Hin as [<-|Hin]; [reflexivity|]). destruct Hin.
Qed.
Lemma sg_holds l v x : sg l v = v -> x = u64 v -> holds l x v.
Proof. done. Qed.
Lemma sg_idem l v : sg l (sg l v) = sg l v.
Proof. destruct l; [apply i64_small, i64_bound|apply i32_idem]. Qed.

Section gen_opil.
Context (l : bool) (op d a : Z) (v : operand) (g : gen) (s : rv) (va vb : Z).
Context (Hn : nocode_wanted g = false) (Hok : rv_ok s) (Hd : isreg d) (Hd0 : d <> 0) (Ha : isreg a)
  (Hva : holds l (getx s a) va) (Hv : operand_ok l a v vb s).

Lemma word_runs g1 cl r w op' (Q1 : rv -> Prop) : In d cl ->
  code_runs g g1 cl s Q1 ->
  (forall s1, rv_ok s1 -> Q1 s1 -> exists x, sets [w] d x s1 /\ forall s', rv_ok s' -> getx s' d = x -> result_ok l op' va vb d r s') ->
  code_runs g (o w g1) cl s (result_ok l op' va vb d r).
Proof.
  intros Hin H1 H2. change (o w g1) with (emit [w] g1). eapply code_runs_app; [exact H1|]. intros s1 at_ Hat Hok1 HQ Hg.
  destruct (H2 s1 Hok1 HQ) as (x & Hs & Hr). destruct (Hs at_ Hat) as (s' & Hrun & Hok' & Hx & Hm).
  exists s'. split_and!; [done|done| |done|].
  - apply Hr; [done|]. by rewrite Hx, Z.eqb_refl.
  - intros r' Hr'. rewrite Hx. destruct (Z.eqb_spec r' d); [by subst|done].
Qed.

Lemma opil_general_ok op' : is_arith op' || is_cmp op' = true ->
  exists r g', opil_general op' (ll_of l) d a v g = Some (r, g') /\
    code_runs g g' (d :: operand_clobbers v) s (result_ok l op' va vb d r).
Proof.
  intros Hop.
  assert (exists g1, (match v with OReg _ => Some g | OConst bt c rb => load_const rb bt c g end) = Some g1 /\
    code_runs g g1 (d :: operand_clobbers v) s (fun s1 => holds l (getx s1 a) va /\ holds l (getx s1 (operand_reg v)) vb)) as (g1 & E & Hc).
  { destruct Hv as [Hr Hvb]. destruct v as [b|bt c rb]; cbn [operand_reg] in *.
    - exists g. split; [done|]. by apply code_runs_nil.
    - destruct Hvb as (H0 & Hne & Hrng & -> & Hcv). destruct (load_const_ok rb bt c g s) as (g1 & E & Hg); [done..|].
      exists g1. split; [done|]. eapply code_runs_sets; [done|by right; left|]. intros s' Hok' Hx. rewrite !Hx, Z.eqb_refl.
      destruct (Z.eqb_spec a rb); [congruence|]. split; [done|]. split; [done|apply sg_idem]. }
  assert (opil_general op' (ll_of l) d a v g = opil_reg op' (ll_of l) d a (operand_reg v) g1) as ->.
  { destruct v; cbn; [by injection E as ->|by rewrite E]. }
  assert (isreg (operand_reg v)) as Hb by apply Hv.
  destruct (is_cmp op') eqn:Ecmp.
  - rewrite cmp_no_bits by done. exists (Cmp op' a (operand_reg v)), g1. split; [done|].
    destruct Hc as (ws & Hws & Hc). exists ws. split; [done|]. intros at_ Hat.
    destruct (Hc at_ Hat) as (s' & Hr & Hok' & [Hx Hy] & Hm & Hg). exists s'. split_and!; [done|done| |done|done].
    cbn [result_ok]. split_and!; [done..|]. by apply cmp_regs.
  - rewrite orb_false_r in Hop. destruct (opil_reg_arith l op' d a (operand_reg v) g1) as (w & -> & Hw); [done..|].
    exists (InReg d), (o w g1). split; [done|]. eapply word_runs; [by left|exact Hc|]. intros s1 Hok1 [Hx Hy].
    eexists. split; [by apply Hw|]. intros s' _ Hx'. by split_and!.
Qed.

Lemma opil_flat_ok op' bt c rb : v = OConst bt c rb -> is_flat op' = true -> is_arith op' || is_cmp op' = true -> vb = i32 c -> -2048 <= i32 c < 2048 ->
  exists r g', opil_flat op' (ll_of l) d a bt c rb g = Some (r, g') /\
    code_runs g g' (d :: operand_clobbers v) s (result_ok l op' va vb d r).
Proof.
  intros Ev Hf Hop Evb Hfc. unfold opil_flat. destruct (opil_imm_ok l op' d a (i32 c) g) as (res & -> & Hres); [done..|].
  destruct res as [[r g']|].
  - exists r, g'. split; [done|]. destruct Hres as (w & -> & Hw).
    eapply (word_runs g); [by left|by apply (code_runs_nil _ _ _ (fun s1 => holds l (getx s1 a) va))|].
    intros s1 Hok1 Hx. destruct (Hw s1 va Hok1 Hx) as (x & Hs & Hr). exists x. by rewrite Evb.
  - rewrite <- Ev. by apply opil_general_ok.
Qed.
End gen_opil.

Definition is_order (op : Z) : bool := (op =? TOK_UGE) || (op =? TOK_UGT) || (op =? TOK_GE) || (op =? TOK_GT).
Lemma order_flat op : is_order op = true -> is_flat (op - 1) = true /\ is_cmp (op - 1) = true /\ Z.lxor (op - 1) 1 = op.
Proof.
  unfold is_order. intros H. repeat (apply orb_true_iff in H; destruct H as [H|H]); apply Z.eqb_eq in H as ->; done.
Qed.
Lemma cmp_not_arith op : is_cmp op = true -> is_arith op = false.
Proof.
  intros H. unfold is_cmp in H. apply existsb_exists in H as (op' & Hin & ->%Z.eqb_eq).
  repeat (destruct Hin as [<-|Hin]; [done|]). destruct Hin.
Qed.
Lemma is_cmp_flip op : is_cmp op = true -> is_cmp (Z.lxor op 1) = true.
Proof.
  intros H. unfold is_cmp in H. apply existsb_exists in H as (op' & Hin & ->%Z.eqb_eq).
  repeat (destruct Hin as [<-|Hin]; [done|]). destruct Hin.
Qed.
Lemma cop_idem l op a b : sg l (cop l op a b) = cop l op a b.
Proof. apply sg_idem. Qed.
Lemma flat_rest op : is_arith op || is_cmp op = true -> is_order op = false -> (op =? TOK_NE) || (op =? TOK_EQ) = false -> is_flat op = true.
Proof.
  intros [H|H]%orb_true_iff Ho Hn; unfold is_flat; [by rewrite H|].
  unfold is_cmp in H. apply existsb_exists in H as (op' & Hin & ->%Z.eqb_eq).
  repeat (destruct Hin as [<-|Hin]; [done|]). destruct Hin.
Qed.
Lemma cop_sub_zero l a b : sg l a = a -> sg l b = b -> (cop l T_SUB a b =? 0) = (a =? b).
Proof. intros Ha Hb. destruct l; cbn in *; unfold cop, i64, i32 in *; cbn in *; zlia. Qed.

Lemma code_runs_weaken g g' cl s (Q Q' : rv -> Prop) : code_runs g g' cl s Q -> (forall s', rv_ok s' -> Q s' -> Q' s') -> code_runs g g' cl s Q'.
Proof.
  intros (ws & E & H) HQ. exists ws. split; [done|]. intros at_ Hat. destruct (H at_ Hat) as (s' & ? & ? & ? & ? & ?).
  exists s'. split_and!; auto.
Qed.

End ops.

