(* ===== verification/RvGenJump.v ===== *)
(** Pending comparisons, branches and jump lists of the RISC-V back end, run on the emulator. *)
From S2P Require Import Prelude Rv64State Rv64Alu Rv64Float Rv64Exec Rv64Inv RiscvLink RvGen RvGenRun RvGenOk RvGenOps.

Section jump.
Context `{HF : HostFloat}.

Lemma gsets_ER f3 f7 rd a b g s : rv_ok s -> isreg rd -> rd <> 0 -> isreg a -> isreg b -> 0 <= f3 < 8 -> 0 <= f7 < 128 ->
  gsets g (ER 0x33 f3 rd a b f7 g) rd (alu_reg f3 f7 (getx s a) (getx s b)) s.
Proof.
  intros Hok Hr H0 Ha Hb Hf H7. unfold ER. eapply gsets_o; [by apply gsets_start|]. intros s' Hok' Hv Ho.
  assert (forall r, getx s' r = getx s r) as Hg by (intros r; destruct (Z.eq_dec r rd); [congruence|auto]).
  rewrite <- (Hg a), <- (Hg b). by apply sets_reg.
Qed.
Lemma gsets_ER_next f3 f7 g g1 rd v s : gsets g g1 rd v s -> isreg rd -> rd <> 0 -> 0 <= f3 < 8 -> 0 <= f7 < 128 ->
  gsets g (ER 0x33 f3 rd 0 rd f7 g1) rd (alu_reg f3 f7 0 v) s.
Proof.
  intros Hg Hr H0 Hf H7. unfold ER. eapply gsets_o; [done|]. intros s' Hok' <- Ho.
  assert (isreg 0) as Hz by (unfold isreg; lia).
  pose proof (sets_reg s' Hok' f3 f7 rd 0 rd Hf H7 Hr H0 Hz Hr) as H. by rewrite (getx0 s' Hok') in H.
Qed.

Lemma b2z_flip c : imm_val 4 1 (Z.b2z c) = Z.b2z (negb c).
Proof. by destruct c. Qed.
Lemma slt_val op x y : alu_reg (if TOK_UGT <? op then 2 else 3) 0 x y = Z.b2z (if TOK_UGT <? op then i64 x <? i64 y else x <? y).
Proof. by destruct (TOK_UGT <? op). Qed.

(** The value of a pending comparison in a register. *)
Lemma load_cmp_ok rr op a b g s : rv_ok s -> isreg rr -> rr <> 0 -> isreg a -> isreg b -> is_cmp op = true ->
  exists g', load_cmp rr op a b g = Some g' /\ gsets g g' rr (Z.b2z (cmp_true op (getx s a) (getx s b))) s.
Proof.
  intros Hok Hr H0 Ha Hb Hop. pose proof (rv_x s a Hok) as Bx. pose proof (rv_x s b Hok) as By.
  assert (holds true (getx s a) (i64 (getx s a)) /\ holds true (getx s b) (i64 (getx s b))) as [Hx Hy].
  { split; (split; [by rewrite u64_i64, u64_small|apply i64_small, i64_bound]). }
  destruct ((op =? TOK_NE) || (op =? TOK_EQ)) eqn:En.
  - unfold load_cmp. rewrite En.
    assert (exists g1 d, (if negb (rr =? a) || negb (b =? 0) then ER 0x33 0 rr a b 0x20 g else g) = g1 /\ gsets g g1 rr d s /\
      isu64 d /\ (d =? 0) = cmp_true TOK_EQ (getx s a) (getx s b)) as (g1 & dv & -> & Hg & Bd & Hz).
    { destruct (negb (rr =? a) || negb (b =? 0)) eqn:E.
      - eexists _, _. split; [done|]. split; [apply gsets_ER; done || lia|]. unfold alu_reg. cbn.
        change (tst 32 32) with true. cbn iota. split; [apply u64_bound|]. unfold cmp_true, ccmp. cbn. unfold u64, i64. zlia.
      - apply orb_false_iff in E as [->%negb_false_iff%Z.eqb_eq ->%negb_false_iff%Z.eqb_eq].
        exists g, (getx s a). split; [done|]. split; [by apply gsets_start|]. split; [done|]. rewrite (getx0 s Hok).
        unfold cmp_true, ccmp. cbn. unfold i64. zlia. }
    destruct (Z.eqb_spec op TOK_NE) as [->|Hne].
    + eexists. split; [done|]. replace (Z.b2z _) with (alu_reg 3 0 0 dv); [apply gsets_ER_next; done || lia|].
      change (alu_reg 3 0 0 dv) with (Z.b2z (0 <? dv)). change (cmp_true TOK_NE ?x ?y) with (negb (cmp_true TOK_EQ x y)). rewrite <- Hz. f_equal. lia.
    + cbn in En. apply Z.eqb_eq in En as ->. destruct (gsets_EI 3 1 _ _ _ _ _ Hg) as (g2 & E & H2); [done..|lia|lia|].
      exists g2. split; [done|]. rewrite <- Hz. replace (Z.b2z (dv =? 0)) with (imm_val 3 1 dv); [done|].
      change (imm_val 3 1 dv) with (Z.b2z (dv <? 1)). f_equal. lia.
  - assert (forall (inv : bool) a' b' op', isreg a' -> isreg b' ->
      cmp_true op (getx s a) (getx s b) =
        xorb inv (if TOK_UGT <? op' then i64 (getx s a') <? i64 (getx s b') else getx s a' <? getx s b') ->
      exists g', (let g := ER 0x33 (if TOK_UGT <? op' then 2 else 3) rr a' b' 0 g in
        if negb (Z.b2z inv =? 0) then EI 0x13 4 rr rr 1 g else Some g) = Some g' /\
        gsets g g' rr (Z.b2z (cmp_true op (getx s a) (getx s b))) s) as Hfin.
    { intros inv a' b' op' Ha' Hb' ->. cbv zeta.
      assert (gsets g (ER 0x33 (if TOK_UGT <? op' then 2 else 3) rr a' b' 0 g) rr
        (Z.b2z (if TOK_UGT <? op' then i64 (getx s a') <? i64 (getx s b') else getx s a' <? getx s b')) s) as H1.
      { rewrite <- slt_val. apply gsets_ER; try done; destruct (TOK_UGT <? op'); lia. }
      destruct inv; cbn [Z.b2z Z.eqb negb]; rewrite ?xorb_true_l, ?xorb_false_l.
      - destruct (gsets_EI 4 1 _ _ _ _ _ H1) as (g2 & E & H2); [done..|lia|lia|]. exists g2. split; [done|]. by rewrite <- b2z_flip.
      - eexists. by split. }
    unfold is_cmp in Hop. apply existsb_exists in Hop as (op' & Hin & ->%Z.eqb_eq).
    assert (getx s a = u64 (i64 (getx s a)) /\ getx s b = u64 (i64 (getx s b))) as [Ex Ey] by (split; by rewrite u64_i64, u64_small).
    assert (us true (i64 (getx s a)) = getx s a /\ us true (i64 (getx s b)) = getx s b) as [Ux Uy] by done.
    unfold load_cmp. rewrite En.
    repeat (destruct Hin as [<-|Hin]; [try discriminate En|]); [..|destruct Hin].
  1: apply (Hfin false a b TOK_ULT).  4: apply (Hfin true a b TOK_ULT). 7: apply (Hfin true b a TOK_ULE). 10: apply (Hfin false b a TOK_ULE).
    13: apply (Hfin false a b TOK_LT). 16: apply (Hfin true a b TOK_LT). 19: apply (Hfin true b a TOK_LE). 22: apply (Hfin false b a TOK_LE).
    all: try done; unfold cmp_true, ccmp; rewrite ?Ux, ?Uy; cbn [Z.eqb Pos.eqb TOK_ULT TOK_UGE TOK_EQ TOK_NE TOK_ULE TOK_UGT TOK_LT TOK_GE TOK_LE TOK_GT].
  all: match goal with |- context [if ?c then _ else _] => let t := eval vm_compute in c in change c with t end; cbn iota; rewrite ?xorb_true_l, ?xorb_false_l; lia.
Qed.

(** ** Branches *)

(** The branch of [gjmp_cond] skips the next instruction when [f3]'s condition holds. *)
Lemma skip_word f3 a b : 0 <= f3 < 8 -> isreg a -> isreg b ->
  Z.lor (Z.lor (Z.lor (Z.lor 0x63 (Z.shiftl f3 12)) (Z.shiftl a 15)) (Z.shiftl b 20)) (Z.shiftl 8 7) = fields 0x63 8 f3 a b.
Proof.
  unfold isreg. intros Hf Ha Hb.
  replace (Z.lor (Z.lor (Z.lor (Z.lor 99 (Z.shiftl f3 12)) (Z.shiftl a 15)) (Z.shiftl b 20)) (Z.shiftl 8 7))
    with (Z.lor (Z.lor (Z.lor (Z.lor 99 (Z.shiftl 8 7)) (Z.shiftl f3 12)) (Z.shiftl a 15)) (Z.shiftl b 20)).
  2:{ apply Z.bits_inj'. intros i Hi. rewrite !Z.lor_spec.
      repeat match goal with |- context [Z.testbit ?x i] => generalize (Z.testbit x i); intros end.
      by repeat match goal with x : bool |- _ => destruct x end. }
  rewrite !Z.shiftl_mul_pow2 by lia. change (2 ^ 7) with 128. change (2 ^ 12) with 4096. change (2 ^ 15) with 32768. change (2 ^ 20) with 1048576.
  change (Z.lor 99 (8 * 128)) with (99 + 8 * 128).
  rewrite (lor_field _ f3 12) by (done || lia). rewrite (lor_field _ a 15) by (done || lia). rewrite (lor_field _ b 20) by (done || lia). done.
Qed.
Lemma skip_imm f3 a b : 0 <= f3 < 8 -> isreg a -> isreg b -> imm_b (fields 0x63 8 f3 a b) = 8.
Proof.
  unfold isreg, imm_b. intros Hf Ha Hb. set (w := fields _ _ _ _ _).
  assert (w = 99 + 8 * 128 + f3 * 4096 + a * 32768 + b * 1048576) as Hw by done. clearbody w.
  assert (i32 w = w) as -> by (apply i32_small; lia).
  rewrite !Z.shiftr_div_pow2 by lia. change (2 ^ 8) with 256. change (2 ^ 25) with 33554432. change (2 ^ 7) with 128. change (2 ^ 31) with 2147483648.
  rewrite (land_mask _ 15 4), (land_mask _ 63 6), (land_mask _ 1 1) by done.
  change (2 ^ 4) with 16. change (2 ^ 6) with 64. change (2 ^ 1) with 2.
  assert (w / 256 mod 16 = 4 /\ w / 33554432 mod 64 = 0 /\ w / 128 mod 2 = 0 /\ w / 2147483648 = 0) as (-> & -> & -> & ->); [|done].
  split_and!; zlia.
Qed.
Definition skip_op (op : Z) (a b : Z) : Z * Z * Z :=
  if op =? TOK_ULT then (6, a, b) else if op =? TOK_UGE then (7, a, b)
  else if op =? TOK_ULE then (7, b, a) else if op =? TOK_UGT then (6, b, a)
  else if op =? TOK_LT then (4, a, b) else if op =? TOK_GE then (5, a, b)
  else if op =? TOK_LE then (5, b, a) else if op =? TOK_GT then (4, b, a)
  else if op =? TOK_NE then (1, a, b) else (0, a, b).

(** The pending comparison as a conditional jump: its two words. *)
Lemma gjmp_cond_ok op a b t g s : rv_ok s -> isreg a -> isreg b -> is_cmp op = true -> nocode_wanted g = false ->
  exists w, gjmp_cond op a b t g = (ind g + 4, emit [w; u32 t] g) /\
    forall at_, execute w at_ s = (u64 (at_ + (if cmp_true op (getx s a) (getx s b) then 4 else 8)), setx 0 0 s).
Proof.
  intros Hok Ha Hb Hop Hn. pose proof (rv_x s a Hok) as Bx. pose proof (rv_x s b Hok) as By.
  assert (exists f3 a' b', isreg a' /\ isreg b' /\ 0 <= f3 < 8 /\ f3 <> 2 /\ f3 <> 3 /\
    gjmp_cond op a b t g = gjmp t (o (Z.lor (Z.lor (Z.lor (Z.lor 0x63 (Z.shiftl f3 12)) (Z.shiftl a' 15)) (Z.shiftl b' 20)) (Z.shiftl 8 7)) g) /\
    branch_taken f3 (getx s a') (getx s b') = negb (cmp_true op (getx s a) (getx s b))) as (f3 & a' & b' & Ha' & Hb' & Hf & H2 & H3 & -> & Ht).
  { assert (us true (i64 (getx s a)) = getx s a /\ us true (i64 (getx s b)) = getx s b) as [Ux Uy].
    { cbn [us]. by rewrite !u64_i64, !u64_small. }
    unfold is_cmp in Hop. apply existsb_exists in Hop as (op' & Hin & ->%Z.eqb_eq).
    unfold cmp_true, ccmp. rewrite Ux, Uy.
    repeat (destruct Hin as [<-|Hin]; [cbn [Z.eqb Pos.eqb TOK_ULT TOK_UGE TOK_EQ TOK_NE TOK_ULE TOK_UGT TOK_LT TOK_GE TOK_LE TOK_GT]|]); [..|destruct Hin].
    1: exists 7, a, b. 2: exists 6, a, b. 3: exists 1, a, b. 4: exists 0, a, b. 5: exists 6, b, a. 6: exists 7, b, a.
    7: exists 5, a, b. 8: exists 4, a, b. 9: exists 4, b, a. 10: exists 5, b, a.
    all: split_and!; try done; unfold branch_taken; cbn [Z.eqb Pos.eqb andb orb]; rewrite ?orb_false_r; unfold i64; zlia. }
  unfold gjmp. set (w := Z.lor _ (Z.shiftl 8 7)). exists w. cbn [emit fold_left]. rewrite (o_code w g Hn). cbn [nocode_wanted]. split.
  { rewrite (o_code (u32 t) (Gen _ _ false) eq_refl). cbn. by rewrite Z.add_simpl_r. }
  intros at_. unfold w. rewrite skip_word by done. assert (0 <= 99 < 128) by lia. assert (isreg 8) by (unfold isreg; lia).
  assert (0 <= b' < 4096) by (unfold isreg in *; lia).
  unfold execute. rewrite fields_op by done.
  match goal with |- _ = ?r => change (exec_branch (fields 99 8 f3 a' b') at_ s = r) end.
  unfold exec_branch. rewrite fields_f3, fields_rs1, fields_rs2 by done. rewrite (Z.mod_small b' 32), Ht, skip_imm by done.
  destruct (cmp_true op _ _); cbn [negb]; [|done].
  destruct (Z.eqb_spec f3 2); [done|]. by destruct (Z.eqb_spec f3 3).
Qed.

(** ** Jumps *)

Lemma jal_exec r at_ s : isu32 r -> Z.Even r ->
  execute (Z.lor 0x6f (jmp_imm r)) at_ s = (u64 (at_ + sext21 r), setx 0 0 s).
Proof.
  intros Hr He. change (jmp_imm r) with (j_field r). change 0x6f with (Z.land 0x6f 0xfff) at 1.
  assert (isu32 0x6f) as Hw by lia.
  assert (forall i, 0 <= i < 12 -> Z.testbit (j_field r) i = false) as Hlow.
  { intros i Hi. unfold j_field. rewrite !Z.lor_spec.
    rewrite !Z.shiftl_spec by lia. rewrite !Z.testbit_neg_r by lia. done. }
  destruct (low_keeps 0x6f (j_field r) Hw Hlow) as [Ho Hd].
  assert (imm_j (Z.lor (Z.land 0x6f 0xfff) (j_field r)) = sext21 r) as Hi.
  { assert (forall i, 0 <= i < 21 -> Z.testbit r i = Z.testbit (sext21 r) i) as Hs.
    { intros i Hi. rewrite <- (Z.mod_pow2_bits_low r 21), <- (Z.mod_pow2_bits_low (sext21 _) 21) by lia.
      f_equal. unfold sext21. change (2 ^ 21) with 2097152. zlia. }
    apply imm_j_bits; [done|unfold sext21; zlia|done|]. rewrite <- Hs by lia. by apply even_bit0. }
  unfold execute. rewrite Ho, Hd, Hi. done.
Qed.
Lemma nop_exec at_ s : execute 0x33 at_ s = (u64 (at_ + 4), setx 0 0 s).
Proof. done. Qed.

(** The word [gsym_addr] writes for a jump at [t] to [a]. *)
Definition jump_word (t a : Z) : Z := let r := u32 (a - t) in if r =? 4 then 0x33 else Z.lor 0x6f (jmp_imm r).
Lemma jump_word_lands t a base s : Z.Even (a - t) -> -1048576 <= a - t < 1048576 ->
  execute (jump_word t a) (base + t) s = (u64 (base + a), setx 0 0 s).
Proof.
  intros [k He] Hr. unfold jump_word. destruct (Z.eqb_spec (u32 (a - t)) 4) as [E|E].
  - rewrite nop_exec. do 2 f_equal. unfold u32 in E. zlia.
  - rewrite jal_exec; [|apply u32_bound|].
    + do 2 f_equal. unfold sext21, u32. zlia.
    + exists (u32 (a - t) / 2). unfold u32. zlia.
Qed.
(** Bit 0 and the bits from 22 on. *)
Lemma mask22_bit i : 0 <= i -> Z.testbit (4294967295 - 4194302) i = (i =? 0) || ((22 <=? i) && (i <? 32)).
Proof.
  intros Hi. change (4294967295 - 4194302) with (Z.lor 1 (Z.shiftl (Z.ones 10) 22)).
  rewrite Z.lor_spec. change 1 with (2 ^ 0). rewrite Z.pow2_bits_eqb, (Z.eqb_sym 0 i) by lia. f_equal.
  destruct (Z.leb_spec 22 i); [|by rewrite Z.shiftl_spec_low by lia].
  rewrite Z.shiftl_spec, Z.testbit_ones by lia. destruct (Z.leb_spec 0 (i - 22)); [|lia]. cbn [andb]. lia.
Qed.
Lemma jmp_range_iff r : Z.Even r -> jmp_range (u32 r) = negb (u32 (r + 2097152) <? 4194304).
Proof.
  intros [k He]. unfold jmp_range, tst. change (Z.shiftl 1 21) with 2097152. change (not32 (Z.shiftl 1 22 - 2)) with (4294967295 - 4194302). f_equal.
  assert (u32 (u32 r + 2097152) = u32 (r + 2097152)) as -> by (unfold u32; zlia).
  pose proof (u32_bound (r + 2097152)) as Hb.
  assert (Z.testbit (u32 (r + 2097152)) 0 = false) as H0.
  { apply even_bit0. exists (u32 (r + 2097152) / 2). unfold u32. zlia. }
  generalize dependent (u32 (r + 2097152)). intros y Hb H0. destruct (Z.ltb_spec y 4194304).
  - apply Z.eqb_eq. apply Z.bits_inj'. intros i Hi. rewrite Z.land_spec, Z.bits_0, mask22_bit by done.
    destruct (Z.eqb_spec i 0) as [->|]; [by rewrite H0|]. destruct (Z.leb_spec 22 i); [|apply andb_false_r].
    by rewrite (testbit_high y 22) by lia.
  - apply Z.eqb_neq. intros E. pose proof (Z.bit_log2 y ltac:(lia)) as Hl.
    assert (22 <= Z.log2 y < 32) as Hr by (split; [apply (Z.log2_le_pow2 y 22); lia|apply Z.log2_lt_pow2; lia]).
    assert (Z.testbit (Z.land y (4294967295 - 4194302)) (Z.log2 y) = false) as Hf by (by rewrite E, Z.bits_0).
    rewrite Z.land_spec, Hl, mask22_bit in Hf by lia. lia.
Qed.
Lemma jmp_range_near r : -1048576 <= r < 1048576 -> Z.Even r -> jmp_range (u32 r) = false.
Proof. intros. rewrite jmp_range_iff by done. unfold u32. zlia. Qed.

Lemma land_not1 y : isu64 y -> Z.Even y -> Z.land y (not64 1) = y.
Proof.
  intros Hy He. apply Z.bits_inj'. intros i Hi. rewrite Z.land_spec. change 1 with (2 ^ 0).
  rewrite testbit_not64_pow2 by lia. destruct (Z.eqb_spec i 0) as [->|]; [by rewrite even_bit0|].
  destruct (Z.ltb_spec i 64); [apply andb_true_r|]. by rewrite (testbit_high y 64) by lia.
Qed.

(** ** Jump lists *)

(** The list of pending jumps starting at [t]: each word holds the position of the next. *)
Inductive chain (m : gmap Z Z) : Z -> list Z -> Prop :=
| chain_nil : chain m 0 []
| chain_cons t ps : t <> 0 -> 0 <= t < 2147483648 -> chain m (read32le m t) ps -> chain m t (t :: ps).
(** Positions of distinct words. *)
Definition apart (p q : Z) : Prop := p + 4 <= q \/ q + 4 <= p.
Inductive all_apart : list Z -> Prop :=
| apart_nil : all_apart []
| apart_cons p ps : Forall (apart p) ps -> all_apart ps -> all_apart (p :: ps).

Lemma chain_write m t ps p w : chain m t ps -> Forall (apart p) ps -> chain (write32le p w m) t ps.
Proof.
  induction 1 as [|t ps Ht Hb Hc IH]; intros Hp; inversion_clear Hp as [|x y Ha Hr]; constructor; [done..|].
  rewrite (read32_ext _ _ m); [by apply IH|]. intros a Haa. apply write32_other. unfold apart in Ha. lia.
Qed.

Lemma gsym_addr_ok fuel t a m ps : chain m t ps -> all_apart ps -> (length ps <= fuel)%nat ->
  Forall (fun p => Z.Even (a - p) /\ -1048576 <= a - p < 1048576) ps ->
  exists m', gsym_addr fuel t a m = Some m' /\ (forall p, In p ps -> read32le m' p = u32 (jump_word p a)) /\
    (forall x, Forall (fun p => ~ (p <= x < p + 4)) ps -> aget m' x = aget m x).
Proof.
  revert t m ps. induction fuel as [|fuel IH]; intros t m ps Hc Hap Hl Hr.
  - inversion Hc; subst; [|cbn in Hl; lia]. exists m. split_and!; done.
  - inversion Hc as [|t' ps' Ht Hb Hc']; subst; [exists m; split_and!; done|].
    inversion_clear Hap as [|? ? Hap1 Hap2]. inversion_clear Hr as [|? ? [He Hn] Hr2]. cbn [gsym_addr].
    destruct (Z.eqb_spec t 0); [done|]. rewrite jmp_range_near by done.
    fold (jump_word t a). set (m1 := write32le t (jump_word t a) m).
    destruct (IH (read32le m t) m1 ps') as (m' & E & Hw & Ho); [by apply chain_write|done|cbn in Hl; lia|done|].
    exists m'. split; [exact E|]. split.
    + intros p [<-|Hin]; [|by apply Hw]. rewrite (read32_ext _ _ m1); [apply read32_write32|].
      intros z Hz. apply Ho. apply Forall_forall. intros q Hq. rewrite Forall_forall in Hap1. specialize (Hap1 q Hq). unfold apart in Hap1. lia.
    + intros z Hx. apply Forall_cons_1 in Hx as [Hx1 Hx2]. rewrite Ho by done. by apply write32_other.
Qed.

Lemma chain_end_ok m n ps qs t : chain m n ps -> ps <> [] -> chain m t qs -> all_apart (ps ++ qs) -> 0 <= t < 2147483648 ->
  exists p, In p ps /\ (forall fuel, (length ps <= fuel)%nat -> chain_end fuel m n = Some p) /\
    chain (write32le p (u32 t) m) n (ps ++ qs).
Proof.
  intros Hc. induction Hc as [|n ps Hn Hb Hc IH]; [done|]. intros _ Hq Hap Ht. cbn [app] in Hap. inversion_clear Hap as [|? ? Ha1 Ha2].
  destruct (Z.eq_dec (read32le m n) 0) as [E|E].
  - assert (ps = []) as -> by (rewrite E in Hc; inversion Hc; subst; done). exists n. split; [by left|]. split.
    + intros [|fuel] Hf; [cbn in Hf; lia|]. cbn. by rewrite E.
    + constructor; [done|done|]. rewrite read32_write32, (u32_small (u32 t)) by apply u32_bound. rewrite u32_small by lia.
      by apply chain_write.
  - destruct IH as (p & Hin & He & Hch); [intros ->; inversion Hc; congruence|done|done|done|].
    exists p. split; [by right|]. split.
    + intros [|fuel] Hf; [cbn in Hf; lia|]. cbn [chain_end]. apply Z.eqb_neq in E. rewrite E. apply He. cbn in Hf. lia.
    + constructor; [done|done|]. rewrite (read32_ext _ _ m); [done|]. intros z Hz. apply write32_other.
      rewrite Forall_forall in Ha1. specialize (Ha1 p). unfold apart in Ha1.
      assert (p ∈ ps ++ qs) as Hp by (apply elem_of_app; left; by apply list_elem_of_In). specialize (Ha1 Hp). lia.
Qed.

(** pending jumps.  [gjmp_append] joins two jump lists and [gsym_addr] patches every jump of a list,
    so that each of them, executed by the emulator, goes to the label, with no other byte of the
    section changed; forward distances up to 2^20 either way, and enough fuel is the length of the list. *)
Theorem jump_list_correct fuel n t a m ps qs :
  chain m n ps -> chain m t qs -> all_apart (ps ++ qs) -> (length (ps ++ qs) <= fuel)%nat -> 0 <= t < 2147483648 ->
  Forall (fun p => Z.Even (a - p) /\ -1048576 <= a - p < 1048576) (ps ++ qs) ->
  exists h m1 m2, gjmp_append fuel n t m = Some (h, m1) /\ gsym_addr fuel h a m1 = Some m2 /\
    (forall p, In p (ps ++ qs) -> forall base s, execute (read32le m2 p) (base + p) s = (u64 (base + a), setx 0 0 s)) /\
    (forall x, Forall (fun p => ~ (p <= x < p + 4)) (ps ++ qs) -> aget m2 x = aget m x).
Proof.
  intros Hp Hq Hap Hf Ht Hr.
  assert (exists h m1, gjmp_append fuel n t m = Some (h, m1) /\ chain m1 h (ps ++ qs) /\
    (forall x, Forall (fun p => ~ (p <= x < p + 4)) (ps ++ qs) -> aget m1 x = aget m x)) as (h & m1 & E1 & Hc & Hu).
  { unfold gjmp_append. inversion Hp as [|n' ps' Hn Hb Hc']; subst.
    - exists t, m. by split_and!.
    - destruct (Z.eqb_spec n 0); [done|]. cbn [negb]. rewrite (u32_small n) by lia.
      destruct (chain_end_ok m n (n :: ps') qs t) as (p & Hin & He & Hch); [done..|].
      rewrite He by (rewrite length_app in Hf; lia). exists n, (write32le p (u32 t) m). split_and!; [done|done|].
      intros z Hz. apply write32_other. rewrite Forall_forall in Hz. apply Hz. apply elem_of_app. left. by apply list_elem_of_In. }
  destruct (gsym_addr_ok fuel h a m1 (ps ++ qs)) as (m2 & E2 & Hw & Ho); [done..|].
  exists h, m1, m2. split_and!; [done|done| |].
  - intros p Hin base s. rewrite Hw by done. rewrite Forall_forall in Hr. destruct (Hr p) as [He Hn]; [by apply list_elem_of_In|].
    rewrite u32_small; [by apply jump_word_lands|]. unfold jump_word. case (_ =? 4); [lia|].
    apply lor_bound with (n := 32); [lia|lia|]. apply j_field_bound.
  - intros x Hx. by rewrite Ho, Hu.
Qed.

(** C32: a pending comparison is consumed correctly.  [load] turns it into 0 or 1 in the register asked
    for; [gjmp_cond] emits a branch and a jump slot: execution reaches the slot exactly when the
    comparison holds, and skips it otherwise, with every register kept. *)
Theorem pending_comparison_correct rr op a b t g s :
  nocode_wanted g = false -> rv_ok s -> isreg rr -> rr <> 0 -> isreg a -> isreg b -> is_cmp op = true ->
  (exists g', load_cmp rr op a b g = Some g' /\ gsets g g' rr (Z.b2z (cmp_true op (getx s a) (getx s b))) s) /\
  (exists w, gjmp_cond op a b t g = (ind g + 4, emit [w; u32 t] g) /\
    forall at_, execute w at_ s = (u64 (at_ + (if cmp_true op (getx s a) (getx s b) then 4 else 8)), setx 0 0 s)).
Proof. intros. split; [by apply load_cmp_ok|by apply gjmp_cond_ok]. Qed.

(** [gjmp_addr] beyond 2 MB uses [auipc]/[jalr] through [t0] and reaches its target; nearer it uses
    one [jal], which reaches the target when the distance is below 1 MB, and 2 MB off it otherwise:
    the test accepts twice the range [jal] encodes. *)
Theorem gjmp_addr_correct a base g s :
  nocode_wanted g = false -> rv_ok s -> Z.Even (a - ind g) -> Z.Even (base + a) -> -2147481600 <= a - ind g < 2147481600 -> isu64 (base + ind g) ->
  let d := a - ind g in
  exists ws, gjmp_addr a g = Some (emit ws g) /\
    if bool_decide (-2097152 <= d < 2097152) then
      exists w, ws = [w] /\ execute w (base + ind g) s = (u64 (base + ind g + sext21 d), setx 0 0 s) /\
        (u64 (base + ind g + sext21 d) = u64 (base + a) <-> -1048576 <= d < 1048576)
    else
      exists w1 w2 s1 s2, ws = [w1; w2] /\ execute w1 (base + ind g) s = (u64 (base + ind g + 4), s1) /\
        execute w2 (u64 (base + ind g + 4)) s1 = (u64 (base + a), s2) /\ forall r, r <> 5 -> getx s2 r = getx s r.
Proof.
  intros Hn Hok He Hev Hd Hb d. unfold gjmp_addr. fold d.
  rewrite jmp_range_iff by done.
  case_bool_decide as Hnear.
  - assert (u32 (d + 2097152) <? 4194304 = true) as -> by (unfold u32; zlia). cbn [negb].
    set (w := Z.lor 0x6f (jmp_imm (u32 d))). exists [w]. split; [done|]. exists w. split_and!; [done| |].
    + unfold w. rewrite jal_exec; [|apply u32_bound|].
      * do 2 f_equal. unfold sext21, u32. zlia.
      * destruct He as [k He]. exists (u32 d / 2). unfold u32. fold d in He. zlia.
    + destruct He as [k He]. unfold d, sext21, u64. zlia.
  - assert (u32 (d + 2097152) <? 4194304 = false) as -> by (unfold u32; zlia). cbn [negb].
    assert (Z.lor (Z.lor 0x17 (Z.shiftl 5 7)) (Z.land (u32 (u32 d + 0x800)) 0xfffff000) = Z.lor (Z.lor 0x17 (RV_RD 5)) (hi_part (d + 2048))) as ->.
    { unfold hi_part. do 2 f_equal. unfold u32. zlia. }
    rewrite sx_val by lia. change (2 ^ (12 - 1)) with 2048. change (2 ^ 12) with 4096.
    assert ((i32 (u32 d) + 2048) mod 4096 - 2048 = lo12 d) as -> by (unfold lo12, i32, u32; zlia).
    assert (-2048 <= lo12 d < 2048) as Hlo by (unfold lo12; zlia).
    unfold EI. rewrite imm_fits_small by done. eexists [_; _]. split; [done|].
    assert (isreg 5) as H5 by (unfold isreg; lia).
    eexists _, _, _, _. split; [done|]. split; [by apply exec_auipc|]. split.
    + rewrite exec_jalr by done. f_equal.
      rewrite getx_wr by (done || by apply getx0). cbn [Z.eqb Pos.eqb]. rewrite lo12_u32, (lo12_small (lo12 d)) by done.
      assert (u64 (u64 (base + ind g + i32 (hi_part (d + 2048))) + lo12 d) = u64 (base + a)) as ->.
      { rewrite u64_add_l, hi_part_val. unfold u64, i32, u32, lo12. replace (base + a) with (base + ind g + d) by (unfold d; lia).
        fold d in Hd. clearbody d. f_equal. clear - Hd. zlia. }
      rewrite land_not1; [done|apply u64_bound|]. destruct Hev as [k Hk]. exists (u64 (base + a) / 2). unfold u64. zlia.
    + intros r Hr. unfold getx, setx. cbn [xreg]. change (aget (aset (xreg (wreg 5 (u64 (base + ind g + i32 (hi_part (d + 2048)))) s)) 0 0) r = getx s r).
      rewrite aget_aset. case_decide as H0r; [subst r; symmetry; by apply getx0|].
      change (getx (wreg 5 (u64 (base + ind g + i32 (hi_part (d + 2048)))) s) r = getx s r).
      rewrite getx_wr by (done || by apply getx0). by destruct (Z.eqb_spec r 5).
Qed.
End jump.

Lemma jump_list_correct_witness :
  exists h m1 m2, gjmp_append 4 16 0 (write32le 16 8 (write32le 8 0 ∅)) = Some (h, m1) /\ gsym_addr 4 h 64 m1 = Some m2 /\
    (forall p, In p ([16; 8] ++ []) -> forall base s, execute (HF := plain_host) (read32le m2 p) (base + p) s = (u64 (base + 64), setx 0 0 s)) /\
    (forall x, Forall (fun p => ~ (p <= x < p + 4)) ([16; 8] ++ []) -> aget m2 x = aget (write32le 16 8 (write32le 8 0 ∅)) x).
Proof.
  apply (jump_list_correct (HF := plain_host) 4 16 0 64 _ [16; 8] []).
  - repeat (constructor; [lia|lia|]). vm_compute (read32le _ _). constructor.
  - constructor.
  - cbn [app]. apply apart_cons; [apply Forall_cons; split; [right; lia|by apply Forall_nil]|apply apart_cons; [by apply Forall_nil|constructor]].
  - cbn. lia.
  - lia.
  - cbn [app]. apply Forall_cons; split; [split; [by exists 24|lia]|]. apply Forall_cons; split; [split; [by exists 28|lia]|]. by apply Forall_nil.
Defined.
Lemma pending_comparison_correct_witness :
  (exists g', load_cmp 12 TOK_LT 10 11 (Gen ∅ 0 false) = Some g' /\ gsets (HF := plain_host) (Gen ∅ 0 false) g' 12 1 (setx 11 7 rv_bss)) /\
  (exists w, gjmp_cond TOK_LT 10 11 0 (Gen ∅ 0 false) = (4, emit [w; u32 0] (Gen ∅ 0 false)) /\
    forall at_, execute (HF := plain_host) w at_ (setx 11 7 rv_bss) = (u64 (at_ + 4), setx 0 0 (setx 11 7 rv_bss))).
Proof.
  exact (pending_comparison_correct (HF := plain_host) 12 TOK_LT 10 11 0 (Gen ∅ 0 false) (setx 11 7 rv_bss) eq_refl
    (ok_setx 11 7 rv_bss ltac:(lia) ltac:(lia) rv_bss_ok) ltac:(unfold isreg; lia) ltac:(lia) ltac:(unfold isreg; lia) ltac:(unfold isreg; lia) eq_refl).
Defined.
Lemma gjmp_addr_correct_witness :
  exists ws, gjmp_addr 0x400000 (Gen ∅ 0 false) = Some (emit ws (Gen ∅ 0 false)) /\
    exists w1 w2 s1 s2, ws = [w1; w2] /\ execute (HF := plain_host) w1 (0x80000000 + 0) rv_bss = (u64 (0x80000000 + 0 + 4), s1) /\
      execute (HF := plain_host) w2 (u64 (0x80000000 + 0 + 4)) s1 = (u64 (0x80000000 + 0x400000), s2) /\ forall r, r <> 5 -> getx s2 r = getx rv_bss r.
Proof.
  apply (gjmp_addr_correct (HF := plain_host) 0x400000 0x80000000 (Gen ∅ 0 false) rv_bss);
    [done|exact rv_bss_ok|by exists 0x200000|by exists 0x40200000|cbn; lia|cbn; lia].
Defined.
