(* ===== verification/RvGenAddr.v ===== *)
(** Addresses of lvalues in the RISC-V back end ([load], [store], [load_symofs]). *)
From S2P Require Import Prelude Rv64State Rv64Alu Rv64Float Rv64Exec Rv64Inv RiscvLink RvGen RvGenRun RvGenOk RvGenOps.

Section addr.
Context `{HF : HostFloat}.

Lemma ireg_range r v : ireg r = Some v -> isreg v /\ v <> 0 /\ v <> 8.
Proof.
  unfold ireg, isreg. destruct (r =? TREG_RA); [intros [= <-]; lia|]. destruct (r =? TREG_SP); [intros [= <-]; lia|].
  destruct ((0 <=? r) && (r <? 8)) eqn:E; [|done]. intros [= <-]. lia.
Qed.
Lemma shiftl7 r : isreg r -> Z.shiftl r 7 = RV_RD r.
Proof. intros H. rewrite rd_val by done. by rewrite Z.shiftl_mul_pow2. Qed.

Lemma gsets_add g g1 rd b v s : gsets g g1 rd v s -> isreg rd -> rd <> 0 -> isreg b -> b <> rd ->
  gsets g (ER 0x33 0 rd rd b 0 g1) rd (u64 (v + getx s b)) s.
Proof.
  intros Hg Hr H0 Hb Hne. unfold ER. eapply gsets_o; [done|]. intros s' Hok <- Ho. rewrite <- (Ho b Hne).
  apply (sets_reg s' Hok 0 0 rd rd b); try done.
Qed.

(** A local at offset [c] from the frame pointer: the base register and the remaining offset. *)
Lemma load_symofs_ok r rr c g s : rv_ok s -> (if is_ireg r then ireg r else Some 5) = Some rr ->
  -2147483648 <= c < 2147481600 ->
  exists br off g', load_symofs r c g = Some (br, off, g') /\ isreg br /\ -2048 <= off < 2048 /\
    code_runs g g' [rr] s (fun s' => u64 (getx s' br + off) = u64 (getx s 8 + c)).
Proof.
  intros Hok Hrr Hc. assert (i32 c = c) as Hi by (apply i32_small; lia). unfold load_symofs. rewrite Hi, Z.eqb_refl. cbn [negb].
  destruct (imm_fits c) eqn:Ef; cbn [negb].
  - apply imm_fits_int in Ef; [|lia]. exists 8, c, g. split_and!; [done|unfold isreg; lia..|]. by apply code_runs_nil.
  - assert (isreg rr /\ rr <> 0 /\ rr <> 8) as (Hr & H0 & H8).
    { destruct (is_ireg r); [by eapply ireg_range|]. injection Hrr as <-. unfold isreg. lia. }
    rewrite Hrr. cbn [mbind option_bind]. rewrite shiftl7, (Z.add_comm 2048) by done. fold (hi_part (c + 2048)).
    assert (sx 12 c = lo12 c) as -> by (by rewrite sx_val by lia).
    eexists rr, _, _. split; [done|]. split; [done|]. split; [unfold lo12; zlia|].
    assert (isreg 8) as H8r by (unfold isreg; lia).
    pose proof (gsets_add _ _ _ 8 _ _ (gsets_lui (c + 2048) g g rr _ s (gsets_start g rr s Hok) Hr H0) Hr H0 H8r ltac:(lia)) as H.
    eapply code_runs_sets; [exact H|by left|]. intros s' _ Hx. rewrite Hx, Z.eqb_refl. rewrite !u64_add_l.
    destruct (lui_addi c ltac:(lia)) as (k & Hk & Hv & Hkz & _). rewrite (i32_small c) in Hv, Hkz by lia.
    destruct (Z.eq_dec k 0) as [->|Hn]; [|specialize (Hkz Hn); lia]. rewrite u64_add_l in Hv.
    unfold u64 in *. zlia.
Qed.

(** A fixed address. *)
Lemma abs_addr_ok c g s : rv_ok s -> exists g', abs_addr c g = Some g' /\ gsets g g' 5 (u32 c) s.
Proof.
  intros Hok. unfold abs_addr. assert (isreg 5) as H5 by (unfold isreg; lia).
  assert (Z.shiftr (i32 (i32 c + 2048)) 12 = i32 (c + 2048) / 4096) as ->.
  { rewrite Z.shiftr_div_pow2 by lia. change (2 ^ 12) with 4096. f_equal. unfold i32. zlia. }
  set (hi := i32 (c + 2048) / 4096).
  assert (i32 (i32 c - i32 (Z.shiftl hi 12)) = lo12 c) as ->.
  { rewrite Z.shiftl_mul_pow2 by lia. change (2 ^ 12) with 4096. unfold hi, i32, lo12. zlia. }
  assert (u32 (Z.shiftl (u32 hi) 12) = hi_part (c + 2048)) as ->.
  { rewrite hi_part_val, Z.shiftl_mul_pow2 by lia. change (2 ^ 12) with 4096. unfold hi, i32, u32. zlia. }
  rewrite shiftl7 by done. assert (-2048 <= lo12 c < 2048) as Hl by (unfold lo12; zlia).
  pose proof (gsets_lui (c + 2048) g g 5 _ s (gsets_start g 5 s Hok) H5 ltac:(lia)) as H1. set (g1 := o _ g) in *.
  assert (exists g2 v, (if negb (lo12 c =? 0) then EI 19 0 5 5 (lo12 c) g1 else Some g1) = Some g2 /\ gsets g g2 5 v s /\ u32 v = u32 c) as
    (g2 & v & -> & H2 & Hv).
  { destruct (Z.eqb_spec (lo12 c) 0) as [E|E]; cbn [negb].
    - exists g1. eexists. split; [done|]. split; [exact H1|]. rewrite hi_part_val. unfold u32, u64, i32, lo12 in *. zlia.
    - destruct (gsets_EI 0 (lo12 c) _ _ _ _ _ H1) as (g2 & E2 & H2); [done|lia|lia|done|]. exists g2. eexists. split; [done|]. split; [exact H2|].
      unfold imm_val. cbn [Z.eqb]. rewrite (lo12_small (lo12 c)), hi_part_val by done. unfold u32, u64, i32, lo12 in *. zlia. }
  cbn [mbind option_bind]. destruct (gsets_zext _ _ _ _ _ H2) as (g3 & E3 & H3); [done|lia|]. exists g3. by rewrite <- Hv.
Qed.

(** Addresses.  For a local at any frame offset below 2 GB [load_symofs] gives a base register and a
    12-bit rest whose sum is the local's address, changing only the destination or [t0]; a fixed
    address is built in [t0] zero-extended from 32 bits. *)
Theorem lvalue_address_correct r rr c g s : rv_ok s -> (if is_ireg r then ireg r else Some 5) = Some rr ->
  -2147483648 <= c < 2147481600 ->
  (exists br off g', load_symofs r c g = Some (br, off, g') /\ isreg br /\ -2048 <= off < 2048 /\
    code_runs g g' [rr] s (fun s' => u64 (getx s' br + off) = u64 (getx s 8 + c))) /\
  (exists g', abs_addr c g = Some g' /\ gsets g g' 5 (u32 c) s).
Proof. intros. split; [by apply load_symofs_ok|by apply abs_addr_ok]. Qed.

(** Loading a [double] through a pointer saved in the frame ([VT_LLOCAL]) into [fa0] fetches the
    pointer into the integer register with the same number, [a0], whatever it held. *)
Lemma spilled_pointer_clobbers g s : nocode_wanted g = false -> rv_ok s ->
  exists g1, load_lval 8 VT_DOUBLE 8 false (PLLocal (-16)) g = Some (EIu 0x07 3 10 10 0 (EIu 0x03 3 10 8 (u32 (-16)) g)) /\
    load_lval 0 VT_PTR 8 false (PLocal (-16)) g = Some g1 /\ g1 = EIu 0x03 3 10 8 (u32 (-16)) g.
Proof. intros. eexists. split; [done|]. split; reflexivity. Qed.
End addr.

Lemma lvalue_address_correct_witness :
  (exists br off g', load_symofs 3 (-5000) (Gen ∅ 0 false) = Some (br, off, g') /\ isreg br /\ -2048 <= off < 2048 /\
    code_runs (HF := plain_host) (Gen ∅ 0 false) g' [13] (setx 8 0x87fff000 rv_bss) (fun s' => u64 (getx s' br + off) = 0x87ffdc78)) /\
  (exists g', abs_addr (-5000) (Gen ∅ 0 false) = Some g' /\ gsets (HF := plain_host) (Gen ∅ 0 false) g' 5 0xffffec78 (setx 8 0x87fff000 rv_bss)).
Proof.
  apply (lvalue_address_correct (HF := plain_host) 3 13 (-5000) (Gen ∅ 0 false) (setx 8 0x87fff000 rv_bss));
    [apply ok_setx; [lia|lia|exact rv_bss_ok]|done|lia].
Defined.
