(* ===== verification/RvGenFloat.v ===== *)
(** Floating-point code of the RISC-V back end on the emulator. *)
From Stdlib Require Import SpecFloat.
From S2P Require Import Prelude Rv64State Rv64Alu Rv64Float Rv64Exec Rv64Inv RiscvLink RvGen RvGenRun RvGenOk RvGenOps RvGenJump.

Section float.
Context `{HF : HostFloat}.

(** The operand of a register: a [double], or a boxed [float] widened. *)
Definition fval (dbl : bool) (bits : Z) : spec_float := if dbl then get_f64 bits else get_f32 bits.
Definition fset (dbl : bool) (x : spec_float) : Z := if dbl then set_f64_bits x else set_f32_bits x.
Definition farith (dbl : bool) (op : Z) (x y : spec_float) : spec_float :=
  let f := if op =? T_ADD then SFadd else if op =? T_SUB then SFsub else if op =? T_MUL then SFmul else SFdiv in
  if dbl then f64_op f x y else f32_op f x y.
(** C's comparison of two [double]s: a NaN makes all but [!=] false. *)
Definition fcompare (op : Z) (x y : spec_float) : bool :=
  if op =? TOK_EQ then SFeqb x y else if op =? TOK_NE then negb (SFeqb x y)
  else if op =? TOK_LT then SFltb x y else if op =? TOK_LE then SFleb x y
  else if op =? TOK_GT then SFltb y x else SFleb y x.
Definition wide_f (dbl : bool) (x : Z) : spec_float := if dbl then get_f64 x else sf_convert 52 11 (get_f32 x).

Lemma exec_fp_word f3 f7 rd a b s at_ : 0 <= f3 < 8 -> 0 <= f7 < 128 -> isreg rd -> isreg a -> isreg b ->
  let w := rv_r 0x53 f3 f7 rd a b in
  execute w at_ s = exec_fp w at_ s /\ insn_f3 w = f3 /\ insn_f7 w = f7 /\ insn_rd w = rd /\ insn_rs1 w = a /\ insn_rs2 w = b.
Proof.
  unfold isreg. intros Hf H7 Hd Ha Hb. cbv zeta. assert (0 <= b + 32 * f7 < 4096) by lia. assert (0 <= 0x53 < 128) by lia.
  rewrite rv_r_fields by (done || lia).
  rewrite fields_f3, fields_f7, fields_rd, fields_rs1, fields_rs2 by (done || lia).
  split_and!; try done; try zlia. unfold execute. by rewrite fields_op by (done || lia).
Qed.

Lemma exec_farith op dbl rd a b s at_ : isreg rd -> isreg a -> isreg b -> In op [T_ADD; T_SUB; T_MUL; T_DIV] ->
  exists w, gen_opf op dbl rd a b = (fun g => Some (o w g)) /\
    execute w at_ s = (u64 (at_ + 4), setx 0 0 (setf rd (fset dbl (farith dbl op (fval dbl (getf s a)) (fval dbl (getf s b)))) s)).
Proof.
  intros Hd Ha Hb Hin.
  assert (forall f7 bits, fop_bits op dbl = Some bits -> bits = Z.lor (Z.lor 0x53 (u32 (Z.shiftl 7 12))) (u32 (Z.shiftl f7 25)) -> 0 <= f7 < 128 ->
    (forall x y, fp_arith f7 7 b x y = Some (fset dbl (farith dbl op (fval dbl x) (fval dbl y)))) ->
    exists w, gen_opf op dbl rd a b = (fun g => Some (o w g)) /\
    execute w at_ s = (u64 (at_ + 4), setx 0 0 (setf rd (fset dbl (farith dbl op (fval dbl (getf s a)) (fval dbl (getf s b)))) s))) as H.
  { intros f7 bits E Hbits H7 Hv. unfold gen_opf, EM. rewrite E, (em_word bits 0x53 7 f7 rd a b Hbits).
    eexists. split; [done|]. destruct (exec_fp_word 7 f7 rd a b s at_) as (-> & H3 & Hf7 & Hrd & H1 & H2); [lia|done..|].
    unfold exec_fp. by rewrite H3, Hf7, Hrd, H1, H2, Hv. }
  repeat (destruct Hin as [<-|Hin]; [destruct dbl|]); [..|destruct Hin].
  - by apply (H 1 0x02007053).
  - by apply (H 0 0x00007053).
  - by apply (H 5 0x0a007053).
  - by apply (H 4 0x08007053).
  - by apply (H 9 0x12007053).
  - by apply (H 8 0x10007053).
  - by apply (H 0x0d 0x1a007053).
  - by apply (H 0x0c 0x18007053).
Qed.

Lemma fcmp_word f7 f3 d a b g s : rv_ok s -> isreg d -> d <> 0 -> isreg a -> isreg b -> f7 = 0x50 \/ f7 = 0x51 -> 0 <= f3 <= 2 ->
  forall bits, bits = Z.lor (Z.lor 0x53 (u32 (Z.shiftl f3 12))) (u32 (Z.shiftl f7 25)) ->
  gsets g (EM bits d a b g) d (fp_compare f7 f3 (getf s a) (getf s b)) s.
Proof.
  intros Hok Hd H0 Ha Hb H7 Hf bits Hbits. unfold EM. rewrite (em_word bits 0x53 f3 f7 d a b Hbits). exists [rv_r 0x53 f3 f7 d a b].
  split; [done|]. apply sets_one; [done..| |].
  - unfold fp_compare. destruct (if f3 =? 2 then _ else _); cbn; lia.
  - intros at_. destruct (exec_fp_word f3 f7 d a b s at_) as (-> & H3 & Hf7 & Hrd & H1 & H2); [lia|lia|done..|].
    unfold exec_fp. rewrite H3, Hf7, Hrd, H1, H2.
    assert (fp_arith f7 f3 b (getf s a) (getf s b) = None) as -> by (by destruct H7 as [-> | ->]).
    assert (((f7 =? 0x50) || (f7 =? 0x51)) && (f3 <=? 2) = true) as -> by lia. done.
Qed.

Lemma gen_opf_compare op dbl d a b g s : rv_ok s -> isreg d -> d <> 0 -> isreg a -> isreg b ->
  In op [TOK_EQ; TOK_NE; TOK_LT; TOK_LE; TOK_GT; TOK_GE] ->
  exists g', gen_opf op dbl d a b g = Some g' /\
    gsets g g' d (Z.b2z (fcompare op (wide_f dbl (getf s a)) (wide_f dbl (getf s b)))) s.
Proof.
  intros Hok Hd H0 Ha Hb Hin.
  assert (forall f3 x y bits, isreg x -> isreg y -> bits = Z.lor (Z.lor 0x53 (u32 (Z.shiftl f3 12))) (u32 (Z.shiftl (if dbl then 0x51 else 0x50) 25)) ->
    0 <= f3 <= 2 -> gsets g (EM bits d x y g) d (Z.b2z (if f3 =? 2 then SFeqb (wide_f dbl (getf s x)) (wide_f dbl (getf s y))
      else if f3 =? 1 then SFltb (wide_f dbl (getf s x)) (wide_f dbl (getf s y)) else SFleb (wide_f dbl (getf s x)) (wide_f dbl (getf s y)))) s) as H.
  { intros f3 x y bits Hx Hy Hbits Hf.
    replace (Z.b2z _) with (fp_compare (if dbl then 0x51 else 0x50) f3 (getf s x) (getf s y)) by (by destruct dbl).
    apply fcmp_word; try done. destruct dbl; auto. }
  repeat (destruct Hin as [<-|Hin]; [unfold gen_opf|]); [..|destruct Hin].
  - destruct dbl; (eexists; split; [done|]; apply (H 2); [done|done|done|lia]).
  - assert (gsets g (EM (if dbl then 0xa2002053 else 0xa0002053) d a b g) d (Z.b2z (SFeqb (wide_f dbl (getf s a)) (wide_f dbl (getf s b)))) s) as H1
      by (apply (H 2); [done|done|by destruct dbl|lia]).
    destruct (gsets_EI 4 1 _ _ _ _ _ H1) as (g2 & E & H2); [done..|lia|lia|]. exists g2. split; [destruct dbl; exact E|]. by rewrite b2z_flip in H2.
  - destruct dbl; (eexists; split; [done|]; apply (H 1); [done|done|done|lia]).
  - destruct dbl; (eexists; split; [done|]; apply (H 0); [done|done|done|lia]).
  - destruct dbl; (eexists; split; [done|]; apply (H 1); [done|done|done|lia]).
  - destruct dbl; (eexists; split; [done|]; apply (H 0); [done|done|done|lia]).
Qed.

(** [fcvt] words. *)
Lemma rv_i_r op f3 rd rs1 rs2 f7 : 0 <= op < 128 -> 0 <= f3 < 8 -> isreg rd -> isreg rs1 -> isreg rs2 -> 0 <= f7 < 128 ->
  rv_i op f3 rd rs1 (rs2 + 32 * f7) = rv_r op f3 f7 rd rs1 rs2.
Proof.
  unfold isreg. intros. rewrite rv_i_fields, rv_r_fields by (done || lia). f_equal. zlia.
Qed.
Lemma ftoi_ok fd u l d a g s v : rv_ok s -> isreg d -> d <> 0 -> isreg a -> u && l = false ->
  sf_trunc (wide_f fd (getf s a)) = Some v ->
  (if l then -9223372036854775808 <= v < 9223372036854775808 else if u then 0 <= v < 4294967296 else -2147483648 <= v < 2147483648) ->
  gsets g (gen_cvt_ftoi fd u l d a g) d (u64 v) s.
Proof.
  intros Hok Hd H0 Ha Hul Ht Hv. unfold gen_cvt_ftoi, EIu.
  set (rs2 := if l then 2 else if u then 1 else 0). set (f7 := if fd then 0x61 else 0x60).
  assert (Z.lor (Z.lor (Z.shiftl (Z.lor 0x60 (if fd then 1 else 0)) 5) (if u then 1 else 0)) (if l then 2 else 0) = rs2 + 32 * f7) as ->
    by (by destruct fd, u, l).
  assert (isreg rs2 /\ 0 <= f7 < 128) as [Hr2 H7] by (unfold isreg, rs2, f7; destruct fd, u, l; lia).
  rewrite rv_i_r by (done || lia). eexists [_]. split; [done|]. apply sets_one; [done..|apply u64_bound|].
  intros at_. destruct (exec_fp_word 1 f7 d a rs2 s at_) as (-> & H3 & Hf7 & Hrd & H1 & H2); [lia|done..|].
  unfold exec_fp. rewrite H3, Hf7, Hrd, H1, H2.
  assert (fp_arith f7 1 rs2 (getf s a) (getf s rs2) = None) as -> by (unfold f7; by destruct fd).
  assert (fp_to_int f7 rs2 (getf s a) = Some (u64 v)) as E.
  { unfold fp_to_int. replace (fp_operand f7 (getf s a)) with (wide_f fd (getf s a)) by (unfold f7; by destruct fd).
    unfold rs2. destruct l; [|destruct u]; cbn [Z.eqb Pos.eqb]; unfold sf_to_int; rewrite Ht.
    - by destruct (Z.leb_spec (-9223372036854775808) v), (Z.ltb_spec v 9223372036854775808); try lia.
    - destruct (Z.leb_spec 0 v), (Z.ltb_spec v 4294967296); try lia. cbn [andb]. unfold u32, u64. f_equal. zlia.
    - by destruct (Z.leb_spec (-2147483648) v), (Z.ltb_spec v 2147483648); try lia. }
  unfold f7 in *. destruct fd; cbn [Z.eqb Pos.eqb orb andb]; by rewrite E.
Qed.

(** C33: floating-point code.  The instruction [gen_opf] emits for [+ - * /] stores the correctly rounded
    result; a comparison leaves C's truth value (NaN operands included) in an integer register, every
    other register kept; a conversion to a signed or 32-bit integer leaves the truncated value, held
    the way [gen_opil] expects unless it is an [unsigned int] of 2^31 or more, which the emulator zero-extends. *)
Theorem gen_opf_correct dbl d a b g s :
  rv_ok s -> isreg d -> d <> 0 -> isreg a -> isreg b ->
  (forall op, In op [T_ADD; T_SUB; T_MUL; T_DIV] -> forall at_, exists w, gen_opf op dbl d a b = (fun g => Some (o w g)) /\
    execute w at_ s = (u64 (at_ + 4), setx 0 0 (setf d (fset dbl (farith dbl op (fval dbl (getf s a)) (fval dbl (getf s b)))) s))) /\
  (forall op, In op [TOK_EQ; TOK_NE; TOK_LT; TOK_LE; TOK_GT; TOK_GE] -> exists g', gen_opf op dbl d a b g = Some g' /\
    gsets g g' d (Z.b2z (fcompare op (wide_f dbl (getf s a)) (wide_f dbl (getf s b)))) s) /\
  (forall u l v, u && l = false -> sf_trunc (wide_f dbl (getf s a)) = Some v ->
    (if l then -9223372036854775808 <= v < 9223372036854775808 else if u then 0 <= v < 4294967296 else -2147483648 <= v < 2147483648) ->
    gsets g (gen_cvt_ftoi dbl u l d a g) d (u64 v) s /\
    (holds l (u64 v) (sg l v) <-> ~ (u = true /\ 2147483648 <= v))).
Proof.
  intros Hok Hd H0 Ha Hb. split; [|split].
  - intros op Hin at_. by apply exec_farith.
  - intros op Hin. by apply gen_opf_compare.
  - intros u l v Hul Ht Hv. split; [by apply ftoi_ok|]. unfold holds. rewrite sg_idem.
    destruct l, u; try done; cbn [sg]; unfold u64, i64, i32; split; intros H; repeat split; try (intros [? ?]); try done; try zlia.
Qed.
End float.

Lemma gen_opf_correct_witness :
  exists g', gen_opf TOK_GE true 10 10 11 (Gen ∅ 0 false) = Some g' /\
    gsets (HF := plain_host) (Gen ∅ 0 false) g' 10 1 (setf 11 0xbff0000000000000 rv_bss).
Proof.
  exact (proj1 (proj2 (gen_opf_correct (HF := plain_host) true 10 10 11 (Gen ∅ 0 false) (setf 11 0xbff0000000000000 rv_bss)
    (ok_setf 11 0xbff0000000000000 rv_bss ltac:(lia) rv_bss_ok) ltac:(unfold isreg; lia) ltac:(lia) ltac:(unfold isreg; lia) ltac:(unfold isreg; lia)))
    TOK_GE ltac:(cbn; tauto)).
Defined.
