(* ===== verification/Optimise.v ===== *)
(** Constant folding and algebraic simplification ([src/compiler/optimise.c], [gen_opic]), for a
    target with 64-bit pointers. *)
From S2P Require Import Prelude Rv64Alu RvGen RvGenOps.

(** An [SValue] as [gen_opic] sees it: its basic type, [VT_UNSIGNED], what kind of value it is (a plain
    constant, the address of a symbol, of a local, anything else) and [c.i], a 64-bit word. *)
Inductive vclass := KConst | KSym (id : Z) | KLocal | KOther (id : Z).
Record sv := Sv { bt : Z; uns : bool; cls : vclass; ci : Z }.
Definition set_ci (x : Z) (v : sv) : sv := Sv (bt v) (uns v) (cls v) x.

(** What is left on the value stack: a value, or a call of [gen_opl] ([true]) or [gen_opi] on two
    values, or the error "division by zero in constant". *)
Inductive outcome := Folded (v : sv) | LowOp (l : bool) (op : Z) (v1 v2 : sv) | DivZero.

Definition gen_opic_sdiv (a b : Z) : Z :=
  let x := (if negb (Z.shiftr a 63 =? 0) then u64 (- a) else a) / (if negb (Z.shiftr b 63 =? 0) then u64 (- b) else b) in
  if negb (Z.shiftr (Z.lxor a b) 63 =? 0) then u64 (- x) else x.
Definition gen_opic_lt (a b : Z) : bool := Z.lxor a (2 ^ 63) <? Z.lxor b (2 ^ 63).

Definition wide_t (t : Z) : bool := (t =? VT_LLONG) || (t =? VT_PTR).
(** [(uint32_t)l | (unsigned ? 0 : -(l & 0x80000000))] unless the type is 64 bits wide. *)
Definition narrow (t : Z) (u : bool) (l : Z) : Z :=
  if wide_t t then l else Z.lor (u32 l) (if u then 0 else u64 (- Z.land l 0x80000000)).

(** The switch over two constants: [None] goes to [general_case]. *)
Definition fold2 (op shm l1 l2 : Z) : option Z :=
  let c (b : bool) := Some (Z.b2z b) in
  let n := Z.land l2 shm in
  if op =? T_ADD then Some (u64 (l1 + l2))
  else if op =? T_SUB then Some (u64 (l1 - l2))
  else if op =? T_AND then Some (Z.land l1 l2)
  else if op =? T_XOR then Some (Z.lxor l1 l2)
  else if op =? T_OR then Some (Z.lor l1 l2)
  else if op =? T_MUL then Some (u64 (l1 * l2))
  else if (op =? TOK_PDIV) || (op =? T_DIV) then Some (gen_opic_sdiv l1 l2)
  else if op =? T_MOD then Some (u64 (l1 - u64 (l2 * gen_opic_sdiv l1 l2)))
  else if op =? TOK_UDIV then Some (l1 / l2)
  else if op =? TOK_UMOD then Some (l1 mod l2)
  else if op =? TOK_SHL then Some (u64 (Z.shiftl l1 n))
  else if op =? TOK_SHR then Some (Z.shiftr l1 n)
  else if op =? TOK_SAR then Some (if negb (Z.shiftr l1 63 =? 0) then not64 (Z.shiftr (not64 l1) n) else Z.shiftr l1 n)
  else if op =? TOK_ULT then c (l1 <? l2)
  else if op =? TOK_UGE then c (l2 <=? l1)
  else if op =? TOK_EQ then c (l1 =? l2)
  else if op =? TOK_NE then c (negb (l1 =? l2))
  else if op =? TOK_ULE then c (l1 <=? l2)
  else if op =? TOK_UGT then c (l2 <? l1)
  else if op =? TOK_LT then c (gen_opic_lt l1 l2)
  else if op =? TOK_GE then c (negb (gen_opic_lt l1 l2))
  else if op =? TOK_LE then c (negb (gen_opic_lt l2 l1))
  else if op =? TOK_GT then c (gen_opic_lt l2 l1)
  else if op =? TOK_LAND then c (negb (l1 =? 0) && negb (l2 =? 0))
  else if op =? TOK_LOR then c (negb (l1 =? 0) || negb (l2 =? 0))
  else None.
Definition is_division (op : Z) : bool :=
  (op =? TOK_PDIV) || (op =? T_DIV) || (op =? T_MOD) || (op =? TOK_UDIV) || (op =? TOK_UMOD).

(** [while (l2) { l2 >>= 1; n++; }] from [n = -1]. *)
Fixpoint shift_count (fuel : nat) (l n : Z) : Z :=
  match fuel with
  | O => n
  | S fuel => if l =? 0 then n else shift_count fuel (Z.shiftr l 1) (n + 1)
  end.

Definition is_const (v : sv) : bool := match cls v with KConst => true | _ => false end.
Definition is_symofs (v : sv) : bool := match cls v with KSym _ | KLocal => true | _ => false end.
Definition ONES : Z := 0xffffffffffffffff.

(** The operations that need both operands' kinds: [vtop - 1] is [v1], [vtop] is [v2]; [l2] is the
    constant when [c2]. *)
Definition simplify (const_wanted : bool) (op t1 t2 : Z) (c1 c2 : bool) (l1 l2 : Z) (v1 v2 : sv) : outcome :=
  let general op v2 := LowOp (wide_t t1 || wide_t t2) op v1 v2 in
  let ones := (l2 =? ONES) || ((l2 =? 0xffffffff) && negb (t2 =? VT_LLONG)) in
  let shift := (op =? TOK_SHL) || (op =? TOK_SHR) || (op =? TOK_SAR) in
  if negb const_wanted && c1 && (((l1 =? 0) && shift) || ((l1 =? ONES) && (op =? TOK_SAR))) then Folded v1
  else if negb const_wanted && c2 &&
          (((l2 =? 0) && ((op =? T_AND) || (op =? T_MUL))) || ((op =? T_OR) && ones) ||
           ((l2 =? 1) && ((op =? T_MOD) || (op =? TOK_UMOD)))) then
    Folded (if l2 =? 1 then set_ci 0 v2 else v2)
  else if c2 && ((((op =? T_MUL) || (op =? T_DIV) || (op =? TOK_UDIV) || (op =? TOK_PDIV)) && (l2 =? 1)) ||
                 (((op =? T_ADD) || (op =? T_SUB) || (op =? T_OR) || (op =? T_XOR) || shift) && (l2 =? 0)) ||
                 ((op =? T_AND) && ones)) then Folded v1
  else if c2 && ((op =? T_MUL) || (op =? TOK_PDIV) || (op =? TOK_UDIV)) then
    if (0 <? l2) && (Z.land l2 (u64 (l2 - 1)) =? 0) then
      general (if op =? T_MUL then TOK_SHL else if op =? TOK_PDIV then TOK_SAR else TOK_SHR)
              (set_ci (u64 (shift_count 65 l2 (-1))) v2)
    else general op v2
  else if c2 && ((op =? T_ADD) || (op =? T_SUB)) && is_symofs v1 then
    let l2 := if op =? T_SUB then u64 (- l2) else l2 in
    let l2 := u64 (l2 + ci v1) in
    if negb (u64 (i32 l2) =? l2) then general op v2 else Folded (set_ci l2 v1)
  else general op v2.

Definition commutes (op : Z) : bool :=
  (op =? T_ADD) || (op =? T_AND) || (op =? T_XOR) || (op =? T_OR) || (op =? T_MUL) || (op =? TOK_EQ) || (op =? TOK_NE).

(** [noeval] is [nocode_wanted & unevalmask]. *)
Definition gen_opic (const_wanted noeval : bool) (op : Z) (v1 v2 : sv) : outcome :=
  let t1 := bt v1 in let t2 := bt v2 in
  let c1 := is_const v1 in let c2 := is_const v2 in
  let l1 := narrow t1 (uns v1) (if c1 then ci v1 else 0) in
  let l2 := narrow t2 (uns v2) (if c2 then ci v2 else 0) in
  let shm := if t1 =? VT_LLONG then 63 else 31 in
  let general := LowOp (wide_t t1 || wide_t t2) op v1 v2 in
  if c1 && c2 then
    if is_division op && (l2 =? 0) then
      if const_wanted && negb noeval then DivZero else general
    else
      match fold2 op shm l1 l2 with
      | Some l => Folded (set_ci (narrow t1 (uns v1) l) v1)
      | None => general
      end
  else if c1 && commutes op then simplify const_wanted op t1 t2 c1 c1 l1 l1 v2 v1
  else simplify const_wanted op t1 t2 c1 c2 l1 l2 v1 v2.

(** ** Values *)

(** The 64-bit words of what is not a constant: symbols, the frame pointer, anything else. *)
Record venv := Venv { sym_addr : Z -> Z; frame : Z; other : Z -> Z }.
Definition val (e : venv) (v : sv) : Z :=
  match cls v with
  | KConst => ci v
  | KSym i => u64 (sym_addr e i + ci v)
  | KLocal => u64 (frame e + ci v)
  | KOther i => other e i
  end.
Definition width (v : sv) : bool := wide_t (bt v).
(** The C value, as a signed number of its type's width. *)
Definition sem (e : venv) (v : sv) : Z := sg (width v) (val e v).

(** C's result; a pointer difference divides as a signed number. *)
Definition c_op (l : bool) (op a b : Z) : Z :=
  if is_cmp op then Z.b2z (ccmp l op a b) else if op =? TOK_PDIV then cop l T_DIV a b else cop l op a b.

Definition is_shift (op : Z) : bool := (op =? TOK_SHL) || (op =? TOK_SHR) || (op =? TOK_SAR).
Definition unsigned_op (op : Z) : bool := existsb (Z.eqb op) [TOK_UDIV; TOK_UMOD; TOK_SHR; TOK_ULT; TOK_UGE; TOK_ULE; TOK_UGT].
Definition signed_op (op : Z) : bool := existsb (Z.eqb op) [TOK_PDIV; T_DIV; T_MOD; TOK_SAR; TOK_LT; TOK_GE; TOK_LE; TOK_GT].
(** How [gen_op] calls [gen_opic]: both operands of one type, or a shift by an [int]; the operator
    chosen by the type's signedness; no bitwise operation or shift on pointers; a pointer difference
    is a multiple of the size of its element. *)
Record typed (e : venv) (l : bool) (op : Z) (v1 v2 : sv) : Prop := {
  ty_word : isu64 (ci v1) /\ isu64 (ci v2);
  ty_op : is_arith op || is_cmp op = true;
  ty_left : width v1 = l;
  ty_right : if is_shift op then bt v2 = VT_INT /\ uns v2 = false else width v2 = l /\ uns v2 = uns v1;
  ty_unsigned : l = false -> unsigned_op op = true -> uns v1 = true;
  ty_signed : l = false -> signed_op op = true -> uns v1 = false;
  ty_ptr : is_shift op || (op =? T_AND) || (op =? T_OR) = true -> bt v1 <> VT_PTR /\ bt v2 <> VT_PTR;
  ty_pdiv : op = TOK_PDIV -> 0 < sem e v2 /\ Z.rem (sem e v1) (sem e v2) = 0
}.

(** The word [gen_opic] computes with for a value. *)
Definition ext (l u : bool) (a : Z) : Z := if l then u64 a else if u then u32 a else u64 a.
Lemma lor_sign l : Z.lor (u32 l) (u64 (- Z.land l 0x80000000)) = u64 (i32 l).
Proof.
  assert (Z.land l 0x80000000 = if Z.testbit l 31 then 0x80000000 else 0) as ->.
  { change 0x80000000 with (2 ^ 31). apply Z.bits_inj'. intros i Hi. rewrite Z.land_spec, Z.pow2_bits_eqb by lia.
    destruct (Z.eqb_spec 31 i) as [<-|].
    - rewrite andb_true_r. destruct (Z.testbit l 31) eqn:E; [by rewrite Z.pow2_bits_true by lia|by rewrite Z.bits_0].
    - rewrite andb_false_r. destruct (Z.testbit l 31); [by rewrite Z.pow2_bits_false by lia|by rewrite Z.bits_0]. }
  rewrite <- (i32_u32 l). assert (Z.testbit l 31 = Z.testbit (u32 l) 31) as ->.
  { unfold u32. change 4294967296 with (2 ^ 32). by rewrite Z.mod_pow2_bits_low by lia. }
  pose proof (u32_bound l) as Hb. generalize dependent (u32 l). intros y Hb. rewrite Z.testbit_odd, Z.shiftr_div_pow2 by lia.
  change (2 ^ 31) with 2147483648. destruct (Z.lt_ge_cases y 2147483648).
  - rewrite Z.div_small by lia. cbn. rewrite Z.lor_0_r. unfold i32, u64. zlia.
  - assert (y / 2147483648 = 1) as -> by zlia. change (Z.odd 1) with true. cbn iota.
    change (u64 (- (2147483648))) with (Z.lor (4294967295 * 2 ^ 32) 2147483648). rewrite Z.lor_comm, <- Z.lor_assoc.
    assert (Z.lor 2147483648 y = y) as ->.
    { replace y with (1 * 2 ^ 31 + (y - 2147483648)) by lia. rewrite <- (lor_add 1) by lia. change (1 * 2 ^ 31) with 2147483648.
      by rewrite Z.lor_assoc, Z.lor_diag. }
    rewrite lor_add by lia. unfold i32, u64. zlia.
Qed.
Lemma narrow_val t u l : isu64 l -> narrow t u l = ext (wide_t t) u (sg (wide_t t) l).
Proof.
  intros H. unfold narrow, ext, sg. destruct (wide_t t); [by rewrite u64_i64, u64_small|]. destruct u.
  - by rewrite Z.lor_0_r, u32_i32.
  - apply lor_sign.
Qed.
Lemma ext_bound l u a : isu64 (ext l u a).
Proof. unfold ext. pose proof (u64_bound a). pose proof (u32_bound a). destruct l, u; lia. Qed.
Lemma sg_ext l u a : sg l a = a -> sg l (ext l u a) = a.
Proof. intros H. unfold ext. destruct l; cbn in *; [by rewrite i64_u64|]. destruct u; [by rewrite i32_u32|]. unfold i32, u64 in *. zlia. Qed.
Lemma us_ext l u a : us l (ext l u a) = us l a.
Proof. unfold ext. destruct l; cbn; [apply u64_idem|]. destruct u; unfold u32, u64; zlia. Qed.
Lemma sg_us l x y : us l x = us l y -> sg l x = sg l y.
Proof. destruct l; cbn; unfold u64, i64, u32, i32; intros; zlia. Qed.
Lemma us_mul l x y : us l (us l x * us l y) = us l (x * y).
Proof. destruct l; cbn; unfold u64, u32; symmetry; apply Z.mul_mod; lia. Qed.
Lemma us_u64 l x : us l (u64 x) = us l x.
Proof. destruct l; cbn; [apply u64_idem|]. unfold u32, u64. zlia. Qed.
Lemma us_us l x : us l (us l x) = us l x.
Proof. destruct l; [apply u64_idem|apply u32_small, u32_bound]. Qed.
Lemma us_sg l x : us l (sg l x) = us l x.
Proof. destruct l; [apply u64_i64|apply u32_i32]. Qed.
Section bits.
Context (f : Z -> Z -> Z) (fb : bool -> bool -> bool).
Context (Hb : forall a b i, 0 <= i -> Z.testbit (f a b) i = fb (Z.testbit a i) (Z.testbit b i)) (Hff : fb false false = false).
Lemma us_bits l a b : f (us l a) (us l b) = us l (f a b).
Proof.
  destruct l; [by apply (bitop_u64 f fb)|]. cbn. apply Z.bits_inj'. intros i Hi. rewrite Hb by done.
  unfold u32. change 4294967296 with (2 ^ 32). destruct (Z.lt_ge_cases i 32).
  - by rewrite !Z.mod_pow2_bits_low, Hb by lia.
  - by rewrite !Z.mod_pow2_bits_high by lia.
Qed.
End bits.

(** ** Folding two constants *)

Lemma ext_signed l a : sg l a = a -> ext l false a = u64 a.
Proof. by destruct l. Qed.
Lemma ext_unsigned l u a : (l = false -> u = true) -> ext l u a = us l a.
Proof. destruct l; cbn; [done|]. by intros ->. Qed.
Lemma sign63 x : isu64 x -> negb (Z.shiftr x 63 =? 0) = (i64 x <? 0).
Proof.
  intros H. rewrite Z.shiftr_div_pow2, i64_neg by lia. change (2 ^ 63) with 9223372036854775808.
  destruct (Z.leb_spec 9223372036854775808 x); [|by rewrite Z.div_small by lia].
  by assert (x / 9223372036854775808 = 1) as -> by zlia.
Qed.
Lemma sign_xor x y : isu64 x -> isu64 y -> (i64 (Z.lxor x y) <? 0) = xorb (i64 x <? 0) (i64 y <? 0).
Proof.
  intros Hx Hy. assert (isu64 (Z.lxor x y)) as Hz by (by apply isu64_lxor).
  assert (forall z, isu64 z -> (i64 z <? 0) = Z.testbit z 63) as Hs.
  { intros z H. rewrite <- sign63 by done. rewrite Z.testbit_odd, Z.shiftr_div_pow2 by lia. change (2 ^ 63) with 9223372036854775808.
    assert (z / 9223372036854775808 = 0 \/ z / 9223372036854775808 = 1) as [-> | ->] by zlia; done. }
  rewrite !Hs by done. apply Z.lxor_spec.
Qed.
Lemma sdiv_ok x y : isu64 x -> isu64 y -> y <> 0 -> gen_opic_sdiv x y = u64 (Z.quot (i64 x) (i64 y)).
Proof.
  intros Hx Hy H0. unfold gen_opic_sdiv. assert (isu64 (Z.lxor x y)) as Hz by (by apply isu64_lxor).
  rewrite !sign63, sign_xor by done.
  assert (forall z, isu64 z -> (if i64 z <? 0 then u64 (- z) else z) = Z.abs (i64 z)) as Ha.
  { intros z H. unfold i64, u64. destruct (Z.ltb_spec ((z + 9223372036854775808) mod 18446744073709551616 - 9223372036854775808) 0); zlia. }
  rewrite !Ha by done. assert (i64 y <> 0) as Hy0 by (unfold i64; zlia).
  pose proof (i64_bound x). pose proof (i64_bound y). generalize dependent (i64 x). generalize dependent (i64 y). intros b Hb0 Hbb a Hab.
  destruct (quot_rem_abs a b ltac:(assumption)) as [-> _].
  assert (0 <= Z.abs a / Z.abs b <= 9223372036854775808).
  { split; [apply Z.div_pos; lia|]. apply Z.div_le_upper_bound; nia. }
  generalize dependent (Z.abs a / Z.abs b). intros q Hq. destruct (xorb _ _); [done|]. by rewrite u64_small by lia.
Qed.
Lemma lt_ok x y : isu64 x -> isu64 y -> gen_opic_lt x y = (i64 x <? i64 y).
Proof.
  assert (forall z, isu64 z -> Z.lxor z (2 ^ 63) = i64 z + 9223372036854775808) as H.
  { intros z Hz. unfold i64. destruct (Z.lt_ge_cases z 9223372036854775808).
    - rewrite Z.lxor_comm, <- Z.add_nocarry_lxor; [change (2 ^ 63) with 9223372036854775808; zlia|].
      apply Z.bits_inj'. intros i Hi. rewrite Z.land_spec, Z.bits_0, Z.pow2_bits_eqb by lia.
      destruct (Z.eqb_spec 63 i) as [<-|]; [|done]. by rewrite (testbit_high z 63) by lia.
    - assert (Z.lxor z (2 ^ 63) = z - 2 ^ 63) as ->; [|change (2 ^ 63) with 9223372036854775808; zlia].
      rewrite Z.sub_nocarry_ldiff.
      + apply Z.bits_inj'. intros i Hi. rewrite Z.lxor_spec, Z.ldiff_spec, Z.pow2_bits_eqb by lia.
        destruct (Z.eqb_spec 63 i) as [<-|]; [|by rewrite xorb_false_r, andb_true_r].
        rewrite Z.testbit_odd, Z.shiftr_div_pow2 by lia. change (2 ^ 63) with 9223372036854775808.
        by assert (z / 9223372036854775808 = 1) as -> by zlia.
      + apply Z.bits_inj'. intros i Hi. rewrite Z.ldiff_spec, Z.bits_0, Z.pow2_bits_eqb by lia.
        destruct (Z.eqb_spec 63 i) as [<-|]; [|done]. rewrite Z.testbit_odd, Z.shiftr_div_pow2 by lia. change (2 ^ 63) with 9223372036854775808.
        by assert (z / 9223372036854775808 = 1) as -> by zlia. }
  intros Hx Hy. unfold gen_opic_lt. rewrite !H by done. lia.
Qed.

Lemma sg_val l a b : us l a = us l b -> sg l b = b -> sg l a = b.
Proof. intros H <-. by apply sg_us. Qed.
Lemma sar_ok x n : isu64 x -> 0 <= n -> (if negb (Z.shiftr x 63 =? 0) then not64 (Z.shiftr (not64 x) n) else Z.shiftr x n) = u64 (Z.shiftr (i64 x) n).
Proof.
  intros Hx Hn. rewrite sign63 by done. rewrite !Z.shiftr_div_pow2 by done. pose proof (Z.pow_pos_nonneg 2 n ltac:(lia) Hn) as Hp.
  generalize dependent (2 ^ n). intros p Hp. unfold not64. destruct (Z.ltb_spec (i64 x) 0) as [H|H].
  - assert (i64 x = x - 18446744073709551616) as -> by (unfold i64 in *; zlia).
    assert ((x - 18446744073709551616) / p = - (1 + (18446744073709551615 - x) / p)) as ->.
    { symmetry. apply Z.div_unique with (r := p - 1 - (18446744073709551615 - x) mod p).
      - left. pose proof (Z.mod_pos_bound (18446744073709551615 - x) p). lia.
      - pose proof (Z.div_mod (18446744073709551615 - x) p). lia. }
    assert (0 <= (18446744073709551615 - x) / p <= 18446744073709551615).
    { split; [apply Z.div_pos; lia|]. apply Z.div_le_upper_bound; nia. }
    unfold u64. zlia.
  - assert (i64 x = x) as -> by (unfold i64 in *; zlia). symmetry. apply u64_small. split; [apply Z.div_pos; lia|]. apply Z.div_lt_upper_bound; nia.
Qed.

Lemma sg_b2z l c : sg l (Z.b2z c) = Z.b2z c.
Proof. by destruct l, c. Qed.
Lemma ext_eqb l u a b : sg l a = a -> sg l b = b -> (ext l u a =? ext l u b) = (a =? b).
Proof.
  intros Ha Hb. destruct (Z.eqb_spec a b) as [->|Hne]; [apply Z.eqb_refl|]. apply Z.eqb_neq. intros E. apply Hne.
  by rewrite <- (sg_ext l u a), <- (sg_ext l u b), E.
Qed.
(** The switch computes C's result. *)
Lemma fold2_ok l u op a b y : is_arith op || is_cmp op = true -> sg l a = a ->
  (if is_shift op then sg false b = b /\ y = u64 b else sg l b = b /\ y = ext l u b) ->
  (l = false -> unsigned_op op = true -> u = true) -> (l = false -> signed_op op = true -> u = false) ->
  (is_division op = true -> y <> 0) ->
  exists r, fold2 op (if l then 63 else 31) (ext l u a) y = Some r /\ isu64 r /\ sg l r = c_op l op a b.
Proof.
  intros Hop Ha Hb Hun Hsi Hdiv. pose proof (ext_bound l u a) as Hx. set (x := ext l u a) in *.
  assert (us l x = us l a) as Ux by apply us_ext.
  assert (In op ([T_ADD; T_SUB; TOK_SAR; TOK_SHR; TOK_SHL; T_MUL; T_DIV; T_AND; T_XOR; T_OR; T_MOD; TOK_UMOD; TOK_PDIV; TOK_UDIV] ++
    [TOK_ULT; TOK_UGE; TOK_EQ; TOK_NE; TOK_ULE; TOK_UGT; TOK_LT; TOK_GE; TOK_LE; TOK_GT])) as Hin.
  { apply in_or_app. apply orb_true_iff in Hop as [H|H]; apply existsb_exists in H as (op' & Hin & ->%Z.eqb_eq); auto. }
  assert (is_shift op = false -> us l y = us l b) as Uy.
  { intros E. rewrite E in Hb. destruct Hb as [_ ->]. apply us_ext. }
  assert (is_shift op = true -> Z.land y (if l then 63 else 31) = b mod wd l) as Hsh.
  { intros E. rewrite E in Hb. destruct Hb as [_ ->]. destruct l; [rewrite (land_mask _ 63 6) by done|rewrite (land_mask _ 31 5) by done];
      unfold u64; cbn [wd]; [change (2 ^ 6) with 64|change (2 ^ 5) with 32]; zlia. }
  assert (0 <= b mod wd l < wd l) as Hw by (apply Z.mod_pos_bound; by destruct l).
  assert (isu64 y) as Hy by (destruct (is_shift op); destruct Hb as [_ ->]; [apply u64_bound|apply ext_bound]).
  assert (signed_op op = true -> i64 x = a) as Sx.
  { intros E. unfold x, ext. destruct l; [by rewrite i64_u64|]. rewrite (Hsi eq_refl E). rewrite i64_u64. apply i64_small. cbn in Ha.
    pose proof (i32_bound a). lia. }
  assert (signed_op op = true -> is_shift op = false -> i64 y = b) as Sy.
  { intros E E2. rewrite E2 in Hb. destruct Hb as [Hbb ->]. unfold ext. destruct l; [by rewrite i64_u64|]. rewrite (Hsi eq_refl E), i64_u64. apply i64_small.
    cbn in Hbb. pose proof (i32_bound b). lia. }
  assert (unsigned_op op = true -> x = us l a) as Xu by (intros E; apply ext_unsigned; auto).
  assert (unsigned_op op = true -> is_shift op = false -> y = us l b) as Yu.
  { intros E E2. rewrite E2 in Hb. destruct Hb as [_ ->]. apply ext_unsigned; auto. }
  unfold c_op.
  cbn [app In] in Hin. repeat (destruct Hin as [<-|Hin]; [eexists; split; [reflexivity|]|]); [..|destruct Hin].
  all: match goal with |- context [is_cmp ?o] => let t := eval vm_compute in (is_cmp o) in change (is_cmp o) with t end; cbn iota.
  all: match goal with |- context [?o =? TOK_PDIV] => let t := eval vm_compute in (o =? TOK_PDIV) in change (o =? TOK_PDIV) with t | _ => idtac end; cbn iota.
  all: try match goal with |- context [cop _ ?o _ _] => unfold cop; cbn [Z.eqb Pos.eqb T_ADD T_SUB TOK_SAR TOK_SHR TOK_SHL T_MUL T_DIV T_AND T_XOR T_OR T_MOD TOK_UMOD TOK_PDIV TOK_UDIV] end.
  all: try (specialize (Uy eq_refl)); try (rewrite (Hsh eq_refl)); try (specialize (Sx eq_refl)); try (specialize (Sy eq_refl eq_refl));
    try (specialize (Xu eq_refl)); try (specialize (Yu eq_refl eq_refl)); try (specialize (Hdiv eq_refl)).
  all: try (split; [apply isu64_b2z|]; rewrite sg_b2z; f_equal; unfold ccmp; cbn [Z.eqb Pos.eqb TOK_ULT TOK_UGE TOK_EQ TOK_NE TOK_ULE TOK_UGT TOK_LT TOK_GE TOK_LE TOK_GT]).
  - split; [apply u64_bound|]. apply sg_us. rewrite us_u64. clear - Ux Uy. destruct l; cbn in *; unfold u64, u32 in *; zlia.
  - split; [apply u64_bound|]. apply sg_us. rewrite us_u64. clear - Ux Uy. destruct l; cbn in *; unfold u64, u32 in *; zlia.
  - rewrite sar_ok, Sx by lia. split; [apply u64_bound|]. apply sg_us, us_u64.
  - split; [apply isu64_shiftr; [done|lia]|]. by rewrite Xu.
  - split; [apply u64_bound|]. apply sg_us. rewrite us_u64, !Z.shiftl_mul_pow2 by lia. by rewrite <- us_mul, Ux, us_mul.
  - split; [apply u64_bound|]. apply sg_us. rewrite us_u64. by rewrite <- us_mul, Ux, Uy, us_mul.
  - rewrite sdiv_ok, Sx, Sy by done. split; [apply u64_bound|]. destruct (Z.eqb_spec b 0) as [Hb0|]; [|apply sg_us, us_u64].
    exfalso. apply Hdiv. rewrite <- (u64_small y), <- u64_i64, Sy, Hb0 by done. done.
  - split; [by apply isu64_land_l|]. apply sg_us. rewrite <- !(us_bits Z.land andb) by (done || (intros; apply Z.land_spec)). by rewrite Ux, Uy.
  - split; [by apply isu64_lxor|]. apply sg_us. rewrite <- !(us_bits Z.lxor xorb) by (done || (intros; apply Z.lxor_spec)). by rewrite Ux, Uy.
  - split; [by apply isu64_lor|]. apply sg_us. rewrite <- !(us_bits Z.lor orb) by (done || (intros; apply Z.lor_spec)). by rewrite Ux, Uy.
  - rewrite sdiv_ok, Sx, Sy by done. split; [apply u64_bound|]. destruct (Z.eqb_spec b 0) as [Hb0|Hb0].
    { exfalso. apply Hdiv. rewrite <- (u64_small y), <- u64_i64, Sy, Hb0 by done. done. }
    apply sg_us. rewrite us_u64. rewrite (Z.rem_eq a b Hb0).
    assert (us l (u64 (y * u64 (Z.quot a b))) = us l (b * Z.quot a b)) as E by (rewrite us_u64, <- us_mul, us_u64, Uy, us_mul; done).
    generalize dependent (u64 (y * u64 (Z.quot a b))). generalize dependent (b * Z.quot a b). clear - Ux. intros p q E.
    destruct l; cbn in *; unfold u64, u32 in *; zlia.
  - assert (b <> 0) as Hb0 by (intros ->; apply Hdiv; rewrite Yu; by destruct l).
    split; [pose proof (Z.mod_pos_bound x y); lia|]. destruct (Z.eqb_spec b 0); [done|]. by rewrite Xu, Yu.
  - rewrite sdiv_ok, Sx, Sy by done. split; [apply u64_bound|]. destruct (Z.eqb_spec b 0) as [Hb0|]; [|apply sg_us, us_u64].
    exfalso. apply Hdiv. rewrite <- (u64_small y), <- u64_i64, Sy, Hb0 by done. done.
  - assert (b <> 0) as Hb0 by (intros ->; apply Hdiv; rewrite Yu; by destruct l).
    split; [apply quot_isu64; [done|lia]|]. destruct (Z.eqb_spec b 0); [done|]. by rewrite Xu, Yu.
  - by rewrite Xu, Yu.
  - by rewrite Xu, Yu.
  - destruct Hb as [Hbb Ey]. rewrite Ey. unfold x. by apply ext_eqb.
  - destruct Hb as [Hbb Ey]. rewrite Ey. unfold x. f_equal. by apply ext_eqb.
  - by rewrite Xu, Yu.
  - by rewrite Xu, Yu.
  - by rewrite lt_ok, Sx, Sy.
  - rewrite lt_ok, Sx, Sy by done. lia.
  - rewrite lt_ok, Sx, Sy by done. lia.
  - by rewrite lt_ok, Sx, Sy.
Qed.

(** ** Powers of two *)

Lemma pow2_test x : 0 < x -> Z.land x (x - 1) = 0 -> x = 2 ^ Z.log2 x.
Proof.
  intros Hx H. pose proof (Z.log2_spec x Hx) as [H1 H2]. pose proof (Z.log2_nonneg x) as Hk. set (k := Z.log2 x) in *.
  destruct (Z.eq_dec x (2 ^ k)) as [|Hne]; [done|]. exfalso.
  assert (Z.testbit (Z.land x (x - 1)) k = true) as Hb; [|by rewrite H, Z.bits_0 in Hb].
  rewrite Z.land_spec. assert (Z.log2 (x - 1) = k) as Hl by (apply Z.log2_unique; lia).
  rewrite <- Hl at 2. by rewrite !Z.bit_log2 by (subst k; lia).
Qed.
Lemma shift_count_ok fuel l n : 0 <= l < 2 ^ Z.of_nat fuel -> shift_count (S fuel) l n = if l =? 0 then n else n + Z.log2 l + 1.
Proof.
  revert l n. induction fuel as [|fuel IH]; intros l n Hl.
  - assert (l = 0) as -> by (cbn in Hl; lia). done.
  - change (shift_count (S (S fuel)) l n) with (if l =? 0 then n else shift_count (S fuel) (Z.shiftr l 1) (n + 1)).
    destruct (Z.eqb_spec l 0); [done|].
    rewrite Nat2Z.inj_succ, Z.pow_succ_r in Hl by lia.
    assert (Z.shiftr l 1 = l / 2) as Es by (by rewrite Z.shiftr_div_pow2 by lia).
    rewrite IH by (rewrite Es; zlia). pose proof (Z.log2_shiftr l 1 ltac:(lia)) as Hg. rewrite Es in *.
    destruct (Z.eqb_spec (l / 2) 0).
    + assert (l = 1) as -> by zlia. cbn. lia.
    + rewrite Hg. assert (1 <= Z.log2 l) by (change 1 with (Z.log2 2); apply Z.log2_le_mono; zlia). lia.
Qed.

(** ** Simplification *)

Definition outcome_ok (e : venv) (l : bool) (r : Z) (out : outcome) : Prop :=
  match out with
  | Folded v => sem e v = r
  | LowOp l' op v1 v2 => l' = l /\ c_op l op (sem e v1) (sem e v2) = r
  | DivZero => False
  end.

Section simplify.
Context (e : venv) (l u : bool) (op t1 t2 : Z) (c1 c2 : bool) (l1 l2 : Z) (v1 v2 : sv) (cw : bool).
Let a := sem e v1.
Let b := sem e v2.
Context (Hop : is_arith op || is_cmp op = true) (Hw1 : width v1 = l) (Hci : isu64 (ci v1)).
Context (Hwide : wide_t t1 || wide_t t2 = l) (Hones : (op =? T_AND) || (op =? T_OR) = true -> (t2 =? VT_LLONG) = l).
Context (Hun : l = false -> unsigned_op op = true -> u = true) (Hsi : l = false -> signed_op op = true -> u = false).
Context (Hc1 : is_shift op = true -> c1 = true -> l1 = ext l u a).
Context (Hc2 : c2 = true -> cls v2 = KConst /\ if is_shift op then width v2 = false /\ l2 = u64 b else width v2 = l /\ l2 = ext l u b).
Context (Hpd : op = TOK_PDIV -> 0 < b /\ Z.rem a b = 0).

Lemma sg_a : sg l a = a.
Proof. unfold a, sem. rewrite Hw1. apply sg_idem. Qed.
Lemma sem_l2 : c2 = true -> is_shift op = false -> b = sg l l2 /\ sg l b = b /\ us l l2 = us l b.
Proof.
  intros E Es. destruct (Hc2 E) as [Hk H]. rewrite Es in H. destruct H as [Hw ->].
  assert (sg l b = b) as Hb by (unfold b, sem; rewrite Hw; apply sg_idem). split_and!; [by rewrite sg_ext|done|apply us_ext].
Qed.
Lemma shift_b : c2 = true -> is_shift op = true -> l2 = 0 -> b = 0.
Proof.
  intros E Es H0. destruct (Hc2 E) as [Hk H]. rewrite Es in H. destruct H as [Hw Hl].
  unfold b, sem in *. rewrite Hw in *. cbn [sg] in *. pose proof (i32_bound (val e v2)). rewrite Hl in H0. unfold u64 in H0. zlia.
Qed.
(** [0 << x], [0 >> x], [-1 >> x] *)
Lemma shift_of_const : c1 = true -> (l1 = 0 /\ is_shift op = true) \/ (l1 = ONES /\ op = TOK_SAR) -> c_op l op a b = a.
Proof.
  pose proof sg_a as Ha. intros E H.
  assert (is_shift op = true) as Es by (destruct H as [[_ H]|[_ ->]]; [exact H|done]).
  pose proof (sg_ext l u a Ha) as He. rewrite <- (Hc1 Es E) in He.
  assert (0 <= b mod wd l) as Hnn by (apply Z.mod_pos_bound; by destruct l).
  destruct H as [[H0 _]|[H1 ->]].
  - assert (a = 0) as -> by (rewrite <- He, H0; by destruct l).
    unfold is_shift in Es. repeat (apply orb_true_iff in Es as [Es|Es]); apply Z.eqb_eq in Es as ->;
      cbv [c_op]; cbn [is_cmp existsb orb Z.eqb Pos.eqb TOK_SHL TOK_SHR TOK_SAR TOK_PDIV TOK_ULT TOK_UGE TOK_EQ TOK_NE TOK_ULE TOK_UGT TOK_LT TOK_GE TOK_LE TOK_GT];
      unfold cop; cbn [Z.eqb Pos.eqb T_ADD T_SUB TOK_SAR TOK_SHR TOK_SHL].
    + rewrite Z.shiftl_0_l. by destruct l.
    + replace (us l 0) with 0 by (by destruct l). rewrite Z.shiftr_0_l. by destruct l.
    + rewrite Z.shiftr_0_l. by destruct l.
  - assert (a = -1) as -> by (rewrite <- He, H1; by destruct l).
    change (c_op l TOK_SAR (-1) b) with (sg l (Z.shiftr (-1) (b mod wd l))). rewrite Z.shiftr_div_pow2 by done.
    pose proof (Z.pow_pos_nonneg 2 (b mod wd l) ltac:(lia) ltac:(done)).
    assert (-1 / 2 ^ (b mod wd l) = -1) as -> by (symmetry; apply Z.div_unique with (r := 2 ^ (b mod wd l) - 1); lia).
    by destruct l.
Qed.
(** [x | -1] and the like: the constant is all ones. *)
Lemma ones_b : c2 = true -> is_shift op = false -> (op =? T_AND) || (op =? T_OR) = true ->
  (l2 =? ONES) || ((l2 =? 0xffffffff) && negb (t2 =? VT_LLONG)) = true -> b = -1.
Proof.
  intros E Es Ho H. destruct (sem_l2 E Es) as (-> & _ & _). apply orb_true_iff in H as [->%Z.eqb_eq|H]; [by destruct l|].
  apply andb_true_iff in H as [->%Z.eqb_eq H]. rewrite (Hones Ho) in H. by destruct l.
Qed.
(** [x * 1], [x + 0], [x & -1]. *)
Lemma identity_ok : c2 = true ->
  (((op =? T_MUL) || (op =? T_DIV) || (op =? TOK_UDIV) || (op =? TOK_PDIV)) && (l2 =? 1)) ||
  (((op =? T_ADD) || (op =? T_SUB) || (op =? T_OR) || (op =? T_XOR) || is_shift op) && (l2 =? 0)) ||
  ((op =? T_AND) && ((l2 =? ONES) || ((l2 =? 0xffffffff) && negb (t2 =? VT_LLONG)))) = true -> c_op l op a b = a.
Proof.
  pose proof sg_a as Ha. intros E H. apply orb_true_iff in H as [[H|H]%orb_true_iff|H]; apply andb_true_iff in H as [Ho H].
  - apply Z.eqb_eq in H. rewrite !orb_true_iff, !Z.eqb_eq in Ho.
    assert (is_shift op = false) as Es by (destruct Ho as [[[-> | ->]| ->]| ->]; done).
    destruct (sem_l2 E Es) as (Hb & _ & _). assert (b = 1) as -> by (rewrite Hb, H; by destruct l).
    destruct Ho as [[[-> | ->]| ->]| ->].
    + change (sg l (a * 1) = a). by rewrite Z.mul_1_r.
    + change (sg l (Z.quot a 1) = a). by rewrite Z.quot_1_r.
    + change (sg l (us l a / us l 1) = a). replace (us l 1) with 1 by (by destruct l). rewrite Z.div_1_r. rewrite <- Ha at 2. apply sg_us, us_us.
    + change (sg l (Z.quot a 1) = a). by rewrite Z.quot_1_r.
  - apply Z.eqb_eq in H. assert (is_shift op = true \/ is_shift op = false) as [Es|Es] by (destruct (is_shift op); auto).
    + assert (b = 0) as -> by (by apply shift_b). unfold is_shift in Es. rewrite !orb_true_iff, !Z.eqb_eq in Es.
      assert (0 mod wd l = 0) as Hz by (by destruct l).
      destruct Es as [[-> | ->]| ->].
      * change (sg l (Z.shiftl a (0 mod wd l)) = a). by rewrite Hz, Z.shiftl_0_r.
      * change (sg l (Z.shiftr (us l a) (0 mod wd l)) = a). rewrite Hz, Z.shiftr_0_r. rewrite <- Ha at 2. apply sg_us, us_us.
      * change (sg l (Z.shiftr a (0 mod wd l)) = a). by rewrite Hz, Z.shiftr_0_r.
    + destruct (sem_l2 E Es) as (Hb & _ & _). assert (b = 0) as -> by (rewrite Hb, H; by destruct l).
      rewrite Es, orb_false_r, !orb_true_iff, !Z.eqb_eq in Ho. destruct Ho as [[[-> | ->]| ->]| ->].
      * change (sg l (a + 0) = a). by rewrite Z.add_0_r.
      * change (sg l (a - 0) = a). by rewrite Z.sub_0_r.
      * change (sg l (Z.lor a 0) = a). by rewrite Z.lor_0_r.
      * change (sg l (Z.lxor a 0) = a). by rewrite Z.lxor_0_r.
  - apply Z.eqb_eq in Ho. assert (b = -1) as -> by (apply ones_b; subst op; done). subst op.
    change (sg l (Z.land a (-1)) = a). by rewrite Z.land_m1_r.
Qed.
(** A multiplication or division by a power of two is a shift. *)
Lemma pow2_ok n : c2 = true -> op = T_MUL \/ op = TOK_PDIV \/ op = TOK_UDIV -> 0 <= n -> l2 = 2 ^ n ->
  n < wd l /\ c_op l (if op =? T_MUL then TOK_SHL else if op =? TOK_PDIV then TOK_SAR else TOK_SHR) a n = c_op l op a b.
Proof.
  pose proof sg_a as Ha. intros E Ho Hn Hl.
  assert (is_shift op = false) as Es by (destruct Ho as [-> |[-> | ->]]; done).
  destruct (sem_l2 E Es) as (Hb & Hbs & Hu). destruct (Hc2 E) as [_ H]. rewrite Es in H. destruct H as [_ Hx].
  pose proof (ext_bound l u b) as Hxb. rewrite <- Hx, Hl in Hxb.
  assert (n < wd l) as Hw.
  { destruct (Z.lt_ge_cases n (wd l)) as [|Hge]; [done|exfalso].
    assert (n < 64) by (apply (Z.pow_lt_mono_r_iff 2); [lia|lia|]; change (2 ^ 64) with 18446744073709551616; lia).
    destruct l; cbn [wd] in *; [lia|]. assert (b = 0) as Hb0.
    { rewrite Hb, Hl. cbn. rewrite <- i32_u32. unfold u32. replace n with (n - 32 + 32) by lia. rewrite Z.pow_add_r by lia.
      change (2 ^ 32) with 4294967296. by rewrite Z.mod_mul by lia. }
    rewrite Hb0 in Hx. pose proof (Z.pow_pos_nonneg 2 n ltac:(lia) Hn) as Hp. rewrite <- Hl, Hx in Hp. destruct u; vm_compute in Hp; done. }
  split; [done|]. assert (n mod wd l = n) as Em by (apply Z.mod_small; lia).
  assert (us l b = 2 ^ n) as Hub.
  { rewrite <- Hu, Hl. destruct l; cbn [us wd] in *; [apply u64_small; lia|apply u32_small].
    split; [lia|]. change 4294967296 with (2 ^ 32). apply Z.pow_lt_mono_r; lia. }
  destruct Ho as [-> |[-> | ->]].
  - change (sg l (Z.shiftl a (n mod wd l)) = sg l (a * b)). rewrite Em, Z.shiftl_mul_pow2 by done. apply sg_us.
    rewrite <- (us_mul l a b), Hub, <- us_mul. f_equal. f_equal. rewrite <- Hub. apply us_us.
  - destruct (Hpd eq_refl) as [Hb0 Hr]. assert (b = 2 ^ n) as Hbn.
    { rewrite <- Hub, <- Hbs. destruct l; cbn in *; rewrite Hbs; symmetry; [apply u64_small|apply u32_small]; pose proof (i64_bound b); pose proof (i32_bound b); lia. }
    change (sg l (Z.shiftr a (n mod wd l)) = sg l (if b =? 0 then -1 else Z.quot a b)).
    destruct (Z.eqb_spec b 0); [lia|]. rewrite Em, Z.shiftr_div_pow2, <- Hbn by done. f_equal.
    rewrite (Z.quot_rem a b ltac:(lia)) at 1. rewrite Hr, Z.add_0_r, Z.mul_comm. apply Z.div_mul. lia.
  - change (sg l (Z.shiftr (us l a) (n mod wd l)) = sg l (if b =? 0 then -1 else us l a / us l b)).
    destruct (Z.eqb_spec b 0) as [Hb0|].
    { exfalso. pose proof (Z.pow_pos_nonneg 2 n ltac:(lia) Hn) as Hp. rewrite <- Hub, Hb0 in Hp. by destruct l. }
    by rewrite Em, Z.shiftr_div_pow2, Hub.
Qed.
(** Symbol or frame address plus a constant. *)
Lemma symofs_ok x : c2 = true -> op = T_ADD \/ op = T_SUB -> is_symofs v1 = true ->
  x = u64 ((if op =? T_SUB then u64 (- l2) else l2) + ci v1) -> sem e (set_ci x v1) = c_op l op a b.
Proof.
  intros E Ho Hk ->. assert (is_shift op = false) as Es by (destruct Ho as [-> | ->]; done).
  destruct (sem_l2 E Es) as (Hb & Hbs & Hu).
  assert (exists base, val e v1 = u64 (base + ci v1) /\ forall y, val e (set_ci y v1) = u64 (base + y)) as (base & Hv & Hs).
  { unfold is_symofs in Hk. unfold val, set_ci. cbn [cls ci]. destruct (cls v1) as [|i| |]; try done; by eexists. }
  assert (forall y, sem e (set_ci y v1) = sg l (u64 (base + y))) as Hse.
  { intros y. unfold sem. rewrite Hs. change (width (set_ci y v1)) with (width v1). by rewrite Hw1. }
  assert (us l a = us l (base + ci v1)) as Hua by (unfold a, sem; by rewrite Hw1, us_sg, Hv, us_u64).
  rewrite Hse. destruct Ho as [-> | ->]; cbn [Z.eqb Pos.eqb T_ADD T_SUB].
  - change (c_op l T_ADD a b) with (sg l (a + b)). apply sg_us. rewrite us_u64. clear - Hua Hu. destruct l; cbn in *; unfold u64, u32 in *; zlia.
  - change (c_op l T_SUB a b) with (sg l (a - b)). apply sg_us. rewrite us_u64. clear - Hua Hu. destruct l; cbn in *; unfold u64, u32 in *; zlia.
Qed.
Lemma simplify_ok : outcome_ok e l (c_op l op a b) (simplify cw op t1 t2 c1 c2 l1 l2 v1 v2).
Proof.
  pose proof sg_a as Ha. unfold simplify. rewrite Hwide.
  assert (outcome_ok e l (c_op l op a b) (LowOp l op v1 v2)) as Hgen by done.
  fold (is_shift op).
  destruct (negb cw && c1 && (((l1 =? 0) && is_shift op) || ((l1 =? ONES) && (op =? TOK_SAR)))) eqn:B1.
  { apply andb_true_iff in B1 as [[_ E]%andb_true_iff H]. cbn [outcome_ok]. symmetry. apply shift_of_const; [done|].
    apply orb_true_iff in H as [[H1%Z.eqb_eq H2]%andb_true_iff|[H1%Z.eqb_eq H2%Z.eqb_eq]%andb_true_iff]; auto. }
  destruct (negb cw && c2 && _) eqn:B2.
  { apply andb_true_iff in B2 as [[_ E]%andb_true_iff H]. cbn [outcome_ok].
    assert (is_shift op = false /\ ((l2 = 0 /\ (op = T_AND \/ op = T_MUL)) \/ (op = T_OR /\ b = -1 /\ l2 <> 1) \/ (l2 = 1 /\ (op = T_MOD \/ op = TOK_UMOD)))) as [Es Hc].
    { rewrite !orb_true_iff, !andb_true_iff, !orb_true_iff, !Z.eqb_eq in H.
      assert (is_shift op = false) as Es by (destruct H as [[[_ [-> | ->]]|[-> _]]|[_ [-> | ->]]]; done). split; [done|].
      destruct H as [[H|[Eop H]]|H]; [auto| |auto]. right. left. split; [done|].
      assert ((l2 =? ONES) || ((l2 =? 0xffffffff) && negb (t2 =? VT_LLONG)) = true) as Hb1.
      { destruct H as [->|H]; [done|]. by rewrite H, orb_true_r. }
      split; [apply ones_b; [done|done|by rewrite Eop|done]|]. unfold ONES in *. destruct H as [H|[H _]%andb_true_iff]; lia. }
    destruct (sem_l2 E Es) as (Hb & Hbs & Hu). destruct (Hc2 E) as [Hk Hcw]. rewrite Es in Hcw. destruct Hcw as [Hw _].
    destruct Hc as [[H0 Ho]|[(-> & Hb1 & Hn)|[H1 Ho]]].
    - rewrite H0 in *. cbn [Z.eqb]. assert (b = 0) as Hb0 by (rewrite Hb; by destruct l). fold b. rewrite Hb0.
      destruct Ho as [-> | ->]; cbv [c_op]; cbn; unfold cop; cbn; rewrite ?Z.land_0_r, ?Z.mul_0_r; by destruct l.
    - destruct (Z.eqb_spec l2 1); [done|]. fold b. rewrite Hb1. change (-1 = sg l (Z.lor a (-1))). rewrite Z.lor_m1_r. by destruct l.
    - rewrite H1 in *. cbn [Z.eqb Pos.eqb]. assert (b = 1) as Hb0 by (rewrite Hb; by destruct l). rewrite Hb0.
      unfold sem, val, set_ci, width. cbn [bt cls ci]. rewrite Hk. change (wide_t (bt v2)) with (width v2). rewrite Hw.
      destruct Ho as [-> | ->].
      + change (sg l 0 = sg l (Z.rem a 1)). by rewrite Z.rem_1_r.
      + change (sg l 0 = sg l (us l a mod us l 1)). replace (us l 1) with 1 by (by destruct l). by rewrite Z.mod_1_r. }
  destruct (c2 && ((((op =? T_MUL) || (op =? T_DIV) || (op =? TOK_UDIV) || (op =? TOK_PDIV)) && (l2 =? 1)) || _ || _)) eqn:B3.
  { apply andb_true_iff in B3 as [E H]. cbn [outcome_ok]. fold a. symmetry. by apply identity_ok. }
  destruct (c2 && ((op =? T_MUL) || (op =? TOK_PDIV) || (op =? TOK_UDIV))) eqn:B4.
  { apply andb_true_iff in B4 as [E Ho].
    assert (op = T_MUL \/ op = TOK_PDIV \/ op = TOK_UDIV) as Ho' by (rewrite !orb_true_iff, !Z.eqb_eq in Ho; tauto).
    destruct ((0 <? l2) && (Z.land l2 (u64 (l2 - 1)) =? 0)) eqn:Ep; [|done].
    apply andb_true_iff in Ep as [Hl0%Z.ltb_lt Hl1%Z.eqb_eq].
    assert (is_shift op = false) as Es by (destruct Ho' as [-> |[-> | ->]]; done).
    destruct (Hc2 E) as [Hk Hx]. rewrite Es in Hx. destruct Hx as [Hw Hx]. pose proof (ext_bound l u b) as Hxb. rewrite <- Hx in Hxb.
    rewrite u64_small in Hl1 by lia. pose proof (pow2_test l2 Hl0 Hl1) as Hp. pose proof (Z.log2_nonneg l2) as Hn.
    rewrite (shift_count_ok 64) by (change (2 ^ Z.of_nat 64) with 18446744073709551616; lia).
    destruct (Z.eqb_spec l2 0); [lia|]. replace (-1 + Z.log2 l2 + 1) with (Z.log2 l2) by lia.
    destruct (pow2_ok (Z.log2 l2) E Ho' Hn Hp) as [Hlt Hc]. cbn [outcome_ok]. split; [done|].
    assert (sem e (set_ci (u64 (Z.log2 l2)) v2) = Z.log2 l2) as ->; [|done].
    assert (wd l <= 64) by (destruct l; cbn; lia).
    unfold sem, val, set_ci, width. cbn [bt cls ci]. rewrite Hk. change (wide_t (bt v2)) with (width v2). rewrite Hw, u64_small by lia.
    destruct l; [apply i64_small|apply i32_small]; lia. }
  destruct (c2 && ((op =? T_ADD) || (op =? T_SUB)) && is_symofs v1) eqn:B5; [|done].
  apply andb_true_iff in B5 as [[E Ho]%andb_true_iff Hk].
  case (negb _); [done|]. cbn [outcome_ok]. apply symofs_ok; try done.
  rewrite !orb_true_iff, !Z.eqb_eq in Ho. tauto.
Qed.
End simplify.

(** ** The whole of [gen_opic] *)

Lemma fold2_shm op m m' x y : is_shift op = false -> fold2 op m x y = fold2 op m' x y.
Proof.
  unfold is_shift, fold2. intros [[H1 H2]%orb_false_iff H3]%orb_false_iff. by rewrite H1, H2, H3.
Qed.
Lemma commutes_ok l op a b : commutes op = true -> is_shift op = false /\ op <> TOK_PDIV /\ c_op l op b a = c_op l op a b.
Proof.
  unfold commutes. rewrite !orb_true_iff, !Z.eqb_eq.
  intros [[[[[[-> | ->]| ->]| ->]| ->]| ->]| ->]; split; try done; split; try done.
  - change (sg l (b + a) = sg l (a + b)). by rewrite Z.add_comm.
  - change (sg l (Z.land b a) = sg l (Z.land a b)). by rewrite Z.land_comm.
  - change (sg l (Z.lxor b a) = sg l (Z.lxor a b)). by rewrite Z.lxor_comm.
  - change (sg l (Z.lor b a) = sg l (Z.lor a b)). by rewrite Z.lor_comm.
  - change (sg l (b * a) = sg l (a * b)). by rewrite Z.mul_comm.
  - change (Z.b2z (b =? a) = Z.b2z (a =? b)). by rewrite Z.eqb_sym.
  - change (Z.b2z (negb (b =? a)) = Z.b2z (negb (a =? b))). by rewrite Z.eqb_sym.
Qed.
Lemma const_val v : is_const v = true -> cls v = KConst.
Proof. unfold is_const. by destruct (cls v). Qed.
Lemma const_word e v : is_const v = true -> isu64 (ci v) -> narrow (bt v) (uns v) (ci v) = ext (width v) (uns v) (sem e v).
Proof. intros H Hb. rewrite narrow_val by done. unfold sem, val. by rewrite (const_val v H). Qed.

(** C7: constant folding and simplification preserve C's meaning.  For every arithmetic and comparison
    operator on operands typed the way [gen_op] passes them, whatever [gen_opic] leaves (a folded
    constant, one operand of an identity, a shift for a multiplication or division by a power of two,
    a symbol with an adjusted offset, or the low-level operation) has the value C gives the
    expression; only a division by a constant zero in a constant expression is an error. *)
Theorem gen_opic_correct e l op v1 v2 cw noeval : typed e l op v1 v2 ->
  match gen_opic cw noeval op v1 v2 with
  | DivZero => is_division op = true /\ is_const v1 = true /\ is_const v2 = true /\ sem e v2 = 0 /\ cw = true /\ noeval = false
  | out => outcome_ok e l (c_op l op (sem e v1) (sem e v2)) out
  end.
Proof.
  intros [[Hb1 Hb2] Hop Hl Hr Hun Hsi Hptr Hpd].
  assert (sg l (sem e v1) = sem e v1) as Ha by (unfold sem; rewrite Hl; apply sg_idem).
  set (u := uns v1) in *.
  assert (is_const v1 = true -> narrow (bt v1) u (if is_const v1 then ci v1 else 0) = ext l u (sem e v1)) as Hw1.
  { intros E. rewrite E, <- Hl. by apply const_word. }
  assert (is_const v2 = true -> narrow (bt v2) (uns v2) (if is_const v2 then ci v2 else 0) =
    if is_shift op then u64 (sem e v2) else ext l u (sem e v2)) as Hw2.
  { intros E. rewrite E, (const_word e) by done. destruct (is_shift op).
    - destruct Hr as [Ht ->]. unfold width. by rewrite Ht.
    - by destruct Hr as [-> ->]. }
  assert (is_shift op = true -> width v2 = false) as Hsh.
  { intros E. rewrite E in Hr. destruct Hr as [Ht _]. unfold width. by rewrite Ht. }
  assert (wide_t (bt v1) || wide_t (bt v2) = l) as Hwide.
  { change (width v1 || width v2 = l). rewrite Hl. destruct (is_shift op) eqn:Es; [by rewrite Hsh, orb_false_r by done|].
    destruct Hr as [-> _]. apply orb_diag. }
  unfold gen_opic. set (L1 := narrow (bt v1) _ _) in *. set (L2 := narrow (bt v2) _ _) in *.
  assert (outcome_ok e l (c_op l op (sem e v1) (sem e v2)) (LowOp (wide_t (bt v1) || wide_t (bt v2)) op v1 v2)) as Hgen by done.
  destruct (is_const v1 && is_const v2) eqn:Ec.
  - apply andb_true_iff in Ec as [E1 E2]. specialize (Hw1 E1). specialize (Hw2 E2).
    destruct (is_division op && (L2 =? 0)) eqn:Ed.
    + apply andb_true_iff in Ed as [Ed Ez%Z.eqb_eq]. destruct (cw && negb noeval) eqn:Ew; [|exact Hgen].
      apply andb_true_iff in Ew as [-> Ew%negb_true_iff]. split_and!; try done.
      assert (is_shift op = false) as Es.
      { unfold is_division in Ed. rewrite !orb_true_iff, !Z.eqb_eq in Ed. by destruct Ed as [[[[-> | ->]| ->]| ->]| ->]. }
      rewrite Es in *. destruct Hr as [Hr _]. rewrite <- (sg_ext l u (sem e v2)) by (unfold sem; rewrite Hr; apply sg_idem).
      rewrite <- Hw2, Ez. by destruct l.
    + assert (is_division op = true -> L2 <> 0) as Hd0 by (intros Hd; rewrite Hd in Ed; cbn in Ed; by apply Z.eqb_neq).
      destruct (fold2_ok l u op (sem e v1) (sem e v2) L2) as (r & Hf & Hrb & Hrs); try done.
      { destruct (is_shift op) eqn:Es; (split; [|done]); unfold sem; [rewrite Hsh by done|destruct Hr as [-> _]]; apply sg_idem. }
      rewrite Hw1. assert (fold2 op (if bt v1 =? VT_LLONG then 63 else 31) (ext l u (sem e v1)) L2 = Some r) as ->.
      { rewrite <- Hf. destruct (is_shift op) eqn:Es; [|by apply fold2_shm]. destruct (Hptr ltac:(done)) as [Hp1 _].
        assert ((bt v1 =? VT_LLONG) = l) as ->; [|done]. rewrite <- Hl. unfold width, wide_t. destruct (Z.eqb_spec (bt v1) VT_PTR); [done|].
        by rewrite orb_false_r. }
      cbn [outcome_ok]. rewrite <- Hrs. unfold sem, val, set_ci. cbn [cls ci]. rewrite (const_val v1 E1). unfold width at 1. cbn [bt].
      change (wide_t (bt v1)) with (width v1). rewrite Hl. rewrite narrow_val by done. change (wide_t (bt v1)) with (width v1). rewrite Hl.
      by rewrite sg_ext by apply sg_idem.
  - destruct (is_const v1 && commutes op) eqn:Es.
    + apply andb_true_iff in Es as [E1 Ecm]. destruct (commutes_ok l op (sem e v1) (sem e v2) Ecm) as (Es & Hnp & Hcomm).
      rewrite Es in *. destruct Hr as [Hr Hu2]. specialize (Hw1 E1). rewrite <- Hcomm.
      assert (outcome_ok e l (c_op l op (sem e v2) (sem e v1)) (simplify cw op (bt v1) (bt v2) (is_const v1) (is_const v1) L1 L1 v2 v1)) as H.
      { apply (simplify_ok e l u op (bt v1) (bt v2) (is_const v1) (is_const v1) L1 L1 v2 v1 cw); try done.
        - intros Ho. destruct (Hptr ltac:(by rewrite <- orb_assoc, Ho, orb_true_r)) as [_ Hp2]. rewrite <- Hr. unfold width, wide_t.
          destruct (Z.eqb_spec (bt v2) VT_PTR); [done|]. by rewrite orb_false_r.
        - by rewrite Es.
        - intros _. split; [by apply const_val|]. by rewrite Es. }
      by destruct (simplify _ _ _ _ _ _ _ _ _ _).
    + assert (outcome_ok e l (c_op l op (sem e v1) (sem e v2)) (simplify cw op (bt v1) (bt v2) (is_const v1) (is_const v2) L1 L2 v1 v2)) as H.
      { apply (simplify_ok e l u op (bt v1) (bt v2) (is_const v1) (is_const v2) L1 L2 v1 v2 cw); try done.
        - intros Ho. destruct (Hptr ltac:(by rewrite <- orb_assoc, Ho, orb_true_r)) as [_ Hp2].
          assert (is_shift op = false) as Esh.
          { rewrite orb_true_iff, !Z.eqb_eq in Ho. by destruct Ho as [-> | ->]. }
          rewrite Esh in Hr. destruct Hr as [Hr _]. rewrite <- Hr. unfold width, wide_t.
          destruct (Z.eqb_spec (bt v2) VT_PTR); [done|]. by rewrite orb_false_r.
        - intros E2. split; [by apply const_val|]. specialize (Hw2 E2). destruct (is_shift op) eqn:Esh; [split; [by apply Hsh|done]|].
          by destruct Hr. }
      by destruct (simplify _ _ _ _ _ _ _ _ _ _).
Qed.

Lemma gen_opic_correct_witness :
  let v1 := Sv VT_INT false (KOther 0) 0 in let v2 := Sv VT_INT false KConst 8 in let e := Venv (fun _ => 0) 0 (fun _ => 5) in
  gen_opic false false T_MUL v1 v2 = LowOp false TOK_SHL v1 (set_ci 3 v2) /\
  match gen_opic false false T_MUL v1 v2 with
  | DivZero => is_division T_MUL = true /\ is_const v1 = true /\ is_const v2 = true /\ sem e v2 = 0 /\ false = true /\ false = false
  | out => outcome_ok e false (c_op false T_MUL (sem e v1) (sem e v2)) out
  end.
Proof.
  intros v1 v2 e. split; [reflexivity|]. apply (gen_opic_correct e false T_MUL v1 v2 false false).
  constructor; try done; cbn; lia.
Defined.

(** The difference of two pointers to 12-byte elements, the left one 24 bytes lower: folded to -2 for
    constants, but the division the RISC-V back end emits for [TOK_PDIV] gives a huge positive number. *)
Lemma pointer_difference :
  gen_opic false false TOK_PDIV (Sv VT_LLONG false KConst (u64 (-24))) (Sv VT_LLONG false KConst 12) = Folded (Sv VT_LLONG false KConst (u64 (-2))) /\
  cop true TOK_PDIV (-24) 12 = 1537228672809129299.
Proof. by vm_compute. Qed.

