(* ===== verification/Elf.v ===== *)
(** The kernel's ELF loader ([src/kernel/mm/elf.c]): definitions.

    The file is at the physical (identity-mapped) address [data]; segments are written through the
    active address space, as the code writes through user virtual addresses.  The outer [option] of
    a result is [None] where the kernel stops: in [paging_map_page]'s FATAL loop, or on a store to
    a page that is not mapped writable ([ustore]).  The [kprintf] lines are not modelled. *)
From S2P Require Import Prelude Pmm Paging.

Definition page_round_down (x : Z) : Z := Z.land x (not64 (PAGE_SIZE - 1)).
Definition page_round_up (x : Z) : Z := Z.land (u64 (x + PAGE_SIZE - 1)) (not64 (PAGE_SIZE - 1)).

(** [*(unsigned char * )va = b] and [n] such stores from [va]. *)
Definition ustore (va b : Z) (s : vm) : option vm :=
  let f := paging_get_flags va s in
  if tst f 1 && tst f PTE_WRITABLE
  then Some (set_vmem (aset (vmem s) (paging_get_phys va s) b) s) else None.
Fixpoint uzero (n : nat) (va : Z) (s : vm) : option vm :=
  match n with
  | O => Some s
  | S n => match ustore va 0 s with Some s => uzero n (u64 (va + 1)) s | None => None end
  end.
(** [for (i = 0; i < n; i++) dst[i] = src[i];] *)
Fixpoint ucopy (n : nat) (dst src : Z) (s : vm) : option vm :=
  match n with
  | O => Some s
  | S n =>
      match ustore dst (aget (vmem s) src) s with
      | Some s => ucopy n (u64 (dst + 1)) (src + 1) s
      | None => None
      end
  end.

Definition segment_valid (size offset address filesz memsz : Z) : bool :=
  (filesz <=? memsz) && (offset <=? size) && (filesz <=? size - offset) &&
  (address <=? u64 (address + memsz)).

(** [for (va = seg_start; va < seg_end; va += PAGE_SIZE)]: [n] pages left. *)
Fixpoint load_pages (n : nat) (va : Z) (s : vm) : option (bool * vm) :=
  match n with
  | O => Some (true, s)
  | S n =>
      let '(phys, p) := pmm_alloc_page (vpmm s) in
      let s := set_vpmm p s in
      if phys =? 0 then Some (false, s)
      else
        match paging_map_page va phys (Z.lor (Z.lor PTE_PRESENT PTE_WRITABLE) PTE_USER) s with
        | None => None
        | Some s =>
            match uzero (Z.to_nat PAGE_SIZE) va s with
            | None => None
            | Some s => load_pages n (va + PAGE_SIZE) s
            end
        end
  end.
Definition load_segment (data p_offset p_vaddr p_filesz p_memsz : Z) (s : vm) : option (bool * vm) :=
  let seg_start := page_round_down p_vaddr in
  let seg_end := page_round_up (u64 (p_vaddr + p_memsz)) in
  match load_pages (Z.to_nat ((seg_end - seg_start) / PAGE_SIZE)) seg_start s with
  | None => None
  | Some (false, s) => Some (false, s)
  | Some (true, s) =>
      match ucopy (Z.to_nat p_filesz) p_vaddr (data + p_offset) s with
      | None => None
      | Some s => Some (true, s)
      end
  end.

(** The program header fields the loader reads, and both layouts of elf.h. *)
Record phdr := Phdr { p_type : Z; p_flags : Z; p_offset : Z; p_vaddr : Z; p_filesz : Z; p_memsz : Z }.
Definition Elf32_Phdr (m : gmap Z Z) (a : Z) : phdr :=
  Phdr (mget 4 m a) (mget 4 m (a + 24)) (mget 4 m (a + 4)) (mget 4 m (a + 8)) (mget 4 m (a + 16))
       (mget 4 m (a + 20)).
Definition Elf64_Phdr (m : gmap Z Z) (a : Z) : phdr :=
  Phdr (mget 4 m a) (mget 4 m (a + 4)) (mget 8 m (a + 8)) (mget 8 m (a + 16)) (mget 8 m (a + 32))
       (mget 8 m (a + 40)).
Definition PT_LOAD : Z := 1.

(** The loop over the program headers, which both classes share up to the layout [read], the size of
    an entry and the width of [e_entry - p_vaddr]: [Some (None, s)] is [return 0]. *)
Fixpoint load_loop (read : gmap Z Z -> Z -> phdr) (entsize : Z) (wrap : Z -> Z) (n : nat)
  (data size e_entry ph : Z) (loaded_any entry_ok : bool) (s : vm) : option (option (bool * bool) * vm) :=
  match n with
  | O => Some (Some (loaded_any, entry_ok), s)
  | S n =>
      let h := read (vmem s) ph in
      if negb (p_type h =? PT_LOAD) then
        load_loop read entsize wrap n data size e_entry (ph + entsize) loaded_any entry_ok s
      else if negb (segment_valid size (p_offset h) (p_vaddr h) (p_filesz h) (p_memsz h)) then Some (None, s)
      else
        match load_segment data (p_offset h) (p_vaddr h) (p_filesz h) (p_memsz h) s with
        | None => None
        | Some (false, s) => Some (None, s)
        | Some (true, s) =>
            let h := read (vmem s) ph in
            load_loop read entsize wrap n data size e_entry (ph + entsize) true
              (entry_ok || (tst (p_flags h) 1 && (p_vaddr h <=? e_entry) &&
                            (wrap (e_entry - p_vaddr h) <? p_memsz h))) s
        end
  end.

Definition elf_load32 (data size : Z) (s : vm) : option (Z * vm) :=
  let m := vmem s in
  if size <? 52 then Some (0, s)
  else if negb (mget 2 m (data + 18) =? 3) then Some (0, s)
  else if negb (mget 2 m (data + 16) =? 2) then Some (0, s)
  else
    let e_entry := mget 4 m (data + 24) in
    let e_phoff := mget 4 m (data + 28) in
    let e_phnum := mget 2 m (data + 44) in
    if negb (mget 2 m (data + 42) =? 32) || (size <? e_phoff) || ((size - e_phoff) / 32 <? e_phnum)
    then Some (0, s)
    else
      match load_loop Elf32_Phdr 32 u32 (Z.to_nat e_phnum) data size e_entry (data + e_phoff) false false s with
      | None => None
      | Some (Some (true, true), s) => Some (mget 4 (vmem s) (data + 24), s)
      | Some (_, s) => Some (0, s)
      end.

Definition elf_load64 (data size : Z) (s : vm) : option (Z * vm) :=
  let m := vmem s in
  if size <? 64 then Some (0, s)
  else if negb (mget 2 m (data + 18) =? 243) then Some (0, s)
  else if negb (mget 2 m (data + 16) =? 2) then Some (0, s)
  else
    let e_entry := mget 8 m (data + 24) in
    let e_phoff := mget 8 m (data + 32) in
    let e_phnum := mget 2 m (data + 56) in
    if negb (mget 2 m (data + 54) =? 56) || (size <? e_phoff) || ((size - e_phoff) / 56 <? e_phnum)
    then Some (0, s)
    else
      match load_loop Elf64_Phdr 56 u64 (Z.to_nat e_phnum) data size e_entry (data + e_phoff) false false s with
      | None => None
      | Some (Some (true, true), s) => Some (mget 8 (vmem s) (data + 24), s)
      | Some (_, s) => Some (0, s)
      end.

Definition elf_load (data size : Z) (s : vm) : option (Z * vm) :=
  let m := vmem s in
  if size <? 16 then Some (0, s)
  else if negb (aget m data =? 0x7f) || negb (aget m (data + 1) =? 69) || negb (aget m (data + 2) =? 76) ||
          negb (aget m (data + 3) =? 70) then Some (0, s)
  else if aget m (data + 4) =? 1 then elf_load32 data size s
  else if aget m (data + 4) =? 2 then elf_load64 data size s
  else Some (0, s).
