(* ===== verification/Process.v ===== *)
(** The process table, file-descriptor tables and pipes of the kernel ([src/kernel/sched/process.c]):
    definitions.

    The statics are the record [ksys], with the riscv64 trap frame [live] (the [struct regs] at
    RV64_TRAPFRAME_BASE, 35 words in the order of riscv64_trap.h), the word at
    RV64_CURRENT_KSTACK_PTR ([kstack], the slot whose kernel stack it points to) and the paging
    state [kvm].  A [struct process *] is a slot number, a [struct pipe *] an index of [pipes], a
    [struct fd_entry *] an [fdref] of some slot.

    The kernel is cooperative: a process gives up the processor only inside [process_schedule].
    [switch_context] suspends the kernel stack of the old process, and what it suspends always goes
    on with [process_arch_activate_and_restore], so [process_schedule] is the function that ends in
    the next process's context; the three loops that call it ([process_pipe_read],
    [process_pipe_write], [process_wait4]) are given as the part that runs up to the call or up to
    the return, and ProcessSys.v interleaves them.  [None] is a kernel that has stopped (halted, in
    the FATAL loop) or the overflow of a signed counter. *)
From S2P Require Import Prelude Pmm Paging.

Definition MAX_PROCESSES : Z := 8.
Definition MAX_FDS : Z := 32.
Definition MAX_PIPES : Z := 4.
Definition PIPE_SIZE : Z := 4096.
Definition USER_BRK_BASE : Z := 0x40000000.
Definition USER_MMAP_BASE : Z := 0x60000000.
Definition USER_STACK_TOP : Z := 0xB1000000.
Definition USER_STACK_LIMIT : Z := 0xB0000000.
Definition USER_STACK_INITIAL_PAGES : Z := 2.
Definition EPIPE : Z := 32.
Definition ECHILD : Z := 10.
Definition WNOHANG : Z := 1.

Inductive process_state := PROC_UNUSED | PROC_RUNNABLE | PROC_ZOMBIE.
#[export] Instance process_state_eq_dec : EqDecision process_state.
Proof. solve_decision. Defined.

Record fd_entry := FdEntry {
  fd_used : bool;
  fd_data : Z;
  fd_size : Z;
  fd_pos : Z;
  fd_is_dir : bool;
  fd_dynfile : option Z;
  fd_pipe : option Z;
  fd_pipe_write : bool;
  fd_path : list Z
}.
Definition no_fd : fd_entry := FdEntry false 0 0 0 false None None false [].
Definition set_used (b : bool) (f : fd_entry) : fd_entry :=
  FdEntry b (fd_data f) (fd_size f) (fd_pos f) (fd_is_dir f) (fd_dynfile f) (fd_pipe f) (fd_pipe_write f) (fd_path f).
Definition set_pipe (p : option Z) (w : bool) (f : fd_entry) : fd_entry :=
  FdEntry (fd_used f) (fd_data f) (fd_size f) (fd_pos f) (fd_is_dir f) (fd_dynfile f) p w (fd_path f).

(** An entry of a process: [&p->fds[i]] or [&p->stdio_override[i]]. *)
Inductive fdref := Fd (i : Z) | Std (i : Z).
#[export] Instance fdref_eq_dec : EqDecision fdref.
Proof. solve_decision. Defined.
#[export] Instance fdref_countable : Countable fdref.
Proof.
  apply (inj_countable' (fun r => match r with Fd i => inl i | Std i => inr i end)
                        (fun x => match x with inl i => Fd i | inr i => Std i end)).
  by intros [].
Defined.

(** The words of [struct regs] the process layer names. *)
Definition R_SP : nat := 1.
Definition R_A0 : nat := 9.
Definition R_SEPC : nat := 31.
Definition R_SSTATUS : nat := 32.
Definition regs_words : nat := 35.

Record process := Process {
  pid : Z;
  ppid : Z;
  state : process_state;
  root_table : Z;
  user_stack_lo : Z;
  user_stack_hi : Z;
  user_stack_limit : Z;
  user_brk : Z;
  user_mmap_next : Z;
  tls_base : Z;
  user_regs : list Z;
  exit_code : Z;
  fdtab : gmap fdref fd_entry;
  cwd : list Z
}.
Definition no_process : process :=
  Process 0 0 PROC_UNUSED 0 0 0 0 0 0 0 (repeat 0 regs_words) 0 ∅ [].
Definition fde (p : process) (r : fdref) : fd_entry := default no_fd (fdtab p !! r).

Definition set_state (v : process_state) (p : process) : process :=
  Process (pid p) (ppid p) v (root_table p) (user_stack_lo p) (user_stack_hi p) (user_stack_limit p)
    (user_brk p) (user_mmap_next p) (tls_base p) (user_regs p) (exit_code p) (fdtab p) (cwd p).
Definition set_exit_code (v : Z) (p : process) : process :=
  Process (pid p) (ppid p) (state p) (root_table p) (user_stack_lo p) (user_stack_hi p) (user_stack_limit p)
    (user_brk p) (user_mmap_next p) (tls_base p) (user_regs p) v (fdtab p) (cwd p).
Definition set_root (v : Z) (p : process) : process :=
  Process (pid p) (ppid p) (state p) v (user_stack_lo p) (user_stack_hi p) (user_stack_limit p)
    (user_brk p) (user_mmap_next p) (tls_base p) (user_regs p) (exit_code p) (fdtab p) (cwd p).
Definition set_regs (v : list Z) (p : process) : process :=
  Process (pid p) (ppid p) (state p) (root_table p) (user_stack_lo p) (user_stack_hi p) (user_stack_limit p)
    (user_brk p) (user_mmap_next p) (tls_base p) v (exit_code p) (fdtab p) (cwd p).
Definition set_space (lo hi limit brk mmap : Z) (p : process) : process :=
  Process (pid p) (ppid p) (state p) (root_table p) lo hi limit brk mmap (tls_base p) (user_regs p)
    (exit_code p) (fdtab p) (cwd p).
Definition set_tls (v : Z) (p : process) : process :=
  Process (pid p) (ppid p) (state p) (root_table p) (user_stack_lo p) (user_stack_hi p) (user_stack_limit p)
    (user_brk p) (user_mmap_next p) v (user_regs p) (exit_code p) (fdtab p) (cwd p).
Definition set_cwd (v : list Z) (p : process) : process :=
  Process (pid p) (ppid p) (state p) (root_table p) (user_stack_lo p) (user_stack_hi p) (user_stack_limit p)
    (user_brk p) (user_mmap_next p) (tls_base p) (user_regs p) (exit_code p) (fdtab p) v.
Definition set_fde (r : fdref) (f : fd_entry) (p : process) : process :=
  Process (pid p) (ppid p) (state p) (root_table p) (user_stack_lo p) (user_stack_hi p) (user_stack_limit p)
    (user_brk p) (user_mmap_next p) (tls_base p) (user_regs p) (exit_code p) (<[r := f]> (fdtab p)) (cwd p).
Definition set_ids (i pi : Z) (p : process) : process :=
  Process i pi (state p) (root_table p) (user_stack_lo p) (user_stack_hi p) (user_stack_limit p)
    (user_brk p) (user_mmap_next p) (tls_base p) (user_regs p) (exit_code p) (fdtab p) (cwd p).

Record pipe := Pipe { p_read : Z; p_write : Z; readers : Z; writers : Z; p_data : gmap Z Z }.
Definition no_pipe : pipe := Pipe 0 0 0 0 ∅.

Record ksys := Ksys {
  procs : gmap Z process;
  current : option Z;
  next_pid : Z;
  process_mode : bool;
  pipes : gmap Z pipe;
  live : list Z;
  kstack : option Z;
  kvm : vm
}.
Definition getp (s : ksys) (i : Z) : process := default no_process (procs s !! i).
Definition getpipe (s : ksys) (i : Z) : pipe := default no_pipe (pipes s !! i).
Definition set_procs (v : gmap Z process) (s : ksys) : ksys :=
  Ksys v (current s) (next_pid s) (process_mode s) (pipes s) (live s) (kstack s) (kvm s).
Definition upd (i : Z) (f : process -> process) (s : ksys) : ksys :=
  set_procs (<[i := f (getp s i)]> (procs s)) s.
Definition set_current (v : option Z) (s : ksys) : ksys :=
  Ksys (procs s) v (next_pid s) (process_mode s) (pipes s) (live s) (kstack s) (kvm s).
Definition set_next_pid (v : Z) (s : ksys) : ksys :=
  Ksys (procs s) (current s) v (process_mode s) (pipes s) (live s) (kstack s) (kvm s).
Definition set_pipes (i : Z) (p : pipe) (s : ksys) : ksys :=
  Ksys (procs s) (current s) (next_pid s) (process_mode s) (<[i := p]> (pipes s)) (live s) (kstack s) (kvm s).
Definition set_live (v : list Z) (s : ksys) : ksys :=
  Ksys (procs s) (current s) (next_pid s) (process_mode s) (pipes s) v (kstack s) (kvm s).
Definition set_kvm (v : vm) (s : ksys) : ksys :=
  Ksys (procs s) (current s) (next_pid s) (process_mode s) (pipes s) (live s) (kstack s) v.
Definition fde_at (s : ksys) (i : Z) (r : fdref) : fd_entry := fde (getp s i) r.

(** ** The table *)

(** The first slot, from [i], of the next [n] whose state is [st]. *)
Fixpoint find_state (st : process_state) (n : nat) (i : Z) (s : ksys) : option Z :=
  match n with
  | O => None
  | S n => if decide (state (getp s i) = st) then Some i else find_state st n (i + 1) s
  end.
Definition alloc_slot (s : ksys) : option Z := find_state PROC_UNUSED (Z.to_nat MAX_PROCESSES) 0 s.

Fixpoint unuse (n : nat) (i : Z) (s : ksys) : ksys :=
  match n with O => s | S n => unuse n (i + 1) (upd i (set_state PROC_UNUSED) s) end.
Definition process_init (s : ksys) : ksys := set_current None (unuse (Z.to_nat MAX_PROCESSES) 0 s).

(** [next_pid++] on an [int]. *)
Definition bump_pid (s : ksys) : option (Z * ksys) :=
  if next_pid s =? 2147483647 then None else Some (next_pid s, set_next_pid (next_pid s + 1) s).

(** ** riscv64_process.c *)

Definition process_arch_save_trapframe (i : Z) (s : ksys) : ksys := upd i (set_regs (live s)) s.
Definition process_arch_activate_and_restore (i : Z) (s : ksys) : ksys :=
  let s := set_kvm (paging_activate (root_table (getp s i)) (kvm s)) s in
  Ksys (procs s) (current s) (next_pid s) (process_mode s) (pipes s) (user_regs (getp s i)) (Some i) (kvm s).
(** [sstatus] is the CSR's value when the context is made. *)
Definition process_arch_init_context (sstatus entry sp : Z) (p : process) : process :=
  let sstatus := Z.land sstatus (not64 0x100) in
  let sstatus := if tst sstatus 0x2 then Z.lor sstatus 0x20 else Z.land sstatus (not64 0x20) in
  set_regs (<[R_SSTATUS := sstatus]> (<[R_SP := sp]> (<[R_SEPC := entry]> (repeat 0 regs_words)))) p.
Definition process_arch_fork_child (parent_regs : list Z) (p : process) : process :=
  set_regs (<[R_A0 := 0]> parent_regs) p.
(** The registers set to 0 are words 0 to 30, [sp] apart; [sstatus], [scause] and [stval] stay. *)
Definition process_arch_execve_rewrite (entry sp : Z) (r : list Z) : list Z :=
  <[R_SEPC := entry]> (<[R_SP := sp]> (repeat 0 31 ++ skipn 31 r)).

(** ** Scheduling *)

Fixpoint next_loop (n : nat) (idx : Z) (s : ksys) : option Z :=
  match n with
  | O => None
  | S n =>
      let idx := (idx + 1) mod MAX_PROCESSES in
      if decide (state (getp s idx) = PROC_RUNNABLE) then Some idx else next_loop n idx s
  end.
Definition next_runnable (start : Z) (s : ksys) : option Z := next_loop (Z.to_nat MAX_PROCESSES) start s.

Definition process_schedule (old : Z) (s : ksys) : ksys :=
  match next_runnable old s with
  | None => s
  | Some next =>
      if next =? old then s
      else process_arch_activate_and_restore next
             (set_current (Some next) (process_arch_save_trapframe old s))
  end.

Definition process_run (first : Z) (s : ksys) : ksys :=
  process_arch_activate_and_restore first
    (Ksys (procs s) (Some first) (next_pid s) true (pipes s) (live s) (kstack s) (kvm s)).

(** ** File descriptors *)

Definition refs_of (w : bool) (p : pipe) : Z := if w then writers p else readers p.
Definition set_refs (w : bool) (v : Z) (p : pipe) : pipe :=
  if w then Pipe (p_read p) (p_write p) (readers p) v (p_data p)
  else Pipe (p_read p) (p_write p) v (writers p) (p_data p).

Definition fd_entry_release (i : Z) (r : fdref) (s : ksys) : ksys :=
  let fd := fde_at s i r in
  let s := match fd_pipe fd with
           | Some pi =>
               let p := getpipe s pi in
               let w := fd_pipe_write fd in
               if fd_used fd && negb (refs_of w p =? 0)
               then set_pipes pi (set_refs w (refs_of w p - 1) p) s else s
           | None => s
           end in
  upd i (set_fde r (set_used false (set_pipe None (fd_pipe_write fd) fd))) s.

(** [dst] keeps its [used]. *)
Definition fd_entry_copy (di : Z) (dr : fdref) (si : Z) (sr : fdref) (s : ksys) : ksys :=
  let src := fde_at s si sr in
  let s := upd di (set_fde dr (set_used (fd_used (fde_at s di dr)) src)) s in
  match fd_pipe src with
  | Some pi =>
      let p := getpipe s pi in
      let w := fd_pipe_write src in
      if fd_used src then set_pipes pi (set_refs w (u32 (refs_of w p + 1)) p) s else s
  | None => s
  end.

Definition mark_used (i : Z) (r : fdref) (b : bool) (s : ksys) : ksys :=
  upd i (set_fde r (set_used b (fde_at s i r))) s.

(** The fd functions act on the current process [c]. *)
Fixpoint fd_alloc_loop (n : nat) (i : Z) (c : Z) (s : ksys) : Z * ksys :=
  match n with
  | O => (-1, s)
  | S n => if negb (fd_used (fde_at s c (Fd i))) then (i, mark_used c (Fd i) true s)
           else fd_alloc_loop n (i + 1) c s
  end.
Definition process_fd_alloc (c : Z) (s : ksys) : Z * ksys := fd_alloc_loop (Z.to_nat MAX_FDS) 0 c s.
Definition process_fd_get (c index : Z) (s : ksys) : option fdref :=
  if (index <? 0) || (MAX_FDS <=? index) || negb (fd_used (fde_at s c (Fd index))) then None
  else Some (Fd index).
Definition process_fd_close (c index : Z) (s : ksys) : ksys :=
  if (0 <=? index) && (index <? MAX_FDS) then fd_entry_release c (Fd index) s else s.
Definition process_fd_set (c index : Z) (src : fdref) (s : ksys) : ksys :=
  if (index <? 0) || (MAX_FDS <=? index) then s
  else mark_used c (Fd index) true (fd_entry_copy c (Fd index) c src (fd_entry_release c (Fd index) s)).
Definition process_stdio_get (c fd : Z) (s : ksys) : option fdref :=
  if (fd <? 0) || (2 <? fd) || negb (fd_used (fde_at s c (Std fd))) then None else Some (Std fd).
Definition process_stdio_set (c fd : Z) (src : fdref) (s : ksys) : ksys :=
  if (fd <? 0) || (2 <? fd) then s
  else mark_used c (Std fd) true (fd_entry_copy c (Std fd) c src (fd_entry_release c (Std fd) s)).
Definition process_stdio_clear (c fd : Z) (s : ksys) : ksys :=
  if (0 <=? fd) && (fd <=? 2) then fd_entry_release c (Std fd) s else s.

(** ** Pipes *)

Fixpoint free_pipe (n : nat) (i : Z) (s : ksys) : option Z :=
  match n with
  | O => None
  | S n => if (readers (getpipe s i) =? 0) && (writers (getpipe s i) =? 0) then Some i
           else free_pipe n (i + 1) s
  end.
(** The value is [None] for -1, or the two fd numbers. *)
Definition process_pipe_create (c : Z) (s : ksys) : option (Z * Z) * ksys :=
  match free_pipe (Z.to_nat MAX_PIPES) 0 s with
  | None => (None, s)
  | Some pi =>
      let '(rd, s) := process_fd_alloc c s in
      let '(wr, s) := process_fd_alloc c s in
      if (rd <? 0) || (wr <? 0) then
        (None, if 0 <=? rd then process_fd_close c rd s else s)
      else
        let s := set_pipes pi (Pipe 0 0 1 1 (p_data (getpipe s pi))) s in
        let s := upd c (set_fde (Fd rd) (set_pipe (Some pi) false (fde_at s c (Fd rd)))) s in
        let s := upd c (set_fde (Fd wr) (set_pipe (Some pi) true (fde_at s c (Fd wr)))) s in
        (Some (rd + 3, wr + 3), s)
  end.

(** [process_pipe_read] from some point of its loop up to the next [process_schedule] ([true]) or up
    to its return: [want] bytes still wanted, [acc] the bytes already in [buf]. *)
Fixpoint pipe_read_run (want : nat) (acc : list Z) (p : pipe) : bool * nat * list Z * pipe :=
  match want with
  | O => (false, O, acc, p)
  | S w =>
      if p_read p =? p_write p then (negb (writers p =? 0), want, acc, p)
      else pipe_read_run w (acc ++ [aget (p_data p) (p_read p mod PIPE_SIZE)])
             (Pipe (u32 (p_read p + 1)) (p_write p) (readers p) (writers p) (p_data p))
  end.

(** The same of [process_pipe_write]: [n] bytes written, [rest] still to write. *)
Fixpoint pipe_write_run (rest : list Z) (n : Z) (p : pipe) : bool * list Z * Z * pipe :=
  match rest with
  | [] => (false, [], n, p)
  | b :: rest' =>
      if readers p =? 0 then (false, rest, n, p)
      else if u32 (p_write p - p_read p) =? PIPE_SIZE then (true, rest, n, p)
      else pipe_write_run rest' (n + 1)
             (Pipe (p_read p) (u32 (p_write p + 1)) (readers p) (writers p)
                   (aset (p_data p) (p_write p mod PIPE_SIZE) b))
  end.
(** [return n ? n : -32], and 0 for an empty buffer. *)
Definition pipe_write_result (count n : Z) : Z := if count =? 0 then 0 else if n =? 0 then - EPIPE else n.

(** ** Exit, fork, wait *)

(** [for (i = ...; n left; i++) fd_entry_release(&table[i]);], [table] the [fds] or [stdio_override]. *)
Fixpoint release_loop (table : Z -> fdref) (n : nat) (i : Z) (c : Z) (s : ksys) : ksys :=
  match n with O => s | S n => release_loop table n (i + 1) c (fd_entry_release c (table i) s) end.

(** [None]: the table has drained, and the kernel goes on to the drain hook or halts. *)
Definition process_exit_current (c code : Z) (s : ksys) : option ksys :=
  let s := release_loop Std 3 0 c (release_loop Fd (Z.to_nat MAX_FDS) 0 c s) in
  let s := upd c (fun p => set_exit_code code (set_state PROC_ZOMBIE p)) s in
  match find_state PROC_RUNNABLE (Z.to_nat MAX_PROCESSES) 0 s with
  | None => None
  | Some next => Some (process_arch_activate_and_restore next (set_current (Some next) s))
  end.

Definition fork_entry (child parent : Z) (r : fdref) (s : ksys) : ksys :=
  mark_used child r (fd_used (fde_at s parent r)) (fd_entry_copy child r parent r s).
Fixpoint fork_loop (table : Z -> fdref) (n : nat) (i : Z) (child parent : Z) (s : ksys) : ksys :=
  match n with
  | O => s
  | S n => fork_loop table n (i + 1) child parent (fork_entry child parent (table i) s)
  end.

(** Lines 429-438: the child's fields other than its descriptors. *)
Definition fork_fields (root id : Z) (parent child : process) : process :=
  set_cwd (cwd parent) (set_tls (tls_base parent)
    (set_space (user_stack_lo parent) (user_stack_hi parent) (user_stack_limit parent) (user_brk parent)
       (user_mmap_next parent) (set_exit_code 0 (set_ids id (pid parent) (set_root root child))))).

Section root.
Context (RT : Z).

Definition process_fork (c : Z) (s : ksys) : option (Z * ksys) :=
  match alloc_slot s with
  | None => Some (-1, s)
  | Some child =>
      match paging_new_addrspace RT (kvm s) with
      | None => None
      | Some (child_root, v) =>
          match paging_fork_user child_root (root_table (getp s c)) v with
          | None => None
          | Some v =>
              let s := set_kvm v s in
              match bump_pid s with
              | None => None
              | Some (id, s) =>
                  let s := upd child (fork_fields child_root id (getp s c)) s in
                  let s := fork_loop Std 3 0 child c (fork_loop Fd (Z.to_nat MAX_FDS) 0 child c s) in
                  let s := upd child (process_arch_fork_child (live s)) s in
                  let s := upd child (set_state PROC_RUNNABLE) s in
                  Some (pid (getp s child), s)
              end
          end
      end
  end.

(** One scan of [process_wait4]'s table: [have] is have_matching_child; the slot found is a zombie. *)
Fixpoint wait_scan (n : nat) (i : Z) (me want : Z) (have : bool) (s : ksys) : bool * option Z :=
  match n with
  | O => (have, None)
  | S n =>
      let p := getp s i in
      if bool_decide (state p = PROC_UNUSED) || negb (ppid p =? me) then wait_scan n (i + 1) me want have s
      else if negb (want =? -1) && negb (pid p =? want) then wait_scan n (i + 1) me want have s
      else if bool_decide (state p = PROC_ZOMBIE) then (true, Some i)
      else wait_scan n (i + 1) me want true s
  end.

Inductive wait_outcome :=
  | Waited (ret : Z) (status : option Z)  (** the return value, and [*status_out] when written *)
  | WaitYield.                            (** [process_schedule()] and scan again *)

Definition process_wait4_run (c want options : Z) (s : ksys) : wait_outcome * ksys :=
  match wait_scan (Z.to_nat MAX_PROCESSES) 0 (pid (getp s c)) want false s with
  | (_, Some z) =>
      let p := getp s z in
      (Waited (pid p) (Some (Z.shiftl (Z.land (exit_code p) 0xff) 8)),
       upd z (fun p => set_state PROC_UNUSED (set_root 0 p))
         (set_kvm (paging_destroy_addrspace RT (root_table p) (kvm s)) s))
  | (false, None) => (Waited (- ECHILD) None, s)
  | (true, None) => if tst options WNOHANG then (Waited 0 None, s) else (WaitYield, s)
  end.
End root.

(** ** Bookkeeping of the current process *)

Definition process_current_pid (s : ksys) : Z := match current s with Some c => pid (getp s c) | None => 0 end.
Definition process_current_ppid (s : ksys) : Z := match current s with Some c => ppid (getp s c) | None => 0 end.
Definition process_current_brk (s : ksys) : Z :=
  match current s with Some c => user_brk (getp s c) | None => USER_BRK_BASE end.
Definition set_brk (v : Z) (p : process) : process :=
  set_space (user_stack_lo p) (user_stack_hi p) (user_stack_limit p) v (user_mmap_next p) p.
Definition set_mmap (v : Z) (p : process) : process :=
  set_space (user_stack_lo p) (user_stack_hi p) (user_stack_limit p) (user_brk p) v p.
Definition process_set_current_brk (v : Z) (s : ksys) : ksys :=
  match current s with Some c => upd c (set_brk v) s | None => s end.
Definition process_take_mmap (c length : Z) (s : ksys) : Z * ksys :=
  let base := user_mmap_next (getp s c) in
  (base, upd c (set_mmap (u64 (base + length))) s).
Definition process_note_mmap_end (end_ : Z) (s : ksys) : ksys :=
  match current s with
  | Some c => if user_mmap_next (getp s c) <? end_ then upd c (set_mmap end_) s else s
  | None => s
  end.
Definition process_current_cwd (s : ksys) : list Z :=
  match current s with Some c => cwd (getp s c) | None => lit "/" end.
(** [cwd] keeps the bytes before the NUL. *)
Definition process_set_current_cwd (path : list Z) (s : ksys) : ksys :=
  match current s with Some c => upd c (set_cwd (firstn 127 path)) s | None => s end.

(** The words of a page, zeroed ([zero_table] is the same loop on a page table). *)
Definition process_handle_stack_fault (address : Z) (s : ksys) : option (bool * ksys) :=
  match current s with
  | None => Some (false, s)
  | Some c =>
      let p := getp s c in
      if (address <? user_stack_limit p) || (user_stack_hi p <=? address) then Some (false, s)
      else
        let page := Z.land address (not64 (PAGE_SIZE - 1)) in
        let '(phys, a) := pmm_alloc_page (vpmm (kvm s)) in
        let s := set_kvm (set_vpmm a (kvm s)) s in
        if phys =? 0 then Some (false, s)
        else
          let v := set_vmem (zero_table 512 phys 0 (vmem (kvm s))) (kvm s) in
          match paging_map_page page phys (Z.lor (Z.lor PTE_PRESENT PTE_WRITABLE) PTE_USER) v with
          | None => None
          | Some v =>
              let s := set_kvm v s in
              Some (true,
                if page <? user_stack_lo p
                then upd c (fun p => set_space page (user_stack_hi p) (user_stack_limit p) (user_brk p)
                                       (user_mmap_next p) p) s
                else s)
          end
  end.
