(* ===== verification/ProcessPipe.v ===== *)
(** Pipes ([process_pipe_read], [process_pipe_write] of [src/kernel/sched/process.c]) refine bounded
    queues of bytes: the ring buffer with its free-running 32-bit counters holds the queue [pending],
    a read takes from its front, a write appends to its end. *)
From S2P Require Import Prelude Process.

(** The bytes between the counters, oldest first. *)
Definition pending (p : pipe) : list Z :=
  map (fun k => aget (p_data p) ((p_read p + Z.of_nat k) mod PIPE_SIZE))
      (seq 0 (Z.to_nat (u32 (p_write p - p_read p)))).

Record pipe_ok (p : pipe) : Prop := {
  ring_read : isu32 (p_read p);
  ring_write : isu32 (p_write p);
  ring_fill : u32 (p_write p - p_read p) <= PIPE_SIZE
}.

Lemma pending_length p : length (pending p) = Z.to_nat (u32 (p_write p - p_read p)).
Proof. unfold pending. by rewrite length_map, length_seq. Qed.

Lemma pending_ext p q : p_read q = p_read p -> p_write q = p_write p -> p_data q = p_data p ->
  pending q = pending p.
Proof. unfold pending. by intros -> -> ->. Qed.

Lemma ring_wrap a : u32 a mod PIPE_SIZE = a mod PIPE_SIZE.
Proof. unfold u32, PIPE_SIZE. apply Z.mod_mod_divide. by exists 1048576. Qed.

(** Taking the oldest byte. *)
Lemma pending_take p : pipe_ok p -> p_read p <> p_write p ->
  let q := Pipe (u32 (p_read p + 1)) (p_write p) (readers p) (writers p) (p_data p) in
  pipe_ok q /\ pending p = aget (p_data p) (p_read p mod PIPE_SIZE) :: pending q.
Proof.
  intros [Hr Hw Hf] Hne q.
  assert (u32 (p_write p - u32 (p_read p + 1)) = u32 (p_write p - p_read p) - 1) as Hq
    by (unfold u32, PIPE_SIZE in *; zlia).
  assert (0 < u32 (p_write p - p_read p)) by (unfold u32 in *; zlia).
  split.
  - split; cbn; [apply u32_bound|done|lia].
  - unfold pending. cbn [p_read p_write p_data q]. rewrite Hq.
    replace (Z.to_nat (u32 (p_write p - p_read p))) with
      (S (Z.to_nat (u32 (p_write p - p_read p) - 1))) by lia.
    cbn [seq map]. rewrite Z.add_0_r. f_equal. rewrite <- seq_shift, map_map.
    apply map_ext. intros k. rewrite <- (ring_wrap (u32 _ + _)).
    f_equal. rewrite <- (ring_wrap (p_read p + _)). f_equal. unfold u32. zlia.
Qed.

(** Appending one byte to a ring that is not full. *)
Lemma pending_put p b : pipe_ok p -> u32 (p_write p - p_read p) <> PIPE_SIZE ->
  let q := Pipe (p_read p) (u32 (p_write p + 1)) (readers p) (writers p)
             (aset (p_data p) (p_write p mod PIPE_SIZE) b) in
  pipe_ok q /\ pending q = pending p ++ [b].
Proof.
  intros [Hr Hw Hf] Hne q. set (n := u32 (p_write p - p_read p)) in *.
  assert (u32 (u32 (p_write p + 1) - p_read p) = n + 1) as Hq by (unfold n, u32, PIPE_SIZE in *; zlia).
  assert (0 <= n) by apply u32_bound.
  assert (p_write p mod PIPE_SIZE = (p_read p + n) mod PIPE_SIZE) as Hpos.
  { rewrite <- (ring_wrap (p_read p + n)). rewrite <- (u32_small (p_write p)) at 1 by done.
    rewrite !ring_wrap. rewrite <- (ring_wrap (p_write p)), <- (ring_wrap (p_read p + n)). f_equal.
    unfold n, u32. zlia. }
  split.
  - split; cbn; [done|apply u32_bound|lia].
  - unfold pending. cbn [p_read p_write p_data q]. rewrite Hq. fold n.
    replace (Z.to_nat (n + 1)) with (Z.to_nat n + 1)%nat by lia. rewrite seq_app, map_app. f_equal.
    + apply map_ext_in. intros k Hk%in_seq. apply aget_aset_ne. rewrite Hpos.
      intros E. unfold PIPE_SIZE in *.
      assert ((n - Z.of_nat k) mod 4096 = 0) as Hm.
      { replace (n - Z.of_nat k) with ((p_read p + n) - (p_read p + Z.of_nat k)) by lia.
        rewrite Zminus_mod, E, Z.sub_diag. done. }
      rewrite Z.mod_small in Hm by lia. lia.
    + cbn [seq map]. do 2 f_equal. rewrite Nat.add_0_l, Z2Nat.id, <- Hpos by done. apply aget_aset_eq.
Qed.

(** What a read does: it takes as many bytes as it wants and there are, leaves the counts alone, and
    has to wait exactly if it wants more and there is a writer left. *)
Lemma pipe_read_run_spec want acc p : pipe_ok p ->
  exists p', pipe_read_run want acc p =
    (bool_decide (length (pending p) < want)%nat && negb (writers p =? 0),
     (want - length (pending p))%nat, acc ++ firstn want (pending p), p') /\
    pipe_ok p' /\ pending p' = skipn want (pending p) /\
    readers p' = readers p /\ writers p' = writers p.
Proof.
  revert acc p. induction want as [|want IH]; intros acc p Hp; cbn [pipe_read_run].
  - exists p. rewrite bool_decide_eq_false_2 by lia. by rewrite app_nil_r.
  - destruct (Z.eqb_spec (p_read p) (p_write p)) as [E|E].
    + exists p. assert (pending p = []) as ->.
      { apply length_zero_iff_nil. rewrite pending_length, E, Z.sub_diag. done. }
      rewrite firstn_nil, app_nil_r, bool_decide_eq_true_2 by (cbn; lia). done.
    + destruct (pending_take p Hp E) as [Hq Hc].
      edestruct IH as (p' & -> & Hok & Hpe & Hr & Hw); [exact Hq|]. exists p'.
      rewrite Hc. cbn [firstn skipn List.length]. rewrite <- app_assoc. cbn [app writers].
      split; [|split; [done|]; split; [done|]; split; [exact Hr|exact Hw]].
      erewrite (bool_decide_ext (S _ < S want)%nat); [reflexivity|lia].
Qed.

(** What a write does while there are readers: it appends what fits, and has to wait exactly if
    something is left; with no reader it does nothing. *)
Lemma pipe_write_run_spec rest n p : pipe_ok p ->
  exists p', pipe_write_run rest n p =
    (let room := if readers p =? 0 then O else (4096 - length (pending p))%nat in
     (bool_decide (room < length rest)%nat && negb (readers p =? 0),
      skipn room rest, n + Z.of_nat (length (firstn room rest)), p')) /\
    pipe_ok p' /\
    pending p' = pending p ++ firstn (if readers p =? 0 then O else (4096 - length (pending p))%nat) rest /\
    readers p' = readers p /\ writers p' = writers p.
Proof.
  revert n p. induction rest as [|b rest IH]; intros n p Hp; cbn [pipe_write_run].
  - exists p. cbv zeta. rewrite firstn_nil, skipn_nil, app_nil_r, Z.add_0_r.
    rewrite bool_decide_eq_false_2 by (cbn; lia). done.
  - destruct (Z.eqb_spec (readers p) 0) as [E|E].
    { exists p. cbn. by rewrite andb_false_r, Z.add_0_r, app_nil_r. }
    destruct (Z.eqb_spec (u32 (p_write p - p_read p)) PIPE_SIZE) as [F|F].
    { exists p. rewrite pending_length, F. cbn. by rewrite Z.add_0_r, app_nil_r. }
    destruct (pending_put p b Hp F) as [Hq Hc].
    destruct (IH (n + 1) _ Hq) as (p' & -> & Hok & Hpe & Hr & Hw). exists p'.
    cbn [readers writers] in *. rewrite Hc in *. destruct (Z.eqb_spec (readers p) 0) as [|_]; [done|].
    cbv zeta in *. rewrite length_app in *. cbn [List.length] in *.
    assert (length (pending p) < 4096)%nat as Hl.
    { rewrite pending_length. destruct Hp as [_ _ Hf]. unfold PIPE_SIZE in *.
      pose proof (u32_bound (p_write p - p_read p)). lia. }
    replace (4096 - length (pending p))%nat with (S (4096 - (length (pending p) + 1)))%nat by lia.
    cbn [firstn skipn List.length]. split; [|split; [done|split; [|done]]].
    + erewrite (bool_decide_ext (S _ < S (List.length rest))%nat); [|symmetry; apply Nat.succ_lt_mono].
      f_equal. f_equal. lia.
    + rewrite Hpe, <- app_assoc. done.
Qed.
