(* ===== verification/ProcessFds.v ===== *)
(** File descriptors and the pipe counts ([fd_entry_release], [fd_entry_copy] and their callers in
    [src/kernel/sched/process.c]): in every operation the counts of a pipe stay the numbers of open
    descriptors of its two ends, over the tables of all the processes. *)
From S2P Require Import Prelude Pmm Paging Process.

(** ** Reading the state back *)

Lemma getp_upd s i f j : getp (upd i f s) j = if decide (i = j) then f (getp s i) else getp s j.
Proof.
  unfold upd, getp. cbn. case_decide; subst; [by rewrite lookup_insert_eq|by rewrite lookup_insert_ne].
Qed.
Lemma getpipe_set_pipes s i p j : getpipe (set_pipes i p s) j = if decide (i = j) then p else getpipe s j.
Proof.
  unfold set_pipes, getpipe. cbn. case_decide; subst; [by rewrite lookup_insert_eq|by rewrite lookup_insert_ne].
Qed.
Lemma fde_set_fde p r f q : fde (set_fde r f p) q = if decide (r = q) then f else fde p q.
Proof.
  unfold fde, set_fde. cbn. case_decide; subst; [by rewrite lookup_insert_eq|by rewrite lookup_insert_ne].
Qed.
Lemma getp_set_pipes s i p j : getp (set_pipes i p s) j = getp s j.
Proof. done. Qed.
Lemma getpipe_upd s i f j : getpipe (upd i f s) j = getpipe s j.
Proof. done. Qed.
(** The entry of a process, written. *)
Definition put (l : Z * fdref) (f : fd_entry) (s : ksys) : ksys := upd l.1 (set_fde l.2 f) s.
Definition entry (s : ksys) (l : Z * fdref) : fd_entry := fde_at s l.1 l.2.
Lemma entry_put s l f k : entry (put l f s) k = if decide (l = k) then f else entry s k.
Proof.
  destruct l as [i r], k as [j q]. unfold entry, put, fde_at. cbn [fst snd]. rewrite getp_upd.
  repeat case_decide; simplify_eq; rewrite ?fde_set_fde; repeat case_decide; simplify_eq; done.
Qed.
Lemma entry_set_pipes s i p k : entry (set_pipes i p s) k = entry s k.
Proof. done. Qed.

(** ** What an operation on the current process's descriptors leaves alone *)

Definition with_fds (t : gmap fdref fd_entry) (p : process) : process :=
  Process (pid p) (ppid p) (state p) (root_table p) (user_stack_lo p) (user_stack_hi p) (user_stack_limit p)
    (user_brk p) (user_mmap_next p) (tls_base p) (user_regs p) (exit_code p) t (cwd p).

Record fd_frame (c : Z) (s s' : ksys) : Prop := {
  ff_other : forall j, j <> c -> getp s' j = getp s j;
  ff_same : exists t, getp s' c = with_fds t (getp s c);
  ff_current : current s' = current s;
  ff_next : next_pid s' = next_pid s;
  ff_live : live s' = live s;
  ff_kstack : kstack s' = kstack s;
  ff_kvm : kvm s' = kvm s
}.
Lemma fd_frame_refl c s : fd_frame c s s.
Proof. split; try done. exists (fdtab (getp s c)). by destruct (getp s c). Qed.
Lemma fd_frame_trans c s1 s2 s3 : fd_frame c s1 s2 -> fd_frame c s2 s3 -> fd_frame c s1 s3.
Proof.
  intros [A1 (t1 & B1) C1 D1 E1 F1 G1] [A2 (t2 & B2) C2 D2 E2 F2 G2]. split; try congruence.
  - intros j Hj. rewrite A2, A1 by done. done.
  - exists t2. by rewrite B2, B1.
Qed.
#[export] Instance fd_frame_preorder c : PreOrder (fd_frame c).
Proof. split; [intros s; apply fd_frame_refl|intros s1 s2 s3; apply fd_frame_trans]. Qed.
Lemma fd_frame_put c r f s : fd_frame c s (put (c, r) f s).
Proof.
  split; try done.
  - intros j Hj. unfold put. cbn. rewrite getp_upd. by rewrite decide_False.
  - exists (<[r := f]> (fdtab (getp s c))). unfold put. cbn. rewrite getp_upd. by rewrite decide_True.
Qed.
Lemma fd_frame_set_pipes c i p s : fd_frame c s (set_pipes i p s).
Proof. split; try done. exists (fdtab (getp s c)). rewrite getp_set_pipes. by destruct (getp s c). Qed.

(** ** Counting *)

Fixpoint zsum {A} (f : A -> Z) (l : list A) : Z :=
  match l with [] => 0 | x :: l => f x + zsum f l end.
Lemma zsum_ext {A} (f g : A -> Z) l : (forall x, x ∈ l -> f x = g x) -> zsum f l = zsum g l.
Proof.
  induction l as [|x l IH]; intros H; [done|]. cbn. rewrite (H x), IH by (set_solver). done.
Qed.
Lemma zsum_change {A} (f g : A -> Z) l x : NoDup l -> x ∈ l -> (forall y, y <> x -> g y = f y) ->
  zsum g l = zsum f l - f x + g x.
Proof.
  intros Hn Hx H. induction Hn as [|y l Hy Hn IH]; [set_solver|]. cbn.
  apply elem_of_cons in Hx as [->|Hx].
  - rewrite (zsum_ext g f l); [lia|]. intros z Hz. apply H. by intros ->.
  - rewrite IH, (H y) by (done || set_solver). lia.
Qed.
Lemma zsum_bound {A} (f : A -> Z) l : (forall x, 0 <= f x <= 1) -> 0 <= zsum f l <= Z.of_nat (length l).
Proof. intros H. induction l as [|x l IH]; cbn; [lia|]. specialize (H x). lia. Qed.
Lemma zsum_pos {A} (f : A -> Z) l x : (forall y, 0 <= f y) -> x ∈ l -> f x <= zsum f l.
Proof.
  intros H. induction l as [|y l IH]; intros Hx; [set_solver|]. cbn. pose proof (H y).
  assert (0 <= zsum f l) by (clear -H; induction l as [|z l IH]; cbn; [lia|specialize (H z); lia]).
  apply elem_of_cons in Hx as [->|Hx]; [lia|]. specialize (IH Hx). lia.
Qed.

Definition slots : list Z := seqZ 0 MAX_PROCESSES.
Definition all_refs : list fdref := map Fd (seqZ 0 MAX_FDS) ++ map Std (seqZ 0 3).
Definition locs : list (Z * fdref) := list_prod slots all_refs.
(** [f] is an open end of pipe [pi] ([w]: its write end). *)
Definition holds (pi : Z) (w : bool) (f : fd_entry) : Z :=
  Z.b2z (fd_used f && bool_decide (fd_pipe f = Some pi) && Bool.eqb (fd_pipe_write f) w).
Definition open_ends (s : ksys) (pi : Z) (w : bool) : Z := zsum (fun l => holds pi w (entry s l)) locs.

Lemma locs_nodup : NoDup locs.
Proof. apply (bool_decide_unpack _). vm_compute. done. Qed.
Lemma holds_bound pi w f : 0 <= holds pi w f <= 1.
Proof. unfold holds. destruct (_ && _); cbn; lia. Qed.
Lemma open_ends_bound s pi w : 0 <= open_ends s pi w <= 280.
Proof. apply (zsum_bound _ locs). intros l. apply holds_bound. Qed.
Lemma elem_of_slots i : i ∈ slots <-> 0 <= i < 8.
Proof. unfold slots, MAX_PROCESSES. rewrite elem_of_seqZ. lia. Qed.
Lemma elem_of_refs r : r ∈ all_refs <-> match r with Fd i => 0 <= i < 32 | Std i => 0 <= i < 3 end.
Proof.
  unfold all_refs. rewrite elem_of_app, !list_elem_of_fmap. unfold MAX_FDS. split.
  - intros [(x & -> & Hx)|(x & -> & Hx)]; apply elem_of_seqZ in Hx; lia.
  - destruct r as [i|i]; intros H; [left|right]; exists i; by rewrite elem_of_seqZ.
Qed.
Lemma elem_of_locs i r : (i, r) ∈ locs <-> i ∈ slots /\ r ∈ all_refs.
Proof. unfold locs. rewrite !list_elem_of_In. apply in_prod_iff. Qed.

Record fds_ok (s : ksys) : Prop := {
  fo_refs : forall pi w, 0 <= pi < 4 -> refs_of w (getpipe s pi) = open_ends s pi w;
  fo_unused : forall l, fd_used (entry s l) = false -> fd_pipe (entry s l) = None;
  fo_pipe : forall l pi, fd_pipe (entry s l) = Some pi -> 0 <= pi < 4;
  fo_range : forall l, fd_used (entry s l) = true -> l ∈ locs
}.

(** One entry changes, and the counts change by what it held and holds. *)
Lemma fds_ok_change s s' l f : fds_ok s -> l ∈ locs -> entry s' l = f ->
  (forall k, k <> l -> entry s' k = entry s k) ->
  (forall pi w, 0 <= pi < 4 -> refs_of w (getpipe s' pi) =
     refs_of w (getpipe s pi) - holds pi w (entry s l) + holds pi w f) ->
  (fd_used f = false -> fd_pipe f = None) -> (forall pi, fd_pipe f = Some pi -> 0 <= pi < 4) ->
  fds_ok s'.
Proof.
  intros [Hr Hu Hp Hg] Hl Ef Ho Hc Hfu Hfp. split.
  - intros pi w Hpi. rewrite Hc, Hr by done. unfold open_ends.
    rewrite (zsum_change (fun k => holds pi w (entry s k)) (fun k => holds pi w (entry s' k)) locs l)
      by (apply locs_nodup || done || (intros k Hk; by rewrite Ho)).
    by rewrite Ef.
  - intros k. destruct (decide (k = l)) as [->|Hk]; [by rewrite Ef|]. rewrite Ho by done. apply Hu.
  - intros k. destruct (decide (k = l)) as [->|Hk]; [rewrite Ef; apply Hfp|]. rewrite Ho by done. apply Hp.
  - intros k. destruct (decide (k = l)) as [->|Hk]; [done|]. rewrite Ho by done. apply Hg.
Qed.

(** Nothing about descriptors changes. *)
Lemma fds_ok_same s s' : (forall l, entry s' l = entry s l) ->
  (forall pi w, refs_of w (getpipe s' pi) = refs_of w (getpipe s pi)) -> fds_ok s -> fds_ok s'.
Proof.
  intros He Hc [Hr Hu Hp Hg]. split.
  - intros pi w Hpi. rewrite Hc, Hr by done. apply zsum_ext. intros l _. by rewrite He.
  - intros l. rewrite He. apply Hu.
  - intros l. rewrite He. apply Hp.
  - intros l. rewrite He. apply Hg.
Qed.

(** ** Releasing and copying an entry *)

Definition ring (p : pipe) : Z * Z * gmap Z Z := (p_read p, p_write p, p_data p).
Definition rings_same (s s' : ksys) : Prop := forall pi, ring (getpipe s' pi) = ring (getpipe s pi).
#[export] Instance rings_same_preorder : PreOrder rings_same.
Proof. split; [intros s pi; done|intros a b d H1 H2 pi; by rewrite H2, H1]. Qed.

Lemma refs_of_set w w' v p : refs_of w (set_refs w' v p) = if Bool.eqb w w' then v else refs_of w p.
Proof. by destruct w, w'. Qed.
Lemma ring_set_refs w v p : ring (set_refs w v p) = ring p.
Proof. by destruct w. Qed.
Lemma holds_unused pi w f : fd_used f = false -> holds pi w f = 0.
Proof. unfold holds. by intros ->. Qed.
Lemma holds_no_pipe pi w f : fd_pipe f = None -> holds pi w f = 0.
Proof. unfold holds. intros ->. rewrite bool_decide_eq_false_2 by done. by rewrite andb_false_r. Qed.
Lemma holds_pipe pi w f q : fd_pipe f = Some q -> fd_used f = true ->
  holds pi w f = Z.b2z (bool_decide (q = pi) && Bool.eqb (fd_pipe_write f) w).
Proof.
  unfold holds. intros -> ->. cbn [andb]. do 2 f_equal. apply bool_decide_ext. split; congruence.
Qed.
Lemma holds_le s l pi w : fds_ok s -> 0 <= pi < 4 -> holds pi w (entry s l) <= refs_of w (getpipe s pi) <= 280.
Proof.
  intros Hok Hpi. rewrite (fo_refs s Hok) by done. split; [|apply open_ends_bound].
  destruct (fd_used (entry s l)) eqn:E.
  - apply (zsum_pos (fun k => holds pi w (entry s k)) locs l); [intros k; apply holds_bound|].
    by apply (fo_range s Hok).
  - rewrite holds_unused by done. apply open_ends_bound.
Qed.

Lemma release_spec c r s : fds_ok s -> (c, r) ∈ locs ->
  fds_ok (fd_entry_release c r s) /\ fd_frame c s (fd_entry_release c r s) /\
  rings_same s (fd_entry_release c r s) /\
  (forall k, entry (fd_entry_release c r s) k =
     if decide (k = (c, r)) then set_used false (set_pipe None (fd_pipe_write (entry s k)) (entry s k)) else entry s k).
Proof.
  intros Hok Hl. unfold fd_entry_release. change (fde_at s c r) with (entry s (c, r)).
  set (fd := entry s (c, r)). set (g := set_used false (set_pipe None (fd_pipe_write fd) fd)).
  destruct (fd_pipe fd) as [pi|] eqn:Ep.
  - assert (fd_used fd = true) as Eu.
    { destruct (fd_used fd) eqn:E; [done|]. pose proof (fo_unused s Hok (c, r) E). fold fd in H. congruence. }
    assert (0 <= pi < 4) as Hpi by by apply (fo_pipe s Hok (c, r)).
    pose proof (holds_le s (c, r) pi (fd_pipe_write fd) Hok Hpi) as Hle. fold fd in Hle.
    rewrite (holds_pipe _ _ _ pi), bool_decide_eq_true_2, eqb_reflx in Hle by done. cbn [andb Z.b2z] in Hle.
    rewrite Eu. destruct (Z.eqb_spec (refs_of (fd_pipe_write fd) (getpipe s pi)) 0) as [|_]; [lia|]. cbn [negb andb].
    set (s1 := set_pipes pi _ s).
    assert (forall k, entry (put (c, r) g s1) k = if decide (k = (c, r)) then g else entry s k) as He.
    { intros k. rewrite entry_put. repeat case_decide; congruence || done. }
    split; [|split; [|split]].
    + apply (fds_ok_change s _ (c, r) g); try done.
      * rewrite He. by rewrite decide_True.
      * intros k Hk. rewrite He. by rewrite decide_False.
      * intros pi' w Hpi'. fold fd. unfold s1. rewrite getpipe_upd, getpipe_set_pipes.
        rewrite (holds_unused _ _ g), (holds_pipe _ _ fd pi) by done.
        case_decide as E; [subst pi'|by rewrite bool_decide_eq_false_2 by done; cbn [andb Z.b2z]; lia].
        rewrite bool_decide_eq_true_2, refs_of_set by done. cbn [andb].
        destruct (Bool.eqb w (fd_pipe_write fd)) eqn:Ew.
        -- apply eqb_prop in Ew as ->. rewrite eqb_reflx. cbn [Z.b2z]. lia.
        -- destruct (Bool.eqb (fd_pipe_write fd) w) eqn:Ew'; [|cbn [Z.b2z]; lia].
           apply eqb_prop in Ew'. subst w. by rewrite eqb_reflx in Ew.
    + etransitivity; [|apply fd_frame_put]. apply fd_frame_set_pipes.
    + intros pi'. unfold s1. rewrite getpipe_upd, getpipe_set_pipes.
      case_decide; subst; [apply ring_set_refs|done].
    + intros k. etransitivity; [exact (He k)|]. case_decide; by subst.
  - assert (forall k, entry (put (c, r) g s) k = if decide (k = (c, r)) then g else entry s k) as He.
    { intros k. rewrite entry_put. repeat case_decide; congruence || done. }
    split; [|split; [|split]].
    + apply (fds_ok_change s _ (c, r) g); try done.
      * rewrite He. by rewrite decide_True.
      * intros k Hk. rewrite He. by rewrite decide_False.
      * intros pi' w Hpi'. fold fd. rewrite getpipe_upd.
        rewrite (holds_unused _ _ g), holds_no_pipe by done. lia.
    + apply fd_frame_put.
    + intros pi. done.
    + intros k. etransitivity; [exact (He k)|]. case_decide; by subst.
Qed.

(** The entry [fd_entry_copy] makes, whatever its [used] is set to afterwards. *)
Lemma copy_spec di dr si sr b s : fds_ok s -> (di, dr) ∈ locs -> fd_pipe (entry s (di, dr)) = None ->
  (fd_used (entry s (si, sr)) = true -> b = true) ->
  let s' := mark_used di dr b (fd_entry_copy di dr si sr s) in
  fds_ok s' /\ fd_frame di s s' /\ rings_same s s' /\
  (forall k, entry s' k = if decide (k = (di, dr)) then set_used b (entry s (si, sr)) else entry s k).
Proof.
  intros Hok Hl Hd Hb s'. unfold s'. clear s'.
  set (src := entry s (si, sr)) in *. set (g := set_used b src).
  assert (fd_frame di s (mark_used di dr b (fd_entry_copy di dr si sr s)) /\
    (forall k, entry (mark_used di dr b (fd_entry_copy di dr si sr s)) k = if decide (k = (di, dr)) then g else entry s k) /\
    (forall pi, getpipe (mark_used di dr b (fd_entry_copy di dr si sr s)) pi =
       if fd_used src && bool_decide (fd_pipe src = Some pi)
       then set_refs (fd_pipe_write src) (u32 (refs_of (fd_pipe_write src) (getpipe s pi) + 1)) (getpipe s pi)
       else getpipe s pi)) as (Hf & He & Hp).
  { unfold mark_used, fd_entry_copy. change (fde_at s si sr) with src. change (fde_at s di dr) with (entry s (di, dr)).
    set (s1 := upd di (set_fde dr (set_used (fd_used (entry s (di, dr))) src)) s).
    assert (forall k, entry s1 k = if decide (k = (di, dr)) then set_used (fd_used (entry s (di, dr))) src else entry s k) as H1.
    { intros k. unfold s1. change (upd di _ s) with (put (di, dr) (set_used (fd_used (entry s (di, dr))) src) s).
      rewrite entry_put. repeat case_decide; congruence || done. }
    assert (fd_frame di s s1) as F1 by apply fd_frame_put.
    assert (forall s2, (forall k, entry s2 k = entry s1 k) -> fd_frame di s1 s2 ->
      fd_frame di s (upd di (set_fde dr (set_used b (fde_at s2 di dr))) s2) /\
      (forall k, entry (upd di (set_fde dr (set_used b (fde_at s2 di dr))) s2) k = if decide (k = (di, dr)) then g else entry s k))
      as Hgen.
    { intros s2 H2 F2. split.
      - etransitivity; [exact F1|]. etransitivity; [exact F2|]. apply (fd_frame_put di).
      - intros k. change (fde_at s2 di dr) with (entry s2 (di, dr)).
        change (upd di ?f s2) with (put (di, dr) (set_used b (entry s2 (di, dr))) s2).
        rewrite entry_put, !H2, !H1. repeat case_decide; congruence || done. }
    destruct (fd_pipe src) as [pi|] eqn:Ep; [destruct (fd_used src) eqn:Eu|].
    - destruct (Hgen (set_pipes pi (set_refs (fd_pipe_write src) (u32 (refs_of (fd_pipe_write src) (getpipe s1 pi) + 1))
        (getpipe s1 pi)) s1)) as [G1 G2]; [done|apply fd_frame_set_pipes|]. split; [done|]. split; [done|].
      intros pi'. rewrite getpipe_upd, getpipe_set_pipes. cbn [andb].
      case_decide as E; [subst; by rewrite bool_decide_eq_true_2|by rewrite bool_decide_eq_false_2 by congruence].
    - destruct (Hgen s1) as [G1 G2]; [done|apply fd_frame_refl|]. done.
    - destruct (Hgen s1) as [G1 G2]; [done|apply fd_frame_refl|]. split; [done|]. split; [done|].
      intros pi'. rewrite bool_decide_eq_false_2 by done. by rewrite andb_false_r. }
  split; [|split; [done|split; [|done]]].
  - apply (fds_ok_change s _ (di, dr) g); try done.
    + rewrite He. by rewrite decide_True.
    + intros k Hk. rewrite He. by rewrite decide_False.
    + intros pi w Hpi. rewrite Hp, (holds_no_pipe _ _ (entry s (di, dr))) by done.
      pose proof (holds_le s (si, sr) pi (fd_pipe_write src) Hok Hpi) as Hle.
      pose proof (holds_bound pi (fd_pipe_write src) (entry s (si, sr))).
      destruct (fd_used src) eqn:Eu; cbn [andb].
      * unfold g, holds. cbn [fd_used set_used fd_pipe fd_pipe_write]. rewrite (Hb eq_refl). cbn [andb].
        case_bool_decide as E; [|cbn [andb Z.b2z]; lia]. rewrite refs_of_set, u32_small by lia. cbn [andb].
        clear. destruct (fd_pipe_write src), w; cbn [Bool.eqb Z.b2z]; lia.
      * rewrite (holds_no_pipe _ _ g); [lia|]. cbn. by apply (fo_unused s Hok (si, sr)).
    + cbn. intros ->. destruct (fd_used src) eqn:Eu; [by specialize (Hb eq_refl)|]. by apply (fo_unused s Hok (si, sr)).
    + apply (fo_pipe s Hok (si, sr)).
  - intros pi. rewrite Hp. destruct (_ && _); [apply ring_set_refs|done].
Qed.

(** ** The operations *)

(** An operation of [c] on its own descriptors. *)
Record fd_op (c : Z) (s s' : ksys) : Prop := {
  op_ok : fds_ok s';
  op_frame : fd_frame c s s';
  op_rings : rings_same s s'
}.
Lemma fd_op_refl c s : fds_ok s -> fd_op c s s.
Proof. by split. Qed.
Lemma fd_op_trans c s1 s2 s3 : fd_op c s1 s2 -> fd_op c s2 s3 -> fd_op c s1 s3.
Proof. intros [A1 B1 C1] [A2 B2 C2]. split; [done|by etransitivity|by etransitivity]. Qed.

Lemma release_op c r s : fds_ok s -> (c, r) ∈ locs -> fd_op c s (fd_entry_release c r s).
Proof. intros Hok Hl. by destruct (release_spec c r s Hok Hl) as (A & B & C & _). Qed.

Lemma fd_loc c i : 0 <= c < 8 -> 0 <= i < 32 -> (c, Fd i) ∈ locs.
Proof. intros. rewrite elem_of_locs, elem_of_slots, elem_of_refs. lia. Qed.
Lemma std_loc c i : 0 <= c < 8 -> 0 <= i < 3 -> (c, Std i) ∈ locs.
Proof. intros. rewrite elem_of_locs, elem_of_slots, elem_of_refs. lia. Qed.

Lemma process_fd_close_op c i s : fds_ok s -> 0 <= c < 8 -> fd_op c s (process_fd_close c i s).
Proof.
  intros Hok Hc. unfold process_fd_close, MAX_FDS.
  destruct (Z.leb_spec 0 i), (Z.ltb_spec i 32); cbn [andb]; try by apply fd_op_refl.
  by apply release_op, fd_loc.
Qed.
Lemma process_stdio_clear_op c i s : fds_ok s -> 0 <= c < 8 -> fd_op c s (process_stdio_clear c i s).
Proof.
  intros Hok Hc. unfold process_stdio_clear.
  destruct (Z.leb_spec 0 i), (Z.leb_spec i 2); cbn [andb]; try by apply fd_op_refl.
  apply release_op, std_loc; lia || done.
Qed.

(** Taking an unused entry. *)
Lemma take_entry c r s : fds_ok s -> (c, r) ∈ locs -> fd_used (entry s (c, r)) = false ->
  fd_op c s (mark_used c r true s).
Proof.
  intros Hok Hl Hu. set (g := set_used true (entry s (c, r))).
  change (mark_used c r true s) with (put (c, r) g s). split; [|apply fd_frame_put|done].
  apply (fds_ok_change s _ (c, r) g); try done.
  - rewrite entry_put. by rewrite decide_True.
  - intros k Hk. rewrite entry_put. by rewrite decide_False.
  - intros pi w Hpi. unfold put. rewrite getpipe_upd.
    rewrite !holds_no_pipe by (by apply (fo_unused s Hok)). lia.
  - apply (fo_pipe s Hok).
Qed.
Lemma fd_alloc_loop_spec n i c s : let '(r, s') := fd_alloc_loop n i c s in
  (r = -1 /\ s' = s) \/
  (i <= r < i + Z.of_nat n /\ fd_used (entry s (c, Fd r)) = false /\ s' = mark_used c (Fd r) true s).
Proof.
  revert i. induction n as [|n IH]; intros i; cbn [fd_alloc_loop]; [by left|].
  change (fde_at s c (Fd i)) with (entry s (c, Fd i)).
  destruct (fd_used (entry s (c, Fd i))) eqn:E; cbn [negb].
  - specialize (IH (i + 1)). destruct (fd_alloc_loop n (i + 1) c s) as [r s'].
    destruct IH as [?|(? & ? & ?)]; [by left|right]. split; [lia|done].
  - right. split; [lia|done].
Qed.
Lemma process_fd_alloc_spec c s r s' : process_fd_alloc c s = (r, s') -> fds_ok s -> 0 <= c < 8 ->
  fd_op c s s' /\
  ((r = -1 /\ s' = s) \/
   (0 <= r < 32 /\ fd_used (entry s (c, Fd r)) = false /\
    forall k, entry s' k = if decide (k = (c, Fd r)) then set_used true (entry s k) else entry s k)).
Proof.
  unfold process_fd_alloc. intros E Hok Hc. pose proof (fd_alloc_loop_spec (Z.to_nat MAX_FDS) 0 c s) as H.
  rewrite E in H. destruct H as [[-> ->]|(Hr & Hu & ->)].
  - split; [by apply fd_op_refl|by left].
  - change (0 + Z.of_nat (Z.to_nat MAX_FDS)) with 32 in Hr. split; [by apply take_entry; [|apply fd_loc|]|right].
    split; [done|]. split; [done|]. intros k.
    change (mark_used c (Fd r) true s) with (put (c, Fd r) (set_used true (entry s (c, Fd r))) s).
    rewrite entry_put. repeat case_decide; congruence || done.
Qed.

Lemma release_unused c r s : fds_ok s -> (c, r) ∈ locs ->
  fd_pipe (entry (fd_entry_release c r s) (c, r)) = None /\
  fd_used (entry (fd_entry_release c r s) (c, r)) = false.
Proof. intros Hok Hl. destruct (release_spec c r s Hok Hl) as (_ & _ & _ & ->). by rewrite decide_True. Qed.

Lemma assign_op c r src s : fds_ok s -> (c, r) ∈ locs ->
  fd_op c s (mark_used c r true (fd_entry_copy c r c src (fd_entry_release c r s))).
Proof.
  intros Hok Hl. pose proof (release_op c r s Hok Hl) as Hop. eapply fd_op_trans; [exact Hop|].
  destruct (release_unused c r s Hok Hl) as [Hn _].
  destruct (copy_spec c r c src true _ (op_ok _ _ _ Hop) Hl Hn) as (A & B & C & _); [done|]. by split.
Qed.
Lemma process_fd_set_op c i src s : fds_ok s -> 0 <= c < 8 -> fd_op c s (process_fd_set c i src s).
Proof.
  intros Hok Hc. unfold process_fd_set, MAX_FDS.
  destruct (Z.ltb_spec i 0), (Z.leb_spec 32 i); cbn [orb]; try by apply fd_op_refl.
  by apply assign_op, fd_loc.
Qed.
Lemma process_stdio_set_op c i src s : fds_ok s -> 0 <= c < 8 -> fd_op c s (process_stdio_set c i src s).
Proof.
  intros Hok Hc. unfold process_stdio_set.
  destruct (Z.ltb_spec i 0), (Z.ltb_spec 2 i); cbn [orb]; try by apply fd_op_refl.
  apply assign_op, std_loc; lia || done.
Qed.

Lemma fd_frame_copy di dr si sr s : fd_frame di s (fd_entry_copy di dr si sr s).
Proof.
  unfold fd_entry_copy. etransitivity; [apply (fd_frame_put di)|].
  destruct (fd_pipe _); [destruct (fd_used _)|]; [apply fd_frame_set_pipes|reflexivity|reflexivity].
Qed.
Lemma rings_copy di dr si sr s : rings_same s (fd_entry_copy di dr si sr s).
Proof.
  intros pi. unfold fd_entry_copy. destruct (fd_pipe _); [destruct (fd_used _)|]; try done.
  rewrite getpipe_set_pipes, !getpipe_upd. case_decide; subst; [apply ring_set_refs|done].
Qed.
Lemma fcntl_dup_op c i r s s' : fds_ok s -> 0 <= c < 8 -> process_fd_alloc c s = (i, s') -> 0 <= i ->
  fd_op c s (fd_entry_copy c (Fd i) c r s').
Proof.
  intros Hok Hc E Hi. destruct (process_fd_alloc_spec c s i s' E Hok Hc) as [Hop [[-> _]|(Hr & Hu & He)]]; [lia|].
  eapply fd_op_trans; [exact Hop|]. set (x := fd_entry_copy c (Fd i) c r s').
  assert ((c, Fd i) ∈ locs) as Hl by by apply fd_loc.
  assert (fd_pipe (entry s' (c, Fd i)) = None) as Hn.
  { rewrite He, decide_True by done. cbn. by apply (fo_unused s Hok). }
  destruct (copy_spec c (Fd i) c r true s' (op_ok _ _ _ Hop) Hl Hn) as (A & _ & _ & D); [done|].
  assert (fd_used (entry x (c, Fd i)) = true) as Hx.
  { unfold x, fd_entry_copy.
    assert (forall s2, entry s2 (c, Fd i) = entry (upd c (set_fde (Fd i) (set_used (fd_used (fde_at s' c (Fd i))) (fde_at s' c r))) s') (c, Fd i) ->
      fd_used (entry s2 (c, Fd i)) = true) as Hgen.
    { intros s2 ->. change (upd c ?f s') with (put (c, Fd i) (set_used (fd_used (entry s' (c, Fd i))) (fde_at s' c r)) s').
      rewrite entry_put, decide_True by done. cbn [fd_used set_used].
      rewrite He, decide_True by done. reflexivity. }
    cbv zeta. apply Hgen. destruct (fd_pipe (fde_at _ _ r)); [destruct (fd_used (fde_at _ _ r))|]; reflexivity. }
  split; [|apply fd_frame_copy|apply rings_copy].
  eapply fds_ok_same; [| |exact A].
  - intros k. change (mark_used c (Fd i) true (fd_entry_copy c (Fd i) c r s'))
      with (put (c, Fd i) (set_used true (entry x (c, Fd i))) x). rewrite entry_put.
    case_decide as Ek; [subst k|done]. rewrite <- Hx. by destruct (entry x (c, Fd i)).
  - intros pi w. reflexivity.
Qed.

Lemma free_pipe_spec n i s pi : free_pipe n i s = Some pi ->
  i <= pi < i + Z.of_nat n /\ readers (getpipe s pi) = 0 /\ writers (getpipe s pi) = 0.
Proof.
  revert i. induction n as [|n IH]; intros i; cbn [free_pipe]; [done|].
  destruct (Z.eqb_spec (readers (getpipe s i)) 0), (Z.eqb_spec (writers (getpipe s i)) 0); cbn [andb].
  1: by intros [= <-]; split; [lia|].
  all: intros H; apply IH in H as [? ?]; split; [lia|done].
Qed.
Lemma free_pipe_ext n i s s' : rings_same s s' -> (forall pi w, refs_of w (getpipe s' pi) = refs_of w (getpipe s pi)) ->
  free_pipe n i s' = free_pipe n i s.
Proof.
  intros _ H. revert i. induction n as [|n IH]; intros i; cbn [free_pipe]; [done|].
  pose proof (H i false) as Hr. pose proof (H i true) as Hw. cbn in Hr, Hw. by rewrite Hr, Hw, IH.
Qed.

(** Making one end of a fresh pipe of an open entry without one. *)
Lemma attach_ok c r pi w v s : fds_ok s -> (c, r) ∈ locs -> fd_used (entry s (c, r)) = true ->
  fd_pipe (entry s (c, r)) = None -> 0 <= pi < 4 ->
  (forall w', refs_of w' v = refs_of w' (getpipe s pi) + Z.b2z (Bool.eqb w w')) ->
  fds_ok (put (c, r) (set_pipe (Some pi) w (entry s (c, r))) (set_pipes pi v s)).
Proof.
  intros Hok Hl Hu Hn Hpi Hv. set (g := set_pipe (Some pi) w (entry s (c, r))).
  apply (fds_ok_change s _ (c, r) g); try done.
  - rewrite entry_put. by rewrite decide_True.
  - intros k Hk. rewrite entry_put. by rewrite decide_False.
  - intros pi' w' Hpi'. unfold put. rewrite getpipe_upd, getpipe_set_pipes, (holds_no_pipe _ _ (entry s _)) by done.
    rewrite (holds_pipe _ _ g pi) by done. case_decide as E.
    + subst pi'. rewrite bool_decide_eq_true_2, Hv by done. cbn. lia.
    + rewrite bool_decide_eq_false_2 by done. cbn. lia.
  - cbn. congruence.
  - cbn. intros q [= <-]. done.
Qed.

Lemma pipe_create_spec c s out s' : fds_ok s -> 0 <= c < 8 -> process_pipe_create c s = (out, s') ->
  fds_ok s' /\ fd_frame c s s' /\
  match out with
  | None => rings_same s s'
  | Some (rd, wr) => exists pi, free_pipe (Z.to_nat MAX_PIPES) 0 s = Some pi /\ 0 <= pi < 4 /\
      (forall j, ring (getpipe s' j) = if decide (j = pi) then (0, 0, p_data (getpipe s pi)) else ring (getpipe s j)) /\
      readers (getpipe s' pi) = 1 /\ writers (getpipe s' pi) = 1 /\
      0 <= rd - 3 < 32 /\ 0 <= wr - 3 < 32 /\ rd <> wr /\
      fd_used (entry s (c, Fd (rd - 3))) = false /\ fd_used (entry s (c, Fd (wr - 3))) = false /\
      entry s' (c, Fd (rd - 3)) = set_pipe (Some pi) false (set_used true (entry s (c, Fd (rd - 3)))) /\
      entry s' (c, Fd (wr - 3)) = set_pipe (Some pi) true (set_used true (entry s (c, Fd (wr - 3))))
  end.
Proof.
  intros Hok Hc. unfold process_pipe_create.
  destruct (free_pipe _ 0 s) as [pi|] eqn:Ef; [|by intros [= <- <-]].
  apply free_pipe_spec in Ef as Hf. destruct Hf as (Hpi & Hr0 & Hw0).
  change (0 + Z.of_nat (Z.to_nat MAX_PIPES)) with 4 in Hpi.
  destruct (process_fd_alloc c s) as [rd s1] eqn:E1.
  destruct (process_fd_alloc_spec c s rd s1 E1 Hok Hc) as [O1 H1].
  pose proof (op_ok _ _ _ O1) as Hok1.
  destruct (process_fd_alloc c s1) as [wr s2] eqn:E2.
  destruct (process_fd_alloc_spec c s1 wr s2 E2 Hok1 Hc) as [O2 H2].
  pose proof (fd_op_trans _ _ _ _ O1 O2) as O12. pose proof (op_ok _ _ _ O2) as Hok2.
  assert (forall x, fd_op c s x -> fds_ok x /\ fd_frame c s x /\ rings_same s x) as Hdone by by intros x [].
  destruct (Z.ltb_spec rd 0) as [Hrd|Hrd]; cbn [orb].
  { intros [= <- <-]. destruct (Z.leb_spec 0 rd); [lia|]. by apply Hdone. }
  destruct (Z.ltb_spec wr 0) as [Hwr|Hwr].
  { intros [= <- <-]. destruct (Z.leb_spec 0 rd); [|lia]. apply Hdone.
    eapply fd_op_trans; [exact O12|]. by apply process_fd_close_op. }
  destruct H1 as [[? _]|(Hr & Hru & He1)]; [lia|]. destruct H2 as [[? _]|(Hw & Hwu & He2)]; [lia|].
  assert (rd <> wr) as Hne. { intros ->. by rewrite He1, decide_True in Hwu. }
  assert (fd_used (entry s (c, Fd wr)) = false) as Hwu'.
  { rewrite He1, decide_False in Hwu; [done|congruence]. }
  assert (entry s2 (c, Fd rd) = set_used true (entry s (c, Fd rd))) as Hrd2.
  { rewrite He2, decide_False, He1, decide_True by congruence. done. }
  assert (entry s2 (c, Fd wr) = set_used true (entry s (c, Fd wr))) as Hwr2.
  { rewrite He2, decide_True, He1, decide_False by congruence. done. }
  assert (forall w, refs_of w (getpipe s2 pi) = 0) as Hz.
  { intros w. rewrite (fo_refs _ Hok2) by done. assert (refs_of w (getpipe s pi) = 0) as H0 by by destruct w.
    rewrite (fo_refs _ Hok) in H0 by done. rewrite <- H0. apply zsum_ext. intros l _.
    rewrite He2, He1. repeat case_decide; try done; subst.
    all: rewrite !holds_no_pipe; [done|cbn|]; try by apply (fo_unused _ Hok).
    all: by apply (fo_unused _ Hok). }
  intros [= <- <-].
  set (d := p_data (getpipe s2 pi)).
  set (sa := put (c, Fd rd) (set_pipe (Some pi) false (entry s2 (c, Fd rd))) (set_pipes pi (Pipe 0 0 1 0 d) s2)).
  assert (fds_ok sa) as Ha.
  { apply attach_ok; try done; [by apply fd_loc|by rewrite Hrd2|rewrite Hrd2; by apply (fo_unused _ Hok)|].
    intros w'. rewrite Hz. by destruct w'. }
  assert (forall k, k <> (c, Fd rd) -> entry sa k = entry s2 k) as Hsa.
  { intros k Hk. unfold sa. rewrite entry_put. by rewrite decide_False. }
  assert ((c, Fd wr) <> (c, Fd rd)) as Hne' by congruence.
  set (sb := put (c, Fd wr) (set_pipe (Some pi) true (entry sa (c, Fd wr))) (set_pipes pi (Pipe 0 0 1 1 d) sa)).
  assert (fds_ok sb) as Hb.
  { apply attach_ok; try done; [by apply fd_loc| | |].
    - by rewrite Hsa, Hwr2.
    - rewrite Hsa, Hwr2 by done. by apply (fo_unused _ Hok).
    - intros w'. unfold sa, put. rewrite getpipe_upd, getpipe_set_pipes, decide_True by done. by destruct w'. }
  set (s3 := set_pipes pi (Pipe 0 0 1 1 (p_data (getpipe s2 pi))) s2).
  set (s4 := put (c, Fd rd) (set_pipe (Some pi) false (entry s3 (c, Fd rd))) s3).
  set (s5 := put (c, Fd wr) (set_pipe (Some pi) true (entry s4 (c, Fd wr))) s4).
  assert (forall k, entry s5 k = entry sb k) as Heq.
  { intros k. unfold s5, s4, sb, sa. rewrite !entry_put, !entry_set_pipes, !entry_put. done. }
  assert (forall j, getpipe s5 j = if decide (j = pi) then Pipe 0 0 1 1 d else getpipe s2 j) as Hp5.
  { intros j. unfold s5, s4, s3, put. rewrite !getpipe_upd, getpipe_set_pipes.
    repeat case_decide; congruence || done. }
  change (upd c ?f (upd c ?g s3)) with s5.
  split; [|split].
  - eapply fds_ok_same; [exact Heq| |exact Hb]. intros j w. rewrite Hp5. unfold sb, sa, put.
    rewrite !getpipe_upd, !getpipe_set_pipes, !getpipe_upd, !getpipe_set_pipes.
    repeat case_decide; congruence || done.
  - etransitivity; [exact (op_frame _ _ _ O12)|]. etransitivity; [apply (fd_frame_set_pipes c)|].
    etransitivity; apply (fd_frame_put c).
  - exists pi. replace (rd + 3 - 3) with rd by lia. replace (wr + 3 - 3) with wr by lia.
    split; [done|]. split; [done|]. rewrite !Hp5, !decide_True by done.
    split; [|split; [done|split; [done|split; [done|split; [done|split; [lia|split; [done|split; [done|]]]]]]]].
    + intros j. rewrite Hp5. case_decide; [subst j|apply (op_rings _ _ _ O12)].
      unfold ring. cbn. unfold d. pose proof (op_rings _ _ _ O12 pi) as Hri. unfold ring in Hri. congruence.
    + assert (entry sb (c, Fd rd) = entry sa (c, Fd rd)) as Hrdb.
      { unfold sb. rewrite entry_put, decide_False by congruence. done. }
      assert (entry sb (c, Fd wr) = set_pipe (Some pi) true (entry s2 (c, Fd wr))) as Hwrb.
      { unfold sb. rewrite entry_put, decide_True by done. by rewrite Hsa. }
      rewrite !Heq, Hrdb, Hwrb, Hwr2. split; [|done].
      unfold sa. rewrite entry_put, decide_True by done. by rewrite Hrd2.
Qed.

(** ** Exit and fork *)

Lemma release_loop_spec table n i c s : fds_ok s ->
  (forall j, i <= j < i + Z.of_nat n -> (c, table j) ∈ locs) ->
  fd_op c s (release_loop table n i c s) /\
  (forall j, i <= j < i + Z.of_nat n -> fd_used (entry (release_loop table n i c s) (c, table j)) = false) /\
  (forall k, fd_used (entry s k) = false -> fd_used (entry (release_loop table n i c s) k) = false).
Proof.
  revert i s. induction n as [|n IH]; intros i s Hok Hl; cbn [release_loop].
  - split; [by apply fd_op_refl|]. split; [lia|done].
  - pose proof (Hl i ltac:(lia)) as Hi. pose proof (release_op c (table i) s Hok Hi) as Hop.
    destruct (release_spec c (table i) s Hok Hi) as (_ & _ & _ & He).
    destruct (IH (i + 1) _ (op_ok _ _ _ Hop)) as (A & B & C); [intros j Hj; apply Hl; lia|].
    split; [by eapply fd_op_trans|]. split.
    + intros j Hj. destruct (Z.eq_dec j i) as [->|]; [|apply B; lia].
      apply C. rewrite He. by rewrite decide_True.
    + intros k Hk. apply C. rewrite He. by case_decide.
Qed.

(** All of [c]'s descriptors. *)
Definition release_all (c : Z) (s : ksys) : ksys :=
  release_loop Std 3 0 c (release_loop Fd (Z.to_nat MAX_FDS) 0 c s).
Lemma release_all_spec c s : fds_ok s -> 0 <= c < 8 ->
  fd_op c s (release_all c s) /\ (forall r, fd_used (entry (release_all c s) (c, r)) = false).
Proof.
  intros Hok Hc. unfold release_all.
  destruct (release_loop_spec Fd (Z.to_nat MAX_FDS) 0 c s Hok) as (A & B & _).
  { intros j Hj. apply fd_loc; [done|]. change (Z.of_nat (Z.to_nat MAX_FDS)) with 32 in Hj. lia. }
  destruct (release_loop_spec Std 3 0 c _ (op_ok _ _ _ A)) as (D & E & F).
  { intros j Hj. apply std_loc; [done|lia]. }
  split; [by eapply fd_op_trans|]. intros r.
  destruct (fd_used (entry _ (c, r))) eqn:Hu; [|done]. exfalso.
  pose proof (fo_range _ (op_ok _ _ _ D) _ Hu) as Hr. apply elem_of_locs in Hr as [_ Hr]. rewrite elem_of_refs in Hr.
  destruct r as [j|j].
  - rewrite F in Hu; [done|]. apply B. change (Z.of_nat (Z.to_nat MAX_FDS)) with 32. lia.
  - rewrite E in Hu; [done|lia].
Qed.

Lemma set_used_id f : set_used (fd_used f) f = f.
Proof. by destruct f. Qed.

Lemma fork_loop_spec table n i child parent s : fds_ok s -> child <> parent ->
  (forall j, i <= j < i + Z.of_nat n -> (child, table j) ∈ locs) ->
  (forall j j', table j = table j' -> j = j') ->
  (forall j, i <= j < i + Z.of_nat n -> fd_pipe (entry s (child, table j)) = None) ->
  let s' := fork_loop table n i child parent s in
  fd_op child s s' /\
  (forall j, i <= j < i + Z.of_nat n -> entry s' (child, table j) = entry s (parent, table j)) /\
  (forall k, (forall j, i <= j < i + Z.of_nat n -> k <> (child, table j)) -> entry s' k = entry s k).
Proof.
  intros Hok Hne Hl Hinj. revert i s Hok Hl.
  induction n as [|n IH]; intros i s Hok Hl Hp; cbn [fork_loop].
  - split; [by apply fd_op_refl|]. split; [lia|done].
  - pose proof (Hl i ltac:(lia)) as Hi.
    destruct (copy_spec child (table i) parent (table i) (fd_used (entry s (parent, table i))) s Hok Hi
      (Hp i ltac:(lia)) (fun e => e)) as (A & B & C & D).
    rewrite set_used_id in D.
    change (mark_used child (table i) (fd_used (entry s (parent, table i))) (fd_entry_copy child (table i) parent (table i) s))
      with (fork_entry child parent (table i) s) in *.
    destruct (IH (i + 1) _ A) as (E & F & G).
    { intros j Hj. apply Hl. lia. }
    { intros j Hj. rewrite D, decide_False; [apply Hp; lia|]. intros [= Ej]. apply Hinj in Ej. lia. }
    cbv zeta in *. split; [by eapply fd_op_trans; [|exact E]|]. split.
    + intros j Hj. destruct (Z.eq_dec j i) as [->|].
      * rewrite G, D; [by rewrite decide_True|]. intros j Hj' [= Ej]. apply Hinj in Ej. lia.
      * rewrite F, D by lia. rewrite decide_False; [done|]. intros [= Ej _]. done.
    + intros k Hk. rewrite G, D; [rewrite decide_False; [done|]|].
      * apply Hk. lia.
      * intros j Hj. apply Hk. lia.
Qed.

Definition fork_all (child parent : Z) (s : ksys) : ksys :=
  fork_loop Std 3 0 child parent (fork_loop Fd (Z.to_nat MAX_FDS) 0 child parent s).
Lemma fork_all_spec child parent s : fds_ok s -> child <> parent -> 0 <= child < 8 -> 0 <= parent < 8 ->
  (forall r, fd_used (entry s (child, r)) = false) ->
  fd_op child s (fork_all child parent s) /\
  (forall r, r ∈ all_refs -> entry (fork_all child parent s) (child, r) = entry s (parent, r)) /\
  (forall i r, i <> child -> entry (fork_all child parent s) (i, r) = entry s (i, r)).
Proof.
  intros Hok Hne Hc Hpa Hu. unfold fork_all.
  destruct (fork_loop_spec Fd (Z.to_nat MAX_FDS) 0 child parent s Hok Hne) as (A & B & C).
  { intros j Hj. apply fd_loc; [done|]. change (Z.of_nat (Z.to_nat MAX_FDS)) with 32 in Hj. lia. }
  { congruence. }
  { intros j _. by apply (fo_unused _ Hok). }
  destruct (fork_loop_spec Std 3 0 child parent _ (op_ok _ _ _ A) Hne) as (D & E & F).
  { intros j Hj. by apply std_loc. }
  { congruence. }
  { intros j Hj. rewrite C by (intros; congruence). by apply (fo_unused _ Hok). }
  cbv zeta in *. split; [by eapply fd_op_trans|]. split.
  - intros r Hr. apply elem_of_refs in Hr. destruct r as [j|j].
    + rewrite F by (intros; congruence). apply B. change (Z.of_nat (Z.to_nat MAX_FDS)) with 32. lia.
    + rewrite E by lia. apply C. intros; congruence.
  - intros i r Hi. rewrite F, C; [done|intros j _ [= ? _]; done|intros j _ [= ? _]; done].
Qed.
