(* ===== verification/ProcessExec.v ===== *)
(** New programs ([build_user_stack], [process_create_from_elf_argv] and [process_execve] of
    [src/kernel/sched/process.c]): definitions.

    A C string is the list of its bytes before the NUL, and [argv] a list of strings.  The files
    [process_execve] finds are the ramfs's ([fs]); their contents lie in the identity-mapped memory.
    [build_user_stack] does not test the result of [pmm_alloc_page], and neither does the model: on
    exhaustion it clears, and maps, physical page 0. *)
From S2P Require Import Prelude Pmm Paging Ramfs Elf Process.

Definition EXECVE_ARG_MAX : Z := 256.
Definition PROCESS_EXEC_MAX_ARGS : Z := 256.

(** The stores of one string with its NUL, and of the words of the vector. *)
Fixpoint ustore_string (bs : list Z) (va : Z) (s : vm) : option vm :=
  match bs with
  | [] => ustore va 0 s
  | b :: bs => match ustore va b s with Some s => ustore_string bs (va + 1) s | None => None end
  end.
Fixpoint ustore_word (n : nat) (va v : Z) (s : vm) : option vm :=
  match n with
  | O => Some s
  | S n => match ustore va (u8 v) s with Some s => ustore_word n (va + 1) (v / 256) s | None => None end
  end.
Fixpoint ustore_words (ws : list Z) (va : Z) (s : vm) : option vm :=
  match ws with
  | [] => Some s
  | w :: ws => match ustore_word 8 va w s with Some s => ustore_words ws (va + 8) s | None => None end
  end.

Definition string_bytes (argv : list (list Z)) : Z :=
  foldr (fun a n => Z.of_nat (length a) + 1 + n) 0 argv.
Definition pointer_bytes (argc : Z) : Z := (argc + 7) * 8.
Definition stack_pages (argv : list (list Z)) : Z :=
  let needed := string_bytes argv + pointer_bytes (Z.of_nat (length argv)) + 15 in
  Z.max USER_STACK_INITIAL_PAGES ((needed + PAGE_SIZE - 1) / PAGE_SIZE).

Fixpoint stack_loop (n : nat) (va : Z) (s : vm) : option vm :=
  match n with
  | O => Some s
  | S n =>
      let '(phys, p) := pmm_alloc_page (vpmm s) in
      let s := set_vmem (zero_table 512 phys 0 (vmem s)) (set_vpmm p s) in
      match paging_map_page va phys (Z.lor (Z.lor PTE_PRESENT PTE_WRITABLE) PTE_USER) s with
      | Some s => stack_loop n (va + PAGE_SIZE) s
      | None => None
      end
  end.

(** Copies the strings from [strp] up, and returns their addresses. *)
Fixpoint store_strings (argv : list (list Z)) (strp : Z) (s : vm) : option (list Z * vm) :=
  match argv with
  | [] => Some ([], s)
  | a :: argv =>
      match ustore_string a strp s with
      | None => None
      | Some s =>
          match store_strings argv (strp + Z.of_nat (length a) + 1) s with
          | Some (ptrs, s) => Some (strp :: ptrs, s)
          | None => None
          end
      end
  end.

(** The stack pointer; the fields of [p] it sets are [init_space]. *)
Definition build_user_stack (argv : list (list Z)) (s : vm) : option (Z * vm) :=
  let argc := Z.of_nat (length argv) in
  let pages := stack_pages argv in
  let stack_va := USER_STACK_TOP - pages * PAGE_SIZE in
  match stack_loop (Z.to_nat pages) stack_va s with
  | None => None
  | Some s =>
      match store_strings argv (USER_STACK_TOP - string_bytes argv) s with
      | None => None
      | Some (ptrs, s) =>
          let sp := Z.land (USER_STACK_TOP - string_bytes argv - pointer_bytes argc) (not64 15) in
          match ustore_words (argc :: ptrs ++ [0; 0; 6; PAGE_SIZE; 0; 0]) sp s with
          | None => None
          | Some s => Some (sp, s)
          end
      end
  end.
Definition init_space (argv : list (list Z)) (p : process) : process :=
  set_space (USER_STACK_TOP - stack_pages argv * PAGE_SIZE) USER_STACK_TOP USER_STACK_LIMIT USER_BRK_BASE
    USER_MMAP_BASE p.

Fixpoint clear_fds (n : nat) (i : Z) (p : process) : process :=
  match n with O => p | S n => clear_fds n (i + 1) (set_fde (Fd i) (set_used false (fde p (Fd i))) p) end.

Section root.
Context (RT : Z).

(** [sstatus] is the CSR; the inner [option] is the null pointer. *)
Definition process_create_from_elf_argv (sstatus data size : Z) (argv : list (list Z)) (s : ksys)
  : option (option Z * ksys) :=
  match alloc_slot s with
  | None => Some (None, s)
  | Some i =>
      let prev_root := paging_active_root (kvm s) in
      match paging_new_addrspace RT (kvm s) with
      | None => None
      | Some (new_root, v) =>
          match elf_load data size (paging_activate new_root v) with
          | None => None
          | Some (entry, v) =>
              if entry =? 0 then
                Some (None, set_kvm (paging_destroy_addrspace RT new_root (paging_activate prev_root v)) s)
              else
                let s := upd i (set_cwd (lit "/")) s in
                match build_user_stack argv v with
                | None => None
                | Some (sp, v) =>
                    let s := upd i (fun p => process_arch_init_context sstatus entry sp (init_space argv p)) s in
                    let s := upd i (set_root new_root) s in
                    match bump_pid s with
                    | None => None
                    | Some (id, s) =>
                        let s := upd i (fun p => clear_fds (Z.to_nat MAX_FDS) 0 (set_exit_code 0 (set_ids id 0 p))) s in
                        let s := upd i (set_state PROC_RUNNABLE) s in
                        Some (Some i, set_kvm (paging_activate prev_root v) s)
                    end
                end
          end
      end
  end.

Definition process_create_from_elf (sstatus data size : Z) (arg0 : list Z) (s : ksys) :=
  process_create_from_elf_argv sstatus data size [arg0] s.

(** The snapshot of [argv] into [argbuf], with [n] rows left; [None] is [return -1]. *)
Fixpoint snapshot_argv (n : nat) (argv : list (list Z)) : option (list (list Z)) :=
  match argv, n with
  | [], _ => Some []
  | _ :: _, O => None
  | a :: argv, S n =>
      if EXECVE_ARG_MAX - 1 <? Z.of_nat (length a) then None
      else match snapshot_argv n argv with Some l => Some (a :: l) | None => None end
  end.

(** The file's contents; the outer [None] is a lookup that does not return. *)
Definition exec_file (path : list Z) (fs : kfs) : option (option (Z * Z)) :=
  match ramfs_dynamic_lookup path fs with
  | None => None
  | Some (Some d) => Some (Some (data (getfile fs d), size (getfile fs d)))
  | Some None =>
      match ramfs_lookup path fs with
      | None => None
      | Some None => Some None
      | Some (Some (_, d, n)) => Some (Some (d, n))
      end
  end.

Definition process_execve (c : Z) (path : list Z) (argv : list (list Z)) (fs : kfs) (s : ksys)
  : option (Z * ksys) :=
  match exec_file path fs with
  | None => None
  | Some None => Some (-1, s)
  | Some (Some (elf_data, elf_size)) =>
      match snapshot_argv (Z.to_nat PROCESS_EXEC_MAX_ARGS) argv with
      | None => Some (-1, s)
      | Some argv =>
          let prev_root := paging_active_root (kvm s) in
          match paging_new_addrspace RT (kvm s) with
          | None => None
          | Some (new_root, v) =>
              match elf_load elf_data elf_size (paging_activate new_root v) with
              | None => None
              | Some (entry, v) =>
                  if entry =? 0 then
                    Some (-1, set_kvm (paging_destroy_addrspace RT new_root (paging_activate prev_root v)) s)
                  else
                    match build_user_stack argv v with
                    | None => None
                    | Some (sp, v) =>
                        let s := upd c (init_space argv) s in
                        let s := upd c (set_root new_root) s in
                        let s := set_kvm (paging_destroy_addrspace RT prev_root v) s in
                        let s := upd c (set_tls 0) s in
                        Some (0, set_live (process_arch_execve_rewrite entry sp (live s)) s)
                    end
              end
          end
      end
  end.
End root.
