(* ===== verification/ProcessSys.v ===== *)
(** The cooperative kernel as a step relation: what the processes of Process.v can do to the tables,
    one uninterrupted piece of kernel or user code at a time.

    [kont] is what a process's suspended kernel stack is in the middle of: nothing (it is in user
    mode, or has yet to run), or one of the loops that call [process_schedule].  [kstep] relates the
    states before and after one piece, with the [event] that tells what it did to a pipe. *)
From S2P Require Import Prelude Pmm Paging Ramfs Elf Process ProcessExec.

Inductive kont :=
  | KUser
  | KRead (pi : Z) (want : nat) (n : Z)
  | KWrite (pi : Z) (rest : list Z) (count n : Z)
  | KWait (want options : Z).

Inductive event :=
  | Tau
  | DidRead (pi : Z) (bs : list Z)
  | DidWrite (pi : Z) (bs : list Z)
  | DidCreate (pi : Z).

Record msys := Msys { ks : ksys; konts : gmap Z kont }.
Definition kont_of (m : msys) (c : Z) : kont := default KUser (konts m !! c).
Definition set_kont (c : Z) (k : kont) (m : msys) : msys := Msys (ks m) (<[c := k]> (konts m)).
Definition set_ks (s : ksys) (m : msys) : msys := Msys s (konts m).

(** [sys_ret(r, v)]: the live frame's [a0]. *)
Definition sys_ret (v : Z) (s : ksys) : ksys := set_live (<[R_A0 := u64 v]> (live s)) s.

Section root.
Context (RT : Z).

(** The current process [c] goes on with its suspended system call. *)
Definition resume (c : Z) (k : kont) (s : ksys) : ksys * kont * event :=
  match k with
  | KUser => (s, KUser, Tau)
  | KRead pi want n =>
      let '(blocked, want, bs, p) := pipe_read_run want [] (getpipe s pi) in
      let s := set_pipes pi p s in
      let n := n + Z.of_nat (length bs) in
      if blocked then (process_schedule c s, KRead pi want n, DidRead pi bs)
      else (sys_ret n s, KUser, DidRead pi bs)
  | KWrite pi rest count n =>
      let '(blocked, rest', n', p) := pipe_write_run rest n (getpipe s pi) in
      let s := set_pipes pi p s in
      let bs := firstn (Z.to_nat (n' - n)) rest in
      if blocked then (process_schedule c s, KWrite pi rest' count n', DidWrite pi bs)
      else (sys_ret (pipe_write_result count n') s, KUser, DidWrite pi bs)
  | KWait want options =>
      match process_wait4_run RT c want options s with
      | (Waited ret _, s) => (sys_ret ret s, KUser, Tau)
      | (WaitYield, s) => (process_schedule c s, KWait want options, Tau)
      end
  end.

(** An open descriptor of the process, as the system calls look it up. *)
Definition open_fd (c : Z) (r : fdref) (s : ksys) : Prop :=
  exists i, process_fd_get c i s = Some r \/ process_stdio_get c i s = Some r.

(** A change of an entry that is not about pipes ([openat_core], [sys_lseek], file reads and writes). *)
Definition same_pipe (f g : fd_entry) : Prop :=
  fd_used g = fd_used f /\ fd_pipe g = fd_pipe f /\ fd_pipe_write g = fd_pipe_write f.

Inductive call : Z -> ksys -> event -> ksys -> Prop :=
  | call_yield c s : call c s Tau (process_schedule c s)
  | call_fd_alloc c s : call c s Tau (snd (process_fd_alloc c s))
  | call_fd_fill c s r f : open_fd c r s -> same_pipe (fde_at s c r) f -> call c s Tau (upd c (set_fde r f) s)
  | call_fd_close c s i : call c s Tau (process_fd_close c i s)
  | call_stdio_clear c s i : call c s Tau (process_stdio_clear c i s)
  | call_fd_set c s i r : open_fd c r s -> call c s Tau (process_fd_set c i r s)
  | call_stdio_set c s i r : open_fd c r s -> call c s Tau (process_stdio_set c i r s)
  | call_fcntl_dup c s i r s' : open_fd c r s -> process_fd_alloc c s = (i, s') -> 0 <= i ->
      call c s Tau (fd_entry_copy c (Fd i) c r s')
  | call_pipe c s fds s' pi : process_pipe_create c s = (Some fds, s') ->
      free_pipe (Z.to_nat MAX_PIPES) 0 s = Some pi -> call c s (DidCreate pi) s'
  | call_pipe_fails c s s' : process_pipe_create c s = (None, s') -> call c s Tau s'
  | call_fork c s id s' : process_fork RT c s = Some (id, s') -> call c s Tau (sys_ret id s')
  | call_exit c s code s' : process_exit_current c code s = Some s' -> call c s Tau s'
  | call_execve c s path argv fs r s' : process_execve RT c path argv fs s = Some (r, s') -> call c s Tau s'
  | call_brk c s v : call c s Tau (process_set_current_brk v s)
  | call_take_mmap c s n : call c s Tau (snd (process_take_mmap c n s))
  | call_note_mmap c s v : call c s Tau (process_note_mmap_end v s)
  | call_cwd c s path : call c s Tau (process_set_current_cwd path s)
  | call_stack_fault c s a ok s' : process_handle_stack_fault a s = Some (ok, s') -> call c s Tau s'.

(** The blocking calls start here, and run by [step_resume]. *)
Inductive blocking (c : Z) (s : ksys) : kont -> Prop :=
  | blocking_read r pi count : open_fd c r s -> fd_pipe (fde_at s c r) = Some pi ->
      fd_pipe_write (fde_at s c r) = false -> blocking c s (KRead pi count 0)
  | blocking_write r pi bs : open_fd c r s -> fd_pipe (fde_at s c r) = Some pi ->
      fd_pipe_write (fde_at s c r) = true -> blocking c s (KWrite pi bs (Z.of_nat (length bs)) 0)
  | blocking_wait want options : blocking c s (KWait want options).

Inductive kstep : msys -> event -> msys -> Prop :=
  (** User code, other faults, and the kernel's other work: registers, memory and page tables
      change, but not the address space in force. *)
  | step_user m c r v : current (ks m) = Some c -> kont_of m c = KUser ->
      length r = regs_words -> active_root v = active_root (kvm (ks m)) ->
      kstep m Tau (set_ks (set_kvm v (set_live r (ks m))) m)
  | step_call m c e s : current (ks m) = Some c -> kont_of m c = KUser -> call c (ks m) e s ->
      kstep m e (set_ks s m)
  | step_block m c k : current (ks m) = Some c -> kont_of m c = KUser -> blocking c (ks m) k ->
      kstep m Tau (set_kont c k m)
  | step_resume m c s k e : current (ks m) = Some c -> resume c (kont_of m c) (ks m) = (s, k, e) ->
      kstep m e (set_kont c k (set_ks s m)).

Inductive ksteps : msys -> list event -> msys -> Prop :=
  | ksteps_refl m : ksteps m [] m
  | ksteps_step m e m' t m'' : kstep m e m' -> ksteps m' t m'' -> ksteps m (e :: t) m''.
End root.
