(* ===== verification/ProcessInv.v ===== *)
(** The invariant of the process table and its preservation by everything the processes do
    ([src/kernel/sched/process.c]): the descriptor counts of ProcessFds.v, ids, who runs, and whose
    address space is in force. *)
From S2P Require Import Prelude Pmm Paging Ramfs Elf Process ProcessExec ProcessSys ProcessPipe ProcessFds.

(** ** The address space in force

    Only [paging_activate] changes it. *)

#[local] Opaque ENTRIES zero_table.

(** Injection without evaluating the components. *)
Lemma some_pair {A B} (a a' : A) (b b' : B) : Some (a, b) = Some (a', b') -> a' = a /\ b' = b.
Proof. by intros [= -> ->]. Qed.

Lemma alloc_table_root s t s' : alloc_table s = Some (t, s') -> active_root s' = active_root s.
Proof.
  unfold alloc_table. destruct (pmm_alloc_page (vpmm s)) as [phys p]. case_match; [done|].
  by intros [= _ <-].
Qed.
Lemma walk_level_root c t i s r s' : walk_level c t i s = Some (r, s') -> active_root s' = active_root s.
Proof.
  unfold walk_level. intros E. repeat (case_match; simplify_eq/=; try done). by eapply alloc_table_root.
Qed.
Lemma get_pte_in_root root virt c s r s' : get_pte_in root virt c s = Some (r, s') -> active_root s' = active_root s.
Proof.
  unfold get_pte_in. intros E. repeat (case_match; simplify_eq/=; try done).
  all: repeat match goal with H : walk_level _ _ _ _ = Some _ |- _ => apply walk_level_root in H end; congruence.
Qed.
Lemma map_page_in_root root virt phys flags s s' :
  paging_map_page_in root virt phys flags s = Some s' -> active_root s' = active_root s.
Proof.
  unfold paging_map_page_in. intros E. repeat (case_match; simplify_eq/=; try done).
  by eapply get_pte_in_root.
Qed.
Lemma map_page_root virt phys flags s s' : paging_map_page virt phys flags s = Some s' -> active_root s' = active_root s.
Proof. apply map_page_in_root. Qed.
Lemma share_l1_slot_root RT d va s s' : share_l1_slot RT d va s = Some s' -> active_root s' = active_root s.
Proof.
  unfold share_l1_slot. intros E. repeat (case_match; simplify_eq/=; try done). by eapply alloc_table_root.
Qed.
Lemma share_loop_root RT n r va s s' : share_loop RT n r va s = Some s' -> active_root s' = active_root s.
Proof.
  revert va s. induction n as [|n IH]; intros va s; cbn [share_loop]; [by intros [= ->]|].
  destruct (share_l1_slot RT r va s) as [s1|] eqn:E; [|done].
  intros Hr%IH. apply share_l1_slot_root in E. congruence.
Qed.
Lemma new_addrspace_root RT s r s' : paging_new_addrspace RT s = Some (r, s') -> active_root s' = active_root s.
Proof.
  unfold paging_new_addrspace. destruct (alloc_table s) as [[root s1]|] eqn:E1; [|done].
  destruct (share_loop RT _ root _ s1) as [s2|] eqn:E2; [|done].
  destruct (share_l1_slot RT root _ s2) as [s3|] eqn:E3; [|done]. intros [= _ <-].
  apply alloc_table_root in E1. apply share_loop_root in E2. apply share_l1_slot_root in E3. congruence.
Qed.
Lemma free_at_root a s : active_root (free_at a s) = active_root s.
Proof. done. Qed.
Lemma destroy_l0_root n l0 j s : active_root (destroy_l0 n l0 j s) = active_root s.
Proof.
  revert j s. induction n as [|n IH]; intros j s; cbn [destroy_l0]; [done|]. rewrite IH. by case_match.
Qed.
Lemma destroy_l1_root n l1 m i s : active_root (destroy_l1 n l1 m i s) = active_root s.
Proof.
  revert i s. induction n as [|n IH]; intros i s; [done|]. cbn [destroy_l1]. rewrite IH.
  case_match; [done|]. by rewrite free_at_root, destroy_l0_root.
Qed.
Lemma destroy_l2_root RT n r l2 s : active_root (destroy_l2 RT n r l2 s) = active_root s.
Proof.
  revert l2 s. induction n as [|n IH]; intros l2 s; [done|]. cbn [destroy_l2]. rewrite IH.
  case_match; [done|]. by rewrite free_at_root, destroy_l1_root.
Qed.
Lemma destroy_addrspace_root RT r s : active_root (paging_destroy_addrspace RT r s) = active_root s.
Proof. unfold paging_destroy_addrspace. case_match; [done|]. by rewrite free_at_root, destroy_l2_root. Qed.
Lemma fork_l0_root n d l2 i l0 j s s' : fork_l0 n d l2 i l0 j s = Some s' -> active_root s' = active_root s.
Proof.
  revert j s. induction n as [|n IH]; intros j s; cbn [fork_l0]; [by intros [= ->]|].
  case_match; [by apply IH|]. case_match eqn:E; [|done]. intros Hr%IH.
  apply map_page_in_root in E. cbn in E. congruence.
Qed.
Lemma fork_l1_root n d l2 l1 i s s' : fork_l1 n d l2 l1 i s = Some s' -> active_root s' = active_root s.
Proof.
  revert i s. induction n as [|n IH]; intros i s; [by intros [= ->]|]. cbn [fork_l1].
  case_match; [by apply IH|]. destruct (fork_l0 ENTRIES d l2 i _ 0 s) eqn:E; [|done]. intros Hr%IH.
  apply fork_l0_root in E. congruence.
Qed.
Lemma fork_l2_root n d src l2 s s' : fork_l2 n d src l2 s = Some s' -> active_root s' = active_root s.
Proof.
  revert l2 s. induction n as [|n IH]; intros l2 s; [by intros [= ->]|]. cbn [fork_l2].
  case_match; [by apply IH|]. destruct (fork_l1 ENTRIES d l2 _ 0 s) eqn:E; [|done]. intros Hr%IH.
  apply fork_l1_root in E. congruence.
Qed.
Lemma ustore_root va b s s' : ustore va b s = Some s' -> active_root s' = active_root s.
Proof. unfold ustore. case_match; [by intros [= <-]|done]. Qed.
Lemma uzero_root n va s s' : uzero n va s = Some s' -> active_root s' = active_root s.
Proof.
  revert va s. induction n as [|n IH]; intros va s; cbn [uzero]; [by intros [= ->]|].
  destruct (ustore va 0 s) eqn:E; [|done]. intros Hr%IH. apply ustore_root in E. congruence.
Qed.
Lemma ucopy_root n d src s s' : ucopy n d src s = Some s' -> active_root s' = active_root s.
Proof.
  revert d src s. induction n as [|n IH]; intros d src s; cbn [ucopy]; [by intros [= ->]|].
  destruct (ustore d _ s) eqn:E; [|done]. intros Hr%IH. apply ustore_root in E. congruence.
Qed.
Lemma load_pages_root n va s b s' : load_pages n va s = Some (b, s') -> active_root s' = active_root s.
Proof.
  revert va s. induction n as [|n IH]; intros va s; cbn [load_pages]; [by intros [= _ ->]|].
  destruct (pmm_alloc_page (vpmm s)) as [phys p]. case_match; [by intros [= _ <-]|].
  destruct (paging_map_page va phys _ _) eqn:E; [|done]. destruct (uzero _ va _) eqn:E'; [|done].
  intros Hr%IH. apply map_page_root in E. apply uzero_root in E'. cbn in E. congruence.
Qed.
Lemma load_segment_root d o v f m s b s' : load_segment d o v f m s = Some (b, s') -> active_root s' = active_root s.
Proof.
  unfold load_segment. destruct (load_pages _ _ s) as [[[|] s1]|] eqn:E; try done.
  - destruct (ucopy _ _ _ s1) eqn:E'; [|done]. intros [= _ <-].
    apply load_pages_root in E. apply ucopy_root in E'. congruence.
  - intros [= _ <-]. by eapply load_pages_root.
Qed.
Lemma load_loop_root rd es wrap n d sz e ph l k s r s' :
  load_loop rd es wrap n d sz e ph l k s = Some (r, s') -> active_root s' = active_root s.
Proof.
  revert ph l k s. induction n as [|n IH]; intros ph l k s; cbn [load_loop]; [by intros [= _ ->]|].
  case_match; [by apply IH|]. case_match; [by intros [= _ ->]|].
  destruct (load_segment _ _ _ _ _ s) as [[[|] s1]|] eqn:E; try done.
  - intros Hr%IH. apply load_segment_root in E. congruence.
  - intros [= _ <-]. by eapply load_segment_root.
Qed.
Lemma elf_load_root d sz s r s' : elf_load d sz s = Some (r, s') -> active_root s' = active_root s.
Proof.
  unfold elf_load, elf_load32, elf_load64. intros E.
  repeat (case_match; simplify_eq/=; try done); by eapply load_loop_root.
Qed.
Lemma ustore_string_root bs va s s' : ustore_string bs va s = Some s' -> active_root s' = active_root s.
Proof.
  revert va s. induction bs as [|b bs IH]; intros va s; cbn [ustore_string]; [apply ustore_root|].
  destruct (ustore va b s) eqn:E; [|done]. intros Hr%IH. apply ustore_root in E. congruence.
Qed.
Lemma ustore_word_root n va v s s' : ustore_word n va v s = Some s' -> active_root s' = active_root s.
Proof.
  revert va v s. induction n as [|n IH]; intros va v s; cbn [ustore_word]; [by intros [= ->]|].
  destruct (ustore va _ s) eqn:E; [|done]. intros Hr%IH. apply ustore_root in E. congruence.
Qed.
Lemma ustore_words_root ws va s s' : ustore_words ws va s = Some s' -> active_root s' = active_root s.
Proof.
  revert va s. induction ws as [|w ws IH]; intros va s; cbn [ustore_words]; [by intros [= ->]|].
  destruct (ustore_word 8 va w s) eqn:E; [|done]. intros Hr%IH. apply ustore_word_root in E. congruence.
Qed.
Lemma stack_loop_root n va s s' : stack_loop n va s = Some s' -> active_root s' = active_root s.
Proof.
  revert va s. induction n as [|n IH]; intros va s; [by intros [= ->]|]. cbn [stack_loop].
  destruct (pmm_alloc_page (vpmm s)) as [phys p].
  destruct (paging_map_page va phys _ _) eqn:E; [|done]. intros Hr%IH. apply map_page_root in E. cbn in E. congruence.
Qed.
Lemma store_strings_root argv p s r s' : store_strings argv p s = Some (r, s') -> active_root s' = active_root s.
Proof.
  revert p s r. induction argv as [|a argv IH]; intros p s r; cbn [store_strings]; [by intros [= _ ->]|].
  destruct (ustore_string a p s) eqn:E; [|done].
  destruct (store_strings argv _ _) as [[ptrs s2]|] eqn:E'; [|done]. intros [= _ <-].
  apply IH in E'. apply ustore_string_root in E. congruence.
Qed.
Lemma build_user_stack_root argv s r s' : build_user_stack argv s = Some (r, s') -> active_root s' = active_root s.
Proof.
  unfold build_user_stack. destruct (stack_loop _ _ s) eqn:E1; [|done].
  destruct (store_strings _ _ _) as [[ptrs s2]|] eqn:E2; [|done]. destruct (ustore_words _ _ _) eqn:E3; [|done].
  intros [= _ <-]. apply stack_loop_root in E1. apply store_strings_root in E2. apply ustore_words_root in E3. congruence.
Qed.

(** ** The invariant *)

Record sys_ok (s : ksys) : Prop := {
  so_fds : fds_ok s;
  so_rings : forall pi, pipe_ok (getpipe s pi);
  so_idle : forall i r, state (getp s i) <> PROC_RUNNABLE -> fd_used (entry s (i, r)) = false;
  so_slots : forall i, state (getp s i) <> PROC_UNUSED -> 0 <= i < 8;
  so_pids : forall i j, state (getp s i) <> PROC_UNUSED -> state (getp s j) <> PROC_UNUSED ->
    pid (getp s i) = pid (getp s j) -> i = j;
  so_next : forall i, state (getp s i) <> PROC_UNUSED ->
    0 < pid (getp s i) < next_pid s /\ 0 <= ppid (getp s i) < pid (getp s i);
  so_bound : 1 <= next_pid s <= 2147483647;
  so_current : forall c, current s = Some c -> state (getp s c) = PROC_RUNNABLE /\
    active_root (kvm s) = root_table (getp s c) /\ kstack s = Some c
}.

(** What the invariant reads of a process, its descriptors and its root apart. *)
Definition ids (p : process) : Z * Z * process_state := (pid p, ppid p, state p).

(** A change that is invisible to the process fields of the invariant. *)
Record quiet (s s' : ksys) : Prop := {
  q_ids : forall i, ids (getp s' i) = ids (getp s i);
  q_next : next_pid s' = next_pid s;
  q_current : current s' = current s;
  q_root : forall c, current s = Some c -> active_root (kvm s) = root_table (getp s c) ->
    active_root (kvm s') = root_table (getp s' c);
  q_kstack : kstack s' = kstack s
}.
Lemma quiet_fields s s' i : quiet s s' -> state (getp s' i) = state (getp s i) /\ pid (getp s' i) = pid (getp s i) /\
  ppid (getp s' i) = ppid (getp s i).
Proof. intros Hq. pose proof (q_ids _ _ Hq i) as E. unfold ids in E. by injection E as -> -> ->. Qed.
Lemma sys_ok_quiet s s' : sys_ok s -> quiet s s' -> fds_ok s' -> (forall pi, pipe_ok (getpipe s' pi)) ->
  (forall i r, state (getp s i) <> PROC_RUNNABLE -> fd_used (entry s' (i, r)) = false) -> sys_ok s'.
Proof.
  intros [A1 A2 A3 A4 A5 A6 A7 A8] Q F R I.
  assert (forall i, state (getp s' i) = state (getp s i)) as Es by (intros i; by apply quiet_fields).
  assert (forall i, pid (getp s' i) = pid (getp s i)) as Ep by (intros i; by apply quiet_fields).
  assert (forall i, ppid (getp s' i) = ppid (getp s i)) as Epp by (intros i; by apply quiet_fields).
  split; try done.
  - intros i r. rewrite Es. apply I.
  - intros i. rewrite Es. apply A4.
  - intros i j. rewrite !Es, !Ep. apply A5.
  - intros i. rewrite Es, Ep, Epp, (q_next _ _ Q). apply A6.
  - rewrite (q_next _ _ Q). done.
  - intros c. rewrite (q_current _ _ Q), (q_kstack _ _ Q), Es. intros Hc. destruct (A8 c Hc) as (B1 & B2 & B3).
    split; [done|]. split; [by apply (q_root _ _ Q)|done].
Qed.

Lemma ring_ok p q : ring q = ring p -> pipe_ok p -> pipe_ok q.
Proof. unfold ring. intros [= E1 E2 E3] [A B C]. split; congruence. Qed.
Lemma rings_ok s s' : rings_same s s' -> (forall pi, pipe_ok (getpipe s pi)) -> forall pi, pipe_ok (getpipe s' pi).
Proof. intros Hr Ho pi. apply (ring_ok (getpipe s pi)); [apply Hr|apply Ho]. Qed.

Lemma fd_frame_quiet c s s' : fd_frame c s s' -> quiet s s'.
Proof.
  intros [A (t & B) C D E F G]. split; try done.
  - intros i. destruct (Z.eq_dec i c) as [->|Hi]; [by rewrite B|by rewrite A].
  - intros k _. rewrite G. destruct (Z.eq_dec k c) as [->|Hi]; [by rewrite B|by rewrite A].
Qed.
Lemma fd_frame_entry c s s' i r : fd_frame c s s' -> i <> c -> entry s' (i, r) = entry s (i, r).
Proof. intros F Hi. unfold entry, fde_at. cbn. by rewrite (ff_other _ _ _ F). Qed.
Lemma sys_ok_frame c s s' : sys_ok s -> state (getp s c) = PROC_RUNNABLE -> fd_frame c s s' -> fds_ok s' ->
  (forall pi, pipe_ok (getpipe s' pi)) -> sys_ok s'.
Proof.
  intros Ho Hc F Fo R. apply (sys_ok_quiet s); try done; [by eapply fd_frame_quiet|].
  intros i r Hi. rewrite (fd_frame_entry c s) by (done || congruence). by apply (so_idle _ Ho).
Qed.
Lemma sys_ok_fd_op c s s' : sys_ok s -> state (getp s c) = PROC_RUNNABLE -> fd_op c s s' -> sys_ok s'.
Proof. intros Ho Hc [A B C]. eapply sys_ok_frame; try done. eapply rings_ok; [done|apply Ho]. Qed.

(** A process field the invariant does not read. *)
Definition harmless (f : process -> process) : Prop :=
  forall p, ids (f p) = ids p /\ root_table (f p) = root_table p /\ fdtab (f p) = fdtab p.
Lemma entry_harmless c f s k : harmless f -> entry (upd c f s) k = entry s k.
Proof.
  intros Hf. unfold entry, fde_at. rewrite getp_upd. case_decide as E; [|done]. unfold fde.
  destruct (Hf (getp s c)) as (_ & _ & ->). by rewrite E.
Qed.
Lemma sys_ok_upd c f s : harmless f -> sys_ok s -> sys_ok (upd c f s).
Proof.
  intros Hf Ho. apply (sys_ok_quiet s); try done.
  - split; try done; intros i; rewrite getp_upd; (case_decide; [subst|done]); [by apply Hf|].
    intros _ E0. etransitivity; [exact E0|]. symmetry. apply Hf.
  - eapply fds_ok_same; [| |apply Ho]; [intros k; by apply entry_harmless|done].
  - apply Ho.
  - intros i r Hi. rewrite entry_harmless by done. by apply (so_idle _ Ho).
Qed.
Lemma fds_ok_tables s s' : procs s' = procs s -> pipes s' = pipes s -> fds_ok s -> fds_ok s'.
Proof.
  intros Ep Eq. apply fds_ok_same.
  - intros l. unfold entry, fde_at, getp. by rewrite Ep.
  - intros pi w. unfold getpipe. by rewrite Eq.
Qed.
(** Only registers, and the paging state of the same address space, change. *)
Lemma sys_ok_outside s s' : procs s' = procs s -> pipes s' = pipes s -> next_pid s' = next_pid s ->
  current s' = current s -> kstack s' = kstack s -> active_root (kvm s') = active_root (kvm s) ->
  sys_ok s -> sys_ok s'.
Proof.
  intros Ep Eq E1 E2 E3 E4 Ho. apply (sys_ok_quiet s); try done.
  - split; try done; intros i; unfold getp; rewrite Ep; [done|]. by rewrite E4.
  - apply (fds_ok_tables s); [done|done|apply Ho].
  - intros pi. unfold getpipe. rewrite Eq. apply Ho.
  - intros i r Hi. unfold entry, fde_at, getp. rewrite Ep. by apply (so_idle _ Ho i r).
Qed.
Lemma sys_ok_live s l : sys_ok s -> sys_ok (set_live l s).
Proof. by apply sys_ok_outside. Qed.
Lemma sys_ok_set_kvm s v : sys_ok s -> active_root v = active_root (kvm s) -> sys_ok (set_kvm v s).
Proof. intros Ho E. by apply (sys_ok_outside s). Qed.

(** ** Scheduling *)

Lemma find_state_spec st n i s j : find_state st n i s = Some j -> i <= j < i + Z.of_nat n /\ state (getp s j) = st /\
  forall k, i <= k < j -> state (getp s k) <> st.
Proof.
  revert i. induction n as [|n IH]; intros i; cbn [find_state]; [done|]. case_decide as E.
  - intros [= <-]. split; [lia|]. split; [done|lia].
  - intros Hn. apply IH in Hn as (? & ? & Hk). split; [lia|]. split; [done|].
    intros k Hlt. destruct (Z.eq_dec k i) as [->|]; [done|]. apply Hk. lia.
Qed.
Lemma find_state_none st n i s : find_state st n i s = None ->
  forall k, i <= k < i + Z.of_nat n -> state (getp s k) <> st.
Proof.
  revert i. induction n as [|n IH]; intros i; cbn [find_state]; [lia|]. case_decide; [done|].
  intros Hn k Hk. destruct (Z.eq_dec k i) as [->|]; [done|]. apply (IH (i + 1)); [done|lia].
Qed.
Lemma next_loop_runnable n i s j : next_loop n i s = Some j -> 0 <= j < 8 /\ state (getp s j) = PROC_RUNNABLE.
Proof.
  revert i. induction n as [|n IH]; intros i; cbn [next_loop]; [done|]. case_decide; [|apply IH].
  intros [= <-]. split; [|done]. unfold MAX_PROCESSES. zlia.
Qed.

(** The next process takes over. *)
Lemma restore_ok i s : sys_ok s -> state (getp s i) = PROC_RUNNABLE ->
  sys_ok (process_arch_activate_and_restore i (set_current (Some i) s)).
Proof.
  intros [A1 A2 A3 A4 A5 A6 A7 A8] Hi. split; try done; [by apply (fds_ok_tables s)|].
  cbn. intros c [= <-]. done.
Qed.
Lemma save_ok i s : sys_ok s -> sys_ok (process_arch_save_trapframe i s).
Proof. by apply sys_ok_upd. Qed.
Lemma process_schedule_ok c s : sys_ok s -> sys_ok (process_schedule c s).
Proof.
  intros Ho. unfold process_schedule. destruct (next_runnable c s) as [j|] eqn:E; [|done].
  apply next_loop_runnable in E as [_ E]. case_match; [done|].
  apply restore_ok; [by apply save_ok|]. unfold process_arch_save_trapframe. rewrite getp_upd.
  by case_decide; subst.
Qed.

(** ** Processes come and go *)

Lemma sys_ok_none s : sys_ok s -> sys_ok (set_current None s).
Proof. intros [A1 A2 A3 A4 A5 A6 A7 A8]. split; try done. by apply (fds_ok_tables s). Qed.

Lemma entry_same_fds s s' i j r : fdtab (getp s' i) = fdtab (getp s j) -> entry s' (i, r) = entry s (j, r).
Proof. unfold entry, fde_at, fde. cbn. by intros ->. Qed.

(** A process without open descriptors that is not running stops or disappears. *)
Lemma retire_ok i f s : sys_ok s -> current s <> Some i -> state (getp s i) <> PROC_UNUSED ->
  (forall r, fd_used (entry s (i, r)) = false) ->
  pid (f (getp s i)) = pid (getp s i) -> ppid (f (getp s i)) = ppid (getp s i) ->
  fdtab (f (getp s i)) = fdtab (getp s i) -> state (f (getp s i)) <> PROC_RUNNABLE -> sys_ok (upd i f s).
Proof.
  intros Ho Hc Hl Hu Ep Epp Ef Hs. set (s' := upd i f s).
  assert (forall j, pid (getp s' j) = pid (getp s j) /\ ppid (getp s' j) = ppid (getp s j) /\
    fdtab (getp s' j) = fdtab (getp s j) /\ (state (getp s' j) <> PROC_UNUSED -> state (getp s j) <> PROC_UNUSED)) as Hj.
  { intros j. unfold s'. rewrite getp_upd. case_decide; [subst j|]; done. }
  assert (forall k, entry s' k = entry s k) as He.
  { intros [j r]. apply entry_same_fds. apply Hj. }
  destruct Ho as [A1 A2 A3 A4 A5 A6 A7 A8]. split; try done.
  - by apply (fds_ok_same s).
  - intros j r. rewrite He. unfold s'. rewrite getp_upd. case_decide; [subst j; intros _; apply Hu|apply A3].
  - intros j Hj'. apply A4. by apply Hj.
  - intros j k H1 H2. destruct (Hj j) as (-> & _ & _ & G1), (Hj k) as (-> & _ & _ & G2). auto.
  - intros j H1. destruct (Hj j) as (-> & -> & _ & G1). auto.
  - intros c Hc'. unfold s'. rewrite getp_upd. case_decide; [subst c; done|]. by apply A8.
Qed.

(** A process appears in an unused slot. *)
Lemma spawn_ok s s' i : sys_ok s -> state (getp s i) = PROC_UNUSED -> 0 <= i < 8 -> next_pid s < 2147483647 ->
  fds_ok s' -> (forall pi, pipe_ok (getpipe s' pi)) -> (forall j, j <> i -> getp s' j = getp s j) ->
  state (getp s' i) = PROC_RUNNABLE -> pid (getp s' i) = next_pid s -> 0 <= ppid (getp s' i) < next_pid s ->
  next_pid s' = next_pid s + 1 -> current s' = current s -> kstack s' = kstack s ->
  active_root (kvm s') = active_root (kvm s) -> sys_ok s'.
Proof.
  intros Ho Hun Hi Hb Hf Hr Hj Hs Hp Hpp Hn Hc Hk Ha. destruct Ho as [A1 A2 A3 A4 A5 A6 A7 A8]. split; try done.
  - intros j r Hjs. assert (j <> i) by congruence. rewrite (entry_same_fds s s' j j) by by rewrite Hj.
    apply A3. by rewrite <- Hj.
  - intros j Hjs. destruct (Z.eq_dec j i) as [->|]; [done|]. apply A4. by rewrite <- Hj.
  - intros j k H1 H2 E. destruct (Z.eq_dec j i) as [->|Nj], (Z.eq_dec k i) as [->|Nk]; try done.
    + rewrite Hp, (Hj k) in E by done. rewrite (Hj k) in H2 by done. pose proof (A6 k H2). lia.
    + rewrite Hp, (Hj j) in E by done. rewrite (Hj j) in H1 by done. pose proof (A6 j H1). lia.
    + rewrite (Hj j), (Hj k) in E by done. rewrite (Hj j) in H1 by done. rewrite (Hj k) in H2 by done. auto.
  - intros j H1. rewrite Hn. destruct (Z.eq_dec j i) as [->|Nj]; [rewrite Hp; lia|].
    rewrite (Hj j) in * by done. pose proof (A6 j H1). lia.
  - rewrite Hn. lia.
  - intros c. rewrite Hc, Ha, Hk. intros Hcc. destruct (A8 c Hcc) as (B1 & B2).
    assert (c <> i) by congruence. by rewrite Hj.
Qed.

Lemma process_exit_ok c code s s' : sys_ok s -> current s = Some c -> process_exit_current c code s = Some s' -> sys_ok s'.
Proof.
  intros Ho Hc. destruct (so_current _ Ho c Hc) as (Hr & _).
  assert (0 <= c < 8) as Hb by (apply (so_slots _ Ho); congruence).
  unfold process_exit_current. fold (release_all c s).
  destruct (release_all_spec c s (so_fds _ Ho) Hb) as [Hop Hun].
  pose proof (sys_ok_fd_op _ _ _ Ho Hr Hop) as Ho1. generalize dependent (release_all c s). intros s1 Hop Hun Ho1.
  assert (state (getp s1 c) = PROC_RUNNABLE) as Hr1.
  { destruct (ff_same _ _ _ (op_frame _ _ _ Hop)) as [t ->]. done. }
  set (f := fun p => set_exit_code code (set_state PROC_ZOMBIE p)).
  destruct (find_state _ _ 0 (upd c f s1)) as [j|] eqn:E; [|done]. intros [= <-].
  assert (sys_ok (upd c f (set_current None s1))) as Ho2.
  { apply retire_ok; try done; [by apply sys_ok_none|]. change (state (getp s1 c) <> PROC_UNUSED). congruence. }
  apply find_state_spec in E as (_ & E & _). by apply (restore_ok j) in Ho2.
Qed.

Lemma wait_scan_spec n i me want have s h z : wait_scan n i me want have s = (h, z) ->
  match z with
  | Some z => i <= z < i + Z.of_nat n /\ state (getp s z) = PROC_ZOMBIE /\ ppid (getp s z) = me /\
      (want = -1 \/ pid (getp s z) = want) /\
      (forall k, i <= k < z -> state (getp s k) = PROC_ZOMBIE -> ppid (getp s k) = me ->
         ~ (want = -1 \/ pid (getp s k) = want))
  | None =>
      (forall k, i <= k < i + Z.of_nat n -> state (getp s k) = PROC_ZOMBIE -> ppid (getp s k) = me ->
         ~ (want = -1 \/ pid (getp s k) = want)) /\
      (h = true <-> have = true \/ exists k, i <= k < i + Z.of_nat n /\ state (getp s k) = PROC_RUNNABLE /\
         ppid (getp s k) = me /\ (want = -1 \/ pid (getp s k) = want))
  end.
Proof.
  revert i have. induction n as [|n IH]; intros i have; cbn [wait_scan].
  { intros [= <- <-]. split; [lia|]. split; [by left|]. intros [?|(k & ? & _)]; [done|lia]. }
  assert (forall have', wait_scan n (i + 1) me want have' s = (h, z) ->
    ~ (state (getp s i) = PROC_ZOMBIE /\ ppid (getp s i) = me /\ (want = -1 \/ pid (getp s i) = want)) ->
    (have' = true <-> have = true \/ (state (getp s i) = PROC_RUNNABLE /\ ppid (getp s i) = me /\
       (want = -1 \/ pid (getp s i) = want))) ->
    match z with
    | Some z => i <= z < i + Z.of_nat (S n) /\ state (getp s z) = PROC_ZOMBIE /\ ppid (getp s z) = me /\
      (want = -1 \/ pid (getp s z) = want) /\
      (forall k, i <= k < z -> state (getp s k) = PROC_ZOMBIE -> ppid (getp s k) = me ->
         ~ (want = -1 \/ pid (getp s k) = want))
    | None =>
      (forall k, i <= k < i + Z.of_nat (S n) -> state (getp s k) = PROC_ZOMBIE -> ppid (getp s k) = me ->
         ~ (want = -1 \/ pid (getp s k) = want)) /\
      (h = true <-> have = true \/ exists k, i <= k < i + Z.of_nat (S n) /\ state (getp s k) = PROC_RUNNABLE /\
         ppid (getp s k) = me /\ (want = -1 \/ pid (getp s k) = want))
    end) as Hnext.
  { intros have' E Hnz Hh. specialize (IH _ _ E). destruct z as [z|].
    - destruct IH as (B1 & B2 & B3 & B4 & B5). split; [lia|]. do 3 (split; [done|]).
      intros k Hk. destruct (Z.eq_dec k i) as [->|]; [tauto|]. apply B5. lia.
    - destruct IH as [B1 B2]. split.
      + intros k Hk. destruct (Z.eq_dec k i) as [->|]; [tauto|]. apply B1. lia.
      + rewrite B2, Hh. split.
        * intros [[?|?]|(k & ? & ?)]; [by left|right; exists i; split; [lia|done]|right; exists k; split; [lia|done]].
        * intros [?|(k & Hk & Hp)]; [tauto|]. destruct (Z.eq_dec k i) as [->|]; [tauto|].
          right. exists k. split; [lia|done]. }
  destruct (bool_decide_reflect (state (getp s i) = PROC_UNUSED)) as [Hu|Hu]; cbn [orb].
  { intros E. apply (Hnext _ E); [|split; [by left|intros [?|(? & _)]; [done|]]]; naive_solver congruence. }
  destruct (Z.eqb_spec (ppid (getp s i)) me) as [Hp|Hp]; cbn [negb].
  2: { intros E. apply (Hnext _ E); naive_solver. }
  destruct (Z.eqb_spec want (-1)) as [Hw|Hw], (Z.eqb_spec (pid (getp s i)) want) as [Hq|Hq]; cbn [negb andb].
  3,1,2: destruct (bool_decide_reflect (state (getp s i) = PROC_ZOMBIE)) as [Hz|Hz];
    [intros [= <- <-]; split; [lia|]; do 2 (split; [done|]); split; [by (left + right)|lia]|];
    intros E; apply (Hnext _ E); [naive_solver|]; destruct (state (getp s i)); naive_solver.
  intros E. apply (Hnext _ E); naive_solver.
Qed.

Section root.
Context (RT : Z).

Lemma process_wait4_ok c want options s o s' : sys_ok s -> current s = Some c ->
  process_wait4_run RT c want options s = (o, s') -> sys_ok s' /\ rings_same s s' /\ current s' = Some c.
Proof.
  intros Ho Hc. unfold process_wait4_run.
  destruct (wait_scan (Z.to_nat MAX_PROCESSES) 0 _ want false s) as [h [z|]] eqn:E.
  - intros H. assert (s' = upd z (fun p => set_state PROC_UNUSED (set_root 0 p))
         (set_kvm (paging_destroy_addrspace RT (root_table (getp s z)) (kvm s)) s)) as -> by (destruct h; congruence).
    apply wait_scan_spec in E as (_ & Hz & _). destruct (so_current _ Ho c Hc) as (Hr & _).
    split; [|done]. apply retire_ok; try done.
    + apply sys_ok_set_kvm; [done|]. apply destroy_addrspace_root.
    + cbn. intros E'. congruence.
    + cbn. change (state (getp s z) <> PROC_UNUSED). congruence.
    + intros r. apply (so_idle _ Ho z r). congruence.
  - destruct h; [case_match|]; intros [= <- <-]; done.
Qed.

Lemma alloc_slot_spec s i : alloc_slot s = Some i -> 0 <= i < 8 /\ state (getp s i) = PROC_UNUSED.
Proof. intros H%find_state_spec. destruct H as (? & ? & _). done. Qed.
Lemma bump_pid_spec s id s' : bump_pid s = Some (id, s') -> next_pid s <= 2147483647 ->
  id = next_pid s /\ s' = set_next_pid (next_pid s + 1) s /\ next_pid s < 2147483647.
Proof. unfold bump_pid. case_match eqn:E; [done|]. apply Z.eqb_neq in E. intros [= <- <-] ?.
  split; [done|]. split; [done|lia].
Qed.

(** Everything [process_fork] does when there is a slot and it succeeds. *)
Record forked (c : Z) (s s' : ksys) (child root : Z) (v : vm) : Prop := {
  fk_slot : alloc_slot s = Some child;
  fk_space : paging_new_addrspace RT (kvm s) = Some (root, v);
  fk_pages : paging_fork_user root (root_table (getp s c)) v = Some (kvm s');
  fk_room : next_pid s < 2147483647;
  fk_next : next_pid s' = next_pid s + 1;
  fk_current : current s' = current s;
  fk_kstack : kstack s' = kstack s;
  fk_live : live s' = live s;
  fk_fds : fds_ok s';
  fk_rings : rings_same s s';
  fk_other : forall j, j <> child -> getp s' j = getp s j;
  fk_entries : forall r, r ∈ all_refs -> entry s' (child, r) = entry s (c, r);
  fk_child : exists t, getp s' child = with_fds t (set_state PROC_RUNNABLE (process_arch_fork_child (live s)
    (fork_fields root (next_pid s) (getp s c) (getp s child))))
}.
Lemma process_fork_spec c s id s' : sys_ok s -> 0 <= c < 8 -> state (getp s c) = PROC_RUNNABLE ->
  process_fork RT c s = Some (id, s') ->
  (id = -1 /\ s' = s /\ alloc_slot s = None) \/
  (id = next_pid s /\ exists child root v, forked c s s' child root v).
Proof.
  intros Ho Hcb Hrun. unfold process_fork. destruct (alloc_slot s) as [child|] eqn:E1; [|intros [= <- <-]; by left].
  apply alloc_slot_spec in E1 as Hcs. destruct Hcs as [Hb Hun].
  assert (child <> c) as Hne by congruence.
  destruct (paging_new_addrspace RT (kvm s)) as [[root v1]|] eqn:E2; [|done].
  destruct (paging_fork_user root _ v1) as [v2|] eqn:E3; [|done].
  destruct (bump_pid (set_kvm v2 s)) as [[i s1]|] eqn:E4; [|done].
  apply bump_pid_spec in E4 as (-> & -> & Hlt); [|apply (so_bound _ Ho)]. cbn [next_pid set_kvm] in *.
  set (s2 := upd child (fork_fields root (next_pid s) (getp s c)) (set_next_pid (next_pid s + 1) (set_kvm v2 s))).
  set (fin := fun x => upd child (set_state PROC_RUNNABLE) (upd child (process_arch_fork_child (live x)) x)).
  change (Some (pid (getp (fin (fork_all child c s2)) child), fin (fork_all child c s2)) = Some (id, s') ->
    (id = -1 /\ s' = s /\ Some child = None) \/
    (id = next_pid s /\ exists child root v, forked c s s' child root v)).
  assert (forall k, entry s2 k = entry s k) as He2.
  { intros [j r]. apply entry_same_fds. unfold s2. rewrite getp_upd. by case_decide; subst. }
  assert (fds_ok s2) as Hf2 by (apply (fds_ok_same s); [done|done|apply Ho]).
  destruct (fork_all_spec child c s2 Hf2 Hne Hb Hcb) as (Hop & Hen & Heo).
  { intros r. rewrite He2. apply (so_idle _ Ho). by rewrite Hun. }
  assert (forall j, j <> child -> getp s2 j = getp s j) as Hg2.
  { intros j Hj. unfold s2. rewrite getp_upd. by rewrite decide_False. }
  assert (getp s2 child = fork_fields root (next_pid s) (getp s c) (getp s child)) as Hgc.
  { unfold s2. rewrite getp_upd. by rewrite decide_True. }
  generalize dependent (fork_all child c s2). intros s3 Hop Hen Heo Hret.
  apply some_pair in Hret as [-> ->].
  destruct Hop as [Hf3 [F1 (t & F2) F3 F4 F5 F6 F7] Hr3].
  set (s5 := fin s3).
  assert (getp s5 child = with_fds t (set_state PROC_RUNNABLE (process_arch_fork_child (live s)
    (fork_fields root (next_pid s) (getp s c) (getp s child))))) as H5.
  { unfold s5, fin. rewrite getp_upd, decide_True, getp_upd, decide_True, F2, F5, Hgc by done. done. }
  assert (forall k, entry s5 k = entry s3 k) as He5.
  { intros [j r]. apply entry_same_fds. unfold s5, fin. rewrite !getp_upd. by repeat case_decide; subst. }
  right. split; [by rewrite H5|]. exists child, root, v1. split; try done.
  - change (kvm s5) with (kvm s3). by rewrite F7.
  - by apply (fds_ok_same s3).
  - intros j Hj. unfold s5, fin. rewrite !getp_upd, !decide_False by done. rewrite F1, Hg2; done.
  - intros r Hin. rewrite He5. by rewrite Hen, He2.
  - by exists t.
Qed.

Lemma process_fork_ok c s id s' : sys_ok s -> current s = Some c -> process_fork RT c s = Some (id, s') ->
  sys_ok s' /\ rings_same s s'.
Proof.
  intros Ho Hc E. destruct (so_current _ Ho c Hc) as (Hr & _).
  assert (0 <= c < 8) as Hb by (apply (so_slots _ Ho); congruence).
  destruct (process_fork_spec c s id s' Ho Hb Hr E) as [(_ & -> & _)|(-> & child & root & v & F)]; [done|].
  destruct F as [G1 G2 G3 G4 G5 G6 G7 G8 G9 G10 G11 G12 (t & G13)]. split; [|done].
  apply alloc_slot_spec in G1 as [Hcb Hun]. apply (spawn_ok s s' child); try done.
  - by apply (rings_ok s s' G10), Ho.
  - by rewrite G13.
  - by rewrite G13.
  - rewrite G13. cbn. destruct (so_next _ Ho c) as (? & ?); [congruence|]. lia.
  - apply fork_l2_root in G3. apply new_addrspace_root in G2. congruence.
Qed.

Lemma process_execve_ok c path argv fs s r s' : sys_ok s -> current s = Some c ->
  process_execve RT c path argv fs s = Some (r, s') -> sys_ok s' /\ rings_same s s'.
Proof.
  intros Ho Hc. unfold process_execve. destruct (exec_file path fs) as [[[d n]|]|]; [|by intros [= _ <-]|done].
  destruct (snapshot_argv _ argv) as [argv'|]; [|by intros [= _ <-]].
  destruct (paging_new_addrspace RT (kvm s)) as [[root v1]|] eqn:E1; [|done].
  destruct (elf_load d n (paging_activate root v1)) as [[entry_ v2]|] eqn:E2; [|done].
  case_match.
  - intros [_ ->]%some_pair. split; [|done]. apply sys_ok_set_kvm; [done|].
    by rewrite destroy_addrspace_root.
  - destruct (build_user_stack argv' v2) as [[sp v3]|] eqn:E3; [|done].
    intros [_ ->]%some_pair. split; [|done].
    set (s3 := set_live _ _). apply elf_load_root in E2. apply build_user_stack_root in E3.
    assert (forall j, getp s3 j = if decide (j = c) then set_tls 0 (set_root root (init_space argv' (getp s c))) else getp s j) as Hg.
    { intros j. unfold s3. change (getp (set_live ?l ?x) j) with (getp x j). rewrite getp_upd.
      change (getp (set_kvm ?l ?x)) with (getp x). rewrite !getp_upd. repeat case_decide; congruence || done. }
    apply (sys_ok_quiet s); try done.
    + split; try done.
      * intros j. rewrite Hg. by case_decide; subst.
      * intros k Hk _. rewrite Hg, decide_True by congruence. cbn. rewrite destroy_addrspace_root. by rewrite E3, E2.
    + apply (fds_ok_same s); [|done|apply Ho]. intros [j q]. apply entry_same_fds. rewrite Hg. by case_decide; subst.
    + apply Ho.
    + intros j q Hj. rewrite (entry_same_fds s s3 j j q); [by apply (so_idle _ Ho)|]. rewrite Hg. by case_decide; subst.
Qed.

Lemma process_handle_stack_fault_ok a s ok s' : sys_ok s -> process_handle_stack_fault a s = Some (ok, s') ->
  sys_ok s' /\ rings_same s s'.
Proof.
  intros Ho. unfold process_handle_stack_fault. destruct (current s) as [c|] eqn:Hc; [|by intros [= _ <-]].
  case_match; [by intros [= _ <-]|].
  destruct (pmm_alloc_page (vpmm (kvm s))) as [phys p].
  case_match; [intros [_ ->]%some_pair; split; [by apply sys_ok_set_kvm|done]|].
  destruct (paging_map_page _ phys _ _) as [v|] eqn:E; [|done]. apply map_page_root in E.
  intros [_ ->]%some_pair. set (s1 := set_kvm v _).
  assert (sys_ok s1) as H1 by (apply sys_ok_set_kvm; [by apply sys_ok_set_kvm|by rewrite E]).
  split; [case_match; [by apply sys_ok_upd|done]|]. by case_match.
Qed.
End root.
