(* ===== verification/ProcessSafe.v ===== *)
(** The steps of the process layer ([src/kernel/sched/process.c]) keep its invariant: each call of
    [kstep] on its own, the state the boot leaves, and with them every reachable state. *)
From S2P Require Import Prelude Pmm Paging Ramfs Elf Process ProcessExec ProcessSys ProcessPipe ProcessFds ProcessInv.

#[local] Opaque ENTRIES zero_table.

Section root.
Context (RT : Z).

(** ** One step *)

(** A runnable process that is not the one running keeps its descriptors and stays runnable. *)
Definition others_kept (c : Z) (s s' : ksys) : Prop :=
  forall i, i <> c -> state (getp s i) = PROC_RUNNABLE ->
    state (getp s' i) = PROC_RUNNABLE /\ fdtab (getp s' i) = fdtab (getp s i).
Lemma others_refl c s : others_kept c s s.
Proof. done. Qed.
Lemma others_frame c s s' : fd_frame c s s' -> others_kept c s s'.
Proof. intros F i Hi Hr. by rewrite (ff_other _ _ _ F). Qed.
Lemma others_upd c f s : others_kept c s (upd c f s).
Proof. intros i Hi Hr. rewrite getp_upd, decide_False by done. done. Qed.

(** What a step does to the queues. *)
Definition queues (e : event) (s s' : ksys) : Prop :=
  match e with
  | Tau => forall j, pending (getpipe s' j) = pending (getpipe s j)
  | DidRead pi bs => pending (getpipe s pi) = bs ++ pending (getpipe s' pi) /\
      forall j, j <> pi -> pending (getpipe s' j) = pending (getpipe s j)
  | DidWrite pi bs => pending (getpipe s' pi) = pending (getpipe s pi) ++ bs /\
      forall j, j <> pi -> pending (getpipe s' j) = pending (getpipe s j)
  | DidCreate pi => pending (getpipe s' pi) = [] /\
      forall j, j <> pi -> pending (getpipe s' j) = pending (getpipe s j)
  end.
Lemma ring_pending p q : ring q = ring p -> pending q = pending p.
Proof. unfold ring. intros [= E1 E2 E3]. by apply pending_ext. Qed.
Lemma queues_rings s s' : rings_same s s' -> queues Tau s s'.
Proof. intros H j. by apply ring_pending. Qed.

Lemma schedule_getp c s i : exists r, getp (process_schedule c s) i = set_regs r (getp s i).
Proof.
  assert (getp s i = set_regs (user_regs (getp s i)) (getp s i)) as Hid by by destruct (getp s i).
  unfold process_schedule. destruct (next_runnable c s); [|by eexists]. case_match; [by eexists|].
  unfold process_arch_save_trapframe. change (getp (process_arch_activate_and_restore ?n (set_current ?o ?x)) i) with (getp x i).
  rewrite getp_upd. case_decide; subst; by eexists.
Qed.
Lemma schedule_pipes c s j : getpipe (process_schedule c s) j = getpipe s j.
Proof. unfold process_schedule. destruct (next_runnable c s); [|done]. by case_match. Qed.
Lemma schedule_others c s : others_kept c s (process_schedule c s).
Proof. intros i _ Hr. destruct (schedule_getp c s i) as [r ->]. done. Qed.

(** The facts about a step of the current process that the invariant of the machine needs. *)
Definition step_ok (c : Z) (e : event) (s s' : ksys) : Prop := sys_ok s' /\ others_kept c s s' /\ queues e s s'.

Lemma fd_op_step c s s' : sys_ok s -> state (getp s c) = PROC_RUNNABLE -> fd_op c s s' -> step_ok c Tau s s'.
Proof.
  intros Ho Hr Hop. split; [by eapply sys_ok_fd_op|]. destruct Hop as [_ F R].
  split; [by apply others_frame|by apply queues_rings].
Qed.
Lemma upd_step c f s : sys_ok s -> harmless f -> step_ok c Tau s (upd c f s).
Proof. intros Ho Hf. split; [by apply sys_ok_upd|]. split; [apply others_upd|by apply queues_rings]. Qed.

Lemma call_fork_step c s id s' : sys_ok s -> current s = Some c -> process_fork RT c s = Some (id, s') ->
  step_ok c Tau s (sys_ret id s').
Proof.
  intros Ho Hc E. destruct (process_fork_ok RT c s id s' Ho Hc E) as [A B].
  destruct (so_current _ Ho c Hc) as (Hr & _).
  split; [by apply sys_ok_live|]. split; [|by apply queues_rings].
  change (others_kept c s s').
  destruct (process_fork_spec RT c s id s' Ho) as [(_ & -> & _)|(_ & child & root & v & F)]; try done.
  - apply (so_slots _ Ho). congruence.
  - intros i Hi Hri. destruct (alloc_slot_spec _ _ (fk_slot _ _ _ _ _ _ _ F)) as [_ Hun].
    rewrite (fk_other _ _ _ _ _ _ _ F); [done|]. congruence.
Qed.
Lemma call_exit_step c s code s' : sys_ok s -> current s = Some c -> process_exit_current c code s = Some s' ->
  step_ok c Tau s s'.
Proof.
  intros Ho Hc E. split; [by eapply process_exit_ok|]. destruct (so_current _ Ho c Hc) as (Hr & _).
  assert (0 <= c < 8) as Hb by (apply (so_slots _ Ho); congruence).
  revert E. unfold process_exit_current. fold (release_all c s).
  destruct (release_all_spec c s (so_fds _ Ho) Hb) as [[_ F R] _].
  generalize dependent (release_all c s). intros s1 F R.
  destruct (find_state _ _ 0 _) as [j|]; [|done]. intros [= <-]. split; [|by apply queues_rings].
  intros i Hi Hri. change (getp (process_arch_activate_and_restore ?n (set_current ?o ?x)) i) with (getp x i).
  rewrite getp_upd, decide_False by done. by rewrite (ff_other _ _ _ F).
Qed.
Lemma call_execve_step c s path argv fs r s' : sys_ok s -> current s = Some c ->
  process_execve RT c path argv fs s = Some (r, s') -> step_ok c Tau s s'.
Proof.
  intros Ho Hc E. destruct (process_execve_ok RT c path argv fs s r s' Ho Hc E) as [A B].
  split; [done|]. split; [|by apply queues_rings].
  revert E. unfold process_execve. destruct (exec_file path fs) as [[[d n]|]|]; [|by intros [= _ <-]|done].
  destruct (snapshot_argv _ argv) as [argv'|]; [|by intros [= _ <-]].
  destruct (paging_new_addrspace RT (kvm s)) as [[root v1]|]; [|done].
  destruct (elf_load d n _) as [[entry_ v2]|]; [|done].
  case_match; [by intros [_ ->]%some_pair|].
  destruct (build_user_stack argv' v2) as [[sp v3]|]; [|done]. intros [_ ->]%some_pair.
  intros i Hi Hri. change (getp (set_live ?l ?x) i) with (getp x i). rewrite getp_upd, decide_False by done.
  change (getp (set_kvm ?l ?x) i) with (getp x i). rewrite !getp_upd, !decide_False by done. done.
Qed.

Lemma call_ok c s e s' : sys_ok s -> current s = Some c -> call RT c s e s' -> step_ok c e s s'.
Proof.
  intros Ho Hc. destruct (so_current _ Ho c Hc) as (Hr & _).
  assert (0 <= c < 8) as Hb by (apply (so_slots _ Ho); congruence).
  pose proof (so_fds _ Ho) as Hf. intros Hcall. destruct Hcall as
    [c s|c s|c s r f Hopen Hsame|c s i|c s i|c s i r Hopen|c s i r Hopen|c s i r s' Hopen E Hi|c s fds s' pi E Ef
    |c s s' E|c s id s' E|c s code s' E|c s path argv fs r s' E|c s v|c s n|c s v|c s path|c s a ok s' E].
  - split; [by apply process_schedule_ok|]. split; [apply schedule_others|].
    intros j. by rewrite schedule_pipes.
  - destruct (process_fd_alloc c s) as [i s'] eqn:E. apply fd_op_step; [done|done|].
    by eapply (proj1 (process_fd_alloc_spec c s i s' E Hf Hb)).
  - destruct Hsame as (E1 & E2 & E3). apply fd_op_step; [done|done|]. change (upd c (set_fde r f) s) with (put (c, r) f s).
    split; [|apply fd_frame_put|done].
    assert ((c, r) ∈ locs) as Hl.
    { destruct Hopen as [i [Hg|Hg]]; revert Hg; unfold process_fd_get, process_stdio_get, MAX_FDS.
      - destruct (Z.ltb_spec i 0), (Z.leb_spec 32 i); cbn [orb]; try done. case_match; [done|]. intros [= <-]. by apply fd_loc.
      - destruct (Z.ltb_spec i 0), (Z.ltb_spec 2 i); cbn [orb]; try done. case_match; [done|]. intros [= <-]. apply std_loc; lia. }
    apply (fds_ok_change s _ (c, r) f); try done.
    + rewrite entry_put. by rewrite decide_True.
    + intros k Hk. rewrite entry_put. by rewrite decide_False.
    + intros pi w Hpi. unfold put. rewrite getpipe_upd. unfold holds. rewrite E1, E2, E3.
      change (fde_at s c r) with (entry s (c, r)). lia.
    + rewrite E1, E2. apply (fo_unused _ Hf (c, r)).
    + rewrite E2. apply (fo_pipe _ Hf (c, r)).
  - apply fd_op_step; [done|done|]. by apply process_fd_close_op.
  - apply fd_op_step; [done|done|]. by apply process_stdio_clear_op.
  - apply fd_op_step; [done|done|]. by apply process_fd_set_op.
  - apply fd_op_step; [done|done|]. by apply process_stdio_set_op.
  - apply fd_op_step; [done|done|]. by eapply fcntl_dup_op.
  - destruct (pipe_create_spec c s _ s' Hf Hb E) as (A & B & C). destruct fds as [rd wr].
    destruct C as (pi' & Ef' & Hpi & Hring & _). rewrite Ef in Ef'. injection Ef' as <-.
    assert (forall j, pipe_ok (getpipe s' j)) as Hrk.
    { intros j. specialize (Hring j). case_decide; [|by eapply ring_ok; [exact Hring|apply Ho]].
      unfold ring in Hring. injection Hring as E1 E2 E3. by split; rewrite ?E1, ?E2. }
    split; [by apply (sys_ok_frame c s)|]. split; [by apply others_frame|]. split.
    + specialize (Hring pi). rewrite decide_True in Hring by done. unfold ring in Hring.
      injection Hring as E1 E2 E3. unfold pending. by rewrite E1, E2.
    + intros j Hj. specialize (Hring j). rewrite decide_False in Hring by done. by apply ring_pending.
  - destruct (pipe_create_spec c s _ s' Hf Hb E) as (A & B & C). by apply fd_op_step.
  - by apply call_fork_step.
  - by eapply call_exit_step.
  - by eapply call_execve_step.
  - unfold process_set_current_brk. rewrite Hc. by apply upd_step.
  - by apply upd_step.
  - unfold process_note_mmap_end. rewrite Hc. case_match; [by apply upd_step|]. by split.
  - unfold process_set_current_cwd. rewrite Hc. by apply upd_step.
  - destruct (process_handle_stack_fault_ok a s ok s' Ho E) as [A B]. split; [done|]. split; [|by apply queues_rings].
    revert E. unfold process_handle_stack_fault. rewrite Hc. case_match; [by intros [= _ <-]|].
    destruct (pmm_alloc_page _) as [phys p]. case_match; [by intros [_ ->]%some_pair|].
    destruct (paging_map_page _ phys _ _) as [v|]; [|done]. intros [_ ->]%some_pair.
    case_match; [|done]. intros i Hi Hri. rewrite getp_upd, decide_False by done. done.
Qed.

(** The suspended process goes on: its own descriptors do not change either. *)
Lemma set_pipes_step pi p s : sys_ok s -> pipe_ok p ->
  readers p = readers (getpipe s pi) -> writers p = writers (getpipe s pi) -> sys_ok (set_pipes pi p s).
Proof.
  intros Ho Hp Er Ew. apply (sys_ok_quiet s); try done.
  - apply (fds_ok_same s); [done| |apply Ho]. intros j w. rewrite getpipe_set_pipes.
    case_decide; [subst; destruct w; done|done].
  - intros j. rewrite getpipe_set_pipes. case_decide; [done|]. apply Ho.
  - apply (so_idle _ Ho).
Qed.

Lemma resume_ok c k s s' k' e : sys_ok s -> current s = Some c -> resume RT c k s = (s', k', e) ->
  step_ok c e s s' /\ state (getp s' c) = PROC_RUNNABLE /\ fdtab (getp s' c) = fdtab (getp s c) /\
  (k' = KUser \/ match k, k' with
                 | KRead pi _ _, KRead pi' _ _ | KWrite pi _ _ _, KWrite pi' _ _ _ => pi' = pi
                 | KWait _ _, KWait _ _ => True
                 | _, _ => False
                 end).
Proof.
  intros Ho Hc. destruct (so_current _ Ho c Hc) as (Hr & _).
  assert (forall s1, sys_ok s1 -> state (getp s1 c) = PROC_RUNNABLE ->
    state (getp (process_schedule c s1) c) = PROC_RUNNABLE /\ fdtab (getp (process_schedule c s1) c) = fdtab (getp s1 c)) as Hsch.
  { intros s1 _ H1. by destruct (schedule_getp c s1 c) as [r ->]. }
  destruct k as [|pi want n|pi rest count n|want options]; cbn [resume].
  - intros [= <- <- <-]. split; [|by auto]. split; [done|]. split; [apply others_refl|done].
  - destruct (pipe_read_run_spec want [] (getpipe s pi) (so_rings _ Ho pi)) as (p & -> & Hp & Hpe & Er & Ew).
    cbn [app]. set (bs := firstn want _) in *.
    pose proof (set_pipes_step pi p s Ho Hp Er Ew) as Ho1.
    assert (queues (DidRead pi bs) s (set_pipes pi p s)) as Hq.
    { split; [|intros j Hj; rewrite getpipe_set_pipes; by rewrite decide_False].
      rewrite getpipe_set_pipes, decide_True, Hpe by done. symmetry. apply firstn_skipn. }
    case_match; intros [= <- <- <-].
    + split; [|split; [|split]]; [|exact (proj1 (Hsch _ Ho1 Hr))|exact (proj2 (Hsch _ Ho1 Hr))|by right].
      split; [by apply process_schedule_ok|]. split; [exact (schedule_others c (set_pipes pi p s))|].
      destruct Hq as [Q1 Q2]. split; [by rewrite schedule_pipes|]. intros j Hj. rewrite schedule_pipes. by apply Q2.
    + split; [|by auto]. split; [by apply sys_ok_live|]. done.
  - destruct (pipe_write_run_spec rest n (getpipe s pi) (so_rings _ Ho pi)) as (p & -> & Hp & Hpe & Er & Ew).
    cbv zeta in *. set (room := if readers _ =? 0 then O else _) in *.
    pose proof (set_pipes_step pi p s Ho Hp Er Ew) as Ho1.
    set (bs := firstn (Z.to_nat (n + Z.of_nat (length (firstn room rest)) - n)) rest).
    assert (bs = firstn room rest) as Ebs.
    { unfold bs. rewrite Z.add_simpl_l, Nat2Z.id. rewrite length_firstn.
      destruct (Nat.le_ge_cases room (length rest)); [by rewrite Nat.min_l|].
      rewrite Nat.min_r by done. rewrite firstn_all. by rewrite firstn_all2. }
    assert (queues (DidWrite pi bs) s (set_pipes pi p s)) as Hq.
    { split; [|intros j Hj; rewrite getpipe_set_pipes; by rewrite decide_False].
      rewrite getpipe_set_pipes, decide_True, Hpe, Ebs by done. done. }
    destruct (_ && _); intros [= <- <- <-].
    + split; [|split; [|split]]; [|exact (proj1 (Hsch _ Ho1 Hr))|exact (proj2 (Hsch _ Ho1 Hr))|by right].
      split; [by apply process_schedule_ok|]. split; [exact (schedule_others c (set_pipes pi p s))|].
      destruct Hq as [Q1 Q2]. split; [by rewrite schedule_pipes|]. intros j Hj. rewrite schedule_pipes. by apply Q2.
    + split; [|by auto]. split; [by apply sys_ok_live|]. done.
  - destruct (process_wait4_run RT c want options s) as [o s1] eqn:E.
    destruct (process_wait4_ok RT c want options s o s1 Ho Hc E) as (A & B & C).
    assert (others_kept c s s1 /\ getp s1 c = getp s c) as [D F].
    { revert E. unfold process_wait4_run. destruct (wait_scan _ 0 _ want false s) as [h [z|]] eqn:Es.
      - apply wait_scan_spec in Es as (_ & Hz & _). destruct h; intros [= <- <-]; split.
        1,3: intros i Hi Hri; rewrite getp_upd; case_decide; [subst i; congruence|done].
        all: rewrite getp_upd; case_decide; [subst z; congruence|done].
      - destruct h; [case_match|]; intros [= <- <-]; done. }
    destruct o as [ret st|]; intros [= <- <- <-].
    + change (getp (sys_ret ret s1) c) with (getp s1 c). rewrite F. split; [|by auto].
      split; [by apply sys_ok_live|]. split; [done|by apply queues_rings].
    + assert (state (getp s1 c) = PROC_RUNNABLE) as Hr1 by by rewrite F.
      split; [|split; [exact (proj1 (Hsch _ A Hr1))|split; [rewrite <- F; exact (proj2 (Hsch _ A Hr1))|by right]]].
      split; [by apply process_schedule_ok|]. split.
      * intros i Hi Hri. destruct (D i Hi Hri) as [D1 D2]. destruct (schedule_getp c s1 i) as [r ->]. done.
      * intros j. rewrite schedule_pipes. by apply queues_rings.
Qed.

(** ** The machine *)

(** A suspended call is of a runnable process that still has the pipe open. *)
Definition kont_ok (s : ksys) (i : Z) (k : kont) : Prop :=
  match k with
  | KUser => True
  | KRead pi _ _ => state (getp s i) = PROC_RUNNABLE /\
      exists r, let f := entry s (i, r) in fd_used f = true /\ fd_pipe f = Some pi /\ fd_pipe_write f = false
  | KWrite pi _ _ _ => state (getp s i) = PROC_RUNNABLE /\
      exists r, let f := entry s (i, r) in fd_used f = true /\ fd_pipe f = Some pi /\ fd_pipe_write f = true
  | KWait _ _ => state (getp s i) = PROC_RUNNABLE
  end.
Definition machine_ok (m : msys) : Prop := sys_ok (ks m) /\ forall i, kont_ok (ks m) i (kont_of m i).

Lemma kont_of_set m c k i : kont_of (set_kont c k m) i = if decide (i = c) then k else kont_of m i.
Proof.
  unfold kont_of, set_kont. cbn. case_decide; [subst; by rewrite lookup_insert_eq|by rewrite lookup_insert_ne].
Qed.
Lemma kont_ok_kept s s' i k : kont_ok s i k -> (state (getp s i) = PROC_RUNNABLE ->
  state (getp s' i) = PROC_RUNNABLE /\ fdtab (getp s' i) = fdtab (getp s i)) -> kont_ok s' i k.
Proof.
  assert (fdtab (getp s' i) = fdtab (getp s i) -> forall r, entry s' (i, r) = entry s (i, r)) as He.
  { intros E r. by apply entry_same_fds. }
  destruct k as [|pi want n|pi rest count n|want options]; cbn; [done| | |tauto].
  all: intros [Hr (r & Hx)] Hk; destruct (Hk Hr) as [A B]; split; [done|]; exists r; by rewrite He.
Qed.

Lemma open_fd_used c r s : open_fd c r s -> fd_used (entry s (c, r)) = true.
Proof.
  intros [i [Hg|Hg]]; revert Hg; unfold process_fd_get, process_stdio_get.
  all: destruct (_ || _) eqn:E; [done|]; intros [= <-]; apply orb_false_iff in E as [_ E].
  all: by apply negb_false_iff in E.
Qed.

Lemma kstep_ok m e m' : machine_ok m -> kstep RT m e m' -> machine_ok m' /\ queues e (ks m) (ks m').
Proof.
  intros [Ho Hk] Hs. destruct Hs as [m c r v Hc Hu Hl Ha|m c e s Hc Hu Hcall|m c k Hc Hu Hb|m c s k e Hc Hres].
  - split; [|done]. split.
    + by apply (sys_ok_outside (ks m)).
    + intros i. apply (kont_ok_kept (ks m)); [apply Hk|done].
  - destruct (call_ok c (ks m) e s Ho Hc Hcall) as (A & B & C). split; [|done]. split; [done|].
    intros i. change (kont_of (set_ks s m) i) with (kont_of m i).
    destruct (Z.eq_dec i c) as [->|Hi]; [by rewrite Hu|]. apply (kont_ok_kept (ks m)); [apply Hk|by apply B].
  - split; [|done]. split; [done|]. intros i. rewrite kont_of_set. case_decide; [subst i|apply Hk].
    destruct (so_current _ Ho c Hc) as (Hr & _).
    destruct Hb as [r pi count Hop Hp Hw|r pi bs Hop Hp Hw|want options]; [| |done].
    all: split; [done|]; exists r; split; [by apply open_fd_used|done].
  - destruct (resume_ok c _ (ks m) s k e Ho Hc Hres) as ((A & B & C) & D & E & F). split; [|done]. split; [done|].
    intros i. rewrite kont_of_set. case_decide as Ei.
    + subst i. destruct F as [->|F]; [done|]. specialize (Hk c).
      assert (kont_ok s c (kont_of m c)) as Hk' by (eapply kont_ok_kept; done).
      destruct (kont_of m c), k; try done; subst; done.
    + apply (kont_ok_kept (ks m)); [apply Hk|by apply B].
Qed.

(** ** Boot *)

Lemma fde_clear_fds n i p r : (forall q, fd_used (fde p q) = false) -> fde (clear_fds n i p) r = fde p r.
Proof.
  revert i p. induction n as [|n IH]; intros i p Hp; [done|]. cbn [clear_fds].
  assert (forall q, fde (set_fde (Fd i) (set_used false (fde p (Fd i))) p) q = fde p q) as He.
  { intros q. rewrite fde_set_fde. case_decide; [subst q|done].
    rewrite <- (Hp (Fd i)). apply set_used_id. }
  rewrite IH by (intros q; by rewrite He). apply He.
Qed.
Lemma clear_fds_same n i p : with_fds ∅ (clear_fds n i p) = with_fds ∅ p.
Proof. revert i p. induction n as [|n IH]; intros i p; [done|]. cbn [clear_fds]. by rewrite IH. Qed.

Lemma fde_set_state a p r : fde (set_state a p) r = fde p r.
Proof. done. Qed.
Lemma getp_chain f1 f2 f3 f4 f5 n v s j k :
  getp (set_kvm v (upd j f5 (upd j f4 (set_next_pid n (upd j f3 (upd j f2 (upd j f1 s))))))) k =
  if decide (j = k) then f5 (f4 (f3 (f2 (f1 (getp s j))))) else getp s k.
Proof.
  change (getp (set_kvm ?l ?x) k) with (getp x k). rewrite !getp_upd.
  change (getp (set_next_pid ?l ?x)) with (getp x). rewrite !getp_upd.
  repeat case_decide; congruence || done.
Qed.

Lemma process_create_ok sstatus d n argv s i s' : sys_ok s ->
  process_create_from_elf_argv RT sstatus d n argv s = Some (Some i, s') ->
  sys_ok s' /\ state (getp s' i) = PROC_RUNNABLE.
Proof.
  intros Ho. unfold process_create_from_elf_argv. destruct (alloc_slot s) as [j|] eqn:E1; [|done].
  apply alloc_slot_spec in E1 as [Hb Hun].
  destruct (paging_new_addrspace RT (kvm s)) as [[root v1]|] eqn:E2; [|done].
  destruct (elf_load d n _) as [[entry_ v2]|] eqn:E3; [|done]. case_match; [done|].
  destruct (build_user_stack argv v2) as [[sp v3]|] eqn:E4; [|done].
  destruct (bump_pid _) as [[id s2]|] eqn:E5; [|done].
  apply bump_pid_spec in E5 as (-> & -> & Hlt); [|apply (so_bound _ Ho)]. cbn [next_pid upd set_procs] in *.
  intros [Ei ->]%some_pair. injection Ei as ->. set (s5 := set_kvm _ _).
  assert (forall k, k <> j -> getp s5 k = getp s k) as Hother.
  { intros k Hk. unfold s5. rewrite getp_chain. by rewrite decide_False. }
  assert (exists q, fdtab q = fdtab (getp s j) /\
    getp s5 j = set_state PROC_RUNNABLE (clear_fds (Z.to_nat MAX_FDS) 0 (set_exit_code 0 (set_ids (next_pid s) 0 q)))) as (q & Hq & Hj).
  { unfold s5. rewrite getp_chain, decide_True by done. cbv beta.
    refine (ex_intro _ (set_root root (process_arch_init_context sstatus entry_ sp (init_space argv
      (set_cwd (lit "/") (getp s j))))) (conj _ _)); reflexivity. }
  assert (pipes s5 = pipes s /\ next_pid s5 = next_pid s + 1 /\ current s5 = current s /\ kstack s5 = kstack s /\
    active_root (kvm s5) = active_root (kvm s)) as (G1 & G2 & G3 & G4 & G5) by done.
  clearbody s5.
  assert (forall r, fd_used (fde q r) = false) as Hqu.
  { intros r. unfold fde. rewrite Hq. apply (so_idle _ Ho j r). by rewrite Hun. }
  assert (with_fds ∅ (getp s5 j) = with_fds ∅ (set_state PROC_RUNNABLE (set_exit_code 0 (set_ids (next_pid s) 0 q)))) as Hf.
  { rewrite Hj. change (with_fds ∅ (set_state ?a ?b)) with (set_state a (with_fds ∅ b)). by rewrite clear_fds_same. }
  assert (state (getp s5 j) = PROC_RUNNABLE /\ pid (getp s5 j) = next_pid s /\ ppid (getp s5 j) = 0) as (F1 & F2 & F3).
  { unfold with_fds in Hf. injection Hf as A B C _. done. }
  split; [|done].
  assert (forall k, entry s5 k = entry s k) as He.
  { intros [k r]. destruct (Z.eq_dec k j) as [->|Hk]; [|by apply entry_same_fds; rewrite Hother].
    unfold entry, fde_at. cbn [fst snd]. rewrite Hj, (fde_set_state PROC_RUNNABLE).
    rewrite fde_clear_fds by done. change (fde q r = fde (getp s j) r). unfold fde. by rewrite Hq. }
  pose proof (so_bound _ Ho). apply (spawn_ok s s5 j); try done.
  - apply (fds_ok_same s); [done| |apply Ho]. intros pi w. unfold getpipe. by rewrite G1.
  - intros pi. unfold getpipe. rewrite G1. apply Ho.
  - rewrite F3. lia.
Qed.

(** The statics before [process_init] runs, with the paging state the boot code made. *)
Definition kernel_bss (v : vm) : ksys := Ksys ∅ None 1 false ∅ (repeat 0 regs_words) None v.

Lemma unuse_getp n i s j : getp (unuse n i s) j = getp s j \/ getp (unuse n i s) j = set_state PROC_UNUSED (getp s j).
Proof.
  revert i s. induction n as [|n IH]; intros i s; [by left|]. cbn [unuse].
  destruct (IH (i + 1) (upd i (set_state PROC_UNUSED) s)) as [-> | ->]; rewrite getp_upd; case_decide; subst; auto.
Qed.
Lemma unuse_rest n i s : set_procs ∅ (unuse n i s) = set_procs ∅ s.
Proof. revert i s. induction n as [|n IH]; intros i s; [done|]. cbn [unuse]. by rewrite IH. Qed.
Lemma boot_ok v : sys_ok (process_init (kernel_bss v)).
Proof.
  assert (forall j, getp (process_init (kernel_bss v)) j = no_process) as Hg.
  { intros j. unfold process_init. change (getp (set_current ?a ?b) j) with (getp b j).
    destruct (unuse_getp (Z.to_nat MAX_PROCESSES) 0 (kernel_bss v) j) as [-> | ->]; done. }
  pose proof (unuse_rest (Z.to_nat MAX_PROCESSES) 0 (kernel_bss v)) as Hr.
  unfold process_init in *. generalize dependent (unuse (Z.to_nat MAX_PROCESSES) 0 (kernel_bss v)).
  intros s Hg Hr. unfold set_procs, kernel_bss in Hr. injection Hr as R1 R2 R3 R4 R5 R6 R7.
  assert (forall k, entry (set_current None s) k = no_fd) as He.
  { intros [j r]. unfold entry, fde_at. cbn [fst snd]. rewrite Hg. done. }
  assert (forall j, getpipe (set_current None s) j = no_pipe) as Hp.
  { intros j. unfold getpipe. cbn. rewrite R4. done. }
  split; try setoid_rewrite Hg; try done.
  - split; intros *; rewrite ?He; try done. intros _. rewrite Hp. unfold open_ends.
    rewrite (zsum_ext _ (fun _ => 0)) by (intros l _; by rewrite He). by destruct w.
  - intros pi. by rewrite Hp.
  - intros i r _. by rewrite He.
  - cbn. rewrite R2. lia.
Qed.

(** Everything the kernel can get to: the boot code makes the first process and runs it. *)
Definition boots (v : vm) (sstatus d n : Z) (argv : list (list Z)) (i : Z) (s : ksys) : Prop :=
  process_create_from_elf_argv RT sstatus d n argv (process_init (kernel_bss v)) = Some (Some i, s).
Definition reach (m : msys) : Prop :=
  exists v sstatus d n argv i s t, boots v sstatus d n argv i s /\ ksteps RT (Msys (process_run i s) ∅) t m.

Lemma ksteps_ok m t m' : machine_ok m -> ksteps RT m t m' -> machine_ok m'.
Proof. intros Ho Hs. induction Hs as [|m e m' t m'' Hs _ IH]; [done|]. by apply IH, (kstep_ok m e m'). Qed.

Lemma reach_machine_ok m : reach m -> machine_ok m.
Proof.
  intros (v & sstatus & d & n & argv & i & s & t & E & Hs).
  apply (ksteps_ok _ _ _) with (2 := Hs). unfold boots in E.
  pose proof (boot_ok v) as Hb. generalize dependent (process_init (kernel_bss v)). intros s0 E Hb.
  destruct (process_create_ok sstatus d n argv s0 i s Hb E) as [Ho Hi].
  split; [|done]. apply (restore_ok i) in Ho; [|done]. cbn [ks].
  destruct Ho as [A1 A2 A3 A4 A5 A6 A7 A8]. split; try done.
  by apply (fds_ok_tables (process_arch_activate_and_restore i (set_current (Some i) s))).
Qed.
End root.
