(* ===== verification/ProcessThm.v ===== *)
(** What holds of the process layer ([src/kernel/sched/process.c]) in every reachable state: the table
    and the pipe counts, what pipes deliver, who gets the processor, the life of a process. *)
From S2P Require Import Prelude Pmm Paging Ramfs Elf Process ProcessExec ProcessSys ProcessPipe ProcessFds ProcessInv ProcessSafe.

#[local] Opaque ENTRIES zero_table.

Section root.
Context (RT : Z).


(** ** Pipes *)

(** The bytes the events of a run read from, and wrote to, a pipe. *)
Fixpoint bytes_read (pi : Z) (t : list event) : list Z :=
  match t with
  | [] => []
  | DidRead j bs :: t => (if j =? pi then bs else []) ++ bytes_read pi t
  | _ :: t => bytes_read pi t
  end.
Fixpoint bytes_written (pi : Z) (t : list event) : list Z :=
  match t with
  | [] => []
  | DidWrite j bs :: t => (if j =? pi then bs else []) ++ bytes_written pi t
  | _ :: t => bytes_written pi t
  end.

(** C5: a pipe is a queue: over any run of the processes, however their reads and writes block and
    interleave, and with the counters wrapping around, the bytes read from a pipe are the bytes that
    were in it and then the bytes written to it, in order and without loss, as long as it is not
    created anew. *)
Theorem pipe_fifo m t m' pi : machine_ok m -> ksteps RT m t m' -> DidCreate pi ∉ t ->
  pending (getpipe (ks m) pi) ++ bytes_written pi t = bytes_read pi t ++ pending (getpipe (ks m') pi).
Proof.
  intros Ho Hs. induction Hs as [m|m e m' t m'' Hs _ IH]; intros Hn; [by rewrite app_nil_r|].
  destruct (kstep_ok RT m e m' Ho Hs) as [Ho' Hq]. apply not_elem_of_cons in Hn as [He Hn].
  specialize (IH Ho' Hn). destruct e as [|j bs|j bs|j]; cbn [bytes_read bytes_written queues] in *.
  - by rewrite <- Hq.
  - destruct Hq as [Q1 Q2]. destruct (Z.eqb_spec j pi) as [->|Hj]; cbn [app].
    + rewrite Q1, <- !app_assoc, IH. done.
    + rewrite <- Q2 by congruence. done.
  - destruct Hq as [Q1 Q2]. destruct (Z.eqb_spec j pi) as [->|Hj]; cbn [app].
    + rewrite app_assoc, <- Q1. done.
    + rewrite <- Q2 by congruence. done.
  - destruct Hq as [_ Q2]. rewrite <- Q2 by congruence. done.
Qed.

(** ** Scheduling *)

(** How far the scan from [a] is from slot [b]. *)
Definition gap (a b : Z) : Z := (b - a - 1) mod 8.

Lemma next_loop_gap n i s j : 0 <= i < 8 -> 0 <= j < 8 -> state (getp s j) = PROC_RUNNABLE ->
  gap i j < Z.of_nat n -> exists x, next_loop n i s = Some x /\ 0 <= x < 8 /\ gap i x <= gap i j /\
    (x <> j -> gap x j < gap i j).
Proof.
  intros Hi Hj Hr. revert i Hi. induction n as [|n IH]; intros i Hi Hg; [unfold gap in *; zlia|].
  cbn [next_loop]. unfold MAX_PROCESSES. set (k := (i + 1) mod 8).
  assert (0 <= k < 8) as Hk by (unfold k; zlia).
  case_decide as E.
  - exists k. split; [done|]. split; [done|]. unfold gap, k in *. split; zlia.
  - assert (k <> j) as Hkj by congruence.
    assert (gap k j = gap i j - 1) as Hkg by (unfold gap, k in *; zlia).
    destruct (IH k Hk) as (x & Ex & Hx & Hle & Hlt); [lia|]. exists x. split; [done|]. split; [done|].
    split.
    + unfold gap, k in *. zlia.
    + intros Hxj. specialize (Hlt Hxj). lia.
Qed.

(** Who runs after a call of [process_schedule]. *)
Lemma schedule_next c s j : current s = Some c -> 0 <= c < 8 -> 0 <= j < 8 -> state (getp s j) = PROC_RUNNABLE -> c <> j ->
  exists x, current (process_schedule c s) = Some x /\ 0 <= x < 8 /\ (x <> j -> gap x j < gap c j).
Proof.
  intros Hc Hcb Hj Hr Hne. unfold process_schedule, next_runnable.
  destruct (next_loop_gap (Z.to_nat MAX_PROCESSES) c s j Hcb Hj Hr) as (x & -> & Hx & _ & Hlt).
  { unfold gap, MAX_PROCESSES. zlia. }
  exists x. destruct (Z.eqb_spec x c) as [->|]; [|done]. exfalso.
  assert (gap c j < gap c j) by (by apply Hlt). lia.
Qed.


(** ** The life of a process *)

(** What one step of the current process [c] may do to slot [i]. *)
Definition life (c : Z) (s s' : ksys) (i : Z) : Prop :=
  let p := getp s i in let q := getp s' i in
  ids q = ids p \/
  (i = c /\ state p = PROC_RUNNABLE /\ ids q = (pid p, ppid p, PROC_ZOMBIE)) \/
  (state p = PROC_UNUSED /\ ids q = (next_pid s, pid (getp s c), PROC_RUNNABLE)) \/
  (state p = PROC_ZOMBIE /\ ppid p = pid (getp s c) /\ ids q = (pid p, ppid p, PROC_UNUSED)).
Lemma life_same c s s' : (forall i, ids (getp s' i) = ids (getp s i)) -> forall i, life c s s' i.
Proof. intros H i. left. apply H. Qed.
Lemma life_quiet c s s' : quiet s s' -> forall i, life c s s' i.
Proof. intros Q. apply life_same, Q. Qed.
Lemma life_op c s s' : fd_op c s s' -> forall i, life c s s' i.
Proof. intros [_ F _]. by eapply life_quiet, fd_frame_quiet. Qed.
Lemma life_upd c f s : harmless f -> forall i, life c s (upd c f s) i.
Proof. intros Hf. apply life_same. intros i. rewrite getp_upd. case_decide; [subst; by apply Hf|done]. Qed.
Lemma schedule_ids c s i : ids (getp (process_schedule c s) i) = ids (getp s i).
Proof. by destruct (schedule_getp c s i) as [r ->]. Qed.

Lemma exit_life c code s s' : sys_ok s -> current s = Some c -> process_exit_current c code s = Some s' ->
  next_pid s' = next_pid s /\ forall i, life c s s' i.
Proof.
  intros Ho Hc. destruct (so_current _ Ho c Hc) as (Hr & _).
  assert (0 <= c < 8) as Hb by (apply (so_slots _ Ho); congruence).
  unfold process_exit_current. fold (release_all c s).
  destruct (release_all_spec c s (so_fds _ Ho) Hb) as [[_ F _] _].
  generalize dependent (release_all c s). intros s1 F.
  destruct (find_state _ _ 0 _) as [j|]; [|done]. intros [= <-]. split; [apply F|].
  intros i. destruct (Z.eq_dec i c) as [->|Hi].
  - right; left. split; [done|]. split; [done|].
    change (getp (process_arch_activate_and_restore ?n (set_current ?o ?x)) ?i) with (getp x i).
    rewrite getp_upd, decide_True by done. destruct (ff_same _ _ _ F) as [t ->]. done.
  - left. change (getp (process_arch_activate_and_restore ?n (set_current ?o ?x)) ?i) with (getp x i).
    rewrite getp_upd, decide_False by done. by rewrite (ff_other _ _ _ F).
Qed.
Lemma execve_ids c path argv fs s r s' : process_execve RT c path argv fs s = Some (r, s') ->
  next_pid s' = next_pid s /\ forall i, ids (getp s' i) = ids (getp s i).
Proof.
  unfold process_execve. destruct (exec_file path fs) as [[[d n]|]|]; [|by intros [= _ <-]|done].
  destruct (snapshot_argv _ argv) as [argv'|]; [|by intros [= _ <-]].
  destruct (paging_new_addrspace RT (kvm s)) as [[root v1]|]; [|done].
  destruct (elf_load d n _) as [[entry_ v2]|]; [|done].
  case_match; [by intros [_ ->]%some_pair|].
  destruct (build_user_stack argv' v2) as [[sp v3]|]; [|done]. intros [_ ->]%some_pair. split; [done|].
  intros i. change (getp (set_live ?l ?x) i) with (getp x i). rewrite getp_upd.
  change (getp (set_kvm ?l ?x)) with (getp x). rewrite !getp_upd. repeat case_decide; by subst.
Qed.
Lemma stack_fault_ids a s ok s' : process_handle_stack_fault a s = Some (ok, s') ->
  next_pid s' = next_pid s /\ forall i, ids (getp s' i) = ids (getp s i).
Proof.
  unfold process_handle_stack_fault. destruct (current s) as [c|]; [|by intros [= _ <-]].
  case_match; [by intros [= _ <-]|].
  destruct (pmm_alloc_page _) as [phys p]. case_match; [by intros [_ ->]%some_pair|].
  destruct (paging_map_page _ phys _ _) as [v|]; [|done]. intros [_ ->]%some_pair.
  case_match; [|done]. split; [done|]. intros i. rewrite getp_upd. by case_decide; subst.
Qed.

Lemma call_life c s e s' : sys_ok s -> current s = Some c -> call RT c s e s' ->
  next_pid s <= next_pid s' /\ forall i, life c s s' i.
Proof.
  intros Ho Hc. destruct (so_current _ Ho c Hc) as (Hr & _).
  assert (0 <= c < 8) as Hb by (apply (so_slots _ Ho); congruence).
  pose proof (so_fds _ Ho) as Hf.
  assert (forall x, fd_op c s x -> next_pid s <= next_pid x /\ forall i, life c s x i) as Hop.
  { intros x Hx. split; [|by apply life_op]. destruct Hx as [_ F _]. rewrite (ff_next _ _ _ F). lia. }
  assert (forall x, fd_frame c s x -> next_pid s <= next_pid x /\ forall i, life c s x i) as Hfr.
  { intros x Hx. split; [rewrite (ff_next _ _ _ Hx); lia|]. by eapply life_quiet, fd_frame_quiet. }
  assert (forall f, harmless f -> next_pid s <= next_pid (upd c f s) /\ forall i, life c s (upd c f s) i) as Hup.
  { intros f Hh. split; [cbn; lia|by apply life_upd]. }
  assert (forall x, next_pid x = next_pid s /\ (forall i, ids (getp x i) = ids (getp s i)) ->
    next_pid s <= next_pid x /\ forall i, life c s x i) as Hid.
  { intros x [-> Hx]. split; [lia|by apply life_same]. }
  intros Hcall. destruct Hcall as
    [c s|c s|c s r f Hopen Hsame|c s i|c s i|c s i r Hopen|c s i r Hopen|c s i r s' Hopen E Hi|c s fds s' pi E Ef
    |c s s' E|c s id s' E|c s code s' E|c s path argv fs r s' E|c s v|c s n|c s v|c s path|c s a ok s' E].
  - apply Hid. split; [|apply schedule_ids]. unfold process_schedule. destruct (next_runnable c s); [|done]. by case_match.
  - destruct (process_fd_alloc c s) as [i s'] eqn:E. apply Hop. by eapply (proj1 (process_fd_alloc_spec c s i s' E Hf Hb)).
  - apply Hfr, (fd_frame_put c).
  - by apply Hop, process_fd_close_op.
  - by apply Hop, process_stdio_clear_op.
  - by apply Hop, process_fd_set_op.
  - by apply Hop, process_stdio_set_op.
  - apply Hop. by eapply fcntl_dup_op.
  - apply Hfr. by apply (pipe_create_spec c s _ s' Hf Hb E).
  - apply Hfr. by apply (pipe_create_spec c s _ s' Hf Hb E).
  - destruct (process_fork_spec RT c s id s' Ho Hb Hr E) as [(_ & -> & _)|(_ & child & root & v & F)].
    { by apply Hid. }
    split; [cbn; rewrite (fk_next _ _ _ _ _ _ _ F); lia|]. intros i. change (life c s s' i).
    destruct (Z.eq_dec i child) as [->|Hi]; [|left; by rewrite (fk_other _ _ _ _ _ _ _ F)].
    right; right; left. destruct (alloc_slot_spec _ _ (fk_slot _ _ _ _ _ _ _ F)) as [_ Hun].
    split; [done|]. by destruct (fk_child _ _ _ _ _ _ _ F) as [t ->].
  - destruct (exit_life c code s s' Ho Hc E) as [-> Hl]. split; [lia|done].
  - apply Hid. by eapply execve_ids.
  - unfold process_set_current_brk. rewrite Hc. by apply Hup.
  - by apply Hup.
  - unfold process_note_mmap_end. rewrite Hc. case_match; [by apply Hup|by apply Hid].
  - unfold process_set_current_cwd. rewrite Hc. by apply Hup.
  - apply Hid. by eapply stack_fault_ids.
Qed.

Lemma wait4_life c want options s o s' : sys_ok s -> process_wait4_run RT c want options s = (o, s') ->
  next_pid s' = next_pid s /\ forall i, life c s s' i.
Proof.
  intros Ho. unfold process_wait4_run. destruct (wait_scan _ 0 _ want false s) as [h [z|]] eqn:E.
  - apply wait_scan_spec in E as (_ & Hz & Hp & _). intros H. assert (s' = upd z (fun p => set_state PROC_UNUSED (set_root 0 p))
       (set_kvm (paging_destroy_addrspace RT (root_table (getp s z)) (kvm s)) s)) as -> by (destruct h; congruence).
    split; [done|]. intros i. destruct (Z.eq_dec i z) as [->|Hi].
    + right; right; right. split; [done|]. split; [done|]. rewrite getp_upd, decide_True by done. done.
    + left. rewrite getp_upd, decide_False by done. done.
  - intros H. assert (s' = s) as -> by (destruct h; [case_match|]; congruence). split; [done|by apply life_same].
Qed.

Lemma kstep_life m e m' : machine_ok m -> kstep RT m e m' -> exists c, current (ks m) = Some c /\
  next_pid (ks m) <= next_pid (ks m') /\ forall i, life c (ks m) (ks m') i.
Proof.
  intros [Ho Hk] Hs. destruct Hs as [m c r v Hc Hu Hl Ha|m c e s Hc Hu Hcall|m c k Hc Hu Hb|m c s k e Hc Hres]; exists c; (split; [done|]).
  - split; [cbn; lia|by apply life_same].
  - by eapply call_life.
  - split; [cbn; lia|by apply life_same].
  - assert (forall x y, next_pid x = next_pid (ks m) /\ (forall i, life c (ks m) x i) -> next_pid y = next_pid x ->
      (forall i, ids (getp y i) = ids (getp x i)) -> next_pid (ks m) <= next_pid y /\ forall i, life c (ks m) y i) as Hgen.
    { intros x y [Hx Hl] Hy Hi. split; [lia|]. intros i. specialize (Hl i). unfold life in *. by rewrite Hi. }
    assert (forall x, next_pid (process_schedule c x) = next_pid x) as Hsn.
    { intros x. unfold process_schedule. destruct (next_runnable c x); [|done]. by case_match. }
    assert (next_pid (ks m) = next_pid (ks m) /\ forall i, life c (ks m) (ks m) i) as Hrefl by (split; [done|by apply life_same]).
    change (ks (set_kont c k (set_ks s m))) with s. revert Hres.
    destruct (kont_of m c) as [|pi want n|pi rest count n|want options]; cbn [resume].
    + intros [= <- _ _]. by apply (Hgen (ks m)).
    + destruct (pipe_read_run _ _ _) as [[[b w] bs] p]. destruct b; intros [= <- _ _]; apply (Hgen (ks m)); try done.
      * by rewrite Hsn. * intros i. by rewrite schedule_ids.
    + destruct (pipe_write_run _ _ _) as [[[b w] bs] p]. destruct b; intros [= <- _ _]; apply (Hgen (ks m)); try done.
      * by rewrite Hsn. * intros i. by rewrite schedule_ids.
    + destruct (process_wait4_run RT c want options (ks m)) as [o s1] eqn:E.
      pose proof (wait4_life c want options (ks m) o s1 Ho E) as Hw.
      destruct o; intros [= <- _ _]; apply (Hgen s1); try done. intros i. apply schedule_ids.
Qed.

(** a zombie whose parent is gone is never reaped: once no process that can run has the zombie's
    [ppid], the zombie keeps its slot, whatever the processes do from then on. *)
Theorem orphan_never_reaped m t m' z : machine_ok m -> ksteps RT m t m' ->
  state (getp (ks m) z) = PROC_ZOMBIE ->
  (forall i, state (getp (ks m) i) = PROC_RUNNABLE -> pid (getp (ks m) i) <> ppid (getp (ks m) z)) ->
  ids (getp (ks m') z) = ids (getp (ks m) z).
Proof.
  intros Ho Hs. induction Hs as [m|m e m' t m'' Hs _ IH]; intros Hz Hnp; [done|].
  destruct (kstep_ok RT m e m' Ho Hs) as [Ho' _]. destruct (kstep_life m e m' Ho Hs) as (c & Hc & Hn & Hl).
  destruct Ho as [Ho _]. destruct (so_current _ Ho c Hc) as (Hr & _).
  assert (ids (getp (ks m') z) = ids (getp (ks m) z)) as E.
  { destruct (Hl z) as [E|[(-> & E & _)|[(E & _)|(_ & E & _)]]]; [done|congruence|congruence|].
    exfalso. by apply (Hnp c). }
  rewrite <- E. unfold ids in E. injection E as E1 E2 E3. apply IH; [done|congruence|].
  intros i Hi. rewrite E2. destruct (Hl i) as [Ei|[(-> & _ & Ei)|[(_ & Ei)|(_ & _ & Ei)]]]; unfold ids in Ei; injection Ei as F1 F2 F3.
  - rewrite F1. apply Hnp. congruence.
  - congruence.
  - rewrite F1. destruct (so_next _ Ho z); [congruence|]. lia.
  - congruence.
Qed.

(** [process_wait4] on every branch of a scan: it reaps exactly the matching zombie child in the
    lowest slot, with its pid and exit status, and changes no other process; without one it fails with
    -ECHILD exactly when no matching child runs, and otherwise returns 0 under WNOHANG or yields. *)
Theorem process_wait4_correct c want options s :
  let me := pid (getp s c) in
  let matches k := 0 <= k < 8 /\ ppid (getp s k) = me /\ (want = -1 \/ pid (getp s k) = want) in
  match process_wait4_run RT c want options s with
  | (Waited ret (Some st), s') => exists z, matches z /\ state (getp s z) = PROC_ZOMBIE /\
      (forall k, k < z -> matches k -> state (getp s k) <> PROC_ZOMBIE) /\
      ret = pid (getp s z) /\ st = Z.shiftl (Z.land (exit_code (getp s z)) 0xff) 8 /\
      state (getp s' z) = PROC_UNUSED /\ root_table (getp s' z) = 0 /\
      kvm s' = paging_destroy_addrspace RT (root_table (getp s z)) (kvm s) /\
      (forall k, k <> z -> getp s' k = getp s k) /\ pipes s' = pipes s /\ current s' = current s
  | (o, s') => s' = s /\ (forall k, matches k -> state (getp s k) <> PROC_ZOMBIE) /\
      (o = Waited (- ECHILD) None <-> forall k, matches k -> state (getp s k) <> PROC_RUNNABLE) /\
      ((exists k, matches k /\ state (getp s k) = PROC_RUNNABLE) ->
         o = if tst options WNOHANG then Waited 0 None else WaitYield)
  end.
Proof.
  cbv zeta. unfold process_wait4_run. destruct (wait_scan (Z.to_nat MAX_PROCESSES) 0 _ want false s) as [h [z|]] eqn:E.
  - apply wait_scan_spec in E as (Hb & Hz & Hp & Hw & Hmin). change (0 + Z.of_nat (Z.to_nat MAX_PROCESSES)) with 8 in Hb.
    destruct h; (exists z; rewrite getp_upd, decide_True by done; split; [done|]; split; [done|]; split;
      [intros k Hk (Hkb & Hkp & Hkw) Hkz; apply (Hmin k); done || lia|];
      do 5 (split; [done|]); split; [intros k Hk; by rewrite getp_upd, decide_False|done]).
  - apply wait_scan_spec in E as [Hnz Hh]. change (0 + Z.of_nat (Z.to_nat MAX_PROCESSES)) with 8 in *.
    assert (forall k, 0 <= k < 8 /\ ppid (getp s k) = pid (getp s c) /\ (want = -1 \/ pid (getp s k) = want) ->
      state (getp s k) <> PROC_ZOMBIE) as Hz by (intros k (A & B & C) D; by apply (Hnz k)).
    destruct h.
    + assert (exists k, 0 <= k < 8 /\ state (getp s k) = PROC_RUNNABLE /\ ppid (getp s k) = pid (getp s c) /\
        (want = -1 \/ pid (getp s k) = want)) as (k & Hk & Hkr & Hkp & Hkw) by (destruct Hh as [[?|?] _]; done).
      destruct (tst options WNOHANG); (split; [done|]; split; [done|]; split; [|done]);
        (split; [done|]; intros Hno; by destruct (Hno k)).
    + split; [done|]. split; [done|]. split.
      * split; [|done]. intros _ k (A & B & C) D. assert (false = true) by (apply Hh; right; eauto). done.
      * intros (k & (A & B & C) & D). assert (false = true) by (apply Hh; right; eauto). done.
Qed.

(** C24: [process_fork] fails with -1, changing nothing, exactly when no slot is free; otherwise the
    child gets the lowest free slot, the next pid, which is what the parent returns, and the parent as
    its parent; its saved registers are the parent's with [a0] = 0; its descriptors, heap, mmap and
    stack bounds, TLS pointer and directory are the parent's; it is runnable, its address space is
    what [paging_fork_user] made, and no other process, the parent included, changes. *)
Theorem process_fork_correct c s id s' : sys_ok s -> current s = Some c -> process_fork RT c s = Some (id, s') ->
  (id = -1 /\ s' = s /\ forall k, 0 <= k < 8 -> state (getp s k) <> PROC_UNUSED) \/
  exists child v, let p := getp s c in let q := getp s' child in
    0 <= child < 8 /\ state (getp s child) = PROC_UNUSED /\
    (forall k, 0 <= k < child -> state (getp s k) <> PROC_UNUSED) /\
    id = next_pid s /\ pid q = id /\ ppid q = pid p /\ state q = PROC_RUNNABLE /\
    user_regs q = <[R_A0 := 0]> (live s) /\ live s' = live s /\ exit_code q = 0 /\
    (forall r, r ∈ all_refs -> fde q r = fde p r) /\
    user_stack_lo q = user_stack_lo p /\ user_stack_hi q = user_stack_hi p /\ user_stack_limit q = user_stack_limit p /\
    user_brk q = user_brk p /\ user_mmap_next q = user_mmap_next p /\ tls_base q = tls_base p /\ cwd q = cwd p /\
    paging_new_addrspace RT (kvm s) = Some (root_table q, v) /\
    paging_fork_user (root_table q) (root_table p) v = Some (kvm s') /\
    (forall j, j <> child -> getp s' j = getp s j).
Proof.
  intros Ho Hc E. destruct (so_current _ Ho c Hc) as (Hr & _).
  assert (0 <= c < 8) as Hb by (apply (so_slots _ Ho); congruence).
  destruct (process_fork_spec RT c s id s' Ho Hb Hr E) as [(-> & -> & Hn)|(-> & child & root & v & F)].
  - left. split; [done|]. split; [done|]. intros k Hk. by apply (find_state_none _ _ _ _ Hn).
  - right. exists child, v. destruct F as [G1 G2 G3 G4 G5 G6 G7 G8 G9 G10 G11 G12 (t & G13)]. cbv zeta.
    apply find_state_spec in G1 as (A & B & D). change (0 + Z.of_nat (Z.to_nat MAX_PROCESSES)) with 8 in A.
    assert (forall r, r ∈ all_refs -> fde (getp s' child) r = fde (getp s c) r) as Hfd by exact G12.
    revert Hfd. rewrite G13. intros Hfd. by repeat (split; [done|]).
Qed.
End root.

(** ** The hypotheses can hold

    A small machine: a process with pid 1 runs in slot 0, and slot 1 holds a zombie whose parent, pid 2,
    is gone. *)
Definition demo_proc (st : process_state) (id parent : Z) : process :=
  Process id parent st 0 0 0 0 0 0 0 (repeat 0 regs_words) 0 ∅ [].
Definition demo_with (v : vm) : msys :=
  Msys (Ksys {[0 := demo_proc PROC_RUNNABLE 1 0; 1 := demo_proc PROC_ZOMBIE 3 2]} (Some 0) 4 true ∅
          (repeat 0 regs_words) (Some 0) v) ∅.
Definition demo_vm : vm := Vm ∅ (Pmm ∅ ∅ 0 0 0 0) 0 0.
Definition demo : msys := demo_with demo_vm.
Lemma demo_getp v i : getp (ks (demo_with v)) i = if decide (i = 0) then demo_proc PROC_RUNNABLE 1 0
  else if decide (i = 1) then demo_proc PROC_ZOMBIE 3 2 else no_process.
Proof.
  repeat case_decide; subst; [done|done|]. unfold getp. cbn [ks demo_with procs].
  by rewrite lookup_insert_ne, lookup_singleton_ne by congruence.
Qed.
Lemma demo_with_ok v : active_root v = 0 -> machine_ok (demo_with v).
Proof.
  intros Hv. split; [|done].
  assert (forall k, entry (ks (demo_with v)) k = no_fd) as He.
  { intros [i r]. unfold entry, fde_at. cbn [fst snd]. rewrite demo_getp. by repeat case_decide. }
  split.
  - split; intros *; rewrite ?He; try done. intros _. unfold open_ends.
    rewrite (zsum_ext _ (fun _ => 0)) by (intros l _; by rewrite He). by destruct w.
  - intros i. done.
  - intros i r _. by rewrite He.
  - intros i. rewrite demo_getp. repeat case_decide; subst; cbn; done || lia.
  - intros i j. rewrite !demo_getp. repeat case_decide; subst; cbn; done || lia.
  - intros i. rewrite demo_getp. change (next_pid (ks (demo_with v))) with 4.
    repeat case_decide; subst; cbn; done || lia.
  - change (next_pid (ks (demo_with v))) with 4. lia.
  - intros c [= <-]. rewrite demo_getp. done.
Qed.
Lemma demo_ok : machine_ok demo.
Proof. by apply demo_with_ok. Qed.

Lemma orphan_never_reaped_witness :
  ids (getp (ks (set_kont 0 (KWait (-1) 0) demo)) 1) = (3, 2, PROC_ZOMBIE).
Proof.
  apply (orphan_never_reaped 0 demo [Tau] (set_kont 0 (KWait (-1) 0) demo) 1); [apply demo_ok| |done|].
  - eapply ksteps_step; [|apply ksteps_refl]. apply step_block; [done|done|apply blocking_wait].
  - intros i. unfold demo. rewrite demo_getp. by repeat case_decide.
Defined.

Definition forkable : msys := demo_with (Vm ∅ pmm_example 0 0).
Lemma process_fork_correct_witness :
  match process_fork 0x7000 0 (ks forkable) with
  | Some (id, s') => id = 4 /\ exists child, user_regs (getp s' child) = <[R_A0 := 0]> (live (ks forkable))
  | None => False
  end.
Proof.
  assert (match process_fork 0x7000 0 (ks forkable) with Some _ => true | None => false end = true) as H by (vm_compute; reflexivity).
  destruct (process_fork 0x7000 0 (ks forkable)) as [[id s']|] eqn:E; [|done].
  destruct (process_fork_correct 0x7000 0 (ks forkable) id s' (proj1 (demo_with_ok (Vm ∅ pmm_example 0 0) eq_refl)) eq_refl E)
    as [(_ & _ & Hn)|(child & v & _ & _ & _ & Hid & _ & _ & _ & Hr & _)]; clear E H.
  - exfalso. apply (Hn 2); [lia|reflexivity].
  - split; [exact Hid|by exists child].
Defined.

(** The scheduler alternates between two processes. *)
Definition two : ksys :=
  Ksys {[0 := demo_proc PROC_RUNNABLE 1 0; 1 := demo_proc PROC_RUNNABLE 2 1]} (Some 0) 3 true ∅
    (repeat 0 regs_words) (Some 0) demo_vm.
Definition turn (k : nat) : ksys := set_current (Some (Z.of_nat k mod 2)) two.

(** A pipe, two bytes into it and one out. *)
Definition piped : ksys := snd (process_pipe_create 0 (ks demo)).
Lemma piped_ok : machine_ok (set_ks piped demo).
Proof.
  assert (kstep 0 demo (DidCreate 0) (set_ks piped demo)) as Hs.
  { apply (step_call 0 demo 0); [done|done|]. by apply (call_pipe 0 0 (ks demo) (3, 4)). }
  by apply (proj1 (kstep_ok 0 demo _ _ demo_ok Hs)).
Qed.
Definition mid1 : msys := set_kont 0 (KWrite 0 [104; 105] 2 0) (set_ks piped demo).
Definition mid2 : msys := set_kont 0 KUser (set_ks (fst (fst (resume 0 0 (KWrite 0 [104; 105] 2 0) piped))) mid1).
Definition mid3 : msys := set_kont 0 (KRead 0 1 0) mid2.
Definition mid4 : msys := set_kont 0 KUser (set_ks (fst (fst (resume 0 0 (KRead 0 1 0) (ks mid2)))) mid3).
Lemma pipe_fifo_witness :
  ksteps 0 (set_ks piped demo) [Tau; DidWrite 0 [104; 105]; Tau; DidRead 0 [104]] mid4 /\
  [104; 105] = [104] ++ pending (getpipe (ks mid4) 0).
Proof.
  assert (ksteps 0 (set_ks piped demo) [Tau; DidWrite 0 [104; 105]; Tau; DidRead 0 [104]] mid4) as Hs.
  { eapply ksteps_step; [apply (step_block 0 _ 0 (KWrite 0 [104; 105] 2 0)); [done|done|]|].
    { apply (blocking_write 0 _ (Fd 1) 0 [104; 105]); [by exists 1; left|done|done]. }
    eapply ksteps_step; [apply (step_resume 0 mid1 0 (ks mid2) KUser); [done|by vm_compute]|].
    eapply ksteps_step; [apply (step_block 0 mid2 0 (KRead 0 1 0)); [done|done|]|].
    { apply (blocking_read 0 _ (Fd 0) 0 1); [by exists 0; left|done|done]. }
    eapply ksteps_step; [apply (step_resume 0 mid3 0 (ks mid4) KUser); [done|by vm_compute]|]. apply ksteps_refl. }
  split; [exact Hs|].
  apply (pipe_fifo 0 _ _ mid4 0 piped_ok Hs). repeat (apply not_elem_of_cons; split; [done|]). apply not_elem_of_nil.
Defined.

(** A kernel that boots: an 8-byte program at 0x10000 in an ELF file at 0x100 (four bytes in the file,
    four of zeroes), loaded by a kernel with 14 free pages. *)
Definition boot_elf : gmap Z Z :=
  aputs ([127; 69; 76; 70; 2; 1; 1; 0; 0; 0; 0; 0; 0; 0; 0; 0;  2; 0; 243; 0; 1; 0; 0; 0;
          0; 0; 1; 0; 0; 0; 0; 0;  64; 0; 0; 0; 0; 0; 0; 0;  0; 0; 0; 0; 0; 0; 0; 0;
          0; 0; 0; 0; 64; 0; 56; 0; 1; 0; 0; 0; 0; 0; 0; 0;
          1; 0; 0; 0; 5; 0; 0; 0;  120; 0; 0; 0; 0; 0; 0; 0;  0; 0; 1; 0; 0; 0; 0; 0;
          0; 0; 1; 0; 0; 0; 0; 0;  4; 0; 0; 0; 0; 0; 0; 0;  8; 0; 0; 0; 0; 0; 0; 0;  0; 16; 0; 0; 0; 0; 0; 0;
          115; 0; 0; 0]) 0x100 ∅.
Definition boot_vm : vm := Vm boot_elf pmm_example 0x7000 0.
