(* ===== verification/ElfLoad.v ===== *)
(** What [load_segment] of [src/kernel/mm/elf.c] leaves in the address space: the bytes of the file, then
    zeroes, readable through the page tables it extended. *)
From S2P Require Import Prelude Pmm Paging PagingInv PagingMap PagingCow Elf.

#[local] Opaque ENTRIES zero_table.

Definition USER_FLAGS : Z := 0x1f.

(** ** Pages loaded so far *)

Section load.
Context (root : Z) (s0 : vm).

(** [pages] gives the frame of each page loaded since [s0]. *)
Record loaded (pages : gmap Z Z) (s : vm) : Prop := {
  ld_ok : pt_ok (vmem s) (vpmm s) root;
  ld_active : active_root s = root;
  ld_leaf : forall v f, pages !! v = Some f -> vleaf (vmem s) root v = Some (mk_pte f USER_FLAGS);
  ld_dom : forall v f, pages !! v = Some f -> 0 <= v < 2 ^ 39 /\ v mod 4096 = 0;
  ld_frame : forall v f, pages !! v = Some f -> held (vpmm s) f /\ ~ held (vpmm s0) f;
  ld_apart : forall v f q t, pages !! v = Some f -> path_ok q -> table_at (vmem s) root q = Some t -> t <> f;
  ld_inj : forall v v' f, pages !! v = Some f -> pages !! v' = Some f -> v = v';
  ld_other : forall v, (forall w, is_Some (pages !! w) -> ~ same_page v w) -> vleaf (vmem s) root v = vleaf (vmem s0) root v;
  ld_new : forall q t, path_ok q -> table_at (vmem s) root q = Some t ->
    table_at (vmem s0) root q = Some t \/ ~ held (vpmm s0) t;
  ld_held : forall t, held (vpmm s0) t -> held (vpmm s) t;
  ld_range : total_pages (vpmm s) = total_pages (vpmm s0) /\ phys_base (vpmm s) = phys_base (vpmm s0);
  ld_stable : forall t a, held (vpmm s0) t -> (forall q, path_ok q -> table_at (vmem s0) root q <> Some t) ->
    t <= a < t + 4096 -> aget (vmem s) a = aget (vmem s0) a
}.

Lemma loaded_refl : pt_ok (vmem s0) (vpmm s0) root -> active_root s0 = root -> loaded ∅ s0.
Proof. intros H Ha. split; try done. intros q t Hq Ht. by left. Qed.

Lemma ld_page pages s v f : loaded pages s -> pages !! v = Some f -> page_addr f.
Proof.
  intros L Hv. eapply held_page; [apply (pt_pmm _ _ _ (ld_ok _ _ L))|apply (pt_base _ _ _ (ld_ok _ _ L))|].
  by apply (ld_frame _ _ L v).
Qed.

(** The byte of frame [f] behind the user address [va]. *)
Lemma frame_byte pages s v f off : loaded pages s -> pages !! v = Some f -> 0 <= off < 4096 ->
  paging_get_phys (v + off) s = f + off /\ paging_get_flags (v + off) s = USER_FLAGS.
Proof.
  intros L Hv Ho. pose proof (ld_page _ _ _ _ L Hv) as Hp. destruct (ld_dom _ _ L _ _ Hv) as [Hb Hm].
  unfold paging_get_phys, paging_get_flags. rewrite (ld_active _ _ L), get_phys_vleaf, get_flags_vleaf.
  assert (vleaf (vmem s) root (v + off) = vleaf (vmem s) root v) as ->.
  { assert (same_page (v + off) v) as Hs by (unfold same_page; zlia).
    apply same_page_vpn in Hs as [E1 E2]. by rewrite !vleaf_leaf_path, E1, E2. }
  rewrite (ld_leaf _ _ L _ _ Hv), pte_table_mk, mk_pte_flags by (done || (unfold USER_FLAGS; lia)).
  split; [|done]. change 0xfff with (2 ^ 12 - 1). rewrite land_ones_mod by lia.
  replace ((v + off) mod 2 ^ 12) with off by (change (2 ^ 12) with 4096; zlia).
  destruct Hp as [_ Hpm]. replace f with (f / 4096 * 2 ^ 12) at 1 by (change (2 ^ 12) with 4096; zlia).
  rewrite lor_add by (change (2 ^ 12) with 4096; lia). change (2 ^ 12) with 4096. zlia.
Qed.

(** Storing a byte through the page tables. *)
Lemma ustore_spec pages s v f off b : loaded pages s -> pages !! v = Some f -> 0 <= off < 4096 -> isu8 b ->
  ustore (v + off) b s = Some (set_vmem (aset (vmem s) (f + off) b) s) /\
  loaded pages (set_vmem (aset (vmem s) (f + off) b) s).
Proof.
  intros L Hv Ho Hb. destruct (frame_byte pages s v f off L Hv Ho) as [Ep Ef]. unfold ustore. rewrite Ef, Ep. split; [done|].
  pose proof (ld_page _ _ _ _ L Hv) as Hp.
  destruct (pt_ok_frame (vmem s) (aset (vmem s) (f + off) b) (vpmm s) (vpmm s) root) as (A & B & C); [apply L|..].
  - apply bytes_ok_aset; [apply (ld_ok _ _ L)|done].
  - apply (ld_ok _ _ L).
  - done.
  - intros q t Hq Ht. split; [by eapply (pt_held _ _ _ (ld_ok _ _ L))|]. intros a Ha. apply aget_aset_ne.
    pose proof (ld_apart _ _ L v f q t Hv Hq Ht). destruct (pt_page _ _ _ _ _ (ld_ok _ _ L) Hq Ht) as [_ Hm].
    destruct Hp as [_ Hpm]. zlia.
  - split; cbn [vmem vpmm set_vmem active_root]; try apply L; try done.
    + intros w g Hw. rewrite C. by apply (ld_leaf _ _ L).
    + intros w g q t Hw Hq. rewrite B by done. by apply (ld_apart _ _ L w).
    + intros w Hw. rewrite C. by apply (ld_other _ _ L).
    + intros q t Hq. rewrite B by done. by apply (ld_new _ _ L).
    + intros t a Ht Hnt Ha. rewrite aget_aset_ne; [by apply (ld_stable _ _ L t)|].
      assert (t <> f) by (intros ->; by apply (ld_frame _ _ L v f)).
      pose proof (held_page _ _ (pt_pmm _ _ _ (ld_ok _ _ L)) (proj2 (pt_base _ _ _ (ld_ok _ _ L))) (ld_held _ _ L t Ht)) as [_ Htm].
      destruct Hp as [_ Hpm]. zlia.
Qed.

Lemma uzero_spec pages v f n off s : loaded pages s -> pages !! v = Some f -> 0 <= off -> off + Z.of_nat n <= 4096 ->
  v + 4096 <= 2 ^ 39 ->
  exists s', uzero n (v + off) s = Some s' /\ loaded pages s' /\ vpmm s' = vpmm s /\
    forall a, aget (vmem s') a = if bool_decide (f + off <= a < f + off + Z.of_nat n) then 0 else aget (vmem s) a.
Proof.
  intros L Hv. revert off s L. induction n as [|n IH]; intros off s L Ho Hn Hb; cbn [uzero].
  { exists s. split; [done|]. split; [done|]. split; [done|]. intros a. by rewrite bool_decide_eq_false_2 by lia. }
  destruct (ustore_spec pages s v f off 0 L Hv) as [-> L1]; [lia|lia|].
  destruct (ld_dom _ _ L _ _ Hv) as [Hd _]. rewrite u64_small by lia. rewrite <- Z.add_assoc.
  destruct (IH (off + 1) _ L1) as (s' & -> & L' & Ep & Ha); [lia..|]. exists s'. split; [done|]. split; [done|]. split; [done|].
  intros a. rewrite Ha. cbn [vmem set_vmem]. rewrite aget_aset. repeat case_bool_decide; repeat case_decide; try lia; done.
Qed.

(** ** One page *)

Lemma map_page_uses virt phys flags s : pt_ok (vmem s) (vpmm s) root -> 2 <= free_pages (vpmm s) ->
  exists s', paging_map_page_in root virt phys flags s = Some s' /\ free_pages (vpmm s) - 2 <= free_pages (vpmm s').
Proof.
  intros Hpt Hf. unfold paging_map_page_in, get_pte_in.
  destruct (walk_level_free root (vpn virt 2) s (free_pages (vpmm s))) as (r & s1 & E & Hs1); [apply Hpt|apply Hpt|lia|].
  destruct (walk_level_spec root [] root (vpn virt 2) s Hpt path_ok_nil ltac:(cbn; lia) (vpn_bound _ _) eq_refl)
    as [E'|(t1 & s1' & E' & He & Ht1)]; rewrite E in E'; [done|]. rewrite E. injection E' as -> <-.
  destruct (walk_level_free t1 (vpn virt 1) s1 (free_pages (vpmm s) - 1)) as (r & s2 & E2 & Hs2); [apply He|apply He|lia|].
  destruct (walk_level_spec root [vpn virt 2] t1 (vpn virt 1) s1 (ex_ok _ _ _ He)
    (path_ok_snoc [] _ path_ok_nil ltac:(cbn; lia) (vpn_bound _ _)) ltac:(cbn; lia) (vpn_bound _ _) Ht1)
    as [E'|(t0 & s2' & E' & _ & _)]; rewrite E2 in E'; [done|]. rewrite E2. injection E' as -> <-.
  eexists. split; [done|]. cbn. lia.
Qed.

(** Allocating and mapping a frame for a page. *)
Lemma load_page pages s v k p : loaded pages s -> allocated k (vpmm s) p -> pmm_ok p ->
  0 <= v < 2 ^ 39 -> v mod 4096 = 0 -> pages !! v = None ->
  let f := phys_base (vpmm s) + k * PAGE_SIZE in
  paging_map_page v f USER_FLAGS (set_vpmm p s) = None \/
  exists s', paging_map_page v f USER_FLAGS (set_vpmm p s) = Some s' /\ loaded (<[v := f]> pages) s' /\
    forall w g off, pages !! w = Some g -> 0 <= off < 4096 -> aget (vmem s') (g + off) = aget (vmem s) (g + off).
Proof.
  intros L Hal Hp Hv Hm Hn f. pose proof (ld_ok _ _ L) as Hpt.
  destruct (allocated_new _ _ _ Hal) as [Hnew Hfresh]. fold f in Hnew, Hfresh.
  pose proof Hal as (Hk & Hk0 & Hkr & _ & Hkt & Hkb).
  assert (page_addr f) as Hf.
  { eapply held_page; [exact Hp| |exact Hnew]. rewrite Hkb. apply Hpt. }
  destruct (pt_ok_frame (vmem s) (vmem s) (vpmm s) p root) as (A & B & C); [done|apply Hpt|done|done|..].
  { intros q t Hq Ht. split; [|done]. eapply allocated_held; [done|by eapply (pt_held _ _ _ Hpt)]. }
  unfold paging_map_page. change (active_root (set_vpmm p s)) with (active_root s). rewrite (ld_active _ _ L).
  destruct (map_page_mapped root v f USER_FLAGS (set_vpmm p s) A Hf) as [->|(s' & -> & M)]; [unfold USER_FLAGS; lia|by left|right].
  exists s'. split; [done|]. destruct M as [M1 M2 M3 M4 M5 M6 M7 M8]. cbn [vmem vpmm set_vpmm active_root] in *.
  assert (forall q t, path_ok q -> table_at (vmem s') root q = Some t -> t <> f) as Hapf.
  { intros q t Hq Ht ->. destruct (M3 q f Hq Ht) as [Ht'|Hnh]; [|done].
    apply Hfresh. by eapply (pt_held _ _ _ Hpt). }
  assert (forall t, held (vpmm s) t -> held (vpmm s') t) as Hheld.
  { intros t Ht. apply (held_mono p); [done|done|]. by eapply allocated_held. }
  assert (forall w g, pages !! w = Some g -> forall q t, path_ok q -> table_at (vmem s') root q = Some t -> t <> g) as Hapg.
  { intros w g Hw q t Hq Ht ->. destruct (M3 q g Hq Ht) as [Ht'|Hnh].
    - by apply (ld_apart _ _ L w g q g Hw Hq Ht').
    - apply Hnh. eapply allocated_held; [done|]. by apply (ld_frame _ _ L w g). }
  assert (forall w g off, pages !! w = Some g -> 0 <= off < 4096 -> aget (vmem s') (g + off) = aget (vmem s) (g + off)) as Hkeep.
  { intros w g off Hw Ho. apply M5. intros q t Hq Ht. pose proof (Hapg w g Hw q t Hq Ht).
    destruct (ld_page _ _ _ _ L Hw) as [_ Hgm], (pt_page _ _ _ _ _ M1 Hq Ht) as [_ Htm]. zlia. }
  split; [|done]. split; try done.
  - rewrite (proj1 M8). apply L.
  - intros w g Hw. rewrite M4. apply lookup_insert_Some in Hw as [[-> ->]|[Hne Hw]].
    + rewrite decide_True by done. done.
    + destruct (ld_dom _ _ L _ _ Hw) as [Hwb Hwm]. rewrite decide_False; [|unfold same_page; zlia].
      by apply (ld_leaf _ _ L).
  - intros w g Hw. apply lookup_insert_Some in Hw as [[-> ->]|[Hne Hw]]; [done|]. exact (ld_dom _ _ L w g Hw).
  - intros w g Hw. apply lookup_insert_Some in Hw as [[-> ->]|[Hne Hw]].
    + split; [by apply (held_mono p)|]. intros Hh. apply Hfresh. by apply (ld_held _ _ L).
    + destruct (ld_frame _ _ L w g Hw). split; [by apply Hheld|done].
  - intros w g q t Hw. apply lookup_insert_Some in Hw as [[-> ->]|[Hne Hw]]; [apply Hapf|apply (Hapg w g Hw)].
  - assert (forall w, pages !! w = Some f -> False) as Hnf.
    { intros w Hw. apply Hfresh. exact (proj1 (ld_frame _ _ L w f Hw)). }
    intros w w' g Hw Hw'. apply lookup_insert_Some in Hw as [[-> ->]|[Hne Hw]]; apply lookup_insert_Some in Hw' as [[-> E]|[Hne' Hw']].
    + done.
    + exfalso. by eapply Hnf.
    + subst g. exfalso. by eapply Hnf.
    + by eapply (ld_inj _ _ L).
  - intros w Hw. rewrite M4, decide_False by (apply Hw; exists f; apply lookup_insert_eq).
    apply (ld_other _ _ L). intros x [g Hx]. apply Hw. destruct (Z.eq_dec v x) as [->|]; [congruence|].
    exists g. by rewrite lookup_insert_ne.
  - intros q t Hq Ht. destruct (M3 q t Hq Ht) as [Ht'|Hnh]; [by apply (ld_new _ _ L)|].
    right. intros Hh. apply Hnh. eapply allocated_held; [done|]. by apply (ld_held _ _ L).
  - intros t Ht. by apply Hheld, (ld_held _ _ L).
  - destruct M7 as [-> ->]. rewrite Hkt, Hkb. apply L.
  - intros t a Ht Hnt Ha. rewrite M5; [by apply (ld_stable _ _ L t)|]. intros q t' Hq Ht' Ha'.
    assert (held (vpmm s') t) as Hh by by apply Hheld, (ld_held _ _ L).
    assert (page_addr t) as [_ Htm].
    { eapply held_page; [apply (pt_pmm _ _ _ M1)|apply (pt_base _ _ _ M1)|done]. }
    destruct (pt_page _ _ _ _ _ M1 Hq Ht') as [_ Htm']. assert (t' = t) as -> by zlia.
    destruct (M3 q t Hq Ht') as [Ht2|Hn2]; [|by apply Hn2; eapply allocated_held; [done|]; apply (ld_held _ _ L)].
    destruct (ld_new _ _ L q t Hq Ht2) as [Ht3|Hn3]; [by apply (Hnt q)|done].
Qed.

(** ** The page loop *)

Lemma load_pages_spec pages n va s : loaded pages s -> va mod 4096 = 0 -> 0 <= va -> va + 4096 * Z.of_nat n <= 2 ^ 39 ->
  (forall w, is_Some (pages !! w) -> w < va) ->
  (forall w g off, pages !! w = Some g -> 0 <= off < 4096 -> aget (vmem s) (g + off) = 0) ->
  (3 * Z.of_nat n <= free_pages (vpmm s) -> exists s', load_pages n va s = Some (true, s') /\
     free_pages (vpmm s) - 3 * Z.of_nat n <= free_pages (vpmm s')) /\
  forall s', load_pages n va s = Some (true, s') -> exists pages', loaded pages' s' /\
    (forall w, is_Some (pages' !! w) <-> is_Some (pages !! w) \/ (va <= w < va + 4096 * Z.of_nat n /\ w mod 4096 = 0)) /\
    (forall w g off, pages' !! w = Some g -> 0 <= off < 4096 -> aget (vmem s') (g + off) = 0).
Proof.
  revert pages va s. induction n as [|n IH]; intros pages va s L Hm Hva Hb Hlt Hz; cbn [load_pages].
  { split; [intros _; exists s; split; [done|lia]|]. intros s' [= <-]. exists pages. split; [done|]. split; [|done].
    intros w. split; [by left|]. intros [?|?]; [done|lia]. }
  pose proof (ld_ok _ _ L) as Hpt. pose proof (pt_base _ _ _ Hpt) as [Hb0 _].
  destruct (alloc_page_cases (vpmm s) (pt_pmm _ _ _ Hpt)) as [[-> E0]|(k & p & -> & Hal & Hok)].
  { rewrite Z.eqb_refl. split; [lia|done]. }
  set (f := phys_base (vpmm s) + k * PAGE_SIZE) in *.
  replace (f =? 0) with false.
  2: { symmetry. apply Z.eqb_neq. pose proof (ok_base _ (pt_pmm _ _ _ Hpt)). destruct Hal as [? _]. unfold f, PAGE_SIZE. lia. }
  change (Z.lor (Z.lor PTE_PRESENT PTE_WRITABLE) PTE_USER) with USER_FLAGS.
  assert (pages !! va = None) as Hn.
  { destruct (pages !! va) eqn:E; [|done]. exfalso. pose proof (Hlt va ltac:(by eexists)). lia. }
  assert (pt_ok (vmem (set_vpmm p s)) (vpmm (set_vpmm p s)) root) as Hpt1.
  { destruct (pt_ok_frame (vmem s) (vmem s) (vpmm s) p root) as (A & _); [done|apply Hpt|done|apply Hal| |exact A].
    intros q t Hq Ht. split; [|done]. eapply allocated_held; [done|by eapply (pt_held _ _ _ Hpt)]. }
  destruct (load_page pages s va k p L Hal Hok ltac:(lia) Hm Hn) as [Em|(s1 & Em & L1 & Hkeep)]; fold f in Em.
  { rewrite Em. split; [|done]. intros Hfree. exfalso.
    destruct (map_page_uses va f USER_FLAGS (set_vpmm p s) Hpt1) as (s' & E & _).
    - cbn. destruct Hal as (_ & _ & _ & -> & _). lia.
    - unfold paging_map_page in Em. change (active_root (set_vpmm p s)) with (active_root s) in Em.
      rewrite (ld_active _ _ L) in Em. congruence. }
  rewrite Em. fold f in L1.
  assert ((<[va := f]> pages) !! va = Some f) as Hin by by rewrite lookup_insert_eq.
  destruct (uzero_spec (<[va := f]> pages) va f (Z.to_nat PAGE_SIZE) 0 s1 L1 Hin) as (s2 & E2 & L2 & Ep2 & Ha2);
    [lia|done|lia|].
  rewrite Z.add_0_r in E2. rewrite E2. change (Z.of_nat (Z.to_nat PAGE_SIZE)) with 4096 in Ha2.
  destruct (IH (<[va := f]> pages) (va + PAGE_SIZE) s2 L2) as [I1 I2].
  - unfold PAGE_SIZE. zlia.
  - unfold PAGE_SIZE. lia.
  - unfold PAGE_SIZE. lia.
  - intros w [g Hw]. apply lookup_insert_Some in Hw as [[-> _]|[_ Hw]]; unfold PAGE_SIZE; [lia|].
    pose proof (Hlt w ltac:(by eexists)). lia.
  - intros w g off Hw Ho. rewrite Ha2, Z.add_0_r. case_bool_decide as E; [done|].
    apply lookup_insert_Some in Hw as [[-> <-]|[Hne Hw]]; [lia|]. rewrite (Hkeep w) by done. by apply (Hz w).
  - split.
    + intros Hfree.
      destruct (map_page_uses va f USER_FLAGS (set_vpmm p s) Hpt1) as (s' & E & Hu).
      { cbn. destruct Hal as (_ & _ & _ & -> & _). lia. }
      unfold paging_map_page in Em. change (active_root (set_vpmm p s)) with (active_root s) in Em.
      rewrite (ld_active _ _ L), E in Em. injection Em as ->. cbn in Hu. destruct Hal as (_ & _ & _ & Hfr & _).
      rewrite Ep2 in I1. destruct I1 as (s' & Es & Hs'); [lia|]. exists s'. split; [done|lia].
    + intros s' E. destruct (I2 s' E) as (pages' & L' & Hdom & Hz'). exists pages'. split; [done|]. split; [|done].
      intros w. rewrite Hdom. unfold PAGE_SIZE in *. split.
      * intros [[g Hw]|[? ?]]; [|right; split; [lia|done]]. apply lookup_insert_Some in Hw as [[-> _]|[_ Hw]]; [right; split; [lia|done]|left; by eexists].
      * intros [[g Hw]|[Hwb Hwm]]; [left|].
        -- destruct (Z.eq_dec va w) as [->|]; [by eexists|]. exists g. by rewrite lookup_insert_ne.
        -- destruct (Z.eq_dec va w) as [->|]; [left; by eexists|right]. split; [zlia|done].
Qed.

(** ** The copy loop *)

(** The byte a user address holds, through the tables. *)
Definition user_byte (s : vm) (va : Z) : Z := aget (vmem s) (paging_get_phys va s).
Definition page_start (va : Z) : Z := va - va mod 4096.

Lemma user_byte_frame pages s va f : loaded pages s -> pages !! page_start va = Some f ->
  user_byte s va = aget (vmem s) (f + va mod 4096) /\ paging_get_flags va s = USER_FLAGS.
Proof.
  intros L Hf. destruct (frame_byte pages s _ f (va mod 4096) L Hf) as [E E']; [apply Z.mod_pos_bound; lia|].
  replace (page_start va + va mod 4096) with va in * by (unfold page_start; lia). unfold user_byte. by rewrite E.
Qed.

Lemma ucopy_spec pages n dst src s : loaded pages s -> 0 <= dst -> dst + Z.of_nat n <= 2 ^ 39 ->
  (forall i, 0 <= i < Z.of_nat n -> is_Some (pages !! page_start (dst + i))) ->
  (forall i, 0 <= i < Z.of_nat n -> exists t, held (vpmm s0) t /\ (forall q, path_ok q -> table_at (vmem s0) root q <> Some t) /\
     t <= src + i < t + 4096) ->
  exists s', ucopy n dst src s = Some s' /\ vpmm s' = vpmm s /\ loaded pages s' /\
    forall va, is_Some (pages !! page_start va) ->
      user_byte s' va = if bool_decide (dst <= va < dst + Z.of_nat n) then aget (vmem s0) (src + (va - dst)) else user_byte s va.
Proof.
  revert dst src s. induction n as [|n IH]; intros dst src s L Hd Hb Hp Hs; cbn [ucopy].
  { exists s. split; [done|]. split; [done|]. split; [done|]. intros va _. by rewrite bool_decide_eq_false_2 by lia. }
  destruct (Hp 0 ltac:(lia)) as [f Hf]. rewrite Z.add_0_r in Hf.
  destruct (Hs 0 ltac:(lia)) as (t & Ht & Hnt & Hat). rewrite Z.add_0_r in Hat.
  assert (aget (vmem s) src = aget (vmem s0) src) as Esrc by by apply (ld_stable _ _ L t).
  pose proof (Z.mod_pos_bound dst 4096 ltac:(lia)) as Hm.
  destruct (ustore_spec pages s _ f (dst mod 4096) (aget (vmem s) src) L Hf Hm) as [E L1].
  { apply (pt_bytes _ _ _ (ld_ok _ _ L)). }
  replace (page_start dst + dst mod 4096) with dst in E by (unfold page_start; lia). rewrite E.
  destruct (Z.eq_dec (Z.of_nat n) 0) as [E0|Hn0].
  - assert (n = O) as -> by lia. cbn [ucopy]. eexists. split; [done|]. split; [done|]. split; [done|].
    intros va [g Hg]. rewrite (proj1 (user_byte_frame _ _ va g L1 Hg)), (proj1 (user_byte_frame _ _ va g L Hg)).
    cbn [vmem set_vmem]. case_bool_decide as Ev.
    + assert (va = dst) as -> by lia. assert (g = f) as -> by congruence. rewrite aget_aset_eq, Esrc. f_equal. lia.
    + apply aget_aset_ne. destruct (Z.eq_dec f g) as [->|Hne].
      * pose proof (ld_inj _ _ L _ _ _ Hf Hg). unfold page_start in *. zlia.
      * destruct (ld_page _ _ _ _ L Hf) as [_ ?], (ld_page _ _ _ _ L Hg) as [_ ?]. zlia.
  - rewrite u64_small by lia.
    destruct (IH (dst + 1) (src + 1) _ L1) as (s' & -> & Ep & L' & Hu); [lia|lia|..].
    { intros i Hi. replace (dst + 1 + i) with (dst + (i + 1)) by lia. apply Hp. lia. }
    { intros i Hi. replace (src + 1 + i) with (src + (i + 1)) by lia. apply Hs. lia. }
    exists s'. split; [done|]. split; [exact Ep|]. split; [done|]. intros va Hva. rewrite Hu by done. destruct Hva as [g Hg].
    rewrite (proj1 (user_byte_frame _ _ va g L1 Hg)), (proj1 (user_byte_frame _ _ va g L Hg)). cbn [vmem set_vmem].
    repeat case_bool_decide; try lia.
    + f_equal. lia.
    + assert (va = dst) as -> by lia. assert (g = f) as -> by congruence. rewrite aget_aset_eq, Esrc. f_equal. lia.
    + apply aget_aset_ne. destruct (Z.eq_dec f g) as [->|Hne].
      * pose proof (ld_inj _ _ L _ _ _ Hf Hg). unfold page_start in *. zlia.
      * destruct (ld_page _ _ _ _ L Hf) as [_ ?], (ld_page _ _ _ _ L Hg) as [_ ?]. zlia.
Qed.
End load.

(** ** Segments *)

Lemma land_page x : isu64 x -> Z.land x (not64 (PAGE_SIZE - 1)) = x - x mod 4096.
Proof.
  intros Hx. change (not64 (PAGE_SIZE - 1)) with (Z.ldiff (Z.ones 64) (Z.ones 12)).
  assert (Z.land x (Z.ldiff (Z.ones 64) (Z.ones 12)) = Z.ldiff x (Z.ones 12)) as ->.
  { apply Z.bits_inj'. intros i Hi. rewrite Z.land_spec, !Z.ldiff_spec, !Z.testbit_ones by lia.
    destruct (Z.lt_ge_cases i 64) as [Hl|Hl].
    - replace (0 <=? i) with true by lia. replace (i <? 64) with true by lia. done.
    - rewrite (testbit_high x 64) by lia. done. }
  rewrite Z.ldiff_ones_r, Z.shiftl_mul_pow2, Z.shiftr_div_pow2 by lia. change (2 ^ 12) with 4096. zlia.
Qed.

(** The pages of a segment. *)
Definition seg_first (v : Z) : Z := v - v mod 4096.
Definition seg_pages (v n : Z) : Z := (v + n - seg_first v + 4095) / 4096.

Lemma seg_bounds v n : 0 <= v -> 0 <= n -> v + n <= 2 ^ 38 ->
  page_round_down v = seg_first v /\ page_round_up (u64 (v + n)) = seg_first v + 4096 * seg_pages v n /\
  0 <= seg_pages v n /\ 0 <= seg_first v <= v /\ v + n <= seg_first v + 4096 * seg_pages v n <= 2 ^ 38 + 4096.
Proof.
  intros Hv Hn Hb. unfold page_round_down, page_round_up, seg_pages, seg_first, PAGE_SIZE in *.
  rewrite (u64_small (v + n)), (u64_small (v + n + 4096 - 1)) by lia.
  rewrite !(land_page) by lia. repeat split; zlia.
Qed.

(** A loaded segment, with the frames of its pages. *)
Lemma load_segment_pages data off v fsz msz s :
  let root := active_root s in
  pt_ok (vmem s) (vpmm s) root -> 0 <= v -> 0 <= fsz <= msz -> v + msz <= 2 ^ 38 ->
  (forall i, 0 <= i < fsz -> exists t, held (vpmm s) t /\ (forall q, path_ok q -> table_at (vmem s) root q <> Some t) /\
     t <= data + off + i < t + 4096) ->
  let last := seg_first v + 4096 * seg_pages v msz in
  (3 * seg_pages v msz <= free_pages (vpmm s) -> exists s', load_segment data off v fsz msz s = Some (true, s') /\
     free_pages (vpmm s) - 3 * seg_pages v msz <= free_pages (vpmm s')) /\
  forall s', load_segment data off v fsz msz s = Some (true, s') -> exists pages, loaded root s pages s' /\
    (forall w, is_Some (pages !! w) <-> seg_first v <= w < last /\ w mod 4096 = 0) /\
    (forall va, seg_first v <= va < last -> is_Some (pages !! page_start va) /\
       user_byte s' va = if bool_decide (v <= va < v + fsz) then aget (vmem s) (data + off + (va - v)) else 0).
Proof.
  intros root Hpt Hv Hf Hb Hsrc last. destruct (seg_bounds v msz Hv ltac:(lia) Hb) as (E1 & E2 & Hn & Hfi & Hla).
  unfold load_segment. rewrite E1, E2.
  replace ((seg_first v + 4096 * seg_pages v msz - seg_first v) / PAGE_SIZE) with (seg_pages v msz) by (unfold PAGE_SIZE; zlia).
  destruct (load_pages_spec root s ∅ (Z.to_nat (seg_pages v msz)) (seg_first v) s) as [I1 I2].
  { by apply loaded_refl. } { unfold seg_first. zlia. } { lia. } { lia. } { intros w [g Hw]. done. } { done. }
  rewrite Z2Nat.id in * by lia. fold last in I2, Hla |- *.
  assert (forall s1 pages, loaded root s pages s1 ->
    (forall w, is_Some (pages !! w) <-> is_Some ((∅ : gmap Z Z) !! w) \/ (seg_first v <= w < last /\ w mod 4096 = 0)) ->
    exists s', ucopy (Z.to_nat fsz) v (data + off) s1 = Some s' /\ vpmm s' = vpmm s1 /\ loaded root s pages s' /\
      forall va, is_Some (pages !! page_start va) -> user_byte s' va =
        if bool_decide (v <= va < v + fsz) then aget (vmem s) (data + off + (va - v)) else user_byte s1 va) as Hcp.
  { intros s1 pages L Hdom. destruct (ucopy_spec root s pages (Z.to_nat fsz) v (data + off) s1 L) as (s' & E & Ep & L' & Hu).
    - lia. - lia.
    - intros i Hi. apply Hdom. right. unfold page_start, seg_first, last in *. zlia.
    - intros i Hi. apply Hsrc. lia.
    - exists s'. rewrite Z2Nat.id in Hu by lia. done. }
  split.
  - intros Hfree. destruct (I1 Hfree) as (s1 & Es1 & Hf1). rewrite Es1. destruct (I2 s1 Es1) as (pages & L & Hdom & _).
    destruct (Hcp s1 pages L Hdom) as (s' & -> & Ep & _). exists s'. split; [done|]. by rewrite Ep.
  - intros s' E. destruct (load_pages _ _ s) as [[[|] s1]|]; try done.
    destruct (I2 s1 eq_refl) as (pages & L & Hdom & Hz). destruct (Hcp s1 pages L Hdom) as (s2 & E3 & _ & L2 & Hu).
    rewrite E3 in E. injection E as <-. exists pages. split; [done|]. split.
    { intros w. rewrite Hdom. split; [intros [[g Hw]|?]; done|by right]. }
    intros va Hva. assert (is_Some (pages !! page_start va)) as Hin.
    { apply Hdom. right. unfold page_start, seg_first, last in *. zlia. }
    split; [done|]. rewrite Hu by done. destruct Hin as [f Hpf]. case_bool_decide; [done|].
    rewrite (proj1 (user_byte_frame root s pages _ va f L Hpf)). apply (Hz _ f _ Hpf), Z.mod_pos_bound. lia.
Qed.

(** The address space outside the pages of a segment. *)
Lemma loaded_outside root s pages s' lo hi va : loaded root s pages s' -> active_root s = root -> lo mod 4096 = 0 -> hi mod 4096 = 0 ->
  (forall w, is_Some (pages !! w) -> lo <= w < hi /\ w mod 4096 = 0) -> 0 <= va < 2 ^ 39 -> ~ lo <= va < hi ->
  paging_get_phys va s' = paging_get_phys va s /\ paging_get_flags va s' = paging_get_flags va s.
Proof.
  intros L Ha Hlo Hhi Hdom Hva Hout. unfold paging_get_phys, paging_get_flags. rewrite (ld_active _ _ _ _ L), Ha.
  rewrite !get_phys_vleaf, !get_flags_vleaf. rewrite (ld_other _ _ _ _ L); [done|].
  intros w Hw Hs. destruct (Hdom w Hw). destruct Hw as [g Hg]. destruct (ld_dom _ _ _ _ L _ _ Hg). unfold same_page in Hs. zlia.
Qed.

Lemma load_segment_ok data off v fsz msz s :
  let root := active_root s in
  pt_ok (vmem s) (vpmm s) root -> 0 <= v -> 0 <= fsz <= msz -> v + msz <= 2 ^ 38 ->
  (forall i, 0 <= i < fsz -> exists t, held (vpmm s) t /\ (forall q, path_ok q -> table_at (vmem s) root q <> Some t) /\
     t <= data + off + i < t + 4096) ->
  let last := seg_first v + 4096 * seg_pages v msz in
  (3 * seg_pages v msz <= free_pages (vpmm s) -> exists s', load_segment data off v fsz msz s = Some (true, s')) /\
  forall s', load_segment data off v fsz msz s = Some (true, s') ->
    pt_ok (vmem s') (vpmm s') root /\ active_root s' = root /\
    (forall va, seg_first v <= va < last -> paging_get_flags va s' = USER_FLAGS /\
       user_byte s' va = if bool_decide (v <= va < v + fsz) then aget (vmem s) (data + off + (va - v)) else 0) /\
    (forall va, 0 <= va < 2 ^ 39 -> ~ seg_first v <= va < last ->
       paging_get_phys va s' = paging_get_phys va s /\ paging_get_flags va s' = paging_get_flags va s) /\
    (forall t a, held (vpmm s) t -> (forall q, path_ok q -> table_at (vmem s) root q <> Some t) ->
       t <= a < t + 4096 -> aget (vmem s') a = aget (vmem s) a).
Proof.
  intros root Hpt Hv Hf Hb Hsrc last. destruct (load_segment_pages data off v fsz msz s Hpt Hv Hf Hb Hsrc) as [H1 H2]. fold root last in H2.
  split; [intros Hfree; destruct (H1 Hfree) as (s' & E & _); by exists s'|].
  intros s' E. destruct (H2 s' E) as (pages & L & Hdom & Hu).
  split; [apply (ld_ok _ _ _ _ L)|]. split; [apply (ld_active _ _ _ _ L)|]. split; [|split; [|apply (ld_stable _ _ _ _ L)]].
  - intros va Hva. destruct (Hu va Hva) as [[f Hpf] Eu]. split; [exact (proj2 (user_byte_frame root s pages s' va f L Hpf))|exact Eu].
  - intros va. apply (loaded_outside root s pages s' (seg_first v) last va L eq_refl); [unfold seg_first; zlia|unfold last, seg_first; zlia|apply Hdom].
Qed.


