(* ===== verification/Syscall.v ===== *)
(** The system calls ([src/kernel/syscall_posix.c], [src/kernel/syscall_common.c],
    [src/kernel/arch/risc/riscv64_syscall.c], and the serial line they write to,
    [src/kernel/arch/risc/riscv64_serial.c]): definitions.

    A handler is a program of the monad [M] on the state [kern] of the whole kernel.  A handler may
    call [process_schedule], and other processes then run until this one is picked again: what they
    do is the next function of the environment [env]; a handler that is suspended when [env] ends is
    [Blocked].  [Exited] is a process that is gone, [Halted] a kernel that has stopped.  There is
    one physical memory, the one of [kvm]; the file system works on it through [lend] and [give].

    User pointers are dereferenced through the active page tables ([user_get], [user_put]), with no
    check of the range, as in the code.  The clock moves, and input arrives, while other processes
    run.  [M Z] is a handler that ends in [sys_ret] of its value. *)
From S2P Require Import Prelude Pmm Paging Ramfs Elf Process ProcessExec ProcessSys.

Definition F_DUPFD : Z := 0.
Definition F_GETFD : Z := 1.
Definition F_SETFD : Z := 2.
Definition F_GETFL : Z := 3.
Definition F_SETFL : Z := 4.
Definition F_DUPFD_CLOEXEC : Z := 1030.
Definition AT_FDCWD : Z := -100.
Definition O_CREAT : Z := 64.
Definition O_TRUNC : Z := 512.
Definition O_APPEND : Z := 1024.
Definition SEEK_SET : Z := 0.
Definition SEEK_CUR : Z := 1.
Definition SEEK_END : Z := 2.
Definition MAP_FIXED : Z := 0x10.
Definition MREMAP_MAYMOVE : Z := 1.
Definition PROT_NONE : Z := 0.
Definition EBADF : Z := 9.
Definition EINVAL : Z := 22.
Definition ENOMEM : Z := 12.
Definition ENOSYS : Z := 38.
Definition ENOENT : Z := 2.
Definition ENOTDIR : Z := 20.
Definition ENOTTY : Z := 25.
Definition EIO : Z := 5.
Definition TIOCGWINSZ : Z := 0x5413.
Definition BRK_BASE : Z := 0x40000000.
Definition MMAP_BASE : Z := 0x60000000.
Definition ARCH_CLOCK_HZ : Z := 10000000.
Definition PATH_MAX_LOCAL : Z := 128.
Definition CONSOLE_LINE_SIZE : Z := 4096.
Definition RV64_FETCH_BUFFER : Z := 0x85000000.

(** The statics of the console: [console_line] up to [console_length], [console_offset],
    [console_ready]. *)
Record console := Console { cline : list Z; coffset : Z; cready : bool }.

Record kern := Kern {
  sy : ksys;
  fsys : kfs;
  con : console;
  rx : list Z;
  tx : list Z;
  ticks : Z;
  umask_mask : Z;
  brk_current : Z;
  next_mmap_addr : Z
}.
Definition set_sy (v : ksys) (s : kern) : kern :=
  Kern v (fsys s) (con s) (rx s) (tx s) (ticks s) (umask_mask s) (brk_current s) (next_mmap_addr s).
Definition set_con (v : console) (s : kern) : kern :=
  Kern (sy s) (fsys s) v (rx s) (tx s) (ticks s) (umask_mask s) (brk_current s) (next_mmap_addr s).
Definition set_serial (r t : list Z) (s : kern) : kern :=
  Kern (sy s) (fsys s) (con s) r t (ticks s) (umask_mask s) (brk_current s) (next_mmap_addr s).
Definition set_umask (v : Z) (s : kern) : kern :=
  Kern (sy s) (fsys s) (con s) (rx s) (tx s) (ticks s) v (brk_current s) (next_mmap_addr s).
Definition set_brk_static (v : Z) (s : kern) : kern :=
  Kern (sy s) (fsys s) (con s) (rx s) (tx s) (ticks s) (umask_mask s) v (next_mmap_addr s).
Definition set_mmap_static (v : Z) (s : kern) : kern :=
  Kern (sy s) (fsys s) (con s) (rx s) (tx s) (ticks s) (umask_mask s) (brk_current s) v.

(** The file system with the machine's memory and page allocator, and back. *)
Definition lend (s : kern) : kfs :=
  set_kmem (vmem (kvm (sy s))) (set_kpmm (vpmm (kvm (sy s))) (fsys s)).
Definition give (f : kfs) (s : kern) : kern :=
  Kern (set_kvm (set_vmem (kmem f) (set_vpmm (kpmm f) (kvm (sy s)))) (sy s)) f
    (con s) (rx s) (tx s) (ticks s) (umask_mask s) (brk_current s) (next_mmap_addr s).

(** ** The monad *)

Definition env := list (kern -> kern).
Inductive res (A : Type) :=
  | Ok (a : A) (e : env) (s : kern)
  | Blocked (s : kern)
  | Exited (s : kern)
  | Halted.
Arguments Ok {A} a e s.
Arguments Blocked {A} s.
Arguments Exited {A} s.
Arguments Halted {A}.
Definition M (A : Type) : Type := env -> kern -> res A.
#[export] Instance M_ret : MRet M := fun A a e s => Ok a e s.
#[export] Instance M_bind : MBind M := fun A B k m e s =>
  match m e s with
  | Ok a e s => k a e s
  | Blocked s => Blocked s
  | Exited s => Exited s
  | Halted => Halted
  end.

Definition gets {A} (f : kern -> A) : M A := fun e s => Ok (f s) e s.
Definition modify (f : kern -> kern) : M unit := fun e s => Ok () e (f s).
Definition halt {A} : M A := fun e s => Halted.
(** Operations of the process layer, of the paging layer and of the file system. *)
Definition on_sy (f : ksys -> ksys) : M unit := modify (fun s => set_sy (f (sy s)) s).
Definition run_sy {A} (f : ksys -> option (A * ksys)) : M A := fun e s =>
  match f (sy s) with Some (a, k) => Ok a e (set_sy k s) | None => Halted end.
Definition run_vm {A} (f : vm -> option (A * vm)) : M A :=
  run_sy (fun k => match f (kvm k) with Some (a, v) => Some (a, set_kvm v k) | None => None end).
Definition on_vm (f : vm -> option vm) : M unit :=
  run_vm (fun v => match f v with Some v => Some ((), v) | None => None end).
Definition run_fs {A} (f : kfs -> option (A * kfs)) : M A := fun e s =>
  match f (lend s) with Some (a, k) => Ok a e (give k s) | None => Halted end.
Definition ask_fs {A} (f : kfs -> option A) : M A := fun e s =>
  match f (lend s) with Some a => Ok a e s | None => Halted end.
(** [current_process], dereferenced. *)
Definition me : M Z := fun e s => match current (sy s) with Some c => Ok c e s | None => Halted end.

(** [while (!p) process_schedule();] *)
Fixpoint until_loop (p : kern -> bool) (e : env) (s : kern) : res unit :=
  if p s then Ok () e s
  else match e with
       | [] => Blocked s
       | others :: e => until_loop p e (others s)
       end.
Definition until (p : kern -> bool) : M unit := fun e s => until_loop p e s.
Definition schedule : M unit := fun e s =>
  match e with [] => Blocked s | others :: e => Ok () e (others s) end.

(** ** User memory *)

Definition readable (va : Z) (s : vm) : bool := tst (paging_get_flags va s) 1 && tst (paging_get_flags va s) 2.
Definition uload (va : Z) (s : vm) : option Z :=
  if readable va s then Some (aget (vmem s) (paging_get_phys va s)) else None.
Definition user_get (va : Z) : M Z :=
  run_vm (fun v => match uload va v with Some b => Some (b, v) | None => None end).
Definition user_put (va b : Z) : M unit := on_vm (ustore va b).
Fixpoint user_word (n : nat) (va : Z) : M Z :=
  match n with
  | O => mret 0
  | S n => b ← user_get va; w ← user_word n (u64 (va + 1)); mret (b + 256 * w)
  end.
Definition user_long (va : Z) : M Z := user_word 8 va.
Fixpoint user_put_word (n : nat) (va v : Z) : M unit :=
  match n with
  | O => mret ()
  | S n => user_put va (u8 v);; user_put_word n (u64 (va + 1)) (v / 256)
  end.
Definition ensure_writable (addr len : Z) : M unit := on_vm (paging_ensure_writable addr len).

(** ** The serial line *)

Definition serial_putc (c : Z) : M unit :=
  modify (fun s => set_serial (rx s) (tx s ++ (if c =? 10 then [13; c] else [c])) s).
Fixpoint serial_puts (l : list Z) : M unit :=
  match l with [] => mret () | c :: l => serial_putc c;; serial_puts l end.
Definition serial_rx_ready (s : kern) : bool := match rx s with [] => false | _ => true end.

(** ** syscall_common.c *)

Definition syscall_page_round_up (x : Z) : Z := Z.land (u64 (x + PAGE_SIZE - 1)) (not64 (PAGE_SIZE - 1)).

Fixpoint write_raw_loop (n : nat) (buf : Z) : M unit :=
  match n with
  | O => mret ()
  | S n => c ← user_get buf; serial_putc c;; write_raw_loop n (u64 (buf + 1))
  end.
Definition syscall_write_raw (fd buf count : Z) : M unit :=
  if (fd =? 1) || (fd =? 2) then write_raw_loop (Z.to_nat count) buf else mret ().

Definition syscall_ioctl_check (fd req : Z) : Z :=
  if ((fd =? 1) || (fd =? 2)) && (req =? TIOCGWINSZ) then - ENOTTY else - EINVAL.

(** Every round takes a page, so the pages there are bound the rounds. *)
Fixpoint grow_loop (fuel : nat) (va new_top : Z) (s : vm) : option (bool * vm) :=
  if negb (va <? new_top) then Some (true, s)
  else
    match fuel with
    | O => None
    | S fuel =>
        let '(phys, p) := pmm_alloc_page (vpmm s) in
        let s := set_vpmm p s in
        if phys =? 0 then Some (false, s)
        else
          let s := set_vmem (zero_table 512 phys 0 (vmem s)) s in
          match paging_map_page va phys (Z.lor (Z.lor PTE_PRESENT PTE_WRITABLE) PTE_USER) s with
          | None => None
          | Some s => grow_loop fuel (u64 (va + PAGE_SIZE)) new_top s
          end
    end.
Definition syscall_grow_pages (old_top new_top : Z) (s : vm) : option (bool * vm) :=
  grow_loop (S (Z.to_nat (total_pages (vpmm s)))) old_top new_top s.

(** A range of n pages takes n rounds, unless the counter wraps: then the loop never ends. *)
Fixpoint munmap_loop (fuel : nat) (va end_ : Z) (s : vm) : option vm :=
  if negb (va <? end_) then Some s
  else
    match fuel with
    | O => None
    | S fuel =>
        let phys := paging_get_phys va s in
        match (if phys =? 0 then Some s
               else match paging_map_page va 0 0 s with
                    | None => None
                    | Some s => Some (free_at (Z.land phys (not64 0xfff)) s)
                    end) with
        | None => None
        | Some s => munmap_loop fuel (u64 (va + PAGE_SIZE)) end_ s
        end
    end.
Definition syscall_munmap_pages (addr len : Z) (s : vm) : option vm :=
  munmap_loop (S (Z.to_nat (len / PAGE_SIZE))) addr (u64 (addr + len)) s.

(** ** Paths *)

(** [while (user_src[i] && i < PATH_MAX_LOCAL - 1)]: the byte after a full buffer is read too. *)
Fixpoint copy_path_loop (n : nat) (src : Z) : M (list Z) :=
  b ← user_get src;
  match n with
  | O => mret []
  | S n => if b =? 0 then mret [] else p ← copy_path_loop n (u64 (src + 1)); mret (b :: p)
  end.
Definition copy_path_from_user (user_src : Z) : M (list Z) :=
  copy_path_loop (Z.to_nat (PATH_MAX_LOCAL - 1)) user_src.

(** [while (input[i] == '/') i++;] *)
Fixpoint skip_slashes (l : list Z) : list Z :=
  match l with [] => [] | c :: l' => if c =? SLASH then skip_slashes l' else l end.
(** [while (n && out[n - 1] != '/') n--; if (n) n--;], on [out] reversed. *)
Fixpoint drop_last (rout : list Z) : list Z :=
  match rout with [] => [] | c :: r => if c =? SLASH then r else drop_last r end.
Definition path_room (out : list Z) : bool := Z.of_nat (length out) <? PATH_MAX_LOCAL - 1.
(** The bytes of one component after those of [out], and the slash between them. *)
Definition push_component (out comp : list Z) : list Z :=
  let out := match out with [] => out | _ => if path_room out then out ++ [SLASH] else out end in
  firstn (Z.to_nat (PATH_MAX_LOCAL - 1)) (out ++ comp).
(** The loop over [input]; a round uses at least one byte. *)
Fixpoint resolve_loop (fuel : nat) (out input : list Z) : list Z :=
  match fuel with
  | O => out
  | S fuel =>
      match input with
      | [] => out
      | _ =>
          let input := skip_slashes input in
          let comp := component input in
          let rest := skipn (length comp) input in
          resolve_loop fuel
            (if bool_decide (comp = []) || bool_decide (comp = [DOT]) then out
             else if bool_decide (comp = [DOT; DOT]) then rev (drop_last (rev out))
             else push_component out comp) rest
      end
  end.
Definition absolute (path : list Z) : bool := match path with c :: _ => c =? SLASH | [] => false end.
Definition resolve_path (input base : list Z) : list Z :=
  let out :=
    if absolute input then []
    else firstn (Z.to_nat (PATH_MAX_LOCAL - 1)) (if absolute base then tail base else base) in
  resolve_loop (length input) out input.

Definition current_cwd : M (list Z) := gets (fun s => process_current_cwd (sy s)).
Definition resolve_user_path (user_path : Z) : M (list Z) :=
  input ← copy_path_from_user user_path;
  cwd ← current_cwd;
  mret (resolve_path input cwd).

(** ** File descriptors *)

(** The C lookups, and [*entry]; [(int)fd - 3] wraps at 32 bits. *)
Definition fd_index (fd : Z) : Z := i32 (i32 fd - 3).
Definition fd_get (fd : Z) : M (option fdref) := c ← me; gets (fun s => process_fd_get c (fd_index fd) (sy s)).
Definition stdio_get (fd : Z) : M (option fdref) :=
  gets (fun s => match current (sy s) with Some c => process_stdio_get c fd (sy s) | None => None end).
Definition get_entry (r : fdref) : M fd_entry := c ← me; gets (fun s => fde_at (sy s) c r).
(** Stores to fields of [*entry]. *)
Definition upd_entry (r : fdref) (f : fd_entry -> fd_entry) : M unit :=
  c ← me; on_sy (upd c (fun p => set_fde r (f (fde p r)) p)).
Definition set_pos (v : Z) (f : fd_entry) : fd_entry :=
  FdEntry (fd_used f) (fd_data f) (fd_size f) v (fd_is_dir f) (fd_dynfile f) (fd_pipe f) (fd_pipe_write f) (fd_path f).
Definition fd_alloc : M Z :=
  c ← me; run_sy (fun k => Some (process_fd_alloc c k)).
(** The fields the opening calls store. *)
Definition open_entry (data_ size_ pos : Z) (is_dir : bool) (dyn : option Z) (f : fd_entry) : fd_entry :=
  FdEntry (fd_used f) data_ size_ pos is_dir dyn (fd_pipe f) (fd_pipe_write f) (fd_path f).
Definition set_path (p : list Z) (f : fd_entry) : fd_entry :=
  FdEntry (fd_used f) (fd_data f) (fd_size f) (fd_pos f) (fd_is_dir f) (fd_dynfile f) (fd_pipe f) (fd_pipe_write f) p.

(** A new descriptor filled by [f]; the value of the open call. *)
Definition open_fd_with (f : fd_entry -> fd_entry) : M Z :=
  idx ← fd_alloc;
  if idx <? 0 then mret (- ENOMEM)
  else
    upd_entry (Fd idx) f;;
    mret (idx + 3).

Definition dyn_size (i : Z) : M Z := gets (fun s => size (getfile (fsys s) i)).

Definition openat_core (dirfd user_path flags : Z) : M Z :=
  input ← copy_path_from_user user_path;
  cwd ← current_cwd;
  base ← (if negb (absolute input) && negb (dirfd =? AT_FDCWD) then
            df ← (if 3 <=? dirfd then fd_get dirfd else mret None);
            match df with
            | None => mret None
            | Some r => f ← get_entry r; mret (if fd_is_dir f then Some (fd_path f) else None)
            end
          else mret (Some cwd));
  match base with
  | None => mret (- EBADF)
  | Some base =>
      let path := resolve_path input base in
      is_dir ← (if tst flags O_CREAT then mret false else gets (fun s => ramfs_is_dir path (fsys s)));
      if (is_dir : bool) then open_fd_with (fun f => set_path path (open_entry 0 0 0 true None f))
      else if tst flags O_CREAT then
        dyn ← run_fs (ramfs_dynamic_open_or_create path);
        match dyn with
        | None => mret (- ENOMEM)
        | Some i =>
            (if tst flags O_TRUNC then run_fs (fun k => Some ((), ramfs_dynamic_truncate i k)) else mret ());;
            n ← dyn_size i;
            open_fd_with (open_entry 0 0 (if tst flags O_APPEND then n else 0) false (Some i))
        end
      else
        dyn ← ask_fs (ramfs_dynamic_lookup path);
        match dyn with
        | Some i =>
            n ← dyn_size i;
            open_fd_with (open_entry 0 0 (if tst flags O_APPEND then n else 0) false (Some i))
        | None =>
            file ← ask_fs (ramfs_lookup path);
            match file with
            | None => mret (- ENOENT)
            | Some (_, d, n) => open_fd_with (open_entry d n 0 false None)
            end
        end
  end.
Definition sys_openat (dirfd path flags : Z) : M Z := openat_core (i64 dirfd) path flags.
Definition sys_open (path flags : Z) : M Z := openat_core AT_FDCWD path flags.

Definition sys_close (fd : Z) : M Z :=
  if (fd =? 0) || (fd =? 1) || (fd =? 2) then
    cur ← gets (fun s => current (sy s));
    (match cur with Some c => on_sy (process_stdio_clear c fd) | None => mret () end);;
    mret 0
  else
    r ← fd_get fd;
    match r with
    | None => mret (- EBADF)
    | Some _ => c ← me; on_sy (process_fd_close c (fd_index fd));; mret 0
    end.

(** ** Reading and writing *)

Definition get_pipe (pi : Z) : M pipe := gets (fun s => getpipe (sy s) pi).
Definition upd_pipe (pi : Z) (f : pipe -> pipe) : M unit := on_sy (fun k => set_pipes pi (f (getpipe k pi)) k).
(** [p->data[p->write++ % PIPE_SIZE] = b], and [p->read++]. *)
Definition ring_put (b : Z) (p : pipe) : pipe :=
  Pipe (p_read p) (u32 (p_write p + 1)) (readers p) (writers p) (aset (p_data p) (p_write p mod PIPE_SIZE) b).
Definition ring_take (p : pipe) : pipe :=
  Pipe (u32 (p_read p + 1)) (p_write p) (readers p) (writers p) (p_data p).
Definition pipe_full (pi : Z) (s : kern) : bool :=
  let p := getpipe (sy s) pi in (u32 (p_write p - p_read p) =? PIPE_SIZE) && negb (readers p =? 0).
Definition pipe_empty (pi : Z) (s : kern) : bool :=
  let p := getpipe (sy s) pi in (p_read p =? p_write p) && negb (writers p =? 0).

(** [process_pipe_write]'s loop, [k] bytes left: the value is the final [n]. *)
Fixpoint pipe_write_loop (k : nat) (pi buf n : Z) : M Z :=
  match k with
  | O => mret n
  | S k =>
      p ← get_pipe pi;
      if readers p =? 0 then mret n
      else
        until (fun s => negb (pipe_full pi s));;
        p ← get_pipe pi;
        if readers p =? 0 then mret n
        else
          b ← user_get buf;
          upd_pipe pi (ring_put b);;
          pipe_write_loop k pi (u64 (buf + 1)) (n + 1)
  end.
Definition process_pipe_write (pi buf count : Z) : M Z :=
  n ← pipe_write_loop (Z.to_nat count) pi buf 0;
  mret (pipe_write_result count n).

(** [process_pipe_read]'s loop. *)
Fixpoint pipe_read_loop (k : nat) (pi buf n : Z) : M Z :=
  match k with
  | O => mret n
  | S k =>
      until (fun s => negb (pipe_empty pi s));;
      p ← get_pipe pi;
      if p_read p =? p_write p then mret n
      else
        upd_pipe pi ring_take;;
        user_put buf (aget (p_data p) (p_read p mod PIPE_SIZE));;
        pipe_read_loop k pi (u64 (buf + 1)) (n + 1)
  end.
Definition process_pipe_read (pi buf count : Z) : M Z := pipe_read_loop (Z.to_nat count) pi buf 0.

(** The caller's buffer, for [ramfs_dynamic_write], which reads it after the file has grown: an
    unreadable byte stops the kernel only if the write gets that far. *)
Fixpoint user_bytes (n : nat) (va : Z) (s : vm) : list Z * bool :=
  match n with
  | O => ([], true)
  | S n =>
      let '(l, ok) := user_bytes n (u64 (va + 1)) s in
      match uload va s with Some b => (b :: l, ok) | None => (0 :: l, false) end
  end.
Definition file_write (i pos buf count : Z) : M Z := fun e s =>
  let '(l, ok) := user_bytes (Z.to_nat count) buf (kvm (sy s)) in
  match ramfs_dynamic_write i pos l (lend s) with
  | None => Halted
  | Some (r, k) => if (0 <=? r) && negb ok then Halted else Ok r e (give k s)
  end.

Definition write_to_dynfile (r : fdref) (buf count : Z) : M Z :=
  f ← get_entry r;
  match fd_pipe f with
  | Some pi => if fd_pipe_write f then process_pipe_write pi buf count else mret (- EBADF)
  | None =>
      match fd_dynfile f with
      | None => mret (- EBADF)
      | Some i =>
          ret ← file_write i (fd_pos f) buf count;
          if ret <? 0 then mret (- ENOMEM)
          else
            upd_entry r (set_pos (u64 (fd_pos f + count)));;
            mret (i64 count)
      end
  end.

Definition sys_write (fd buf count : Z) : M Z :=
  if fd <=? 2 then
    ov ← stdio_get fd;
    match ov with
    | Some r => write_to_dynfile r buf count
    | None =>
        if fd =? 0 then mret (- EBADF)
        else syscall_write_raw fd buf count;; mret count
    end
  else
    r ← fd_get fd;
    match r with
    | None => mret (- EBADF)
    | Some r => write_to_dynfile r buf count
    end.

(** The loop over the [iovec]s, [n] left: the value is what [sys_ret] gets. *)
Fixpoint writev_loop (n : nat) (fd iov : Z) (r : option fdref) (total : Z) : M Z :=
  match n with
  | O => mret total
  | S n =>
      base ← user_long iov;
      len ← user_long (u64 (iov + 8));
      match r with
      | Some f =>
          ret ← write_to_dynfile f base len;
          if ret <? 0 then mret ret
          else if u64 ret <? len then mret (u64 (total + ret))
          else writev_loop n fd (u64 (iov + 16)) r (u64 (total + ret))
      | None =>
          syscall_write_raw fd base len;;
          writev_loop n fd (u64 (iov + 16)) r (u64 (total + len))
      end
  end.
Definition sys_writev (fd iov iovcnt : Z) : M Z :=
  r ← (if fd <=? 2 then stdio_get fd else fd_get fd);
  if (fd =? 0) || ((2 <? fd) && bool_decide (r = None)) then mret (- EBADF)
  else writev_loop (Z.to_nat iovcnt) fd iov r 0.

(** One byte from the line: the console after it and what is echoed.  [Eof] is [return 0]. *)
Inductive typed := Typed (c : console) (echo : list Z) | Eof.
Definition console_byte (c : Z) (k : console) : typed :=
  if (c =? 8) || (c =? 0x7f) then
    match cline k with
    | [] => Typed k []
    | l => Typed (Console (removelast l) (coffset k) (cready k)) [8; 32; 8]
    end
  else if c =? 4 then
    match cline k with [] => Eof | _ => Typed (Console (cline k) (coffset k) true) [] end
  else
    let c := if c =? 13 then 10 else c in
    if (Z.of_nat (length (cline k)) =? CONSOLE_LINE_SIZE - 1) && negb (c =? 10) then Typed k []
    else Typed (Console (cline k ++ [c]) (coffset k) (cready k || (c =? 10))) [c].

(** The outer loop while the input [l] lasts: [true] for [return 0]. *)
Fixpoint console_drain (l : list Z) : M bool :=
  k ← gets con;
  if cready k then mret false
  else
    match l with
    | [] => mret false
    | c :: l =>
        modify (fun s => set_serial l (tx s) s);;
        match console_byte c k with
        | Eof => mret true
        | Typed k echo => modify (set_con k);; serial_puts echo;; console_drain l
        end
    end.
(** [while (!console_ready)]: drain the input, then let the others run until there is more. *)
Fixpoint console_loop (e : env) (s : kern) : res bool :=
  match console_drain (rx s) e s with
  | Ok eof _ s =>
      if (eof : bool) || cready (con s) then Ok eof e s
      else match e with [] => Blocked s | others :: e => console_loop e (others s) end
  | r => r
  end.
Fixpoint put_bytes (l : list Z) (buf : Z) : M unit :=
  match l with [] => mret () | b :: l => user_put buf b;; put_bytes l (u64 (buf + 1)) end.
Definition console_read (buf count : Z) : M Z :=
  eof ← console_loop;
  if (eof : bool) then mret 0
  else
    k ← gets con;
    let n := Z.min count (Z.of_nat (length (cline k)) - coffset k) in
    ensure_writable buf n;;
    put_bytes (firstn (Z.to_nat n) (skipn (Z.to_nat (coffset k)) (cline k))) buf;;
    modify (set_con (if coffset k + n =? Z.of_nat (length (cline k)) then Console [] 0 false
                     else Console (cline k) (coffset k + n) (cready k)));;
    mret n.

Definition read_from_fd_entry (r : fdref) (buf count : Z) : M Z :=
  f ← get_entry r;
  match fd_pipe f with
  | Some pi =>
      if fd_pipe_write f then mret (u64 (- EBADF))
      else ensure_writable buf count;; process_pipe_read pi buf count
  | None =>
      src ← gets (fun s => match fd_dynfile f with
                           | Some i => (data (getfile (fsys s) i), size (getfile (fsys s) i))
                           | None => (fd_data f, fd_size f)
                           end);
      if snd src <=? fd_pos f then mret 0
      else
        let n := Z.min count (snd src - fd_pos f) in
        ensure_writable buf n;;
        on_vm (ucopy (Z.to_nat n) buf (fst src + fd_pos f));;
        upd_entry r (set_pos (u64 (fd_pos f + n)));;
        mret n
  end.

Definition sys_pipe2 (user_fds flags : Z) : M Z :=
  if negb (flags =? 0) then mret (- EINVAL)
  else
    c ← me;
    fds ← run_sy (fun k => Some (process_pipe_create c k));
    match fds with
    | None => mret (- EINVAL)
    | Some (rd, wr) =>
        ensure_writable user_fds 8;;
        user_put_word 4 user_fds rd;;
        user_put_word 4 (u64 (user_fds + 4)) wr;;
        mret 0
    end.

Definition sys_read (fd buf count : Z) : M Z :=
  if fd =? 0 then
    if count =? 0 then mret 0
    else
      ov ← stdio_get 0;
      match ov with Some r => read_from_fd_entry r buf count | None => console_read buf count end
  else if (fd =? 1) || (fd =? 2) then mret (- EBADF)
  else
    r ← fd_get fd;
    match r with None => mret (- EBADF) | Some r => read_from_fd_entry r buf count end.

Fixpoint readv_loop (n : nat) (r : fdref) (iov total : Z) : M Z :=
  match n with
  | O => mret total
  | S n =>
      base ← user_long iov;
      len ← user_long (u64 (iov + 8));
      got ← read_from_fd_entry r base len;
      len ← user_long (u64 (iov + 8));
      if got <? len then mret (u64 (total + got))
      else readv_loop n r (u64 (iov + 16)) (u64 (total + got))
  end.
Definition sys_readv (fd iov iovcnt : Z) : M Z :=
  r ← (if fd =? 0 then stdio_get 0 else if 3 <=? fd then fd_get fd else mret None);
  match r with None => mret (- EBADF) | Some r => readv_loop (Z.to_nat iovcnt) r iov 0 end.

Definition sys_lseek (fd offset whence : Z) : M Z :=
  r ← (if 3 <=? fd then fd_get fd else mret None);
  match r with
  | None => mret (- EBADF)
  | Some r =>
      f ← get_entry r;
      size_ ← (match fd_dynfile f with Some i => dyn_size i | None => mret (fd_size f) end);
      let new_pos :=
        if whence =? SEEK_SET then Some (i64 offset)
        else if whence =? SEEK_CUR then Some (i64 (fd_pos f + offset))
        else if whence =? SEEK_END then Some (i64 (size_ + offset))
        else None in
      match new_pos with
      | None => mret (- EINVAL)
      | Some p => if p <? 0 then mret (- EINVAL) else upd_entry r (set_pos p);; mret p
      end
  end.

(** ** Duplicating descriptors *)

Definition dup_into (oldfd newfd : Z) : M Z :=
  src ← (if oldfd <=? 2 then stdio_get oldfd else fd_get oldfd);
  match src with
  | None => mret (- EBADF)
  | Some src =>
      c ← me;
      if newfd <=? 2 then on_sy (process_stdio_set c newfd src);; mret newfd
      else if MAX_FDS <=? fd_index newfd then mret (- EBADF)
      else on_sy (process_fd_set c (fd_index newfd) src);; mret newfd
  end.
Definition sys_dup3 (oldfd newfd : Z) : M Z :=
  if oldfd =? newfd then mret (- EINVAL) else dup_into oldfd newfd.
Definition sys_dup2 (oldfd newfd : Z) : M Z :=
  if oldfd =? newfd then
    if oldfd <=? 2 then mret oldfd
    else r ← fd_get oldfd; mret (match r with Some _ => oldfd | None => - EBADF end)
  else dup_into oldfd newfd.
Definition sys_fcntl (fd cmd : Z) : M Z :=
  if (cmd =? F_DUPFD) || (cmd =? F_DUPFD_CLOEXEC) then
    if fd <? 3 then mret fd
    else
      old ← fd_get fd;
      match old with
      | None => mret (- EBADF)
      | Some old =>
          idx ← fd_alloc;
          if idx <? 0 then mret (- ENOMEM)
          else
            c ← me;
            on_sy (fd_entry_copy c (Fd idx) c old);;
            mret (idx + 3)
      end
  else if (cmd =? F_GETFD) || (cmd =? F_SETFD) || (cmd =? F_SETFL) then mret 0
  else if cmd =? F_GETFL then mret 0
  else mret (- ENOSYS).

(** ** Names *)

Definition is_dir (path : list Z) : M bool := gets (fun s => ramfs_is_dir path (fsys s)).
Definition sys_mkdirat (path : Z) : M Z :=
  path ← resolve_user_path path;
  d ← is_dir path;
  mret (if bool_decide (path <> []) || d then 0 else - EINVAL).
Definition sys_utimensat (path : Z) : M Z :=
  path ← resolve_user_path path;
  d ← is_dir path;
  if d : bool then mret 0
  else
    dyn ← ask_fs (ramfs_dynamic_lookup path);
    match dyn with
    | Some _ => mret 0
    | None =>
        i ← run_fs (ramfs_dynamic_open_or_create path);
        mret (match i with Some _ => 0 | None => - ENOMEM end)
    end.
Definition sys_umask (v : Z) : M Z :=
  old ← gets umask_mask;
  modify (set_umask (Z.land (u32 v) 511));;
  mret old.
Definition unlink_user_path (path : Z) : M Z :=
  path ← resolve_user_path path;
  run_fs (fun k => match ramfs_dynamic_unlink path k with Some k => Some ((), k) | None => None end);;
  mret 0.
Definition sys_renameat2 (old_path new_path flags : Z) : M Z :=
  if negb (flags =? 0) then mret (- EINVAL)
  else
    old_path ← resolve_user_path old_path;
    new_path ← resolve_user_path new_path;
    r ← run_fs (ramfs_dynamic_rename old_path new_path);
    mret (if negb (r =? 0) then - ENOENT else 0).
Definition access_user_path (path : Z) : M Z :=
  path ← resolve_user_path path;
  d ← is_dir path;
  if d : bool then mret 0
  else
    dyn ← ask_fs (ramfs_dynamic_lookup path);
    match dyn with
    | Some _ => mret 0
    | None =>
        file ← ask_fs (ramfs_lookup path);
        mret (match file with Some _ => 0 | None => - ENOENT end)
    end.
Definition sys_getcwd (buf size_ : Z) : M Z :=
  cwd ← current_cwd;
  let len := Z.of_nat (length cwd) in
  if size_ <=? len then mret (- EINVAL)
  else
    ensure_writable buf (len + 1);;
    put_bytes (cwd ++ [0]) buf;;
    mret (len + 1).
Definition sys_chdir (path : Z) : M Z :=
  path ← resolve_user_path path;
  d ← is_dir path;
  if negb d then mret (- ENOENT)
  else
    on_sy (process_set_current_cwd (firstn (Z.to_nat (PATH_MAX_LOCAL - 1)) (SLASH :: path)));;
    mret 0.

(** [stat_lookup]: the mode and size it fills in; [None] is -ENOENT. *)
Definition S_IFDIR : Z := 16384.
Definition S_IFREG : Z := 32768.
Definition stat_lookup (path : list Z) : M (option (Z * Z)) :=
  d ← is_dir path;
  if d : bool then mret (Some (Z.lor S_IFDIR 493, 0))
  else
    dyn ← ask_fs (ramfs_dynamic_lookup path);
    match dyn with
    | Some i => n ← dyn_size i; mret (Some (Z.lor S_IFREG 493, n))
    | None =>
        file ← ask_fs (ramfs_lookup path);
        mret (match file with Some (_, _, n) => Some (Z.lor S_IFREG 493, n) | None => None end)
    end.
Definition fill_stat (sb mode size_ : Z) : M unit :=
  put_bytes (repeat 0 128) sb;;
  user_put_word 8 sb 1;;
  user_put_word 8 (u64 (sb + 8)) 1;;
  user_put_word 4 (u64 (sb + 16)) mode;;
  user_put_word 4 (u64 (sb + 20)) 1;;
  user_put_word 8 (u64 (sb + 48)) size_;;
  user_put_word 8 (u64 (sb + 56)) 512.
Definition sys_newfstatat (path sb : Z) : M Z :=
  path ← resolve_user_path path;
  ensure_writable sb 128;;
  st ← stat_lookup path;
  match st with
  | None => mret (- ENOENT)
  | Some (mode, n) => fill_stat sb mode n;; mret 0
  end.

(** ** Directory entries *)

Definition DT_DIR : Z := 4.
Definition DT_REG : Z := 8.
Definition DT_LNK : Z := 10.
Definition reclen (name_ : list Z) : Z := Z.land (19 + Z.of_nat (length name_) + 1 + 7) (not64 7).
(** The bytes of one record. *)
Definition dirent64 (ino : Z) (name_ : list Z) (d_type : Z) : list Z :=
  map (fun k => u8 (Z.shiftr ino (8 * k))) (seqZ 0 8) ++ repeat 0 8 ++
  [u8 (reclen name_); u8 (Z.shiftr (reclen name_) 8); d_type] ++ name_ ++
  repeat 0 (Z.to_nat (reclen name_ - 19 - Z.of_nat (length name_))).
Definition fill_dirent64 (buf ino : Z) (name_ : list Z) (d_type : Z) : M Z :=
  put_bytes (dirent64 ino name_ d_type) buf;; mret (reclen name_).

(** The entry at a position: ".", "..", then the children. *)
Definition dirent_at (path : list Z) (pos : Z) : M (option (list Z * Z)) :=
  if pos =? 0 then mret (Some ([DOT], DT_DIR))
  else if pos =? 1 then mret (Some ([DOT; DOT], DT_DIR))
  else
    e ← run_fs (fun k => Some (ramfs_dir_entry path (u32 (pos - 2)) PATH_MAX_LOCAL k));
    mret (match e with
          | None => None
          | Some d => Some (d_name d, if d_directory d then DT_DIR else if d_symlink d then DT_LNK else DT_REG)
          end).
(** At most ".", "..", the cached children and the end: the rounds of [while (1)]. *)
Fixpoint getdents_loop (fuel : nat) (r : fdref) (buf count written : Z) : M Z :=
  match fuel with
  | O => halt
  | S fuel =>
      f ← get_entry r;
      d ← dirent_at (fd_path f) (fd_pos f);
      match d with
      | None => mret written
      | Some (name_, d_type) =>
          if count <? u64 (written + reclen name_) then mret written
          else
            ensure_writable (u64 (buf + written)) (reclen name_);;
            n ← fill_dirent64 (u64 (buf + written)) (u64 (fd_pos f + 1)) name_ d_type;
            upd_entry r (set_pos (u64 (fd_pos f + 1)));;
            getdents_loop fuel r buf count (u64 (written + n))
      end
  end.
Definition sys_getdents64 (fd buf count : Z) : M Z :=
  r ← (if 3 <=? fd then fd_get fd else mret None);
  match r with
  | None => mret (- EBADF)
  | Some r =>
      f ← get_entry r;
      if negb (fd_is_dir f) then mret (- ENOTDIR)
      else getdents_loop (Z.to_nat (DIR_CACHE_ENTRIES + 3)) r buf count 0
  end.

(** ** Memory *)

Section root.
Context (RT : Z).

Definition get_brk_current : M Z :=
  gets (fun s => if process_mode (sy s) then process_current_brk (sy s) else brk_current s).
Definition set_brk_current (v : Z) : M unit := fun e s =>
  if process_mode (sy s) then on_sy (process_set_current_brk v) e s else modify (set_brk_static v) e s.
Definition take_mmap_addr (len : Z) : M Z := fun e s =>
  if process_mode (sy s) then (c ← me; run_sy (fun k => Some (process_take_mmap c len k))) e s
  else Ok (next_mmap_addr s) e (set_mmap_static (u64 (next_mmap_addr s + len)) s).

Definition sys_brk (requested : Z) : M Z :=
  cur ← get_brk_current;
  let cur := if cur =? 0 then BRK_BASE else cur in
  if requested =? 0 then mret cur
  else
    ok ← (if cur <? requested then
            run_vm (syscall_grow_pages (syscall_page_round_up cur) (syscall_page_round_up requested))
          else mret true);
    if negb ok then mret cur
    else set_brk_current requested;; mret requested.

Definition sys_mmap (addr length_ prot flags : Z) : M Z :=
  if length_ =? 0 then mret (- EINVAL)
  else
    let len := syscall_page_round_up length_ in
    if tst flags MAP_FIXED && (prot =? PROT_NONE) then mret addr
    else
      base ← (if tst flags MAP_FIXED then mret addr else take_mmap_addr len);
      ok ← run_vm (syscall_grow_pages base (u64 (base + len)));
      if negb ok then mret (- ENOMEM)
      else
        (if tst flags MAP_FIXED then on_sy (process_note_mmap_end (u64 (base + len))) else mret ());;
        mret base.
Definition sys_munmap (addr len : Z) : M Z :=
  on_vm (syscall_munmap_pages addr (syscall_page_round_up len));;
  mret 0.
Fixpoint move_loop (n : nat) (dst src : Z) : M unit :=
  match n with
  | O => mret ()
  | S n => b ← user_get src; user_put dst b;; move_loop n (u64 (dst + 1)) (u64 (src + 1))
  end.
Definition sys_mremap (old_addr old_len new_len flags : Z) : M Z :=
  let old_len := syscall_page_round_up old_len in
  let new_len := syscall_page_round_up new_len in
  if new_len =? 0 then mret (- EINVAL)
  else if new_len <=? old_len then
    on_vm (syscall_munmap_pages (u64 (old_addr + new_len)) (old_len - new_len));;
    mret old_addr
  else if negb (tst flags MREMAP_MAYMOVE) then mret (- ENOMEM)
  else
    base ← take_mmap_addr new_len;
    ok ← run_vm (syscall_grow_pages base (u64 (base + new_len)));
    if negb ok then mret (- ENOMEM)
    else
      move_loop (Z.to_nat old_len) base old_addr;;
      on_vm (syscall_munmap_pages old_addr old_len);;
      mret base.

(** ** Processes *)

Definition current_tid : M Z := gets (fun s => let p := process_current_pid (sy s) in if p =? 0 then 1 else p).
Definition sys_getpid : M Z := gets (fun s => process_current_pid (sy s)).
Definition sys_getppid : M Z := gets (fun s => process_current_ppid (sy s)).
Definition sys_sched_yield : M Z := schedule;; mret 0.

Definition sys_nanosleep (req : Z) : M Z :=
  if req =? 0 then mret (- EINVAL)
  else
    nsec ← user_long (u64 (req + 8));
    if 1000000000 <=? nsec then mret (- EINVAL)
    else
      sec ← user_long req;
      let delay := u64 (u64 (sec * ARCH_CLOCK_HZ) + nsec / (1000000000 / ARCH_CLOCK_HZ)) in
      start ← gets ticks;
      until (fun s => negb (u64 (ticks s - start) <? delay));;
      mret 0.

Definition CLONE_FORK_FLAGS : Z := 0x11.
Definition sys_fork : M Z :=
  c ← me;
  pid ← run_sy (process_fork RT c);
  mret (if pid <? 0 then - ENOMEM else pid).
Definition sys_clone (flags child_stack : Z) : M Z :=
  if negb (flags =? CLONE_FORK_FLAGS) || negb (child_stack =? 0) then mret (- ENOSYS) else sys_fork.

(** [process_wait4]'s outer loop. *)
Fixpoint wait_loop (c pid options : Z) (e : env) (s : kern) : res (Z * option Z) :=
  match process_wait4_run RT c pid options (sy s) with
  | (Waited ret st, k) => Ok (ret, st) e (set_sy k s)
  | (WaitYield, k) =>
      match e with [] => Blocked (set_sy k s) | others :: e => wait_loop c pid options e (others (set_sy k s)) end
  end.
Definition sys_wait4 (pid status options : Z) : M Z :=
  (if status =? 0 then mret () else ensure_writable status 4);;
  c ← me;
  '(ret, st) ← wait_loop c (i32 pid) (i32 options);
  (match st with
   | Some v => if status =? 0 then mret () else user_put_word 4 status v
   | None => mret ()
   end);;
  mret ret.

(** [process_exit_current] does not return: another process runs on, or the table has drained. *)
Definition sys_exit_group {A} (code : Z) : M A := fun e s =>
  if process_mode (sy s) then
    match current (sy s) with
    | None => Halted
    | Some c =>
        match process_exit_current c (i32 code) (sy s) with
        | Some k => Exited (set_sy k s)
        | None => Halted
        end
    end
  else Halted.

(** The pointers of [user_argv], and a string as [process_execve] reads it: up to 256 bytes. *)
Fixpoint user_argv (n : nat) (va : Z) : M (list Z) :=
  match n with
  | O => mret []
  | S n =>
      p ← user_long va;
      if p =? 0 then mret []
      else l ← user_argv n (u64 (va + 8)); mret (p :: l)
  end.
Fixpoint user_string (n : nat) (va : Z) : M (list Z) :=
  match n with
  | O => mret []
  | S n => b ← user_get va; if b =? 0 then mret [] else l ← user_string n (u64 (va + 1)); mret (b :: l)
  end.
(** Up to the first string that is too long, where [process_execve] gives up. *)
Fixpoint user_strings (ptrs : list Z) : M (list (list Z)) :=
  match ptrs with
  | [] => mret []
  | p :: ptrs =>
      a ← user_string (Z.to_nat EXECVE_ARG_MAX) p;
      if EXECVE_ARG_MAX - 1 <? Z.of_nat (length a) then mret [a]
      else l ← user_strings ptrs; mret (a :: l)
  end.
(** [None]: success, and nothing is returned. *)
Definition sys_execve (path argv : Z) : M (option Z) :=
  path ← resolve_user_path path;
  ptrs ← (if argv =? 0 then mret [] else user_argv (Z.to_nat PROCESS_EXEC_MAX_ARGS) argv);
  file ← ask_fs (exec_file path);
  match file with
  | None => mret (Some (- ENOENT))
  | Some _ =>
      argv ← user_strings ptrs;
      c ← me;
      fs ← gets lend;
      r ← run_sy (process_execve RT c path argv fs);
      mret (if r <? 0 then Some (- ENOENT) else None)
  end.

(** ** riscv64_syscall.c *)

(** The fetch device of the emulator: for a URL, the state it ends in (2 is done) and the bytes it
    leaves in the buffer. *)
Context (fetch : list Z -> Z * list Z).

Definition sys_ouro_fetch (url path : Z) : M Z :=
  path ← resolve_user_path path;
  u ← user_string 1024 url;
  if bool_decide (u = []) || (Z.of_nat (length u) =? 1024) then mret (- EINVAL)
  else
    let '(state_, body) := fetch u in
    if negb (state_ =? 2) then mret (- EIO)
    else
      on_sy (fun k => set_kvm (set_vmem (aputs body RV64_FETCH_BUFFER (vmem (kvm k))) (kvm k)) k);;
      f ← run_fs (ramfs_dynamic_open_or_create path);
      match f with
      | None => mret (- ENOMEM)
      | Some i =>
          run_fs (fun k => Some ((), ramfs_dynamic_truncate i k));;
          failed ← run_fs (ramfs_dynamic_write i 0 body);
          mret (if negb (failed =? 0) then - ENOMEM else Z.of_nat (length body))
      end.

Definition sys_arg (n : Z) : M Z :=
  gets (fun s => if (0 <=? n) && (n <=? 5) then u64 (nth (R_A0 + Z.to_nat n) (live (sy s)) 0) else 0).
Definition R_A7 : nat := 16.

(** The value a system call returns; [None] if it returns none.  A bare [SYS_exit] halts: only the
    boot code of the tests registers a hook for it. *)
Definition syscall_value (a7 a0 a1 a2 a3 a4 : Z) : M (option Z) :=
  let some (m : M Z) : M (option Z) := v ← m; mret (Some v) in
  if a7 =? 64 then some (sys_write a0 a1 a2)
  else if a7 =? 66 then some (sys_writev a0 a1 a2)
  else if a7 =? 93 then halt
  else if a7 =? 94 then sys_exit_group a0
  else if a7 =? 214 then some (sys_brk a0)
  else if a7 =? 216 then some (sys_mremap a0 a1 a2 a3)
  else if a7 =? 222 then some (sys_mmap a0 a1 a2 a3)
  else if a7 =? 215 then some (sys_munmap a0 a1)
  else if a7 =? 29 then mret (Some (syscall_ioctl_check a0 a1))
  else if a7 =? 124 then some sys_sched_yield
  else if a7 =? 101 then some (sys_nanosleep a0)
  else if (a7 =? 96) || (a7 =? 178) then some current_tid
  else if a7 =? 220 then some (sys_clone a0 a1)
  else if a7 =? 260 then some (sys_wait4 a0 a1 a2)
  else if (a7 =? 135) || (a7 =? 134) then mret (Some 0)
  else if a7 =? 56 then some (sys_openat a0 a1 a2)
  else if a7 =? 57 then some (sys_close a0)
  else if a7 =? 63 then some (sys_read a0 a1 a2)
  else if a7 =? 65 then some (sys_readv a0 a1 a2)
  else if a7 =? 59 then some (sys_pipe2 a0 a1)
  else if a7 =? 221 then sys_execve a0 a1
  else if a7 =? 17 then some (sys_getcwd a0 a1)
  else if a7 =? 49 then some (sys_chdir a0)
  else if a7 =? 79 then some (sys_newfstatat a1 a2)
  else if a7 =? 173 then some sys_getppid
  else if (a7 =? 174) || (a7 =? 175) || (a7 =? 176) || (a7 =? 177) then mret (Some 0)
  else if a7 =? 172 then some sys_getpid
  else if a7 =? 25 then some (sys_fcntl a0 a1)
  else if a7 =? 61 then some (sys_getdents64 a0 a1 a2)
  else if a7 =? 62 then some (sys_lseek a0 a1 a2)
  else if a7 =? 35 then some (unlink_user_path a1)
  else if a7 =? 34 then some (sys_mkdirat a1)
  else if (a7 =? 53) || (a7 =? 54) then mret (Some 0)
  else if a7 =? 88 then some (sys_utimensat a1)
  else if a7 =? 276 then some (sys_renameat2 a1 a3 a4)
  else if a7 =? 166 then some (sys_umask a0)
  else if a7 =? 24 then some (sys_dup3 a0 a1)
  else if a7 =? 48 then some (access_user_path a1)
  else if a7 =? 1000 then some (sys_ouro_fetch a0 a1)
  else mret (Some (- ENOSYS)).
Definition syscall_dispatch : M unit :=
  a7 ← gets (fun s => nth R_A7 (live (sy s)) 0);
  a0 ← sys_arg 0;
  a1 ← sys_arg 1;
  a2 ← sys_arg 2;
  a3 ← sys_arg 3;
  a4 ← sys_arg 4;
  v ← syscall_value a7 a0 a1 a2 a3 a4;
  match v with Some v => on_sy (sys_ret v) | None => mret () end.
End root.
