(* ===== verification/SyscallInv.v ===== *)
(** Every system call keeps the invariants of the kernel: of the process table and the descriptors
    (ProcessInv.v), of the file system's name table (RamfsInv.v) and of the console.

    The proofs are compositional: [safe c m Q] is a partial-correctness triple of the monad [M], with
    a rule per construct, the lemmas about the operations in the hint database [safe], and the tactic
    of the same name. *)
From S2P Require Import Prelude Pmm Paging Ramfs Elf Process ProcessExec ProcessSys ProcessPipe ProcessFds ProcessInv ProcessSafe RamfsInv RamfsData Syscall.

#[local] Opaque ENTRIES zero_table.

(** ** Paging operations keep the address space in force *)

Definition keeps_root {A} (f : vm -> option (A * vm)) : Prop :=
  forall v a v', f v = Some (a, v') -> active_root v' = active_root v.
Definition keeps_root1 (f : vm -> option vm) : Prop := forall v v', f v = Some v' -> active_root v' = active_root v.

Lemma fix_cow_page_root page v b v' : fix_cow_page page v = Some (b, v') -> active_root v' = active_root v.
Proof.
  unfold fix_cow_page. destruct (pmm_alloc_page (vpmm v)) as [phys p]. case_match; [by intros [_ ->]%some_pair|].
  destruct (paging_map_page page phys _ _) as [v1|] eqn:E; [|done]. apply map_page_root in E.
  by intros [_ ->]%some_pair.
Qed.
Lemma ensure_loop_root fuel page end_ v v' : ensure_loop fuel page end_ v = Some v' -> active_root v' = active_root v.
Proof.
  revert page v. induction fuel as [|fuel IH]; intros page v; cbn [ensure_loop]; [done|].
  case_match; [by intros [= ->]|]. destruct (tst _ _ && tst _ _); [|apply IH].
  destruct (fix_cow_page page v) as [[b v1]|] eqn:E; [|done]. apply fix_cow_page_root in E.
  intros Hr%IH. congruence.
Qed.
Lemma ensure_writable_root a n : keeps_root1 (paging_ensure_writable a n).
Proof. intros v v'. unfold paging_ensure_writable. case_match; [by intros [= ->]|]. apply ensure_loop_root. Qed.
Lemma grow_loop_root fuel va top : keeps_root (grow_loop fuel va top).
Proof.
  revert va. induction fuel as [|fuel IH]; intros va v b v'; cbn [grow_loop];
    (case_match; [by intros [_ ->]%some_pair|]); [done|].
  destruct (pmm_alloc_page (vpmm v)) as [phys p]. case_match; [by intros [_ ->]%some_pair|].
  destruct (paging_map_page va phys _ _) as [v1|] eqn:E; [|done]. apply map_page_root in E.
  intros Hr%IH. by rewrite Hr, E.
Qed.
Lemma grow_pages_root a b : keeps_root (syscall_grow_pages a b).
Proof. intros v r v'. apply grow_loop_root. Qed.
Lemma munmap_loop_root fuel va end_ : keeps_root1 (munmap_loop fuel va end_).
Proof.
  revert va. induction fuel as [|fuel IH]; intros va v v'; cbn [munmap_loop];
    (case_match; [by intros [= ->]|]); [done|].
  destruct (paging_get_phys va v =? 0); [apply IH|].
  destruct (paging_map_page va 0 0 v) as [v1|] eqn:E; [|done]. apply map_page_root in E.
  intros Hr%IH. rewrite Hr. by rewrite free_at_root.
Qed.
Lemma munmap_pages_root a n : keeps_root1 (syscall_munmap_pages a n).
Proof. intros v v'. apply munmap_loop_root. Qed.
Lemma ustore_keeps va b : keeps_root1 (ustore va b).
Proof. intros v v'. apply ustore_root. Qed.
Lemma ucopy_keeps n d src : keeps_root1 (ucopy n d src).
Proof. intros v v'. apply ucopy_root. Qed.

(** ** The invariant of the kernel and what the other processes keep *)

Record console_ok (k : console) : Prop := {
  con_offset : 0 <= coffset k;
  con_size : (length (cline k) <= 4096)%nat;
  con_open : cready k = false -> coffset k = 0 /\ (length (cline k) <= 4095)%nat /\ 10 ∉ cline k;
  con_done : cready k = true -> coffset k < Z.of_nat (length (cline k))
}.
(** [c] is the process that runs. *)
Record kern_ok (c : Z) (s : kern) : Prop := {
  ok_sys : sys_ok (sy s);
  ok_cur : current (sy s) = Some c;
  ok_fs : fs_ok (fsys s);
  ok_con : console_ok (con s)
}.
(** While [c] is suspended, the others keep the invariant, and [c] runs again. *)
Definition rely (c : Z) (e : env) : Prop := Forall (fun f => forall s, kern_ok c s -> kern_ok c (f s)) e.

Definition safe (c : Z) {A} (m : M A) (Q : A -> Prop) : Prop :=
  forall e s, rely c e -> kern_ok c s ->
    match m e s with
    | Ok a e s => Q a /\ rely c e /\ kern_ok c s
    | Blocked s => kern_ok c s
    | Exited s => exists d, kern_ok d s
    | Halted => True
    end.
Definition any {A} (a : A) : Prop := True.

Create HintDb safe discriminated.
#[global] Hint Constants Opaque : safe.

Section rules.
Context (c : Z).

Lemma safe_ret {A} (a : A) (Q : A -> Prop) : Q a -> safe c (mret a) Q.
Proof. intros H e s He Hs. done. Qed.
Lemma safe_ret_any {A} (a : A) : safe c (mret a) any.
Proof. done. Qed.
Lemma safe_bind {A B} (m : M A) (k : A -> M B) (P : A -> Prop) (Q : B -> Prop) :
  safe c m P -> (forall a, P a -> safe c (k a) Q) -> safe c (m ≫= k) Q.
Proof.
  intros Hm Hk e s He Hs. specialize (Hm e s He Hs). unfold mbind, M_bind.
  destruct (m e s) as [a e' s'| | |]; [|done..]. destruct Hm as (Ha & He' & Hs'). by apply (Hk a Ha).
Qed.
Lemma safe_weaken {A} (m : M A) (P Q : A -> Prop) : safe c m P -> (forall a, P a -> Q a) -> safe c m Q.
Proof. intros Hm Hw e s He Hs. specialize (Hm e s He Hs). destruct (m e s); [|done..]. naive_solver. Qed.
Lemma safe_any {A} (m : M A) (P : A -> Prop) : safe c m P -> safe c m any.
Proof. intros Hm. by eapply safe_weaken. Qed.
Lemma safe_halt {A} (Q : A -> Prop) : safe c halt Q.
Proof. done. Qed.
Lemma safe_gets {A} (f : kern -> A) (Q : A -> Prop) : (forall s, kern_ok c s -> Q (f s)) -> safe c (gets f) Q.
Proof. intros H e s He Hs. split; [by apply H|done]. Qed.
Lemma safe_gets_any {A} (f : kern -> A) : safe c (gets f) any.
Proof. by apply safe_gets. Qed.
Lemma safe_modify (f : kern -> kern) : (forall s, kern_ok c s -> kern_ok c (f s)) -> safe c (modify f) any.
Proof. intros H e s He Hs. split; [done|]. split; [done|]. by apply H. Qed.
Lemma safe_me : safe c me (fun a => a = c).
Proof. intros e s He Hs. unfold me. by rewrite (ok_cur _ _ Hs). Qed.

(** Operations of one layer. *)
Lemma set_sy_ok k s : kern_ok c s -> sys_ok k -> current k = Some c -> kern_ok c (set_sy k s).
Proof. intros [A1 A2 A3 A4] Hk Hc. by split. Qed.
Lemma safe_on_sy f : (forall k, sys_ok k -> current k = Some c -> sys_ok (f k) /\ current (f k) = Some c) ->
  safe c (on_sy f) any.
Proof. intros H. apply safe_modify. intros s Hs. destruct (H (sy s)) as [? ?]; [apply Hs..|]. by apply set_sy_ok. Qed.
Lemma safe_run_sy {A} (f : ksys -> option (A * ksys)) (Q : A -> Prop) :
  (forall k a k', sys_ok k -> current k = Some c -> f k = Some (a, k') -> Q a /\ sys_ok k' /\ current k' = Some c) ->
  safe c (run_sy f) Q.
Proof.
  intros H e s He Hs. unfold run_sy. destruct (f (sy s)) as [[a k']|] eqn:E; [|done].
  destruct (H _ _ _ (ok_sys _ _ Hs) (ok_cur _ _ Hs) E) as (? & ? & ?). split; [done|]. split; [done|]. by apply set_sy_ok.
Qed.
Lemma safe_run_vm {A} (f : vm -> option (A * vm)) : keeps_root f -> safe c (run_vm f) any.
Proof.
  intros H. apply safe_run_sy. intros k a k' Ho Hc. destruct (f (kvm k)) as [[b v]|] eqn:E; [|done].
  intros [_ ->]%some_pair. split; [done|]. split; [|done]. apply sys_ok_set_kvm; [done|]. by eapply H.
Qed.
Lemma safe_on_vm f : keeps_root1 f -> safe c (on_vm f) any.
Proof.
  intros H. apply safe_run_vm. intros v a v'. destruct (f v) as [w|] eqn:E; [|done].
  intros [_ ->]%some_pair. by eapply H.
Qed.
Lemma lend_ok s : kern_ok c s -> fs_ok (lend s).
Proof. intros Hs. apply (fs_ok_ext (fsys s)); try done. apply Hs. Qed.
Lemma give_ok f s : kern_ok c s -> fs_ok f -> kern_ok c (give f s).
Proof. intros [A1 A2 A3 A4] Hf. split; try done. by apply sys_ok_set_kvm. Qed.
Lemma safe_run_fs {A} (f : kfs -> option (A * kfs)) (Q : A -> Prop) :
  (forall k a k', fs_ok k -> f k = Some (a, k') -> Q a /\ fs_ok k') -> safe c (run_fs f) Q.
Proof.
  intros H e s He Hs. unfold run_fs. destruct (f (lend s)) as [[a k']|] eqn:E; [|done].
  destruct (H _ _ _ (lend_ok _ Hs) E). split; [done|]. split; [done|]. by apply give_ok.
Qed.
Lemma safe_ask_fs {A} (f : kfs -> option A) : safe c (ask_fs f) any.
Proof. intros e s He Hs. unfold ask_fs. by destruct (f (lend s)). Qed.

(** Giving up the processor. *)
Lemma safe_schedule : safe c schedule any.
Proof.
  intros [|f e] s He Hs; cbn; [done|]. apply Forall_cons in He as [Hf He]. split; [done|]. split; [done|]. by apply Hf.
Qed.
Lemma until_spec p e s : rely c e -> kern_ok c s ->
  match until p e s with
  | Ok _ e s => p s = true /\ rely c e /\ kern_ok c s
  | Blocked s => kern_ok c s
  | _ => False
  end.
Proof.
  unfold until. revert s. induction e as [|f e IH]; intros s He Hs; cbn [until_loop];
    (destruct (p s) eqn:E; [done|]); [done|].
  apply Forall_cons in He as [Hf He]. apply IH; [done|]. by apply Hf.
Qed.
Lemma safe_until p : safe c (until p) any.
Proof. intros e s He Hs. pose proof (until_spec p e s He Hs) as H. destruct (until p e s); [|done..]. by destruct H as [_ ?]. Qed.
End rules.

#[export] Hint Resolve safe_ret_any safe_me safe_gets_any safe_ask_fs safe_schedule safe_until safe_halt : safe.
#[export] Hint Resolve safe_any : safe.

(** One construct at a time; a lemma of the database closes an operation. *)
Ltac safe_step :=
  match goal with
  | |- safe _ (mret _) _ => apply safe_ret; try done
  | |- safe _ (if ?b then _ else _) _ => destruct b eqn:?
  | |- safe _ (match ?x with _ => _ end) _ => destruct x eqn:?
  | |- safe _ (mbind _ _) _ => eapply safe_bind; [solve [eauto with safe]|intros ? ?; cbv beta in *]
  | |- safe _ (mbind _ (if ?b then _ else _)) _ => destruct b eqn:?
  | |- safe _ (mbind _ (match ?x with _ => _ end)) _ => destruct x eqn:?
  | |- safe _ _ _ => solve [eauto with safe]
  end.
Ltac safe := repeat (safe_step; subst; try done).

(** ** User memory, the serial line, paths *)

Section ops.
Context (c : Z).
Implicit Types Q : Z -> Prop.

Lemma safe_user_get va : safe c (user_get va) any.
Proof. apply safe_run_vm. intros v a v'. destruct (uload va v); [|done]. by intros [_ ->]%some_pair. Qed.
Lemma safe_user_put va b : safe c (user_put va b) any.
Proof. apply safe_on_vm, ustore_keeps. Qed.
Lemma safe_ensure a n : safe c (ensure_writable a n) any.
Proof. apply safe_on_vm, ensure_writable_root. Qed.
Lemma safe_grow a b : safe c (run_vm (syscall_grow_pages a b)) any.
Proof. apply safe_run_vm, grow_pages_root. Qed.
Lemma safe_munmap a n : safe c (on_vm (syscall_munmap_pages a n)) any.
Proof. apply safe_on_vm, munmap_pages_root. Qed.
Lemma safe_ucopy n d src : safe c (on_vm (ucopy n d src)) any.
Proof. apply safe_on_vm, ucopy_keeps. Qed.
#[local] Hint Resolve safe_user_get safe_user_put safe_ensure safe_grow safe_munmap safe_ucopy : safe.

Lemma safe_user_word n va : safe c (user_word n va) any.
Proof. revert va. induction n as [|n IH]; intros va; cbn [user_word]; safe. Qed.
Lemma safe_user_long va : safe c (user_long va) any.
Proof. apply safe_user_word. Qed.
Lemma safe_user_put_word n va v : safe c (user_put_word n va v) any.
Proof. revert va v. induction n as [|n IH]; intros va v; cbn [user_put_word]; safe. Qed.
Lemma safe_put_bytes l buf : safe c (put_bytes l buf) any.
Proof. revert buf. induction l as [|b l IH]; intros buf; cbn [put_bytes]; safe. Qed.
Lemma safe_putc b : safe c (serial_putc b) any.
Proof. apply safe_modify. intros s []. by split. Qed.
#[local] Hint Resolve safe_user_long safe_user_put_word safe_put_bytes safe_putc : safe.
Lemma safe_puts l : safe c (serial_puts l) any.
Proof. induction l as [|b l IH]; cbn [serial_puts]; safe. Qed.
Lemma safe_write_raw fd buf n : safe c (syscall_write_raw fd buf n) any.
Proof.
  unfold syscall_write_raw. safe. generalize (Z.to_nat n). intros k. revert buf.
  induction k as [|k IH]; intros buf; cbn [write_raw_loop]; safe.
Qed.

Definition short (p : list Z) : Prop := (length p <= 127)%nat.
Lemma safe_copy_loop n va : safe c (copy_path_loop n va) (fun p => (length p <= n)%nat).
Proof.
  revert va. induction n as [|n IH]; intros va; cbn [copy_path_loop];
    (eapply safe_bind; [apply safe_user_get|]); intros b _; [apply safe_ret; cbn; lia|].
  destruct (b =? 0); [apply safe_ret; cbn; lia|].
  eapply safe_bind; [apply IH|]. intros p Hp. apply safe_ret. cbn in *. lia.
Qed.
Lemma safe_copy_path va : safe c (copy_path_from_user va) short.
Proof. apply safe_copy_loop. Qed.
End ops.

Lemma drop_last_length r : (length (drop_last r) <= length r)%nat.
Proof. induction r as [|x r IH]; cbn [drop_last length]; [done|]. case_match; lia. Qed.
Lemma push_component_short out comp : short (push_component out comp).
Proof. unfold push_component, short, PATH_MAX_LOCAL. rewrite length_firstn. lia. Qed.
Lemma resolve_loop_short fuel out input : short out -> short (resolve_loop fuel out input).
Proof.
  revert out input. induction fuel as [|fuel IH]; intros out input Ho; cbn [resolve_loop]; [done|].
  destruct input as [|x l]; [done|]. apply IH. case_match; [done|]. case_match; [|apply push_component_short].
  unfold short in *. rewrite length_rev. pose proof (drop_last_length (rev out)). rewrite length_rev in *. lia.
Qed.
Lemma resolve_path_short input base : short (resolve_path input base).
Proof.
  unfold resolve_path. apply resolve_loop_short. case_match; [unfold short; cbn; lia|].
  unfold short, PATH_MAX_LOCAL. rewrite length_firstn. lia.
Qed.
Lemma skip_dots_le p : (length (skip_dots p) <= length p)%nat.
Proof.
  revert p. fix IH 1. intros [|x [|y p]]; cbn [skip_dots]; [done|done|].
  case_match; [|done]. specialize (IH p). cbn [length]. lia.
Qed.
Lemma normalize_short p : short p -> short (normalize_path p).
Proof.
  unfold short, normalize_path. intros H. destruct p as [|x p]; [cbn; lia|].
  pose proof (skip_dots_le p). pose proof (skip_dots_le (x :: p)). cbn [length] in *. case_match; lia.
Qed.

#[export] Hint Resolve safe_user_get safe_user_put safe_ensure safe_grow safe_munmap safe_ucopy safe_user_long
  safe_user_put_word safe_put_bytes safe_putc safe_puts safe_write_raw safe_copy_path : safe.

(** ** The file system *)

Section files.
Context (c : Z).

Lemma safe_resolve va : safe c (resolve_user_path va) short.
Proof. unfold resolve_user_path, current_cwd. safe. apply resolve_path_short. Qed.
Lemma safe_create path : short path -> safe c (run_fs (ramfs_dynamic_open_or_create path)) any.
Proof.
  intros Hp. apply safe_run_fs. intros k a k' Hok E. split; [done|].
  destruct (open_or_create_cases path k Hok (normalize_short _ Hp)) as (r & s' & E' & H & _).
  rewrite E' in E. apply some_pair in E as [_ ->]. done.
Qed.
Lemma safe_unlink path :
  safe c (run_fs (fun k => match ramfs_dynamic_unlink path k with Some k => Some ((), k) | None => None end)) any.
Proof.
  apply safe_run_fs. intros k a k' Hok. destruct (unlink_cases path k Hok) as (s' & -> & H & _).
  by intros [_ ->]%some_pair.
Qed.
(** A slot whose name and use do not change. *)
Lemma set_file_ok i f k : fs_ok k -> used f = used (getfile k i) -> name f = name (getfile k i) -> fs_ok (set_file i f k).
Proof.
  intros [A1 A2 A3 A4 A5] Eu En.
  assert (forall j, used (getfile (set_file i f k) j) = used (getfile k j) /\
                    name (getfile (set_file i f k) j) = name (getfile k j)) as H.
  { intros j. rewrite getfile_set_file. by case_decide; subst. }
  split; try done; unfold slot_used, maps in *.
  - intros j. destruct (H j) as [-> _]. apply A2.
  - intros b Hb. destruct (A3 b Hb) as (l & L1 & L2 & L3). exists l. split; [done|]. split; [done|].
    intros j. unfold slot_used. destruct (H j) as [-> ->]. apply L3.
  - intros n j j'. unfold slot_used. destruct (H j) as [-> ->], (H j') as [-> ->]. apply A4.
  - intros j. destruct (H j) as [-> ->]. apply A5.
Qed.
Lemma safe_truncate i : safe c (run_fs (fun k => Some ((), ramfs_dynamic_truncate i k))) any.
Proof. apply safe_run_fs. intros k a k' Hok [_ ->]%some_pair. split; [done|]. by apply set_file_ok. Qed.
Lemma getfile_free_backing f k i : getfile (free_backing f k) i = getfile k i.
Proof. unfold getfile. by destruct (free_backing_table f k) as (-> & _). Qed.
Lemma write_ok i pos l k r k' : fs_ok k -> ramfs_dynamic_write i pos l k = Some (r, k') -> fs_ok k'.
Proof.
  intros Hok. unfold ramfs_dynamic_write. case_match; [by intros [_ ->]%some_pair|].
  destruct (ramfs_dynamic_grow i _ k) as [[g k1]|] eqn:E; [|done].
  assert (fs_ok k1) as H1.
  { revert E. unfold ramfs_dynamic_grow. case_match; [by intros [_ ->]%some_pair|].
    destruct (double_loop _ _ _) as [n|]; [|done]. destruct (pmm_alloc_contiguous _ _) as [b p].
    case_match; [intros [_ ->]%some_pair; by apply (fs_ok_ext k)|].
    intros [_ ->]%some_pair. apply set_file_ok; [|by rewrite getfile_free_backing..].
    apply free_backing_ok. by apply (fs_ok_ext k). }
  case_match; [by intros [_ ->]%some_pair|]. intros [_ ->]%some_pair.
  set (k2 := if size (getfile k1 i) <? pos then _ else _).
  assert (fs_ok k2) as H2 by (unfold k2; case_match; [by apply (fs_ok_ext k1)|done]).
  assert (getfile k2 i = getfile k1 i) as Hf by (unfold k2; by case_match).
  case_match; [|by apply (fs_ok_ext k2)]. apply set_file_ok; [by apply (fs_ok_ext k2)| |];
    change (getfile (set_kmem ?m k2) i) with (getfile k2 i); by rewrite Hf.
Qed.
Lemma safe_file_write i pos buf n : safe c (file_write i pos buf n) any.
Proof.
  intros e s He Hs. unfold file_write. destruct (user_bytes _ _ _) as [l ok].
  destruct (ramfs_dynamic_write i pos l (lend s)) as [[r k]|] eqn:E; [|done]. destruct (_ && _); [done|].
  split; [done|]. split; [done|]. apply give_ok; [done|]. eapply write_ok; [|done]. by eapply lend_ok.
Qed.
(** Renaming a file to itself breaks the hash chains ([ramfs_rename_self_loses_file]). *)
Lemma rename_ok p q k r k' : fs_ok k -> normalize_path p <> normalize_path q ->
  ramfs_dynamic_rename p q k = Some (r, k') -> fs_ok k'.
Proof.
  intros Hok Hne E. destruct (dynamic_lookup_spec p k Hok) as ([i|] & El & _).
  - destruct (decide (length (normalize_path q) <= 127)%nat) as [Hl|Hl].
    + destruct (rename_spec p q k i Hok Hne Hl El) as (k2 & E2 & H & _). congruence.
    + revert E. unfold ramfs_dynamic_rename. rewrite El.
      replace (127 <? Z.of_nat (length (normalize_path q))) with true by lia. by intros [_ ->]%some_pair.
  - revert E. unfold ramfs_dynamic_rename. rewrite El. by intros [_ ->]%some_pair.
Qed.
Lemma safe_dir_entry path i n : safe c (run_fs (fun k => Some (ramfs_dir_entry path i n k))) any.
Proof.
  apply safe_run_fs. intros k a k' Hok E. split; [done|]. revert E. unfold ramfs_dir_entry.
  set (k1 := if negb (cache_valid k) || negb (streq path (cache_path k)) then _ else k).
  assert (fs_ok k1) as H1 by (unfold k1; case_match; [by apply (fs_ok_ext k)|done]).
  case_match; [by intros [_ ->]%some_pair|]. case_match; by intros [_ ->]%some_pair.
Qed.
End files.
#[export] Hint Resolve safe_resolve safe_create safe_unlink safe_truncate safe_file_write safe_dir_entry : safe.

(** ** Descriptors and pipes *)

Section fds.
Context (c : Z).

Definition known (r : option fdref) : Prop := match r with Some r => r ∈ all_refs | None => True end.
Lemma fd_get_known i k : known (process_fd_get c i k).
Proof.
  unfold process_fd_get, MAX_FDS. case_match eqn:E; [done|]. cbn. apply elem_of_refs.
  destruct (Z.ltb_spec i 0), (Z.leb_spec 32 i); cbn in E; done || lia.
Qed.
Lemma stdio_get_known i k : known (process_stdio_get c i k).
Proof.
  unfold process_stdio_get. case_match eqn:E; [done|]. cbn. apply elem_of_refs.
  destruct (Z.ltb_spec i 0), (Z.ltb_spec 2 i); cbn in E; done || lia.
Qed.
Lemma safe_fd_get fd : safe c (fd_get fd) known.
Proof.
  unfold fd_get. eapply safe_bind; [apply safe_me|]. intros d ->. apply safe_gets. intros s _. apply fd_get_known.
Qed.
Lemma safe_stdio_get fd : safe c (stdio_get fd) known.
Proof.
  apply safe_gets. intros s Hs. rewrite (ok_cur _ _ Hs). apply stdio_get_known.
Qed.
Lemma safe_get_entry r : safe c (get_entry r) any.
Proof. unfold get_entry. safe. Qed.

Lemma cur_facts k : sys_ok k -> current k = Some c -> 0 <= c < 8 /\ state (getp k c) = PROC_RUNNABLE.
Proof.
  intros Ho Hc. destruct (so_current _ Ho c Hc) as (Hr & _). split; [|done]. apply (so_slots _ Ho). congruence.
Qed.
Lemma fd_op_ok k k' : sys_ok k -> current k = Some c -> fd_op c k k' -> sys_ok k' /\ current k' = Some c.
Proof.
  intros Ho Hc Hop. destruct (cur_facts k Ho Hc). split; [by eapply sys_ok_fd_op|].
  by rewrite (ff_current _ _ _ (op_frame _ _ _ Hop)).
Qed.
(** An operation of [c] on its descriptors. *)
Lemma safe_fd_op f : (forall k, fds_ok k -> 0 <= c < 8 -> fd_op c k (f k)) -> safe c (on_sy f) any.
Proof.
  intros H. apply safe_on_sy. intros k Ho Hc. destruct (cur_facts k Ho Hc). apply (fd_op_ok k); try done.
  apply H; [apply Ho|done].
Qed.

Lemma safe_upd_entry r f : (forall x, same_pipe x (f x)) -> r ∈ all_refs -> safe c (upd_entry r f) any.
Proof.
  intros Hf Hr. unfold upd_entry. eapply safe_bind; [apply safe_me|]. intros d ->. apply safe_fd_op.
  intros k Hk Hc. set (g := f (entry k (c, r))). destruct (Hf (entry k (c, r))) as (E1 & E2 & E3). fold g in E1, E2, E3.
  change (upd c _ k) with (put (c, r) g k).
  split; [|apply fd_frame_put|done]. apply (fds_ok_change k _ (c, r) g); try done.
  - apply elem_of_locs. split; [by apply elem_of_slots|done].
  - rewrite entry_put. by rewrite decide_True.
  - intros l Hl. rewrite entry_put. by rewrite decide_False.
  - intros pi w Hpi. unfold put. rewrite getpipe_upd. unfold holds. rewrite E1, E2, E3. lia.
  - rewrite E1, E2. apply (fo_unused _ Hk (c, r)).
  - rewrite E2. apply (fo_pipe _ Hk (c, r)).
Qed.
Lemma safe_set_pos r v : r ∈ all_refs -> safe c (upd_entry r (set_pos v)) any.
Proof. by apply safe_upd_entry. Qed.

Definition new_index (i : Z) : Prop := i < 0 \/ Fd i ∈ all_refs.
Lemma safe_fd_alloc : safe c fd_alloc new_index.
Proof.
  unfold fd_alloc. eapply safe_bind; [apply safe_me|]. intros d ->. apply safe_run_sy.
  intros k a k' Ho Hc [= E]. destruct (cur_facts k Ho Hc) as [Hb _].
  destruct (process_fd_alloc_spec c k a k' E (so_fds _ Ho) Hb) as [Hop H]. split; [|by apply (fd_op_ok k)].
  destruct H as [[-> _]|(Hi & _)]; [left; lia|right]. by apply elem_of_refs.
Qed.
Lemma safe_open_fd f : (forall x, same_pipe x (f x)) -> safe c (open_fd_with f) any.
Proof.
  intros Hf. unfold open_fd_with. eapply safe_bind; [apply safe_fd_alloc|]. intros i Hi.
  destruct (Z.ltb_spec i 0); [by apply safe_ret|]. destruct Hi as [?|Hi]; [lia|].
  eapply safe_bind; [by apply safe_upd_entry|]. intros _ _. by apply safe_ret.
Qed.

(** What a rotation of the ring needs of the pipe. *)
Lemma upd_pipe_ok f pi s : kern_ok c s ->
  (pipe_ok (getpipe (sy s) pi) -> pipe_ok (f (getpipe (sy s) pi))) ->
  readers (f (getpipe (sy s) pi)) = readers (getpipe (sy s) pi) ->
  writers (f (getpipe (sy s) pi)) = writers (getpipe (sy s) pi) ->
  kern_ok c (set_sy (set_pipes pi (f (getpipe (sy s) pi)) (sy s)) s).
Proof.
  intros Hs Hf Er Ew. apply set_sy_ok; [done| |apply Hs].
  apply set_pipes_step; [apply Hs| |done|done]. apply Hf, (so_rings _ (ok_sys _ _ Hs)).
Qed.
Lemma user_get_same va e s : match user_get va e s with
  | Ok _ e' s' => e' = e /\ forall pi, getpipe (sy s') pi = getpipe (sy s) pi
  | Halted => True | _ => False end.
Proof. unfold user_get, run_vm, run_sy. by destruct (uload va (kvm (sy s))). Qed.

Lemma safe_pipe_write_loop k pi buf n : safe c (pipe_write_loop k pi buf n) any.
Proof.
  revert buf n. induction k as [|k IH]; intros buf n; cbn [pipe_write_loop]; [by apply safe_ret|].
  eapply safe_bind; [apply safe_gets_any|]. intros p _. destruct (readers p =? 0); [by apply safe_ret|].
  intros e s He Hs. unfold mbind at 1, M_bind at 1.
  pose proof (until_spec c (fun s => negb (pipe_full pi s)) e s He Hs) as H.
  destruct (until _ e s) as [[] e1 s1| | |]; [|done..]. destruct H as (Hp & He1 & Hs1).
  unfold mbind at 1, M_bind at 1. cbn [get_pipe gets]. set (p1 := getpipe (sy s1) pi).
  destruct (Z.eqb_spec (readers p1) 0) as [Hr|Hr]; [done|].
  assert (u32 (p_write p1 - p_read p1) <> PIPE_SIZE) as Hfull.
  { unfold pipe_full in Hp. fold p1 in Hp. intros E. rewrite E, Z.eqb_refl in Hp.
    destruct (Z.eqb_spec (readers p1) 0); done. }
  unfold mbind at 1, M_bind at 1. pose proof (safe_user_get c buf e1 s1 He1 Hs1) as Hg.
  pose proof (user_get_same buf e1 s1) as Hsame.
  destruct (user_get buf e1 s1) as [b e2 s2| | |]; [|done..].
  destruct Hg as (_ & He2 & Hs2). destruct Hsame as [_ Hsame].
  assert (safe c (pipe_write_loop k pi (u64 (buf + 1)) (n + 1)) any) as Hk by apply IH.
  apply Hk; [done|]. apply (upd_pipe_ok (ring_put b)); try done. rewrite Hsame. fold p1. intros Hok.
  by destruct (pending_put p1 b Hok Hfull).
Qed.
Lemma safe_pipe_read_loop k pi buf n : safe c (pipe_read_loop k pi buf n) any.
Proof.
  revert buf n. induction k as [|k IH]; intros buf n; cbn [pipe_read_loop]; [by apply safe_ret|].
  intros e s He Hs. unfold mbind at 1, M_bind at 1.
  pose proof (until_spec c (fun s => negb (pipe_empty pi s)) e s He Hs) as H.
  destruct (until _ e s) as [[] e1 s1| | |]; [|done..]. destruct H as (_ & He1 & Hs1).
  unfold mbind at 1, M_bind at 1. cbn [get_pipe gets]. set (p1 := getpipe (sy s1) pi).
  destruct (Z.eqb_spec (p_read p1) (p_write p1)) as [Hr|Hr]; [done|].
  assert (safe c (user_put buf (aget (p_data p1) (p_read p1 mod PIPE_SIZE));;
                  pipe_read_loop k pi (u64 (buf + 1)) (n + 1)) any) as Hk by safe.
  apply Hk; [done|]. apply (upd_pipe_ok ring_take); try done. fold p1. intros Hok.
  by destruct (pending_take p1 Hok Hr).
Qed.
End fds.
#[export] Hint Resolve safe_fd_get safe_stdio_get safe_get_entry safe_fd_alloc safe_pipe_write_loop safe_pipe_read_loop : safe.
