(* ===== verification/SyscallSafe.v ===== *)
(** Every system call keeps the invariants of the kernel: the handlers of
    [src/kernel/syscall_posix.c], one by one, and the dispatch of
    [src/kernel/arch/risc/riscv64_syscall.c]. *)
From S2P Require Import Prelude Pmm Paging Ramfs Elf Process ProcessExec ProcessSys ProcessPipe ProcessFds ProcessInv ProcessSafe RamfsInv RamfsData Syscall SyscallInv.

#[local] Opaque ENTRIES zero_table.

(** ** Files *)

Section files.
Context (c : Z).

Lemma safe_pipe_write pi buf n : safe c (process_pipe_write pi buf n) any.
Proof. unfold process_pipe_write. safe. Qed.
Lemma safe_pipe_read pi buf n : safe c (process_pipe_read pi buf n) any.
Proof. unfold process_pipe_read. safe. Qed.
#[local] Hint Resolve safe_pipe_write safe_pipe_read safe_set_pos : safe.

Lemma safe_write_to r buf n : r ∈ all_refs -> safe c (write_to_dynfile r buf n) any.
Proof. intros Hr. unfold write_to_dynfile. safe. Qed.
Lemma safe_read_from r buf n : r ∈ all_refs -> safe c (read_from_fd_entry r buf n) any.
Proof. intros Hr. unfold read_from_fd_entry. safe. Qed.
#[local] Hint Resolve safe_write_to safe_read_from : safe.

Lemma safe_write fd buf n : safe c (sys_write fd buf n) any.
Proof. unfold sys_write. safe. Qed.
Lemma safe_writev_loop n fd iov r total : known r -> safe c (writev_loop n fd iov r total) any.
Proof.
  intros Hr. revert iov total. induction n as [|n IH]; intros iov total; cbn [writev_loop]; [by safe|].
  destruct r as [r|]; safe.
Qed.
#[local] Hint Resolve safe_writev_loop : safe.
Lemma safe_writev fd iov n : safe c (sys_writev fd iov n) any.
Proof.
  unfold sys_writev. safe.
Qed.
Lemma safe_readv_loop n r iov total : r ∈ all_refs -> safe c (readv_loop n r iov total) any.
Proof.
  intros Hr. revert iov total. induction n as [|n IH]; intros iov total; cbn [readv_loop]; safe.
Qed.
#[local] Hint Resolve safe_readv_loop : safe.
Lemma safe_readv fd iov n : safe c (sys_readv fd iov n) any.
Proof. unfold sys_readv. safe. Qed.

(** The console. *)
Lemma console_byte_ok b k : console_ok k -> cready k = false ->
  match console_byte b k with Typed k' _ => console_ok k' | Eof => True end.
Proof.
  intros Hok Hr. pose proof Hok as [A1 A2 A3 A4]. destruct (A3 Hr) as (Ho & Hl & Hn). destruct k as [l o y]. cbn in *. subst o y.
  unfold console_byte. cbn [cline coffset cready]. destruct (_ || (b =? _)).
  { destruct l as [|x l]; [done|]. split; cbn [cline coffset cready]; try done.
    - rewrite removelast_firstn_len, length_firstn. cbn in *. lia.
    - intros _. split; [done|]. rewrite removelast_firstn_len. split; [rewrite length_firstn; cbn in *; lia|].
      intros Hin. apply Hn. rewrite <- (take_drop (pred (length (x :: l))) (x :: l)). apply elem_of_app. by left. }
  destruct (b =? 4); [destruct l as [|x l]; [done|]; split; cbn in *; try done; lia|].
  set (b' := if b =? 13 then 10 else b). unfold CONSOLE_LINE_SIZE.
  destruct (Z.eqb_spec (Z.of_nat (length l)) (4096 - 1)), (Z.eqb_spec b' 10); cbn [negb andb orb]; [|done|..];
    split; cbn [cline coffset cready]; try done; rewrite ?length_app; cbn [length]; try lia.
  intros _. split; [done|]. split; [lia|]. rewrite not_elem_of_app, list_elem_of_singleton. done.
Qed.
Lemma safe_drain l : safe c (console_drain l) any.
Proof.
  induction l as [|b l IH]; cbn [console_drain].
  - intros e s He Hs. unfold mbind, M_bind. cbn [gets]. by destruct (cready (con s)).
  - intros e s He Hs. unfold mbind at 1, M_bind at 1. cbn [gets].
    destruct (cready (con s)) eqn:Hr; [done|].
    pose proof (console_byte_ok b (con s) (ok_con _ _ Hs) Hr) as Hb.
    assert (kern_ok c (set_serial l (tx s) s)) as H1 by (destruct Hs; by split).
    destruct (console_byte b (con s)) as [k echo|]; [|by split].
    assert (safe c (serial_puts echo;; console_drain l) any) as Hk by safe.
    apply Hk; [done|]. destruct H1. by split.
Qed.
Lemma safe_console_loop : safe c console_loop any.
Proof.
  intros e. induction e as [|f e IH]; intros s He Hs; cbn [console_loop];
    pose proof (safe_drain (rx s) [] s (Forall_nil_2 _) Hs) as H.
  - pose proof (safe_drain (rx s) [] s He Hs) as H'.
    destruct (console_drain (rx s) [] s) as [eof e1 s1| | |]; try done.
    destruct H' as (_ & _ & Hs1). by destruct (_ || _).
  - pose proof (safe_drain (rx s) (f :: e) s He Hs) as H'.
    destruct (console_drain (rx s) (f :: e) s) as [eof e1 s1| | |]; try done.
    destruct H' as (_ & _ & Hs1). destruct (_ || _); [done|].
    apply Forall_cons in He as [Hf He]. apply IH; [done|]. by apply Hf.
Qed.
Lemma console_loop_ready e s eof e' s' : console_loop e s = Ok eof e' s' -> eof = true \/ cready (con s') = true.
Proof.
  revert s. induction e as [|f e IH]; intros s; cbn [console_loop];
    (destruct (console_drain (rx s) _ s) as [b e1 s1| | |]; [|done..]);
    destruct b; cbn [orb]; try (intros [= <- <- <-]; by left);
    (destruct (cready (con s1)) eqn:E; [intros [= <- <- <-]; by right|]); [done|]. apply IH.
Qed.
Lemma safe_console_read buf n : 0 <= n -> safe c (console_read buf n) any.
Proof.
  intros Hn e s He Hs. unfold console_read. unfold mbind at 1, M_bind at 1.
  pose proof (safe_console_loop e s He Hs) as H. destruct (console_loop e s) as [eof e1 s1| | |] eqn:E; [|done..].
  apply console_loop_ready in E. destruct H as (_ & He1 & Hs1). destruct eof; [done|]. destruct E as [|Hr]; [done|].
  unfold mbind at 1, M_bind at 1. cbn [gets]. pose proof (ok_con _ _ Hs1) as Hk. set (k := con s1) in *.
  set (m := Z.min n _).
  assert (safe c (modify (set_con (if coffset k + m =? Z.of_nat (length (cline k)) then Console [] 0 false
                     else Console (cline k) (coffset k + m) (cready k)))) any) as Hset.
  { apply safe_modify. intros s2 [B1 B2 B3 B4]. split; try done. destruct Hk as [A1 A2 A3 A4]. specialize (A4 Hr). cbn.
    destruct (Z.eqb_spec (coffset k + m) (Z.of_nat (length (cline k)))).
    - split; cbn; try done; try lia. intros _. split; [done|]. split; [lia|]. apply not_elem_of_nil.
    - split; cbn [coffset cline cready]; try lia; try done. rewrite Hr. done. }
  revert e1 s1 He1 Hs1 k Hr Hk m Hset. intros e1 s1 He1 Hs1 k Hr Hk m Hset.
  assert (safe c (ensure_writable buf m;;
      put_bytes (firstn (Z.to_nat m) (skipn (Z.to_nat (coffset k)) (cline k))) buf;;
      modify (set_con (if coffset k + m =? Z.of_nat (length (cline k)) then Console [] 0 false
                     else Console (cline k) (coffset k + m) (cready k)));;
      mret m) any) as Hk2 by safe.
  by apply Hk2.
Qed.
#[local] Hint Resolve safe_console_read : safe.
Lemma safe_read fd buf n : 0 <= n -> safe c (sys_read fd buf n) any.
Proof. intros Hn. unfold sys_read. safe. Qed.
Lemma safe_lseek fd off wh : safe c (sys_lseek fd off wh) any.
Proof.
  unfold sys_lseek, dyn_size. safe.
Qed.

Lemma safe_is_dir p : safe c (is_dir p) any.
Proof. apply safe_gets_any. Qed.
Lemma safe_dyn_size i : safe c (dyn_size i) any.
Proof. apply safe_gets_any. Qed.
Lemma safe_open_entry d n pos b dyn : safe c (open_fd_with (open_entry d n pos b dyn)) any.
Proof. by apply safe_open_fd. Qed.
Lemma safe_open_dir p : safe c (open_fd_with (fun f => set_path p (open_entry 0 0 0 true None f))) any.
Proof. by apply safe_open_fd. Qed.
#[local] Hint Resolve safe_is_dir safe_dyn_size safe_open_entry safe_open_dir : safe.
Lemma safe_openat dirfd path flags : safe c (openat_core dirfd path flags) any.
Proof.
  unfold openat_core, current_cwd.
  eapply safe_bind; [eauto with safe|]. intros input Hi. eapply safe_bind; [eauto with safe|]. intros cwd_ _.
  eapply safe_bind; [apply (safe_any c _ any); safe|]. intros [base|] _; [|by safe].
  assert (short (resolve_path input base)) as Hp by apply resolve_path_short. cbv zeta.
  generalize dependent (resolve_path input base). intros p Hp.
  eapply safe_bind; [apply (safe_any c _ any); safe|]. intros d _. safe.
Qed.
Lemma safe_fd_close i : safe c (on_sy (process_fd_close c i)) any.
Proof. apply safe_fd_op. intros k Hk Hc. by apply process_fd_close_op. Qed.
Lemma safe_fd_set i r : safe c (on_sy (process_fd_set c i r)) any.
Proof. apply safe_fd_op. intros k Hk Hc. by apply process_fd_set_op. Qed.
Lemma safe_stdio_set i r : safe c (on_sy (process_stdio_set c i r)) any.
Proof. apply safe_fd_op. intros k Hk Hc. by apply process_stdio_set_op. Qed.
Lemma safe_stdio_clear i : safe c (on_sy (process_stdio_clear c i)) any.
Proof. apply safe_fd_op. intros k Hk Hc. by apply process_stdio_clear_op. Qed.
#[local] Hint Resolve safe_fd_close safe_fd_set safe_stdio_set safe_stdio_clear : safe.
Lemma safe_close fd : safe c (sys_close fd) any.
Proof.
  unfold sys_close. destruct (_ || _).
  - eapply safe_bind; [apply (safe_gets c _ (fun o => o = Some c)); intros s Hs; apply Hs|]. intros o ->. cbv iota. safe.
  - safe.
Qed.
Lemma safe_dup_into a b : safe c (dup_into a b) any.
Proof. unfold dup_into. safe. Qed.
#[local] Hint Resolve safe_dup_into : safe.
Lemma safe_dup3 a b : safe c (sys_dup3 a b) any.
Proof. unfold sys_dup3. safe. Qed.
Lemma safe_dup2 a b : safe c (sys_dup2 a b) any.
Proof. unfold sys_dup2. safe. Qed.
(** The new descriptor of [F_DUPFD] has no pipe yet when the old one is copied. *)
Lemma safe_fcntl_dup old : safe c (idx ← fd_alloc;
  if idx <? 0 then mret (- ENOMEM) else d ← me; on_sy (fd_entry_copy d (Fd idx) d old);; mret (idx + 3)) any.
Proof.
  intros e s He Hs. unfold mbind at 1, M_bind at 1. unfold fd_alloc, mbind at 1, M_bind at 1.
  unfold me at 1. rewrite (ok_cur _ _ Hs). cbn [run_sy]. unfold run_sy.
  destruct (process_fd_alloc c (sy s)) as [i k] eqn:E.
  destruct (cur_facts c (sy s) (ok_sys _ _ Hs) (ok_cur _ _ Hs)) as [Hb _].
  pose proof (so_fds _ (ok_sys _ _ Hs)) as Hf.
  destruct (process_fd_alloc_spec c (sy s) i k E Hf Hb) as [Hop _].
  destruct (fd_op_ok c (sy s) k (ok_sys _ _ Hs) (ok_cur _ _ Hs) Hop) as [Ho Hc].
  destruct (Z.ltb_spec i 0) as [|Hi]; [split; [done|]; split; [done|]; by apply set_sy_ok|].
  unfold me, mbind, M_bind. cbn [sy set_sy]. rewrite Hc. split; [done|]. split; [done|].
  destruct (fd_op_ok c (sy s) _ (ok_sys _ _ Hs) (ok_cur _ _ Hs) (fcntl_dup_op c i old (sy s) k Hf Hb E Hi)) as [Ho' Hc'].
  exact (set_sy_ok c _ s Hs Ho' Hc').
Qed.
#[local] Hint Resolve safe_fcntl_dup : safe.
Lemma safe_fcntl fd cmd : safe c (sys_fcntl fd cmd) any.
Proof. unfold sys_fcntl. repeat first [apply safe_fcntl_dup | safe_step; try done]. Qed.

Lemma safe_pipe2 p flags : safe c (sys_pipe2 p flags) any.
Proof.
  unfold sys_pipe2. destruct (negb _); [by safe|]. eapply safe_bind; [apply safe_me|]. intros d ->.
  eapply (safe_bind c _ _ any); [|intros [[rd wr]|] _; safe].
  apply safe_run_sy. intros k a k' Ho Hc [= E]. destruct (cur_facts c k Ho Hc) as [Hb Hr]. split; [done|].
  assert (current k' = Some c) as Hc'.
  { destruct (pipe_create_spec c k a k' (so_fds _ Ho) Hb E) as (_ & B & _). by rewrite (ff_current _ _ _ B). }
  split; [|done]. destruct a as [fds|].
  - destruct (free_pipe (Z.to_nat MAX_PIPES) 0 k) as [pi|] eqn:Ef.
    + exact (proj1 (call_ok 0 c k _ k' Ho Hc (call_pipe 0 c k fds k' pi E Ef))).
    + unfold process_pipe_create in E. by rewrite Ef in E.
  - exact (proj1 (call_ok 0 c k _ k' Ho Hc (call_pipe_fails 0 c k k' E))).
Qed.

(** ** Names *)

Lemma safe_mkdirat p : safe c (sys_mkdirat p) any.
Proof. unfold sys_mkdirat. safe. Qed.
Lemma safe_utimensat p : safe c (sys_utimensat p) any.
Proof. unfold sys_utimensat. safe. Qed.
Lemma safe_umask v : safe c (sys_umask v) any.
Proof.
  unfold sys_umask. eapply safe_bind; [apply safe_gets_any|]. intros old _.
  eapply safe_bind; [apply safe_modify; intros s []; by split|]. intros _ _. by apply safe_ret.
Qed.
Lemma safe_unlink_path p : safe c (unlink_user_path p) any.
Proof. unfold unlink_user_path. safe. Qed.
Lemma safe_access p : safe c (access_user_path p) any.
Proof. unfold access_user_path. safe. Qed.
Lemma safe_getcwd buf n : safe c (sys_getcwd buf n) any.
Proof. unfold sys_getcwd, current_cwd. safe. Qed.
Lemma safe_upd f : harmless f -> safe c (on_sy (upd c f)) any.
Proof. intros Hf. apply safe_on_sy. intros k Ho Hc. split; [by apply sys_ok_upd|done]. Qed.
Lemma safe_set_cwd p : safe c (on_sy (process_set_current_cwd p)) any.
Proof.
  apply safe_on_sy. intros k Ho Hc. unfold process_set_current_cwd. rewrite Hc. split; [by apply sys_ok_upd|done].
Qed.
#[local] Hint Resolve safe_set_cwd : safe.
Lemma safe_chdir p : safe c (sys_chdir p) any.
Proof. unfold sys_chdir. safe. Qed.
Lemma safe_stat_lookup p : safe c (stat_lookup p) any.
Proof. unfold stat_lookup. safe. Qed.
Lemma safe_fill_stat sb m n : safe c (fill_stat sb m n) any.
Proof. unfold fill_stat. safe. Qed.
#[local] Hint Resolve safe_stat_lookup safe_fill_stat : safe.
Lemma safe_newfstatat p sb : safe c (sys_newfstatat p sb) any.
Proof. unfold sys_newfstatat. safe. Qed.

(** [rename] keeps the name table only if the two paths differ. *)
Definition rename_paths (p q : Z) : M (list Z * list Z) :=
  p ← resolve_user_path p; q ← resolve_user_path q; mret (p, q).
Lemma renameat2_ok p q flags e s : rely c e -> kern_ok c s ->
  (forall a b e' s', rename_paths p q e s = Ok (a, b) e' s' -> normalize_path a <> normalize_path b) ->
  match sys_renameat2 p q flags e s with
  | Ok _ e s => rely c e /\ kern_ok c s
  | Blocked s => kern_ok c s
  | Exited s => exists d, kern_ok d s
  | Halted => True
  end.
Proof.
  intros He Hs. unfold sys_renameat2, rename_paths. destruct (negb (flags =? 0)); [done|].
  unfold mbind, M_bind. pose proof (safe_resolve c p e s He Hs) as H.
  destruct (resolve_user_path p e s) as [a e1 s1| | |]; [|done..]. destruct H as (_ & He1 & Hs1).
  pose proof (safe_resolve c q e1 s1 He1 Hs1) as H.
  destruct (resolve_user_path q e1 s1) as [b e2 s2| | |]; [|done..]. destruct H as (_ & He2 & Hs2).
  intros Hne. specialize (Hne a b e2 s2 eq_refl).
  assert (safe c (run_fs (ramfs_dynamic_rename a b)) any) as Hr.
  { apply safe_run_fs. intros k r k' Hok E. split; [done|]. by eapply rename_ok. }
  specialize (Hr e2 s2 He2 Hs2). destruct (run_fs _ e2 s2) as [r e3 s3| | |]; [|done..]. by destruct Hr as (_ & ? & ?).
Qed.

(** ** Directory entries *)

Lemma safe_dirent_at p pos : safe c (dirent_at p pos) any.
Proof. unfold dirent_at. safe. Qed.
Lemma safe_fill_dirent buf ino n t : safe c (fill_dirent64 buf ino n t) any.
Proof. unfold fill_dirent64. safe. Qed.
#[local] Hint Resolve safe_dirent_at safe_fill_dirent : safe.
Lemma safe_getdents_loop fuel r buf n w : r ∈ all_refs -> safe c (getdents_loop fuel r buf n w) any.
Proof.
  intros Hr. revert w. induction fuel as [|fuel IH]; intros w; cbn [getdents_loop]; [apply safe_halt|]. safe.
Qed.
#[local] Hint Resolve safe_getdents_loop : safe.
Lemma safe_getdents fd buf n : safe c (sys_getdents64 fd buf n) any.
Proof. unfold sys_getdents64. safe. Qed.
End files.
#[export] Hint Resolve safe_write safe_writev safe_readv safe_read safe_lseek safe_openat safe_close safe_dup3 safe_dup2
  safe_fcntl safe_pipe2 safe_mkdirat safe_utimensat safe_umask safe_unlink_path safe_access safe_getcwd safe_chdir
  safe_newfstatat safe_getdents : safe.

(** ** Memory and processes *)

Section root.
Context (RT : Z) (fetch : list Z -> Z * list Z) (c : Z).

Lemma safe_get_brk : safe c get_brk_current any.
Proof. apply safe_gets_any. Qed.
Lemma safe_set_brk v : safe c (set_brk_current v) any.
Proof.
  intros e s He Hs. unfold set_brk_current. destruct (process_mode (sy s)).
  - revert e s He Hs. change (safe c (on_sy (process_set_current_brk v)) any). apply safe_on_sy.
    intros k Ho Hc. unfold process_set_current_brk. rewrite Hc. split; [by apply sys_ok_upd|done].
  - split; [done|]. split; [done|]. destruct Hs. by split.
Qed.
Lemma safe_take_mmap n : safe c (take_mmap_addr n) any.
Proof.
  intros e s He Hs. unfold take_mmap_addr. destruct (process_mode (sy s)).
  - revert e s He Hs. change (safe c (d ← me; run_sy (fun k => Some (process_take_mmap d n k))) any).
    eapply safe_bind; [apply safe_me|]. intros d ->. apply safe_run_sy. intros k a k' Ho Hc [_ ->]%some_pair.
    split; [done|]. split; [by apply sys_ok_upd|done].
  - split; [done|]. split; [done|]. destruct Hs. by split.
Qed.
Lemma safe_note_mmap v : safe c (on_sy (process_note_mmap_end v)) any.
Proof.
  apply safe_on_sy. intros k Ho Hc. unfold process_note_mmap_end. rewrite Hc. case_match; [|done].
  split; [by apply sys_ok_upd|done].
Qed.
#[local] Hint Resolve safe_get_brk safe_set_brk safe_take_mmap safe_note_mmap : safe.
Lemma safe_brk v : safe c (sys_brk v) any.
Proof. unfold sys_brk. safe. Qed.
Lemma safe_mmap a n p f : safe c (sys_mmap a n p f) any.
Proof. unfold sys_mmap. safe. Qed.
Lemma safe_munmap_call a n : safe c (sys_munmap a n) any.
Proof. unfold sys_munmap. safe. Qed.
Lemma safe_move n d src : safe c (move_loop n d src) any.
Proof. revert d src. induction n as [|n IH]; intros d src; cbn [move_loop]; safe. Qed.
#[local] Hint Resolve safe_move : safe.
Lemma safe_mremap a n m f : safe c (sys_mremap a n m f) any.
Proof. unfold sys_mremap. safe. Qed.

Lemma safe_yield : safe c sys_sched_yield any.
Proof. unfold sys_sched_yield. safe. Qed.
Lemma safe_nanosleep r : safe c (sys_nanosleep r) any.
Proof. unfold sys_nanosleep. safe. Qed.
Lemma safe_fork : safe c (sys_fork RT) any.
Proof.
  unfold sys_fork. eapply safe_bind; [apply safe_me|]. intros d ->.
  eapply (safe_bind c _ _ any); [|intros a _; by apply safe_ret]. apply safe_run_sy.
  intros k a k' Ho Hc E. split; [done|]. split; [by eapply (proj1 (process_fork_ok RT c k a k' Ho Hc E))|].
  destruct (cur_facts c k Ho Hc) as [Hb Hr].
  destruct (process_fork_spec RT c k a k' Ho Hb Hr E) as [(_ & -> & _)|(_ & ? & ? & ? & F)]; [done|].
  by rewrite (fk_current _ _ _ _ _ _ _ F).
Qed.
#[local] Hint Resolve safe_fork : safe.
Lemma safe_clone a b : safe c (sys_clone RT a b) any.
Proof. unfold sys_clone. safe. Qed.
Lemma safe_wait_loop want options : safe c (wait_loop RT c want options) any.
Proof.
  intros e. induction e as [|f e IH]; intros s He Hs; cbn [wait_loop];
    destruct (process_wait4_run RT c want options (sy s)) as [o k] eqn:E;
    destruct (process_wait4_ok RT c want options _ o k (ok_sys _ _ Hs) (ok_cur _ _ Hs) E) as (Ho & _ & Hc);
    pose proof (set_sy_ok c k s Hs Ho Hc) as Hk; destruct o as [r st|]; try done.
  apply Forall_cons in He as [Hf He]. apply IH; [done|]. by apply Hf.
Qed.
Lemma safe_wait4 p st o : safe c (sys_wait4 RT p st o) any.
Proof.
  unfold sys_wait4. eapply safe_bind; [apply (safe_any c _ any); safe|]. intros _ _.
  eapply safe_bind; [apply safe_me|]. intros d ->. eapply safe_bind; [apply safe_wait_loop|]. intros [r v] _.
  eapply safe_bind; [apply (safe_any c _ any); safe|]. intros _ _. by apply safe_ret.
Qed.
Lemma safe_exit {A} code : safe c (@sys_exit_group A code) any.
Proof.
  intros e s He Hs. unfold sys_exit_group. destruct (process_mode (sy s)); [|done]. rewrite (ok_cur _ _ Hs).
  destruct (process_exit_current c (i32 code) (sy s)) as [k|] eqn:E; [|done].
  assert (exists d, current k = Some d) as [d Hd].
  { revert E. unfold process_exit_current. destruct (find_state _ _ 0 _) as [j|]; [|done]. intros [= <-]. by exists j. }
  exists d. destruct Hs as [A1 A2 A3 A4]. split; try done. by apply (process_exit_ok c (i32 code) (sy s)).
Qed.

Lemma safe_user_argv n va : safe c (user_argv n va) any.
Proof. revert va. induction n as [|n IH]; intros va; cbn [user_argv]; safe. Qed.
Lemma safe_user_string n va : safe c (user_string n va) any.
Proof. revert va. induction n as [|n IH]; intros va; cbn [user_string]; safe. Qed.
#[local] Hint Resolve safe_user_argv safe_user_string : safe.
Lemma safe_user_strings ptrs : safe c (user_strings ptrs) any.
Proof. induction ptrs as [|p ptrs IH]; cbn [user_strings]; safe. Qed.
#[local] Hint Resolve safe_user_strings : safe.
Lemma safe_run_execve path argv fs : safe c (run_sy (process_execve RT c path argv fs)) any.
Proof.
  apply safe_run_sy. intros k a k' Ho Hc E. split; [done|]. destruct (process_execve_ok RT c path argv fs k a k' Ho Hc E).
  split; [done|]. clear -E Hc. revert E. unfold process_execve.
  destruct (exec_file path fs) as [[[d n]|]|]; [|by intros [_ ->]%some_pair|done].
  destruct (snapshot_argv _ argv) as [argv'|]; [|by intros [_ ->]%some_pair].
  destruct (paging_new_addrspace RT (kvm k)) as [[root v1]|]; [|done].
  destruct (elf_load d n _) as [[entry_ v2]|]; [|done].
  case_match; [by intros [_ ->]%some_pair|].
  destruct (build_user_stack argv' v2) as [[sp v3]|]; [|done]. by intros [_ ->]%some_pair.
Qed.
#[local] Hint Resolve safe_run_execve : safe.
Lemma safe_execve p a : safe c (sys_execve RT p a) any.
Proof.
  unfold sys_execve. eapply safe_bind; [eauto with safe|]. intros path _.
  eapply safe_bind; [apply (safe_any c _ any); safe|]. intros ptrs _. safe.
Qed.
Lemma safe_fetch url p : safe c (sys_ouro_fetch fetch url p) any.
Proof.
  unfold sys_ouro_fetch. eapply safe_bind; [eauto with safe|]. intros path Hp.
  eapply safe_bind; [eauto with safe|]. intros u _. destruct (_ || _); [by apply safe_ret|].
  destruct (fetch u) as [st body]. destruct (negb _); [by apply safe_ret|].
  eapply safe_bind.
  { apply safe_on_sy. intros k Ho Hc. split; [|done]. by apply sys_ok_set_kvm. }
  intros _ _. eapply safe_bind; [eauto with safe|]. intros [i|] _; [|by apply safe_ret].
  eapply safe_bind; [eauto with safe|]. intros _ _.
  eapply (safe_bind c _ _ any); [|intros a _; by apply safe_ret].
  apply safe_run_fs. intros k a k' Hok E. split; [done|]. by eapply write_ok.
Qed.
End root.
