(* ===== verification/SyscallThm.v ===== *)
(** What holds of the system calls ([src/kernel/syscall_posix.c],
    [src/kernel/arch/risc/riscv64_syscall.c]) as a whole: the dispatch keeps the invariants of the
    kernel. *)
From S2P Require Import Prelude Pmm Paging Ramfs Elf Process ProcessExec ProcessSys ProcessPipe ProcessFds ProcessInv ProcessSafe ProcessThm RamfsInv RamfsData Syscall SyscallInv SyscallSafe.

#[local] Opaque ENTRIES zero_table.
#[local] Hint Resolve safe_brk safe_mmap safe_munmap_call safe_mremap safe_yield safe_nanosleep safe_clone safe_wait4
  safe_exit safe_execve safe_fetch : safe.

Section root.
Context (RT : Z) (fetch : list Z -> Z * list Z) (c : Z).

Lemma safe_some (m : M Z) : safe c m any -> safe c (v ← m; mret (Some v)) any.
Proof. intros Hm. eapply safe_bind; [exact Hm|]. intros v _. by apply safe_ret. Qed.

(** All the calls but [renameat2]. *)
Lemma safe_syscall_value a7 a0 a1 a2 a3 a4 : a7 <> 276 -> 0 <= a2 ->
  safe c (syscall_value RT fetch a7 a0 a1 a2 a3 a4) any.
Proof.
  intros Hne H2. unfold syscall_value, sys_openat, sys_getpid, sys_getppid, current_tid. cbv zeta.
  repeat match goal with
    | |- safe _ (if (?a =? 276) then _ else _) _ => destruct (Z.eqb_spec a 276); [done|]
    | |- safe _ (if ?b then _ else _) _ => destruct b; [solve [apply safe_some; eauto with safe | eauto with safe | by apply safe_ret]|]
    end.
  by apply safe_ret.
Qed.

(** The path arguments of a [renameat2], where they can be read, name two different files. *)
Definition renames_apart (s : kern) : Prop :=
  nth R_A7 (Process.live (sy s)) 0 = 276 -> forall e a b e' s',
    rename_paths (u64 (nth (R_A0 + 1) (Process.live (sy s)) 0)) (u64 (nth (R_A0 + 3) (Process.live (sy s)) 0)) e s = Ok (a, b) e' s' ->
    normalize_path a <> normalize_path b.

Definition outcome_ok {A} (r : res A) : Prop :=
  match r with
  | Ok _ e s => rely c e /\ kern_ok c s
  | Blocked s => kern_ok c s
  | Exited s => exists d, kern_ok d s
  | Halted => True
  end.

Definition arg (s : kern) (n : nat) : Z := u64 (nth (R_A0 + n) (Process.live (sy s)) 0).
Lemma dispatch_value e s : syscall_dispatch RT fetch e s =
  match syscall_value RT fetch (nth R_A7 (Process.live (sy s)) 0) (arg s 0) (arg s 1) (arg s 2) (arg s 3) (arg s 4) e s with
  | Ok v e s => Ok () e (match v with Some v => set_sy (sys_ret v (sy s)) s | None => s end)
  | Blocked s => Blocked s
  | Exited s => Exited s
  | Halted => Halted
  end.
Proof.
  transitivity (match syscall_value RT fetch (nth R_A7 (Process.live (sy s)) 0) (arg s 0) (arg s 1) (arg s 2) (arg s 3)
      (arg s 4) e s with
    | Ok v e s => (match v with Some v => on_sy (sys_ret v) | None => mret () end) e s
    | Blocked s => Blocked s | Exited s => Exited s | Halted => Halted end); [reflexivity|].
  by destruct (syscall_value _ _ _ _ _ _ _ _ e s) as [[v|] e1 s1| | |].
Qed.

End root.

(** ** A concrete kernel *)

Definition demo_kern (l : list Z) : kern :=
  Kern (set_live l (ks demo)) (fs_bss pmm_bss ∅) (Console [] 0 false) [] [] 0 18 0 MMAP_BASE.
Lemma demo_kern_ok l : kern_ok 0 (demo_kern l).
Proof.
  split; [apply sys_ok_live; apply demo_ok|done|apply fs_bss_ok|].
  split; cbn; try done; try lia. intros _. split; [done|]. split; [lia|]. apply not_elem_of_nil.
Qed.
(** [sched_yield()], and a key is typed while the others run. *)
Definition yield_regs : list Z := <[R_A7 := 124]> (repeat 0 regs_words).
Definition key_typed (s : kern) : kern := set_serial (rx s ++ [104]) (tx s) s.

