(* ===== verification/SyscallPath.v ===== *)
(** Path resolution ([resolve_path] of [src/kernel/syscall_posix.c]) computes what the components of a
    path mean: a stack of names on which "." does nothing and ".." pops. *)
From S2P Require Import Prelude Pmm Paging Ramfs Elf Process ProcessExec ProcessSys Syscall.

(** ** The reference *)

(** The pieces between slashes, empty ones too. *)
Fixpoint pieces (l : list Z) : list (list Z) :=
  match l with
  | [] => [[]]
  | c :: l =>
      if c =? SLASH then [] :: pieces l
      else match pieces l with x :: xs => (c :: x) :: xs | [] => [[c]] end
  end.
Definition enter (dir : list (list Z)) (x : list Z) : list (list Z) :=
  if bool_decide (x = []) || bool_decide (x = [DOT]) then dir
  else if bool_decide (x = [DOT; DOT]) then removelast dir
  else dir ++ [x].
(** Where [path] leads from the directory [dir]. *)
Definition walk (dir : list (list Z)) (path : list Z) : list (list Z) := foldl enter dir (pieces path).

(** The key of a directory: its names, with slashes between them. *)
Fixpoint join (dir : list (list Z)) : list Z :=
  match dir with
  | [] => []
  | [x] => x
  | x :: dir => x ++ SLASH :: join dir
  end.
Definition proper (x : list Z) : Prop := x <> [] /\ x <> [DOT] /\ x <> [DOT; DOT] /\ SLASH ∉ x.
Definition canonical (dir : list (list Z)) : Prop := Forall proper dir.

(** ** Lemmas *)

Lemma join_snoc dir x : join (dir ++ [x]) = match dir with [] => x | _ => join dir ++ SLASH :: x end.
Proof.
  induction dir as [|y dir IH]; [done|]. cbn [app join]. destruct dir as [|z dir]; [done|].
  cbn [app] in *. rewrite IH. cbn [join]. by rewrite <- app_assoc.
Qed.
Lemma join_nil dir : canonical dir -> join dir = [] -> dir = [].
Proof.
  intros Hc E. destruct dir as [|x dir]; [done|]. apply Forall_cons in Hc as [(Hx & _) _].
  destruct x as [|b x]; [done|]. by destruct dir.
Qed.
Lemma join_absolute dir : canonical dir -> absolute (join dir) = false.
Proof.
  intros Hc. destruct dir as [|x dir]; [done|]. apply Forall_cons in Hc as [(Hx & _ & _ & Hs) _].
  destruct x as [|b x]; [done|]. assert (b <> SLASH) by (intros ->; apply Hs; left).
  destruct dir; apply Z.eqb_neq; done.
Qed.

Lemma enter_nil dir : enter dir [] = dir.
Proof. done. Qed.
Lemma enter_canonical dir x : canonical dir -> SLASH ∉ x -> canonical (enter dir x).
Proof.
  intros Hc Hx. unfold enter. destruct (bool_decide_reflect (x = [])), (bool_decide_reflect (x = [DOT])); try done.
  cbn [orb]. case_bool_decide.
  - unfold canonical. rewrite removelast_firstn_len. by apply Forall_take.
  - apply Forall_app. split; [done|]. by apply Forall_singleton.
Qed.

Lemma component_no_slash l : SLASH ∉ component l.
Proof.
  induction l as [|b l IH]; cbn [component]; [apply not_elem_of_nil|].
  destruct (Z.eqb_spec b SLASH); [apply not_elem_of_nil|]. rewrite not_elem_of_cons. done.
Qed.
Lemma component_length l : (length (component l) <= length l)%nat.
Proof. induction l as [|b l IH]; cbn [component]; [done|]. case_match; cbn; lia. Qed.
Lemma pieces_component l : exists xs, pieces l = component l :: xs /\
  pieces (skipn (length (component l)) l) = [] :: xs.
Proof.
  induction l as [|b l IH]; [by exists []|]. cbn [pieces component]. destruct (b =? SLASH) eqn:E.
  - exists (pieces l). split; [done|]. cbn [length skipn pieces]. by rewrite E.
  - destruct IH as (xs & -> & IH). exists xs. split; [done|]. done.
Qed.
(** Entering the first piece, then going on. *)
Lemma walk_component dir l :
  walk dir l = walk (enter dir (component l)) (skipn (length (component l)) l).
Proof.
  unfold walk. destruct (pieces_component l) as (xs & -> & ->). cbn [foldl]. by rewrite enter_nil.
Qed.
Lemma walk_skip dir l : walk dir (skip_slashes l) = walk dir l.
Proof.
  induction l as [|b l IH]; cbn [skip_slashes]; [done|]. destruct (Z.eqb_spec b SLASH) as [->|]; [|done].
  rewrite IH. unfold walk. cbn [pieces]. by rewrite Z.eqb_refl.
Qed.
Lemma skip_slashes_length l : (length (skip_slashes l) <= length l)%nat.
Proof. induction l as [|b l IH]; cbn [skip_slashes]; [done|]. case_match; cbn; lia. Qed.
(** A round uses a byte of what is left. *)
Lemma round_progress b l : (length (skipn (length (component (skip_slashes (b :: l)))) (skip_slashes (b :: l))) <= length l)%nat.
Proof.
  cbn [skip_slashes]. rewrite length_skipn. destruct (b =? SLASH) eqn:E.
  - pose proof (skip_slashes_length l). lia.
  - cbn [component length]. rewrite E. cbn [length]. lia.
Qed.

(** The C loops on the buffer are the operations on the stack. *)
Lemma drop_last_name x r : SLASH ∉ x -> drop_last (rev x ++ r) = drop_last r.
Proof.
  intros Hx. assert (SLASH ∉ rev x) as Hr by by rewrite list_elem_of_In, <- in_rev, <- list_elem_of_In.
  clear Hx. revert Hr. generalize (rev x). clear x. intros x. induction x as [|b x IH]; intros Hr; [done|].
  apply not_elem_of_cons in Hr as [Hb Hr]. cbn [app drop_last]. destruct (Z.eqb_spec b SLASH); [congruence|]. by apply IH.
Qed.
Lemma pop_correct dir : canonical dir -> rev (drop_last (rev (join dir))) = join (removelast dir).
Proof.
  intros Hc. destruct (decide (dir = [])) as [->|Hne]; [done|].
  destruct (exists_last Hne) as (dir' & x & ->). rewrite removelast_last, join_snoc.
  apply Forall_app in Hc as [Hc Hx]. apply Forall_singleton in Hx as (_ & _ & _ & Hx).
  destruct dir' as [|y dir'].
  - rewrite <- (app_nil_r (rev x)), drop_last_name by done. done.
  - rewrite rev_app_distr. cbn [rev]. rewrite <- app_assoc. rewrite drop_last_name by done.
    cbn [app drop_last]. rewrite Z.eqb_refl. by rewrite rev_involutive.
Qed.
Lemma push_correct dir x : canonical dir -> x <> [] -> (length (join dir) + 1 + length x <= 127)%nat ->
  push_component (join dir) x = join (dir ++ [x]).
Proof.
  intros Hc Hx Hl. rewrite join_snoc. unfold push_component, path_room, PATH_MAX_LOCAL.
  destruct dir as [|y dir]; [cbn; rewrite firstn_all2; [done|cbn in *; lia]|].
  destruct (join (y :: dir)) as [|b l] eqn:E; [by apply join_nil in E|].
  replace (Z.of_nat (length (b :: l)) <? 128 - 1) with true by lia.
  rewrite <- app_assoc. apply firstn_all2. rewrite length_app. cbn [length app] in *. lia.
Qed.
Lemma join_removelast dir : (length (join (removelast dir)) <= length (join dir))%nat.
Proof.
  destruct (decide (dir = [])) as [->|Hne]; [done|].
  destruct (exists_last Hne) as (dir' & x & ->). rewrite removelast_last, join_snoc.
  destruct dir'; [cbn; lia|]. rewrite length_app. lia.
Qed.
Lemma enter_length dir x : (length (join (enter dir x)) <= length (join dir) + 1 + length x)%nat.
Proof.
  unfold enter. case_match; [lia|]. case_match; [pose proof (join_removelast dir); lia|].
  rewrite join_snoc. destruct dir; [lia|]. rewrite length_app. cbn. lia.
Qed.

(** The room [input] needs after a directory's key, a slash before its first component included. *)
Definition room (input : list Z) : nat :=
  match input with [] => 0 | _ => length input + (if absolute input then 0 else 1) end.
Lemma room_skip l : match skip_slashes l with [] => True | _ => (length (skip_slashes l) + 1 <= room l)%nat end.
Proof.
  destruct l as [|b l]; [done|]. cbn [skip_slashes room absolute length]. destruct (b =? SLASH) eqn:E; [|cbn; lia].
  pose proof (skip_slashes_length l). destruct (skip_slashes l); [done|]. lia.
Qed.
Lemma room_le l : (room l <= 1 + length l)%nat.
Proof. unfold room. destruct l; [lia|]. case_match; lia. Qed.
Lemma room_rest l : (room (skipn (length (component l)) l) <= length l - length (component l))%nat.
Proof.
  induction l as [|b l IH]; [done|]. cbn [component]. destruct (b =? SLASH) eqn:E.
  - cbn [length skipn room absolute]. rewrite E. lia.
  - cbn [length skipn]. lia.
Qed.

Lemma resolve_loop_spec fuel dir input : canonical dir -> (length input <= fuel)%nat ->
  (length (join dir) + room input <= 127)%nat ->
  resolve_loop fuel (join dir) input = join (walk dir input) /\ canonical (walk dir input).
Proof.
  revert dir input. induction fuel as [|fuel IH]; intros dir input Hc Hf Hl.
  { destruct input; [done|cbn in Hf; lia]. }
  cbn [resolve_loop]. destruct input as [|b l]; [done|].
  rewrite <- (walk_skip dir (b :: l)), walk_component.
  pose proof (round_progress b l) as Hp. pose proof (room_skip (b :: l)) as Hs.
  set (input := skip_slashes (b :: l)) in *. set (x := component input) in *.
  pose proof (component_no_slash input) as Hx. pose proof (room_rest input) as Hr.
  pose proof (component_length input) as Hn. fold x in Hx, Hr, Hn.
  assert (length (join dir) <= 127)%nat by lia.
  assert (x = [] \/ (length (join dir) + 1 + length input <= 127)%nat) as Hroom.
  { unfold x. destruct input; [by left|right]. lia. }
  assert ((if bool_decide (x = []) || bool_decide (x = [DOT]) then join dir
           else if bool_decide (x = [DOT; DOT]) then rev (drop_last (rev (join dir)))
           else push_component (join dir) x) = join (enter dir x)) as ->.
  { unfold enter. destruct (bool_decide_reflect (x = [])); [done|]. destruct (bool_decide_reflect (x = [DOT])); [done|].
    cbn [orb]. case_bool_decide; [by apply pop_correct|]. apply push_correct; [done|done|].
    destruct Hroom; [done|lia]. }
  apply IH; [by apply enter_canonical|cbn [length] in Hf; lia|].
  destruct Hroom as [E|Hroom].
  - rewrite E, enter_nil in *. destruct input; [cbn; lia|]. cbn [length skipn] in *. lia.
  - pose proof (enter_length dir x). lia.
Qed.

(** C28: Resolving a path from a directory gives the key of the directory or file the path's components
    lead to, "." and empty components standing still, ".." going up (and staying at the root), an
    absolute path starting from the root; the result is again free of such components.  This is for
    paths that fit the 127 bytes of the kernel's buffers; longer ones are cut short. *)
Theorem resolve_path_correct input base dir :
  canonical dir -> base = SLASH :: join dir \/ base = join dir ->
  (length (join dir) + 1 + length input <= 127)%nat ->
  resolve_path input base = join (walk (if absolute input then [] else dir) input) /\
  canonical (walk (if absolute input then [] else dir) input).
Proof.
  intros Hc Hb Hl. unfold resolve_path. destruct (absolute input).
  - apply (resolve_loop_spec _ [] input); [by constructor|done|]. pose proof (room_le input). cbn [join length]. lia.
  - assert ((if absolute base then tail base else base) = join dir) as ->.
    { destruct Hb as [-> | ->]; [done|]. by rewrite join_absolute. }
    rewrite firstn_all2 by (unfold PATH_MAX_LOCAL; lia). apply resolve_loop_spec; [done|done|].
    pose proof (room_le input). lia.
Qed.
Lemma resolve_path_correct_witness :
  resolve_path (lit ".././/lib/x.c") (lit "/usr/src") = lit "usr/lib/x.c".
Proof.
  assert (canonical [lit "usr"; lit "src"]) as Hc.
  { repeat constructor; try done; intros Hin; vm_compute in Hin; repeat (apply elem_of_cons in Hin as [Hin|Hin]; [discriminate Hin|]);
      by apply elem_of_nil in Hin. }
  destruct (resolve_path_correct (lit ".././/lib/x.c") (lit "/usr/src") [lit "usr"; lit "src"] Hc
    (or_introl eq_refl) ltac:(vm_compute; lia)) as [E _].
  rewrite E. vm_compute. reflexivity.
Defined.
