(* ===== verification/SyscallMem.v ===== *)
(** Growing the heap: [syscall_grow_pages] ([src/kernel/syscall_common.c]) and [sys_brk]
    ([src/kernel/syscall_posix.c]) give a process zeroed pages of its own and change nothing else. *)
From S2P Require Import Prelude Pmm Paging PagingInv PagingMap PagingCow Ramfs Elf ElfLoad Process ProcessExec ProcessSys ProcessFds ProcessThm RamfsInv Syscall SyscallThm.

#[local] Opaque ENTRIES zero_table.

Section grow.
Context (root : Z) (s0 : vm).

(** Memory that belongs to nobody may change. *)
Lemma loaded_free_frame pages s f m : loaded root s0 pages s -> page_addr f -> ~ held (vpmm s) f -> bytes_ok m ->
  (forall a, ~ f <= a < f + 4096 -> aget m a = aget (vmem s) a) -> loaded root s0 pages (set_vmem m s).
Proof.
  intros L Hf Hfree Hb Hm. pose proof (ld_ok _ _ _ _ L) as Hpt.
  assert (forall t, page_addr t -> t <> f -> forall a, t <= a < t + 4096 -> aget m a = aget (vmem s) a) as Hfar.
  { intros t [_ Ht] Hne a Ha. apply Hm. destruct Hf as [_ Hf]. zlia. }
  destruct (pt_ok_frame (vmem s) m (vpmm s) (vpmm s) root) as (A & B & C); [done|done|apply Hpt|done|..].
  { intros q t Hq Ht. pose proof (pt_held _ _ _ Hpt q t Hq Ht) as Hh. split; [done|]. apply Hfar; [by eapply pt_page|].
    congruence. }
  split; cbn [vmem vpmm set_vmem active_root]; try apply L; try done.
  - intros v g Hv. rewrite C. by apply (ld_leaf _ _ _ _ L).
  - intros v g q t Hv Hq. rewrite B by done. by apply (ld_apart _ _ _ _ L v).
  - intros v Hv. rewrite C. by apply (ld_other _ _ _ _ L).
  - intros q t Hq. rewrite B by done. by apply (ld_new _ _ _ _ L).
  - intros t a Ht Hnt Ha. rewrite (Hfar t); [by apply (ld_stable _ _ _ _ L t)| | |done].
    + eapply held_page; [apply Hpt|apply Hpt|]. by apply (ld_held _ _ _ _ L).
    + intros ->. by apply Hfree, (ld_held _ _ _ _ L).
Qed.

Lemma mget_zero_bytes n m x y : bytes_ok m -> mget n m x = 0 -> x <= y < x + Z.of_nat n -> aget m y = 0.
Proof.
  intros Hb. revert x. induction n as [|n IH]; intros x Hx Hy; [lia|]. cbn [mget] in Hx.
  pose proof (Hb x). pose proof (mget_bound n m (x + 1) Hb).
  destruct (Z.eq_dec y x) as [->|]; [lia|]. apply (IH (x + 1)); lia.
Qed.
Lemma zero_page_byte f m a : f <= a < f + 4096 -> bytes_ok m -> aget (zero_table 512 f 0 m) a = 0.
Proof.
  intros Ha Hb. set (j := (a - f) / 8). apply (mget_zero_bytes 8 _ (slot f j)).
  - by apply zero_table_bytes.
  - apply zero_table_word; unfold j; zlia.
  - unfold slot, j. zlia.
Qed.

Lemma grow_loop_spec fuel pages n va s : loaded root s0 pages s -> va mod 4096 = 0 -> 0 <= va ->
  va + 4096 * Z.of_nat n <= 2 ^ 39 -> (forall w, is_Some (pages !! w) -> w < va) ->
  (forall w g off, pages !! w = Some g -> 0 <= off < 4096 -> aget (vmem s) (g + off) = 0) ->
  3 * Z.of_nat n <= free_pages (vpmm s) -> (n <= fuel)%nat ->
  exists s' pages', grow_loop fuel va (va + 4096 * Z.of_nat n) s = Some (true, s') /\ loaded root s0 pages' s' /\
    (forall w, is_Some (pages' !! w) <-> is_Some (pages !! w) \/ (va <= w < va + 4096 * Z.of_nat n /\ w mod 4096 = 0)) /\
    (forall w g off, pages' !! w = Some g -> 0 <= off < 4096 -> aget (vmem s') (g + off) = 0).
Proof.
  revert pages va s fuel. induction n as [|n IH]; intros pages va s fuel L Hm Hva Hb Hlt Hz Hfree Hfuel.
  { exists s, pages. assert ((va <? va + 4096 * Z.of_nat 0) = false) as E by (apply Z.ltb_ge; lia).
    split; [destruct fuel; cbn [grow_loop]; by rewrite E|]. split; [done|]. split; [|done].
    intros w. split; [by left|]. intros [?|?]; [done|lia]. }
  destruct fuel as [|fuel]; [lia|]. cbn [grow_loop].
  assert ((va <? va + 4096 * Z.of_nat (S n)) = true) as -> by (apply Z.ltb_lt; lia). cbn [negb].
  pose proof (ld_ok _ _ _ _ L) as Hpt. pose proof (pt_base _ _ _ Hpt) as [Hb0 Hbm].
  destruct (alloc_page_cases (vpmm s) (pt_pmm _ _ _ Hpt)) as [[-> E0]|(k & p & -> & Hal & Hok)]; [lia|].
  set (f := phys_base (vpmm s) + k * PAGE_SIZE) in *.
  replace (f =? 0) with false.
  2: { symmetry. apply Z.eqb_neq. pose proof (ok_base _ (pt_pmm _ _ _ Hpt)). destruct Hal as [? _]. unfold f, PAGE_SIZE. lia. }
  destruct (allocated_new _ _ _ Hal) as [Hnew Hfresh]. fold f in Hnew, Hfresh.
  assert (page_addr f) as Hf.
  { eapply held_page; [exact Hok| |exact Hnew]. destruct Hal as (_ & _ & _ & _ & _ & ->). exact Hbm. }
  change (Z.lor (Z.lor PTE_PRESENT PTE_WRITABLE) PTE_USER) with USER_FLAGS.
  set (sz := set_vmem (zero_table 512 f 0 (vmem s)) s).
  assert (loaded root s0 pages sz) as Lz.
  { apply (loaded_free_frame pages s f); [done|done|done|by apply zero_table_bytes, (pt_bytes _ _ _ Hpt)|].
    intros a Ha. apply zero_table_other; [lia|]. unfold slot. lia. }
  change (set_vmem (zero_table 512 f 0 (vmem (set_vpmm p s))) (set_vpmm p s)) with (set_vpmm p sz).
  assert (pages !! va = None) as Hn.
  { destruct (pages !! va) eqn:E; [|done]. exfalso. pose proof (Hlt va ltac:(by eexists)). lia. }
  assert (pt_ok (vmem (set_vpmm p sz)) (vpmm (set_vpmm p sz)) root) as Hpt1.
  { pose proof (ld_ok _ _ _ _ Lz) as Hptz.
    destruct (pt_ok_frame (vmem sz) (vmem sz) (vpmm sz) p root) as (A & _); [done|apply Hptz|done|apply Hal| |exact A].
    intros q t Hq Ht. split; [|done]. eapply allocated_held; [done|by eapply (pt_held _ _ _ Hptz)]. }
  destruct (map_page_uses root va f USER_FLAGS (set_vpmm p sz) Hpt1) as (s1 & E1 & Hu).
  { cbn. destruct Hal as (_ & _ & _ & -> & _). lia. }
  destruct (load_page root s0 pages sz va k p Lz Hal Hok ltac:(lia) Hm Hn) as [Em|(s1' & Em & L1 & Hkeep)];
    change (phys_base (vpmm sz) + k * PAGE_SIZE) with f in *.
  { exfalso. unfold paging_map_page in Em. change (active_root (set_vpmm p sz)) with (active_root sz) in Em.
    rewrite (ld_active _ _ _ _ Lz) in Em. congruence. }
  rewrite Em. assert (s1' = s1) as ->.
  { unfold paging_map_page in Em. change (active_root (set_vpmm p sz)) with (active_root sz) in Em.
    rewrite (ld_active _ _ _ _ Lz) in Em. congruence. }
  assert (u64 (va + PAGE_SIZE) = va + 4096) as -> by (unfold PAGE_SIZE; rewrite u64_small; lia).
  replace (va + 4096 * Z.of_nat (S n)) with (va + 4096 + 4096 * Z.of_nat n) by lia.
  assert (forall off, 0 <= off < 4096 -> aget (vmem s1) (f + off) = 0) as Hzf.
  { intros off Ho. rewrite <- (zero_page_byte f (vmem s) (f + off)) by (lia || apply (pt_bytes _ _ _ Hpt)).
    destruct (map_page_mapped root va f USER_FLAGS (set_vpmm p sz) Hpt1 Hf) as [E2|(s2 & E2 & M)];
      [unfold USER_FLAGS; lia|congruence|]. assert (s2 = s1) as -> by congruence.
    apply (mp_frame _ _ _ _ _ _ M). intros q t Hq Ht Ha.
    assert (t <> f) as Hne by (eapply (ld_apart _ _ _ _ L1 va); [apply lookup_insert_eq|done|done]).
    destruct (pt_page _ _ _ _ _ (ld_ok _ _ _ _ L1) Hq Ht) as [_ Htm]. destruct Hf as [_ Hfm]. zlia. }
  destruct (IH (<[va := f]> pages) (va + 4096) s1 fuel L1) as (s' & pages' & E & L' & Hdom & Hz').
  - zlia.
  - lia.
  - lia.
  - intros w [g Hw]. apply lookup_insert_Some in Hw as [[-> _]|[_ Hw]]; [lia|].
    pose proof (Hlt w ltac:(by eexists)). lia.
  - intros w g off Hw Ho. apply lookup_insert_Some in Hw as [[-> <-]|[Hne Hw]]; [by apply Hzf|].
    rewrite (Hkeep w) by done. unfold sz. cbn [vmem set_vmem].
    rewrite zero_table_other; [by apply (Hz w)|lia|]. unfold slot.
    assert (g <> f) by (intros ->; by apply Hfresh, (ld_frame _ _ _ _ L w)).
    destruct (ld_page _ _ _ _ _ _ L Hw) as [_ Hgm]. destruct Hf as [_ Hfm]. zlia.
  - cbn in Hu. destruct Hal as (_ & _ & _ & Hfr & _). lia.
  - lia.
  - exists s', pages'. split; [done|]. split; [done|]. split; [|done]. intros w. rewrite Hdom. split.
    + intros [[g Hw]|[? ?]]; [|right; split; [lia|done]].
      apply lookup_insert_Some in Hw as [[-> _]|[_ Hw]]; [right; split; [lia|done]|left; by eexists].
    + intros [[g Hw]|[Hwb Hwm]]; [left|].
      * destruct (Z.eq_dec va w) as [->|]; [exists f; apply lookup_insert_eq|]. exists g. by rewrite lookup_insert_ne.
      * destruct (Z.eq_dec va w) as [->|]; [left; exists f; apply lookup_insert_eq|right]. split; [zlia|done].
Qed.
End grow.

(** ** [sys_brk] *)

Lemma free_le_total p : pmm_ok p -> free_pages p <= total_pages p.
Proof.
  intros Hp. rewrite (ok_free p Hp). pose proof (nfree_bounds (Z.to_nat (total_pages p)) (refs p)).
  pose proof (ok_total p Hp). lia.
Qed.

Definition page_up (x : Z) : Z := (x + 4095) / 4096 * 4096.
Lemma page_round_up_up x : 0 <= x <= 2 ^ 38 -> syscall_page_round_up x = page_up x /\ x <= page_up x < x + 4096.
Proof.
  intros Hx. unfold syscall_page_round_up, page_up, PAGE_SIZE. rewrite u64_small by lia.
  rewrite (land_page) by lia. split; zlia.
Qed.

Definition brk_pages (old new : Z) : Z := (page_up new - page_up old) / 4096.

(** The buffer of [n] bytes at [buf] lies in pages the address space [v] has gained since [s0]. *)
Definition owns (s0 : vm) (buf n : Z) (v : vm) (pages : gmap Z Z) : Prop :=
  loaded (active_root s0) s0 pages v /\ forall i, 0 <= i < n -> is_Some (pages !! page_start (buf + i)).

Lemma brk_run requested c e s :
  let v := kvm (sy s) in let root := active_root v in let old := user_brk (getp (sy s) c) in
  process_mode (sy s) = true -> current (sy s) = Some c -> pt_ok (vmem v) (vpmm v) root ->
  0 < old < requested -> requested <= 2 ^ 38 -> 3 * brk_pages old requested <= free_pages (vpmm v) ->
  exists v' pages, sys_brk requested e s = Ok requested e (set_sy (upd c (set_brk requested) (set_kvm v' (sy s))) s) /\
    loaded root v pages v' /\ page_up old <= page_up requested /\
    (forall w, is_Some (pages !! w) <-> page_up old <= w < page_up requested /\ w mod 4096 = 0) /\
    (forall w g off, pages !! w = Some g -> 0 <= off < 4096 -> aget (vmem v') (g + off) = 0).
Proof.
  intros v root old Hmode Hc Hpt Hold Hreq Hfree.
  destruct (page_round_up_up old) as [E1 B1]; [lia|]. destruct (page_round_up_up requested) as [E2 B2]; [lia|].
  assert (page_up requested = page_up old + 4096 * brk_pages old requested /\ 0 <= brk_pages old requested) as [E3 Hn0].
  { unfold brk_pages, page_up in *. split; [zlia|]. apply Z.div_pos; [|lia].
    assert ((old + 4095) / 4096 <= (requested + 4095) / 4096) by (apply Z.div_le_mono; lia). lia. }
  assert (free_pages (vpmm v) <= total_pages (vpmm v)) as Hft by apply free_le_total, (pt_pmm _ _ _ Hpt).
  destruct (grow_loop_spec root v (S (Z.to_nat (total_pages (vpmm v)))) ∅ (Z.to_nat (brk_pages old requested)) (page_up old) v)
    as (v' & pages & E & L & Hdom & Hz).
  { by apply loaded_refl. } { unfold page_up. zlia. } { lia. } { lia. } { intros w [g Hw]. done. } { done. } { lia. } { lia. }
  rewrite Z2Nat.id, <- E3 in * by lia.
  exists v', pages.
  assert (sys_brk requested e s = Ok requested e (set_sy (process_set_current_brk requested (set_kvm v' (sy s))) s)) as Hrun.
  { unfold sys_brk, mbind, M_bind, get_brk_current, gets. rewrite Hmode.
    assert (process_current_brk (sy s) = old) as -> by (unfold process_current_brk; by rewrite Hc).
    replace (old =? 0) with false by lia. replace (requested =? 0) with false by lia.
    replace (old <? requested) with true by lia. rewrite E1, E2.
    unfold run_vm, run_sy, syscall_grow_pages. fold v. rewrite E. cbn [negb].
    unfold set_brk_current. cbn [sy set_sy]. change (process_mode (set_kvm v' (sy s))) with (process_mode (sy s)).
    rewrite Hmode. reflexivity. }
  rewrite Hrun. unfold process_set_current_brk. change (current (set_kvm v' (sy s))) with (current (sy s)). rewrite Hc.
  split; [done|]. split; [done|]. split; [lia|]. split; [|done].
  intros w. rewrite Hdom. split; [intros [[g Hg]|?]; done|by right].
Qed.

(** A [brk] that grows the heap of a process, with three free pages for each new page, succeeds:
    the break moves; every byte of the new pages is mapped for the user, readable and writable, and
    is zero; the page tables stay well-formed; every other page keeps its mapping, and every byte of
    memory that was in use, other than page tables of this process, keeps its value. *)
Theorem sys_brk_correct requested c e s :
  let v := kvm (sy s) in let root := active_root v in let old := user_brk (getp (sy s) c) in
  process_mode (sy s) = true -> current (sy s) = Some c -> pt_ok (vmem v) (vpmm v) root ->
  0 < old < requested -> requested <= 2 ^ 38 -> 3 * brk_pages old requested <= free_pages (vpmm v) ->
  exists s', sys_brk requested e s = Ok requested e s' /\
    let v' := kvm (sy s') in
    process_current_brk (sy s') = requested /\ pt_ok (vmem v') (vpmm v') root /\ active_root v' = root /\
    (forall va, page_up old <= va < page_up requested ->
       paging_get_flags va v' = USER_FLAGS /\ user_byte v' va = 0) /\
    (forall va, 0 <= va < 2 ^ 39 -> ~ page_up old <= va < page_up requested ->
       paging_get_phys va v' = paging_get_phys va v /\ paging_get_flags va v' = paging_get_flags va v) /\
    (forall t a, held (vpmm v) t -> (forall q, path_ok q -> table_at (vmem v) root q <> Some t) ->
       t <= a < t + 4096 -> aget (vmem v') a = aget (vmem v) a).
Proof.
  intros v root old Hmode Hc Hpt Hold Hreq Hfree.
  destruct (brk_run requested c e s Hmode Hc Hpt Hold Hreq Hfree) as (v' & pages & E & L & Hle & Hdom & Hz).
  eexists. split; [exact E|]. cbn zeta. cbn [sy set_sy].
  change (kvm (upd c (set_brk requested) (set_kvm v' (sy s)))) with v'.
  split. { unfold process_current_brk. change (current (upd c _ _)) with (current (sy s)). rewrite Hc. by rewrite getp_upd, decide_True. }
  split; [apply L|]. split; [apply L|]. split; [|split; [|apply L]].
  - intros va Hva. assert (is_Some (pages !! page_start va)) as [f Hf].
    { apply Hdom. unfold page_start, page_up in *. zlia. }
    destruct (user_byte_frame root v pages v' va f L Hf) as [-> ->]. split; [done|].
    apply (Hz _ f _ Hf), Z.mod_pos_bound. lia.
  - intros va Hva Hout. unfold paging_get_phys, paging_get_flags. rewrite (ld_active _ _ _ _ L). fold root.
    rewrite !get_phys_vleaf, !get_flags_vleaf. rewrite (ld_other _ _ _ _ L); [done|].
    intros w Hw Hs. destruct (proj1 (Hdom w) Hw) as [Hwb Hwm].
    unfold same_page, page_up in *. zlia.
Qed.
(** One more page for a process with an empty heap. *)
Definition brk_kern : kern :=
  set_sy (upd 0 (set_brk BRK_BASE) (set_kvm paging_example (ks demo))) (demo_kern []).
Lemma sys_brk_correct_witness :
  exists s', sys_brk 0x40001000 [] brk_kern = Ok 0x40001000 [] s' /\
    user_byte (kvm (sy s')) 0x40000123 = 0 /\ paging_get_flags 0x40000123 (kvm (sy s')) = USER_FLAGS.
Proof.
  destruct (sys_brk_correct 0x40001000 0 [] brk_kern) as (s' & E & _ & _ & _ & Hu & _).
  - reflexivity.
  - reflexivity.
  - exact paging_example_ok.
  - vm_compute. split; reflexivity.
  - vm_compute. congruence.
  - vm_compute. congruence.
  - exists s'. split; [exact E|].
    destruct (Hu 0x40000123 ltac:(vm_compute; split; congruence)) as [Hf Hb]. split; [exact Hb|exact Hf].
Defined.
