(* ===== verification/SyscallFile.v ===== *)
(** Reading files ([read_from_fd_entry], [sys_read] of [src/kernel/syscall_posix.c]): what arrives in the
    user's buffer. *)
From S2P Require Import Prelude Pmm Paging PagingInv PagingMap PagingCow Ramfs Elf ElfLoad Process ProcessExec ProcessSys ProcessFds ProcessThm RamfsInv RamfsData Syscall SyscallThm SyscallMem.

#[local] Opaque ENTRIES zero_table.

(** Only the memory has changed. *)
Definition with_vm (v : vm) (s : kern) : kern := set_sy (set_kvm v (sy s)) s.

Section buffer.
Context (s0 : vm).
Notation root := (active_root s0).

Lemma owns_weaken buf n m k v pages : owns s0 buf n v pages -> 0 <= k -> k + m <= n -> owns s0 (buf + k) m v pages.
Proof.
  intros [L H] Hk Hm. split; [done|]. intros i Hi. rewrite <- Z.add_assoc. apply H. lia.
Qed.

(** Nothing to do for [paging_ensure_writable]: the pages are writable. *)
Lemma ensure_loop_noop k p v : 0 <= p -> p + 4096 * Z.of_nat k + 4096 <= 2 ^ 39 ->
  (forall j, 0 <= j <= Z.of_nat k -> paging_get_flags (p + 4096 * j) v = USER_FLAGS) ->
  ensure_loop (S (S k)) p (p + 4096 * Z.of_nat k) v = Some v.
Proof.
  revert p. induction k as [|k IH]; intros p Hp Hb Hf; cbn [ensure_loop].
  - assert ((p <=? p + 4096 * Z.of_nat 0) = true) as -> by (apply Z.leb_le; lia). cbn [negb].
    pose proof (Hf 0 ltac:(lia)) as Hf0. rewrite Z.mul_0_r, Z.add_0_r in Hf0. rewrite Hf0. change (tst USER_FLAGS PTE_COW) with false. rewrite andb_false_r.
    unfold PAGE_SIZE. rewrite u64_small by lia.
    assert ((p + 4096 <=? p + 4096 * Z.of_nat 0) = false) as -> by (apply Z.leb_gt; lia). done.
  - assert ((p <=? p + 4096 * Z.of_nat (S k)) = true) as -> by (apply Z.leb_le; lia). cbn [negb].
    pose proof (Hf 0 ltac:(lia)) as Hf0. rewrite Z.mul_0_r, Z.add_0_r in Hf0. rewrite Hf0. change (tst USER_FLAGS PTE_COW) with false. rewrite andb_false_r.
    unfold PAGE_SIZE. rewrite u64_small by lia.
    replace (p + 4096 * Z.of_nat (S k)) with (p + 4096 + 4096 * Z.of_nat k) by lia.
    apply IH; [lia|lia|]. intros j Hj. replace (p + 4096 + 4096 * j) with (p + 4096 * (j + 1)) by lia. apply Hf. lia.
Qed.
Lemma ensure_noop buf n v pages : owns s0 buf n v pages -> 0 <= buf -> 0 <= n -> buf + n <= 2 ^ 38 ->
  paging_ensure_writable buf n v = Some v.
Proof.
  intros [L Hp] Hb Hn Hr. unfold paging_ensure_writable. destruct (Z.eqb_spec n 0); [done|].
  change (not64 0xfff) with (not64 (PAGE_SIZE - 1)). rewrite (u64_small (buf + n - 1)), !land_page by lia.
  set (p := buf - buf mod 4096). set (k := (buf + n - 1) / 4096 - buf / 4096).
  assert (buf / 4096 <= (buf + n - 1) / 4096) as Hk by (apply Z.div_le_mono; lia).
  replace (buf + n - 1 - (buf + n - 1) mod 4096) with (p + 4096 * Z.of_nat (Z.to_nat k)) by (unfold p, k; zlia).
  replace (Z.to_nat ((p + 4096 * Z.of_nat (Z.to_nat k) - p) / PAGE_SIZE + 2)) with (S (S (Z.to_nat k))) by (unfold PAGE_SIZE; zlia).
  apply ensure_loop_noop; [unfold p; zlia|unfold p, k; zlia|]. intros j Hj.
  set (i := if bool_decide (j = 0) then 0 else p + 4096 * j - buf).
  assert (0 <= i < n /\ page_start (buf + i) = p + 4096 * j) as [Hi Es].
  { unfold i, page_start, p, k in *. case_bool_decide; [subst j; split; [lia|zlia]|]. split; zlia. }
  destruct (Hp i Hi) as [f Hf]. rewrite Es in Hf. rewrite <- (Z.add_0_r (p + 4096 * j)).
  by apply (frame_byte root s0 pages v _ f 0 L Hf).
Qed.

Lemma user_put_run pages f va b e s : loaded root s0 pages (kvm (sy s)) -> pages !! page_start va = Some f -> isu8 b ->
  let v' := set_vmem (aset (vmem (kvm (sy s))) (f + va mod 4096) b) (kvm (sy s)) in
  user_put va b e s = Ok () e (with_vm v' s) /\ loaded root s0 pages v'.
Proof.
  intros L Hf Hb v'. destruct (ustore_spec root s0 pages (kvm (sy s)) _ f (va mod 4096) b L Hf) as [E L'];
    [apply Z.mod_pos_bound; lia|done|].
  replace (page_start va + va mod 4096) with va in E by (unfold page_start; lia).
  split; [|done]. unfold user_put, on_vm, run_vm, run_sy. by rewrite E.
Qed.

(** Two user bytes of loaded pages are in the same place only if they are the same. *)
Lemma user_place pages v x y f g : loaded root s0 pages v -> pages !! page_start x = Some f -> pages !! page_start y = Some g ->
  f + x mod 4096 = g + y mod 4096 -> x = y.
Proof.
  intros L Hf Hg E. destruct (ld_page _ _ _ _ _ _ L Hf) as [_ Ef], (ld_page _ _ _ _ _ _ L Hg) as [_ Eg].
  assert (f = g) as <- by zlia. pose proof (ld_inj _ _ _ _ L _ _ _ Hf Hg). unfold page_start in *. zlia.
Qed.

Lemma put_bytes_spec pages l buf e s : owns s0 buf (Z.of_nat (length l)) (kvm (sy s)) pages -> Forall (fun b => isu8 b) l ->
  0 <= buf -> buf + Z.of_nat (length l) <= 2 ^ 38 ->
  exists v', put_bytes l buf e s = Ok () e (with_vm v' s) /\ loaded root s0 pages v' /\
    forall va, is_Some (pages !! page_start va) ->
      user_byte v' va = if bool_decide (buf <= va < buf + Z.of_nat (length l)) then nth (Z.to_nat (va - buf)) l 0
                        else user_byte (kvm (sy s)) va.
Proof.
  revert buf s. induction l as [|b l IH]; intros buf s Ho Hl Hb Hr.
  { exists (kvm (sy s)). split; [by destruct s as [[]]|]. split; [apply Ho|]. intros va _.
    by rewrite bool_decide_eq_false_2 by (cbn; lia). }
  cbn [length] in *. apply Forall_cons in Hl as [Hb8 Hl]. pose proof Ho as [L Hp].
  destruct (Hp 0 ltac:(lia)) as [f Hf]. rewrite Z.add_0_r in Hf.
  destruct (user_put_run pages f buf b e s L Hf Hb8) as [E L1]. cbn zeta in E, L1.
  set (v1 := set_vmem _ _) in *. cbn [put_bytes]. unfold mbind, M_bind. rewrite E. rewrite u64_small by lia.
  destruct (IH (buf + 1) (with_vm v1 s)) as (v' & E' & L' & Hu).
  { split; [exact L1|intros i Hi; rewrite <- Z.add_assoc; apply Hp; lia]. } { done. } { lia. } { lia. }
  exists v'. split; [exact E'|]. split; [done|]. intros va Hva. rewrite Hu by done. cbn [sy with_vm set_sy kvm set_kvm].
  destruct Hva as [g Hg]. rewrite (proj1 (user_byte_frame root s0 pages v1 va g L1 Hg)), (proj1 (user_byte_frame root s0 pages _ va g L Hg)).
  unfold v1. cbn [vmem set_vmem]. destruct (decide (va = buf)) as [->|Hne].
  - rewrite bool_decide_eq_false_2, bool_decide_eq_true_2 by lia. rewrite Z.sub_diag. assert (g = f) as -> by congruence.
    by rewrite aget_aset_eq.
  - rewrite aget_aset_ne by (intros E2; apply Hne; symmetry; by eapply (user_place pages)).
    repeat case_bool_decide; try lia.
    replace (Z.to_nat (va - buf)) with (S (Z.to_nat (va - (buf + 1)))) by lia. done.
Qed.

(** The file bytes that [f] reads: at a frame in use since [s0] that is not a page table. *)
Definition file_bytes (a n : Z) : Prop := forall i, 0 <= i < n -> exists t, held (vpmm s0) t /\
  (forall q, path_ok q -> table_at (vmem s0) root q <> Some t) /\ t <= a + i < t + 4096.

(** Address and size of what an entry reads from. *)
Definition source (f : fd_entry) (s : kern) : Z * Z :=
  match fd_dynfile f with
  | Some i => (data (getfile (fsys s) i), size (getfile (fsys s) i))
  | None => (fd_data f, fd_size f)
  end.

Lemma read_run r buf count c e s pages :
  let f := fde_at (sy s) c r in let n := Z.min count (snd (source f s) - fd_pos f) in
  current (sy s) = Some c -> fd_pipe f = None -> isu64 (fd_pos f) -> fd_pos f < snd (source f s) < 2 ^ 63 ->
  0 <= count -> owns s0 buf n (kvm (sy s)) pages -> 0 <= buf -> buf + n <= 2 ^ 38 ->
  file_bytes (fst (source f s) + fd_pos f) n ->
  exists v', read_from_fd_entry r buf count e s =
    Ok n e (set_sy (upd c (fun p => set_fde r (set_pos (fd_pos f + n) (fde p r)) p) (set_kvm v' (sy s))) s) /\
    loaded root s0 pages v' /\
    forall va, is_Some (pages !! page_start va) ->
      user_byte v' va = if bool_decide (buf <= va < buf + n) then aget (vmem s0) (fst (source f s) + fd_pos f + (va - buf))
                        else user_byte (kvm (sy s)) va.
Proof.
  intros f n Hc Hpipe Hpos Hsize Hcount Ho Hb Hr Hfile. pose proof Ho as [L Hp].
  assert (0 <= n) as Hn by lia.
  destruct (ucopy_spec root s0 pages (Z.to_nat n) buf (fst (source f s) + fd_pos f) (kvm (sy s)) L) as (v' & E & L' & Hu).
  { done. } { lia. } { rewrite Z2Nat.id by lia. done. } { rewrite Z2Nat.id by lia. apply Hfile. }
  rewrite Z2Nat.id in Hu by lia. exists v'. split; [|done].
  unfold read_from_fd_entry, get_entry, mbind, M_bind, me. rewrite Hc. unfold gets. fold f. rewrite Hpipe.
  fold (source f s). replace (snd (source f s) <=? fd_pos f) with false by lia. fold n.
  unfold ensure_writable, on_vm, run_vm, run_sy. rewrite (ensure_noop buf n _ pages) by done.
  cbn [sy set_sy kvm set_kvm]. unfold on_vm, run_vm, run_sy. cbn [sy set_sy kvm set_kvm]. rewrite E.
  unfold upd_entry, me, mbind, M_bind. cbn [sy set_sy].
  change (current (set_kvm v' (set_kvm (kvm (sy s)) (sy s)))) with (current (sy s)). rewrite Hc.
  rewrite u64_small by lia. reflexivity.
Qed.
End buffer.

Lemma fd_index_small fd : 3 <= fd < 35 -> fd_index fd = fd - 3.
Proof. intros H. unfold fd_index. rewrite (i32_small fd), i32_small by lia. done. Qed.
Lemma fd_get_run fd c e s : current (sy s) = Some c -> 3 <= fd < 35 -> fd_used (fde_at (sy s) c (Fd (fd - 3))) = true ->
  fd_get fd e s = Ok (Some (Fd (fd - 3))) e s.
Proof.
  intros Hc Hfd Hu. unfold fd_get, mbind, M_bind, me. rewrite Hc. unfold gets. rewrite fd_index_small by done.
  unfold process_fd_get, MAX_FDS. replace (fd - 3 <? 0) with false by lia. replace (32 <=? fd - 3) with false by lia.
  by rewrite Hu.
Qed.

(** C26: A process that grows its heap with [brk] and reads a file into it gets the file: the read returns
    the smaller of the count and what is left of the file, that part of the heap holds the file's
    bytes from the descriptor's position on, the rest of the new heap is still zero, and the position
    has moved. *)
Theorem read_into_heap_correct requested c e s fd buf count :
  let v := kvm (sy s) in let root := active_root v in let old := user_brk (getp (sy s) c) in
  let f := fde_at (sy s) c (Fd (fd - 3)) in let n := Z.min count (snd (source f s) - fd_pos f) in
  process_mode (sy s) = true -> current (sy s) = Some c -> pt_ok (vmem v) (vpmm v) root ->
  0 < old < requested -> requested <= 2 ^ 38 -> 3 * brk_pages old requested <= free_pages (vpmm v) ->
  3 <= fd < 35 -> fd_used f = true -> fd_pipe f = None -> isu64 (fd_pos f) ->
  fd_pos f < snd (source f s) < 2 ^ 63 -> file_bytes v (fst (source f s) + fd_pos f) n ->
  0 <= count -> page_up old <= buf -> buf + n <= requested ->
  exists s', (sys_brk requested;; sys_read fd buf count) e s = Ok n e s' /\
    fde_at (sy s') c (Fd (fd - 3)) = set_pos (fd_pos f + n) f /\
    forall va, page_up old <= va < page_up requested -> user_byte (kvm (sy s')) va =
      if bool_decide (buf <= va < buf + n) then aget (vmem v) (fst (source f s) + fd_pos f + (va - buf)) else 0.
Proof.
  intros v root old f n Hmode Hc Hpt Hold Hreq Hfree Hfd Hused Hpipe Hpos Hsize Hfile Hcount Hb1 Hb2.
  destruct (brk_run requested c e s Hmode Hc Hpt Hold Hreq Hfree) as (v1 & pages & E & L & Hle & Hdom & Hz).
  destruct (page_round_up_up old) as [_ B1]; [lia|]. destruct (page_round_up_up requested) as [_ B2]; [lia|].
  set (s1 := set_sy (upd c (set_brk requested) (set_kvm v1 (sy s))) s) in *.
  assert (fde_at (sy s1) c (Fd (fd - 3)) = f) as Ef.
  { unfold s1, f, fde_at. cbn [sy set_sy]. rewrite getp_upd, decide_True by done. done. }
  assert (current (sy s1) = Some c) as Hc1 by done.
  assert (forall va, page_up old <= va < page_up requested -> is_Some (pages !! page_start va)) as Hin.
  { intros va Hva. apply Hdom. unfold page_start, page_up in *. zlia. }
  destruct (read_run v (Fd (fd - 3)) buf count c e s1 pages) as (v2 & E2 & L2 & Hu).
  { done. } { by rewrite Ef. } { by rewrite Ef. } { by rewrite Ef. } { done. }
  { rewrite Ef. split; [done|]. intros i Hi. apply Hin. unfold n in *. change (source f s1) with (source f s) in Hi. lia. }
  { lia. } { rewrite Ef. change (source f s1) with (source f s). fold n. lia. }
  { rewrite Ef. done. }
  rewrite Ef in E2, Hu. change (source f s1) with (source f s) in E2, Hu. fold n in E2, Hu.
  eexists. split; [|split].
  - unfold mbind, M_bind. rewrite E. unfold sys_read.
    replace (fd =? 0) with false by lia. replace ((fd =? 1) || (fd =? 2)) with false by lia.
    unfold mbind, M_bind. rewrite (fd_get_run fd c e s1) by (done || by rewrite Ef). exact E2.
  - unfold fde_at at 1. cbn [sy set_sy]. rewrite getp_upd, decide_True, fde_set_fde, decide_True by done.
    change (fde (getp (set_kvm v2 (sy s1)) c) (Fd (fd - 3))) with (fde_at (sy s1) c (Fd (fd - 3))). by rewrite Ef.
  - intros va Hva. cbn [sy set_sy]. change (kvm (upd c ?g (set_kvm v2 (sy s1)))) with v2.
    rewrite Hu by by apply Hin. case_bool_decide; [done|]. change (kvm (sy s1)) with v1.
    destruct (Hin va Hva) as [g Hg]. rewrite (proj1 (user_byte_frame root v pages v1 va g L Hg)).
    apply (Hz _ g _ Hg), Z.mod_pos_bound. lia.
Qed.

(** Five bytes of a seven-byte file whose data lie in the page at 0x80000000, read at 0x40000010. *)
Definition file_entry : fd_entry := FdEntry true 0x80000000 7 2 false None None false [].
Definition read_kern : kern := set_sy (upd 0 (set_fde (Fd 0) file_entry) (sy brk_kern)) brk_kern.
Lemma read_into_heap_correct_witness :
  exists s', (sys_brk 0x40001000;; sys_read 3 0x40000010 100) [] read_kern = Ok 5 [] s' /\
    fd_pos (fde_at (sy s') 0 (Fd 0)) = 7 /\ user_byte (kvm (sy s')) 0x40000015 = 0.
Proof.
  destruct (read_into_heap_correct 0x40001000 0 [] read_kern 3 0x40000010 100) as (s' & E & Hf & Hu).
  1-2: reflexivity.
  1: exact paging_example_ok.
  1: vm_compute; split; reflexivity.
  1-2: vm_compute; congruence.
  1: lia.
  1-2: reflexivity.
  1: vm_compute; split; congruence.
  1: vm_compute; split; reflexivity.
  { intros i Hi. exists 0x80000000. split; [exists 0; vm_compute; repeat split; congruence|]. split.
    - intros q Hq Hq'. apply empty_tables in Hq' as [_ Hq']. discriminate Hq'.
    - change (Z.min 100 _) with 5 in Hi. change (fst _ + _) with 0x80000002. lia. }
  1: lia.
  1-2: vm_compute; congruence.
  exists s'. split; [exact E|]. change (3 - 3) with 0 in Hf. split; [by rewrite Hf|].
  rewrite Hu by (vm_compute; split; congruence). reflexivity.
Defined.
