(* ===== verification/SyscallDents.v ===== *)
(** Listing a directory ([sys_getdents64] of [src/kernel/syscall_posix.c]): the records a call leaves in
    the user's buffer, read by the format's rules, are the directory's entries from the descriptor's
    position on, as many as fit. *)
From S2P Require Import Prelude Pmm Paging PagingInv PagingMap PagingCow Ramfs Elf ElfLoad Process ProcessExec ProcessSys ProcessFds ProcessThm RamfsInv RamfsData Syscall SyscallThm SyscallMem SyscallFile.

#[local] Opaque ENTRIES zero_table.

(** ** The entries of a directory *)

Abbreviation dent := (list Z * Z)%type.
Definition row (e : dentry) : dent :=
  (d_name e, if d_directory e then DT_DIR else if d_symlink e then DT_LNK else DT_REG).
Definition dents (rows : list dentry) : list dent := ([DOT], DT_DIR) :: ([DOT; DOT], DT_DIR) :: map row rows.
Definition dent_ok (d : dent) : Prop :=
  (length d.1 <= 127)%nat /\ Forall (fun b => 0 < b < 256) d.1 /\ isu8 d.2.

(** The names of the file system are C strings. *)
Definition names_ok (s : kfs) : Prop := forall i, Forall (fun b => 0 < b < 256) (name (getfile s i)).

Lemma name_copy_ok n k : (length (name_copy n 128) <= 127)%nat /\
  (Forall (fun b => 0 < b < 256) n -> Forall (fun b => 0 < b < 256) (name_copy n k)).
Proof. unfold name_copy. split; [rewrite length_firstn; lia|]. intros H. by apply Forall_take. Qed.
Lemma component_ok n : Forall (fun b => 0 < b < 256) n -> Forall (fun b => 0 < b < 256) (component n).
Proof. induction 1 as [|b l Hb Hl IH]; cbn [component]; [done|]. case_match; [done|]. by constructor. Qed.
Lemma applets_ok : Forall (Forall (fun b => 0 < b < 256)) busybox_applets.
Proof. vm_compute. repeat constructor. Qed.
Lemma raw_child_ok dir raw s d : names_ok s -> raw_child dir raw 128 s = Some d ->
  Forall (fun b => 0 < b < 256) (d_name d).
Proof.
  intros Hs. unfold raw_child. case_match.
  - assert (Forall (fun b => 0 < b < 256) (name_copy (lit "bin") 128)) as Hbin by (vm_compute; repeat constructor).
    assert (Forall (fun b => 0 < b < 256) (name_copy (nth (Z.to_nat raw) busybox_applets []) 128)) as Happ.
    { apply name_copy_ok. destruct (nth_in_or_default (Z.to_nat raw) busybox_applets []) as [Hin| ->]; [|done].
      by apply (proj1 (List.Forall_forall _ _) applets_ok). }
    destruct dir; [by intros [= <-]|]. case_match; by intros [= <-].
  - case_match; [done|]. destruct (child_name dir _ 128) as [[n b]|] eqn:E; [|done]. intros [= <-]. cbn [d_name].
    revert E. unfold child_name. destruct (below dir _) as [p|] eqn:Eb; [|done].
    assert (Forall (fun b => 0 < b < 256) p) as Hp.
    { revert Eb. unfold below. destruct dir as [|c dir]; [intros [= <-]; apply Hs|]. case_match; [done|].
      pose proof (Forall_drop _ (length (c :: dir)) _ (Hs (raw - NUM_APPLETS))) as Hd.
      destruct (skipn _ _) as [|x q]; [done|]. case_match; [|done]. intros [= <-]. by apply Forall_cons in Hd as [_ ?]. }
    destruct p as [|x q]; [done|]. apply component_ok in Hp. case_match; [done|].
    intros E. injection E as <- _. exact Hp.
Qed.
Lemma build_cache_ok n raw dir acc s : names_ok s -> Forall (fun e => dent_ok (row e)) acc ->
  Forall (fun e => dent_ok (row e)) (build_cache n raw dir acc s).
Proof.
  intros Hs. revert raw acc. induction n as [|n IH]; intros raw acc Ha; cbn [build_cache]; [done|].
  case_match; [|done]. destruct (raw_child dir raw 128 s) as [d|] eqn:E; [|by apply IH].
  case_match; [by apply IH|]. apply IH. apply Forall_app. split; [done|]. apply Forall_singleton.
  destruct (name_copy_ok (d_name d) 128) as [Hl Hb]. split; [done|]. split; [by apply Hb, (raw_child_ok dir raw s)|].
  cbn. repeat case_match; done.
Qed.
Lemma dents_ok dir s : names_ok s -> Forall dent_ok (dents (listing dir s)).
Proof.
  intros Hs. repeat constructor; try done. apply Forall_map. apply build_cache_ok; [done|constructor].
Qed.

(** ** Records *)

Lemma reclen_spec n : (length n <= 127)%nat ->
  20 + Z.of_nat (length n) <= reclen n <= 27 + Z.of_nat (length n) /\ reclen n mod 8 = 0.
Proof.
  intros Hn. unfold reclen.
  assert (forallb (fun k => let r := Z.land (19 + Z.of_nat k + 1 + 7) (not64 7) in
    (20 + Z.of_nat k <=? r) && (r <=? 27 + Z.of_nat k) && (r mod 8 =? 0)) (seq 0 128) = true) as H by (vm_compute; reflexivity).
  rewrite forallb_forall in H. specialize (H (length n) ltac:(apply in_seq; lia)). cbn zeta in H.
  apply andb_true_iff in H as [H H3]. apply andb_true_iff in H as [H1 H2]. lia.
Qed.
Lemma dirent64_length ino d : dent_ok d -> Z.of_nat (length (dirent64 ino d.1 d.2)) = reclen d.1.
Proof.
  intros (Hl & _). pose proof (reclen_spec d.1 Hl). unfold dirent64.
  rewrite !length_app, length_map, !repeat_length. rewrite length_seqZ. cbn [length]. lia.
Qed.
Lemma u8_u8 x : isu8 (u8 x).
Proof. apply u8_bound. Qed.
Lemma zeros_ok n : Forall (fun b => isu8 b) (repeat 0 n).
Proof. induction n; by constructor. Qed.
Lemma dirent64_bytes ino d : dent_ok d -> Forall (fun b => isu8 b) (dirent64 ino d.1 d.2).
Proof.
  intros (Hl & Hb & Ht). unfold dirent64.
  apply Forall_app; split; [apply Forall_map, Forall_forall; intros; apply u8_u8|].
  apply Forall_app; split; [apply zeros_ok|].
  apply Forall_app; split; [repeat apply Forall_cons_2; try apply u8_u8; [done|constructor]|].
  apply Forall_app; split; [|apply zeros_ok].
  eapply Forall_impl; [exact Hb|]. cbn. intros. lia.
Qed.

(** ** Reading the records back *)

(** The records of the entries [ds], the first of them at position [pos]. *)
Fixpoint records (pos : Z) (ds : list dent) : list Z :=
  match ds with [] => [] | d :: ds => dirent64 (pos + 1) d.1 d.2 ++ records (pos + 1) ds end.
(** How many entries fit into [room] bytes. *)
Fixpoint fits (room : Z) (ds : list dent) : nat :=
  match ds with
  | [] => O
  | d :: ds => if reclen d.1 <=? room then S (fits (room - reclen d.1) ds) else O
  end.

Fixpoint le_word (l : list Z) : Z := match l with [] => 0 | b :: l => b + 256 * le_word l end.
Fixpoint c_string (l : list Z) : list Z :=
  match l with [] => [] | b :: l => if b =? 0 then [] else b :: c_string l end.
(** What a C program makes of the buffer: from each record its [d_ino], [d_name] and [d_type]; the
    next record is [d_reclen] bytes further. *)
Fixpoint read_dirents (fuel : nat) (l : list Z) : option (list (Z * dent)) :=
  match l, fuel with
  | [], _ => Some []
  | _, O => None
  | _, S fuel =>
      let len := le_word (firstn 2 (skipn 16 l)) in
      if (len <? 20) || (Z.of_nat (length l) <? len) then None
      else
        match read_dirents fuel (skipn (Z.to_nat len) l) with
        | None => None
        | Some ds => Some ((le_word (firstn 8 l), (c_string (skipn 19 l), nth 18 l 0)) :: ds)
        end
  end.
Fixpoint numbered (pos : Z) (ds : list dent) : list (Z * dent) :=
  match ds with [] => [] | d :: ds => (pos + 1, d) :: numbered (pos + 1) ds end.

Lemma c_string_app n l : Forall (fun b => 0 < b < 256) n -> c_string (n ++ 0 :: l) = n.
Proof.
  induction 1 as [|b n Hb Hn IH]; cbn [c_string app]; [done|].
  destruct (Z.eqb_spec b 0); [lia|]. by rewrite IH.
Qed.
Lemma le_word_bytes x n a : 0 <= a -> 0 <= x -> Z.shiftr x (8 * a) < 256 ^ Z.of_nat n ->
  le_word (map (fun k => u8 (Z.shiftr x (8 * k))) (seqZ a (Z.of_nat n))) = Z.shiftr x (8 * a).
Proof.
  revert a. induction n as [|n IH]; intros a Ha Hx Hb.
  { change (256 ^ Z.of_nat 0) with 1 in Hb. pose proof (proj2 (Z.shiftr_nonneg x (8 * a)) Hx). change (0 = Z.shiftr x (8 * a)). lia. }
  rewrite seqZ_cons by lia. cbn [map le_word]. replace (Z.pred (Z.of_nat (S n))) with (Z.of_nat n) by lia.
  assert (Z.shiftr x (8 * Z.succ a) = Z.shiftr x (8 * a) / 256) as E.
  { replace (8 * Z.succ a) with (8 * a + 8) by lia. rewrite <- Z.shiftr_shiftr by lia. by rewrite (Z.shiftr_div_pow2 _ 8). }
  rewrite IH; [|lia|done|]; rewrite E.
  - unfold u8. change (2 ^ 8) with 256. zlia.
  - apply Z.div_lt_upper_bound; [lia|]. rewrite Nat2Z.inj_succ, Z.pow_succ_r in Hb by lia. lia.
Qed.
Lemma le_word_8 x : isu64 x -> le_word (map (fun k => u8 (Z.shiftr x (8 * k))) (seqZ 0 8)) = x.
Proof. intros Hx. pose proof (le_word_bytes x 8 0) as E. rewrite Z.shiftr_0_r in E. apply E; lia. Qed.

(** One record is read back. *)
Lemma read_record fuel pos d l : dent_ok d -> 0 <= pos < 2 ^ 63 ->
  read_dirents (S fuel) (dirent64 (pos + 1) d.1 d.2 ++ l) =
  match read_dirents fuel l with Some ds => Some ((pos + 1, d) :: ds) | None => None end.
Proof.
  intros Hd Hp. pose proof (dirent64_length (pos + 1) d Hd) as Hlen. destruct Hd as (Hl & Hb & Ht).
  destruct (reclen_spec d.1 Hl) as [Hr _].
  assert (exists z, repeat 0 (Z.to_nat (reclen d.1 - 19 - Z.of_nat (length d.1))) = 0 :: z) as [z Ez].
  { destruct (Z.to_nat _) eqn:E; [lia|]. by eexists. }
  set (L := dirent64 (pos + 1) d.1 d.2) in *.
  assert (L = map (fun k => u8 (Z.shiftr (pos + 1) (8 * k))) (seqZ 0 8) ++
    [0; 0; 0; 0; 0; 0; 0; 0; u8 (reclen d.1); u8 (Z.shiftr (reclen d.1) 8); d.2] ++ d.1 ++ 0 :: z) as EL.
  { unfold L, dirent64. by rewrite Ez. }
  assert (length (map (fun k => u8 (Z.shiftr (pos + 1) (8 * k))) (seqZ 0 8)) = 8%nat) as H8 by done.
  pose proof (le_word_8 (pos + 1) ltac:(lia)) as E8. set (H := map _ (seqZ 0 8)) in *. clearbody H.
  assert (le_word (firstn 2 (skipn 16 (L ++ l))) = reclen d.1) as Elen.
  { rewrite EL. destruct H as [|h0 [|h1 [|h2 [|h3 [|h4 [|h5 [|h6 [|h7 [|]]]]]]]]]; try discriminate H8. cbn [app skipn firstn le_word].
    unfold u8. rewrite Z.shiftr_div_pow2 by lia. change (2 ^ 8) with 256. rewrite Z.div_small, Z.mod_small by lia. rewrite Z.mod_small by lia. lia. }
  assert (L ++ l <> []) as Hne by (rewrite EL; destruct H; [discriminate H8|done]).
  cbn [read_dirents]. destruct (L ++ l) as [|b0 r] eqn:E; [done|]. rewrite <- E in *. clear E b0 r. rewrite Elen.
  assert ((reclen d.1 <? 20) || (Z.of_nat (length (L ++ l)) <? reclen d.1) = false) as ->.
  { apply orb_false_iff. rewrite length_app. unfold L. split; [apply Z.ltb_ge; lia|apply Z.ltb_ge]. fold L. rewrite Nat2Z.inj_add, Hlen. lia. }
  assert (skipn (Z.to_nat (reclen d.1)) (L ++ l) = l) as ->.
  { rewrite <- Hlen, Nat2Z.id, skipn_app, skipn_all, Nat.sub_diag. done. }
  destruct (read_dirents fuel l); [|done]. do 2 f_equal.
  assert (firstn 8 (L ++ l) = H) as ->.
  { rewrite EL, <- !app_assoc, firstn_app, H8, Nat.sub_diag, firstn_O, app_nil_r. apply firstn_all2. lia. }
  rewrite E8. f_equal. rewrite EL.
  destruct H as [|h0 [|h1 [|h2 [|h3 [|h4 [|h5 [|h6 [|h7 [|]]]]]]]]]; try discriminate H8. cbn [app skipn nth].
  rewrite drop_0, <- app_assoc. cbn [app]. rewrite c_string_app by done. by destruct d.
Qed.
Lemma read_records ds pos fuel : Forall dent_ok ds -> (length ds <= fuel)%nat -> 0 <= pos -> pos + Z.of_nat (length ds) < 2 ^ 63 ->
  read_dirents fuel (records pos ds) = Some (numbered pos ds).
Proof.
  revert pos fuel. induction ds as [|d ds IH]; intros pos fuel Hd Hf Hp Hb; cbn [records numbered length] in *; [by destruct fuel|].
  destruct fuel as [|fuel]; [lia|]. apply Forall_cons in Hd as [Hd Hds]. rewrite read_record by (done || lia).
  by rewrite IH by (done || lia).
Qed.

(** ** The loop *)

Lemma dir_entry_memory dir i cap s : let s' := snd (ramfs_dir_entry dir i cap s) in
  kmem s' = kmem s /\ kpmm s' = kpmm s.
Proof. cbn zeta. unfold ramfs_dir_entry. destruct (_ || _); destruct (_ <=? _); try done; by destruct (_ !! _). Qed.
Lemma give_same f s : kmem f = vmem (kvm (sy s)) -> kpmm f = vpmm (kvm (sy s)) -> sy (give f s) = sy s.
Proof. intros E1 E2. unfold give. cbn [sy]. rewrite E1, E2. by destruct s as [[? ? ? ? ? ? ? []] ? ? ? ? ? ? ? ?]. Qed.
Lemma build_cache_length n raw dir acc s : (length acc <= 1024)%nat -> (length (build_cache n raw dir acc s) <= 1024)%nat.
Proof.
  revert raw acc. induction n as [|n IH]; intros raw acc Ha; cbn [build_cache]; [done|].
  destruct (Z.ltb_spec (Z.of_nat (length acc)) DIR_CACHE_ENTRIES) as [Hlt|]; [|done].
  destruct (raw_child dir raw 128 s); [|by apply IH]. case_match; apply IH; [done|].
  rewrite length_app. cbn. unfold DIR_CACHE_ENTRIES in Hlt. lia.
Qed.
Lemma dents_length dir s : (length (dents (listing dir s)) <= 1026)%nat.
Proof.
  cbn [dents length]. rewrite length_map.
  pose proof (build_cache_length (Z.to_nat (high_water s + NUM_APPLETS)) 0 dir [] s ltac:(cbn; lia)). unfold listing. lia.
Qed.

Lemma dents_lookup rows i : dents rows !! S (S i) = row <$> rows !! i.
Proof. cbn [dents lookup list_lookup]. apply list_lookup_fmap. Qed.

Section listing.
Context (s0 : vm) (pages : gmap Z Z) (c : Z) (r : fdref) (f0 : fd_entry) (rows : list dentry).
Hypothesis Hpath : (length (fd_path f0) <= 127)%nat.
Hypothesis Hrows : Forall dent_ok (dents rows) /\ (length (dents rows) <= 1026)%nat.

(** The descriptor, at a position, of a directory that lists as [rows]. *)
Record at_pos (pos : Z) (s : kern) : Prop := {
  ap_current : current (sy s) = Some c;
  ap_entry : fde_at (sy s) c r = set_pos pos f0;
  ap_cache : cache_ok (fsys s);
  ap_rows : listing (fd_path f0) (fsys s) = rows
}.

Lemma lend_cache s : cache_ok (fsys s) -> cache_ok (lend s).
Proof. intros H. by apply (cache_ok_names (fsys s)). Qed.

Lemma dirent_at_run pos e s : at_pos pos s -> 0 <= pos <= Z.of_nat (length (dents rows)) ->
  exists s1, dirent_at (fd_path f0) pos e s = Ok (dents rows !! Z.to_nat pos) e s1 /\ at_pos pos s1 /\ sy s1 = sy s.
Proof.
  intros [H1 H2 H3 H4] Hp. destruct Hrows as [Hok Hlen]. unfold dirent_at.
  destruct (Z.eqb_spec pos 0) as [->|H0]; [by exists s|]. destruct (Z.eqb_spec pos 1) as [->|H1']; [by exists s|].
  rewrite u32_small by lia. unfold run_fs, mbind, M_bind.
  pose proof (dir_entry_spec (fd_path f0) (pos - 2) PATH_MAX_LOCAL (lend s) (lend_cache s H3) Hpath ltac:(lia)) as Hd.
  pose proof (dir_entry_memory (fd_path f0) (pos - 2) PATH_MAX_LOCAL (lend s)) as [Em Ep].
  destruct (ramfs_dir_entry _ _ _ _) as [a k]. cbn [snd] in Em, Ep. destruct Hd as (-> & Hc & Hn).
  assert (listing (fd_path f0) (lend s) = rows) as El by (rewrite <- H4; by apply listing_proper).
  assert (sy (give k s) = sy s) as Esy by (apply give_same; [exact Em|exact Ep]).
  exists (give k s). split; [|split; [split; [by rewrite Esy|by rewrite Esy|done|]|done]].
  - unfold mret, M_ret. f_equal. rewrite El.
    assert (dents rows !! Z.to_nat pos = row <$> rows !! Z.to_nat (pos - 2)) as ->.
    { rewrite <- dents_lookup. f_equal. lia. }
    destruct (rows !! Z.to_nat (pos - 2)) as [d|] eqn:E; [|done]. cbn [fmap option_fmap option_map row d_name d_directory d_symlink].
    assert (dent_ok (row d)) as (Hl & _).
    { apply (Forall_lookup_1 _ _ (S (S (Z.to_nat (pos - 2)))) _ Hok). by rewrite dents_lookup, E. }
    assert (name_copy (d_name d) PATH_MAX_LOCAL = d_name d) as ->; [|done]. apply firstn_all2. cbn [row fst] in Hl. unfold PATH_MAX_LOCAL. lia.
  - cbn [fsys give]. rewrite <- El. symmetry. by apply listing_proper.
Qed.

(** A round that writes a record. *)
Lemma round_run fuel buf count written pos d e s : at_pos pos s -> 0 <= pos -> dents rows !! Z.to_nat pos = Some d ->
  reclen d.1 <= count - written -> 0 <= written -> 0 <= buf -> buf + count <= 2 ^ 38 ->
  owns s0 (buf + written) (reclen d.1) (kvm (sy s)) pages ->
  exists s1, getdents_loop (S fuel) r buf count written e s = getdents_loop fuel r buf count (written + reclen d.1) e s1 /\
    at_pos (pos + 1) s1 /\ loaded (active_root s0) s0 pages (kvm (sy s1)) /\
    forall va, is_Some (pages !! page_start va) -> user_byte (kvm (sy s1)) va =
      if bool_decide (buf + written <= va < buf + written + reclen d.1)
      then nth (Z.to_nat (va - (buf + written))) (dirent64 (pos + 1) d.1 d.2) 0 else user_byte (kvm (sy s)) va.
Proof.
  intros Ha Hp Hd Hfit Hw Hb Hr Ho. pose proof Ha as [H1 H2 _ _]. destruct Hrows as [Hok Hlen].
  pose proof (lookup_lt_Some _ _ _ Hd) as Hlt.
  pose proof (Forall_lookup_1 _ _ _ _ Hok Hd) as Hdok. pose proof (dirent64_length (pos + 1) d Hdok) as Hdl.
  destruct (reclen_spec d.1 (proj1 Hdok)) as [Hrl _].
  destruct (dirent_at_run pos e s Ha ltac:(lia)) as (s1 & E1 & Ha1 & Es1). rewrite Hd in E1. pose proof Ha1 as [A1 A2 A3 A4].
  cbn [getdents_loop]. unfold get_entry, mbind, M_bind, me. rewrite H1. unfold gets. rewrite H2. cbn [fd_path fd_pos set_pos].
  rewrite E1. destruct d as [n t]. cbn [fst snd] in *. rewrite (u64_small (written + reclen n)) by lia.
  replace (count <? written + reclen n) with false by lia. rewrite (u64_small (buf + written)), (u64_small (pos + 1)) by lia.
  unfold ensure_writable, on_vm, run_vm, run_sy. rewrite Es1, (ensure_noop s0 _ _ _ pages Ho) by lia.
  unfold fill_dirent64, mbind, M_bind.
  set (s2 := set_sy (set_kvm (kvm (sy s)) (sy s)) s1).
  assert (sy s2 = sy s) as Es2 by (unfold s2; by destruct s as [[]]).
  destruct (put_bytes_spec s0 pages (dirent64 (pos + 1) n t) (buf + written) e s2) as (v' & E & L & Hu);
    [by rewrite Hdl, Es2|by apply (dirent64_bytes _ (n, t))|lia|lia|].
  rewrite E. unfold mret, M_ret. unfold upd_entry, mbind, M_bind, me.
  change (current (sy (with_vm v' s2))) with (current (sy s2)). rewrite Es2, H1.
  unfold on_sy, modify. cbn beta iota. rewrite (u64_small (written + reclen n)) by lia. eexists. split; [reflexivity|]. split; [split|split].
  - exact H1.
  - unfold fde_at at 1. cbn [sy set_sy]. rewrite getp_upd, decide_True, fde_set_fde, decide_True by done.
    change (fde (getp (sy (with_vm v' s2)) c) r) with (fde_at (sy s2) c r). by rewrite Es2, H2.
  - exact A3.
  - exact A4.
  - exact L.
  - intros va Hva. rewrite Es2, Hdl in Hu. apply (Hu va Hva).
Qed.

Lemma getdents_loop_spec fuel buf count e pos written s : at_pos pos s -> 0 <= pos ->
  (length (skipn (Z.to_nat pos) (dents rows)) < fuel)%nat -> 0 <= written <= count -> 0 <= buf -> buf + count <= 2 ^ 38 ->
  owns s0 (buf + written) (count - written) (kvm (sy s)) pages ->
  pos <= Z.of_nat (length (dents rows)) ->
  let ds := skipn (Z.to_nat pos) (dents rows) in let k := fits (count - written) ds in
  let out := records pos (firstn k ds) in
  exists s', getdents_loop fuel r buf count written e s = Ok (written + Z.of_nat (length out)) e s' /\
    at_pos (pos + Z.of_nat k) s' /\ loaded (active_root s0) s0 pages (kvm (sy s')) /\
    written + Z.of_nat (length out) <= count /\
    forall va, is_Some (pages !! page_start va) -> user_byte (kvm (sy s')) va =
      if bool_decide (buf + written <= va < buf + written + Z.of_nat (length out))
      then nth (Z.to_nat (va - (buf + written))) out 0 else user_byte (kvm (sy s)) va.
Proof.
  revert pos written s. induction fuel as [|fuel IH]; intros pos written s Ha Hp Hf Hw Hb Hr Ho Hlen ds k out; [lia|].
  pose proof Ha as [H1 H2 _ _]. destruct Hrows as [Hok Hmax].
  destruct (dirent_at_run pos e s Ha ltac:(lia)) as (s1 & E1 & Ha1 & Es1).
  destruct ds as [|d ds'] eqn:Eds.
  { assert (dents rows !! Z.to_nat pos = None) as En.
    { apply lookup_ge_None. apply (f_equal length) in Eds. cbn [length] in Eds. unfold ds in Eds. rewrite length_drop in Eds. lia. }
    exists s1. cbn [getdents_loop]. unfold get_entry, mbind, M_bind, me. rewrite H1. unfold gets. rewrite H2. cbn [fd_path fd_pos set_pos].
    rewrite E1, En. cbn. rewrite !Z.add_0_r. split; [done|]. split; [done|]. rewrite Es1. split; [apply Ho|]. split; [lia|].
    intros va _. by rewrite bool_decide_eq_false_2 by lia. }
  assert (dents rows !! Z.to_nat pos = Some d) as Hd.
  { rewrite <- (Nat.add_0_r (Z.to_nat pos)), <- lookup_drop. fold ds. by rewrite Eds. }
  pose proof (Forall_lookup_1 _ _ _ _ Hok Hd) as Hdok. destruct (reclen_spec d.1 (proj1 Hdok)) as [Hrl _].
  destruct (Z.leb_spec (reclen d.1) (count - written)) as [Hfit|Hfull].
  - destruct (round_run fuel buf count written pos d e s Ha Hp Hd Hfit ltac:(lia) Hb Hr) as (s2 & E2 & Ha2 & L2 & Hu2).
    { rewrite <- (Z.add_0_r (buf + written)). apply (owns_weaken s0 _ (count - written)); [done|lia|lia]. }
    assert (skipn (Z.to_nat (pos + 1)) (dents rows) = ds') as En.
    { replace (Z.to_nat (pos + 1)) with (1 + Z.to_nat pos)%nat by lia. rewrite Nat.add_comm, <- drop_drop. fold ds. by rewrite Eds. }
    pose proof (lookup_lt_Some _ _ _ Hd) as Hlt.
    destruct (IH (pos + 1) (written + reclen d.1) s2 Ha2) as (s3 & E3 & Ha3 & L3 & Hle & Hu3); [lia| |lia|done|done| |lia|].
    { rewrite En. fold ds in Hf. rewrite Eds in Hf. cbn [length] in Hf. lia. }
    { split; [done|]. destruct Ho as [_ Ho]. intros i Hi. rewrite <- !Z.add_assoc. rewrite (Z.add_assoc buf). apply Ho. lia. }
    rewrite En, Z.sub_add_distr in E3, Ha3, Hle, Hu3.
    set (k' := fits (count - written - reclen d.1) ds') in *.
    assert (k = S k') as Ek. { unfold k. cbn [fits]. by rewrite (proj2 (Z.leb_le _ _) Hfit). }
    set (out' := records (pos + 1) (firstn k' ds')) in *.
    assert (out = dirent64 (pos + 1) d.1 d.2 ++ out') as Eo by (unfold out; by rewrite Ek).
    pose proof (dirent64_length (pos + 1) d Hdok) as Hdl.
    assert (Z.of_nat (length out) = reclen d.1 + Z.of_nat (length out')) as El by (rewrite Eo, length_app; lia).
    exists s3. rewrite E2, E3, El. split; [f_equal; lia|]. split; [by replace (pos + Z.of_nat k) with (pos + 1 + Z.of_nat k') by lia|].
    split; [done|]. split; [lia|]. intros va Hva. rewrite Hu3, Hu2, Eo by done. repeat case_bool_decide; try lia; try done.
    + rewrite app_nth2 by lia. f_equal. lia.
    + by rewrite app_nth1 by lia.
  - assert (k = O) as Ek. { unfold k. cbn [fits]. by rewrite (proj2 (Z.leb_gt _ _) Hfull). }
    assert (out = []) as -> by (unfold out; by rewrite Ek). rewrite Ek. cbn [length Z.of_nat]. rewrite !Z.add_0_r.
    exists s1. cbn [getdents_loop]. unfold get_entry, mbind, M_bind, me. rewrite H1. unfold gets. rewrite H2. cbn [fd_path fd_pos set_pos].
    rewrite E1, Hd. destruct d as [n t]. destruct Hdok as [Hn _]. cbn [fst] in *. rewrite (u64_small (written + reclen n)) by lia. assert ((count <? written + reclen n) = true) as -> by (apply Z.ltb_lt; lia).
    split; [done|]. split; [done|]. rewrite Es1. split; [apply Ho|]. split; [lia|].
    intros va _. by rewrite bool_decide_eq_false_2 by lia.
Qed.
End listing.

(** The [n] bytes of user memory from [buf] on. *)
Definition user_area (v : vm) (buf n : Z) : list Z := map (fun i => user_byte v (buf + i)) (seqZ 0 n).
Lemma user_area_eq v buf l : (forall i, 0 <= i < Z.of_nat (length l) -> user_byte v (buf + i) = nth (Z.to_nat i) l 0) ->
  user_area v buf (Z.of_nat (length l)) = l.
Proof.
  intros H. unfold user_area. apply (nth_ext _ _ 0 0); [by rewrite length_map, length_seqZ, Nat2Z.id|].
  rewrite length_map, length_seqZ, Nat2Z.id. intros n Hn.
  rewrite (nth_indep _ 0 (user_byte v (buf + 0))) by (rewrite length_map, length_seqZ; lia).
  rewrite (map_nth (fun i => user_byte v (buf + i))).
  assert (nth n (seqZ 0 (Z.of_nat (length l))) 0 = Z.of_nat n) as ->.
  { apply nth_lookup_Some. rewrite lookup_seqZ. lia. }
  rewrite H by lia. by rewrite Nat2Z.id.
Qed.

(** C27: A process that grows its heap with [brk] and reads a directory into it gets the directory: the
    bytes that [getdents64] says it wrote are a sequence of records from which a C program reads the
    names and types of the entries from the descriptor's position on, ".", ".." and the listing of
    the directory, numbered, in order; as many as
    fit into the buffer whole, and no byte beyond.  The position moves by their number, so that the
    next call goes on from there. *)
Theorem getdents_correct requested c e s fd buf count :
  let v := kvm (sy s) in let root := active_root v in let old := user_brk (getp (sy s) c) in
  let f := fde_at (sy s) c (Fd (fd - 3)) in let all := dents (listing (fd_path f) (fsys s)) in
  let ds := skipn (Z.to_nat (fd_pos f)) all in let k := fits count ds in
  process_mode (sy s) = true -> current (sy s) = Some c -> pt_ok (vmem v) (vpmm v) root ->
  0 < old < requested -> requested <= 2 ^ 38 -> 3 * brk_pages old requested <= free_pages (vpmm v) ->
  3 <= fd < 35 -> fd_used f = true -> fd_is_dir f = true -> (length (fd_path f) <= 127)%nat ->
  0 <= fd_pos f <= Z.of_nat (length all) -> cache_ok (fsys s) -> names_ok (fsys s) ->
  0 <= count -> page_up old <= buf -> buf + count <= requested ->
  exists n s', (sys_brk requested;; sys_getdents64 fd buf count) e s = Ok n e s' /\ 0 <= n <= count /\
    read_dirents k (user_area (kvm (sy s')) buf n) = Some (numbered (fd_pos f) (firstn k ds)) /\
    fde_at (sy s') c (Fd (fd - 3)) = set_pos (fd_pos f + Z.of_nat k) f /\
    forall va, buf + n <= va < page_up requested -> user_byte (kvm (sy s')) va = 0.
Proof.
  intros v root old f all ds k Hmode Hc Hpt Hold Hreq Hfree Hfd Hused Hdir Hpath Hpos Hcache Hnames Hcount Hb1 Hb2.
  destruct (brk_run requested c e s Hmode Hc Hpt Hold Hreq Hfree) as (v1 & pages & E & L & Hle & Hdom & Hz).
  destruct (page_round_up_up old) as [_ B1]; [lia|]. destruct (page_round_up_up requested) as [_ B2]; [lia|].
  set (s1 := set_sy (upd c (set_brk requested) (set_kvm v1 (sy s))) s) in *.
  assert (fde_at (sy s1) c (Fd (fd - 3)) = f) as Ef.
  { unfold s1, f, fde_at. cbn [sy set_sy]. rewrite getp_upd, decide_True by done. done. }
  assert (forall va, page_up old <= va < page_up requested -> is_Some (pages !! page_start va)) as Hin.
  { intros va Hva. apply Hdom. unfold page_start, page_up in *. zlia. }
  pose proof (dents_ok (fd_path f) (fsys s) Hnames) as Hok. pose proof (dents_length (fd_path f) (fsys s)) as Hmax.
  fold all in Hok, Hmax.
  destruct (getdents_loop_spec v pages c (Fd (fd - 3)) f (listing (fd_path f) (fsys s)) Hpath (conj Hok Hmax)
    (Z.to_nat (DIR_CACHE_ENTRIES + 3)) buf count e (fd_pos f) 0 s1) as (s2 & E2 & [_ Hf2 _ _] & L2 & Hn & Hu2).
  { split; [done| |done|done]. rewrite Ef. by destruct f. } { lia. }
  { fold all. rewrite length_skipn. unfold DIR_CACHE_ENTRIES. lia. } { lia. } { unfold page_up in *. zlia. } { lia. }
  { split; [done|]. intros i Hi. apply Hin. unfold page_up in *. zlia. } { fold all. lia. }
  fold all ds in E2, Hf2, Hn, Hu2. rewrite Z.sub_0_r in E2, Hf2, Hn, Hu2. fold k in E2, Hf2, Hn, Hu2.
  rewrite Z.add_0_r in Hu2. rewrite Z.add_0_l in E2, Hn.
  set (out := records (fd_pos f) (firstn k ds)) in *. exists (Z.of_nat (length out)), s2.
  split; [|split; [lia|split; [|split]]].
  - unfold mbind, M_bind. rewrite E. unfold sys_getdents64. replace (3 <=? fd) with true by lia.
    unfold mbind, M_bind. rewrite (fd_get_run fd c e s1) by (done || by rewrite Ef).
    unfold get_entry, mbind, M_bind, me. change (current (sy s1)) with (current (sy s)). rewrite Hc. unfold gets.
    rewrite Ef, Hdir. exact E2.
  - rewrite user_area_eq.
    + apply read_records; [by apply Forall_take, Forall_drop|apply firstn_le_length|lia|].
      rewrite length_firstn. unfold ds. rewrite length_skipn. lia.
    + intros i Hi. rewrite Hu2 by (apply Hin; lia). rewrite bool_decide_eq_true_2 by lia. f_equal. lia.
  - rewrite Hf2. by destruct f.
  - intros va Hva. rewrite Hu2 by (apply Hin; lia). rewrite bool_decide_eq_false_2 by lia.
    destruct (Hin va ltac:(lia)) as [g Hg]. change (kvm (sy s1)) with v1.
    rewrite (proj1 (user_byte_frame root v pages v1 va g L Hg)). apply (Hz _ g _ Hg), Z.mod_pos_bound. lia.
Qed.

(** The root directory of a system without files, into 64 bytes: room for two of the three entries. *)
Definition root_entry : fd_entry := FdEntry true 0 0 0 true None None false [].
Definition dents_kern : kern := set_sy (upd 0 (set_fde (Fd 0) root_entry) (sy brk_kern)) brk_kern.
Lemma dents_kern_names : names_ok (fsys dents_kern).
Proof. intros i. change (getfile (fsys dents_kern) i) with (getfile (fs_bss pmm_bss ∅) i). unfold getfile. cbn. constructor. Qed.
Lemma getdents_correct_witness :
  exists n s', (sys_brk 0x40001000;; sys_getdents64 3 0x40000010 64) [] dents_kern = Ok n [] s' /\ n <= 64 /\
    read_dirents 2 (user_area (kvm (sy s')) 0x40000010 n) = Some [(1, ([DOT], DT_DIR)); (2, ([DOT; DOT], DT_DIR))].
Proof.
  destruct (getdents_correct 0x40001000 0 [] dents_kern 3 0x40000010 64) as (n & s' & E & Hn & Hr & _).
  1-2: reflexivity.
  1: exact paging_example_ok.
  1: vm_compute; split; reflexivity.
  1-2: vm_compute; congruence.
  1: lia.
  1-2: reflexivity.
  1: vm_compute; lia.
  1: vm_compute; split; congruence.
  1: intros Hv; discriminate Hv.
  1: exact dents_kern_names.
  1: lia.
  1-2: vm_compute; congruence.
  exists n, s'. split; [exact E|]. split; [lia|].
  assert (fits 64 (dents (listing [] (fsys dents_kern))) = 2%nat) as Ek by (vm_compute; reflexivity).
  assert (firstn 2 (dents (listing [] (fsys dents_kern))) = [([DOT], DT_DIR); ([DOT; DOT], DT_DIR)]) as Ed by (vm_compute; reflexivity).
  change (fits 64 _) with (fits 64 (dents (listing [] (fsys dents_kern)))) in Hr. rewrite Ek in Hr. rewrite Hr. f_equal.
Defined.
