(* ===== verification/TccElf.v ===== *)
(** The object-file writer and linker of the compiler ([src/compiler/tccelf.c], [tccelf.h], [elf.h]), for
    riscv64: sections, the symbol table with its hash table, relocation tables.  Definitions.

    A [Section *] is a number of the store [secs], 0 being NULL; the bytes of a section are a map from
    offsets, little-endian structures in it are read and written field by field, and bytes beyond
    [data_allocated] are never initialised (they read as 0).  The heap is the parameter [can_alloc]:
    the sizes [tcc_realloc] can provide.  [None] is [tcc_error] or a memory fault, which do not
    return; [tcc_error_noabort] counts in [nb_errors]. *)
From S2P Require Import Prelude.

Definition SHN_UNDEF : Z := 0.
Definition SHN_LORESERVE : Z := 0xff00.
Definition SHN_ABS : Z := 0xfff1.
Definition SHN_COMMON : Z := 0xfff2.
Definition SHT_PROGBITS : Z := 1.
Definition SHT_SYMTAB : Z := 2.
Definition SHT_STRTAB : Z := 3.
Definition SHT_RELA : Z := 4.
Definition SHT_HASH : Z := 5.
Definition SHT_NOBITS : Z := 8.
Definition SHT_REL : Z := 9.
Definition SHT_INIT_ARRAY : Z := 14.
Definition SHT_FINI_ARRAY : Z := 15.
Definition SHT_PREINIT_ARRAY : Z := 16.
Definition SHT_RELX : Z := SHT_RELA.
Definition SHF_WRITE : Z := 1.
Definition SHF_ALLOC : Z := 2.
Definition SHF_EXECINSTR : Z := 4.
Definition SHF_PRIVATE : Z := 0x80000000.
Definition STB_LOCAL : Z := 0.
Definition STB_GLOBAL : Z := 1.
Definition STB_WEAK : Z := 2.
Definition STT_NOTYPE : Z := 0.
Definition STT_OBJECT : Z := 1.
Definition STV_DEFAULT : Z := 0.
Definition STV_INTERNAL : Z := 1.
Definition STV_HIDDEN : Z := 2.
Definition ST_ASM_SET : Z := 4.
Definition ST_BIND (info : Z) : Z := Z.shiftr (u8 info) 4.
Definition ST_TYPE (info : Z) : Z := Z.land info 0xf.
Definition ST_INFO (bind type : Z) : Z := Z.shiftl bind 4 + Z.land type 0xf.
Definition ST_VISIBILITY (o : Z) : Z := Z.land o 3.
Definition R_SYM (i : Z) : Z := Z.shiftr i 32.
Definition R_TYPE (i : Z) : Z := Z.land i 0xffffffff.
Definition R_INFO (sym type : Z) : Z := u64 (Z.shiftl (u64 sym) 32 + u64 type).
Definition PTR_SIZE : Z := 8.

(** ** Sections *)

Record section := MkSection {
  data_offset : Z;
  data : gmap Z Z;
  data_allocated : Z;
  sh_name : Z;
  sh_num : Z;
  sh_type : Z;
  sh_flags : Z;
  sh_info : Z;
  sh_addralign : Z;
  sh_entsize : Z;
  sh_size : Z;
  sh_addr : Z;
  sh_offset : Z;
  nb_hashed_syms : Z;
  link : Z;
  reloc : Z;
  hash : Z;
  name : list Z
}.
Definition set_data_offset (v : Z) (s : section) : section :=
  MkSection v (data s) (data_allocated s) (sh_name s) (sh_num s) (sh_type s) (sh_flags s) (sh_info
    s) (sh_addralign s) (sh_entsize s) (sh_size s) (sh_addr s) (sh_offset s) (nb_hashed_syms s)
    (link s) (reloc s) (hash s) (name s).
Definition set_data (v : gmap Z Z) (s : section) : section :=
  MkSection (data_offset s) v (data_allocated s) (sh_name s) (sh_num s) (sh_type s) (sh_flags s)
    (sh_info s) (sh_addralign s) (sh_entsize s) (sh_size s) (sh_addr s) (sh_offset s)
    (nb_hashed_syms s) (link s) (reloc s) (hash s) (name s).
Definition set_data_allocated (v : Z) (s : section) : section :=
  MkSection (data_offset s) (data s) v (sh_name s) (sh_num s) (sh_type s) (sh_flags s) (sh_info s)
    (sh_addralign s) (sh_entsize s) (sh_size s) (sh_addr s) (sh_offset s) (nb_hashed_syms s) (link
    s) (reloc s) (hash s) (name s).
Definition set_sh_name (v : Z) (s : section) : section :=
  MkSection (data_offset s) (data s) (data_allocated s) v (sh_num s) (sh_type s) (sh_flags s)
    (sh_info s) (sh_addralign s) (sh_entsize s) (sh_size s) (sh_addr s) (sh_offset s)
    (nb_hashed_syms s) (link s) (reloc s) (hash s) (name s).
Definition set_sh_num (v : Z) (s : section) : section :=
  MkSection (data_offset s) (data s) (data_allocated s) (sh_name s) v (sh_type s) (sh_flags s)
    (sh_info s) (sh_addralign s) (sh_entsize s) (sh_size s) (sh_addr s) (sh_offset s)
    (nb_hashed_syms s) (link s) (reloc s) (hash s) (name s).
Definition set_sh_info (v : Z) (s : section) : section :=
  MkSection (data_offset s) (data s) (data_allocated s) (sh_name s) (sh_num s) (sh_type s) (sh_flags
    s) v (sh_addralign s) (sh_entsize s) (sh_size s) (sh_addr s) (sh_offset s) (nb_hashed_syms s)
    (link s) (reloc s) (hash s) (name s).
Definition set_sh_addralign (v : Z) (s : section) : section :=
  MkSection (data_offset s) (data s) (data_allocated s) (sh_name s) (sh_num s) (sh_type s) (sh_flags
    s) (sh_info s) v (sh_entsize s) (sh_size s) (sh_addr s) (sh_offset s) (nb_hashed_syms s) (link
    s) (reloc s) (hash s) (name s).
Definition set_sh_entsize (v : Z) (s : section) : section :=
  MkSection (data_offset s) (data s) (data_allocated s) (sh_name s) (sh_num s) (sh_type s) (sh_flags
    s) (sh_info s) (sh_addralign s) v (sh_size s) (sh_addr s) (sh_offset s) (nb_hashed_syms s) (link
    s) (reloc s) (hash s) (name s).
Definition set_sh_size (v : Z) (s : section) : section :=
  MkSection (data_offset s) (data s) (data_allocated s) (sh_name s) (sh_num s) (sh_type s) (sh_flags
    s) (sh_info s) (sh_addralign s) (sh_entsize s) v (sh_addr s) (sh_offset s) (nb_hashed_syms s)
    (link s) (reloc s) (hash s) (name s).
Definition set_sh_addr (v : Z) (s : section) : section :=
  MkSection (data_offset s) (data s) (data_allocated s) (sh_name s) (sh_num s) (sh_type s) (sh_flags
    s) (sh_info s) (sh_addralign s) (sh_entsize s) (sh_size s) v (sh_offset s) (nb_hashed_syms s)
    (link s) (reloc s) (hash s) (name s).
Definition set_sh_offset (v : Z) (s : section) : section :=
  MkSection (data_offset s) (data s) (data_allocated s) (sh_name s) (sh_num s) (sh_type s) (sh_flags
    s) (sh_info s) (sh_addralign s) (sh_entsize s) (sh_size s) (sh_addr s) v (nb_hashed_syms s)
    (link s) (reloc s) (hash s) (name s).
Definition set_nb_hashed_syms (v : Z) (s : section) : section :=
  MkSection (data_offset s) (data s) (data_allocated s) (sh_name s) (sh_num s) (sh_type s) (sh_flags
    s) (sh_info s) (sh_addralign s) (sh_entsize s) (sh_size s) (sh_addr s) (sh_offset s) v (link s)
    (reloc s) (hash s) (name s).
Definition set_link (v : Z) (s : section) : section :=
  MkSection (data_offset s) (data s) (data_allocated s) (sh_name s) (sh_num s) (sh_type s) (sh_flags
    s) (sh_info s) (sh_addralign s) (sh_entsize s) (sh_size s) (sh_addr s) (sh_offset s)
    (nb_hashed_syms s) v (reloc s) (hash s) (name s).
Definition set_reloc (v : Z) (s : section) : section :=
  MkSection (data_offset s) (data s) (data_allocated s) (sh_name s) (sh_num s) (sh_type s) (sh_flags
    s) (sh_info s) (sh_addralign s) (sh_entsize s) (sh_size s) (sh_addr s) (sh_offset s)
    (nb_hashed_syms s) (link s) v (hash s) (name s).
Definition set_hash (v : Z) (s : section) : section :=
  MkSection (data_offset s) (data s) (data_allocated s) (sh_name s) (sh_num s) (sh_type s) (sh_flags
    s) (sh_info s) (sh_addralign s) (sh_entsize s) (sh_size s) (sh_addr s) (sh_offset s)
    (nb_hashed_syms s) (link s) (reloc s) v (name s).

(** ** The state of the linker *)

Record TCCState := Tcc {
  secs : gmap Z section;
  next_sec : Z;
  sections : list Z;
  priv_sections : list Z;
  got : Z;
  text_section : Z;
  data_section : Z;
  bss_section : Z;
  common_section : Z;
  symtab_section : Z;
  sym_attrs : gmap Z Z;
  nb_sym_attrs : Z;
  nb_errors : Z
}.
Definition set_secs (v : gmap Z section) (s : TCCState) : TCCState :=
  Tcc v (next_sec s) (sections s) (priv_sections s) (got s) (text_section s) (data_section s)
    (bss_section s) (common_section s) (symtab_section s) (sym_attrs s) (nb_sym_attrs s) (nb_errors
    s).
Definition set_next_sec (v : Z) (s : TCCState) : TCCState :=
  Tcc (secs s) v (sections s) (priv_sections s) (got s) (text_section s) (data_section s)
    (bss_section s) (common_section s) (symtab_section s) (sym_attrs s) (nb_sym_attrs s) (nb_errors
    s).
Definition set_sections (v : list Z) (s : TCCState) : TCCState :=
  Tcc (secs s) (next_sec s) v (priv_sections s) (got s) (text_section s) (data_section s)
    (bss_section s) (common_section s) (symtab_section s) (sym_attrs s) (nb_sym_attrs s) (nb_errors
    s).
Definition set_priv_sections (v : list Z) (s : TCCState) : TCCState :=
  Tcc (secs s) (next_sec s) (sections s) v (got s) (text_section s) (data_section s) (bss_section s)
    (common_section s) (symtab_section s) (sym_attrs s) (nb_sym_attrs s) (nb_errors s).
Definition set_got (v : Z) (s : TCCState) : TCCState :=
  Tcc (secs s) (next_sec s) (sections s) (priv_sections s) v (text_section s) (data_section s)
    (bss_section s) (common_section s) (symtab_section s) (sym_attrs s) (nb_sym_attrs s) (nb_errors
    s).
Definition set_text_section (v : Z) (s : TCCState) : TCCState :=
  Tcc (secs s) (next_sec s) (sections s) (priv_sections s) (got s) v (data_section s) (bss_section
    s) (common_section s) (symtab_section s) (sym_attrs s) (nb_sym_attrs s) (nb_errors s).
Definition set_data_section (v : Z) (s : TCCState) : TCCState :=
  Tcc (secs s) (next_sec s) (sections s) (priv_sections s) (got s) (text_section s) v (bss_section
    s) (common_section s) (symtab_section s) (sym_attrs s) (nb_sym_attrs s) (nb_errors s).
Definition set_bss_section (v : Z) (s : TCCState) : TCCState :=
  Tcc (secs s) (next_sec s) (sections s) (priv_sections s) (got s) (text_section s) (data_section s)
    v (common_section s) (symtab_section s) (sym_attrs s) (nb_sym_attrs s) (nb_errors s).
Definition set_common_section (v : Z) (s : TCCState) : TCCState :=
  Tcc (secs s) (next_sec s) (sections s) (priv_sections s) (got s) (text_section s) (data_section s)
    (bss_section s) v (symtab_section s) (sym_attrs s) (nb_sym_attrs s) (nb_errors s).
Definition set_symtab_section (v : Z) (s : TCCState) : TCCState :=
  Tcc (secs s) (next_sec s) (sections s) (priv_sections s) (got s) (text_section s) (data_section s)
    (bss_section s) (common_section s) v (sym_attrs s) (nb_sym_attrs s) (nb_errors s).
Definition set_sym_attrs (v : gmap Z Z) (s : TCCState) : TCCState :=
  Tcc (secs s) (next_sec s) (sections s) (priv_sections s) (got s) (text_section s) (data_section s)
    (bss_section s) (common_section s) (symtab_section s) v (nb_sym_attrs s) (nb_errors s).
Definition set_nb_sym_attrs (v : Z) (s : TCCState) : TCCState :=
  Tcc (secs s) (next_sec s) (sections s) (priv_sections s) (got s) (text_section s) (data_section s)
    (bss_section s) (common_section s) (symtab_section s) (sym_attrs s) v (nb_errors s).
Definition set_nb_errors (v : Z) (s : TCCState) : TCCState :=
  Tcc (secs s) (next_sec s) (sections s) (priv_sections s) (got s) (text_section s) (data_section s)
    (bss_section s) (common_section s) (symtab_section s) (sym_attrs s) (nb_sym_attrs s) v.

Definition L (A : Type) : Type := TCCState -> option (A * TCCState).
#[export] Instance L_ret : MRet L := fun A a s => Some (a, s).
#[export] Instance L_bind : MBind L := fun A B k m s =>
  match m s with Some (a, s) => k a s | None => None end.
Definition gets {A} (f : TCCState -> A) : L A := fun s => Some (f s, s).
Definition modify (f : TCCState -> TCCState) : L unit := fun s => Some ((), f s).
Definition tcc_error {A} : L A := fun s => None.
Definition tcc_error_noabort : L unit := modify (fun s => set_nb_errors (nb_errors s + 1) s).
(** A section pointer, dereferenced. *)
Definition sec (p : Z) : L section := fun s =>
  match secs s !! p with Some d => Some (d, s) | None => None end.
Definition on_sec {A} (p : Z) (f : section -> option (A * section)) : L A := fun s =>
  match secs s !! p with
  | Some d => match f d with Some (a, d) => Some (a, set_secs (<[p := d]> (secs s)) s) | None => None end
  | None => None
  end.
Definition upd (p : Z) (f : section -> section) : L unit := on_sec p (fun d => Some ((), f d)).

(** ** Structures in section data *)

Record Sym := ElfSym { st_name : Z; st_info : Z; st_other : Z; st_shndx : Z; st_value : Z; st_size : Z }.
Record Rela := ElfRela { r_offset : Z; r_info : Z; r_addend : Z }.
(** The element with index [i], and a store to it. *)
Definition sym_at (d : gmap Z Z) (i : Z) : Sym :=
  let p := 24 * i in
  ElfSym (mget 4 d p) (mget 1 d (p + 4)) (mget 1 d (p + 5)) (mget 2 d (p + 6)) (mget 8 d (p + 8)) (mget 8 d (p + 16)).
Definition put_sym (i : Z) (y : Sym) (d : gmap Z Z) : gmap Z Z :=
  let p := 24 * i in
  mput 8 (mput 8 (mput 2 (mput 1 (mput 1 (mput 4 d p (st_name y)) (p + 4) (st_info y)) (p + 5) (st_other y))
    (p + 6) (st_shndx y)) (p + 8) (st_value y)) (p + 16) (st_size y).
(** The relocation at a byte offset, or with an index. *)
Definition rela_p (d : gmap Z Z) (p : Z) : Rela := ElfRela (mget 8 d p) (mget 8 d (p + 8)) (mget 8 d (p + 16)).
Definition put_rela_p (p : Z) (r : Rela) (d : gmap Z Z) : gmap Z Z :=
  mput 8 (mput 8 (mput 8 d p (r_offset r)) (p + 8) (r_info r)) (p + 16) (r_addend r).
Definition rela_at (d : gmap Z Z) (i : Z) : Rela := rela_p d (24 * i).
Definition put_rela (i : Z) (r : Rela) (d : gmap Z Z) : gmap Z Z := put_rela_p (24 * i) r d.
Definition int_at (d : gmap Z Z) (i : Z) : Z := i32 (mget 4 d (4 * i)).
Definition put_int (i v : Z) (d : gmap Z Z) : gmap Z Z := mput 4 d (4 * i) v.
(** The string at an offset; it ends in the [n] bytes there, or reading it runs out of the section. *)
Fixpoint cstr (n : nat) (d : gmap Z Z) (p : Z) : list Z :=
  match n with
  | O => []
  | S n => let b := aget d p in if b =? 0 then [] else b :: cstr n d (p + 1)
  end.
Definition str_at (d : section) (p : Z) : list Z := cstr (Z.to_nat (data_allocated d - p)) (data d) p.
(** The elements of [for_each_elem] over structures of 24 bytes, of which the last may be cut. *)
Definition nelems (d : section) : Z := (data_offset d + 23) / 24.

Section heap.
Context (can_alloc : Z -> bool).

(** [while (size < new_size) size = size * 2;]: [None] when it does not end. *)
Fixpoint double (fuel : nat) (size new_size : Z) : option Z :=
  if size <? new_size then
    match fuel with O => None | S fuel => double fuel (u64 (size * 2)) new_size end
  else Some size.
Definition section_realloc (new_size : Z) (d : section) : option section :=
  let size := if data_allocated d =? 0 then 1 else data_allocated d in
  match double 64 size new_size with
  | None => None
  | Some size =>
      if can_alloc size then
        Some (set_data_allocated size
          (set_data (afill (Z.to_nat (size - data_allocated d)) (data d) (data_allocated d) 0) d))
      else None
  end.
Definition section_add (size align : Z) (d : section) : option (Z * section) :=
  let offset := Z.land (u64 (data_offset d + align - 1)) (u64 (- align)) in
  let offset1 := u64 (offset + size) in
  match (if negb (sh_type d =? SHT_NOBITS) && (data_allocated d <? offset1) then section_realloc offset1 d else Some d) with
  | None => None
  | Some d =>
      let d := set_data_offset offset1 d in
      Some (offset, if sh_addralign d <? align then set_sh_addralign align d else d)
  end.
Definition section_ptr_add (size : Z) (d : section) : option (Z * section) := section_add size 1 d.
Definition section_reserve (size : Z) (d : section) : option section :=
  match (if data_allocated d <? size then section_realloc size d else Some d) with
  | None => None
  | Some d => Some (if data_offset d <? size then set_data_offset size d else d)
  end.

Definition addralign_of (type : Z) : Z := if type =? SHT_STRTAB then 1 else PTR_SIZE.
Definition new_section (nm : list Z) (type flags : Z) : L Z := fun s =>
  let p := next_sec s in
  let num := if tst flags SHF_PRIVATE then 0 else Z.of_nat (length (sections s)) in
  let d := MkSection 0 ∅ 0 0 num type flags 0 (addralign_of type) 0 0 0 0 0 0 0 0 nm in
  let s := set_next_sec (p + 1) (set_secs (<[p := d]> (secs s)) s) in
  Some (p, if tst flags SHF_PRIVATE then set_priv_sections (priv_sections s ++ [p]) s
           else set_sections (sections s ++ [p]) s).
(** The search of [find_section_create], from index 1. *)
Fixpoint find_by_name (l : list Z) (nm : list Z) (s : TCCState) : option Z :=
  match l with
  | [] => None
  | p :: l =>
      match secs s !! p with
      | Some d => if bool_decide (nm = name d) then Some p else find_by_name l nm s
      | None => find_by_name l nm s
      end
  end.
Definition find_section (nm : list Z) : L Z :=
  p ← gets (fun s => find_by_name (tail (sections s)) nm s);
  match p with Some p => mret p | None => new_section nm SHT_PROGBITS SHF_ALLOC end.

(** ** Strings and symbols *)

Definition put_elf_str (p : Z) (sym : list Z) : L Z :=
  on_sec p (fun d =>
    let offset := i32 (data_offset d) in
    match section_ptr_add (Z.of_nat (length sym) + 1) d with
    | None => None
    | Some (ptr, d) => Some (offset, set_data (aputs (sym ++ [0]) ptr (data d)) d)
    end).

Definition elf_hash_step (h c : Z) : Z :=
  let h := u64 (u64 (Z.shiftl h 4) + c) in
  let g := Z.land h 0xf0000000 in
  let h := if negb (g =? 0) then Z.lxor h (Z.shiftr g 24) else h in
  Z.land h (not64 g).
Definition elf_hash (nm : list Z) : Z := fold_left elf_hash_step nm 0.

(** The loop of [rebuild_hash]: [n] symbols left, [ptr] the index of the chain entry. *)
Fixpoint rehash_loop (n : nat) (sym_index ptr nb_buckets : Z) (syms strs : section) (h : gmap Z Z) : gmap Z Z :=
  match n with
  | O => h
  | S n =>
      let y := sym_at (data syms) sym_index in
      let h :=
        if negb (ST_BIND (st_info y) =? STB_LOCAL) then
          let b := i32 (elf_hash (str_at strs (st_name y)) mod nb_buckets) in
          put_int (2 + b) sym_index (put_int ptr (int_at h (2 + b)) h)
        else put_int ptr 0 h in
      rehash_loop n (sym_index + 1) (ptr + 1) nb_buckets syms strs h
  end.
Definition rebuild_hash (s nb_buckets : Z) : L unit :=
  syms ← sec s;
  strs ← sec (link syms);
  let nb_syms := i32 (data_offset syms / 24) in
  on_sec (hash syms) (fun hs =>
    let nb_buckets := if nb_buckets =? 0 then u32 (int_at (data hs) 0) else nb_buckets in
    match section_ptr_add (4 * u32 (2 + nb_buckets + nb_syms)) (set_data_offset 0 hs) with
    | None => None
    | Some (_, hs) =>
        let h := put_int 1 nb_syms (put_int 0 nb_buckets (data hs)) in
        let h := afill (Z.to_nat (4 * u32 (nb_buckets + 1))) h 8 0 in
        Some ((), set_data (rehash_loop (Z.to_nat (nb_syms - 1)) 1 (2 + u32 (nb_buckets + 1)) nb_buckets syms strs h) hs)
    end).

(** The new symbol's place in the hash table [hs]; [true] when the table is due to grow. *)
Definition hash_symbol (sym_index info : Z) (nm : list Z) (hs : section) : option (bool * section) :=
  match section_ptr_add 4 hs with
  | None => None
  | Some (p, hs) =>
      let base := data hs in
      let count d := put_int 1 (int_at d 1 + 1) d in
      if negb (ST_BIND info =? STB_LOCAL) then
        let nbuckets := int_at base 0 in
        let h := i32 (elf_hash nm mod nbuckets) in
        let d := count (put_int (2 + h) sym_index (mput 4 base p (int_at base (2 + h)))) in
        let hs := set_nb_hashed_syms (nb_hashed_syms hs + 1) (set_data d hs) in
        Some (2 * nbuckets <? nb_hashed_syms hs, hs)
      else Some (false, set_data (count (mput 4 base p 0)) hs)
  end.
(** A null [name] is the empty one. *)
Definition put_elf_sym (s value size info other shndx : Z) (nm : list Z) : L Z :=
  off ← on_sec s (section_ptr_add 24);
  syms ← sec s;
  name_offset ← (match nm with [] => mret 0 | _ => put_elf_str (link syms) nm end);
  let sym_index := i32 (off / 24) in
  upd s (fun d => set_data
    (put_sym (off / 24) (ElfSym (u32 name_offset) (u8 info) (u8 other) (u16 shndx) (u64 value) (u64 size)) (data d)) d);;
  (if hash syms =? 0 then mret ()
   else
     strs ← sec (link syms);
     grow ← on_sec (hash syms) (hash_symbol sym_index info (str_at strs name_offset));
     if grow : bool then
       hs ← sec (hash syms);
       rebuild_hash s (u32 (2 * int_at (data hs) 0))
     else mret ());;
  mret sym_index.

(** The walk down a bucket: every symbol is in it at most once. *)
Fixpoint find_loop (fuel : nat) (sym_index nbuckets : Z) (nm : list Z) (syms strs hs : section) : option Z :=
  if sym_index =? 0 then Some 0
  else
    match fuel with
    | O => None
    | S fuel =>
        if bool_decide (nm = str_at strs (st_name (sym_at (data syms) sym_index))) then Some sym_index
        else find_loop fuel (int_at (data hs) (2 + nbuckets + sym_index)) nbuckets nm syms strs hs
    end.
Definition find_elf_sym (s : Z) (nm : list Z) : L Z :=
  syms ← sec s;
  if hash syms =? 0 then mret 0
  else
    hs ← sec (hash syms);
    strs ← sec (link syms);
    let nbuckets := int_at (data hs) 0 in
    let h := i32 (elf_hash nm mod nbuckets) in
    match find_loop (Z.to_nat (nelems syms)) (int_at (data hs) (2 + h)) nbuckets nm syms strs hs with
    | Some i => mret i
    | None => tcc_error
    end.

Definition new_symtab (symtab_name : list Z) (type flags : Z) (strtab_name hash_name : list Z) (hash_flags : Z) : L Z :=
  symtab ← new_section symtab_name type flags;
  upd symtab (set_sh_entsize 24);;
  strtab ← new_section strtab_name SHT_STRTAB flags;
  put_elf_str strtab [];;
  upd symtab (set_link strtab);;
  put_elf_sym symtab 0 0 0 0 0 [];;
  h ← new_section hash_name SHT_HASH hash_flags;
  upd h (set_sh_entsize 4);;
  upd symtab (set_hash h);;
  upd h (set_link symtab);;
  on_sec h (fun d =>
    match section_ptr_add 16 d with
    | None => None
    | Some (p, d) => Some ((), set_data (afill 8 (mput 4 (mput 4 (data d) p 1) (p + 4) 1) (p + 8) 0) d)
    end);;
  mret symtab.

(** [err] is [tcc_error]. *)
Definition get_sym_addr (nm : list Z) (err : bool) : L Z :=
  symtab ← gets symtab_section;
  i ← find_elf_sym symtab nm;
  syms ← sec symtab;
  let y := sym_at (data syms) i in
  if (i =? 0) || (st_shndx y =? SHN_UNDEF) then (if err then tcc_error else mret (u64 (- 1)))
  else mret (st_value y).

(** What becomes of the symbol [y] in the table when [set_elf_sym] adds another definition or use of
    its name; [bss] is the number of [.bss], [None] a duplicate definition.  The flag tells if the new
    symbol replaces it. *)
Definition merged_visibility (old new_ : Z) : Z :=
  if old =? STV_DEFAULT then new_ else if new_ =? STV_DEFAULT then old else if old <? new_ then old else new_.
Definition override (bss : Z) (y : Sym) (sym_bind sym_vis shndx : Z) : option bool :=
  let esym_bind := ST_BIND (st_info y) in
  if shndx =? SHN_UNDEF then Some false
  else if (sym_bind =? STB_GLOBAL) && (esym_bind =? STB_WEAK) then Some true
  else if (sym_bind =? STB_WEAK) && (esym_bind =? STB_GLOBAL) then Some false
  else if (sym_bind =? STB_WEAK) && (esym_bind =? STB_WEAK) then Some false
  else if (sym_vis =? STV_HIDDEN) || (sym_vis =? STV_INTERNAL) then Some false
  else if ((st_shndx y =? SHN_COMMON) || (st_shndx y =? bss)) && ((shndx <? SHN_LORESERVE) && negb (shndx =? bss)) then Some true
  else if (shndx =? SHN_COMMON) || (shndx =? bss) then Some false
  else if tst (st_other y) ST_ASM_SET then Some true
  else None.
Definition patch (y : Sym) (value size info other shndx : Z) : Sym :=
  ElfSym (st_name y) (u8 (ST_INFO (ST_BIND info) (ST_TYPE info))) (u8 other) (u16 shndx) (u64 value) (u64 size).
Definition set_other (other : Z) (y : Sym) : Sym :=
  ElfSym (st_name y) (st_info y) other (st_shndx y) (st_value y) (st_size y).
Definition store_sym (s i : Z) (y : Sym) : L unit := upd s (fun d => set_data (put_sym i y (data d)) d).
Definition set_elf_sym (s value size info other shndx : Z) (nm : list Z) : L Z :=
  let do_def := put_elf_sym s value size (ST_INFO (ST_BIND info) (ST_TYPE info)) other shndx nm in
  if ST_BIND info =? STB_LOCAL then do_def
  else
    i ← find_elf_sym s nm;
    if i =? 0 then do_def
    else
      syms ← sec s;
      let y := sym_at (data syms) i in
      if (st_value y =? value) && (st_size y =? size) && (st_info y =? info) && (st_other y =? other) && (st_shndx y =? shndx)
      then mret i
      else if st_shndx y =? SHN_UNDEF then store_sym s i (patch y value size info other shndx);; mret i
      else
        let vis := ST_VISIBILITY other in
        let other := Z.lor (Z.land (st_other y) 0xfc) (merged_visibility (ST_VISIBILITY (st_other y)) vis) in
        let y := set_other other y in
        store_sym s i y;;
        bss ← gets bss_section;
        b ← sec bss;
        (match override (sh_num b) y (ST_BIND info) vis shndx with
         | None => tcc_error_noabort
         | Some false => mret ()
         | Some true => store_sym s i (patch y value size info other shndx)
         end);;
        mret i.

(** ** Relocations *)

Definition put_elf_reloca (symtab s offset type symbol addend : Z) : L unit :=
  d ← sec s;
  sr ← (if negb (reloc d =? 0) then mret (reloc d)
        else
          syms ← sec symtab;
          sr ← new_section (firstn 255 (lit ".rela" ++ name d)) SHT_RELX (sh_flags syms);
          upd sr (fun r => set_sh_info (sh_num d) (set_link symtab (set_sh_entsize 24 r)));;
          upd s (set_reloc sr);;
          mret sr);
  on_sec sr (fun r =>
    match section_ptr_add 24 r with
    | None => None
    | Some (p, r) => Some ((), set_data (put_rela_p p (ElfRela (u64 offset) (R_INFO symbol type) (u64 addend)) (data r)) r)
    end).
Definition put_elf_reloc (symtab s offset type symbol : Z) : L unit := put_elf_reloca symtab s offset type symbol 0.

(** [squeeze_multi_relocs]: the loops over [i] and [a], byte offsets; [n] rounds left. *)
Definition swap_rela (a i : Z) (d : gmap Z Z) : gmap Z Z :=
  let tmp := rela_p d a in put_rela_p i tmp (put_rela_p a (rela_p d i) d).
Fixpoint sift (n : nat) (a i addr : Z) (d : gmap Z Z) : gmap Z Z :=
  match n with
  | O => d
  | S n => if addr <? r_offset (rela_p d i) then sift n a (i - 24) addr (swap_rela a i d) else d
  end.
Fixpoint sort_relocs (n : nat) (old a : Z) (d : gmap Z Z) : gmap Z Z :=
  match n with
  | O => d
  | S n => sort_relocs n old (a + 24) (sift (Z.to_nat ((a - old) / 24)) a (a - 24) (r_offset (rela_p d a)) d)
  end.
Fixpoint squeeze_loop (n : nat) (r dest : Z) (d : gmap Z Z) : Z * gmap Z Z :=
  match n with
  | O => (dest, d)
  | S n =>
      let dest := if negb (r_offset (rela_p d dest) =? r_offset (rela_p d r)) then dest + 24 else dest in
      squeeze_loop n (r + 24) dest (put_rela_p dest (rela_p d r) d)
  end.
Definition squeeze_multi_relocs (s old : Z) : L unit :=
  d ← sec s;
  upd (reloc d) (fun r =>
    if data_offset r <=? old + 24 then r
    else
      let n := Z.to_nat ((data_offset r - old + 23) / 24) in
      let rels := sort_relocs (n - 1) old (old + 24) (data r) in
      let '(dest, rels) := squeeze_loop n old old rels in
      set_data_offset (dest + 24) (set_data rels r)).

(** The pointer it returns, as an index into [sym_attrs]; only [got_offset] is in the struct. *)
Fixpoint attr_size (fuel : nat) (n index : Z) : option Z :=
  if n <=? index then match fuel with O => None | S fuel => attr_size fuel (i32 (n * 2)) index end else Some n.
Definition get_sym_attr (index : Z) (alloc : bool) : L Z := fun s =>
  if index <? nb_sym_attrs s then Some (index, s)
  else if negb alloc then Some (0, s)
  else
    match attr_size 31 1 index with
    | None => None
    | Some n =>
        if can_alloc (4 * n) then
          Some (index, set_nb_sym_attrs n
            (set_sym_attrs (afill (Z.to_nat (n - nb_sym_attrs s)) (sym_attrs s) (nb_sym_attrs s) 0) s))
        else None
    end.

(** One pass of [sort_syms] over the symbols from [i] on, taking the local ones or the others: [q]
    counts those taken, [new] is [new_syms] and [tr] [old_to_new_syms]. *)
Fixpoint sort_pass (n : nat) (i : Z) (local : bool) (d : gmap Z Z) (q : Z) (new tr : gmap Z Z) : Z * gmap Z Z * gmap Z Z :=
  match n with
  | O => (q, new, tr)
  | S n =>
      if Bool.eqb (ST_BIND (st_info (sym_at d i)) =? STB_LOCAL) local
      then sort_pass n (i + 1) local d (q + 1) (put_sym q (sym_at d i) new) (aset tr i q)
      else sort_pass n (i + 1) local d q new tr
  end.
Fixpoint copy_syms (n : nat) (i : Z) (src dst : gmap Z Z) : gmap Z Z :=
  match n with O => dst | S n => copy_syms n (i + 1) src (put_sym i (sym_at src i) dst) end.
(** The symbol of [n] relocations from index [i] on, renumbered; [ty] is what a C variable makes of the type. *)
Fixpoint renumber (n : nat) (i : Z) (tr ty : Z -> Z) (d : gmap Z Z) : gmap Z Z :=
  match n with
  | O => d
  | S n =>
      let r := rela_at d i in
      let r := ElfRela (r_offset r) (R_INFO (tr (i32 (R_SYM (r_info r)))) (ty (R_TYPE (r_info r)))) (r_addend r) in
      renumber n (i + 1) tr ty (put_rela i r d)
  end.
(** [f] on the relocation sections of the symbol table [s], among [l]. *)
Fixpoint each_reloc_section (s : Z) (f : section -> section) (l : list Z) : L unit :=
  match l with
  | [] => mret ()
  | p :: l =>
      d ← sec p;
      (if (sh_type d =? SHT_RELX) && (link d =? s) then upd p f else mret ());;
      each_reloc_section s f l
  end.
Definition sort_syms (s : Z) : L unit :=
  syms ← sec s;
  let nb_syms := i32 (data_offset syms / 24) in
  let n := Z.to_nat nb_syms in
  let '(locals, new, tr) := sort_pass n 0 true (data syms) 0 ∅ ∅ in
  let '(_, new, tr) := sort_pass n 0 false (data syms) locals new tr in
  (if negb (sh_size syms =? 0) then upd s (set_sh_info locals) else mret ());;
  upd s (fun d => set_data (copy_syms n 0 new (data d)) d);;
  l ← gets sections;
  each_reloc_section s (fun d => set_data (renumber (Z.to_nat (nelems d)) 0 (aget tr) i32 (data d)) d) (tail l).

(** ** A compilation *)

Definition tccelf_new : L unit :=
  modify (set_sections [0]);;
  p ← new_section (lit ".text") SHT_PROGBITS (Z.lor SHF_ALLOC SHF_EXECINSTR);
  modify (set_text_section p);;
  p ← new_section (lit ".data") SHT_PROGBITS (Z.lor SHF_ALLOC SHF_WRITE);
  modify (set_data_section p);;
  p ← new_section (lit ".bss") SHT_NOBITS (Z.lor SHF_ALLOC SHF_WRITE);
  modify (set_bss_section p);;
  p ← new_section (lit ".common") SHT_NOBITS SHF_PRIVATE;
  modify (set_common_section p);;
  upd p (set_sh_num SHN_COMMON);;
  p ← new_symtab (lit ".symtab") SHT_SYMTAB 0 (lit ".strtab") (lit ".hashtab") SHF_PRIVATE;
  modify (set_symtab_section p);;
  get_sym_attr 0 true;;
  mret ().

Fixpoint each_section (f : section -> section) (l : list Z) : L unit :=
  match l with [] => mret () | p :: l => upd p f;; each_section f l end.
Definition tccelf_begin_file : L unit :=
  l ← gets sections;
  each_section (fun d => set_sh_offset (data_offset d) d) (tail l);;
  s ← gets symtab_section;
  upd s (fun d => set_hash 0 (set_reloc (hash d) d)).

(** The loop over the symbols of the compilation, [n] left; [tr] maps their old numbers. *)
Fixpoint end_file_loop (n : nat) (i first_sym : Z) (tr : gmap Z Z) : L (gmap Z Z) :=
  match n with
  | O => mret tr
  | S n =>
      s ← gets symtab_section;
      syms ← sec s;
      let y := sym_at (data syms) (first_sym + i) in
      let undef_local := (st_shndx y =? SHN_UNDEF) && (ST_BIND (st_info y) =? STB_LOCAL) in
      let info := if undef_local then u8 (ST_INFO STB_GLOBAL (ST_TYPE (st_info y))) else st_info y in
      let y := ElfSym (st_name y) info (st_other y) (st_shndx y) (st_value y) (st_size y) in
      (if undef_local then store_sym s (first_sym + i) y else mret ());;
      strs ← sec (link syms);
      k ← set_elf_sym s (st_value y) (st_size y) (st_info y) (st_other y) (st_shndx y) (str_at strs (st_name y));
      end_file_loop n (i + 1) first_sym (aset tr i k)
  end.
Definition tccelf_end_file : L unit :=
  s ← gets symtab_section;
  syms ← sec s;
  strs ← sec (link syms);
  let first_sym := i32 (sh_offset syms / 24) in
  let nb_syms := i32 (data_offset syms / 24 - first_sym) in
  upd s (set_data_offset (sh_offset syms));;
  upd (link syms) (set_data_offset (sh_offset strs));;
  upd s (fun d => set_reloc 0 (set_hash (reloc d) d));;
  tr ← end_file_loop (Z.to_nat nb_syms) 0 first_sym ∅;
  l ← gets sections;
  each_reloc_section s (fun d =>
    let first := sh_offset d / 24 in
    set_data (renumber (Z.to_nat (nelems d - first)) first (fun k => aget tr (k - first_sym)) id (data d)) d) (tail l).
End heap.
