(* ===== verification/TccElfHash.v ===== *)
(** The symbol table of the linker ([put_elf_sym], [rebuild_hash], [find_elf_sym] of
    [src/compiler/tccelf.c]): its hash table finds what a search through all the symbols finds. *)
From S2P Require Import Prelude TccElf.

(** ** Structures in section data *)

Lemma sym_at_ext d d' i : (forall j, 24 * i <= j < 24 * i + 24 -> aget d' j = aget d j) -> sym_at d' i = sym_at d i.
Proof. intros H. unfold sym_at. f_equal; apply mget_ext; intros j Hj; apply H; lia. Qed.
Definition sym_ok (y : Sym) : Prop :=
  isu32 (st_name y) /\ isu8 (st_info y) /\ isu8 (st_other y) /\ 0 <= st_shndx y < 65536 /\ isu64 (st_value y) /\ isu64 (st_size y).
Lemma sym_at_put i y d : sym_ok y -> sym_at (put_sym i y d) i = y.
Proof.
  intros (H1 & H2 & H3 & H4 & H5 & H6). unfold sym_at, put_sym.
  destruct y as [a b c e f g]; cbn [st_name st_info st_other st_shndx st_value st_size] in *.
  f_equal; repeat (rewrite mget_mput_other by lia); rewrite mget_mput_same; apply Z.mod_small; lia.
Qed.
Lemma put_sym_other i y d j : j < 24 * i \/ 24 * i + 24 <= j -> aget (put_sym i y d) j = aget d j.
Proof. intros H. unfold put_sym. repeat (rewrite aget_mput_other by lia). done. Qed.
Lemma sym_at_put_ne i j y d : i <> j -> sym_at (put_sym i y d) j = sym_at d j.
Proof. intros H. apply sym_at_ext. intros k Hk. apply put_sym_other. lia. Qed.
Lemma int_at_put d i j v : int_at (put_int i v d) j = if decide (i = j) then i32 v else int_at d j.
Proof.
  unfold int_at, put_int. case_decide as E; [subst j|by rewrite mget_mput_other by lia].
  rewrite mget_mput_same. unfold i32. change (256 ^ Z.of_nat 4) with 4294967296. zlia.
Qed.
Lemma int_at_ext d d' i : (forall j, 4 * i <= j < 4 * i + 4 -> aget d' j = aget d j) -> int_at d' i = int_at d i.
Proof. intros H. unfold int_at. f_equal. apply mget_ext. intros j Hj. apply H. lia. Qed.

(** A symbol ([st_name] does not matter) and its name. *)
Abbreviation entry := (Sym * list Z)%type.

(** ** Growing a section *)

(** The sizes in this file stay far below the width of [unsigned long]. *)
Abbreviation LIMIT := (2 ^ 32).
Record roomy (d : section) : Prop := {
  ro_offset : 0 <= data_offset d <= data_allocated d;
  ro_allocated : data_allocated d < 2 ^ 34;
  ro_bits : sh_type d <> SHT_NOBITS
}.
(** The same section with more bytes. *)
Record extended (d d' : section) : Prop := {
  ex_offset : data_offset d <= data_offset d';
  ex_allocated : data_allocated d <= data_allocated d';
  ex_data : forall i, i < data_offset d -> aget (data d') i = aget (data d) i;
  ex_link : link d' = link d;
  ex_hash : hash d' = hash d;
  ex_type : sh_type d' = sh_type d
}.
Lemma extended_refl d : extended d d.
Proof. by split. Qed.
Lemma extended_trans d1 d2 d3 : extended d1 d2 -> extended d2 d3 -> extended d1 d3.
Proof.
  intros [A1 A2 A3 A4 A5 A6] [B1 B2 B3 B4 B5 B6]. split; try lia; try congruence.
  intros i Hi. rewrite B3 by lia. by apply A3.
Qed.

Lemma double_spec fuel size need : 0 < size -> need <= size * 2 ^ Z.of_nat fuel -> size < 2 ^ 34 -> need < 2 ^ 33 ->
  exists r, double fuel size need = Some r /\ need <= r /\ size <= r < 2 ^ 34.
Proof.
  revert size. induction fuel as [|fuel IH]; intros size Hs Hn Hm Hb; cbn [double].
  - change (2 ^ Z.of_nat 0) with 1 in Hn. replace (size <? need) with false by lia. exists size. split; [done|lia].
  - destruct (Z.ltb_spec size need); [|exists size; split; [done|lia]]. rewrite u64_small by lia.
    rewrite Nat2Z.inj_succ, Z.pow_succ_r in Hn by lia.
    destruct (IH (size * 2)) as (r & E & H1 & H2); [lia|lia|lia|lia|]. exists r. split; [done|lia].
Qed.

(** ** Strings *)

Lemma cstr_ext n n' d d' p q : p <= q -> q < p + Z.of_nat n -> q < p + Z.of_nat n' -> aget d q = 0 ->
  (forall i, p <= i <= q -> aget d' i = aget d i) -> cstr n' d' p = cstr n d p.
Proof.
  revert n' p. induction n as [|n IH]; intros n' p Hp Hn Hn' Hq Hd; [lia|]. destruct n' as [|n']; [lia|].
  cbn [cstr]. rewrite (Hd p) by lia. destruct (Z.eqb_spec (aget d p) 0); [done|]. f_equal.
  assert (p <> q) by congruence. apply IH; [lia|lia|lia|done|]. intros i Hi. apply Hd. lia.
Qed.
(** A string of the table: the NUL that ends it is in the section. *)
Definition terminated (d : section) (p : Z) : Prop := 0 <= p /\ exists q, p <= q < data_offset d /\ aget (data d) q = 0.
Lemma str_extended d d' p : roomy d -> extended d d' -> terminated d p -> str_at d' p = str_at d p /\ terminated d' p.
Proof.
  intros [H1 H2 _] [E1 E2 E3 _ _ _] (Hp & q & Hq & Hz). split.
  - apply (cstr_ext _ _ _ _ _ q); [lia|lia|lia|done|]. intros i Hi. apply E3. lia.
  - split; [done|]. exists q. split; [lia|]. by rewrite E3 by lia.
Qed.
Lemma cstr_read l n d p : cstr_ok l -> (length l < n)%nat ->
  (forall i, 0 <= i <= Z.of_nat (length l) -> aget d (p + i) = nth (Z.to_nat i) (l ++ [0]) 0) -> cstr n d p = l.
Proof.
  revert n p. induction l as [|b l IH]; intros n p Hl Hn Hd; (destruct n as [|n]; [cbn in Hn; lia|]); cbn [cstr].
  - specialize (Hd 0 ltac:(cbn; lia)). rewrite Z.add_0_r in Hd. by rewrite Hd.
  - apply Forall_cons in Hl as [Hb Hl]. cbn [length] in *. pose proof (Hd 0 ltac:(lia)) as H0. rewrite Z.add_0_r in H0. change (aget d p = b) in H0. rewrite H0.
    replace (b =? 0) with false by lia. f_equal. apply IH; [done|lia|]. intros i Hi.
    replace (p + 1 + i) with (p + (i + 1)) by lia. rewrite Hd by lia. replace (Z.to_nat (i + 1)) with (S (Z.to_nat i)) by lia. done.
Qed.

(** ** Running *)

(** Only this section has changed. *)
Definition with_sec (p : Z) (d : section) (st : TCCState) : TCCState := set_secs (<[p := d]> (secs st)) st.
Lemma with_sec_eq p d st : secs (with_sec p d st) !! p = Some d.
Proof. cbn. by rewrite lookup_insert_eq. Qed.
Lemma with_sec_ne p q d st : p <> q -> secs (with_sec p d st) !! q = secs st !! q.
Proof. intros H. cbn. by rewrite lookup_insert_ne. Qed.
Lemma bind_run {A B} (m : L A) (k : A -> L B) st a st' : m st = Some (a, st') -> (m ≫= k) st = k a st'.
Proof. intros E. unfold mbind, L_bind. by rewrite E. Qed.
Lemma sec_run p d st : secs st !! p = Some d -> sec p st = Some (d, st).
Proof. intros E. unfold sec. by rewrite E. Qed.
Lemma on_sec_run {A} p (f : section -> option (A * section)) d a d' st : secs st !! p = Some d -> f d = Some (a, d') ->
  on_sec p f st = Some (a, with_sec p d' st).
Proof. intros E1 E2. unfold on_sec. by rewrite E1, E2. Qed.
Lemma upd_run p f d st : secs st !! p = Some d -> upd p f st = Some ((), with_sec p (f d) st).
Proof. intros E. by apply (on_sec_run _ _ d). Qed.

Section heap.
Context (can_alloc : Z -> bool).
Hypothesis plenty : forall n, 0 <= n < 2 ^ 34 -> can_alloc n = true.

Lemma section_ptr_add_spec n d : roomy d -> 0 <= n -> data_offset d + n <= LIMIT ->
  exists d', section_ptr_add can_alloc n d = Some (data_offset d, d') /\ roomy d' /\ extended d d' /\
    data_offset d' = data_offset d + n /\ nb_hashed_syms d' = nb_hashed_syms d.
Proof.
  intros [[H1 H2] H3 H4] Hn Hl. unfold section_ptr_add, section_add.
  change (u64 (Z.opp 1)) with (Z.ones 64). rewrite Z.land_ones by lia.
  rewrite (u64_small (data_offset d + 1 - 1)) by lia. replace (data_offset d + 1 - 1) with (data_offset d) by lia.
  rewrite Z.mod_small by lia. rewrite u64_small by lia.
  replace (sh_type d =? SHT_NOBITS) with false by lia. cbn [negb andb].
  destruct (Z.ltb_spec (data_allocated d) (data_offset d + n)) as [Hlt|Hge].
  - unfold section_realloc. set (size := if data_allocated d =? 0 then 1 else data_allocated d).
    assert (0 < size < 2 ^ 34 /\ data_allocated d <= size) as [Hs Hs'] by (unfold size; destruct (Z.eqb_spec (data_allocated d) 0); lia).
    destruct (double_spec 64 size (data_offset d + n)) as (r & E & Hr & Hr'); [lia|nia|lia|lia|].
    rewrite E, plenty by lia. eexists. split; [reflexivity|].
    assert (forall i, i < data_offset d ->
      aget (afill (Z.to_nat (r - data_allocated d)) (data d) (data_allocated d) 0) i = aget (data d) i) as Hd.
    { intros i Hi. rewrite aget_afill. by rewrite bool_decide_eq_false_2 by lia. }
    destruct (sh_addralign _ <? 1); (split; [split; cbn; [lia|lia|done]|split; [split; cbn; try done; lia|done]]).
  - eexists. split; [reflexivity|].
    destruct (sh_addralign _ <? 1); (split; [split; cbn; [lia|lia|done]|split; [split; cbn; try done; lia|done]]).
Qed.

Lemma put_elf_str_spec p sym d st : secs st !! p = Some d -> roomy d -> cstr_ok sym ->
  data_offset d + Z.of_nat (length sym) + 1 < 2 ^ 31 ->
  exists d', put_elf_str can_alloc p sym st = Some (data_offset d, with_sec p d' st) /\ roomy d' /\ extended d d' /\
    data_offset d' = data_offset d + Z.of_nat (length sym) + 1 /\
    str_at d' (data_offset d) = sym /\ terminated d' (data_offset d).
Proof.
  intros Hd Hr Hs Hl. destruct (section_ptr_add_spec (Z.of_nat (length sym) + 1) d Hr) as (d1 & E & R & X & Eo & _); [lia|lia|].
  pose proof Hr as [H1 _ _]. unfold put_elf_str, on_sec. rewrite Hd, E. rewrite i32_small by lia. eexists. split; [reflexivity|].
  assert (forall i, 0 <= i <= Z.of_nat (length sym) ->
    aget (aputs (sym ++ [0]) (data_offset d) (data d1)) (data_offset d + i) = nth (Z.to_nat i) (sym ++ [0]) 0) as Hi.
  { intros i Hi. rewrite aget_aputs, length_app, bool_decide_eq_true_2 by (cbn; lia). f_equal. lia. }
  destruct R as [R1 R2 R3]. split; [by split|]. split; [|split; [cbn; lia|split]].
  - destruct X as [X1 X2 X3 X4 X5 X6]. split; try done. intros i Hi'. cbn [data set_data]. rewrite aget_aputs.
    rewrite bool_decide_eq_false_2 by lia. by apply X3.
  - apply cstr_read; [done| |exact Hi]. cbn [data_allocated set_data]. lia.
  - split; [lia|]. exists (data_offset d + Z.of_nat (length sym)). cbn [data data_offset set_data]. split; [lia|].
    rewrite Hi by lia. rewrite Nat2Z.id. by rewrite nth_middle.
Qed.
End heap.

(** ** The last symbol that satisfies a predicate *)

(** The largest [i] with [0 < i < n] and [p i], or 0. *)
Fixpoint last_where (p : Z -> bool) (n : nat) : Z :=
  match n with
  | O => 0
  | S n => if (0 <? Z.of_nat n) && p (Z.of_nat n) then Z.of_nat n else last_where p n
  end.
Lemma last_where_spec p n : let i := last_where p n in
  (i = 0 /\ forall j, 0 < j < Z.of_nat n -> p j = false) \/
  (0 < i < Z.of_nat n /\ p i = true /\ forall j, i < j < Z.of_nat n -> p j = false).
Proof.
  induction n as [|n IH]; cbn zeta in *; cbn [last_where]; [left; split; [done|lia]|].
  destruct (Z.ltb_spec 0 (Z.of_nat n)) as [Hn|Hn]; cbn [andb].
  - destruct (p (Z.of_nat n)) eqn:E; [right; repeat split; [lia|lia|done|intros; lia]|].
    destruct IH as [[-> H]|(H1 & H2 & H3)]; [left; split; [done|]|right; split; [lia|split; [done|]]];
      intros j Hj; (destruct (decide (j = Z.of_nat n)) as [->|]; [done|]); [apply H|apply H3]; lia.
  - destruct IH as [[-> H]|(H1 & H2 & H3)]; [left; split; [done|]; intros; lia|lia].
Qed.
Lemma last_where_unique p n i : 0 <= i -> (i = 0 \/ i < Z.of_nat n /\ p i = true) ->
  (forall j, i < j < Z.of_nat n -> p j = false) -> last_where p n = i.
Proof.
  intros Hi Hp Hn. destruct (last_where_spec p n) as [[-> H]|(H1 & H2 & H3)].
  - destruct Hp as [->|[Hl Hp]]; [done|]. destruct (decide (i = 0)) as [->|]; [done|]. rewrite H in Hp by lia. done.
  - destruct (Z.lt_trichotomy i (last_where p n)) as [Hlt|[Heq|Hgt]]; [|done|].
    + rewrite Hn in H2 by lia. done.
    + destruct Hp as [->|[Hl Hp]]; [lia|]. rewrite H3 in Hp by lia. done.
Qed.
Lemma last_where_ext p q n : (forall j, 0 < j < Z.of_nat n -> p j = q j) -> last_where p n = last_where q n.
Proof.
  intros H. induction n as [|n IH]; cbn [last_where]; [done|]. rewrite IH by (intros; apply H; lia).
  destruct (Z.ltb_spec 0 (Z.of_nat n)); cbn [andb]; [|done]. by rewrite H by lia.
Qed.
Lemma last_where_bound p n : 0 <= last_where p n <= Z.of_nat n.
Proof. destruct (last_where_spec p n) as [[-> _]|(H & _)]; lia. Qed.

(** ** The hash table *)

Definition key (syms strs : section) (i : Z) : option (list Z) :=
  let y := sym_at (data syms) i in
  if ST_BIND (st_info y) =? STB_LOCAL then None else Some (str_at strs (st_name y)).
Definition bucket_of (nb : Z) (nm : list Z) : Z := elf_hash nm mod nb.
Definition in_bucket (key : Z -> option (list Z)) (nb b i : Z) : bool :=
  match key i with Some nm => bucket_of nb nm =? b | None => false end.
Definition named (key : Z -> option (list Z)) (nm : list Z) (i : Z) : bool := bool_decide (key i = Some nm).

(** The buckets and chains, as integers, of [n] symbols with the keys [key]. *)
Record chains (key : Z -> option (list Z)) (n : nat) (nb : Z) (h : gmap Z Z) : Prop := {
  ch_heads : forall b, 0 <= b < nb -> int_at h (2 + b) = last_where (in_bucket key nb b) n;
  ch_next : forall i nm, 0 < i < Z.of_nat n -> key i = Some nm ->
    int_at h (2 + nb + i) = last_where (in_bucket key nb (bucket_of nb nm)) (Z.to_nat i)
}.
Record hash_ok (key : Z -> option (list Z)) (n : nat) (hs : section) : Prop := {
  ho_roomy : roomy hs;
  ho_buckets : 1 <= int_at (data hs) 0 < 2 ^ 27;
  ho_offset : data_offset hs = 4 * (2 + int_at (data hs) 0 + Z.of_nat n);
  ho_count : 0 <= nb_hashed_syms hs <= Z.of_nat n;
  ho_chains : chains key n (int_at (data hs) 0) (data hs)
}.

Lemma in_bucket_ext k1 k2 nb b i : k1 i = k2 i -> in_bucket k1 nb b i = in_bucket k2 nb b i.
Proof. unfold in_bucket. by intros ->. Qed.
Lemma chains_ext k1 k2 n nb h : (forall i, 0 <= i < Z.of_nat n -> k1 i = k2 i) -> chains k1 n nb h -> chains k2 n nb h.
Proof.
  intros Hk [H1 H2]. split.
  - intros b Hb. rewrite H1 by done. apply last_where_ext. intros j Hj. apply in_bucket_ext, Hk. lia.
  - intros i nm Hi Hn. rewrite (H2 i nm) by (done || by rewrite Hk by lia). apply last_where_ext.
    intros j Hj. apply in_bucket_ext, Hk. lia.
Qed.
Lemma hash_ok_ext k1 k2 n hs : (forall i, 0 <= i < Z.of_nat n -> k1 i = k2 i) -> hash_ok k1 n hs -> hash_ok k2 n hs.
Proof. intros Hk [H1 H2 H3 H4 H5]. split; try done. by apply (chains_ext k1). Qed.

(** A walk from the last symbol of a bucket below [k] finds the last symbol of the name below [k]. *)
Lemma find_loop_spec syms strs hs n nb nm k fuel : chains (key syms strs) n nb (data hs) -> 0 < nb ->
  (k <= n)%nat -> (k <= fuel)%nat ->
  find_loop fuel (last_where (in_bucket (key syms strs) nb (bucket_of nb nm)) k) nb nm syms strs hs =
  Some (last_where (named (key syms strs) nm) k).
Proof.
  intros Hc Hnb. revert k. induction fuel as [|fuel IH]; intros k Hk Hf.
  { assert (k = O) as -> by lia. done. }
  cbn [find_loop]. set (p := in_bucket (key syms strs) nb (bucket_of nb nm)).
  assert (forall j, p j = false -> named (key syms strs) nm j = false) as Hpn.
  { intros j. unfold p, in_bucket, named. intros Hj. apply bool_decide_eq_false. intros E. rewrite E in Hj. lia. }
  destruct (last_where_spec p k) as [[E H]|(H1 & H2 & H3)].
  - rewrite E. cbn [Z.eqb]. f_equal. symmetry. apply last_where_unique; [done|by left|]. intros j Hj. apply Hpn, H. lia.
  - set (i := last_where p k) in *. replace (i =? 0) with false by lia.
    assert (exists nm', key syms strs i = Some nm' /\ bucket_of nb nm' = bucket_of nb nm) as (nm' & Ek & Eb).
    { unfold p, in_bucket in H2. destruct (key syms strs i) as [nm'|]; [|done]. exists nm'. split; [done|lia]. }
    assert (str_at strs (st_name (sym_at (data syms) i)) = nm') as ->.
    { revert Ek. unfold key. case_match; [done|]. intros E%(inj Some). exact E. }
    case_bool_decide as En.
    + f_equal. symmetry. apply last_where_unique; [lia| |intros j Hj; apply Hpn, H3; lia]. right. split; [lia|].
      apply bool_decide_eq_true. by rewrite Ek, En.
    + rewrite (ch_next _ _ _ _ Hc i nm') by (done || lia). rewrite Eb.
      rewrite IH by lia. f_equal. symmetry.
      apply last_where_unique; [apply last_where_bound| |].
      * destruct (last_where_spec (named (key syms strs) nm) (Z.to_nat i)) as [[-> _]|(G1 & G2 & _)]; [by left|right; split; [lia|done]].
      * intros j Hj. destruct (last_where_spec (named (key syms strs) nm) (Z.to_nat i)) as [[G0 G]|(G1 & G2 & G3)];
          (destruct (decide (j = i)) as [->|]; [apply bool_decide_eq_false; rewrite Ek; congruence|];
           destruct (decide (i < j)); [apply Hpn, H3; lia|]); [apply G|apply G3]; lia.
Qed.

Lemma chains_data k n nb h h' : 0 < nb -> (forall i, 2 <= i < 2 + nb + Z.of_nat n -> int_at h' i = int_at h i) ->
  chains k n nb h -> chains k n nb h'.
Proof.
  intros Hnb Hh [H1 H2]. split.
  - intros b Hb. rewrite Hh by lia. by apply H1.
  - intros i nm Hi Hk. rewrite Hh by lia. by apply H2.
Qed.
Lemma bucket_bound nb nm : 0 < nb -> 0 <= bucket_of nb nm < nb.
Proof. intros H. by apply Z.mod_pos_bound. Qed.

(** One more symbol: at the head of its bucket, or, a local one, in none. *)
Lemma chains_insert k n nb h nm : (0 < n)%nat -> Z.of_nat n < 2 ^ 31 -> 0 < nb -> chains k n nb h -> k (Z.of_nat n) = Some nm ->
  let b := bucket_of nb nm in
  chains k (S n) nb (put_int (2 + b) (Z.of_nat n) (put_int (2 + nb + Z.of_nat n) (int_at h (2 + b)) h)).
Proof.
  intros Hn Hn' Hnb [H1 H2] Hk b. pose proof (bucket_bound nb nm Hnb) as Hb. fold b in Hb.
  split.
  - intros c Hc. rewrite !int_at_put. cbn [last_where]. replace (0 <? Z.of_nat n) with true by lia. cbn [andb].
    unfold in_bucket at 1. rewrite Hk. fold b. case_decide.
    + assert (c = b) as -> by lia. rewrite Z.eqb_refl. apply i32_small; lia.
    + replace (b =? c) with false by lia. rewrite decide_False by lia. by apply H1.
  - intros i nm' Hi Hk'. rewrite !int_at_put. rewrite decide_False by lia. case_decide.
    + assert (i = Z.of_nat n) as -> by lia. rewrite Nat2Z.id. assert (nm' = nm) as -> by congruence. fold b.
      rewrite H1 by done. pose proof (last_where_bound (in_bucket k nb b) n). apply i32_small. lia.
    + apply H2; [lia|done].
Qed.
Lemma chains_local k n nb h : 0 < nb -> chains k n nb h -> k (Z.of_nat n) = None ->
  chains k (S n) nb (put_int (2 + nb + Z.of_nat n) 0 h).
Proof.
  intros Hnb [H1 H2] Hk. split.
  - intros c Hc. rewrite int_at_put. cbn [last_where]. rewrite decide_False by lia. unfold in_bucket at 1. rewrite Hk, andb_false_r. by apply H1.
  - intros i nm Hi Hk'. rewrite int_at_put. rewrite decide_False by (intros E; assert (i = Z.of_nat n) as -> by lia; congruence).
    apply H2; [|done]. destruct (decide (i = Z.of_nat n)) as [->|]; [congruence|lia].
Qed.

(** [rebuild_hash]'s loop. *)
Lemma rehash_loop_spec syms strs nb m n h : 1 <= nb < 2 ^ 28 -> (0 < n)%nat -> Z.of_nat (n + m) < 2 ^ 31 ->
  chains (key syms strs) n nb h ->
  let h' := rehash_loop m (Z.of_nat n) (2 + nb + Z.of_nat n) nb syms strs h in
  chains (key syms strs) (n + m) nb h' /\ forall i, i < 2 -> int_at h' i = int_at h i.
Proof.
  intros Hnb. revert n h. induction m as [|m IH]; intros n h Hn Hb Hc; cbn zeta; cbn [rehash_loop]; [by rewrite Nat.add_0_r|].
  replace (n + S m)%nat with (S n + m)%nat in * by lia.
  replace (Z.of_nat n + 1) with (Z.of_nat (S n)) by lia. replace (2 + nb + Z.of_nat n + 1) with (2 + nb + Z.of_nat (S n)) by lia.
  destruct (ST_BIND (st_info (sym_at (data syms) (Z.of_nat n))) =? STB_LOCAL) eqn:El; cbn [negb].
  - assert (key syms strs (Z.of_nat n) = None) as Ek by (unfold key; by rewrite El).
    destruct (IH (S n) (put_int (2 + nb + Z.of_nat n) 0 h)) as [G1 G2]; [lia|done|by apply chains_local; [lia| |]|].
    split; [done|]. intros i Hi. rewrite G2 by done. rewrite int_at_put. by rewrite decide_False by lia.
  - set (nm := str_at strs (st_name (sym_at (data syms) (Z.of_nat n)))).
    assert (key syms strs (Z.of_nat n) = Some nm) as Ek by (unfold key; by rewrite El).
    pose proof (bucket_bound nb nm ltac:(lia)) as Hbb. unfold bucket_of in Hbb.
    rewrite (i32_small (elf_hash nm mod nb)) by lia. fold (bucket_of nb nm).
    destruct (IH (S n) (put_int (2 + bucket_of nb nm) (Z.of_nat n) (put_int (2 + nb + Z.of_nat n) (int_at h (2 + bucket_of nb nm)) h))) as [G1 G2];
      [lia|done|by apply chains_insert; try lia|].
    split; [done|]. intros i Hi. rewrite G2 by done. rewrite !int_at_put. unfold bucket_of. by rewrite !decide_False by lia.
Qed.

Section table.
Context (can_alloc : Z -> bool).
Hypothesis plenty : forall n, 0 <= n < 2 ^ 34 -> can_alloc n = true.

(** A hash section is only rewritten in its data and sizes. *)
Definition same_header (d d' : section) : Prop := link d' = link d /\ hash d' = hash d /\ sh_type d' = sh_type d.

Lemma ptr_add_chains k n hs d p : hash_ok k n hs -> section_ptr_add can_alloc 4 hs = Some (p, d) -> roomy d ->
  extended hs d -> chains k n (int_at (data hs) 0) (data d) /\ int_at (data d) 0 = int_at (data hs) 0.
Proof.
  intros [H1 H2 H3 _ H4] E R X. split.
  - apply (chains_data _ _ _ (data hs)); [lia| |done]. intros i Hi. apply int_at_ext. intros j Hj. apply (ex_data _ _ X). lia.
  - apply int_at_ext. intros j Hj. apply (ex_data _ _ X). lia.
Qed.
Lemma hash_symbol_spec k n info nm hs : hash_ok k n hs -> (0 < n)%nat -> Z.of_nat n < 2 ^ 26 ->
  k (Z.of_nat n) = (if ST_BIND info =? STB_LOCAL then None else Some nm) ->
  exists g hs', hash_symbol can_alloc (Z.of_nat n) info nm hs = Some (g, hs') /\ hash_ok k (S n) hs' /\ same_header hs hs' /\
    (g = true -> 2 * int_at (data hs') 0 <= Z.of_nat n).
Proof.
  intros Hok Hn Hb Hk. pose proof Hok as [R H2 H3 Hcount Hc]. set (nb := int_at (data hs) 0) in *.
  destruct (section_ptr_add_spec can_alloc plenty 4 hs R) as (d & E & R' & X & Eo & Ec); [lia|lia|].
  destruct (ptr_add_chains k n hs d _ Hok E R' X) as [Hc' E0]. fold nb in Hc', E0.
  unfold hash_symbol. rewrite E. pose proof X as [_ _ _ X4 X5 X6].
  assert (data_offset hs = 4 * (2 + nb + Z.of_nat n)) as Ep by done.
  assert (forall v, mput 4 (data d) (data_offset hs) v = put_int (2 + nb + Z.of_nat n) v (data d)) as Epi by (intros v; by rewrite Ep).
  cbv zeta. rewrite !Epi.
  assert (forall c h, chains k (S n) nb h -> int_at h 0 = nb -> 0 <= c <= Z.of_nat (S n) ->
    hash_ok k (S n) (set_nb_hashed_syms c (set_data (put_int 1 (int_at h 1 + 1) h) d))) as Hdone.
  { intros c h Hh Eh Hcc. split; cbn [data data_offset set_data set_nb_hashed_syms nb_hashed_syms].
    - by destruct R'; split.
    - rewrite int_at_put, decide_False by lia. lia.
    - rewrite int_at_put, decide_False by lia. lia.
    - done.
    - rewrite int_at_put, decide_False, Eh by lia. apply (chains_data _ _ _ h); [lia| |done].
      intros i Hi. rewrite int_at_put. by rewrite decide_False by lia. }
  destruct (ST_BIND info =? STB_LOCAL); cbn [negb].
  - eexists _, _. split; [reflexivity|]. split; [|split; [split; [|split]; done|done]].
    assert (hash_ok k (S n) (set_nb_hashed_syms (nb_hashed_syms d) (set_data (put_int 1 (int_at (put_int (2 + nb + Z.of_nat n) 0 (data d)) 1 + 1)
      (put_int (2 + nb + Z.of_nat n) 0 (data d))) d))) as [G1 G2 G3 G4 G5]; [|by split; [destruct G1; split| | | |]].
    apply Hdone; [by apply chains_local; [lia| |]| |lia]. rewrite int_at_put. by rewrite decide_False by lia.
  - rewrite E0. pose proof (bucket_bound nb nm ltac:(lia)) as Hbb. unfold bucket_of in Hbb.
    rewrite (i32_small (elf_hash nm mod nb)) by lia. fold (bucket_of nb nm) in *.
    set (h := put_int (2 + bucket_of nb nm) (Z.of_nat n) _).
    assert (int_at h 0 = nb) as Eh by (unfold h; rewrite !int_at_put; by rewrite !decide_False by lia).
    eexists _, _. split; [reflexivity|]. split; [|split; [split; [|split]; done|]].
    + apply Hdone; [apply chains_insert; try done; lia|done|]. cbn [nb_hashed_syms set_data]. lia.
    + cbn [data set_nb_hashed_syms set_data nb_hashed_syms]. rewrite int_at_put, decide_False, Eh by lia. lia.
Qed.

Lemma int_at_cleared lo m d i : lo <= 4 * i -> 4 * i + 4 <= lo + Z.of_nat m -> int_at (afill m d lo 0) i = 0.
Proof.
  intros H1 H2. unfold int_at. rewrite (mget_ext 4 _ ∅); [by rewrite mget_zero by apply aget_empty|].
  intros j Hj. rewrite aget_afill, aget_empty. by rewrite bool_decide_eq_true_2 by lia.
Qed.
Lemma rebuild_hash_spec s nb st syms strs hs n : secs st !! s = Some syms -> secs st !! link syms = Some strs ->
  secs st !! hash syms = Some hs -> data_offset syms = 24 * Z.of_nat n -> (0 < n)%nat -> Z.of_nat n <= 2 ^ 26 ->
  roomy hs -> 1 <= nb < 2 ^ 27 -> 0 <= nb_hashed_syms hs <= Z.of_nat n ->
  exists hs', rebuild_hash can_alloc s nb st = Some ((), with_sec (hash syms) hs' st) /\
    hash_ok (key syms strs) n hs' /\ same_header hs hs'.
Proof.
  intros Hs Hl Hh Ho Hn Hb R Hnb Hcnt. unfold rebuild_hash, sec, on_sec, mbind, L_bind. rewrite Hs, Hl, Hh.
  rewrite Ho. replace (24 * Z.of_nat n / 24) with (Z.of_nat n) by zlia. rewrite i32_small by lia.
  replace (nb =? 0) with false by lia. cbv zeta. rewrite !u32_small by lia.
  assert (roomy (set_data_offset 0 hs)) as R0 by (destruct R as [[? ?] ? ?]; split; cbn; [lia|done|done]).
  destruct (section_ptr_add_spec can_alloc plenty (4 * (2 + nb + Z.of_nat n)) _ R0) as (d & E & R' & X & Eo & Ec); [lia|cbn; lia|].
  rewrite E. eexists. split; [reflexivity|].
  set (h0 := afill (Z.to_nat (4 * (nb + 1))) (put_int 1 (Z.of_nat n) (put_int 0 nb (data d))) 8 0).
  assert (int_at h0 0 = nb) as E0.
  { unfold h0. rewrite (int_at_ext (put_int 1 (Z.of_nat n) (put_int 0 nb (data d)))).
    - rewrite !int_at_put. rewrite decide_False, decide_True by lia. apply i32_small. lia.
    - intros j Hj. rewrite aget_afill. by rewrite bool_decide_eq_false_2 by lia. }
  destruct (rehash_loop_spec syms strs nb (n - 1) 1 h0) as [G1 G2]; [lia|lia|lia| |].
  { split; [|lia]. intros b Hbb. cbn [last_where]. cbn [Z.of_nat Z.ltb Z.compare andb]. apply int_at_cleared; lia. }
  replace (Z.to_nat (Z.of_nat n - 1)) with (n - 1)%nat by lia. replace (2 + (nb + 1)) with (2 + nb + Z.of_nat 1) by lia.
  replace (1 + (n - 1))%nat with n in G1 by lia. change 1 with (Z.of_nat 1) at 1.
  set (h := rehash_loop _ _ _ _ _ _ h0) in *. assert (int_at h 0 = nb) as E1 by (by rewrite G2 by lia).
  cbn [data_offset set_data_offset] in Eo. destruct R' as [R1 R2 R3]. destruct X as [_ _ _ X4 X5 X6].
  split; [|done]. split; cbn [data data_offset set_data nb_hashed_syms]; rewrite ?E1; [by split|lia|lia|by rewrite Ec|done].
Qed.

(** The table [s] holds [n] symbols. *)
Record table (s : Z) (st : TCCState) (syms strs hs : section) (n : nat) : Prop := {
  tb_syms : secs st !! s = Some syms;
  tb_strs : secs st !! link syms = Some strs;
  tb_hs : secs st !! hash syms = Some hs;
  tb_apart : s <> link syms /\ s <> hash syms /\ link syms <> hash syms /\ hash syms <> 0;
  tb_roomy : roomy syms /\ roomy strs;
  tb_size : data_offset syms = 24 * Z.of_nat n /\ (0 < n)%nat /\ Z.of_nat n <= 2 ^ 26;
  tb_empty : 0 < data_offset strs < 2 ^ 31 /\ aget (data strs) 0 = 0;
  tb_names : forall i, 0 <= i < Z.of_nat n -> terminated strs (st_name (sym_at (data syms) i));
  tb_hash : hash_ok (key syms strs) n hs
}.

Lemma find_elf_sym_spec s st syms strs hs n nm : table s st syms strs hs n ->
  find_elf_sym s nm st = Some (last_where (named (key syms strs) nm) n, st).
Proof.
  intros [T1 T2 T3 (_ & _ & _ & T4) _ (T6 & T6' & T6'') _ _ [H1 H2 H3 _ H4]]. unfold find_elf_sym, sec, mbind, L_bind.
  rewrite T1. replace (hash syms =? 0) with false by lia. cbv beta iota. rewrite T3, T2.
  set (nb := int_at (data hs) 0) in *. cbv zeta.
  pose proof (bucket_bound nb nm ltac:(lia)) as Hb. unfold bucket_of in Hb. rewrite i32_small by lia. fold (bucket_of nb nm) in *.
  rewrite (ch_heads _ _ _ _ H4) by done. rewrite (find_loop_spec _ _ _ n) by (done || lia || (unfold nelems; zlia)). done.
Qed.

Definition others (s : Z) (syms : section) (st st' : TCCState) : Prop :=
  st' = set_secs (secs st') st /\ forall p, p <> s -> p <> link syms -> p <> hash syms -> secs st' !! p = secs st !! p.

(** The symbol [put_elf_sym] writes, but for the place of its name. *)
Definition fields (name_ value size info other shndx : Z) : Sym :=
  ElfSym (u32 name_) (u8 info) (u8 other) (u16 shndx) (u64 value) (u64 size).
Lemma fields_ok a b c d e f : sym_ok (fields a b c d e f).
Proof. unfold fields, sym_ok, u8, u16, u32, u64. cbn. repeat split; try apply Z.mod_pos_bound; try lia; apply Z.mod_pos_bound; lia. Qed.
Lemma key_put_other syms strs i j y : i <> j -> key (set_data (put_sym i y (data syms)) syms) strs j = key syms strs j.
Proof. intros H. unfold key. cbn [data set_data]. by rewrite sym_at_put_ne. Qed.

(** The place of the new symbol's name. *)
Lemma put_name_spec p st strs nm : secs st !! p = Some strs -> roomy strs ->
  0 < data_offset strs < 2 ^ 31 /\ aget (data strs) 0 = 0 -> cstr_ok nm ->
  data_offset strs + Z.of_nat (length nm) + 1 < 2 ^ 31 ->
  exists off strs', (match nm with [] => mret 0 | _ => put_elf_str can_alloc p nm end) st =
      Some (off, with_sec p strs' st) /\
    isu32 off /\ roomy strs' /\ extended strs strs' /\ str_at strs' off = nm /\ terminated strs' off /\
    data_offset strs' <= data_offset strs + Z.of_nat (length nm) + 1.
Proof.
  intros T2 R [T7 T7'] Hnm Hl. destruct nm as [|b nm].
  - exists 0, strs. split; [|split; [lia|split; [done|split; [apply extended_refl|]]]].
    + unfold mret, L_ret, with_sec. rewrite insert_id by done. by destruct st.
    + assert (terminated strs 0) as Ht by (split; [lia|]; exists 0; split; [lia|done]).
      split; [|split; [done|lia]]. unfold str_at. destruct (Z.to_nat (data_allocated strs - 0)); cbn [cstr]; [done|]. by rewrite T7'.
  - destruct (put_elf_str_spec can_alloc plenty p (b :: nm) strs st T2 R Hnm Hl) as (strs' & E & G1 & G2 & G3 & G4 & G5).
    exists (data_offset strs), strs'. split; [exact E|].
    split; [lia|]. split; [done|]. split; [done|]. split; [done|]. split; [done|]. lia.
Qed.

(** The table after [put_elf_sym], before the hash table is told. *)
Lemma put_elf_sym_spec s st syms strs hs n value size info other shndx nm : table s st syms strs hs n -> cstr_ok nm ->
  Z.of_nat n < 2 ^ 26 -> data_offset strs + Z.of_nat (length nm) + 1 < 2 ^ 31 ->
  exists st' syms' strs' hs' off, put_elf_sym can_alloc s value size info other shndx nm st = Some (Z.of_nat n, st') /\
    table s st' syms' strs' hs' (S n) /\ others s syms st st' /\
    link syms' = link syms /\ hash syms' = hash syms /\
    data_offset strs' <= data_offset strs + Z.of_nat (length nm) + 1 /\
    (forall i, 0 <= i < Z.of_nat n -> sym_at (data syms') i = sym_at (data syms) i /\ key syms' strs' i = key syms strs i) /\
    sym_at (data syms') (Z.of_nat n) = fields off value size info other shndx /\
    key syms' strs' (Z.of_nat n) = if ST_BIND info =? STB_LOCAL then None else Some nm.
Proof.
  intros T Hnm Hn Hl. pose proof T as [T1 T2 T3 (A1 & A2 & A3 & A4) [R1 R2] (T6 & T6' & _) (T7 & T7') T8 T9].
  destruct (section_ptr_add_spec can_alloc plenty 24 syms R1) as (syms1 & E1 & Rs & Xs & Es & _); [lia|lia|].
  pose proof Xs as [_ _ Xd Xl Xh Xt].
  destruct (put_name_spec (link syms) (with_sec s syms1 st) strs nm) as (off & strs' & E2 & Hoff & Rt & Xst & Hname & Hterm & Hlen);
    [by cbn; rewrite lookup_insert_ne|done|done|done|done|].
  set (st1 := with_sec s syms1 st) in *. set (st2 := with_sec (link syms) strs' st1) in *.
  set (y := fields off value size info other shndx). set (syms' := set_data (put_sym (Z.of_nat n) y (data syms1)) syms1).
  set (st3 := with_sec s syms' st2).
  assert (secs st2 !! s = Some syms1) as L1 by (unfold st2, st1; rewrite with_sec_ne by congruence; apply with_sec_eq).
  assert (secs st3 !! s = Some syms') as L2 by apply with_sec_eq.
  assert (secs st3 !! link syms = Some strs') as L3.
  { unfold st3, st2. rewrite with_sec_ne by congruence. apply with_sec_eq. }
  assert (secs st3 !! hash syms = Some hs) as L4.
  { unfold st3, st2, st1. by rewrite !with_sec_ne by congruence. }
  unfold put_elf_sym. erewrite bind_run by (by apply (on_sec_run _ _ syms)). fold st1.
  erewrite bind_run by (apply sec_run, with_sec_eq). cbv zeta. rewrite Xl, Xh.
  erewrite bind_run by exact E2.
  replace (data_offset syms / 24) with (Z.of_nat n) by (rewrite T6; zlia). rewrite (i32_small (Z.of_nat n)) by lia.
  fold (fields off value size info other shndx). fold y.
  erewrite bind_run by (by apply (upd_run _ _ syms1)). fold syms'. fold st3.
  replace (hash syms =? 0) with false by lia.
  assert (forall i, 0 <= i < Z.of_nat n -> sym_at (data syms') i = sym_at (data syms) i) as Hsym.
  { intros i Hi. unfold syms'. cbn [data set_data]. rewrite sym_at_put_ne by lia. apply sym_at_ext. intros k Hk. apply Xd. lia. }
  assert (sym_at (data syms') (Z.of_nat n) = y) as Hsymn by (apply sym_at_put, fields_ok).
  assert (forall i, 0 <= i < Z.of_nat n -> key syms' strs' i = key syms strs i) as Hkey.
  { intros i Hi. unfold key. rewrite Hsym by done. by rewrite (proj1 (str_extended strs strs' _ R2 Xst (T8 i Hi))). }
  assert (key syms' strs' (Z.of_nat n) = if ST_BIND info =? STB_LOCAL then None else Some nm) as Hkeyn.
  { unfold key. rewrite Hsymn. unfold y, fields. cbn [st_info st_name]. rewrite (u32_small off), Hname by lia.
    unfold ST_BIND, u8. by rewrite Zmod_mod. }
  assert (hash_ok (key syms' strs') n hs) as Hok by (apply (hash_ok_ext (key syms strs)); [|done]; intros i Hi; by rewrite Hkey).
  destruct (hash_symbol_spec (key syms' strs') n info nm hs Hok T6' Hn Hkeyn) as (g & hs1 & E3 & Hok1 & (Y1 & Y2 & Y3) & Hg).
  assert (exists hs', (sec (link syms) ≫= λ strs0, on_sec (hash syms) (hash_symbol can_alloc (Z.of_nat n) info (str_at strs0 off))
       ≫= λ grow : bool, if grow then sec (hash syms) ≫= λ hs0, rebuild_hash can_alloc s (u32 (2 * int_at (data hs0) 0)) else mret ()) st3
     = Some ((), with_sec (hash syms) hs' st3) /\ hash_ok (key syms' strs') (S n) hs') as (hs' & E4 & Hok').
  { erewrite bind_run by (by apply sec_run). rewrite Hname. erewrite bind_run by (by apply (on_sec_run _ _ hs)).
    destruct g; [|by exists hs1]. specialize (Hg eq_refl). erewrite bind_run by (apply sec_run, with_sec_eq).
    pose proof Hok1 as [K1 K2 _ K3 _]. rewrite u32_small by lia.
    destruct (rebuild_hash_spec s (2 * int_at (data hs1) 0) (with_sec (hash syms) hs1 st3) syms' strs' hs1 (S n)) as (hs2 & E5 & Hok2 & _).
    { by rewrite with_sec_ne by congruence. } { rewrite with_sec_ne by (cbn; congruence). cbn [link syms' set_data]. by rewrite Xl. }
    { cbn [hash syms' set_data]. rewrite Xh. apply with_sec_eq. } { cbn [data_offset syms' set_data]. lia. } { lia. } { lia. }
    { done. } { lia. } { done. }
    exists hs2. split; [|done]. rewrite E5. do 2 f_equal. cbn [hash syms' set_data]. rewrite Xh. unfold with_sec, set_secs. cbn. by rewrite insert_insert_eq. }
  erewrite bind_run by exact E4. exists (with_sec (hash syms) hs' st3), syms', strs', hs', off.
  split; [done|]. split.
  { assert (link syms' = link syms) as El by apply Xl. assert (hash syms' = hash syms) as Eh by apply Xh.
    split; rewrite ?El, ?Eh.
    - by rewrite with_sec_ne by congruence.
    - by rewrite with_sec_ne by congruence.
    - apply with_sec_eq.
    - done.
    - split; [by destruct Rs|done].
    - split; [cbn [data_offset syms' set_data]; lia|lia].
    - split; [destruct Xst; lia|]. destruct Xst as [_ _ Xz _ _ _]. by rewrite Xz by lia.
    - intros i Hi. destruct (decide (i = Z.of_nat n)) as [->|].
      + rewrite Hsymn. unfold y, fields. cbn [st_name]. by rewrite u32_small by lia.
      + rewrite Hsym by lia. apply (str_extended strs strs'); [done|done|]. apply T8. lia.
    - done. }
  split.
  { split; [done|]. intros p Hp1 Hp2 Hp3. unfold st3, st2, st1. by rewrite !with_sec_ne by congruence. }
  split; [exact Xl|]. split; [exact Xh|]. split; [exact Hlen|]. split; [|done]. intros i Hi. by rewrite Hsym, Hkey.
Qed.

(** ** A new table *)

Definition fresh_section (num type flags : Z) (nm : list Z) : section :=
  MkSection 0 ∅ 0 0 num type flags 0 (addralign_of type) 0 0 0 0 0 0 0 0 nm.
Lemma new_section_run nm type flags st : exists num st', new_section nm type flags st = Some (next_sec st, st') /\
  next_sec st' = next_sec st + 1 /\ secs st' !! next_sec st = Some (fresh_section num type flags nm) /\
  (forall q, q <> next_sec st -> secs st' !! q = secs st !! q) /\
  bss_section st' = bss_section st /\ nb_errors st' = nb_errors st.
Proof.
  unfold new_section. destruct (tst flags SHF_PRIVATE); (eexists _, _; split; [reflexivity|]; split; [done|split; [|split; [|done]]]);
    cbn [secs set_secs set_next_sec set_sections set_priv_sections].
  all: try (intros q Hq; by rewrite lookup_insert_ne by congruence).
  all: by rewrite lookup_insert_eq.
Qed.
Lemma roomy_fresh num type flags nm : type <> SHT_NOBITS -> roomy (fresh_section num type flags nm).
Proof. intros H. by split. Qed.

Lemma new_symtab_spec n1 n2 n3 type flags hflags st : 0 < next_sec st -> type <> SHT_NOBITS ->
  exists st' syms strs hs, new_symtab can_alloc n1 type flags n2 n3 hflags st = Some (next_sec st, st') /\
    table (next_sec st) st' syms strs hs 1 /\ data_offset strs = 1 /\
    (forall q, q < next_sec st -> secs st' !! q = secs st !! q) /\
    bss_section st' = bss_section st /\ nb_errors st' = nb_errors st /\
    link syms = next_sec st + 1 /\ hash syms = next_sec st + 2 /\ sym_ok (sym_at (data syms) 0).
Proof.
  intros Hs Ht. set (s := next_sec st). unfold new_symtab.
  destruct (new_section_run n1 type flags st) as (num & st1 & E1 & N1 & S1 & O1 & B1 & R1). fold s in E1, N1, S1.
  erewrite bind_run by exact E1. erewrite bind_run by (apply upd_run; exact S1).
  set (d1 := set_sh_entsize 24 _). set (st2 := with_sec s d1 st1).
  destruct (new_section_run n2 SHT_STRTAB flags st2) as (num2 & st3 & E3 & N3 & S3 & O3 & B3 & R3).
  change (next_sec st2) with (next_sec st1) in *. rewrite N1 in *. erewrite bind_run by exact E3.
  destruct (put_elf_str_spec can_alloc plenty (s + 1) [] _ st3 S3 (roomy_fresh num2 SHT_STRTAB flags n2 ltac:(unfold SHT_STRTAB, SHT_NOBITS; lia)) (Forall_nil_2 _) ltac:(cbn; lia))
    as (strs & E4 & R4 & X4 & O4 & Y4 & Z4).
  erewrite bind_run by exact E4. set (st4 := with_sec (s + 1) strs st3).
  assert (secs st4 !! s = Some d1) as S4.
  { unfold st4. rewrite with_sec_ne by lia. rewrite O3 by lia. apply with_sec_eq. }
  erewrite bind_run by (apply upd_run; exact S4). set (d5 := set_link (s + 1) d1). set (st5 := with_sec s d5 st4).
  assert (roomy d5) as R5 by (by destruct (roomy_fresh num type flags n1 Ht); split).
  destruct (section_ptr_add_spec can_alloc plenty 24 d5 R5) as (d6 & E6 & R6 & X6 & O6 & _); [lia|cbn; lia|].
  set (y := fields 0 0 0 0 0 0). set (d7 := set_data (put_sym 0 y (data d6)) d6). set (st6 := with_sec s d6 st5).
  assert (put_elf_sym can_alloc s 0 0 0 0 0 [] st5 = Some (0, with_sec s d7 st6)) as E7.
  { unfold put_elf_sym. erewrite bind_run by (apply (on_sec_run _ _ d5); [apply with_sec_eq|exact E6]).
    erewrite bind_run by (apply sec_run, with_sec_eq). erewrite bind_run by reflexivity. cbv zeta.
    erewrite bind_run by (apply upd_run, with_sec_eq). rewrite (ex_hash _ _ X6). reflexivity. }
  erewrite bind_run by exact E7. set (st7 := with_sec s d7 st6).
  assert (next_sec st7 = s + 2) as N7 by (change (next_sec st7) with (next_sec st3); lia).
  destruct (new_section_run n3 SHT_HASH hflags st7) as (num3 & st8 & E8 & N8 & S8 & O8 & B8 & R8). rewrite N7 in E8, N8, S8, O8.
  erewrite bind_run by exact E8. erewrite bind_run by (apply upd_run; exact S8). set (h1 := set_sh_entsize 4 _).
  set (st9 := with_sec (s + 2) h1 st8).
  assert (secs st9 !! s = Some d7) as S9.
  { unfold st9. rewrite with_sec_ne by lia. rewrite O8 by lia. apply with_sec_eq. }
  erewrite bind_run by (apply upd_run; exact S9). set (syms := set_hash (s + 2) d7). set (st10 := with_sec s syms st9).
  assert (secs st10 !! (s + 2) = Some h1) as S10 by (unfold st10; rewrite with_sec_ne by lia; apply with_sec_eq).
  erewrite bind_run by (apply upd_run; exact S10). set (h2 := set_link s h1). set (st11 := with_sec (s + 2) h2 st10).
  assert (roomy h2) as Rh by (by split).
  destruct (section_ptr_add_spec can_alloc plenty 16 h2 Rh) as (h3 & E11 & R11 & X11 & O11 & C11); [lia|cbn; lia|].
  erewrite bind_run by (apply (on_sec_run _ _ h2); [apply with_sec_eq|rewrite E11; reflexivity]).
  set (hs := set_data _ h3). assert (link syms = s + 1) as El by apply (ex_link _ _ X6).
  exists (with_sec (s + 2) hs st11), syms, strs, hs. split; [reflexivity|]. split; [|split; [exact O4|]].
  2: { split; [|split; [|split; [|split; [exact El|split; [done|]]]]].
    - intros q Hq. unfold st11, st10, st9. rewrite !with_sec_ne by lia. rewrite O8 by lia. unfold st7, st6, st5, st4.
      rewrite !with_sec_ne by lia. rewrite O3 by lia. unfold st2. rewrite with_sec_ne by lia. apply O1. lia.
    - change (bss_section st8 = bss_section st). rewrite B8. change (bss_section st3 = bss_section st). by rewrite B3.
    - change (nb_errors st8 = nb_errors st). rewrite R8. change (nb_errors st3 = nb_errors st). by rewrite R3.
    - cbn [data syms set_hash]. unfold d7. cbn [data set_data]. rewrite sym_at_put by apply fields_ok. apply fields_ok. }
  assert (int_at (data hs) 0 = 1 /\ int_at (data hs) 2 = 0) as [I0 I2].
  { unfold hs. cbn [data set_data]. change (data_offset h2) with 0. split; [|apply int_at_cleared; lia].
    rewrite (int_at_ext (put_int 1 1 (put_int 0 1 (data h3)))).
    - rewrite !int_at_put. by rewrite decide_False, decide_True by lia.
    - intros j Hj. rewrite aget_afill. by rewrite bool_decide_eq_false_2 by lia. }
  split; rewrite ?El; change (hash syms) with (s + 2).
  - rewrite with_sec_ne by lia. unfold st11. rewrite with_sec_ne by lia. apply with_sec_eq.
  - unfold st11, st10, st9. rewrite !with_sec_ne by lia. rewrite O8 by lia. unfold st7, st6, st5. rewrite !with_sec_ne by lia.
    apply with_sec_eq.
  - apply with_sec_eq.
  - lia.
  - split; [by destruct R6; split|done].
  - split; [exact O6|lia].
  - split; [rewrite O4; cbn; lia|]. destruct Z4 as (_ & q & Hq & Hz). rewrite O4 in Hq. cbn in Hq. assert (q = 0) as -> by lia. exact Hz.
  - intros i Hi. assert (i = 0) as -> by lia. cbn [data syms set_hash]. unfold d7. cbn [data set_data].
    rewrite sym_at_put by apply fields_ok. exact Z4.
  - split; rewrite ?I0.
    + by destruct R11; split.
    + lia.
    + cbn [data_offset hs set_data]. rewrite O11. done.
    + cbn [nb_hashed_syms hs set_data]. rewrite C11. cbn. lia.
    + split; [|lia]. intros b Hb. assert (b = 0) as -> by lia. exact I2.
Qed.

(** ** Any sequence of symbols *)

Fixpoint put_all (s : Z) (l : list entry) : L unit :=
  match l with
  | [] => mret ()
  | (y, nm) :: l =>
      put_elf_sym can_alloc s (st_value y) (st_size y) (st_info y) (st_other y) (st_shndx y) nm;; put_all s l
  end.
(** The search through all the symbols: the index of the last one that is not local and has the name. *)
Definition visible (nm : list Z) (e : entry) : bool :=
  negb (ST_BIND (st_info e.1) =? STB_LOCAL) && bool_decide (e.2 = nm).
Fixpoint last_def (nm : list Z) (i : Z) (l : list entry) (found : Z) : Z :=
  match l with [] => found | e :: l => last_def nm (i + 1) l (if visible nm e then i else found) end.
Fixpoint name_bytes (l : list entry) : Z := match l with [] => 0 | e :: l => Z.of_nat (length e.2) + 1 + name_bytes l end.
Lemma name_bytes_nonneg l : 0 <= name_bytes l.
Proof. induction l as [|e l IH]; cbn [name_bytes]; lia. Qed.

Lemma put_all_spec s l st syms strs hs n : table s st syms strs hs n -> Forall (fun e => cstr_ok e.2) l ->
  Z.of_nat (n + length l) <= 2 ^ 26 -> data_offset strs + name_bytes l < 2 ^ 31 ->
  exists st' syms' strs' hs', put_all s l st = Some ((), st') /\ table s st' syms' strs' hs' (n + length l) /\
    (forall i, 0 <= i < Z.of_nat n -> sym_at (data syms') i = sym_at (data syms) i) /\
    (forall i y nm, l !! i = Some (y, nm) -> exists off, sym_at (data syms') (Z.of_nat (n + i)) =
      fields off (st_value y) (st_size y) (st_info y) (st_other y) (st_shndx y)) /\
    forall nm, last_where (named (key syms' strs') nm) (n + length l) =
      last_def nm (Z.of_nat n) l (last_where (named (key syms strs) nm) n).
Proof.
  revert st syms strs hs n. induction l as [|[y nm0] l IH]; intros st syms strs hs n T Hl Hn Hb; cbn [put_all length name_bytes] in *.
  { exists st, syms, strs, hs. rewrite Nat.add_0_r. split; [done|]. split; [done|]. split; [done|]. split; [|done].
    intros i y nm Hi. by rewrite lookup_nil in Hi. }
  apply Forall_cons in Hl as [Hnm Hl]. cbn [snd] in *. pose proof (name_bytes_nonneg l).
  destruct (put_elf_sym_spec s st syms strs hs n (st_value y) (st_size y) (st_info y) (st_other y) (st_shndx y) nm0 T Hnm)
    as (st1 & syms1 & strs1 & hs1 & off & E & T1 & _ & _ & _ & Hlen & Hold & Hnew & Hkey); [lia|lia|].
  erewrite bind_run by exact E.
  destruct (IH st1 syms1 strs1 hs1 (S n) T1 Hl) as (st2 & syms2 & strs2 & hs2 & E2 & T2 & Hold2 & Hnew2 & Hfind); [lia|lia|].
  replace (S n + length l)%nat with (n + S (length l))%nat in * by lia.
  exists st2, syms2, strs2, hs2. split; [done|]. split; [done|]. split; [|split].
  - intros i Hi. rewrite Hold2 by lia. by apply Hold.
  - intros [|i] z nm Hi; cbn [lookup list_lookup] in Hi.
    + injection Hi as <- <-. exists off. rewrite Nat.add_0_r, Hold2 by lia. exact Hnew.
    + destruct (Hnew2 i z nm Hi) as [off' Hz]. exists off'. rewrite <- Hz. f_equal. lia.
  - intros nm. rewrite Hfind. cbn [last_def last_where]. replace (Z.of_nat (S n)) with (Z.of_nat n + 1) by lia. f_equal.
    pose proof (tb_size _ _ _ _ _ _ T) as (_ & Hpos & _). replace (0 <? Z.of_nat n) with true by lia. cbn [andb].
    unfold named at 1. rewrite Hkey. unfold visible. cbn [fst snd].
    rewrite (last_where_ext (named (key syms1 strs1) nm) (named (key syms strs) nm)).
    2: { intros j Hj. unfold named. by rewrite (proj2 (Hold j ltac:(lia))). }
    destruct (ST_BIND (st_info y) =? STB_LOCAL); cbn [negb andb].
    + by rewrite bool_decide_eq_false_2 by done.
    + case_bool_decide as E1; case_bool_decide as E2'; try done; [injection E1 as E1|]; congruence.
Qed.

(** C8: Looking a name up in the symbol table.  Whatever symbols are put into a new table, its hash table,
    which has been rebuilt with twice the buckets each time it filled up, finds for every name what a
    search through all of them finds: the index of the last symbol that is not local and bears the
    name, or 0; and each symbol is there with the fields it was given. *)
Theorem symbol_lookup_correct n1 n2 n3 type flags hflags l st : 0 < next_sec st -> type <> SHT_NOBITS ->
  Forall (fun e => cstr_ok e.2) l -> Z.of_nat (length l) < 2 ^ 26 -> 1 + name_bytes l < 2 ^ 31 ->
  exists s st' syms, (s ← new_symtab can_alloc n1 type flags n2 n3 hflags; put_all s l;; mret s) st = Some (s, st') /\
    secs st' !! s = Some syms /\ data_offset syms = 24 * (1 + Z.of_nat (length l)) /\
    (forall nm, find_elf_sym s nm st' = Some (last_def nm 1 l 0, st')) /\
    (forall i y nm, l !! i = Some (y, nm) -> exists off, sym_at (data syms) (Z.of_nat i + 1) =
      fields off (st_value y) (st_size y) (st_info y) (st_other y) (st_shndx y)).
Proof.
  intros Hs Ht Hl Hn Hb. destruct (new_symtab_spec n1 n2 n3 type flags hflags st Hs Ht) as (st1 & syms & strs & hs & E & T & Ho & _).
  destruct (put_all_spec _ l st1 syms strs hs 1 T Hl) as (st2 & syms2 & strs2 & hs2 & E2 & T2 & _ & Hnew & Hfind); [lia|lia|].
  exists (next_sec st), st2, syms2. split; [|split; [|split; [|split]]].
  - erewrite bind_run by exact E. by erewrite bind_run by exact E2.
  - apply T2.
  - destruct T2 as [_ _ _ _ _ (G & _) _ _ _]. lia.
  - intros nm. rewrite (find_elf_sym_spec _ _ _ _ _ _ _ T2), Hfind. done.
  - intros i y nm Hi. replace (Z.of_nat i + 1) with (Z.of_nat (1 + i)) by lia. by apply (Hnew i y nm).
Qed.
End table.

(** A local [a], a global [b], a global [a]: looking for [a] gives the third symbol. *)
Definition no_sections : TCCState := Tcc ∅ 1 [0] [] 0 0 0 0 0 0 ∅ 0 0.
Definition some_symbols : list entry :=
  [(ElfSym 0 (ST_INFO STB_LOCAL STT_OBJECT) 0 1 16 4, lit "a"); (ElfSym 0 (ST_INFO STB_GLOBAL STT_OBJECT) 0 1 32 8, lit "b");
   (ElfSym 0 (ST_INFO STB_GLOBAL STT_OBJECT) 0 2 0 8, lit "a")].
Lemma symbol_lookup_correct_witness : exists s st',
  (s ← new_symtab (fun _ => true) (lit ".symtab") SHT_SYMTAB 0 (lit ".strtab") (lit ".hashtab") SHF_PRIVATE;
   put_all (fun _ => true) s some_symbols;; mret s) no_sections = Some (s, st') /\
  find_elf_sym s (lit "a") st' = Some (3, st') /\ find_elf_sym s (lit "c") st' = Some (0, st').
Proof.
  destruct (symbol_lookup_correct (fun _ => true) (fun _ _ => eq_refl) (lit ".symtab") (lit ".strtab") (lit ".hashtab")
    SHT_SYMTAB 0 SHF_PRIVATE some_symbols no_sections) as (s & st' & syms & E & _ & _ & Hf & _).
  - reflexivity.
  - discriminate.
  - repeat (apply Forall_cons; split; [repeat (apply Forall_cons; split; [vm_compute; split; congruence|]); apply Forall_nil_2|]);
      apply Forall_nil_2.
  - reflexivity.
  - reflexivity.
  - exists s, st'. split; [exact E|]. rewrite !Hf. split; reflexivity.
Defined.
