(* ===== verification/TccElfResolve.v ===== *)
(** Symbol resolution ([set_elf_sym] of [src/compiler/tccelf.c]): which of several definitions of a name
    the linker keeps. *)
From S2P Require Import Prelude TccElf TccElfHash.

#[export] Instance Sym_eq_dec : EqDecision Sym.
Proof. solve_decision. Defined.

(** ** What becomes of a symbol *)

(** The symbol in the table and the duplicate-definition error, after [new] has been added to a name
    that has the symbol [y]. *)
Definition resolve (bss : Z) (y new : Sym) : Sym * bool :=
  if (st_value y =? st_value new) && (st_size y =? st_size new) && (st_info y =? st_info new)
     && (st_other y =? st_other new) && (st_shndx y =? st_shndx new) then (y, false)
  else
    let take other := patch y (st_value new) (st_size new) (st_info new) other (st_shndx new) in
    if st_shndx y =? SHN_UNDEF then (take (st_other new), false)
    else
      let vis := ST_VISIBILITY (st_other new) in
      let other := Z.lor (Z.land (st_other y) 0xfc) (merged_visibility (ST_VISIBILITY (st_other y)) vis) in
      match override bss (set_other other y) (ST_BIND (st_info new)) vis (st_shndx new) with
      | None => (set_other other y, true)
      | Some false => (set_other other y, false)
      | Some true => (take other, false)
      end.

Lemma patch_ok y v z i o h : sym_ok y -> sym_ok (patch y v z i o h).
Proof.
  intros (H & _). unfold patch, sym_ok, u8, u16, u64. cbn [st_name st_info st_other st_shndx st_value st_size].
  repeat split; try apply H; apply Z.mod_pos_bound; lia.
Qed.
Lemma set_other_ok y o : sym_ok y -> isu8 o -> sym_ok (set_other o y).
Proof. intros (H1 & H2 & H3 & H4 & H5 & H6) Ho. by repeat split; try apply H1; try apply H2; try apply Ho; try apply H4; try apply H5; try apply H6. Qed.
Lemma merged_visibility_bound a b : 0 <= a < 4 -> 0 <= b < 4 -> 0 <= merged_visibility a b < 4.
Proof. intros Ha Hb. unfold merged_visibility. repeat case_match; lia. Qed.
Lemma visibility_bound o : 0 <= ST_VISIBILITY o < 4.
Proof. unfold ST_VISIBILITY. change 3 with (Z.ones 2). rewrite (Z.land_ones o 2) by lia. apply Z.mod_pos_bound. lia. Qed.
Lemma merged_other_bound a b v : isu8 a -> 0 <= v < 4 -> isu8 (Z.lor (Z.land a 0xfc) (merged_visibility (ST_VISIBILITY b) v)).
Proof.
  intros Ha Hv. pose proof (merged_visibility_bound (ST_VISIBILITY b) v (visibility_bound b) Hv).
  apply (lor_bound 8); [lia| |lia]. apply (land_bound_r 8); lia.
Qed.
Lemma bind_nonlocal info : isu8 info -> ST_BIND (u8 (ST_INFO (ST_BIND info) (ST_TYPE info))) = ST_BIND info.
Proof.
  intros Hi. unfold ST_INFO, ST_BIND, ST_TYPE, u8. rewrite (Z.mod_small info) by lia.
  rewrite Z.shiftl_mul_pow2, !Z.shiftr_div_pow2 by lia. change (2 ^ 4) with 16.
  rewrite <- Z.land_assoc. change (Z.land 15 15) with (Z.ones 4). rewrite Z.land_ones by lia. change (2 ^ 4) with 16. zlia.
Qed.
Lemma info_same info : isu8 info -> u8 (ST_INFO (ST_BIND info) (ST_TYPE info)) = info.
Proof.
  intros Hi. unfold ST_INFO, ST_BIND, ST_TYPE, u8. rewrite (Z.mod_small info) by lia.
  rewrite Z.shiftl_mul_pow2, !Z.shiftr_div_pow2 by lia. change (2 ^ 4) with 16.
  rewrite <- Z.land_assoc. change (Z.land 15 15) with (Z.ones 4). rewrite Z.land_ones by lia. change (2 ^ 4) with 16. zlia.
Qed.
(** A symbol taken over keeps the place of its name. *)
Lemma patch_fields y new : sym_ok new -> patch y (st_value new) (st_size new) (st_info new) (st_other new) (st_shndx new) =
  ElfSym (st_name y) (st_info new) (st_other new) (st_shndx new) (st_value new) (st_size new).
Proof.
  intros (H1 & H2 & H3 & H4 & H5 & H6). unfold patch. rewrite info_same by done. rewrite u8_small, !u64_small by done.
  unfold u16. by rewrite Z.mod_small by lia.
Qed.
Lemma resolve_ok bss y new : sym_ok y -> sym_ok new -> ST_BIND (st_info new) <> STB_LOCAL -> ST_BIND (st_info y) <> STB_LOCAL ->
  let z := fst (resolve bss y new) in sym_ok z /\ st_name z = st_name y /\ ST_BIND (st_info z) <> STB_LOCAL.
Proof.
  intros Hy Hn Hb Hby. pose proof Hy as (_ & _ & Hyo & _). pose proof Hn as (_ & Hni & Hno & _). cbv zeta. unfold resolve.
  destruct (_ && _); [done|]. set (other := Z.lor _ _).
  assert (isu8 other) as Ho by (apply merged_other_bound; [done|apply visibility_bound]).
  destruct (st_shndx y =? SHN_UNDEF); [|destruct (override _ _ _ _ _) as [[]|]]; cbn [fst];
    (split; [by first [apply patch_ok|apply set_other_ok]|split; [done|]]); cbn [st_info patch set_other]; rewrite ?bind_nonlocal by done; done.
Qed.

(** ** [set_elf_sym] on a table *)

Section table.
Context (can_alloc : Z -> bool).
Hypothesis plenty : forall n, 0 <= n < 2 ^ 34 -> can_alloc n = true.

(** A symbol's fields may change, not its name nor whether it is local. *)
Lemma table_store s st syms strs hs n i z : table s st syms strs hs n -> 0 <= i < Z.of_nat n -> sym_ok z ->
  st_name z = st_name (sym_at (data syms) i) ->
  ST_BIND (st_info z) <> STB_LOCAL -> ST_BIND (st_info (sym_at (data syms) i)) <> STB_LOCAL ->
  let syms' := set_data (put_sym i z (data syms)) syms in
  store_sym s i z st = Some ((), with_sec s syms' st) /\ table s (with_sec s syms' st) syms' strs hs n /\
  forall j, key syms' strs j = key syms strs j.
Proof.
  intros T Hi Hz Hname Hb Hb'. pose proof T as [T1 T2 T3 (A1 & A2 & A3 & A4) [R1 R2] T6 T7 T8 T9]. cbv zeta. set (syms' := set_data _ syms).
  split; [exact (upd_run s _ syms st T1)|].
  assert (forall j, key syms' strs j = key syms strs j) as Hk.
  { intros j. destruct (decide (j = i)) as [->|]; [|by apply key_put_other].
    unfold key. cbn [data syms' set_data]. rewrite sym_at_put, Hname by done.
    by rewrite (proj2 (Z.eqb_neq _ _) Hb), (proj2 (Z.eqb_neq _ _) Hb'). }
  split; [|exact Hk]. split.
  - apply with_sec_eq.
  - cbn [link syms' set_data]. by rewrite with_sec_ne.
  - cbn [hash syms' set_data]. by rewrite with_sec_ne.
  - done.
  - split; [by destruct R1; split|done].
  - done.
  - done.
  - intros j Hj. cbn [data syms' set_data]. destruct (decide (j = i)) as [->|]; [rewrite sym_at_put, Hname by done; by apply T8|].
    rewrite sym_at_put_ne by congruence. by apply T8.
  - by apply (hash_ok_ext (key syms strs)).
Qed.

Lemma bound_run st p d : secs st !! p = Some d -> gets bss_section st = Some (bss_section st, st) /\ sec p st = Some (d, st).
Proof. intros H. split; [done|by apply sec_run]. Qed.

Lemma table_secs s st st' syms strs hs n : secs st' = secs st -> table s st syms strs hs n -> table s st' syms strs hs n.
Proof. intros E [T1 T2 T3 T4 T5 T6 T7 T8 T9]. by split; rewrite ?E. Qed.

(** The name is in the table. *)
Lemma set_elf_sym_found s st syms strs hs n b new nm : let i := last_where (named (key syms strs) nm) n in
  let y := sym_at (data syms) i in
  table s st syms strs hs n -> secs st !! bss_section st = Some b -> bss_section st <> s ->
  ST_BIND (st_info new) <> STB_LOCAL -> i <> 0 -> sym_ok y -> sym_ok new ->
  exists st' syms', set_elf_sym can_alloc s (st_value new) (st_size new) (st_info new) (st_other new) (st_shndx new) nm st = Some (i, st') /\
    table s st' syms' strs hs n /\ (forall j, key syms' strs j = key syms strs j) /\
    sym_at (data syms') i = fst (resolve (sh_num b) y new) /\
    (forall j, j <> i -> sym_at (data syms') j = sym_at (data syms) j) /\
    bss_section st' = bss_section st /\ (forall p, p <> s -> secs st' !! p = secs st !! p) /\
    nb_errors st' = nb_errors st + Z.b2z (snd (resolve (sh_num b) y new)) /\
    link syms' = link syms /\ hash syms' = hash syms.
Proof.
  intros i y T Hb Hbs Hl Hi Hy Hn. pose proof (find_elf_sym_spec s st syms strs hs n nm T) as Ef. fold i in Ef.
  assert (0 <= i < Z.of_nat n /\ key syms strs i = Some nm) as [Hin Hk].
  { destruct (last_where_spec (named (key syms strs) nm) n) as [[E _]|(G1 & G2 & _)]; [fold i in E; lia|]. fold i in G1, G2.
    split; [lia|]. unfold named in G2. by apply bool_decide_eq_true in G2. }
  assert (ST_BIND (st_info y) <> STB_LOCAL) as Hly.
  { revert Hk. unfold key. fold y. destruct (Z.eqb_spec (ST_BIND (st_info y)) STB_LOCAL); done. }
  unfold set_elf_sym. rewrite (proj2 (Z.eqb_neq _ _) Hl). erewrite bind_run by exact Ef. rewrite (proj2 (Z.eqb_neq _ _) Hi).
  erewrite bind_run by (apply sec_run, T). fold y.
  destruct (resolve_ok (sh_num b) y new Hy Hn Hl Hly) as (Hz & Hzn & Hzb). revert Hz Hzn Hzb. unfold resolve.
  destruct (_ && _) eqn:Esame.
  { intros _ _ _. exists st, syms. cbn [fst snd]. by rewrite Z.add_0_r. }
  cbv zeta. destruct (st_shndx y =? SHN_UNDEF) eqn:Eu; cbn [fst snd].
  { intros Hz Hzn Hzb. destruct (table_store s st syms strs hs n i _ T Hin Hz Hzn Hzb Hly) as (E & T' & Hk').
    erewrite bind_run by exact E. eexists _, _. split; [reflexivity|]. split; [exact T'|]. split; [exact Hk'|].
    cbn [data set_data]. rewrite sym_at_put by done. split; [done|]. split; [intros j Hj; by rewrite sym_at_put_ne|].
    split; [done|]. split; [|split; [cbn; lia|done]]. intros p Hp. by rewrite with_sec_ne by congruence. }
  set (other := Z.lor _ _). set (y1 := set_other other y).
  assert (isu8 other) as Ho by (apply merged_other_bound; [apply Hy|apply visibility_bound]).
  assert (sym_ok y1) as Hy1 by by apply set_other_ok.
  destruct (table_store s st syms strs hs n i y1 T Hin Hy1 eq_refl Hly Hly) as (E & T' & Hk').
  set (syms1 := set_data (put_sym i y1 (data syms)) syms) in *. set (st1 := with_sec s syms1 st) in *.
  erewrite bind_run by exact E. erewrite bind_run by reflexivity.
  assert (secs st1 !! bss_section st = Some b) as Hb1 by (unfold st1; by rewrite with_sec_ne by congruence).
  erewrite bind_run by (apply sec_run; exact Hb1).
  destruct (override _ _ _ _ _) as [[]|] eqn:Eo; cbn [fst snd]; intros Hz Hzn Hzb.
  - assert (sym_at (data syms1) i = y1) as Ey1 by by apply sym_at_put.
    assert (st_name (patch y1 (st_value new) (st_size new) (st_info new) other (st_shndx new)) = st_name (sym_at (data syms1) i)) as En by by rewrite Ey1.
    destruct (table_store s st1 syms1 strs hs n i _ T' Hin Hz En Hzb ltac:(by rewrite Ey1)) as (E2 & T2 & Hk2).
    erewrite bind_run by exact E2. eexists _, _. split; [reflexivity|]. split; [exact T2|]. split; [intros j; by rewrite Hk2, Hk'|].
    cbn [data set_data]. rewrite sym_at_put by done. split; [done|].
    split; [intros j Hj; rewrite sym_at_put_ne by done; cbn [data syms1 set_data]; by rewrite sym_at_put_ne|].
    split; [done|]. split; [|split; [cbn; lia|done]]. intros p Hp. unfold st1. by rewrite !with_sec_ne by congruence.
  - erewrite bind_run by reflexivity. exists st1, syms1. split; [done|]. split; [done|]. split; [done|].
    cbn [data syms1 set_data]. rewrite sym_at_put by done. split; [done|]. split; [intros j Hj; by rewrite sym_at_put_ne|].
    split; [done|]. split; [|split; [cbn; lia|done]]. intros p Hp. unfold st1. by rewrite with_sec_ne by congruence.
  - erewrite bind_run by reflexivity. exists (set_nb_errors (nb_errors st1 + 1) st1), syms1. split; [done|].
    split; [by apply (table_secs s st1)|]. split; [done|].
    cbn [data syms1 set_data]. rewrite sym_at_put by done. split; [done|]. split; [intros j Hj; by rewrite sym_at_put_ne|].
    split; [done|]. split; [|split; [cbn; lia|done]]. intros p Hp. cbn [secs set_nb_errors]. unfold st1. by rewrite with_sec_ne by congruence.
Qed.

(** ** The symbols of a link *)

(** A symbol but for the place of its name. *)
Definition content (y : Sym) : Sym := ElfSym 0 (st_info y) (st_other y) (st_shndx y) (st_value y) (st_size y).
(** What the table says of a name. *)
Definition meaning (syms strs : section) (n : nat) (nm : list Z) : option Sym :=
  let i := last_where (named (key syms strs) nm) n in
  if i =? 0 then None else Some (content (sym_at (data syms) i)).
(** [new] added to what the table says of its name, and the error. *)
Definition absorb (bss : Z) (m : option Sym) (new : Sym) : Sym * bool :=
  match m with None => (content new, false) | Some y => resolve bss y new end.

Lemma resolve_content bss y new : resolve bss (content y) new = (content (fst (resolve bss y new)), snd (resolve bss y new)).
Proof.
  destruct y as [a i o h v z]. unfold resolve, content, patch, set_other, override.
  cbn [st_name st_info st_other st_shndx st_value st_size].
  destruct (_ && _); [done|]. destruct (h =? SHN_UNDEF); [done|].
  repeat (match goal with |- context [match (if ?c then _ else _) with _ => _ end] => destruct c end; try done).
Qed.

(** The table [s] of a link, [b] being the section [.bss]. *)
Record linkable (s : Z) (st : TCCState) (syms strs hs : section) (n : nat) (b : section) : Prop := {
  lk_table : table s st syms strs hs n;
  lk_bss : secs st !! bss_section st = Some b;
  lk_apart : bss_section st <> s /\ bss_section st <> link syms /\ bss_section st <> hash syms;
  lk_syms : forall i, 0 <= i < Z.of_nat n -> sym_ok (sym_at (data syms) i)
}.

Lemma bind_u8 x : ST_BIND (u8 x) = ST_BIND x.
Proof. unfold ST_BIND, u8. by rewrite Zmod_mod. Qed.
Lemma find_new syms strs syms' strs' n nm nm' : (0 < n)%nat ->
  (forall i, 0 <= i < Z.of_nat n -> sym_at (data syms') i = sym_at (data syms) i /\ key syms' strs' i = key syms strs i) ->
  key syms' strs' (Z.of_nat n) = Some nm ->
  last_where (named (key syms' strs') nm') (S n) =
  if bool_decide (nm' = nm) then Z.of_nat n else last_where (named (key syms strs) nm') n.
Proof.
  intros Hn Hold Hk. cbn [last_where]. replace (0 <? Z.of_nat n) with true by lia. cbn [andb]. unfold named at 1. rewrite Hk.
  rewrite (last_where_ext (named (key syms' strs') nm') (named (key syms strs) nm')).
  2: { intros j Hj. unfold named. by rewrite (proj2 (Hold j ltac:(lia))). }
  repeat case_bool_decide; congruence.
Qed.

Lemma set_elf_sym_spec s st syms strs hs n b new nm : linkable s st syms strs hs n b ->
  ST_BIND (st_info new) <> STB_LOCAL -> sym_ok new -> cstr_ok nm ->
  Z.of_nat n < 2 ^ 26 -> data_offset strs + Z.of_nat (length nm) + 1 < 2 ^ 31 ->
  exists i st' syms' strs' hs' n',
    set_elf_sym can_alloc s (st_value new) (st_size new) (st_info new) (st_other new) (st_shndx new) nm st = Some (i, st') /\
    linkable s st' syms' strs' hs' n' b /\ (n' <= S n)%nat /\
    data_offset strs' <= data_offset strs + Z.of_nat (length nm) + 1 /\
    let '(z, e) := absorb (sh_num b) (meaning syms strs n nm) new in
    (forall nm', meaning syms' strs' n' nm' = if bool_decide (nm' = nm) then Some z else meaning syms strs n nm') /\
    nb_errors st' = nb_errors st + Z.b2z e.
Proof.
  intros [T Hb (B1 & B2 & B3) Hsy] Hl Hn Hnm Hsz Hbytes. set (i := last_where (named (key syms strs) nm) n).
  assert (meaning syms strs n nm = if i =? 0 then None else Some (content (sym_at (data syms) i))) as -> by done.
  destruct (Z.eqb_spec i 0) as [Ei|Ei]; cbn [absorb].
  - unfold set_elf_sym. rewrite (proj2 (Z.eqb_neq _ _) Hl).
    erewrite bind_run by exact (find_elf_sym_spec s st syms strs hs n nm T). fold i. rewrite Ei. cbn [Z.eqb].
    destruct (put_elf_sym_spec can_alloc plenty s st syms strs hs n (st_value new) (st_size new)
      (ST_INFO (ST_BIND (st_info new)) (ST_TYPE (st_info new))) (st_other new) (st_shndx new) nm T Hnm Hsz Hbytes)
      as (st' & syms' & strs' & hs' & off & E & T' & [Est Hoth] & El & Eh & Hlen & Hold & Hnew & Hkey).
    assert (sym_at (data syms') (Z.of_nat n) = ElfSym (u32 off) (st_info new) (st_other new) (st_shndx new) (st_value new) (st_size new)) as Hnew'.
    { rewrite Hnew. destruct Hn as (_ & H2 & H3 & H4 & H5 & H6). unfold fields. rewrite info_same by done. rewrite u8_small, !u64_small by done.
      unfold u16. by rewrite Z.mod_small by lia. }
    exists (Z.of_nat n), st', syms', strs', hs', (S n). split; [exact E|]. split; [|split; [lia|split; [exact Hlen|split]]].
    + split; [done| |rewrite Est; cbn [bss_section set_secs]; by rewrite El, Eh|].
      * assert (bss_section st' = bss_section st) as -> by by rewrite Est. rewrite Hoth by done. exact Hb.
      * intros j Hj. destruct (decide (j = Z.of_nat n)) as [->|].
        -- rewrite Hnew. apply fields_ok.
        -- rewrite (proj1 (Hold j ltac:(lia))). apply Hsy. lia.
    + intros nm'. pose proof (tb_size _ _ _ _ _ _ T) as (_ & Hpos & _).
      assert (key syms' strs' (Z.of_nat n) = Some nm) as Hkn.
      { rewrite Hkey. rewrite <- bind_u8, bind_nonlocal by apply Hn. by rewrite (proj2 (Z.eqb_neq _ _) Hl). }
      unfold meaning. rewrite (find_new syms strs syms' strs' n nm nm' Hpos Hold Hkn). case_bool_decide.
      * rewrite (proj2 (Z.eqb_neq _ _)) by lia. rewrite Hnew'. by destruct new.
      * destruct (last_where_spec (named (key syms strs) nm') n) as [[-> _]|(G1 & _)]; [done|].
        rewrite (proj1 (Hold _ ltac:(split; [apply Z.lt_le_incl, G1|apply G1]))). done.
    + rewrite Est. cbn. lia.
  - destruct (set_elf_sym_found s st syms strs hs n b new nm T Hb B1 Hl Ei) as (st' & syms' & E & T' & Hk & Hi & Hj & Ebss & Hsec & Herr & El & Eh);
      [|done|].
    { apply Hsy. destruct (last_where_spec (named (key syms strs) nm) n) as [[G _]|(G & _)]; fold i in G; lia. }
    fold i in Hi, Hj, Herr, E.
    rewrite resolve_content. exists i, st', syms', strs, hs, n. split; [exact E|].
    assert (0 < i < Z.of_nat n) as Hin.
    { destruct (last_where_spec (named (key syms strs) nm) n) as [[G _]|(G & _)]; fold i in G; lia. }
    assert (key syms strs i = Some nm) as Hki.
    { destruct (last_where_spec (named (key syms strs) nm) n) as [[G _]|(_ & G & _)]; fold i in G; [lia|]. by apply bool_decide_eq_true in G. }
    assert (ST_BIND (st_info (sym_at (data syms) i)) <> STB_LOCAL) as Hbi.
    { revert Hki. unfold key. destruct (Z.eqb_spec (ST_BIND (st_info (sym_at (data syms) i))) STB_LOCAL); done. }
    pose proof (resolve_ok (sh_num b) (sym_at (data syms) i) new (Hsy i ltac:(lia)) Hn Hl Hbi) as (Hz & _ & _).
    split; [|split; [lia|split; [lia|split; [|exact Herr]]]].
    + split; [done| | |].
      * rewrite Ebss, Hsec by done. done.
      * by rewrite Ebss, El, Eh.
      * intros j Hj'. destruct (decide (j = i)) as [Ej|]; [by rewrite Ej, Hi|]. rewrite Hj by done. by apply Hsy.
    + intros nm'. unfold meaning. rewrite (last_where_ext (named (key syms' strs) nm') (named (key syms strs) nm')).
      2: { intros j _. unfold named. by rewrite Hk. }
      case_bool_decide as En; [subst nm'; fold i; rewrite (proj2 (Z.eqb_neq _ _) Ei), Hi; done|].
      destruct (last_where_spec (named (key syms strs) nm') n) as [[-> _]|(G1 & G2 & _)]; [done|].
      rewrite Hj; [done|]. intros Eij. apply bool_decide_eq_true in G2. congruence.
Qed.

Fixpoint set_all (s : Z) (l : list entry) : L unit :=
  match l with
  | [] => mret ()
  | (y, nm) :: l =>
      set_elf_sym can_alloc s (st_value y) (st_size y) (st_info y) (st_other y) (st_shndx y) nm;; set_all s l
  end.
(** What a sequence of definitions and uses leaves of a name, from [m]; and the errors they cause. *)
Fixpoint absorb_all (bss : Z) (nm : list Z) (m : option Sym) (l : list entry) : option Sym * Z :=
  match l with
  | [] => (m, 0)
  | (y, nm') :: l =>
      if bool_decide (nm' = nm) then
        let '(z, e) := absorb bss m y in
        let '(r, k) := absorb_all bss nm (Some z) l in (r, Z.b2z e + k)
      else absorb_all bss nm m l
  end.
Lemma absorb_all_errors bss nm m l : 0 <= snd (absorb_all bss nm m l).
Proof.
  revert m. induction l as [|[y nm'] l IH]; intros m; cbn [absorb_all]; [done|]. case_bool_decide; [|apply IH].
  destruct (absorb bss m y) as [z e]. specialize (IH (Some z)). destruct (absorb_all bss nm (Some z) l). cbn [snd] in *. destruct e; cbn; lia.
Qed.
Definition entry_ok (e : entry) : Prop := sym_ok e.1 /\ ST_BIND (st_info e.1) <> STB_LOCAL /\ cstr_ok e.2.

Lemma set_all_spec s l st syms strs hs n b : linkable s st syms strs hs n b -> Forall entry_ok l ->
  Z.of_nat (n + length l) <= 2 ^ 26 -> data_offset strs + name_bytes l < 2 ^ 31 ->
  (forall nm, snd (absorb_all (sh_num b) nm (meaning syms strs n nm) l) = 0) ->
  exists st' syms' strs' hs' n', set_all s l st = Some ((), st') /\ linkable s st' syms' strs' hs' n' b /\
    nb_errors st' = nb_errors st /\
    forall nm, meaning syms' strs' n' nm = fst (absorb_all (sh_num b) nm (meaning syms strs n nm) l).
Proof.
  revert st syms strs hs n. induction l as [|[y nm0] l IH]; intros st syms strs hs n K Hl Hn Hb He; cbn [set_all length name_bytes] in *.
  { by exists st, syms, strs, hs, n. }
  apply Forall_cons in Hl as [(Hy & Hloc & Hnm) Hl]. cbn [fst snd] in *. pose proof (name_bytes_nonneg l).
  destruct (set_elf_sym_spec s st syms strs hs n b y nm0 K Hloc Hy Hnm) as (i & st1 & syms1 & strs1 & hs1 & n1 & E & K1 & Hn1 & Hlen & Hm); [lia|lia|].
  erewrite bind_run by exact E. destruct (absorb (sh_num b) (meaning syms strs n nm0) y) as [z e] eqn:Ea. destruct Hm as [Hm Herr].
  assert (e = false) as ->.
  { specialize (He nm0). cbn [absorb_all] in He. rewrite bool_decide_eq_true_2, Ea in He by done.
    pose proof (absorb_all_errors (sh_num b) nm0 (Some z) l) as Hk. destruct (absorb_all _ _ (Some z) l). cbn [snd] in *. destruct e; cbn in *; [lia|done]. }
  destruct (IH st1 syms1 strs1 hs1 n1 K1 Hl) as (st2 & syms2 & strs2 & hs2 & n2 & E2 & K2 & Herr2 & Hm2); [lia|lia| |].
  { intros nm. rewrite Hm. specialize (He nm). cbn [absorb_all] in He. case_bool_decide as E1; case_bool_decide as E3; try congruence.
    subst nm. rewrite Ea in He. destruct (absorb_all _ _ (Some z) l). cbn [snd] in *. cbn in He. lia. }
  exists st2, syms2, strs2, hs2, n2. split; [done|]. split; [done|]. split; [rewrite Herr2, Herr; cbn; lia|].
  intros nm. rewrite Hm2, Hm. cbn [absorb_all]. case_bool_decide as E1; case_bool_decide as E3; try congruence.
  subst nm. rewrite Ea. by destruct (absorb_all _ _ (Some z) l).
Qed.
End table.

(** ** One definition *)

(** A definition in a section of its own, and what gives way to it: a use, a weak symbol, a common one
    or one in [.bss]. *)
Definition strong (bss : Z) (y : Sym) : bool :=
  (ST_BIND (st_info y) =? STB_GLOBAL) && (0 <? st_shndx y) && (st_shndx y <? SHN_LORESERVE) && negb (st_shndx y =? bss).
Definition weaker (bss : Z) (y : Sym) : bool :=
  (ST_BIND (st_info y) =? STB_WEAK) ||
  (ST_BIND (st_info y) =? STB_GLOBAL) && ((st_shndx y =? SHN_UNDEF) || (st_shndx y =? SHN_COMMON) || (st_shndx y =? bss)).
(** Of default visibility. *)
Definition plain (bss : Z) (y : Sym) : Prop := sym_ok y /\ st_other y = 0 /\ (strong bss y || weaker bss y) = true.

Lemma resolve_plain bss y new : st_other y = 0 -> st_other new = 0 -> sym_ok new ->
  resolve bss (content y) new =
    if bool_decide (content y = content new) then (content y, false)
    else if st_shndx y =? SHN_UNDEF then (content new, false)
    else match override bss (content y) (ST_BIND (st_info new)) 0 (st_shndx new) with
         | None => (content y, true)
         | Some false => (content y, false)
         | Some true => (content new, false)
         end.
Proof.
  intros Hy Hn Hok. pose proof (patch_fields (content y) new Hok) as Ep. rewrite Hn in Ep.
  assert (st_other (content y) = 0) as Eo by done.
  assert (set_other 0 (content y) = content y) as Es by (unfold set_other, content; cbn; by rewrite Hy).
  assert (ElfSym (st_name (content y)) (st_info new) 0 (st_shndx new) (st_value new) (st_size new) = content new) as En.
  { unfold content. cbn [st_name]. by rewrite Hn. }
  unfold resolve. rewrite Hn, Eo. change (Z.lor (Z.land 0 0xfc) (merged_visibility (ST_VISIBILITY 0) (ST_VISIBILITY 0))) with 0.
  change (ST_VISIBILITY 0) with 0. rewrite Es, Ep, En. change (0 =? 0) with true. rewrite andb_true_r.
  change (st_shndx (content y)) with (st_shndx y). change (st_value (content y)) with (st_value y).
  change (st_size (content y)) with (st_size y). change (st_info (content y)) with (st_info y).
  case_bool_decide as E.
  - assert ((st_value y =? st_value new) && (st_size y =? st_size new) && (st_info y =? st_info new) && (st_shndx y =? st_shndx new) = true) as ->; [|done].
    unfold content in E. injection E as E1 E2 E3 E4 E5. rewrite E1, E3, E4, E5. by rewrite !Z.eqb_refl.
  - destruct (_ && _) eqn:Eq; [|done]. exfalso. apply E. unfold content. rewrite Hy, Hn.
    repeat (apply andb_true_iff in Eq as [Eq ?%Z.eqb_eq]). apply Z.eqb_eq in Eq. congruence.
Qed.

Ltac booleans :=
  repeat match goal with
  | H : (_ || _) = true |- _ => apply orb_true_iff in H as [H|H]
  | H : (_ && _) = true |- _ => apply andb_true_iff in H as [? H]
  | H : (_ && _) = false |- _ => apply andb_false_iff in H as [H|H]
  | H : (_ || _) = false |- _ => apply orb_false_iff in H as [? H]
  | H : negb _ = true |- _ => apply negb_true_iff in H
  | H : negb _ = false |- _ => apply negb_false_iff in H
  | H : (_ =? _) = true |- _ => apply Z.eqb_eq in H
  | H : (_ =? _) = false |- _ => apply Z.eqb_neq in H
  | H : (_ <? _) = true |- _ => apply Z.ltb_lt in H
  | H : (_ <? _) = false |- _ => apply Z.ltb_ge in H
  end.
Ltac overriding :=
  unfold override; cbn [content st_info st_shndx st_other];
  repeat match goal with |- context [if ?b then _ else _] => destruct b eqn:? end;
  unfold STB_GLOBAL, STB_WEAK, SHN_UNDEF, SHN_COMMON, SHN_LORESERVE, STV_HIDDEN, STV_INTERNAL in *; booleans; first [done|exfalso; lia].

(** A strong definition replaces what gives way to it, and stays. *)
Lemma override_strong bss y new : 0 < bss < SHN_LORESERVE -> weaker bss y = true -> st_shndx y <> SHN_UNDEF -> strong bss new = true ->
  override bss (content y) (ST_BIND (st_info new)) 0 (st_shndx new) = Some true.
Proof. unfold weaker, strong. intros Hb Hw Hu Hs. overriding. Qed.
Lemma override_kept bss y new : 0 < bss < SHN_LORESERVE -> strong bss y = true -> weaker bss new = true ->
  override bss (content y) (ST_BIND (st_info new)) 0 (st_shndx new) = Some false.
Proof. unfold weaker, strong. intros Hb Hs Hw. overriding. Qed.
Lemma override_weaker bss y new : 0 < bss < SHN_LORESERVE -> weaker bss y = true -> weaker bss new = true ->
  override bss (content y) (ST_BIND (st_info new)) 0 (st_shndx new) <> None.
Proof. unfold weaker. intros Hb Hw Hn. overriding. Qed.

(** The strong definitions of a name. *)
Definition strongs (bss : Z) (nm : list Z) (l : list entry) : list Sym :=
  map fst (filter (fun e => e.2 = nm /\ strong bss e.1 = true) l).
Definition gives_way (bss : Z) (m : option Sym) : Prop :=
  match m with None => True | Some y => exists y0, y = content y0 /\ st_other y0 = 0 /\ weaker bss y0 = true end.

Lemma strong_not_weaker bss y : strong bss y = true -> weaker bss y = true -> 0 < bss -> False.
Proof.
  unfold strong, weaker. intros H1 H2 Hb. unfold STB_GLOBAL, STB_WEAK, SHN_UNDEF, SHN_COMMON, SHN_LORESERVE in *. booleans; lia.
Qed.
Lemma absorb_strong bss m y : 0 < bss < SHN_LORESERVE -> gives_way bss m -> plain bss y -> strong bss y = true ->
  absorb bss m y = (content y, false).
Proof.
  intros Hb Hm (Hy & Ho & _) Hs. destruct m as [z|]; [|done]. destruct Hm as (z0 & -> & Hz & Hw). cbn [absorb].
  rewrite resolve_plain by done. case_bool_decide as E; [by rewrite E|].
  destruct (Z.eqb_spec (st_shndx z0) SHN_UNDEF) as [|Hu]; [done|]. by rewrite override_strong.
Qed.
Lemma absorb_kept bss y0 y : 0 < bss < SHN_LORESERVE -> strong bss y0 = true -> st_other y0 = 0 -> plain bss y -> weaker bss y = true ->
  absorb bss (Some (content y0)) y = (content y0, false).
Proof.
  intros Hb Hs Hz (Hy & Ho & _) Hw. cbn [absorb]. rewrite resolve_plain by done. case_bool_decide; [done|].
  assert ((st_shndx y0 =? SHN_UNDEF) = false) as -> by (apply Z.eqb_neq; unfold strong in Hs; booleans; unfold SHN_UNDEF; lia).
  by rewrite override_kept.
Qed.
Lemma absorb_weaker bss m y : 0 < bss < SHN_LORESERVE -> gives_way bss m -> plain bss y -> weaker bss y = true ->
  exists z, absorb bss m y = (z, false) /\ gives_way bss (Some z).
Proof.
  intros Hb Hm (Hy & Ho & _) Hw. destruct m as [z|]; [|exists (content y); split; [done|by exists y]].
  destruct Hm as (z0 & -> & Hz & Hw0). cbn [absorb]. rewrite resolve_plain by done.
  case_bool_decide; [exists (content z0); split; [done|by exists z0]|].
  destruct (st_shndx z0 =? SHN_UNDEF); [exists (content y); split; [done|by exists y]|].
  pose proof (override_weaker bss z0 y Hb Hw0 Hw) as Hn. destruct (override _ _ _ _ _) as [[]|]; [| |done].
  - exists (content y). split; [done|by exists y].
  - exists (content z0). split; [done|by exists z0].
Qed.

Lemma absorb_all_absent bss nm m l : nm ∉ map snd l -> absorb_all bss nm m l = (m, 0).
Proof.
  induction l as [|[y nm'] l IH]; intros Hn; cbn [absorb_all]; [done|]. cbn [map snd] in Hn. apply not_elem_of_cons in Hn as [H1 H2].
  rewrite bool_decide_eq_false_2 by congruence. by apply IH.
Qed.

(** Once the strong definition is there, nothing changes it. *)
Lemma absorb_all_kept bss nm y0 l : 0 < bss < SHN_LORESERVE -> strong bss y0 = true -> st_other y0 = 0 ->
  Forall (fun e => plain bss e.1) l -> strongs bss nm l = [] ->
  absorb_all bss nm (Some (content y0)) l = (Some (content y0), 0).
Proof.
  intros Hb Hs Ho. induction l as [|[y nm'] l IH]; intros Hl Hn; cbn [absorb_all]; [done|].
  apply Forall_cons in Hl as [Hp Hl]. unfold strongs in Hn. rewrite filter_cons in Hn. cbn [fst snd] in *.
  destruct (decide (nm' = nm /\ strong bss y = true)) as [|Hd]; [done|].
  case_bool_decide as E; [|by apply IH]. rewrite absorb_kept; [|done|done|done|done|].
  - rewrite IH by done. done.
  - destruct Hp as (_ & _ & Hp). apply orb_true_iff in Hp as [Hp|Hp]; [|done]. exfalso. by apply Hd.
Qed.
(** The strong definition wins, wherever it comes; and there is no error if there is at most one. *)
Lemma absorb_all_strong bss nm m l : 0 < bss < SHN_LORESERVE -> gives_way bss m ->
  Forall (fun e => plain bss e.1) l -> (length (strongs bss nm l) <= 1)%nat ->
  snd (absorb_all bss nm m l) = 0 /\
  forall y, strongs bss nm l = [y] -> fst (absorb_all bss nm m l) = Some (content y).
Proof.
  intros Hb. revert m. induction l as [|[y nm'] l IH]; intros m Hm Hl Hn; cbn [absorb_all]; [by split|].
  apply Forall_cons in Hl as [Hp Hl]. unfold strongs in Hn |- *. rewrite filter_cons in Hn |- *. cbn [fst snd] in *.
  destruct (decide (nm' = nm /\ strong bss y = true)) as [[-> Hs]|Hd].
  - rewrite bool_decide_eq_true_2, absorb_strong by done. cbn [map length fst] in *.
    assert (strongs bss nm l = []) as E by (fold (strongs bss nm l) in Hn; destruct (strongs bss nm l); [done|cbn in Hn; lia]).
    rewrite absorb_all_kept by (done || apply Hp). split; [done|]. intros z Hz. fold (strongs bss nm l) in Hz. rewrite E in Hz. by injection Hz as <-.
  - case_bool_decide as E; [|by apply IH]. subst nm'.
    assert (weaker bss y = true) as Hw.
    { destruct Hp as (_ & _ & Hp'). apply orb_true_iff in Hp' as [Hp'|Hp']; [|done]. exfalso. by apply Hd. }
    destruct (absorb_weaker bss m y Hb Hm Hp Hw) as (z & -> & Hz). destruct (IH (Some z) Hz Hl Hn) as [H1 H2].
    destruct (absorb_all bss nm (Some z) l). cbn [fst snd] in *. split; [done|]. exact H2.
Qed.

Section link.
Context (can_alloc : Z -> bool).
Hypothesis plenty : forall n, 0 <= n < 2 ^ 34 -> can_alloc n = true.

Lemma linkable_secs s st st' syms strs hs n b : secs st' = secs st -> bss_section st' = bss_section st ->
  linkable s st syms strs hs n b -> linkable s st' syms strs hs n b.
Proof. intros E1 E2 [T Hb Ha Hs]. split; rewrite ?E1, ?E2; try done. by apply (table_secs s st). Qed.

(** The number of [.bss] among the sections of [tccelf_new]. *)
Definition BSS : Z := 3.
Definition add_section (nm : list Z) (type flags : Z) (st : TCCState) : TCCState :=
  let p := next_sec st in
  let num := if tst flags SHF_PRIVATE then 0 else Z.of_nat (length (sections st)) in
  let st := set_next_sec (p + 1) (with_sec p (fresh_section num type flags nm) st) in
  if tst flags SHF_PRIVATE then set_priv_sections (priv_sections st ++ [p]) st else set_sections (sections st ++ [p]) st.
Lemma add_section_run nm type flags st : new_section nm type flags st = Some (next_sec st, add_section nm type flags st).
Proof. done. Qed.
Lemma modify_run f st : modify f st = Some ((), f st).
Proof. done. Qed.

(** The state in which [tccelf_new] makes the symbol table: [.text], [.data], [.bss] and [.common]. *)
Definition standard_sections : TCCState :=
  let st := add_section (lit ".text") SHT_PROGBITS (Z.lor SHF_ALLOC SHF_EXECINSTR) (set_sections [0] no_sections) in
  let st := add_section (lit ".data") SHT_PROGBITS (Z.lor SHF_ALLOC SHF_WRITE) (set_text_section 1 st) in
  let st := add_section (lit ".bss") SHT_NOBITS (Z.lor SHF_ALLOC SHF_WRITE) (set_data_section 2 st) in
  let st := add_section (lit ".common") SHT_NOBITS SHF_PRIVATE (set_bss_section 3 st) in
  let d := fresh_section 0 SHT_NOBITS SHF_PRIVATE (lit ".common") in
  with_sec 4 (set_sh_num SHN_COMMON d) (set_common_section 4 st).
Lemma tccelf_new_run : exists st syms strs hs b, tccelf_new can_alloc no_sections = Some ((), st) /\
  linkable (symtab_section st) st syms strs hs 1 b /\ sh_num b = BSS /\ data_offset strs = 1 /\ nb_errors st = 0 /\
  forall nm, meaning syms strs 1 nm = None.
Proof.
  destruct (new_symtab_spec can_alloc plenty (lit ".symtab") (lit ".strtab") (lit ".hashtab") SHT_SYMTAB 0 SHF_PRIVATE standard_sections)
    as (st & syms & strs & hs & E & T & Ho & Hf & Hb & He & Hl & Hh & Hy); [done|done|].
  assert (next_sec standard_sections = 5) as N by reflexivity. rewrite N in *.
  assert (exists st', tccelf_new can_alloc no_sections = Some ((), st') /\ symtab_section st' = 5 /\ secs st' = secs st /\
    bss_section st' = bss_section st /\ nb_errors st' = nb_errors st) as (st' & E' & Es & Esec & Ebss & Eerr).
  { unfold tccelf_new.
    erewrite bind_run by apply modify_run. erewrite bind_run by apply add_section_run. erewrite bind_run by apply modify_run.
    erewrite bind_run by apply add_section_run. erewrite bind_run by apply modify_run. erewrite bind_run by apply add_section_run.
    erewrite bind_run by apply modify_run. erewrite bind_run by apply add_section_run. erewrite bind_run by apply modify_run.
    erewrite bind_run.
    2: { apply (upd_run _ _ (fresh_section 0 SHT_NOBITS SHF_PRIVATE (lit ".common"))). vm_compute. reflexivity. }
    erewrite bind_run by exact E. erewrite bind_run by apply modify_run.
    set (st2 := set_symtab_section 5 st). unfold mbind, L_bind, get_sym_attr. destruct (0 <? nb_sym_attrs st2).
    - exists st2. done.
    - cbn [negb attr_size Z.leb Z.compare]. rewrite plenty by lia. eexists. split; [reflexivity|]. done. }
  assert (secs standard_sections !! 3 = Some (fresh_section 3 SHT_NOBITS (Z.lor SHF_ALLOC SHF_WRITE) (lit ".bss"))) as E3
    by (vm_compute; reflexivity).
  assert (bss_section standard_sections = 3) as B3 by reflexivity.
  exists st', syms, strs, hs, (fresh_section 3 SHT_NOBITS (Z.lor SHF_ALLOC SHF_WRITE) (lit ".bss")).
  split; [exact E'|]. split; [|split; [done|split; [exact Ho|split; [rewrite Eerr, He; reflexivity|]]]].
  - rewrite Es. apply (linkable_secs 5 st); [done|done|]. split; [done| | |].
    + rewrite Hb, B3. rewrite Hf by lia. exact E3.
    + rewrite Hb, B3, Hl, Hh. lia.
    + intros i Hi. assert (i = 0) as -> by lia. exact Hy.
  - done.
Qed.

(** C9: One definition.  Let any object files define and use names, in any order, with global symbols of
    default visibility: uses, weak and common definitions, definitions in sections.  If no name has two
    strong definitions, linking them reports no error, and a name with a strong definition means that
    definition, no matter which uses and weaker definitions come before or after it; a name that is
    never mentioned means nothing. *)
Theorem one_definition l : Forall (fun e => plain BSS e.1 /\ cstr_ok e.2) l ->
  Z.of_nat (length l) < 2 ^ 26 -> 1 + name_bytes l < 2 ^ 31 -> (forall nm, length (strongs BSS nm l) <= 1)%nat ->
  exists st' s syms, (tccelf_new can_alloc;; s ← gets symtab_section; set_all can_alloc s l;; mret s) no_sections = Some (s, st') /\
    secs st' !! s = Some syms /\ nb_errors st' = 0 /\
    forall nm, exists i, find_elf_sym s nm st' = Some (i, st') /\
      (forall y, strongs BSS nm l = [y] -> i <> 0 /\ content (sym_at (data syms) i) = content y) /\
      (nm ∉ map snd l -> i = 0).
Proof.
  intros Hl Hn Hb Hone. destruct tccelf_new_run as (st & syms & strs & hs & b & E & K & Eb & Ho & He & Hm).
  assert (Forall entry_ok l) as Hok.
  { eapply Forall_impl; [exact Hl|]. intros [y nm] [(Hy & _ & Hs) Hnm]. split; [done|split; [|done]]. cbn [fst] in *.
    intros E0. unfold strong, weaker in Hs. rewrite E0 in Hs. unfold STB_LOCAL, STB_GLOBAL, STB_WEAK in Hs. done. }
  assert (Forall (fun e => plain BSS e.1) l) as Hpl by (eapply Forall_impl; [exact Hl|]; by intros e [? _]).
  assert (forall nm, snd (absorb_all BSS nm None l) = 0 /\ forall y, strongs BSS nm l = [y] -> fst (absorb_all BSS nm None l) = Some (content y)) as Ha.
  { intros nm. apply absorb_all_strong; [unfold BSS, SHN_LORESERVE; lia|exact I|exact Hpl|apply Hone]. }
  destruct (set_all_spec can_alloc plenty (symtab_section st) l st syms strs hs 1 b K Hok) as (st' & syms' & strs' & hs' & n' & E' & K' & Herr & Hmean);
    [lia|lia| |].
  { intros nm. rewrite Hm, Eb. apply Ha. }
  exists st', (symtab_section st), syms'. split.
  { erewrite bind_run by exact E. erewrite bind_run by reflexivity. by erewrite bind_run by exact E'. }
  pose proof K' as [T' _ _ _]. split; [apply T'|]. split; [by rewrite Herr|].
  intros nm. eexists. split; [exact (find_elf_sym_spec _ _ _ _ _ _ nm T')|].
  specialize (Hmean nm). rewrite Hm, Eb in Hmean. unfold meaning in Hmean. set (i := last_where _ _) in *. split.
  - intros y Hy. rewrite (proj2 (Ha nm) y Hy) in Hmean. destruct (Z.eqb_spec i 0); [done|]. split; [done|]. by apply (inj Some) in Hmean.
  - intros Hnot. rewrite absorb_all_absent in Hmean by done. destruct (Z.eqb_spec i 0); [done|]. done.
Qed.
End link.

Lemma strongs_le bss nm l : (length (strongs bss nm l) <= length (filter (fun e => strong bss e.1 = true) l))%nat.
Proof.
  unfold strongs. rewrite length_map. induction l as [|e l IH]; [done|]. rewrite !filter_cons.
  repeat case_decide; cbn [length]; try lia. naive_solver.
Qed.
(** A use, a weak definition, the definition in [.text], and a common one. *)
Definition some_objects : list entry :=
  [(ElfSym 0 (ST_INFO STB_GLOBAL STT_NOTYPE) 0 SHN_UNDEF 0 0, lit "foo");
   (ElfSym 0 (ST_INFO STB_WEAK STT_OBJECT) 0 2 16 4, lit "foo");
   (ElfSym 0 (ST_INFO STB_GLOBAL STT_OBJECT) 0 1 64 8, lit "foo");
   (ElfSym 0 (ST_INFO STB_GLOBAL STT_OBJECT) 0 SHN_COMMON 8 8, lit "foo")].
Lemma one_definition_witness : exists st' s syms i,
  (tccelf_new (fun _ => true);; s ← gets symtab_section; set_all (fun _ => true) s some_objects;; mret s) no_sections = Some (s, st') /\
  find_elf_sym s (lit "foo") st' = Some (i, st') /\ secs st' !! s = Some syms /\ st_value (sym_at (data syms) i) = 64.
Proof.
  destruct (one_definition (fun _ => true) (fun _ _ => eq_refl) some_objects) as (st' & s & syms & E & Hs & _ & Hf).
  - repeat (apply Forall_cons; split; [split; [|repeat (apply Forall_cons; split; [vm_compute; split; congruence|]); apply Forall_nil_2]|]);
      [| | | |apply Forall_nil_2].
    all: split; [repeat split; vm_compute; congruence|split; reflexivity].
  - reflexivity.
  - reflexivity.
  - intros nm. etransitivity; [apply strongs_le|]. vm_compute. lia.
  - destruct (Hf (lit "foo")) as (i & Hi & Hy & _). exists st', s, syms, i. split; [exact E|]. split; [exact Hi|]. split; [exact Hs|].
    destruct (Hy (ElfSym 0 (ST_INFO STB_GLOBAL STT_OBJECT) 0 1 64 8) ltac:(vm_compute; reflexivity)) as [_ Hc].
    exact (f_equal st_value Hc).
Defined.
