(* ===== verification/TccElfSort.v ===== *)
(** Reordering the symbol table for output ([sort_syms] of [src/compiler/tccelf.c]), and the relocations
    that [squeeze_multi_relocs] should merge. *)
From S2P Require Import Prelude TccElf TccElfHash.

Lemma sym_at_ok d i : bytes_ok d -> sym_ok (sym_at d i).
Proof.
  intros H. unfold sym_at, sym_ok. cbn [st_name st_info st_other st_shndx st_value st_size].
  pose proof (mget_bound 4 d (24 * i) H). pose proof (mget_bound 1 d (24 * i + 4) H). pose proof (mget_bound 1 d (24 * i + 5) H).
  pose proof (mget_bound 2 d (24 * i + 6) H). pose proof (mget_bound 8 d (24 * i + 8) H). pose proof (mget_bound 8 d (24 * i + 16) H).
  repeat split; lia.
Qed.
Lemma bytes_ok_put_sym i y d : bytes_ok d -> bytes_ok (put_sym i y d).
Proof. intros H. unfold put_sym. auto 10 with words. Qed.

(** ** The two passes *)

(** The symbols of [T] are in [new], [tr] says where, and they fill the places below [q]. *)
Record placed (d : gmap Z Z) (T : Z -> Prop) (q : Z) (new tr : gmap Z Z) : Prop := {
  pl_sym : forall j, T j -> 0 <= aget tr j < q /\ sym_at new (aget tr j) = sym_at d j;
  pl_inj : forall j k, T j -> T k -> aget tr j = aget tr k -> j = k;
  pl_onto : forall k, 0 <= k < q -> exists j, T j /\ aget tr j = k
}.
Lemma placed_ext d T T' q new tr : (forall j, T j <-> T' j) -> placed d T q new tr -> placed d T' q new tr.
Proof.
  intros HT [H1 H2 H3]. split.
  - intros j Hj. apply H1, HT, Hj.
  - intros j k Hj Hk. apply H2; by apply HT.
  - intros k Hk. destruct (H3 k Hk) as (j & Hj & E). exists j. split; [by apply HT|done].
Qed.
Lemma placed_step d T q new tr i : bytes_ok d -> 0 <= q -> ~ T i -> placed d T q new tr ->
  placed d (fun j => T j \/ j = i) (q + 1) (put_sym q (sym_at d i) new) (aset tr i q).
Proof.
  intros Hd Hq Hi [H1 H2 H3]. split.
  - intros j [Hj| ->].
    + rewrite aget_aset_ne by (intros ->; done). destruct (H1 j Hj) as [Hb E]. split; [lia|]. by rewrite sym_at_put_ne by lia.
    + rewrite aget_aset_eq. split; [lia|]. by apply sym_at_put, sym_at_ok.
  - intros j k Hj Hk E. rewrite !aget_aset in E. repeat case_decide; try congruence.
    + subst j. destruct Hk as [Hk| ->]; [|done]. destruct (H1 k Hk). lia.
    + subst k. destruct Hj as [Hj| ->]; [|done]. destruct (H1 j Hj). lia.
    + destruct Hj as [Hj| ->]; [|done]. destruct Hk as [Hk| ->]; [|done]. by apply H2.
  - intros k Hk. destruct (decide (k = q)) as [->|].
    + exists i. split; [by right|by rewrite aget_aset_eq].
    + destruct (H3 k ltac:(lia)) as (j & Hj & E). exists j. split; [by left|]. rewrite aget_aset_ne by (intros ->; done). done.
Qed.

Definition is_local (d : gmap Z Z) (i : Z) : bool := ST_BIND (st_info (sym_at d i)) =? STB_LOCAL.
Fixpoint taken (n : nat) (i : Z) (local : bool) (d : gmap Z Z) : Z :=
  match n with O => 0 | S n => (if Bool.eqb (is_local d i) local then 1 else 0) + taken n (i + 1) local d end.
Lemma taken_all n i d : taken n i true d + taken n i false d = Z.of_nat n.
Proof. revert i. induction n as [|n IH]; intros i; cbn [taken]; [done|]. specialize (IH (i + 1)). destruct (is_local d i); cbn; lia. Qed.
Lemma taken_nonneg n i b d : 0 <= taken n i b d.
Proof. revert i. induction n as [|n IH]; intros i; cbn [taken]; [done|]. specialize (IH (i + 1)). destruct (Bool.eqb _ _); lia. Qed.

Lemma sort_pass_spec n i local d T q new tr : bytes_ok d -> bytes_ok new -> 0 <= q -> placed d T q new tr ->
  (forall j, i <= j < i + Z.of_nat n -> is_local d j = local -> ~ T j) ->
  let '(q', new', tr') := sort_pass n i local d q new tr in
  q' = q + taken n i local d /\ bytes_ok new' /\ (forall k, k < q -> sym_at new' k = sym_at new k) /\
  (forall j, T j -> aget tr' j = aget tr j) /\ placed d (fun j => T j \/ (i <= j < i + Z.of_nat n /\ is_local d j = local)) q' new' tr'.
Proof.
  intros Hd. revert i T q new tr. induction n as [|n IH]; intros i T q new tr Hn Hq HP HT; cbn [sort_pass taken].
  { rewrite Z.add_0_r. split; [done|]. split; [done|]. split; [done|]. split; [done|]. apply (placed_ext _ T); [|done]. intros j. split; [by left|intros [?|?]; [done|lia]]. }
  fold (is_local d i). destruct (Bool.eqb (is_local d i) local) eqn:El.
  - apply eqb_prop in El. pose proof (placed_step d T q new tr i Hd Hq (HT i ltac:(lia) El) HP) as HP'.
    specialize (IH (i + 1) _ (q + 1) _ _ (bytes_ok_put_sym q (sym_at d i) new Hn) ltac:(lia) HP').
    destruct (sort_pass n (i + 1) local d (q + 1) _ _) as [[q' new'] tr'].
    destruct IH as (Eq & Hn' & Hold & Htr & HP2); [intros j Hj Hl [Ht| ->]; [by apply (HT j ltac:(lia))|lia]|].
    split; [lia|]. split; [done|]. split; [intros k Hk; rewrite Hold by lia; by rewrite sym_at_put_ne by lia|].
    split; [intros j Hj; rewrite Htr by (by left); rewrite aget_aset_ne; [done|]; intros <-; by apply (HT i ltac:(lia) El)|].
    refine (placed_ext _ _ _ _ _ _ _ HP2).
    intros j. split; [intros [[Ht| ->]|[Hj Hl]]; [by left|right; split; [lia|done]|right; split; [lia|done]]|].
    intros [Ht|[Hj Hl]]; [by left; left|]. destruct (decide (j = i)) as [->|]; [by left; right|right; split; [lia|done]].
  - specialize (IH (i + 1) T q new tr Hn Hq HP). destruct (sort_pass n (i + 1) local d q new tr) as [[q' new'] tr'].
    destruct IH as (Eq & Hn' & Hold & Htr & HP2); [intros j Hj; apply HT; lia|]. split; [lia|]. split; [done|]. split; [done|]. split; [done|].
    refine (placed_ext _ _ _ _ _ _ _ HP2).
    intros j. split; (intros [Ht|[Hj Hl]]; [by left|right; split; [|done]]); [lia|].
    destruct (decide (j = i)) as [->|]; [|lia]. rewrite Hl, eqb_reflx in El. done.
Qed.

Lemma copy_syms_spec n i src dst k : bytes_ok src -> sym_at (copy_syms n i src dst) k =
  if decide (i <= k < i + Z.of_nat n) then sym_at src k else sym_at dst k.
Proof.
  intros Hs. revert i dst. induction n as [|n IH]; intros i dst; cbn [copy_syms]; [by rewrite decide_False by lia|].
  rewrite IH. destruct (decide (k = i)) as [->|].
  - rewrite decide_False, decide_True by lia. apply sym_at_put, sym_at_ok, Hs.
  - rewrite sym_at_put_ne by congruence. repeat case_decide; try done; lia.
Qed.

(** ** Relocations *)

Definition rela_ok (r : Rela) : Prop := isu64 (r_offset r) /\ isu64 (r_info r) /\ isu64 (r_addend r).
Lemma rela_at_ok d i : bytes_ok d -> rela_ok (rela_at d i).
Proof. intros H. unfold rela_at, rela_p, rela_ok. cbn [r_offset r_info r_addend]. by repeat split; apply mget_isu64. Qed.
Lemma put_rela_other i r d j : j < 24 * i \/ 24 * i + 24 <= j -> aget (put_rela i r d) j = aget d j.
Proof. intros H. unfold put_rela, put_rela_p. by rewrite !aget_mput_other by lia. Qed.
Lemma rela_at_put i r d : rela_ok r -> rela_at (put_rela i r d) i = r.
Proof.
  intros (H1 & H2 & H3). unfold rela_at, rela_p, put_rela, put_rela_p. destruct r as [a b c]. cbn [r_offset r_info r_addend] in *.
  f_equal; repeat (rewrite mget_mput_other by lia); rewrite mget_mput_same; apply Z.mod_small; lia.
Qed.
Lemma rela_at_put_ne i j r d : i <> j -> rela_at (put_rela i r d) j = rela_at d j.
Proof. intros H. unfold rela_at, rela_p. f_equal; apply mget_ext; intros k Hk; apply put_rela_other; lia. Qed.
Lemma bytes_ok_put_rela i r d : bytes_ok d -> bytes_ok (put_rela i r d).
Proof. intros H. unfold put_rela, put_rela_p. auto 10 with words. Qed.
Lemma r_info_fields y t : 0 <= y < 2 ^ 31 -> 0 <= t < 2 ^ 32 -> R_SYM (R_INFO y t) = y /\ R_TYPE (R_INFO y t) = t.
Proof.
  intros Hy Ht. assert (R_INFO y t = y * 2 ^ 32 + t) as ->.
  { unfold R_INFO. rewrite (u64_small y), (u64_small t), Z.shiftl_mul_pow2 by lia. apply u64_small. lia. }
  unfold R_SYM, R_TYPE. split.
  - rewrite Z.shiftr_div_pow2, Z.add_comm, Z.div_add by lia. rewrite Z.div_small by lia. done.
  - change 0xffffffff with (Z.ones 32). rewrite Z.land_ones, Z.add_comm, Z_mod_plus_full by lia. by apply Z.mod_small.
Qed.

Definition renamed (f ty : Z -> Z) (r : Rela) : Rela :=
  ElfRela (r_offset r) (R_INFO (f (i32 (R_SYM (r_info r)))) (ty (R_TYPE (r_info r)))) (r_addend r).
Lemma renamed_ok f ty r : rela_ok r -> rela_ok (renamed f ty r).
Proof. intros (H1 & H2 & H3). repeat split; cbn [renamed r_offset r_info r_addend]; try apply H1; try apply H3; apply u64_bound. Qed.
Lemma renumber_spec n i f ty d k : bytes_ok d -> rela_at (renumber n i f ty d) k =
  if decide (i <= k < i + Z.of_nat n) then renamed f ty (rela_at d k) else rela_at d k.
Proof.
  revert i d. induction n as [|n IH]; intros i d Hd; cbn [renumber]; [by rewrite decide_False by lia|].
  fold (renamed f ty (rela_at d i)). rewrite IH by by apply bytes_ok_put_rela.
  destruct (decide (k = i)) as [->|].
  - rewrite decide_False, decide_True by lia. by apply rela_at_put, renamed_ok, rela_at_ok.
  - rewrite rela_at_put_ne by congruence. repeat case_decide; try done; lia.
Qed.

Lemma each_reloc_section_spec s f l st : NoDup l -> (forall p, p ∈ l -> is_Some (secs st !! p)) ->
  exists st', each_reloc_section s f l st = Some ((), st') /\ sections st' = sections st /\
    (forall p, p ∉ l -> secs st' !! p = secs st !! p) /\
    forall p d, p ∈ l -> secs st !! p = Some d ->
      secs st' !! p = Some (if (sh_type d =? SHT_RELX) && (link d =? s) then f d else d).
Proof.
  revert st. induction l as [|p l IH]; intros st Hl Hs; cbn [each_reloc_section].
  { exists st. split; [done|]. split; [done|]. split; [done|]. intros p d Hp. by apply elem_of_nil in Hp. }
  apply NoDup_cons in Hl as [Hp Hl]. destruct (Hs p) as [d Hd]; [by left|].
  erewrite bind_run by (by apply sec_run). set (c := _ && _).
  set (st1 := if c then with_sec p (f d) st else st).
  assert ((if c then upd p f else mret ()) st = Some ((), st1)) as E by (unfold st1; destruct c; [by apply (upd_run _ _ d)|done]).
  assert (secs st1 !! p = Some (if c then f d else d)) as E1 by (unfold st1; destruct c; [apply with_sec_eq|done]).
  assert (forall q, q <> p -> secs st1 !! q = secs st !! q) as E2 by (intros q Hq; unfold st1; destruct c; [by apply with_sec_ne|done]).
  erewrite bind_run by exact E.
  destruct (IH st1 Hl) as (st' & E' & Hsec & Hout & Hin).
  { intros q Hq. rewrite E2 by (intros ->; done). apply Hs. by right. }
  exists st'. split; [exact E'|]. split; [rewrite Hsec; unfold st1; by destruct c|]. split.
  - intros q Hq. apply not_elem_of_cons in Hq as [Hq1 Hq2]. rewrite Hout by done. by apply E2.
  - intros q e Hq He. apply elem_of_cons in Hq as [->|Hq].
    + rewrite Hout, E1 by done. assert (e = d) as -> by congruence. done.
    + apply Hin; [done|]. rewrite E2; [done|]. by intros ->.
Qed.

(** Both passes: a permutation that puts the local symbols first. *)
Lemma two_passes n d : bytes_ok d ->
  let '(k, new1, tr1) := sort_pass n 0 true d 0 ∅ ∅ in
  let '(q, new, tr) := sort_pass n 0 false d k new1 tr1 in
  bytes_ok new /\ 0 <= k <= Z.of_nat n /\
  (forall i, 0 <= i < Z.of_nat n -> 0 <= aget tr i < Z.of_nat n /\ sym_at new (aget tr i) = sym_at d i) /\
  (forall i j, 0 <= i < Z.of_nat n -> 0 <= j < Z.of_nat n -> aget tr i = aget tr j -> i = j) /\
  (forall i, 0 <= i < Z.of_nat n -> is_local new i = (i <? k)).
Proof.
  intros Hd. assert (placed d (fun _ => False) 0 ∅ ∅) as P0 by (split; [done|done|intros; lia]).
  pose proof (sort_pass_spec n 0 true d _ 0 ∅ ∅ Hd bytes_ok_empty ltac:(lia) P0 ltac:(naive_solver)) as H1.
  destruct (sort_pass n 0 true d 0 ∅ ∅) as [[k new1] tr1]. destruct H1 as (Ek & Hb1 & _ & _ & P1).
  pose proof (taken_nonneg n 0 true d) as Hk0. pose proof (taken_nonneg n 0 false d) as Hk1.
  pose proof (sort_pass_spec n 0 false d _ k new1 tr1 Hd Hb1 ltac:(lia) P1 ltac:(naive_solver congruence)) as H2.
  destruct (sort_pass n 0 false d k new1 tr1) as [[q new] tr]. destruct H2 as (Eq & Hb2 & Hold & Htr & P2).
  pose proof (taken_all n 0 d) as Hall. assert (q = Z.of_nat n) as -> by lia.
  assert (forall i, 0 <= i < Z.of_nat n -> (False \/ 0 <= i < 0 + Z.of_nat n /\ is_local d i = true) \/ 0 <= i < 0 + Z.of_nat n /\ is_local d i = false) as HT.
  { intros i Hi. destruct (is_local d i) eqn:E; [by left; right|by right]. }
  split; [done|]. split; [lia|]. split; [intros i Hi; apply (pl_sym _ _ _ _ _ P2), HT, Hi|].
  split; [intros i j Hi Hj; apply (pl_inj _ _ _ _ _ P2); by apply HT|].
  intros i Hi. destruct (i <? k) eqn:E.
  - destruct (pl_onto _ _ _ _ _ P1 i ltac:(lia)) as (j & Tj & Ej). destruct (pl_sym _ _ _ _ _ P1 j Tj) as [_ Es].
    rewrite Ej in Es. unfold is_local. rewrite Hold, Es by lia. by destruct Tj as [[]|[_ Hl]].
  - destruct (pl_onto _ _ _ _ _ P2 i ltac:(lia)) as (j & Tj & Ej). destruct (pl_sym _ _ _ _ _ P2 j Tj) as [_ Es].
    rewrite Ej in Es. unfold is_local. rewrite Es. destruct Tj as [Tj|[_ Hl]]; [|done].
    exfalso. destruct (pl_sym _ _ _ _ _ P1 j Tj) as [Hb _]. rewrite <- (Htr j Tj), Ej in Hb. lia.
Qed.

(** C10: Sorting the symbol table.  [sort_syms] permutes the symbols so that the local ones come first and
    stores their number, and every relocation section of the table is renumbered by the same
    permutation: each relocation has its place, type and addend, and still refers to the symbol it
    referred to. *)
Theorem sort_syms_correct s st syms n : secs st !! s = Some syms -> sh_type syms <> SHT_RELX ->
  data_offset syms = 24 * Z.of_nat n -> Z.of_nat n <= 2 ^ 26 -> bytes_ok (data syms) ->
  NoDup (tail (sections st)) -> (forall p, p ∈ tail (sections st) -> is_Some (secs st !! p)) ->
  exists st' syms' f k, sort_syms s st = Some ((), st') /\ secs st' !! s = Some syms' /\ 0 <= k <= Z.of_nat n /\
    (forall i, 0 <= i < Z.of_nat n -> 0 <= f i < Z.of_nat n /\ sym_at (data syms') (f i) = sym_at (data syms) i) /\
    (forall i j, 0 <= i < Z.of_nat n -> 0 <= j < Z.of_nat n -> f i = f j -> i = j) /\
    (forall i, 0 <= i < Z.of_nat n -> is_local (data syms') i = (i <? k)) /\
    (sh_size syms <> 0 -> sh_info syms' = k) /\
    forall p d, p ∈ tail (sections st) -> secs st !! p = Some d -> sh_type d = SHT_RELX -> link d = s -> bytes_ok (data d) ->
      exists d', secs st' !! p = Some d' /\ forall j, 0 <= j < nelems d ->
        let r := rela_at (data d) j in let r' := rela_at (data d') j in
        R_SYM (r_info r) < Z.of_nat n -> R_TYPE (r_info r) < 2 ^ 31 ->
        r_offset r' = r_offset r /\ r_addend r' = r_addend r /\ R_TYPE (r_info r') = R_TYPE (r_info r) /\
        R_SYM (r_info r') = f (R_SYM (r_info r)).
Proof.
  intros Hs Hty Hsz Hn Hd Hnd Hin. pose proof (two_passes n (data syms) Hd) as Hp.
  destruct (sort_pass n 0 true (data syms) 0 ∅ ∅) as [[k new1] tr1] eqn:E1.
  destruct (sort_pass n 0 false (data syms) k new1 tr1) as [[q new] tr] eqn:E2.
  destruct Hp as (Hb & Hk & Hf & Hinj & Hloc).
  set (syms1 := if negb (sh_size syms =? 0) then set_sh_info k syms else syms).
  set (syms' := set_data (copy_syms n 0 new (data syms1)) syms1).
  assert (exists st1, (if negb (sh_size syms =? 0) then upd s (set_sh_info k) else mret ()) st = Some ((), st1) /\
    secs st1 !! s = Some syms1 /\ sections st1 = sections st /\ forall p, p <> s -> secs st1 !! p = secs st !! p) as (st1 & R1 & S1 & L1 & O1).
  { unfold syms1. destruct (negb _); [|by exists st]. exists (with_sec s (set_sh_info k syms) st).
    split; [by apply upd_run|]. split; [apply with_sec_eq|]. split; [done|]. intros p Hp. by apply with_sec_ne. }
  assert (data syms1 = data syms /\ sh_type syms1 = sh_type syms) as [Ed Et] by (unfold syms1; by destruct (negb _)).
  destruct (each_reloc_section_spec s (fun d => set_data (renumber (Z.to_nat (nelems d)) 0 (aget tr) i32 (data d)) d)
    (tail (sections st)) (with_sec s syms' st1) Hnd) as (st' & R3 & _ & Hout & Hrel).
  { intros p Hp. destruct (decide (p = s)) as [->|]; [eexists; apply with_sec_eq|]. rewrite with_sec_ne, O1 by done. by apply Hin. }
  assert (forall i, 0 <= i < Z.of_nat n -> sym_at (data syms') i = sym_at new i) as Hc.
  { intros i Hi. cbn [syms' set_data data]. rewrite copy_syms_spec, decide_True by (done || lia). done. }
  exists st', syms', (aget tr), k. split.
  { unfold sort_syms. erewrite bind_run by (by apply sec_run).
    rewrite Hsz. replace (24 * Z.of_nat n / 24) with (Z.of_nat n) by zlia. rewrite i32_small, Nat2Z.id by lia.
    rewrite E1, E2. erewrite bind_run by exact R1. erewrite bind_run by (by apply (upd_run _ _ syms1)).
    erewrite bind_run by reflexivity. cbn. rewrite L1. exact R3. }
  split.
  { destruct (decide (s ∈ tail (sections st))) as [Hm|Hm]; [|rewrite Hout by done; apply with_sec_eq].
    rewrite (Hrel s syms' Hm (with_sec_eq _ _ _)). cbn [syms' set_data sh_type].
    rewrite Et. apply Z.eqb_neq in Hty. by rewrite Hty. }
  split; [done|]. split; [intros i Hi; destruct (Hf i Hi); split; [done|]; by rewrite Hc|]. split; [done|].
  split; [intros i Hi; unfold is_local; rewrite Hc by done; by apply Hloc|].
  split; [intros Hz; cbn; unfold syms1; apply Z.eqb_neq in Hz; by rewrite Hz|].
  intros p d Hp Hpd Hrt Hl Hbd. assert (p <> s) as Hps by (intros ->; congruence).
  assert (secs (with_sec s syms' st1) !! p = Some d) as Hd1 by (rewrite with_sec_ne, O1 by done; done).
  eexists. split; [apply (Hrel p d Hp Hd1)|]. rewrite Hrt, Hl, !Z.eqb_refl.
  intros j Hj r r' Hy Ht. subst r r'. cbn [andb set_data data].
  rewrite renumber_spec, decide_True by (done || lia).
  destruct (rela_at_ok (data d) j Hbd) as (_ & Hi & _).
  assert (0 <= R_SYM (r_info (rela_at (data d) j))) by (apply Z.shiftr_nonneg; lia).
  assert (0 <= R_TYPE (r_info (rela_at (data d) j))) by (apply Z.land_nonneg; right; lia).
  cbn [renamed r_offset r_addend r_info]. rewrite !i32_small by lia.
  destruct (Hf (R_SYM (r_info (rela_at (data d) j))) ltac:(lia)).
  destruct (r_info_fields (aget tr (R_SYM (r_info (rela_at (data d) j)))) (R_TYPE (r_info (rela_at (data d) j)))); [lia..|done].
Qed.

(** A null symbol, a global and a local one, and a relocation that refers to the global one. *)
Definition unsorted : section := set_sh_size 72 (set_data_offset 72 (set_data
  (put_sym 2 (ElfSym 3 (ST_INFO STB_LOCAL STT_OBJECT) 0 1 8 4) (put_sym 1 (ElfSym 1 (ST_INFO STB_GLOBAL STT_OBJECT) 0 1 0 4)
    (put_sym 0 (ElfSym 0 0 0 0 0 0) ∅))) (fresh_section 2 SHT_SYMTAB 0 (lit ".symtab")))).
Definition one_reloc : section := set_link 2 (set_data_offset 24 (set_data (put_rela 0 (ElfRela 16 (R_INFO 1 2) 5) ∅)
  (fresh_section 3 SHT_RELX 0 (lit ".rela.text")))).
Definition some_relocs : TCCState := set_sections [0; 2; 3] (set_secs {[2 := unsorted; 3 := one_reloc]} no_sections).
Lemma sort_syms_correct_witness : exists st' d', sort_syms 2 some_relocs = Some ((), st') /\ secs st' !! 3 = Some d' /\
  R_TYPE (r_info (rela_at (data d') 0)) = 2 /\ r_addend (rela_at (data d') 0) = 5.
Proof.
  destruct (sort_syms_correct 2 some_relocs unsorted 3) as (st' & syms' & f & k & E & _ & _ & _ & _ & _ & _ & Hr).
  - reflexivity.
  - discriminate.
  - reflexivity.
  - lia.
  - apply bytes_ok_put_sym, bytes_ok_put_sym, bytes_ok_put_sym, bytes_ok_empty.
  - apply (bool_decide_unpack _). vm_compute. exact I.
  - intros p Hp. apply elem_of_cons in Hp as [->|Hp]; [by eexists|]. apply elem_of_cons in Hp as [->|Hp]; [by eexists|]. by apply elem_of_nil in Hp.
  - destruct (Hr 3 one_reloc) as (d' & Hd & Hj).
    + right. left.
    + reflexivity.
    + reflexivity.
    + reflexivity.
    + apply bytes_ok_put_rela, bytes_ok_empty.
    + destruct (Hj 0) as (_ & Ha & Ht & _); [vm_compute; split; congruence|reflexivity|reflexivity|].
      exists st', d'. split; [exact E|]. split; [exact Hd|]. rewrite Ht, Ha. split; reflexivity.
Defined.

(** ** What [squeeze_multi_relocs] does *)

(** Its insertion sort swaps with the relocation it started from: offsets 2, 3, 1 become 3, 1, 2. *)
Definition at_offset (o : Z) : Rela := ElfRela o 0 0.
Lemma sort_relocs_unsorted :
  let d := sort_relocs 2 0 24 (put_rela 2 (at_offset 1) (put_rela 1 (at_offset 3) (put_rela 0 (at_offset 2) ∅))) in
  map (fun i => r_offset (rela_at d i)) [0; 1; 2] = [3; 1; 2].
Proof. vm_compute. reflexivity. Qed.
(** So relocations of one place stay apart, and both are kept: 2, 3, 1, 3. *)
Lemma squeeze_keeps_both :
  let d := sort_relocs 3 0 24 (put_rela 3 (at_offset 3) (put_rela 2 (at_offset 1) (put_rela 1 (at_offset 3) (put_rela 0 (at_offset 2) ∅)))) in
  let '(dest, d) := squeeze_loop 4 0 0 d in
  map (fun i => r_offset (rela_at d i)) [0; 1; 2; 3] = [3; 1; 2; 3] /\ dest = 72.
Proof. vm_compute. split; reflexivity. Qed.
