(* ===== verification/TccLink.v ===== *)
(** Linking and output ([src/compiler/tccelf.c], [riscv64-link.c]): common symbols and the symbols the
    linker provides, the global offset table, layout, relocation of symbols and sections, the bytes of
    the file.  Definitions.

    The fields of [TCCState] that the command line sets are the parameters [has_text_addr],
    [text_addr], [section_align]; [last_hi], the static of [riscv64-link.c], is passed along as a pair. *)
From S2P Require Import Prelude RiscvLink TccElf.

Definition ELF_START_ADDR : Z := 0x00010000.
Definition ELF_PAGE_SIZE : Z := 0x1000.
Definition EHDR_SIZE : Z := 64.
Definition PHDR_SIZE : Z := 56.
Definition PT_LOAD : Z := 1.
Definition PF_X : Z := 1.
Definition PF_W : Z := 2.
Definition PF_R : Z := 4.
Definition ET_REL : Z := 1.
Definition ET_EXEC : Z := 2.
Definition EM_RISCV : Z := 243.
Definition EF_RISCV_FLOAT_ABI_DOUBLE : Z := 4.
Definition R_GLOB_DAT : Z := 2.
(** [TCC_OUTPUT_OBJ], or [TCC_OUTPUT_EXE]. *)
Inductive output_type := OUTPUT_OBJ | OUTPUT_EXE.

(** The numbers of [elf.h]. *)
Definition reloc_of (type : Z) : RiscvLink.reloc :=
  match type with
  | 1 => R_RISCV_32 | 2 => R_RISCV_64 | 4 => R_RISCV_COPY | 5 => R_RISCV_JUMP_SLOT | 16 => R_RISCV_BRANCH
  | 17 => R_RISCV_JAL | 18 => R_RISCV_CALL | 19 => R_RISCV_CALL_PLT | 20 => R_RISCV_GOT_HI20
  | 23 => R_RISCV_PCREL_HI20 | 24 => R_RISCV_PCREL_LO12_I | 25 => R_RISCV_PCREL_LO12_S | 34 => R_RISCV_ADD16
  | 35 => R_RISCV_ADD32 | 36 => R_RISCV_ADD64 | 38 => R_RISCV_SUB16 | 39 => R_RISCV_SUB32 | 40 => R_RISCV_SUB64
  | 43 => R_RISCV_ALIGN | 44 => R_RISCV_RVC_BRANCH | 45 => R_RISCV_RVC_JUMP | 51 => R_RISCV_RELAX
  | 52 => R_RISCV_SUB6 | 53 => R_RISCV_SET6 | 57 => R_RISCV_32_PCREL | _ => R_RISCV_other
  end.

(** [s1->sections[i]]. *)
Definition section_at (i : Z) : L Z := fun s =>
  if i <? 0 then None else match sections s !! Z.to_nat i with Some p => Some (p, s) | None => None end.

(** ** Symbols *)

Definition set_st_value (v : Z) (y : Sym) : Sym :=
  ElfSym (st_name y) (st_info y) (st_other y) (st_shndx y) (u64 v) (st_size y).
Definition set_st_shndx (v : Z) (y : Sym) : Sym :=
  ElfSym (st_name y) (st_info y) (st_other y) (u16 v) (st_value y) (st_size y).

(** The loop of [relocate_syms], [n] symbols from index [i] on. *)
Fixpoint relocate_syms_loop (n : nat) (i symtab : Z) : L unit :=
  match n with
  | O => mret ()
  | S n =>
      d ← sec symtab;
      let y := sym_at (data d) i in
      (if st_shndx y =? SHN_UNDEF then
         s ← gets symtab_section;
         syms ← sec s;
         strs ← sec (link syms);
         if bool_decide (str_at strs (st_name y) = lit "_fp_hw") then mret ()
         else if ST_BIND (st_info y) =? STB_WEAK then store_sym symtab i (set_st_value 0 y)
         else tcc_error_noabort
       else if st_shndx y <? SHN_LORESERVE then
         p ← section_at (st_shndx y);
         b ← sec p;
         store_sym symtab i (set_st_value (st_value y + sh_addr b) y)
       else mret ());;
      relocate_syms_loop n (i + 1) symtab
  end.
Definition relocate_syms (symtab : Z) : L unit :=
  d ← sec symtab;
  relocate_syms_loop (Z.to_nat (nelems d - 1)) 1 symtab.

Section link.
Context (can_alloc : Z -> bool).

(** A null [name] is [None], a null [sec] 0. *)
Definition set_global_sym (nm : option (list Z)) (p offs : Z) : L Z :=
  symtab ← gets symtab_section;
  '(shn, offs) ← (if p =? 0 then mret (if offs =? 0 then SHN_UNDEF else SHN_ABS, offs)
    else d ← sec p; mret (sh_num d, if u64 offs =? u64 (- 1) then data_offset d else offs));
  set_elf_sym can_alloc symtab (u64 offs) 0
    (ST_INFO (match nm with Some _ => STB_GLOBAL | None => STB_LOCAL end) STT_NOTYPE) 0 shn (default [] nm).

(** [find_section] creates the section, so the code's null case does not arise. *)
Definition add_init_array_defines (section_name : list Z) : L unit :=
  p ← find_section section_name;
  d ← sec p;
  let end_offset := data_offset d in
  let buf x := firstn 1023 (lit "__" ++ tail section_name ++ x) in
  set_global_sym (Some (buf (lit "_start"))) p 0;;
  set_global_sym (Some (buf (lit "_end"))) p end_offset;;
  mret ().

Definition isid (c : Z) : bool := ((97 <=? c) && (c <=? 122)) || ((65 <=? c) && (c <=? 90)) || (c =? 95).
Definition isnum (c : Z) : bool := (48 <=? c) && (c <=? 57).
Fixpoint start_stop_syms (l : list Z) : L unit :=
  match l with
  | [] => mret ()
  | p :: l =>
      d ← sec p;
      (if tst (sh_flags d) SHF_ALLOC && ((sh_type d =? SHT_PROGBITS) || (sh_type d =? SHT_STRTAB)) &&
          forallb (fun c => isid c || isnum c) (name d) then
         set_global_sym (Some (firstn 1023 (lit "__start_" ++ name d))) p 0;;
         set_global_sym (Some (firstn 1023 (lit "__stop_" ++ name d))) p (- 1);;
         mret ()
       else mret ());;
      start_stop_syms l
  end.
Definition tcc_add_linker_symbols : L unit :=
  text ← gets text_section;
  dat ← gets data_section;
  bss ← gets bss_section;
  set_global_sym (Some (lit "_etext")) text (- 1);;
  set_global_sym (Some (lit "_edata")) dat (- 1);;
  set_global_sym (Some (lit "_end")) bss (- 1);;
  set_global_sym (Some (lit "__global_pointer$")) dat 0x800;;
  add_init_array_defines (lit ".preinit_array");;
  add_init_array_defines (lit ".init_array");;
  add_init_array_defines (lit ".fini_array");;
  l ← gets sections;
  start_stop_syms (tail l).

Fixpoint common_loop (n : nat) (i : Z) : L unit :=
  match n with
  | O => mret ()
  | S n =>
      s ← gets symtab_section;
      d ← sec s;
      let y := sym_at (data d) i in
      (if st_shndx y =? SHN_COMMON then
         bss ← gets bss_section;
         off ← on_sec bss (section_add can_alloc (st_size y) (i32 (st_value y)));
         b ← sec bss;
         store_sym s i (set_st_shndx (sh_num b) (set_st_value off y))
       else mret ());;
      common_loop n (i + 1)
  end.
Definition resolve_common_syms : L unit :=
  s ← gets symtab_section;
  d ← sec s;
  common_loop (Z.to_nat (nelems d - 1)) 1;;
  tcc_add_linker_symbols.

(** ** The global offset table *)

Definition build_got : L unit :=
  p ← new_section (lit ".got") SHT_PROGBITS (Z.lor SHF_ALLOC SHF_WRITE);
  modify (set_got p);;
  upd p (set_sh_entsize 4);;
  s ← gets symtab_section;
  d ← sec p;
  set_elf_sym can_alloc s 0 4 (ST_INFO STB_GLOBAL STT_OBJECT) 0 (sh_num d) (lit "_GLOBAL_OFFSET_TABLE_");;
  on_sec p (section_ptr_add can_alloc (3 * PTR_SIZE));;
  mret ().
(** What [build_got_entries] does for one relocation; on riscv64 the kind is [ALWAYS_GOTPLT_ENTRY] or
    [NO_GOTPLT_ENTRY], never [BUILD_GOT_ONLY]. *)
Definition got_entry_for (rel : Rela) : L unit :=
  let sym := i32 (R_SYM (r_info rel)) in
  if negb (gotplt_entry_type (reloc_of (R_TYPE (r_info rel)))) then mret ()
  else
    g ← gets got;
    (if g =? 0 then build_got else mret ());;
    g ← gets got;
    a ← get_sym_attr can_alloc sym true;
    off ← gets (fun s => aget (sym_attrs s) a);
    if negb (off =? 0) then mret ()
    else
      d ← sec g;
      let off := u32 (data_offset d) in
      modify (fun s => set_sym_attrs (aset (sym_attrs s) a off) s);;
      on_sec g (section_ptr_add can_alloc PTR_SIZE);;
      s ← gets symtab_section;
      put_elf_reloc can_alloc s g off R_GLOB_DAT sym.
(** The relocations of the section [p], [n] from index [i] on.  Those it adds go to the table of [.got],
    whose own relocations need no entry, so the number of them is known at the start. *)
Fixpoint got_relocs (n : nat) (i p : Z) : L unit :=
  match n with
  | O => mret ()
  | S n => d ← sec p; got_entry_for (rela_at (data d) i);; got_relocs n (i + 1) p
  end.
(** The loop over the sections from index [i] on, of which there may be two more at the end. *)
Fixpoint got_sections (fuel : nat) (i : Z) : L unit :=
  l ← gets sections;
  if Z.of_nat (length l) <=? i then mret ()
  else
    match fuel with
    | O => tcc_error
    | S fuel =>
        p ← section_at i;
        d ← sec p;
        s ← gets symtab_section;
        (if (sh_type d =? SHT_RELX) && (link d =? s) then got_relocs (Z.to_nat (nelems d)) 0 p else mret ());;
        got_sections fuel (i + 1)
    end.
Definition build_got_entries : L unit :=
  l ← gets sections;
  got_sections (length l + 2) 1.

Fixpoint fill_got_loop (n : nat) (i : Z) : L unit :=
  match n with
  | O => mret ()
  | S n =>
      offset ← gets (fun s => aget (sym_attrs s) i);
      (if offset =? 0 then mret ()
       else
         s ← gets symtab_section;
         d ← sec s;
         g ← gets got;
         upd g (fun b => set_data (write64le offset (st_value (sym_at (data d) i)) (data b)) b));;
      fill_got_loop n (i + 1)
  end.
Definition fill_got : L unit :=
  n ← gets nb_sym_attrs;
  fill_got_loop (Z.to_nat (n - 1)) 1.

(** ** Relocation *)

(** [s1->got->sh_addr + get_sym_attr(s1, sym_index, 0)->got_offset], of [R_RISCV_GOT_HI20]. *)
Definition got_address (type : RiscvLink.reloc) (sym_index : Z) : L Z :=
  if gotplt_entry_type type then
    g ← gets got;
    d ← sec g;
    a ← get_sym_attr can_alloc sym_index false;
    off ← gets (fun s => aget (sym_attrs s) a);
    mret (u64 (sh_addr d + off))
  else mret 0.
Fixpoint relocate_loop (n : nat) (i s sr : Z) (last_hi : Z * Z) : L (Z * Z) :=
  match n with
  | O => mret last_hi
  | S n =>
      r ← sec sr;
      let rel := rela_at (data r) i in
      let sym_index := i32 (R_SYM (r_info rel)) in
      let type := reloc_of (R_TYPE (r_info rel)) in
      symtab ← gets symtab_section;
      syms ← sec symtab;
      let tgt := u64 (st_value (sym_at (data syms) sym_index) + r_addend rel) in
      d ← sec s;
      entry ← got_address type sym_index;
      match relocate type entry (r_offset rel) (u64 (sh_addr d + r_offset rel)) tgt (Lst (data d) last_hi.1 last_hi.2) with
      | None => tcc_error
      | Some l =>
          upd s (set_data (RiscvLink.data l));;
          relocate_loop n (i + 1) s sr (last_hi_addr l, last_hi_val l)
      end
  end.
Definition relocate_section (s : Z) (last_hi : Z * Z) : L (Z * Z) :=
  d ← sec s;
  r ← sec (TccElf.reloc d);
  relocate_loop (Z.to_nat (nelems r)) 0 s (TccElf.reloc d) last_hi.

Fixpoint shift_rel (n : nat) (i v : Z) (d : gmap Z Z) : gmap Z Z :=
  match n with
  | O => d
  | S n =>
      let r := rela_at d i in
      shift_rel n (i + 1) v (put_rela i (ElfRela (u64 (r_offset r + v)) (r_info r) (r_addend r)) d)
  end.
Definition relocate_rel (sr : Z) : L unit :=
  d ← sec sr;
  p ← section_at (sh_info d);
  s ← sec p;
  upd sr (fun d => set_data (shift_rel (Z.to_nat (nelems d)) 0 (sh_addr s) (data d)) d).

Fixpoint relocate_sections (l : list Z) (last_hi : Z * Z) : L (Z * Z) :=
  match l with
  | [] => mret last_hi
  | p :: l =>
      d ← sec p;
      hi ← (if negb (TccElf.reloc d =? 0) then relocate_section p last_hi else mret last_hi);
      relocate_sections l hi
  end.
Fixpoint relocate_rels (l : list Z) : L unit :=
  match l with
  | [] => mret ()
  | p :: l =>
      d ← sec p;
      (if tst (sh_flags d) SHF_ALLOC && (sh_type d =? SHT_RELX) then relocate_rel p else mret ());;
      relocate_rels l
  end.
(** [true] is the result 0, [false] is -1. *)
Definition final_sections_reloc (last_hi : Z * Z) : L (bool * (Z * Z)) :=
  s ← gets symtab_section;
  relocate_syms s;;
  e ← gets nb_errors;
  if negb (e =? 0) then mret (false, last_hi)
  else
    l ← gets sections;
    hi ← relocate_sections (tail l) last_hi;
    relocate_rels (tail l);;
    mret (true, hi).
End link.
