(* ===== verification/TccOutput.v ===== *)
(** Layout and output of an ELF file ([layout_sections], [tcc_output_elf], [tidy_section_headers] and
    [elf_output_file] of [src/compiler/tccelf.c]).  Definitions.  The file is the list of the bytes
    written to it. *)
From S2P Require Import Prelude RiscvLink TccElf TccLink.

(** ** Layout *)

Record phdr := Phdr {
  p_type : Z;
  p_flags : Z;
  p_offset : Z;
  p_vaddr : Z;
  p_paddr : Z;
  p_filesz : Z;
  p_memsz : Z;
  p_align : Z
}.
(** The locals [addr], [file_offset], [sec_order] and the header being filled. *)
Record lay := Lay { l_addr : Z; l_off : Z; l_order : list Z; l_ph : phdr }.

(** [(x + a - 1) & ~(a - 1)]. *)
Definition align_up (x a : Z) : Z := Z.land (x + a - 1) (Z.lnot (a - 1)).
Definition in_segment (writable : bool) (d : section) : bool :=
  Z.land (sh_flags d) (Z.lor SHF_ALLOC SHF_WRITE) =? (if writable then Z.lor SHF_ALLOC SHF_WRITE else SHF_ALLOC).
Definition place (i : Z) (d : section) (y : lay) : lay * section :=
  let addr := u64 (align_up (l_addr y) (sh_addralign d)) in
  let off := i32 (l_off y + i32 (addr - l_addr y)) in
  let ph := l_ph y in
  let ph := if p_offset ph =? 0 then
    Phdr (p_type ph) (p_flags ph) (u64 off) addr addr (p_filesz ph) (p_memsz ph) (p_align ph) else ph in
  (Lay (u64 (addr + sh_size d)) (if sh_type d =? SHT_NOBITS then off else i32 (off + sh_size d)) (l_order y ++ [i]) ph,
   set_sh_addr addr (set_sh_offset (u64 off) d)).
(** One pass ([k] of the code) over the sections [l], the first of which has number [i]. *)
Fixpoint place_pass (writable nobits : bool) (i : Z) (l : list Z) (y : lay) : L lay :=
  match l with
  | [] => mret y
  | p :: l =>
      d ← sec p;
      if negb (in_segment writable d) || negb (Bool.eqb (sh_type d =? SHT_NOBITS) nobits)
      then place_pass writable nobits (i + 1) l y
      else
        let '(y, d) := place i d y in
        upd p (fun _ => d);;
        place_pass writable nobits (i + 1) l y
  end.
(** The body of the loop over [j]: the read-only segment, then the writable one. *)
Definition layout_segment (s_align : Z) (writable : bool) (l : list Z) (addr off : Z) (order : list Z) : L lay :=
  let ph := Phdr PT_LOAD (Z.lor PF_R (if writable then PF_W else PF_X)) 0 0 0 0 0 s_align in
  y ← place_pass writable false 1 l (Lay addr off order ph);
  y ← place_pass writable true 1 l y;
  let ph := l_ph y in
  let down v := if writable then v else Z.land v (Z.lnot (p_align ph - 1)) in
  let ph := Phdr (p_type ph) (p_flags ph) (down (p_offset ph)) (down (p_vaddr ph)) (down (p_paddr ph)) 0 0 (p_align ph) in
  let ph := Phdr (p_type ph) (p_flags ph) (p_offset ph) (p_vaddr ph) (p_paddr ph)
    (u64 (l_off y - p_offset ph)) (u64 (l_addr y - p_vaddr ph)) (p_align ph) in
  let addr := if negb writable && tst (l_addr y) (s_align - 1) then u64 (l_addr y + s_align) else l_addr y in
  mret (Lay addr (l_off y) (l_order y) ph).
(** The sections of no segment. *)
Fixpoint place_rest (segments : bool) (i : Z) (l : list Z) (off : Z) (order : list Z) : L (Z * list Z) :=
  match l with
  | [] => mret (off, order)
  | p :: l =>
      d ← sec p;
      if segments && tst (sh_flags d) SHF_ALLOC then place_rest segments (i + 1) l off order
      else
        let off := i32 (align_up off (sh_addralign d)) in
        upd p (set_sh_offset (u64 off));;
        place_rest segments (i + 1) l (if sh_type d =? SHT_NOBITS then off else i32 (off + sh_size d)) (order ++ [i])
  end.

Section output.
Context (has_text_addr : bool) (text_addr section_align : Z).

Definition segment_align : Z := if section_align =? 0 then ELF_PAGE_SIZE else section_align.
(** [addr] and [file_offset] before the first section. *)
Definition first_place (file_offset : Z) : Z * Z :=
  let mask := segment_align - 1 in
  if has_text_addr then
    let a_offset := i32 (Z.land text_addr mask) in
    let p_off := i32 (Z.land file_offset mask) in
    let a_offset := if a_offset <? p_off then i32 (a_offset + segment_align) else a_offset in
    (text_addr, i32 (file_offset + (a_offset - p_off)))
  else (u64 (ELF_START_ADDR + Z.land file_offset mask), file_offset).
(** The result: [file_offset], [sec_order] and the program headers; [phnum] is 2 or 0. *)
Definition layout_sections (phnum : Z) : L (Z * list Z * list phdr) :=
  let file_offset := EHDR_SIZE + phnum * PHDR_SIZE in
  l ← gets (fun s => tail (sections s));
  '(off, order, phs) ← (if 0 <? phnum then
      let '(addr, off) := first_place file_offset in
      t ← layout_segment segment_align false l addr off [0];
      d ← layout_segment segment_align true l (l_addr t) (l_off t) (l_order t);
      mret (l_off d, l_order d, [l_ph t; l_ph d])
    else mret (file_offset, [0], []));
  '(off, order) ← place_rest (0 <? phnum) 1 l off order;
  mret (off, order, phs).

Section heap.
Context (can_alloc : Z -> bool).

(** ** Section names and numbers *)

Fixpoint alloc_names (file_type : output_type) (strsec : Z) (l : list Z) : L unit :=
  match l with
  | [] => mret ()
  | p :: l' =>
      d ← sec p;
      (if match file_type with OUTPUT_OBJ => true | OUTPUT_EXE => false end || tst (sh_flags d) SHF_ALLOC ||
          match l' with [] => true | _ => false end
       then upd p (fun d => set_sh_size (data_offset d) d) else mret ());;
      d ← sec p;
      (if negb (sh_size d =? 0) || tst (sh_flags d) SHF_ALLOC then
         off ← put_elf_str can_alloc strsec (name d);
         upd p (set_sh_name off)
       else mret ());;
      alloc_names file_type strsec l'
  end.
Definition alloc_sec_names (file_type : output_type) (strsec : Z) : L unit :=
  l ← gets sections;
  alloc_names file_type strsec (tail l);;
  upd strsec (fun d => set_sh_size (data_offset d) d).

(** The first loop of [tidy_section_headers]: the sections kept, those dropped, and [backmap]. *)
Fixpoint tidy_loop (order : list Z) (kept dropped : list Z) (backmap : gmap Z Z) : L (list Z * list Z * gmap Z Z) :=
  match order with
  | [] => mret (kept, dropped, backmap)
  | i :: order =>
      p ← section_at i;
      keep ← match kept with [] => mret true | _ => d ← sec p; mret (negb (sh_name d =? 0)) end;
      if keep : bool then tidy_loop order (kept ++ [p]) dropped (aset backmap i (Z.of_nat (length kept)))
      else tidy_loop order kept (p :: dropped) (aset backmap i 0)
  end.
Fixpoint renumber_sections (i : Z) (l : list Z) (backmap : gmap Z Z) : L unit :=
  match l with
  | [] => mret ()
  | p :: l =>
      (if p =? 0 then mret ()
       else
         upd p (set_sh_num i);;
         upd p (fun d => if sh_type d =? SHT_RELX then set_sh_info (aget backmap (sh_info d)) d else d));;
      renumber_sections (i + 1) l backmap
  end.
Fixpoint retarget (n : nat) (i : Z) (backmap : gmap Z Z) (d : gmap Z Z) : gmap Z Z :=
  match n with
  | O => d
  | S n =>
      let y := sym_at d i in
      retarget n (i + 1) backmap
        (if negb (st_shndx y =? SHN_UNDEF) && (st_shndx y <? SHN_LORESERVE)
         then put_sym i (set_st_shndx (aget backmap (st_shndx y)) y) d else d)
  end.
(** The sections left out, and the new [sec_order]. *)
Definition tidy_section_headers (order : list Z) : L (list Z * list Z) :=
  '(kept, dropped, backmap) ← tidy_loop order [] [] ∅;
  renumber_sections 0 kept backmap;;
  s ← gets symtab_section;
  upd s (fun d => set_data (retarget (Z.to_nat (nelems d - 1)) 1 backmap (data d)) d);;
  modify (set_sections kept);;
  mret (dropped, seqZ 0 (Z.of_nat (length order))).

(** ** The bytes of the file *)

(** A little-endian field of [n] bytes. *)
Fixpoint le (n : nat) (v : Z) : list Z :=
  match n with O => [] | S n => u8 v :: le n (v / 256) end.
Record Ehdr := MkEhdr { e_type : Z; e_entry : Z; e_phoff : Z; e_shoff : Z; e_phentsize : Z; e_phnum : Z; e_shnum : Z; e_shstrndx : Z }.
Definition ehdr_bytes (h : Ehdr) : list Z :=
  [0x7f; 69; 76; 70; 2; 1; 1] ++ replicate 9 0 ++ le 2 (e_type h) ++ le 2 EM_RISCV ++ le 4 1 ++ le 8 (e_entry h) ++
  le 8 (e_phoff h) ++ le 8 (e_shoff h) ++ le 4 EF_RISCV_FLOAT_ABI_DOUBLE ++ le 2 64 ++ le 2 (e_phentsize h) ++
  le 2 (e_phnum h) ++ le 2 64 ++ le 2 (e_shnum h) ++ le 2 (e_shstrndx h).
Definition phdr_bytes (h : phdr) : list Z :=
  le 4 (p_type h) ++ le 4 (p_flags h) ++ le 8 (p_offset h) ++ le 8 (p_vaddr h) ++ le 8 (p_paddr h) ++
  le 8 (p_filesz h) ++ le 8 (p_memsz h) ++ le 8 (p_align h).
Definition shdr_bytes (d : section) (link_num : Z) : list Z :=
  le 4 (sh_name d) ++ le 4 (sh_type d) ++ le 8 (i32 (sh_flags d)) ++ le 8 (sh_addr d) ++ le 8 (sh_offset d) ++
  le 8 (sh_size d) ++ le 4 link_num ++ le 4 (sh_info d) ++ le 8 (sh_addralign d) ++ le 8 (sh_entsize d).
(** [n] bytes of a section from its start, and the zeros written while [offset] is below [upto]. *)
Definition data_bytes (d : section) (n : Z) : list Z := map (fun i => aget (data d) i) (seqZ 0 n).
Definition pad (offset upto : Z) : list Z := replicate (Z.to_nat (upto - offset)) 0.

Fixpoint write_sections (order : list Z) (offset : Z) : L (Z * list Z) :=
  match order with
  | [] => mret (offset, [])
  | i :: order =>
      p ← section_at i;
      d ← sec p;
      if sh_type d =? SHT_NOBITS then write_sections order offset
      else
        let size := i32 (sh_size d) in
        let offset' := Z.max offset (sh_offset d) in
        '(last, out) ← write_sections order (i32 (offset' + size));
        mret (last, pad offset (sh_offset d) ++ data_bytes d size ++ out)
  end.
Fixpoint write_shdrs (l : list Z) : L (list Z) :=
  match l with
  | [] => mret []
  | p :: l =>
      h ← (if p =? 0 then mret (replicate 64 0)
           else
             d ← sec p;
             num ← (if TccElf.link d =? 0 then mret 0 else b ← sec (TccElf.link d); mret (sh_num b));
             mret (shdr_bytes d num));
      out ← write_shdrs l;
      mret (h ++ out)
  end.
Definition tcc_output_elf (file_type : output_type) (phdrs : list phdr) (file_offset : Z) (order : list Z) : L (list Z) :=
  shnum ← gets (fun s => Z.of_nat (length (sections s)));
  let phnum := Z.of_nat (length phdrs) in
  let file_offset := i32 (Z.land (file_offset + 3) (- 4)) in
  entry ← match file_type with OUTPUT_EXE => get_sym_addr (lit "_start") true | OUTPUT_OBJ => mret 0 end;
  let h := MkEhdr (match file_type with OUTPUT_EXE => ET_EXEC | OUTPUT_OBJ => ET_REL end) entry
    (if 0 <? phnum then EHDR_SIZE else 0) (u64 file_offset) (if 0 <? phnum then PHDR_SIZE else 0)
    (if 0 <? phnum then phnum else 0) shnum (shnum - 1) in
  let head := ehdr_bytes h ++ List.concat (map phdr_bytes phdrs) in
  s ← gets symtab_section;
  sort_syms s;;
  '(offset, body) ← write_sections (take (Z.to_nat (shnum - 1)) (tail order)) (EHDR_SIZE + phnum * PHDR_SIZE);
  l ← gets sections;
  hdrs ← write_shdrs l;
  mret (head ++ body ++ pad offset (u64 file_offset) ++ hdrs).

(** ** The whole output *)

(** What [tcc_add_runtime] loads, from files; [false] for [can_open] when the output cannot be created.
    The result is the file, [None] for the result -1. *)
Context (tcc_add_runtime : L unit) (can_open : bool).

(** From the layout on. *)
Definition write_image (file_type : output_type) (last_hi : Z * Z) : L (option (list Z) * (Z * Z)) :=
  '(off, order, phdrs) ← layout_sections (match file_type with OUTPUT_EXE => 2 | OUTPUT_OBJ => 0 end);
  '(ok, hi, dropped, order) ← match file_type with
    | OUTPUT_OBJ => mret (true, last_hi, [], order)
    | OUTPUT_EXE =>
        '(ok, hi) ← final_sections_reloc can_alloc last_hi;
        if ok : bool then
          '(dropped, order) ← tidy_section_headers order;
          fill_got;;
          mret (true, hi, dropped, order)
        else mret (false, hi, [], order)
    end;
  if ok : bool then
    out ← (if can_open then out ← tcc_output_elf file_type phdrs off order; mret (Some out) else tcc_error_noabort;; mret None);
    modify (fun s => set_sections (sections s ++ dropped) s);;
    mret (out, hi)
  else mret (None, hi).
Definition elf_output_file (file_type : output_type) (last_hi : Z * Z) : L (option (list Z) * (Z * Z)) :=
  modify (set_nb_errors 0);;
  match file_type with
  | OUTPUT_EXE => tcc_add_runtime;; resolve_common_syms can_alloc;; build_got_entries can_alloc
  | OUTPUT_OBJ => mret ()
  end;;
  strsec ← new_section (lit ".shstrtab") SHT_STRTAB 0;
  put_elf_str can_alloc strsec [];;
  alloc_sec_names file_type strsec;;
  write_image file_type last_hi.
End heap.
End output.
