(* ===== verification/TccObject.v ===== *)
(** Loading object files and archives into the linker ([tcc_load_object_file], [tcc_load_alacarte],
    [tcc_load_archive] of [src/compiler/tccelf.c]).  Definitions.

    An open file is its [fsize] bytes [file]; a read position is passed along.  [None] is, beside
    [tcc_error], the use of memory that was never written: [load_data] ignores a short read, table
    indices of the file are not checked.  Archives are below 2 GB, so that offsets fit the code's [int]. *)
From S2P Require Import Prelude RiscvLink TccElf TccLink.

Definition SHF_GROUP : Z := 0x200.
Definition R_RISCV_ALIGN_NUM : Z := 43.
Definition R_RISCV_RELAX_NUM : Z := 51.
Inductive bintype := BINTYPE_NONE | BINTYPE_REL | BINTYPE_AR.
#[export] Instance bintype_eq_dec : EqDecision bintype.
Proof. solve_decision. Defined.

(** The result -1 of a function of type int. *)
Notation failed := (mret (M := L) None) (only parsing).

Record SectionMergeInfo := Merge { sm_s : Z; sm_offset : Z; sm_new : bool }.
Definition sm_at (t : gmap Z SectionMergeInfo) (i : Z) : SectionMergeInfo := default (Merge 0 0 false) (t !! i).
Definition set_sm_new (m : SectionMergeInfo) : SectionMergeInfo := Merge (sm_s m) (sm_offset m) true.

Section file.
Context (file : gmap Z Z) (fsize : Z).

(** [lseek] and [full_read]: the bytes read. *)
Definition full_read (pos count : Z) : list Z :=
  map (fun i => aget file (pos + i)) (seqZ 0 (Z.min count (fsize - pos))).
Definition load_data (pos size : Z) : L (gmap Z Z) :=
  if (0 <=? pos) && (pos + size <=? fsize) then mret (aputs (full_read pos size) 0 ∅) else tcc_error.

Definition tcc_object_type (pos : Z) : bintype :=
  let h := full_read pos EHDR_SIZE in
  let size := Z.of_nat (length h) in
  if (size =? EHDR_SIZE) && bool_decide (firstn 4 h = 0x7f :: lit "ELF")
  then (if mget 2 file (pos + 16) =? ET_REL then BINTYPE_REL else BINTYPE_NONE)
  else if (8 <=? size) && bool_decide (firstn 8 h = lit "!<arch>" ++ [10]) then BINTYPE_AR else BINTYPE_NONE.

(** ** Object files *)

(** The fields of section header [i] of the [n] in the table [t]. *)
Record shdr := Shdr { h_name : Z; h_type : Z; h_flags : Z; h_offset : Z; h_size : Z; h_link : Z; h_info : Z; h_addralign : Z; h_entsize : Z }.
Definition shdr_at (t : gmap Z Z) (n i : Z) : L shdr :=
  let p := 64 * i in
  if (0 <=? i) && (i <? n) then
    mret (Shdr (mget 4 t p) (mget 4 t (p + 4)) (mget 8 t (p + 8)) (mget 8 t (p + 24)) (mget 8 t (p + 32))
      (mget 4 t (p + 40)) (mget 4 t (p + 44)) (mget 8 t (p + 48)) (mget 8 t (p + 56)))
  else tcc_error.

Section object.
Context (can_alloc : Z -> bool) (file_offset e_shnum e_shstrndx : Z) (shdrs : gmap Z Z).
Definition shdr_no (i : Z) : L shdr := shdr_at shdrs e_shnum i.
Definition load_section (h : shdr) : L (gmap Z Z) := load_data (u64 (file_offset + h_offset h)) (h_size h).

(** The symbol table found so far: its symbols and number, its strings and their size. *)
Record symtab_of := Symtab { sy_syms : gmap Z Z; sy_nb : Z; sy_strs : gmap Z Z; sy_strsize : Z; sy_index : Z }.
Fixpoint find_symtab (n : nat) (i : Z) (found : option symtab_of) : L (option (option symtab_of)) :=
  match n with
  | O => mret (Some found)
  | S n =>
      h ← shdr_no i;
      if negb (h_type h =? SHT_SYMTAB) then find_symtab n (i + 1) found
      else
        match found with
        | Some _ => tcc_error_noabort;; failed
        | None =>
            syms ← load_section h;
            hs ← shdr_no (h_link h);
            strs ← load_section hs;
            find_symtab n (i + 1) (Some (Symtab syms (i32 (h_size h / 24)) strs (h_size hs) i))
        end
  end.

Definition handled (type : Z) : bool :=
  (type =? SHT_PROGBITS) || (type =? SHT_NOBITS) || (type =? SHT_PREINIT_ARRAY) || (type =? SHT_INIT_ARRAY) || (type =? SHT_FINI_ARRAY).
(** The section of that name in the tables of the linker, or a new one; [true] when it is new. *)
Definition section_for (h : shdr) (align : Z) (nm : list Z) : L (Z * bool) :=
  p ← gets (fun s => find_by_name (tail (sections s)) nm s);
  match p with
  | Some p => mret (p, false)
  | None =>
      p ← new_section nm (i32 (h_type h)) (u32 (Z.land (h_flags h) (Z.lnot SHF_GROUP)));
      upd p (fun d => set_sh_entsize (i32 (h_entsize h)) (set_sh_addralign (i32 align) d));;
      mret (p, true)
  end.
(** [s->data_offset += -s->data_offset & (align - 1)]. *)
Definition align_offset (align : Z) (d : section) : section :=
  let d := set_data_offset (u64 (data_offset d + Z.land (u64 (- data_offset d)) (u64 (align - 1)))) d in
  if u64 (sh_addralign d) <? align then set_sh_addralign (i32 align) d else d.
(** The bytes of section [h], [size] of them, after what [p] holds. *)
Definition append_section (p size : Z) (h : shdr) : L unit :=
  on_sec p (fun d =>
    if h_type h =? SHT_NOBITS then Some ((), set_data_offset (u64 (data_offset d + size)) d)
    else
      match (if size <? 0 then None else section_ptr_add can_alloc size d) with
      | None => None
      | Some (at_, d) => Some ((), set_data (aputs (full_read (u64 (file_offset + h_offset h)) size) at_ (data d)) d)
      end).
Fixpoint merge_sections (n : nat) (i : Z) (names : gmap Z Z) (names_size : Z) (t : gmap Z SectionMergeInfo) :
  L (option (gmap Z SectionMergeInfo)) :=
  match n with
  | O => mret (Some t)
  | S n =>
      if i =? e_shstrndx then merge_sections n (i + 1) names names_size t
      else
        h ← shdr_no i;
        h' ← (if h_type h =? SHT_RELX then shdr_no (h_info h) else mret h);
        if negb (handled (h_type h')) then merge_sections n (i + 1) names names_size t
        else
          let nm := cstr (Z.to_nat (names_size - h_name h)) names (h_name h) in
          let align := Z.max 1 (h_addralign h) in
          '(p, fresh) ← section_for h align nm;
          d ← sec p;
          if negb (h_type h =? u32 (sh_type d)) then tcc_error_noabort;; failed
          else
            upd p (align_offset align);;
            d ← sec p;
            append_section p (i32 (h_size h)) h;;
            merge_sections n (i + 1) names names_size (<[i := Merge p (data_offset d) fresh]> t)
  end.

(** The pass that sets [link] and [sh_info] of the new sections. *)
Fixpoint link_sections (n : nat) (i : Z) (t : gmap Z SectionMergeInfo) : L unit :=
  match n with
  | O => mret ()
  | S n =>
      let m := sm_at t i in
      (if (sm_s m =? 0) || negb (sm_new m) then mret ()
       else
         h ← shdr_no i;
         (if 0 <? h_link h then shdr_no (h_link h);; upd (sm_s m) (set_link (sm_s (sm_at t (h_link h)))) else mret ());;
         (if h_type h =? SHT_RELX then
            shdr_no (h_info h);;
            d ← sec (sm_s (sm_at t (h_info h)));
            upd (sm_s m) (set_sh_info (sh_num d));;
            p ← section_at (sh_num d);
            upd p (set_reloc (sm_s m))
          else mret ()));;
      link_sections n (i + 1) t
  end.

Fixpoint resolve_syms (n : nat) (i : Z) (y : symtab_of) (t : gmap Z SectionMergeInfo) (tr : gmap Z Z) : L (gmap Z Z) :=
  match n with
  | O => mret tr
  | S n =>
      let sym := sym_at (sy_syms y) i in
      let in_section := negb (st_shndx sym =? SHN_UNDEF) && (st_shndx sym <? SHN_LORESERVE) in
      let m := sm_at t (st_shndx sym) in
      if in_section && (e_shnum <=? st_shndx sym) then tcc_error
      else if in_section && (sm_s m =? 0) then resolve_syms n (i + 1) y t tr
      else
        sym ← (if in_section then d ← sec (sm_s m); mret (set_st_value (st_value sym + sm_offset m) (set_st_shndx (sh_num d) sym))
               else mret sym);
        s ← gets symtab_section;
        k ← set_elf_sym can_alloc s (st_value sym) (st_size sym) (st_info sym) (st_other sym) (st_shndx sym)
              (cstr (Z.to_nat (sy_strsize y - st_name sym)) (sy_strs y) (st_name sym));
        resolve_syms n (i + 1) y t (aset tr i k)
  end.

(** The relocations of one section, [n] from index [j] on; [false] stops at an invalid one. *)
Fixpoint patch_relocs (n : nat) (j offseti nb_syms : Z) (tr d : gmap Z Z) : bool * gmap Z Z :=
  match n with
  | O => (true, d)
  | S n =>
      let r := rela_at d j in
      let type := i32 (R_TYPE (r_info r)) in
      let sym_index := u32 (R_SYM (r_info r)) in
      if u32 nb_syms <=? sym_index then (false, d)
      else
        let k := aget tr sym_index in
        if (k =? 0) && negb (type =? R_RISCV_ALIGN_NUM) && negb (type =? R_RISCV_RELAX_NUM) then (false, d)
        else patch_relocs n (j + 1) offseti nb_syms tr
               (put_rela j (ElfRela (u64 (r_offset r + offseti)) (R_INFO k type) (r_addend r)) d)
  end.
Fixpoint patch_sections (n : nat) (i nb_syms : Z) (t : gmap Z SectionMergeInfo) (tr : gmap Z Z) : L (option unit) :=
  match n with
  | O => mret (Some ())
  | S n =>
      let m := sm_at t i in
      if sm_s m =? 0 then patch_sections n (i + 1) nb_syms t tr
      else
        d ← sec (sm_s m);
        if negb (sh_type d =? SHT_RELX) then patch_sections n (i + 1) nb_syms t tr
        else
          h ← shdr_no i;
          let offset := i32 (sm_offset m) in
          let offseti := i32 (sm_offset (sm_at t (h_info h))) in
          let first := offset / 24 in
          shdr_no (h_info h);;
          let '(ok, r) := patch_relocs (Z.to_nat (nelems d - first)) first offseti nb_syms tr (data d) in
          upd (sm_s m) (set_data r);;
          if ok then patch_sections n (i + 1) nb_syms t tr else tcc_error_noabort;; failed
  end.

Definition load_merged (names : gmap Z Z) (names_size : Z) : L (option unit) :=
  let n := Z.to_nat (e_shnum - 1) in
  y ← find_symtab n 1 None;
  match y with
  | None => failed
  | Some y =>
      symtab ← gets symtab_section;
      let t0 := match y with Some y => {[sy_index y := Merge symtab 0 false]} | None => ∅ end in
      t ← merge_sections n 1 names names_size t0;
      match t with
      | None => failed
      | Some t =>
          link_sections n 1 t;;
          let nb_syms := match y with Some y => sy_nb y | None => 0 end in
          tr ← match y with Some y => resolve_syms (Z.to_nat (sy_nb y - 1)) 1 y t ∅ | None => mret ∅ end;
          patch_sections n 1 nb_syms t tr
      end
  end.
End object.

Definition tcc_load_object_file (can_alloc : Z -> bool) (file_offset : Z) : L (option unit) :=
  if negb (bool_decide (tcc_object_type file_offset = BINTYPE_REL)) || negb (aget file (file_offset + 5) =? 1) ||
     negb (mget 2 file (file_offset + 18) =? EM_RISCV)
  then tcc_error_noabort;; failed
  else
    let e_shoff := mget 8 file (file_offset + 40) in
    let e_shnum := mget 2 file (file_offset + 60) in
    let e_shstrndx := mget 2 file (file_offset + 62) in
    shdrs ← load_data (u64 (file_offset + e_shoff)) (64 * e_shnum);
    h ← shdr_at shdrs e_shnum e_shstrndx;
    names ← load_data (u64 (file_offset + h_offset h)) (h_size h);
    load_merged can_alloc file_offset e_shnum e_shstrndx shdrs names (h_size h).

(** ** Archives *)

Fixpoint get_be (n : nat) (d : gmap Z Z) (b ret : Z) : Z :=
  match n with O => ret | S n => get_be n d (b + 1) (u64 (Z.lor (Z.shiftl ret 8) (aget d b))) end.

Fixpoint strip_spaces (l : list Z) : list Z :=
  match l with [] => [] | c :: l => match strip_spaces l with [] => if c =? 32 then [] else [c] | l => c :: l end end.
Fixpoint upto_nul (l : list Z) : list Z :=
  match l with [] => [] | c :: l => if c =? 0 then [] else c :: upto_nul l end.
Record ArchiveHeader := ArHdr { ar_name : list Z; ar_size : list Z; ar_fmag : list Z }.
(** [inl] is the result 0 or -1. *)
Definition read_ar_header (offset : Z) : Z + ArchiveHeader :=
  let h := full_read offset 60 in
  let len := Z.of_nat (length h) in
  if negb (len =? 60) then inl (if len =? 0 then 0 else -1)
  else inr (ArHdr (upto_nul (strip_spaces (firstn 16 h))) (upto_nul (firstn 9 (skipn 48 h))) (skipn 58 h)).

(** [strtol(s, NULL, 0)] of a string of at most nine characters. *)
Definition digit (c : Z) : Z :=
  if (48 <=? c) && (c <=? 57) then c - 48
  else if (97 <=? c) && (c <=? 122) then c - 87 else if (65 <=? c) && (c <=? 90) then c - 55 else 99.
Fixpoint digits (base v : Z) (l : list Z) : Z :=
  match l with [] => v | c :: l => if digit c <? base then digits base (base * v + digit c) l else v end.
Definition based (l : list Z) : Z :=
  match l with
  | 48 :: x :: c :: l => if ((x =? 120) || (x =? 88)) && (digit c <? 16) then digits 16 0 (c :: l) else digits 8 0 (x :: c :: l)
  | 48 :: l => digits 8 0 l
  | l => digits 10 0 l
  end.
Fixpoint strtol (l : list Z) : Z :=
  match l with
  | [] => 0
  | c :: l => if (c =? 32) || ((9 <=? c) && (c <=? 13)) then strtol l
              else if c =? 45 then - based l else if c =? 43 then based l else based (c :: l)
  end.

Section archive.
Context (can_alloc : Z -> bool).

(** One round over the archive's symbol index [idx], [size] bytes, from entry [i] with its name at
    [p] on: the offsets of the members loaded before it and by it, and how many it loaded. *)
Fixpoint alacarte_round (n : nat) (i p entrysize size : Z) (idx : gmap Z Z) (loaded : list Z) (bound : Z) : L (option (list Z * Z)) :=
  match n with
  | O => mret (Some (loaded, bound))
  | S n =>
      if size <=? p then tcc_error
      else
        let nm := cstr (Z.to_nat (size - p)) idx p in
        let next := p + Z.of_nat (length nm) + 1 in
        s ← gets symtab_section;
        k ← find_elf_sym s nm;
        syms ← sec s;
        let sym := sym_at (data syms) k in
        let hdr_off := get_be (Z.to_nat entrysize) idx (entrysize + i * entrysize) 0 in
        if (k =? 0) || (negb (st_shndx sym =? SHN_UNDEF) && negb (ST_BIND (st_info sym) =? STB_WEAK)) || bool_decide (hdr_off ∈ loaded)
        then alacarte_round n (i + 1) next entrysize size idx loaded bound
        else
          match read_ar_header (i32 hdr_off) with
          | inl _ => tcc_error_noabort;; failed
          | inr h =>
              if negb (bool_decide (ar_fmag h = [96; 10])) then tcc_error_noabort;; failed
              else
                r ← tcc_load_object_file can_alloc (u64 (hdr_off + 60));
                match r with
                | None => failed
                | Some _ => alacarte_round n (i + 1) next entrysize size idx (loaded ++ [hdr_off]) (bound + 1)
                end
          end
  end.
(** The rounds until one loads nothing: the outer [None] is running out of fuel. *)
Fixpoint alacarte_rounds (fuel : nat) (nsyms entrysize size : Z) (idx : gmap Z Z) (loaded : list Z) : L (option (option unit)) :=
  match fuel with
  | O => mret None
  | S fuel =>
      r ← alacarte_round (Z.to_nat nsyms) 0 (entrysize + nsyms * entrysize) entrysize size idx loaded 0;
      match r with
      | None => mret (Some None)
      | Some (loaded, bound) =>
          if bound =? 0 then mret (Some (Some ())) else alacarte_rounds fuel nsyms entrysize size idx loaded
      end
  end.
Definition tcc_load_alacarte (pos size entrysize : Z) : L (option (option unit)) :=
  let bytes := full_read pos size in
  if (size <? 0) then tcc_error
  else if negb (Z.of_nat (length bytes) =? size) then mret (Some None)
  else
    let idx := aputs bytes 0 ∅ in
    if size <? entrysize then tcc_error
    else
    let nsyms := i32 (get_be (Z.to_nat entrysize) idx 0 0) in
    alacarte_rounds (S (Z.to_nat nsyms)) nsyms entrysize size idx [].

(** The members from [file_offset] on. *)
Fixpoint archive_loop (fuel : nat) (alacarte : bool) (file_offset : Z) : L (option (option unit)) :=
  match fuel with
  | O => mret None
  | S fuel =>
      match read_ar_header (i32 file_offset) with
      | inl e => if e =? 0 then mret (Some (Some ())) else tcc_error_noabort;; mret (Some None)
      | inr h =>
          let file_offset := u64 (file_offset + 60) in
          let size := i32 (Z.land (i32 (strtol (ar_size h)) + 1) (- 2)) in
          let next := u64 (file_offset + size) in
          if alacarte then
            if bool_decide (ar_name h = lit "/") then tcc_load_alacarte file_offset size 4
            else if bool_decide (ar_name h = lit "/SYM64/") then tcc_load_alacarte file_offset size 8
            else archive_loop fuel alacarte next
          else if bool_decide (tcc_object_type file_offset = BINTYPE_REL) then
            r ← tcc_load_object_file can_alloc file_offset;
            match r with None => mret (Some None) | Some _ => archive_loop fuel alacarte next end
          else archive_loop fuel alacarte next
      end
  end.
Definition tcc_load_archive (fuel : nat) (alacarte : bool) : L (option (option unit)) := archive_loop fuel alacarte 8.
End archive.
End file.
