(* ===== verification/TccLayout.v ===== *)
(** The layout of an executable ([layout_sections] of [src/compiler/tccelf.c]): where the sections lie in
    the file and in memory, and what the two program headers say about it. *)
From S2P Require Import Prelude RiscvLink TccElf TccLink TccOutput TccElfHash.

Definition pow2 (a : Z) : Prop := exists k, 0 <= k <= 20 /\ a = 2 ^ k.
Lemma land_lnot x k : 0 <= k -> Z.land x (Z.lnot (2 ^ k - 1)) = x - x mod 2 ^ k.
Proof.
  intros Hk. rewrite <- Z.ldiff_land. replace (2 ^ k - 1) with (Z.ones k) by (rewrite Z.ones_equiv; lia).
  rewrite Z.ldiff_ones_r, Z.shiftl_mul_pow2, Z.shiftr_div_pow2 by lia. pose proof (Z.div_mod x (2 ^ k)). lia.
Qed.
Lemma align_up_spec x a : pow2 a -> x <= align_up x a < x + a /\ align_up x a mod a = 0 /\ 0 < a <= 2 ^ 20.
Proof.
  intros (k & Hk & ->). unfold align_up. rewrite land_lnot by lia.
  assert (0 < 2 ^ k <= 2 ^ 20) by (split; [lia|apply Z.pow_le_mono_r; lia]).
  pose proof (Z.mod_pos_bound (x + 2 ^ k - 1) (2 ^ k)). split; [lia|]. split; [|lia].
  rewrite Zminus_mod, Z.mod_mod, Z.sub_diag by lia. done.
Qed.

(** ** Lists of sections with space for each *)

(** The sections [l] occupy, in that order, disjoint ranges between [lo] and [hi]. *)
Fixpoint spaced (pos size : section -> Z) (m : gmap Z section) (l : list Z) (lo hi : Z) : Prop :=
  match l with
  | [] => lo <= hi
  | p :: l => exists d, m !! p = Some d /\ lo <= pos d /\ 0 <= size d /\ spaced pos size m l (pos d + size d) hi
  end.
(** The bytes of a section in the file. *)
Definition file_size (d : section) : Z := if sh_type d =? SHT_NOBITS then 0 else sh_size d.

Lemma spaced_le pos size m l lo hi : spaced pos size m l lo hi -> lo <= hi.
Proof. revert lo. induction l as [|p l IH]; intros lo; cbn; [done|]. intros (d & _ & H & Hs & H'). apply IH in H'. lia. Qed.
Lemma spaced_weaken pos size m l lo hi lo' hi' : lo' <= lo -> hi <= hi' -> spaced pos size m l lo hi -> spaced pos size m l lo' hi'.
Proof.
  revert lo lo'. induction l as [|p l IH]; intros lo lo' Hl Hh; cbn; [lia|]. intros (d & Hd & H & Hs & H').
  exists d. split; [done|]. split; [lia|]. split; [done|]. by eapply (IH _ _ ltac:(reflexivity)).
Qed.
Lemma spaced_app pos size m l1 l2 lo mid hi : spaced pos size m l1 lo mid -> spaced pos size m l2 mid hi -> spaced pos size m (l1 ++ l2) lo hi.
Proof.
  revert lo. induction l1 as [|p l1 IH]; intros lo; cbn; [intros H; by apply spaced_weaken|].
  intros (d & Hd & H & Hs & H') H2. exists d. naive_solver.
Qed.
Lemma spaced_ext pos size m m' l lo hi : (forall p d, p ∈ l -> m !! p = Some d -> exists d', m' !! p = Some d' /\ pos d' = pos d /\ size d' = size d) ->
  spaced pos size m l lo hi -> spaced pos size m' l lo hi.
Proof.
  revert lo. induction l as [|p l IH]; intros lo He; cbn; [done|]. intros (d & Hd & H & Hs & H').
  destruct (He p d ltac:(by left) Hd) as (d' & Hd' & E1 & E2). exists d'. rewrite E1, E2. split; [done|]. split; [done|]. split; [done|].
  apply IH; [|done]. intros q e Hq. apply He. by right.
Qed.
Lemma spaced_bounds pos size m l lo hi p d : spaced pos size m l lo hi -> p ∈ l -> m !! p = Some d -> lo <= pos d /\ pos d + size d <= hi.
Proof.
  revert lo. induction l as [|q l IH]; intros lo; cbn; [intros _ Hp; by apply elem_of_nil in Hp|].
  intros (e & He & H & Hs & H') Hp Hd. apply elem_of_cons in Hp as [->|Hp].
  - assert (d = e) as -> by congruence. apply spaced_le in H'. lia.
  - destruct (IH _ H' Hp Hd). lia.
Qed.
(** Two of them do not overlap. *)
Lemma spaced_disjoint pos size m l lo hi p q d e : spaced pos size m l lo hi -> p ∈ l -> q ∈ l -> p <> q ->
  m !! p = Some d -> m !! q = Some e -> pos d + size d <= pos e \/ pos e + size e <= pos d.
Proof.
  revert lo. induction l as [|r l IH]; intros lo; cbn; [intros _ Hp; by apply elem_of_nil in Hp|].
  intros (f & Hf & H & Hs & H') Hp Hq Hne Hd He. apply elem_of_cons in Hp as [->|Hp]; apply elem_of_cons in Hq as [->|Hq]; [done| | |eauto].
  - assert (d = f) as -> by congruence. left. by apply (spaced_bounds _ _ _ _ _ _ q e H').
  - assert (e = f) as -> by congruence. right. by apply (spaced_bounds _ _ _ _ _ _ p d H').
Qed.
Lemma spaced_split pos size m l1 l2 lo hi : spaced pos size m (l1 ++ l2) lo hi ->
  exists mid, spaced pos size m l1 lo mid /\ spaced pos size m l2 mid hi.
Proof.
  revert lo. induction l1 as [|p l1 IH]; intros lo; cbn; [intros H; exists lo; split; [lia|done]|].
  intros (d & Hd & H & Hs & H'). destruct (IH _ H') as (mid & H1 & H2). exists mid. split; [|done]. by exists d.
Qed.

(** ** One pass over the sections *)

(** The sections are there, with a power of two for alignment and a size. *)
Definition section_ok (d : section) : Prop := pow2 (sh_addralign d) /\ 0 <= sh_size d.
Definition sections_ok (m : gmap Z section) (l : list Z) : Prop := forall p, p ∈ l -> exists d, m !! p = Some d /\ section_ok d.
(** More than the space they need. *)
Fixpoint room (m : gmap Z section) (l : list Z) : Z :=
  match l with [] => 0 | p :: l => match m !! p with Some d => sh_addralign d + sh_size d | None => 0 end + room m l end.
Definition selected (writable nobits : bool) (d : section) : bool :=
  in_segment writable d && Bool.eqb (sh_type d =? SHT_NOBITS) nobits.
Definition sel (f : section -> bool) (m : gmap Z section) (l : list Z) : list Z :=
  List.filter (fun p => match m !! p with Some d => f d | None => false end) l.
Lemma elem_of_sel f m l p : p ∈ sel f m l <-> p ∈ l /\ exists d, m !! p = Some d /\ f d = true.
Proof.
  unfold sel. rewrite !list_elem_of_In, List.filter_In. split; intros [H H']; (split; [done|]).
  - destruct (m !! p) as [d|]; [by exists d|done].
  - by destruct H' as (d & -> & H').
Qed.
(** Sections differ in their place only. *)
Definition moved (d d' : section) : Prop := exists a o, d' = set_sh_addr a (set_sh_offset o d).
Lemma moved_refl d : moved d d.
Proof. exists (sh_addr d), (sh_offset d). by destruct d. Qed.
Lemma moved_trans d1 d2 d3 : moved d1 d2 -> moved d2 d3 -> moved d1 d3.
Proof. intros (a & o & ->) (a' & o' & ->). by exists a', o'. Qed.
Definition moved_all (st st' : TCCState) : Prop :=
  (exists m, st' = set_secs m st) /\ forall p, match secs st !! p with Some d => exists d', secs st' !! p = Some d' /\ moved d d' | None => secs st' !! p = None end.
Lemma moved_all_refl st : moved_all st st.
Proof. split; [exists (secs st); by destruct st|]. intros p. destruct (secs st !! p) as [d|]; [exists d; split; [done|apply moved_refl]|done]. Qed.
Lemma moved_all_trans st1 st2 st3 : moved_all st1 st2 -> moved_all st2 st3 -> moved_all st1 st3.
Proof.
  intros [[m ->] H1] [[m' ->] H2]. split; [by exists m'|]. intros p. specialize (H1 p). specialize (H2 p).
  destruct (secs st1 !! p); [|by rewrite H1 in H2]. destruct H1 as (d' & E & H1). rewrite E in H2. destruct H2 as (d'' & E' & H2).
  exists d''. split; [done|]. by eapply moved_trans.
Qed.
Lemma moved_lookup st st' p d : moved_all st st' -> secs st !! p = Some d -> exists d', secs st' !! p = Some d' /\ moved d d'.
Proof. intros [_ H] Hd. specialize (H p). by rewrite Hd in H. Qed.
Lemma moved_with st p d d' : secs st !! p = Some d -> moved d d' -> moved_all st (with_sec p d' st).
Proof.
  intros Hd Hm. split; [by eexists|]. intros q. destruct (decide (p = q)) as [->|Hn].
  - rewrite Hd, with_sec_eq. by exists d'.
  - rewrite with_sec_ne by done. destruct (secs st !! q) as [e|]; [|done]. exists e. split; [done|apply moved_refl].
Qed.
Lemma moved_ok st st' l : moved_all st st' -> sections_ok (secs st) l -> sections_ok (secs st') l.
Proof.
  intros Hm H p Hp. destruct (H p Hp) as (d & Hd & Hok). destruct (moved_lookup _ _ _ _ Hm Hd) as (d' & Hd' & a & o & ->).
  by exists (set_sh_addr a (set_sh_offset o d)).
Qed.
Lemma moved_room st st' l : moved_all st st' -> room (secs st') l = room (secs st) l.
Proof.
  intros Hm. induction l as [|p l IH]; [done|]. cbn [room]. rewrite IH. f_equal. destruct Hm as [_ Hm]. specialize (Hm p).
  destruct (secs st !! p) as [d|]; [|by rewrite Hm]. by destruct Hm as (d' & -> & a & o & ->).
Qed.
Lemma room_nonneg m l : sections_ok m l -> 0 <= room m l.
Proof.
  induction l as [|p l IH]; intros H; cbn [room]; [done|]. destruct (H p) as (d & -> & (k & Hk & ->) & Hs); [by left|].
  specialize (IH ltac:(intros q Hq; apply H; by right)). pose proof (Z.pow_pos_nonneg 2 k). lia.
Qed.
Lemma moved_sel f st st' l : (forall d d', moved d d' -> f d' = f d) -> moved_all st st' -> sel f (secs st') l = sel f (secs st) l.
Proof.
  intros Hf [_ Hm]. apply List.filter_ext. intros p. specialize (Hm p). destruct (secs st !! p) as [d|]; [|by rewrite Hm].
  destruct Hm as (d' & -> & Hd). by apply Hf.
Qed.
Lemma moved_selected w nb d d' : moved d d' -> selected w nb d' = selected w nb d.
Proof. by intros (a & o & ->). Qed.

Definition start_at (a o : Z) (h : phdr) : phdr := Phdr (p_type h) (p_flags h) o a a (p_filesz h) (p_memsz h) (p_align h).
Definition at_index (st : TCCState) (i p : Z) : Prop := 0 <= i /\ sections st !! Z.to_nat i = Some p.

(** What the pass [w], [nb] does from [y] to [y']: [a] and [o] are the address and offset of the first
    section it places, or those of [y]. *)
Record passed (w nb : bool) (l : list Z) (y y' : lay) (st st' : TCCState) (a o : Z) (idx : list Z) : Prop := {
  pa_moved : moved_all st st';
  pa_other : forall p, p ∉ sel (selected w nb) (secs st) l -> secs st' !! p = secs st !! p;
  pa_idx : Forall2 (at_index st) idx (sel (selected w nb) (secs st) l);
  pa_order : l_order y' = l_order y ++ idx;
  pa_start : l_addr y <= a /\ a - l_addr y = o - l_off y;
  pa_addr : spaced sh_addr sh_size (secs st') (sel (selected w nb) (secs st) l) a (l_addr y');
  pa_off : spaced sh_offset file_size (secs st') (sel (selected w nb) (secs st) l) o (l_off y');
  pa_end : l_addr y' <= l_addr y + room (secs st) l;
  pa_diff : l_off y' - l_addr y' <= l_off y - l_addr y /\ (nb = false -> l_off y' - l_addr y' = l_off y - l_addr y);
  pa_each : forall p d, p ∈ sel (selected w nb) (secs st) l -> secs st' !! p = Some d ->
    sh_addr d mod sh_addralign d = 0 /\ (nb = false -> sh_offset d - sh_addr d = l_off y - l_addr y);
  pa_ph : l_ph y' = match sel (selected w nb) (secs st) l with
    | [] => l_ph y
    | _ => if p_offset (l_ph y) =? 0 then start_at a o (l_ph y) else l_ph y
    end
}.

Lemma place_spec i d y : section_ok d -> 0 <= l_addr y -> 0 < l_off y ->
  l_addr y + sh_addralign d + sh_size d <= 2 ^ 40 -> l_off y + sh_addralign d + sh_size d < 2 ^ 31 ->
  exists a, l_addr y <= a < l_addr y + sh_addralign d /\ a mod sh_addralign d = 0 /\
    let o := l_off y + (a - l_addr y) in
    place i d y = (Lay (a + sh_size d) (o + file_size d) (l_order y ++ [i])
      (if p_offset (l_ph y) =? 0 then start_at a o (l_ph y) else l_ph y), set_sh_addr a (set_sh_offset o d)).
Proof.
  intros [Hp Hs] Ha Ho Ha' Ho'. destruct (align_up_spec (l_addr y) _ Hp) as (Hb & Hm & Hal).
  exists (align_up (l_addr y) (sh_addralign d)). split; [done|]. split; [done|]. cbv zeta. unfold place, file_size.
  set (a := align_up (l_addr y) (sh_addralign d)) in *.
  rewrite (u64_small a), (i32_small (a - l_addr y)) by lia. rewrite (i32_small (l_off y + (a - l_addr y))) by lia.
  rewrite (u64_small (l_off y + (a - l_addr y))), (u64_small (a + sh_size d)) by lia. unfold start_at.
  destruct (sh_type d =? SHT_NOBITS).
  - rewrite Z.add_0_r. done.
  - rewrite i32_small by lia. done.
Qed.

Lemma place_pass_spec w nb i l y st : NoDup l -> sections_ok (secs st) l -> 0 <= i ->
  (forall j p, l !! j = Some p -> at_index st (i + Z.of_nat j) p) ->
  0 <= l_addr y -> 0 < l_off y -> l_addr y + room (secs st) l <= 2 ^ 40 -> l_off y + room (secs st) l < 2 ^ 31 ->
  exists y' st' a o idx, place_pass w nb i l y st = Some (y', st') /\ passed w nb l y y' st st' a o idx.
Proof.
  revert i y st. induction l as [|p l IH]; intros i y st Hd Hok Hi Hidx Ha Ho Har Hor; cbn [place_pass].
  { exists y, st, (l_addr y), (l_off y), []. split; [done|]. split; cbn; try done; try lia; [apply moved_all_refl|by rewrite app_nil_r|].
    intros p d Hp. by apply elem_of_nil in Hp. }
  apply NoDup_cons in Hd as [Hp Hd]. destruct (Hok p ltac:(by left)) as (d & Hpd & Hsd).
  assert (sections_ok (secs st) l) as Hokl by (intros q Hq; apply Hok; by right).
  pose proof (room_nonneg _ _ Hokl) as Hr. cbn [room] in Har, Hor. rewrite Hpd in Har, Hor.
  assert (forall j q, l !! j = Some q -> at_index st (i + 1 + Z.of_nat j) q) as Hidx'.
  { intros j q Hj. specialize (Hidx (S j) q Hj). by replace (i + 1 + Z.of_nat j) with (i + Z.of_nat (S j)) by lia. }
  assert (at_index st i p) as Hip by (specialize (Hidx 0%nat p eq_refl); by rewrite Z.add_0_r in Hidx).
  destruct Hsd as [Hpw Hsz]. pose proof (align_up_spec 0 _ Hpw) as (_ & _ & Hal).
  erewrite bind_run by (by apply sec_run). change (negb (in_segment w d) || negb (Bool.eqb (sh_type d =? SHT_NOBITS) nb)) with
    (negb (in_segment w d) || negb (Bool.eqb (sh_type d =? SHT_NOBITS) nb)). rewrite <- negb_andb. change (in_segment w d && _) with (selected w nb d).
  assert (sel (selected w nb) (secs st) (p :: l) = if selected w nb d then p :: sel (selected w nb) (secs st) l else sel (selected w nb) (secs st) l) as Esel
    by (cbn [sel List.filter]; by rewrite Hpd).
  destruct (selected w nb d) eqn:Es; cbn [negb].
  2:{ destruct (IH (i + 1) y st Hd Hokl ltac:(lia) Hidx' Ha Ho ltac:(lia) ltac:(lia)) as (y' & st' & a & o & idx & E & []).
      exists y', st', a, o, idx. split; [exact E|]. split; rewrite ?Esel; try done. cbn [room]. rewrite Hpd. lia. }
  assert (0 <= file_size d <= sh_size d) as Hfs by (unfold file_size; destruct (sh_type d =? SHT_NOBITS); lia).
  destruct (place_spec i d y) as (a & Hab & Ham & Epl); [done|lia..|]. cbv zeta in Epl. rewrite Epl.
  set (o := l_off y + (a - l_addr y)) in *. set (d1 := set_sh_addr a (set_sh_offset o d)).
  set (y1 := Lay _ _ _ _). set (st1 := with_sec p d1 st).
  erewrite bind_run by (by apply (upd_run _ _ d)). fold d1 st1.
  assert (moved_all st st1) as Hm1 by (apply (moved_with _ _ d); [done|by exists a, o]).
  destruct (IH (i + 1) y1 st1 Hd) as (y' & st' & a2 & o2 & idx & E & [Q1 Q2 Q3 Q4 Q5 Q6 Q7 Q8 Q9 Q10 Q11]).
  { by apply (moved_ok st). }
  { lia. }
  { exact Hidx'. }
  { cbn. lia. }
  { cbn. lia. }
  { rewrite (moved_room _ _ _ Hm1). cbn. lia. }
  { rewrite (moved_room _ _ _ Hm1). cbn. lia. }
  rewrite (moved_sel _ _ _ _ (moved_selected w nb) Hm1) in *. rewrite (moved_room _ _ _ Hm1) in Q8. cbn in Q5, Q8, Q9, Q4.
  assert (p ∉ sel (selected w nb) (secs st) l) as Hps by (intros H; by apply elem_of_sel in H as [H _]).
  assert (secs st' !! p = Some d1) as Ep by (rewrite Q2 by done; apply with_sec_eq).
  assert (file_size d = if nb then 0 else sh_size d) as Efs.
  { unfold selected in Es. apply andb_true_iff in Es as [_ Es]. apply eqb_prop in Es. unfold file_size. by rewrite Es. }
  exists y', st', a, o, (i :: idx). split; [exact E|]. split; rewrite ?Esel.
  - by eapply moved_all_trans.
  - intros q Hq. apply not_elem_of_cons in Hq as [Hq1 Hq2]. rewrite Q2 by done. by apply with_sec_ne.
  - constructor; [done|exact Q3].
  - by rewrite Q4, <- app_assoc.
  - unfold o. lia.
  - cbn [spaced]. exists d1. split; [done|]. cbn [sh_addr sh_size d1 set_sh_addr set_sh_offset]. split; [lia|]. split; [lia|].
    eapply spaced_weaken; [|reflexivity|exact Q6]. lia.
  - cbn [spaced]. exists d1. split; [done|]. change (file_size d1) with (file_size d). change (sh_offset d1) with o. split; [lia|]. split; [lia|].
    eapply spaced_weaken; [|reflexivity|exact Q7]. lia.
  - cbn [room]. rewrite Hpd. lia.
  - rewrite Efs in *. destruct nb; unfold o in *; split; [lia|done|lia|]. intros _. destruct Q9 as [_ Q9]. specialize (Q9 eq_refl). lia.
  - intros q e Hq He. apply elem_of_cons in Hq as [->|Hq].
    + assert (e = d1) as -> by congruence. split; [exact Ham|]. intros _. cbn. unfold o. lia.
    + destruct (Q10 q e Hq He) as [H1 H2]. split; [done|]. intros Hnb. specialize (H2 Hnb). cbn in H2. rewrite Efs, Hnb in H2. unfold o in *. lia.
  - rewrite Q11. assert (p_offset (l_ph y1) =? 0 = false) as ->.
    { apply Z.eqb_neq. cbn. destruct (Z.eqb_spec (p_offset (l_ph y)) 0); cbn; [unfold o; lia|done]. }
    by destruct (sel (selected w nb) (secs st) l).
Qed.

(** ** A segment *)

(** The header [h] describes a segment with the sections [P] in the file and [N] that only take memory;
    [lo] is a bound of the file offsets that does not count the rounding of the header. *)
Record segment_ok (m : gmap Z section) (P N : list Z) (lo : Z) (h : phdr) : Prop := {
  sg_addr : spaced sh_addr sh_size m (P ++ N) (p_vaddr h) (p_vaddr h + p_memsz h);
  sg_first : spaced sh_addr sh_size m (P ++ N) (p_vaddr h + (lo - p_offset h)) (p_vaddr h + p_memsz h);
  sg_off : spaced sh_offset file_size m (P ++ N) lo (p_offset h + p_filesz h);
  sg_delta : forall p d, p ∈ P -> m !! p = Some d -> sh_offset d - p_offset h = sh_addr d - p_vaddr h;
  sg_align : forall p d, p ∈ P ++ N -> m !! p = Some d -> sh_addr d mod sh_addralign d = 0;
  sg_size : 0 <= p_filesz h <= p_memsz h /\ 0 <= p_offset h /\ p_offset h + p_filesz h < 2 ^ 31 /\ 0 <= p_vaddr h /\ p_vaddr h + p_memsz h <= 2 ^ 40;
  sg_type : p_type h = PT_LOAD
}.
Lemma sg_end m P N lo h p d : segment_ok m P N lo h -> p ∈ P -> m !! p = Some d -> file_size d = sh_size d ->
  sh_offset d + sh_size d <= p_offset h + p_filesz h.
Proof.
  intros S Hp Hd Hf. rewrite <- Hf. apply (spaced_bounds _ _ _ _ _ _ p d (sg_off _ _ _ _ _ S)); [|done]. apply elem_of_app. by left.
Qed.
(** A section without data starts after the file part of those with data. *)
Lemma sg_after m P N lo h p q d e : segment_ok m P N lo h -> p ∈ P -> q ∈ N -> m !! p = Some d -> m !! q = Some e ->
  sh_addr d + sh_size d <= sh_addr e.
Proof.
  intros S Hp Hq Hd He. destruct (spaced_split _ _ _ _ _ _ _ (sg_addr _ _ _ _ _ S)) as (mid & H1 & H2).
  pose proof (spaced_bounds _ _ _ _ _ _ p d H1 Hp Hd). pose proof (spaced_bounds _ _ _ _ _ _ q e H2 Hq He). lia.
Qed.

Definition file_part (w : bool) (st : TCCState) (l : list Z) : list Z := sel (selected w false) (secs st) l.
Definition memory_part (w : bool) (st : TCCState) (l : list Z) : list Z := sel (selected w true) (secs st) l.
Lemma parts_disjoint w st l p : p ∈ file_part w st l -> p ∈ memory_part w st l -> False.
Proof.
  intros H1 H2. apply elem_of_sel in H1 as (_ & d & Hd & H1). apply elem_of_sel in H2 as (_ & d' & Hd' & H2).
  assert (d' = d) as -> by congruence. unfold selected in *. destruct (in_segment w d); [|done]. by destruct (sh_type d =? SHT_NOBITS).
Qed.
Lemma tst_mask a k : 0 <= k -> tst a (2 ^ k - 1) = negb (a mod 2 ^ k =? 0).
Proof. intros Hk. unfold tst. replace (2 ^ k - 1) with (Z.ones k) by (rewrite Z.ones_equiv; lia). by rewrite Z.land_ones. Qed.

Lemma layout_segment_spec k w l addr off order st : 0 <= k <= 20 -> NoDup l -> sections_ok (secs st) l ->
  (forall j p, l !! j = Some p -> at_index st (1 + Z.of_nat j) p) ->
  0 <= addr -> 0 < off -> addr + 2 * room (secs st) l <= 2 ^ 39 -> off + 2 * room (secs st) l < 2 ^ 31 ->
  (w = false -> (addr - off) mod 2 ^ k = 0) -> file_part w st l ++ memory_part w st l <> [] ->
  exists addr' off' idx h st', layout_segment (2 ^ k) w l addr off order st = Some (Lay addr' off' (order ++ idx) h, st') /\
    moved_all st st' /\ (forall p, p ∉ file_part w st l ++ memory_part w st l -> secs st' !! p = secs st !! p) /\
    Forall2 (at_index st) idx (file_part w st l ++ memory_part w st l) /\
    segment_ok (secs st') (file_part w st l) (memory_part w st l) off h /\
    off' = p_offset h + p_filesz h /\ p_vaddr h + p_memsz h <= addr + 2 * room (secs st) l /\ off' <= off + 2 * room (secs st) l /\
    addr' = p_vaddr h + p_memsz h + (if negb w && negb ((p_vaddr h + p_memsz h) mod 2 ^ k =? 0) then 2 ^ k else 0) /\
    (if w then addr <= p_vaddr h else p_vaddr h = (p_vaddr h / 2 ^ k) * 2 ^ k /\ addr < p_vaddr h + 2 ^ k) /\
    p_flags h = Z.lor PF_R (if w then PF_W else PF_X).
Proof.
  intros Hk Hd Hok Hidx Ha Ho Har Hor Hc Hne. pose proof (room_nonneg _ _ Hok) as Hr. pose proof (Z.pow_pos_nonneg 2 k ltac:(lia) ltac:(lia)) as Hk0.
  pose proof (Z.pow_le_mono_r 2 k 20 ltac:(lia) ltac:(lia)) as Hk1. unfold layout_segment. set (ph0 := Phdr _ _ _ _ _ _ _ _).
  destruct (place_pass_spec w false 1 l (Lay addr off order ph0) st Hd Hok) as (y1 & st1 & a1 & o1 & idx1 & E1 & [Q1 Q2 Q3 Q4 Q5 Q6 Q7 Q8 Q9 Q10 Q11]);
    [lia|done|cbn; lia..|].
  cbn [l_addr l_off l_order l_ph] in *. fold (file_part w st l) in *.
  pose proof (spaced_le _ _ _ _ _ _ Q6) as B1. pose proof (spaced_le _ _ _ _ _ _ Q7) as B2.
  destruct (place_pass_spec w true 1 l y1 st1 Hd) as (y2 & st2 & a2 & o2 & idx2 & E2 & [R1 R2 R3 R4 R5 R6 R7 R8 R9 R10 R11]).
  { by apply (moved_ok st). } { lia. } { destruct Q1 as [[m ->] _]. exact Hidx. } { lia. } { lia. }
  { rewrite (moved_room _ _ _ Q1). lia. } { rewrite (moved_room _ _ _ Q1). lia. }
  rewrite (moved_sel _ _ _ _ (moved_selected w true) Q1) in *. rewrite (moved_room _ _ _ Q1) in R8. fold (memory_part w st l) in *.
  pose proof (spaced_le _ _ _ _ _ _ R6) as B3. pose proof (spaced_le _ _ _ _ _ _ R7) as B4.
  assert (forall p, p ∈ file_part w st l -> secs st2 !! p = secs st1 !! p) as Hkeep.
  { intros p Hp. apply R2. intros Hp'. by eapply parts_disjoint. }
  assert (exists a o, l_ph y2 = start_at a o ph0 /\ addr <= a /\ a - addr = o - off /\
    spaced sh_addr sh_size (secs st2) (file_part w st l ++ memory_part w st l) a (l_addr y2) /\
    spaced sh_offset file_size (secs st2) (file_part w st l ++ memory_part w st l) o (l_off y2)) as (a & o & Eph & Hao1 & Hao2 & Sa & So).
  { rewrite R11, Q11. destruct (file_part w st l) as [|p P] eqn:EP.
    - exists a2, o2. destruct (memory_part w st l) as [|q N]; [done|]. cbn [p_offset ph0 Z.eqb]. split; [done|]. destruct Q9 as [_ Q9].
      specialize (Q9 eq_refl). split; [lia|]. split; [lia|]. by split.
    - exists a1, o1. split.
      { destruct (memory_part w st l); [done|]. cbn [p_offset ph0 start_at Z.eqb]. destruct (Z.eqb_spec o1 0); [lia|done]. }
      split; [lia|]. split; [lia|]. split.
      + apply (spaced_app _ _ _ _ _ _ (l_addr y1)); [|eapply spaced_weaken; [|reflexivity|exact R6]; lia].
        eapply spaced_ext; [|exact Q6]. intros x d Hx Hd'. exists d. by rewrite Hkeep.
      + apply (spaced_app _ _ _ _ _ _ (l_off y1)); [|eapply spaced_weaken; [|reflexivity|exact R7]; lia].
        eapply spaced_ext; [|exact Q7]. intros x d Hx Hd'. exists d. by rewrite Hkeep. }
  pose proof (spaced_le _ _ _ _ _ _ Sa) as B5. pose proof (spaced_le _ _ _ _ _ _ So) as B6.
  set (v := if w then a else a - a mod 2 ^ k). set (f := if w then o else o - o mod 2 ^ k).
  assert (v - f = a - o /\ 0 <= v <= a /\ 0 <= f <= o /\ (if w then v = a else v = (v / 2 ^ k) * 2 ^ k /\ a < v + 2 ^ k)) as (V1 & V2 & V3 & V4).
  { unfold v, f. destruct w; [lia|]. specialize (Hc eq_refl).
    assert (a mod 2 ^ k = o mod 2 ^ k) as Em.
    { replace a with (o + (addr - off)) by lia. rewrite Zplus_mod, Hc, Z.add_0_r, Z.mod_mod by lia. done. }
    pose proof (Z.mod_pos_bound a (2 ^ k) Hk0). pose proof (Z.mod_le a (2 ^ k) ltac:(lia) ltac:(lia)). pose proof (Z.mod_le o (2 ^ k) ltac:(lia) ltac:(lia)).
    split; [lia|]. split; [lia|]. split; [lia|]. split; [|lia].
    rewrite (Z.div_mod a (2 ^ k)) at 1 3 by lia. rewrite Z.add_simpl_r, Z.mul_comm, Z.div_mul by lia. lia. }
  set (h := Phdr PT_LOAD (Z.lor PF_R (if w then PF_W else PF_X)) f v v (l_off y2 - f) (l_addr y2 - v) (2 ^ k)).
  exists (l_addr y2 + (if negb w && negb (l_addr y2 mod 2 ^ k =? 0) then 2 ^ k else 0)), (l_off y2), (idx1 ++ idx2), h, st2.
  assert (p_offset h + p_filesz h = l_off y2 /\ p_vaddr h + p_memsz h = l_addr y2) as [Hoe Hve] by (cbn; lia).
  split.
  { erewrite bind_run by exact E1. erewrite bind_run by exact E2. cbn zeta. unfold mret, L_ret. rewrite Eph, R4, Q4, app_assoc.
    unfold start_at. cbn [p_type p_flags p_offset p_vaddr p_paddr p_align p_filesz p_memsz ph0].
    assert (forall x, (if w then x else Z.land x (Z.lnot (2 ^ k - 1))) = if w then x else x - x mod 2 ^ k) as Edown by (intros x; by rewrite land_lnot by lia).
    rewrite !Edown. fold v f. rewrite (u64_small (l_off y2 - f)), (u64_small (l_addr y2 - v)) by lia. rewrite tst_mask by lia.
    fold h. destruct (negb w && _); [rewrite u64_small by lia|rewrite Z.add_0_r]; done. }
  split; [by eapply moved_all_trans|]. split.
  { intros p Hp. rewrite elem_of_app in Hp. rewrite R2, Q2 by tauto. done. }
  split; [apply Forall2_app; [done|]; destruct Q1 as [[m ->] _]; exact R3|].
  split; [|rewrite ?Hoe, ?Hve; split; [done|]; split; [lia|]; split; [lia|]; split; [done|]; split; [cbn; destruct w; lia|done]].
  split; rewrite ?Hoe, ?Hve.
  - eapply spaced_weaken; [|reflexivity|exact Sa]. cbn. lia.
  - eapply spaced_weaken; [|reflexivity|exact Sa]. cbn. lia.
  - eapply spaced_weaken; [|reflexivity|exact So]. lia.
  - intros p d Hp Hpd. rewrite Hkeep in Hpd by done. destruct (Q10 p d Hp Hpd) as [_ H]. specialize (H eq_refl). cbn. lia.
  - intros p d Hp Hpd. apply elem_of_app in Hp as [Hp|Hp]; [rewrite Hkeep in Hpd by done; by apply (Q10 p)|by apply (R10 p)].
  - cbn. lia.
  - done.
Qed.

(** ** All of it *)

Definition unallocated (d : section) : bool := negb (tst (sh_flags d) SHF_ALLOC).
Definition segment_part (w : bool) (st : TCCState) (l : list Z) : list Z := file_part w st l ++ memory_part w st l.
Definition rest_part (st : TCCState) (l : list Z) : list Z := sel unallocated (secs st) l.

Lemma alloc_segment d : tst (sh_flags d) SHF_ALLOC = in_segment true d || in_segment false d.
Proof.
  unfold tst, in_segment, SHF_ALLOC, SHF_WRITE. change (Z.lor 2 1) with (Z.ones 2). rewrite !Z.land_ones by lia. change (2 ^ 2) with 4.
  assert (Z.land (sh_flags d) 2 = 2 * (sh_flags d / 2 mod 2)) as ->; [|destruct (Z.eqb_spec (2 * (sh_flags d / 2 mod 2)) 0), (Z.eqb_spec (sh_flags d mod 4) (Z.ones 2)), (Z.eqb_spec (sh_flags d mod 4) 2); cbn; try done; exfalso; change (Z.ones 2) with 3 in *; zlia].
  change 2 with (Z.shiftl 1 1) at 1. rewrite <- (Z.land_comm (Z.shiftl 1 1)).
  replace (Z.land (Z.shiftl 1 1) (sh_flags d)) with (Z.shiftl (Z.land 1 (Z.shiftr (sh_flags d) 1)) 1).
  - rewrite Z.land_comm. change 1 with (Z.ones 1) at 2. rewrite Z.land_ones, Z.shiftl_mul_pow2, Z.shiftr_div_pow2 by lia. change (2 ^ 1) with 2. lia.
  - apply Z.bits_inj'. intros n Hn. rewrite Z.shiftl_spec, Z.land_spec, Z.land_spec, Z.shiftl_spec by lia.
    destruct (Z_lt_le_dec n 1); [rewrite !(Z.testbit_neg_r _ (n - 1)) by lia; done|]. rewrite Z.shiftr_spec by lia. by rewrite Z.sub_add.
Qed.
Lemma segment_exclusive d : in_segment true d = true -> in_segment false d = true -> False.
Proof. unfold in_segment. intros H1%Z.eqb_eq H2%Z.eqb_eq. rewrite H1 in H2. done. Qed.
Lemma elem_of_segment w st l p : p ∈ segment_part w st l <-> p ∈ l /\ exists d, secs st !! p = Some d /\ in_segment w d = true.
Proof.
  unfold segment_part, file_part, memory_part. rewrite elem_of_app, !elem_of_sel. unfold selected. split.
  - intros [(Hp & d & Hd & H)|(Hp & d & Hd & H)]; (split; [done|]; exists d; split; [done|]; by apply andb_true_iff in H as [H _]).
  - intros (Hp & d & Hd & H). destruct (sh_type d =? SHT_NOBITS) eqn:E; [right|left]; (split; [done|]; exists d; by rewrite H, E).
Qed.
(** Every section is in one of the three parts, and in one only. *)
Lemma parts_cover st l p d : p ∈ l -> secs st !! p = Some d -> p ∈ segment_part false st l \/ p ∈ segment_part true st l \/ p ∈ rest_part st l.
Proof.
  intros Hp Hd. rewrite !elem_of_segment. unfold rest_part. rewrite elem_of_sel. unfold unallocated. setoid_rewrite alloc_segment.
  destruct (in_segment false d) eqn:E1; [left; eauto|]. destruct (in_segment true d) eqn:E2; [right; left; eauto|].
  right; right. split; [done|]. exists d. by rewrite E1, E2.
Qed.
Lemma segments_disjoint st l p : p ∈ segment_part false st l -> p ∈ segment_part true st l -> False.
Proof.
  rewrite !elem_of_segment. intros (_ & d & Hd & H1) (_ & d' & Hd' & H2). assert (d' = d) as -> by congruence. by apply (segment_exclusive d).
Qed.
Lemma rest_disjoint w st l p : p ∈ segment_part w st l -> p ∈ rest_part st l -> False.
Proof.
  rewrite elem_of_segment. unfold rest_part. rewrite elem_of_sel. intros (_ & d & Hd & H1) (_ & d' & Hd' & H2).
  assert (d' = d) as -> by congruence. unfold unallocated in H2. rewrite alloc_segment in H2. destruct w; rewrite H1 in H2; [done|by rewrite orb_true_r in H2].
Qed.

Lemma place_rest_spec i l off order st : NoDup l -> sections_ok (secs st) l -> 0 <= i ->
  (forall j p, l !! j = Some p -> at_index st (i + Z.of_nat j) p) -> 0 <= off -> off + room (secs st) l < 2 ^ 31 ->
  exists off' idx st', place_rest true i l off order st = Some ((off', order ++ idx), st') /\ moved_all st st' /\
    (forall p, p ∉ rest_part st l -> secs st' !! p = secs st !! p) /\ Forall2 (at_index st) idx (rest_part st l) /\
    spaced sh_offset file_size (secs st') (rest_part st l) off off' /\ off' <= off + room (secs st) l.
Proof.
  revert i off order st. induction l as [|p l IH]; intros i off order st Hd Hok Hi Hidx Ho Hor; cbn [place_rest].
  { exists off, [], st. rewrite app_nil_r. split; [done|]. split; [apply moved_all_refl|]. split; [done|]. split; [constructor|]. cbn. lia. }
  apply NoDup_cons in Hd as [Hp Hd]. destruct (Hok p ltac:(by left)) as (d & Hpd & Hpw & Hsz).
  assert (sections_ok (secs st) l) as Hokl by (intros q Hq; apply Hok; by right).
  pose proof (room_nonneg _ _ Hokl) as Hr. cbn [room] in *. rewrite Hpd in *.
  assert (forall j q, l !! j = Some q -> at_index st (i + 1 + Z.of_nat j) q) as Hidx'.
  { intros j q Hj. specialize (Hidx (S j) q Hj). by replace (i + 1 + Z.of_nat j) with (i + Z.of_nat (S j)) by lia. }
  assert (at_index st i p) as Hip by (specialize (Hidx 0%nat p eq_refl); by rewrite Z.add_0_r in Hidx).
  destruct (align_up_spec off _ Hpw) as (Hb & _ & Hal).
  erewrite bind_run by (by apply sec_run). cbn [andb].
  assert (rest_part st (p :: l) = if tst (sh_flags d) SHF_ALLOC then rest_part st l else p :: rest_part st l) as ->.
  { unfold rest_part, sel. cbn [List.filter]. rewrite Hpd. unfold unallocated at 1. by destruct (tst (sh_flags d) SHF_ALLOC). }
  destruct (tst (sh_flags d) SHF_ALLOC).
  { destruct (IH (i + 1) off order st Hd Hokl ltac:(lia) Hidx' Ho ltac:(lia)) as (off' & idx & st' & E & H1 & H2 & H3 & H4 & H5).
    exists off', idx, st'. split; [done|]. split; [done|]. split; [done|]. split; [done|]. split; [done|]. lia. }
  set (o := align_up off (sh_addralign d)) in *. rewrite (i32_small o) by lia. rewrite (u64_small o) by lia.
  set (st1 := with_sec p (set_sh_offset o d) st). erewrite bind_run by (by apply (upd_run _ _ d)). fold st1.
  assert (moved_all st st1) as Hm1 by (apply (moved_with _ _ d); [done|exists (sh_addr d), o; by destruct d]).
  assert ((if sh_type d =? SHT_NOBITS then o else i32 (o + sh_size d)) = o + file_size d /\ 0 <= file_size d <= sh_size d) as [-> Hfs].
  { unfold file_size. destruct (sh_type d =? SHT_NOBITS); [lia|]. rewrite i32_small by lia. lia. }
  destruct (IH (i + 1) (o + file_size d) (order ++ [i]) st1 Hd) as (off' & idx & st' & E & H1 & H2 & H3 & H4 & H5).
  { by apply (moved_ok st). } { lia. } { exact Hidx'. } { lia. } { rewrite (moved_room _ _ _ Hm1). lia. }
  assert (rest_part st1 l = rest_part st l) as Er by (apply moved_sel; [by intros e e' (a & o' & ->)|done]).
  rewrite (moved_room _ _ _ Hm1) in H5. rewrite Er in *.
  assert (p ∉ rest_part st l) as Hps by (intros H; by apply elem_of_sel in H as [H _]).
  exists off', (i :: idx), st'. rewrite <- app_assoc in E. split; [exact E|]. split; [by eapply moved_all_trans|]. split; [|split; [|split; [|lia]]].
  - intros q Hq. apply not_elem_of_cons in Hq as [Hq1 Hq2]. rewrite H2 by done. by apply with_sec_ne.
  - constructor; [done|exact H3].
  - cbn [spaced]. exists (set_sh_offset o d). rewrite H2 by done. split; [apply with_sec_eq|]. cbn [sh_offset set_sh_offset].
    change (file_size (set_sh_offset o d)) with (file_size d). split; [lia|]. split; [lia|done].
Qed.

(** The end of the headers of an executable. *)
Definition HEADERS : Z := 176.
(** The layout [st'] of the sections [l] of [st], the text and data headers [t] and [d], the end [off]
    of the sections in the file; [2 ^ k] is the alignment of the segments. *)
Record laid_out (k : Z) (st st' : TCCState) (l : list Z) (t d : phdr) (off : Z) : Prop := {
  lo_moved : moved_all st st';
  lo_text : segment_ok (secs st') (file_part false st l) (memory_part false st l) HEADERS t;
  lo_data : segment_ok (secs st') (file_part true st l) (memory_part true st l) (p_offset t + p_filesz t) d;
  lo_rest : spaced sh_offset file_size (secs st') (rest_part st l) (p_offset d + p_filesz d) off;
  lo_page : p_vaddr t mod 2 ^ k = 0 /\ exists b, b mod 2 ^ k = 0 /\ p_vaddr t + p_memsz t <= b <= p_vaddr d;
  lo_flags : p_flags t = Z.lor PF_R PF_X /\ p_flags d = Z.lor PF_R PF_W;
  lo_end : 0 <= off < 2 ^ 31 - 4 /\ p_vaddr d + p_memsz d <= 2 ^ 38
}.

Lemma first_place_spec k has_text text_addr section_align : segment_align section_align = 2 ^ k -> 0 <= k <= 16 -> 0 <= text_addr <= 2 ^ 37 ->
  let '(addr, off) := first_place has_text text_addr section_align HEADERS in
  0 <= addr <= 2 ^ 37 + 2 ^ 17 /\ HEADERS <= off <= HEADERS + 2 ^ 16 /\ (addr - off) mod 2 ^ k = 0.
Proof.
  intros Hs Hk Ht. pose proof (Z.pow_le_mono_r 2 k 16 ltac:(lia) ltac:(lia)) as Hk1. pose proof (Z.pow_pos_nonneg 2 k ltac:(lia) ltac:(lia)) as Hk0.
  unfold first_place. rewrite Hs. replace (2 ^ k - 1) with (Z.ones k) by (rewrite Z.ones_equiv; lia). rewrite !Z.land_ones by lia. unfold HEADERS.
  pose proof (Z.mod_pos_bound text_addr (2 ^ k) Hk0). pose proof (Z.mod_pos_bound 176 (2 ^ k) Hk0). pose proof (Z.mod_le 176 (2 ^ k) ltac:(lia) Hk0).
  pose proof (Z.div_mod text_addr (2 ^ k) ltac:(lia)) as D1. pose proof (Z.div_mod 176 (2 ^ k) ltac:(lia)) as D2.
  destruct has_text.
  - rewrite (i32_small (text_addr mod 2 ^ k)), (i32_small (176 mod 2 ^ k)) by lia. cbv zeta.
    set (a := if _ <? _ then _ else _). assert (176 mod 2 ^ k <= a <= 2 ^ 17 /\ exists q, a = text_addr mod 2 ^ k + 2 ^ k * q) as [Ha [q Hq]].
    { unfold a. destruct (Z.ltb_spec (text_addr mod 2 ^ k) (176 mod 2 ^ k)); [rewrite i32_small by lia; split; [lia|exists 1; lia]|split; [lia|exists 0; lia]]. }
    assert (a - 176 mod 2 ^ k <= 2 ^ 16) by (unfold a; destruct (Z.ltb_spec (text_addr mod 2 ^ k) (176 mod 2 ^ k)); [rewrite i32_small by lia|]; lia).
    rewrite i32_small by lia. split; [lia|]. split; [lia|].
    replace (text_addr - (176 + (a - 176 mod 2 ^ k))) with ((text_addr / 2 ^ k - 176 / 2 ^ k - q) * 2 ^ k) by nia. by apply Z_mod_mult.
  - unfold ELF_START_ADDR. rewrite u64_small by lia. split; [lia|]. split; [lia|].
    assert (2 ^ 16 = 2 ^ (16 - k) * 2 ^ k) as E by (rewrite <- Z.pow_add_r by lia; f_equal; lia).
    replace (0x10000 + 176 mod 2 ^ k - 176) with ((2 ^ (16 - k) - 176 / 2 ^ k) * 2 ^ k) by nia. by apply Z_mod_mult.
Qed.

Lemma moved_at_index st st' i p : moved_all st st' -> at_index st' i p <-> at_index st i p.
Proof. by intros [[m ->] _]. Qed.
Lemma moved_in_segment w d d' : moved d d' -> in_segment w d' = in_segment w d.
Proof. by intros (a & o & ->). Qed.
Lemma spaced_keep pos size m m' l lo hi : (forall p, p ∈ l -> m' !! p = m !! p) -> spaced pos size m l lo hi -> spaced pos size m' l lo hi.
Proof. intros H. apply spaced_ext. intros p d Hp Hd. exists d. by rewrite H. Qed.
Lemma segment_keep m m' P N lo h : (forall p, p ∈ P ++ N -> m' !! p = m !! p) -> segment_ok m P N lo h -> segment_ok m' P N lo h.
Proof.
  intros H [H1 H1' H2 H3 H4 H5 H6]. split; try done.
  - by eapply spaced_keep.
  - by eapply spaced_keep.
  - by eapply spaced_keep.
  - intros p d Hp. rewrite H by (apply elem_of_app; by left). by apply H3.
  - intros p d Hp. rewrite H by done. by apply H4.
Qed.

Lemma layout_sections_ok k has_text text_addr section_align st l : sections st = 0 :: l ->
  segment_align section_align = 2 ^ k -> 0 <= k <= 16 -> 0 <= text_addr <= 2 ^ 37 ->
  NoDup l -> sections_ok (secs st) l -> room (secs st) l <= 2 ^ 28 ->
  segment_part false st l <> [] -> segment_part true st l <> [] ->
  exists off order t d st', layout_sections has_text text_addr section_align 2 st = Some ((off, 0 :: order, [t; d]), st') /\
    Forall2 (at_index st) order (segment_part false st l ++ segment_part true st l ++ rest_part st l) /\
    laid_out k st st' l t d off.
Proof.
  intros Hl Hs Hk Hta Hd Hok Hroom Hne1 Hne2. pose proof (first_place_spec k has_text text_addr section_align Hs Hk Hta) as Hf.
  pose proof (room_nonneg _ _ Hok) as Hr. pose proof (Z.pow_le_mono_r 2 k 16 ltac:(lia) ltac:(lia)) as Hk1. pose proof (Z.pow_pos_nonneg 2 k ltac:(lia) ltac:(lia)) as Hk0.
  unfold layout_sections. erewrite bind_run by reflexivity. rewrite Hl, Hs. cbn [tail]. change (0 <? 2) with true. cbv iota.
  change (EHDR_SIZE + 2 * PHDR_SIZE) with HEADERS. destruct (first_place has_text text_addr section_align HEADERS) as [addr off]. destruct Hf as (Hf1 & Hf2 & Hf3).
  assert (forall j p, l !! j = Some p -> at_index st (1 + Z.of_nat j) p) as Hidx.
  { intros j p Hj. split; [lia|]. rewrite Hl. replace (Z.to_nat (1 + Z.of_nat j)) with (S j) by lia. done. }
  unfold HEADERS in *.
  destruct (layout_segment_spec k false l addr off [0] st ltac:(lia) Hd Hok Hidx ltac:(lia) ltac:(lia)) as
    (addr1 & off1 & idx1 & t & st1 & E1 & M1 & K1 & F1 & S1 & O1 & A1 & B1 & C1 & V1 & G1); [lia|lia|intros _; exact Hf3|exact Hne1|].
  pose proof (sg_size _ _ _ _ _ S1) as Z1. cbv beta iota in V1.
  assert (off1 <= 2 ^ 30 /\ addr1 <= 2 ^ 37 + 2 ^ 30 /\ 0 <= addr1) as (W1 & W2 & W3) by (rewrite C1; destruct (negb false && _); lia).
  destruct (layout_segment_spec k true l addr1 off1 ([0] ++ idx1) st1 ltac:(lia) Hd (moved_ok _ _ _ M1 Hok)) as
    (addr2 & off2 & idx2 & d & st2 & E2 & M2 & K2 & F2 & S2 & O2 & A2 & B2 & C2 & V2 & G2).
  { intros j p Hj. apply (moved_at_index _ _ _ _ M1). by apply Hidx. }
  { lia. } { pose proof (spaced_le _ _ _ _ _ _ (sg_off _ _ _ _ _ S1)). lia. }
  { rewrite (moved_room _ _ _ M1). lia. } { rewrite (moved_room _ _ _ M1). lia. } { done. }
  { unfold file_part, memory_part. rewrite !(moved_sel _ _ _ _ (moved_selected true _) M1). exact Hne2. }
  unfold file_part, memory_part in K2, F2, S2. rewrite !(moved_sel _ _ _ _ (moved_selected true _) M1) in *. rewrite (moved_room _ _ _ M1) in *.
  fold (file_part true st l) (memory_part true st l) in *. fold (segment_part true st l) (segment_part false st l) in *.
  pose proof (sg_size _ _ _ _ _ S2) as Z2. cbv beta iota in V2.
  destruct (place_rest_spec 1 l off2 (([0] ++ idx1) ++ idx2) st2 Hd) as (off3 & idx3 & st3 & E3 & M3 & K3 & F3 & S3 & B3).
  { by apply (moved_ok st1), (moved_ok st). } { lia. }
  { intros j p Hj. apply (moved_at_index _ _ _ _ M2), (moved_at_index _ _ _ _ M1). by apply Hidx. }
  { lia. } { rewrite (moved_room _ _ _ M2), (moved_room _ _ _ M1). lia. }
  rewrite (moved_room _ _ _ M2), (moved_room _ _ _ M1) in B3.
  assert (rest_part st2 l = rest_part st l) as Er.
  { apply moved_sel; [by intros e e' (a & o & ->)|by eapply moved_all_trans]. }
  rewrite Er in *.
  exists off3, (idx1 ++ idx2 ++ idx3), t, d, st3. split.
  { erewrite bind_run.
    2:{ erewrite bind_run by exact E1. erewrite bind_run by exact E2. reflexivity. }
    cbv beta iota. cbn [l_off l_order l_ph]. erewrite bind_run by exact E3. unfold mret, L_ret. by rewrite <- !app_assoc. }
  split.
  { apply Forall2_app; [done|]. apply Forall2_app; (eapply Forall2_impl; [eassumption|]); intros i p H.
    - by apply (moved_at_index _ _ _ _ M1).
    - by apply (moved_at_index _ _ _ _ M1), (moved_at_index _ _ _ _ M2). }
  split.
  - eapply moved_all_trans; [exact M1|]. by eapply moved_all_trans.
  - eapply (segment_keep (secs st1)).
    + intros p Hp. rewrite K3 by (intros H; by apply (rest_disjoint false st l p)). apply K2. intros H. by apply (segments_disjoint st l p).
    + destruct S1 as [Q1 Q1' Q2 Q3 Q4 Q5 Q6]. split; try done; [by eapply spaced_weaken; [|reflexivity|exact Q1']; unfold HEADERS; lia|].
      by eapply spaced_weaken; [|reflexivity|exact Q2]; unfold HEADERS; lia.
  - rewrite <- O1. eapply (segment_keep (secs st2)); [|exact S2].
    intros p Hp. apply K3. intros H. by apply (rest_disjoint true st l p).
  - by rewrite <- O2.
  - destruct V1 as [V1 V1']. split; [rewrite V1; by apply Z_mod_mult|]. set (e := p_vaddr t + p_memsz t) in *. cbn [negb andb] in C1.
    destruct (Z.eqb_spec (e mod 2 ^ k) 0) as [E0|E0]; cbn [negb] in C1; [exists e; lia|].
    exists (e - e mod 2 ^ k + 2 ^ k). pose proof (Z.mod_pos_bound e (2 ^ k) Hk0). split; [|lia].
    replace (e - e mod 2 ^ k + 2 ^ k) with ((e / 2 ^ k + 1) * 2 ^ k) by (pose proof (Z.div_mod e (2 ^ k) ltac:(lia)); lia). by apply Z_mod_mult.
  - by rewrite G1, G2.
  - pose proof (spaced_le _ _ _ _ _ _ S3). lia.
Qed.

Lemma laid_out_file k st st' l t d off : laid_out k st st' l t d off ->
  spaced sh_offset file_size (secs st') (segment_part false st l ++ segment_part true st l ++ rest_part st l) HEADERS off.
Proof.
  intros L. eapply spaced_app; [exact (sg_off _ _ _ _ _ (lo_text _ _ _ _ _ _ _ L))|].
  eapply spaced_app; [exact (sg_off _ _ _ _ _ (lo_data _ _ _ _ _ _ _ L))|exact (lo_rest _ _ _ _ _ _ _ L)].
Qed.
Lemma laid_out_addr k st st' l t d off : laid_out k st st' l t d off ->
  spaced sh_addr sh_size (secs st') (segment_part false st l ++ segment_part true st l) (p_vaddr t) (p_vaddr d + p_memsz d).
Proof.
  intros L. destruct (lo_page _ _ _ _ _ _ _ L) as (_ & b & _ & Hb).
  eapply spaced_app; [exact (sg_addr _ _ _ _ _ (lo_text _ _ _ _ _ _ _ L))|].
  eapply spaced_weaken; [|reflexivity|exact (sg_addr _ _ _ _ _ (lo_data _ _ _ _ _ _ _ L))]. lia.
Qed.
Definition segment_of (t d : phdr) (s : section) : phdr := if in_segment true s then d else t.
(** The part of memory and of the file a section has in its segment. *)
Definition in_place (h : phdr) (s : section) : Prop :=
  sh_addr s mod sh_addralign s = 0 /\ p_vaddr h <= sh_addr s /\ sh_addr s + sh_size s <= p_vaddr h + p_memsz h /\
  (sh_type s <> SHT_NOBITS -> sh_offset s - p_offset h = sh_addr s - p_vaddr h /\ sh_offset s + sh_size s <= p_offset h + p_filesz h).
Lemma segment_in_place m P N lo h p s : segment_ok m P N lo h -> p ∈ P ++ N -> m !! p = Some s ->
  (sh_type s <> SHT_NOBITS -> p ∈ P) -> in_place h s.
Proof.
  intros S Hp Hs HP. split; [by apply (sg_align _ _ _ _ _ S p)|]. split; [by apply (spaced_bounds _ _ _ _ _ _ p s (sg_addr _ _ _ _ _ S))|].
  split; [by apply (spaced_bounds _ _ _ _ _ _ p s (sg_addr _ _ _ _ _ S))|]. intros Ht. split; [by apply (sg_delta _ _ _ _ _ S p s); [apply HP|]|].
  apply (sg_end _ _ _ _ _ p s S); [by apply HP|done|]. unfold file_size. apply Z.eqb_neq in Ht. by rewrite Ht.
Qed.
Lemma moved_back st st' p s : moved_all st st' -> secs st' !! p = Some s -> exists s0, secs st !! p = Some s0 /\ moved s0 s.
Proof.
  intros [_ H] Hs. specialize (H p). destruct (secs st !! p) as [s0|]; [|congruence]. destruct H as (s' & E & Hm). exists s0. split; [done|]. congruence.
Qed.
Lemma file_part_intro w st l p s s0 : p ∈ segment_part w st l -> secs st !! p = Some s0 -> moved s0 s -> sh_type s <> SHT_NOBITS -> p ∈ file_part w st l.
Proof.
  intros Hp Hs (a & o & ->) Ht. apply elem_of_app in Hp as [Hp|Hp]; [done|]. exfalso. apply elem_of_sel in Hp as (_ & e & He & Hs').
  assert (e = s0) as -> by congruence. apply andb_true_iff in Hs' as [_ Hs']. apply eqb_prop in Hs'. cbn in Ht. by apply Z.eqb_eq in Hs'.
Qed.
Lemma laid_out_in_place k st st' l t d off p s : laid_out k st st' l t d off -> p ∈ l -> secs st' !! p = Some s ->
  tst (sh_flags s) SHF_ALLOC = true -> in_place (segment_of t d s) s.
Proof.
  intros L Hp Hs Ha. destruct (moved_back _ _ _ _ (lo_moved _ _ _ _ _ _ _ L) Hs) as (s0 & Hs0 & Hm).
  rewrite alloc_segment in Ha. unfold segment_of. destruct (in_segment true s) eqn:E.
  - assert (p ∈ segment_part true st l) as Hseg by (apply elem_of_segment; split; [done|]; exists s0; by rewrite <- (moved_in_segment _ _ _ Hm)).
    eapply (segment_in_place _ _ _ _ _ _ _ (lo_data _ _ _ _ _ _ _ L) Hseg Hs). by eapply file_part_intro.
  - assert (p ∈ segment_part false st l) as Hseg by (apply elem_of_segment; split; [done|]; exists s0; by rewrite <- (moved_in_segment _ _ _ Hm)).
    eapply (segment_in_place _ _ _ _ _ _ _ (lo_text _ _ _ _ _ _ _ L) Hseg Hs). by eapply file_part_intro.
Qed.


(** Ten bytes of code, four of data and a hundred that are zero. *)
Definition three_sections : TCCState := set_sections [0; 1; 2; 3] (set_secs
  {[1 := set_sh_size 10 (fresh_section 1 SHT_PROGBITS (Z.lor SHF_ALLOC SHF_EXECINSTR) (lit ".text"));
    2 := set_sh_size 4 (fresh_section 2 SHT_PROGBITS (Z.lor SHF_ALLOC SHF_WRITE) (lit ".data"));
    3 := set_sh_size 100 (fresh_section 3 SHT_NOBITS (Z.lor SHF_ALLOC SHF_WRITE) (lit ".bss"))]} no_sections).
