(* ===== verification/TccImage.v ===== *)
(** The file that [tcc_output_elf] writes for an executable, and what happens to the sections between the
    layout and the output. *)
From S2P Require Import Prelude RiscvLink TccElf TccLink TccOutput TccElfHash TccLayout.

(** ** What relocation, renumbering and sorting leave alone *)

Definition kept (d d' : section) : Prop :=
  sh_type d' = sh_type d /\ sh_flags d' = sh_flags d /\ sh_size d' = sh_size d /\ sh_addr d' = sh_addr d /\
  sh_offset d' = sh_offset d /\ sh_name d' = sh_name d.
Definition kept_secs (m m' : gmap Z section) : Prop := forall p d, m !! p = Some d -> exists d', m' !! p = Some d' /\ kept d d'.
Lemma kept_refl d : kept d d.
Proof. done. Qed.
Lemma kept_secs_refl m : kept_secs m m.
Proof. intros p d H. by exists d. Qed.
Lemma kept_secs_trans m1 m2 m3 : kept_secs m1 m2 -> kept_secs m2 m3 -> kept_secs m1 m3.
Proof.
  intros H1 H2 p d Hd. destruct (H1 p d Hd) as (d' & Hd' & K1). destruct (H2 p d' Hd') as (d'' & Hd'' & K2).
  exists d''. split; [done|]. unfold kept in *. intuition congruence.
Qed.
Lemma kept_file_size d d' : kept d d' -> file_size d' = file_size d.
Proof. intros (E1 & _ & E2 & _). unfold file_size. by rewrite E1, E2. Qed.

Definition frames {A} (m : L A) : Prop := forall st a st', m st = Some (a, st') ->
  kept_secs (secs st) (secs st') /\ sections st' = sections st.
Lemma frames_ret {A} (a : A) : frames (mret a).
Proof. intros st a' st' [= <- <-]. split; [apply kept_secs_refl|done]. Qed.
Lemma frames_bind {A B} (m : L A) (k : A -> L B) : frames m -> (forall a, frames (k a)) -> frames (m ≫= k).
Proof.
  intros Hm Hk st b st' E. unfold mbind, L_bind in E. destruct (m st) as [[a st1]|] eqn:E1; [|done].
  destruct (Hm _ _ _ E1) as [H1 H2]. destruct (Hk a _ _ _ E) as [H3 H4]. split; [by eapply kept_secs_trans|congruence].
Qed.
Lemma frames_gets {A} (f : TCCState -> A) : frames (gets f).
Proof. intros st a st' [= <- <-]. split; [apply kept_secs_refl|done]. Qed.
Lemma frames_error {A} : frames (@tcc_error A).
Proof. done. Qed.
Lemma frames_noabort : frames tcc_error_noabort.
Proof. intros st a st' [= <- <-]. split; [apply kept_secs_refl|done]. Qed.
Lemma frames_sec p : frames (sec p).
Proof. intros st a st' E. unfold sec in E. destruct (secs st !! p); [|done]. injection E as <- <-. split; [apply kept_secs_refl|done]. Qed.
Lemma frames_section_at i : frames (section_at i).
Proof.
  intros st a st' E. unfold section_at in E. destruct (i <? 0); [done|]. destruct (sections st !! Z.to_nat i); [|done].
  injection E as <- <-. split; [apply kept_secs_refl|done].
Qed.
Lemma frames_upd p f : (forall d, kept d (f d)) -> frames (upd p f).
Proof.
  intros Hf st a st' E. unfold upd, on_sec in E. destruct (secs st !! p) as [d|] eqn:Ed; [|done]. injection E as <- <-. split; [|done].
  intros q e He. cbn. destruct (decide (p = q)) as [->|Hn].
  - exists (f d). rewrite lookup_insert_eq. assert (e = d) as -> by congruence. done.
  - exists e. by rewrite lookup_insert_ne.
Qed.
Lemma frames_modify f : (forall s, secs (f s) = secs s /\ sections (f s) = sections s) -> frames (modify f).
Proof. intros Hf st a st' [= <- <-]. destruct (Hf st) as [-> ->]. split; [apply kept_secs_refl|done]. Qed.
Create HintDb frame.
#[export] Hint Resolve frames_ret frames_gets frames_error frames_noabort frames_sec frames_section_at frames_upd frames_modify : frame.
#[export] Hint Resolve kept_refl : frame.
(** Follows the structure of a program. *)
Ltac frame := repeat first
  [ progress intros | apply frames_bind | case_match
  | solve [auto with frame] | apply frames_upd; intros; solve [done | case_match; done] | apply frames_modify; done ].

Lemma frames_store s i y : frames (store_sym s i y).
Proof. unfold store_sym. frame. Qed.
#[export] Hint Resolve frames_store : frame.
Lemma frames_relocate_syms_loop n i symtab : frames (relocate_syms_loop n i symtab).
Proof. revert i. induction n; intros i; cbn [relocate_syms_loop]; frame. Qed.
Lemma frames_get_sym_attr can_alloc i : frames (get_sym_attr can_alloc i false).
Proof. intros st a st' E. unfold get_sym_attr in E. destruct (_ <? _); injection E as <- <-; (split; [apply kept_secs_refl|done]). Qed.
#[export] Hint Resolve frames_relocate_syms_loop frames_get_sym_attr : frame.
Lemma frames_relocate_loop can_alloc n i s sr hi : frames (relocate_loop can_alloc n i s sr hi).
Proof. revert i hi. induction n; intros i hi; cbn [relocate_loop]; unfold got_address; frame. Qed.
#[export] Hint Resolve frames_relocate_loop : frame.
Lemma frames_relocate_sections can_alloc l hi : frames (relocate_sections can_alloc l hi).
Proof. revert hi. induction l; intros hi; cbn [relocate_sections]; unfold relocate_section; frame. Qed.
Lemma frames_relocate_rels l : frames (relocate_rels l).
Proof. induction l; cbn [relocate_rels]; unfold relocate_rel; frame. Qed.
#[export] Hint Resolve frames_relocate_sections frames_relocate_rels : frame.
Lemma frames_final can_alloc hi : frames (final_sections_reloc can_alloc hi).
Proof. unfold final_sections_reloc, relocate_syms. frame. Qed.
Lemma frames_fill_got_loop n i : frames (fill_got_loop n i).
Proof. revert i. induction n; intros i; cbn [fill_got_loop]; frame. Qed.
#[export] Hint Resolve frames_final frames_fill_got_loop : frame.
Lemma frames_fill_got : frames fill_got.
Proof. unfold fill_got. frame. Qed.
Lemma frames_renumber i l b : frames (renumber_sections i l b).
Proof. revert i. induction l; intros i; cbn [renumber_sections]; frame. Qed.
Lemma frames_each_reloc s f l : (forall d, kept d (f d)) -> frames (each_reloc_section s f l).
Proof. intros Hf. induction l; cbn [each_reloc_section]; frame. Qed.
#[export] Hint Resolve frames_fill_got frames_renumber frames_each_reloc : frame.
Lemma frames_sort_syms s : frames (sort_syms s).
Proof. unfold sort_syms. frame. all: by apply frames_each_reloc. Qed.
#[export] Hint Resolve frames_sort_syms : frame.

(** ** The sections that remain *)

Definition named (m : gmap Z section) (p : Z) : bool := match m !! p with Some d => negb (sh_name d =? 0) | None => false end.
Lemma bind_inv {A B} (m : L A) (k : A -> L B) st b st' : (m ≫= k) st = Some (b, st') -> exists a st1, m st = Some (a, st1) /\ k a st1 = Some (b, st').
Proof. unfold mbind, L_bind. destruct (m st) as [[a st1]|]; [|done]. intros E. by exists a, st1. Qed.
Lemma section_at_run st i p : at_index st i p -> section_at i st = Some (p, st).
Proof. intros [H1 H2]. unfold section_at. replace (i <? 0) with false by lia. by rewrite H2. Qed.

Lemma tidy_loop_spec idx ps kept_ dropped b st : Forall2 (at_index st) idx ps -> kept_ <> [] ->
  (forall p, p ∈ ps -> is_Some (secs st !! p)) ->
  exists dropped' b', tidy_loop idx kept_ dropped b st = Some ((kept_ ++ List.filter (named (secs st)) ps, dropped', b'), st).
Proof.
  intros HF. revert kept_ dropped b. induction HF as [|i p idx ps Hip HF IH]; intros kept_ dropped b Hk Hs; cbn [tidy_loop List.filter].
  { rewrite app_nil_r. by eexists _, _. }
  erewrite bind_run by (by apply section_at_run). destruct (Hs p ltac:(by left)) as [d Hd]. destruct kept_ as [|x kept_]; [done|].
  erewrite bind_run by (erewrite bind_run by (by apply sec_run); reflexivity).
  unfold named at 1. rewrite Hd. destruct (negb (sh_name d =? 0)).
  - destruct (IH ((x :: kept_) ++ [p]) dropped (aset b i (Z.of_nat (length (x :: kept_))))) as (dr & b' & E); [done|intros q Hq; apply Hs; by right|].
    exists dr, b'. rewrite E, <- app_assoc. done.
  - apply IH; [done|]. intros q Hq. apply Hs. by right.
Qed.

Lemma spaced_filter pos size m f l lo hi : spaced pos size m l lo hi -> spaced pos size m (List.filter f l) lo hi.
Proof.
  revert lo. induction l as [|p l IH]; intros lo; cbn; [done|]. intros (d & Hd & H & Hs & H'). apply IH in H'.
  destruct (f p); [exists d; done|]. eapply spaced_weaken; [|reflexivity|exact H']. lia.
Qed.
Lemma spaced_kept pos size m m' l lo hi : (forall d d', kept d d' -> pos d' = pos d /\ size d' = size d) -> kept_secs m m' ->
  spaced pos size m l lo hi -> spaced pos size m' l lo hi.
Proof.
  intros Hk Hm. apply spaced_ext. intros p d _ Hd. destruct (Hm p d Hd) as (d' & Hd' & K). exists d'. split; [done|by apply Hk].
Qed.

(** ** The bytes of the sections *)

Definition byte_at (l : list Z) (i : Z) : Z := if i <? 0 then 0 else nth (Z.to_nat i) l 0.
Lemma byte_at_app l1 l2 i : byte_at (l1 ++ l2) i = if i <? Z.of_nat (length l1) then byte_at l1 i else byte_at l2 (i - Z.of_nat (length l1)).
Proof.
  unfold byte_at. destruct (Z.ltb_spec i 0), (Z.ltb_spec i (Z.of_nat (length l1))), (Z.ltb_spec (i - Z.of_nat (length l1)) 0); try lia; [done..| |].
  - by rewrite app_nth1 by lia.
  - rewrite app_nth2 by lia. f_equal. lia.
Qed.
Lemma nth_zeros n i : nth i (replicate n 0) 0 = 0.
Proof. revert i. induction n as [|n IH]; intros [|i]; cbn; auto. Qed.
Lemma byte_at_pad a b i : byte_at (pad a b) i = 0.
Proof. unfold byte_at, pad. destruct (i <? 0); [done|apply nth_zeros]. Qed.
Lemma length_pad a b : Z.of_nat (length (pad a b)) = Z.max 0 (b - a).
Proof. unfold pad. rewrite length_replicate. lia. Qed.
Lemma length_data_bytes d n : 0 <= n -> Z.of_nat (length (data_bytes d n)) = n.
Proof. intros H. unfold data_bytes. rewrite length_map, length_seqZ. lia. Qed.
Lemma byte_at_data d n i : 0 <= i < n -> byte_at (data_bytes d n) i = aget (data d) i.
Proof.
  intros H. unfold byte_at, data_bytes. replace (i <? 0) with false by lia.
  rewrite (nth_indep _ 0 (aget (data d) 0)) by (rewrite length_map, length_seqZ; lia).
  rewrite (map_nth (fun i => aget (data d) i) _ 0). f_equal. apply nth_lookup_Some, lookup_seqZ. lia.
Qed.

Lemma write_sections_spec order ps st off hi : Forall2 (at_index st) order ps -> spaced sh_offset file_size (secs st) ps off hi ->
  0 <= off -> hi < 2 ^ 31 ->
  exists last out, write_sections order off st = Some ((last, out), st) /\ off <= last <= hi /\ Z.of_nat (length out) = last - off /\
    (forall p d k, p ∈ ps -> secs st !! p = Some d -> sh_type d <> SHT_NOBITS -> 0 <= k < sh_size d ->
       byte_at out (sh_offset d - off + k) = aget (data d) k) /\
    (forall pos, off <= pos -> (forall p d, p ∈ ps -> secs st !! p = Some d -> ~ sh_offset d <= pos < sh_offset d + file_size d) ->
       byte_at out (pos - off) = 0).
Proof.
  intros HF. revert off. induction HF as [|i p order ps Hip HF IH]; intros off Hsp Ho Hh; cbn [write_sections].
  { exists off, []. split; [done|]. cbn in Hsp. split; [lia|]. split; [cbn; lia|]. split; [intros p d k Hp; by apply elem_of_nil in Hp|].
    intros pos _ _. unfold byte_at. destruct (_ <? 0); [done|]. by destruct (Z.to_nat _). }
  cbn [spaced] in Hsp. destruct Hsp as (d & Hd & Hlo & Hsz & Hsp). pose proof (spaced_le _ _ _ _ _ _ Hsp) as Hle.
  erewrite bind_run by (by apply section_at_run). erewrite bind_run by (by apply sec_run).
  destruct (sh_type d =? SHT_NOBITS) eqn:Et.
  - assert (file_size d = 0) as E0 by (unfold file_size; by rewrite Et).
    destruct (IH off) as (last & out & E & H1 & H2 & H3 & H4); [eapply spaced_weaken; [|reflexivity|exact Hsp]; lia|done..|].
    exists last, out. split; [done|]. split; [done|]. split; [done|]. split.
    + intros q e k Hq He Hn Hk. apply elem_of_cons in Hq as [->|Hq]; [|by apply (H3 q e k)]. assert (e = d) as -> by congruence. by apply Z.eqb_eq in Et.
    + intros pos Hp Hn. apply H4; [done|]. intros q e Hq. apply Hn. by right.
  - assert (file_size d = sh_size d) as E0 by (unfold file_size; by rewrite Et). rewrite E0 in *.
    rewrite (i32_small (sh_size d)), Z.max_r by lia. rewrite i32_small by lia.
    destruct (IH (sh_offset d + sh_size d) Hsp) as (last & out & E & H1 & H2 & H3 & H4); [lia..|].
    exists last, (pad off (sh_offset d) ++ data_bytes d (sh_size d) ++ out). split; [by erewrite bind_run by exact E|]. split; [lia|].
    split; [rewrite !length_app, !Nat2Z.inj_add, length_pad, length_data_bytes by lia; lia|].
    assert (forall x, off <= x -> byte_at (pad off (sh_offset d) ++ data_bytes d (sh_size d) ++ out) (x - off) =
      if x <? sh_offset d then 0 else if x <? sh_offset d + sh_size d then aget (data d) (x - sh_offset d)
      else byte_at out (x - (sh_offset d + sh_size d))) as Hb.
    { intros x Hx. rewrite !byte_at_app, length_pad, length_data_bytes, byte_at_pad, Z.max_r by lia.
      destruct (Z.ltb_spec (x - off) (sh_offset d - off)), (Z.ltb_spec x (sh_offset d)); try lia.
      destruct (Z.ltb_spec (x - off - (sh_offset d - off)) (sh_size d)), (Z.ltb_spec x (sh_offset d + sh_size d)); try lia;
        [rewrite byte_at_data by lia|]; f_equal; lia. }
    split.
    + intros q e k Hq He Hn Hk. replace (sh_offset e - off + k) with (sh_offset e + k - off) by lia.
      apply elem_of_cons in Hq as [->|Hq].
      * assert (e = d) as -> by congruence. rewrite Hb by lia. destruct (Z.ltb_spec (sh_offset d + k) (sh_offset d)); [lia|].
        destruct (Z.ltb_spec (sh_offset d + k) (sh_offset d + sh_size d)); [|lia]. f_equal. lia.
      * destruct (spaced_bounds _ _ _ _ _ _ q e Hsp Hq He) as [Hq1 Hq2]. rewrite Hb by lia.
        destruct (Z.ltb_spec (sh_offset e + k) (sh_offset d)); [lia|]. destruct (Z.ltb_spec (sh_offset e + k) (sh_offset d + sh_size d)); [lia|].
        rewrite <- (H3 q e k Hq He Hn Hk). f_equal. lia.
    + intros pos Hp Hn. rewrite Hb by done. destruct (Z.ltb_spec pos (sh_offset d)); [done|].
      destruct (Z.ltb_spec pos (sh_offset d + sh_size d)); [exfalso; apply (Hn p d ltac:(by left) Hd); lia|].
      apply H4; [lia|]. intros q e Hq. apply Hn. by right.
Qed.

(** ** The whole file *)

Lemma find_elf_sym_same s nm st k st' : find_elf_sym s nm st = Some (k, st') -> st' = st.
Proof.
  unfold find_elf_sym. intros E. apply bind_inv in E as (syms & st1 & E1 & E). unfold sec in E1. destruct (secs st !! s); [|done]. injection E1 as <- <-.
  destruct (hash _ =? 0); [by injection E|]. apply bind_inv in E as (hs & st1 & E1 & E). unfold sec in E1. destruct (secs st !! _); [|done]. injection E1 as <- <-.
  apply bind_inv in E as (strs & st1 & E1 & E). unfold sec in E1. destruct (secs st !! _); [|done]. injection E1 as <- <-.
  destruct (find_loop _ _ _ _ _ _ _); [by injection E|done].
Qed.
Lemma get_sym_addr_same nm err st v st' : get_sym_addr nm err st = Some (v, st') -> st' = st.
Proof.
  unfold get_sym_addr. intros E. apply bind_inv in E as (s & st1 & [= <- <-] & E). apply bind_inv in E as (i & st1 & E1 & E).
  apply find_elf_sym_same in E1 as ->. apply bind_inv in E as (syms & st1 & E1 & E). unfold sec in E1. destruct (secs st !! _); [|done]. injection E1 as <- <-.
  destruct (_ || _); [destruct err; [done|]|]; by injection E.
Qed.
Lemma write_shdrs_same l st out st' : write_shdrs l st = Some (out, st') -> st' = st.
Proof.
  revert out st'. induction l as [|p l IH]; intros out st' E; cbn [write_shdrs] in E; [by injection E|].
  apply bind_inv in E as (h & st1 & E1 & E). assert (st1 = st) as ->.
  { destruct (p =? 0); [by injection E1|]. apply bind_inv in E1 as (d & st2 & E2 & E1). unfold sec in E2. destruct (secs st !! p); [|done]. injection E2 as <- <-.
    apply bind_inv in E1 as (num & st2 & E2 & E1). assert (st2 = st) as ->; [|by injection E1].
    destruct (_ =? 0); [by injection E2|]. apply bind_inv in E2 as (b & st3 & E3 & E2). unfold sec in E3. destruct (secs st !! _); [|done].
    injection E3 as <- <-. by injection E2. }
  apply bind_inv in E as (o & st1 & E1' & E). apply IH in E1' as ->. by injection E.
Qed.
Lemma length_le n v : length (le n v) = n.
Proof. revert v. induction n as [|n IH]; intros v; cbn; [done|]. by rewrite IH. Qed.
Lemma length_ehdr h : length (ehdr_bytes h) = 64%nat.
Proof. unfold ehdr_bytes. rewrite !length_app, !length_le. done. Qed.
Lemma length_phdr h : length (phdr_bytes h) = 56%nat.
Proof. unfold phdr_bytes. rewrite !length_app, !length_le. done. Qed.

(** What an executable holds: the headers, the bytes of the sections [ps] at their offsets, and zeroes
    between them. *)
Definition image (m : gmap Z section) (ps : list Z) (entry : Z) (t d : phdr) (off : Z) (file : list Z) : Prop :=
  exists shoff shnum rest, file = ehdr_bytes (MkEhdr ET_EXEC entry EHDR_SIZE shoff PHDR_SIZE 2 shnum (shnum - 1)) ++
      phdr_bytes t ++ phdr_bytes d ++ rest /\
    off <= HEADERS + Z.of_nat (length rest) /\
    (forall p s k, p ∈ ps -> m !! p = Some s -> sh_type s <> SHT_NOBITS -> 0 <= k < sh_size s -> byte_at file (sh_offset s + k) = aget (data s) k) /\
    (forall pos, HEADERS <= pos < off -> (forall p s, p ∈ ps -> m !! p = Some s -> ~ sh_offset s <= pos < sh_offset s + file_size s) -> byte_at file pos = 0).

Lemma some_pair_inj {A B} (a a' : A) (b b' : B) : Some (a, b) = Some (a', b') -> a' = a /\ b' = b.
Proof. by intros [= <- <-]. Qed.
Lemma tcc_output_elf_spec t d off order ps st file st' :
  tcc_output_elf OUTPUT_EXE [t; d] off order st = Some (file, st') ->
  Forall2 (at_index st) (take (length (sections st) - 1) (tail order)) ps ->
  spaced sh_offset file_size (secs st) ps HEADERS off -> off < 2 ^ 31 - 4 ->
  kept_secs (secs st) (secs st') /\ exists entry, get_sym_addr (lit "_start") true st = Some (entry, st) /\
    image (secs st') ps entry t d off file.
Proof.
  intros E HF Hsp Hoff. pose proof (spaced_le _ _ _ _ _ _ Hsp) as Hle. unfold tcc_output_elf in E.
  apply bind_inv in E as (shnum & st1 & [= <- <-] & E). cbn [length map List.concat] in E. change (Z.of_nat 2) with 2 in E. change (0 <? 2) with true in E. cbv iota in E.
  apply bind_inv in E as (entry & st1 & E1 & E). pose proof (get_sym_addr_same _ _ _ _ _ E1) as ->.
  apply bind_inv in E as (s & st1 & [= <- <-] & E). apply bind_inv in E as ([] & st1 & E2 & E). destruct (frames_sort_syms _ _ _ _ E2) as [K1 Ks].
  replace (Z.to_nat (Z.of_nat (length (sections st)) - 1)) with (length (sections st) - 1)%nat in E by lia.
  assert (Forall2 (at_index st1) (take (length (sections st) - 1) (tail order)) ps) as HF1.
  { eapply Forall2_impl; [exact HF|]. intros i p [H1 H2]. split; [done|]. by rewrite Ks. }
  assert (spaced sh_offset file_size (secs st1) ps HEADERS off) as Hsp1.
  { eapply spaced_kept; [|exact K1|exact Hsp]. intros e e' K. split; [apply K|by apply kept_file_size]. }
  destruct (write_sections_spec _ _ _ _ _ HF1 Hsp1) as (last & body & E3 & H1 & H2 & H3 & H4); [done|lia|].
  apply bind_inv in E as (r & st2 & E4 & E). change (EHDR_SIZE + 2 * PHDR_SIZE) with HEADERS in E4. rewrite E3 in E4. injection E4 as <- <-.
  apply bind_inv in E as (l & st2 & [= <- <-] & E). apply bind_inv in E as (hdrs & st2 & E5 & E). apply write_shdrs_same in E5 as ->.
  unfold mret, L_ret in E. apply some_pair_inj in E as [-> ->]. split; [done|]. exists entry. split; [done|].
  set (shoff := i32 (Z.land (off + 3) (-4))). set (h := MkEhdr _ _ _ _ _ _ _ _). set (head := ehdr_bytes h ++ _).
  assert (shoff = off + 3 - (off + 3) mod 4) as Eo.
  { unfold shoff. change (-4) with (Z.lnot (2 ^ 2 - 1)). rewrite land_lnot by lia. change (2 ^ 2) with 4. unfold HEADERS in *. apply i32_small. zlia. }
  assert (off <= shoff < 2 ^ 31) as Hso by (rewrite Eo; zlia). assert (u64 shoff = shoff) as Eu by (apply u64_small; unfold HEADERS in *; lia).
  assert (Z.of_nat (length head) = HEADERS) as Eh by (unfold head; rewrite !length_app, length_ehdr, !length_phdr; done).
  exists shoff, (Z.of_nat (length (sections st))), (body ++ pad last (u64 shoff) ++ hdrs). split.
  { unfold head, h. rewrite Eu, <- !app_assoc. reflexivity. }
  split; [rewrite Eu, !length_app, !Nat2Z.inj_add, length_pad; lia|].
  assert (forall x, HEADERS <= x < off -> byte_at (head ++ body ++ pad last (u64 shoff) ++ hdrs) x = byte_at body (x - HEADERS)) as Hb.
  { intros x Hx. rewrite byte_at_app, Eh. destruct (Z.ltb_spec x HEADERS); [lia|]. rewrite byte_at_app, H2.
    destruct (Z.ltb_spec (x - HEADERS) (last - HEADERS)); [done|]. rewrite byte_at_app, length_pad, Eu, byte_at_pad.
    destruct (Z.ltb_spec (x - HEADERS - (last - HEADERS)) (Z.max 0 (shoff - last))); [|lia].
    unfold byte_at. destruct (_ <? 0); [done|]. rewrite nth_overflow by lia. done. }
  split.
  - intros p e k Hp He Hn Hk. destruct (spaced_bounds _ _ _ _ _ _ p e Hsp1 Hp He) as [B1 B2].
    assert (file_size e = sh_size e) as Ef by (unfold file_size; apply Z.eqb_neq in Hn; by rewrite Hn).
    rewrite Hb by lia. rewrite <- (H3 p e k Hp He Hn Hk). f_equal. lia.
  - intros pos Hpos Hn. rewrite Hb by lia. apply H4; [lia|done].
Qed.

(** What comes between the layout and the output leaves the named sections of the layout, in its order. *)
Lemma tidy_spec order ps st r st' : tidy_section_headers (0 :: order) st = Some (r, st') -> hd_error (sections st) = Some 0 ->
  Forall2 (at_index st) order ps -> (forall p, p ∈ ps -> is_Some (secs st !! p)) ->
  kept_secs (secs st) (secs st') /\ sections st' = 0 :: List.filter (named (secs st)) ps /\
  r.2 = seqZ 0 (Z.of_nat (length (0 :: order))).
Proof.
  intros E H0 HF Hs. unfold tidy_section_headers in E. apply bind_inv in E as (x & st1 & E1 & E). cbn [tidy_loop] in E1.
  assert (at_index st 0 0) as H00 by (split; [done|]; destruct (sections st); [done|]; by injection H0 as ->).
  apply bind_inv in E1 as (q & st2 & E2 & E1). rewrite (section_at_run _ _ _ H00) in E2. injection E2 as <- <-.
  apply bind_inv in E1 as (kp & st2 & [= <- <-] & E1). cbv iota in E1.
  destruct (tidy_loop_spec order ps [0] [] (aset ∅ 0 0) st HF ltac:(done) Hs) as (dr & b & E3).
  cbn [app length] in E1. change (Z.of_nat 0) with 0 in E1. rewrite E3 in E1. injection E1 as <- <-.
  apply bind_inv in E as ([] & st2 & E4 & E). destruct (frames_renumber _ _ _ _ _ _ E4) as [K1 _].
  apply bind_inv in E as (s & st3 & [= <- <-] & E). apply bind_inv in E as ([] & st3 & E5 & E).
  assert (kept_secs (secs st2) (secs st3)) as K2.
  { refine (proj1 (frames_upd _ _ _ _ _ _ E5)). done. }
  apply bind_inv in E as ([] & st4 & [= <-] & E). apply some_pair_inj in E as [-> ->]. split; [by eapply kept_secs_trans|]. done.
Qed.
Lemma seqZ_index (l : list Z) (st : TCCState) : sections st = 0 :: l ->
  Forall2 (at_index st) (seqZ 1 (Z.of_nat (length l))) l.
Proof.
  intros Hs. apply Forall2_lookup. intros i. destruct (l !! i) as [p|] eqn:E.
  - pose proof (lookup_lt_Some _ _ _ E). rewrite (proj2 (lookup_seqZ _ _ _ (1 + Z.of_nat i))) by lia. constructor.
    split; [lia|]. rewrite Hs. replace (Z.to_nat (1 + Z.of_nat i)) with (S i) by lia. done.
  - apply lookup_ge_None in E. rewrite lookup_seqZ_ge by lia. constructor.
Qed.
Lemma take_seqZ n a m : (n <= Z.to_nat m)%nat -> take n (seqZ a m) = seqZ a (Z.of_nat n).
Proof.
  intros H. apply list_eq. intros i. destruct (decide (i < n)%nat).
  - rewrite lookup_take_lt by done. rewrite !(proj2 (lookup_seqZ _ _ _ (a + Z.of_nat i))) by lia. done.
  - rewrite lookup_take_ge by lia. by rewrite lookup_seqZ_ge by lia.
Qed.
Lemma filter_length_le {A} (f : A -> bool) l : (length (List.filter f l) <= length l)%nat.
Proof. induction l as [|a l IH]; cbn; [done|]. destruct (f a); cbn; lia. Qed.
Lemma kept_named m m' ps : kept_secs m m' -> (forall p, p ∈ ps -> is_Some (m !! p)) -> List.filter (named m') ps = List.filter (named m) ps.
Proof.
  intros K. induction ps as [|p ps IH]; intros Hs; cbn [List.filter]; [done|]. rewrite IH by (intros q Hq; apply Hs; by right).
  destruct (Hs p ltac:(by left)) as [d Hd]. destruct (K p d Hd) as (d' & Hd' & Kd). unfold named. rewrite Hd, Hd'.
  by destruct Kd as (_ & _ & _ & _ & _ & ->).
Qed.

Section exe.
Context (k : Z) (has_text : bool) (text_addr section_align : Z) (can_alloc : Z -> bool) (can_open : bool).

(** The sections that the layout accepts, and that have code and data. *)
Record linkable (st : TCCState) (l : list Z) : Prop := {
  lk_sections : sections st = 0 :: l;
  lk_align : segment_align section_align = 2 ^ k /\ 0 <= k <= 16 /\ 0 <= text_addr <= 2 ^ 37;
  lk_nodup : NoDup l;
  lk_ok : sections_ok (secs st) l;
  lk_room : room (secs st) l <= 2 ^ 28;
  lk_text : segment_part false st l <> [];
  lk_data : segment_part true st l <> []
}.

Lemma write_image_spec st l hi file hi' st' : linkable st l ->
  write_image has_text text_addr section_align can_alloc can_open OUTPUT_EXE hi st = Some ((Some file, hi'), st') ->
  exists t d off stL st1 entry ps, laid_out k st stL l t d off /\ kept_secs (secs stL) (secs st') /\
    get_sym_addr (lit "_start") true st1 = Some (entry, st1) /\ kept_secs (secs st1) (secs st') /\
    (forall p, p ∈ ps <-> p ∈ segment_part false st l ++ segment_part true st l ++ rest_part st l /\ named (secs stL) p = true) /\
    image (secs st') ps entry t d off file.
Proof.
  intros [Hl (Ha & Hk & Ht) Hnd Hok Hr Hn1 Hn2] E.
  destruct (layout_sections_ok k has_text text_addr section_align st l Hl Ha Hk Ht Hnd Hok Hr Hn1 Hn2) as (off & order & t & d & stL & EL & HF & L).
  set (ps := segment_part false st l ++ segment_part true st l ++ rest_part st l) in *.
  unfold write_image in E. apply bind_inv in E as (x & st1 & E1 & E). rewrite EL in E1. injection E1 as <- <-.
  apply bind_inv in E as (x & st1 & E1 & E). apply bind_inv in E1 as ([ok hi1] & st2 & E2 & E1). destruct (frames_final _ _ _ _ _ E2) as [K1 S1].
  destruct ok; [|injection E1 as <- <-; done].
  apply bind_inv in E1 as (r & st3 & E3 & E1).
  pose proof (lo_moved _ _ _ _ _ _ _ L) as [[mL EmL] HmL].
  assert (forall p, p ∈ ps -> is_Some (secs stL !! p)) as HsL.
  { intros p Hp. assert (p ∈ l) as Hpl.
    { unfold ps in Hp. rewrite !elem_of_app, !elem_of_segment in Hp. destruct Hp as [[? _]|[[? _]|Hp]]; try done. by apply elem_of_sel in Hp as [? _]. }
    destruct (Hok p Hpl) as (d0 & Hd0 & _). specialize (HmL p). rewrite Hd0 in HmL. destruct HmL as (d1 & Hd1 & _). by eexists. }
  assert (forall p, p ∈ ps -> is_Some (secs st2 !! p)) as Hs2.
  { intros p Hp. destruct (HsL p Hp) as [e He]. destruct (K1 p e He) as (e' & He' & _). by eexists. }
  assert (sections st2 = 0 :: l) as Es2 by (rewrite S1, EmL; exact Hl).
  destruct (tidy_spec order ps st2 r st3 E3) as (K2 & S3 & Er); [by rewrite Es2| |done|].
  { eapply Forall2_impl; [exact HF|]. intros i p [Hi1 Hi2]. split; [done|]. rewrite Es2. by rewrite Hl in Hi2. }
  destruct r as [dropped order']. cbn [snd] in Er. subst order'.
  apply bind_inv in E1 as ([] & st4 & E4 & E1). destruct (frames_fill_got _ _ _ E4) as [K3 S4]. injection E1 as <- <-.
  apply bind_inv in E as (x & st5 & E5 & E). apply bind_inv in E as ([] & st6 & [= <-] & E). injection E as -> <- <-.
  destruct can_open; [|apply bind_inv in E5 as (? & ? & _ & [= ]); done].
  apply bind_inv in E5 as (out & st6 & E6 & E5). injection E5 as -> <-.
  set (ps' := List.filter (named (secs st2)) ps) in *.
  assert (length ps' <= length order)%nat as Hlen by (rewrite (Forall2_length _ _ _ HF); apply filter_length_le).
  assert (kept_secs (secs stL) (secs st4)) as K4 by (eapply kept_secs_trans; [exact K1|]; by eapply kept_secs_trans).
  destruct (tcc_output_elf_spec t d off _ ps' _ _ _ E6) as (K5 & entry & He & Him).
  { rewrite S4, S3. cbn [length]. replace (S (length ps') - 1)%nat with (length ps') by lia.
    replace (tail (seqZ 0 (Z.of_nat (S (length order))))) with (seqZ 1 (Z.of_nat (length order))).
    2:{ cbn [length]. rewrite (seqZ_cons 0) by lia. cbn [tail]. apply f_equal2; lia. }
    rewrite take_seqZ by lia. apply seqZ_index. by rewrite S4, S3. }
  { eapply spaced_kept; [|exact K4|apply spaced_filter; exact (laid_out_file _ _ _ _ _ _ _ L)].
    intros e e' K. split; [apply K|by apply kept_file_size]. }
  { apply (lo_end _ _ _ _ _ _ _ L). }
  exists t, d, off, stL, st4, entry, ps'. split; [done|]. split; [by eapply kept_secs_trans|]. split; [done|]. split; [exact K5|]. split; [|done].
  intros p. unfold ps'. rewrite (kept_named _ _ _ K1 HsL). rewrite list_elem_of_In, List.filter_In, <- list_elem_of_In. done.
Qed.
End exe.
