(* ===== verification/TccArchive.v ===== *)
(** Searching an archive ([tcc_load_alacarte] of [src/compiler/tccelf.c]): it ends, loads no member
    twice, and leaves no symbol of the archive's index unresolved. *)
From S2P Require Import Prelude RiscvLink TccElf TccLink TccOutput TccObject TccElfHash.

Section archive.
Context (file : gmap Z Z) (fsize : Z) (can_alloc : Z -> bool) (idx : gmap Z Z) (size entrysize : Z).

(** The state after loading the members at the offsets [l], in that order. *)
Inductive loads : TCCState -> list Z -> TCCState -> Prop :=
  | loads_none st : loads st [] st
  | loads_one st l st1 o st2 : loads st l st1 ->
      tcc_load_object_file file fsize can_alloc (u64 (o + 60)) st1 = Some (Some (), st2) -> loads st (l ++ [o]) st2.

(** The member that defines the entry [i] of the index, and the position of its name after [p], the
    name of entry 0. *)
Definition member_of (i : Z) : Z := get_be (Z.to_nat entrysize) idx (entrysize + i * entrysize) 0.
Definition name_at (p : Z) : list Z := cstr (Z.to_nat (size - p)) idx p.
Fixpoint name_pos (i : nat) (p : Z) : Z :=
  match i with O => p | S i => name_pos i (p + Z.of_nat (length (name_at p)) + 1) end.

(** The linker has no use for another definition of the symbol. *)
Definition settled (nm : list Z) (st : TCCState) : Prop :=
  exists k syms, find_elf_sym (symtab_section st) nm st = Some (k, st) /\ secs st !! symtab_section st = Some syms /\
    let y := sym_at (data syms) k in (k = 0 \/ (st_shndx y <> SHN_UNDEF /\ ST_BIND (st_info y) <> STB_WEAK)).

Lemma find_elf_sym_state s nm st k st' : find_elf_sym s nm st = Some (k, st') -> st' = st.
Proof.
  unfold find_elf_sym, mbind, L_bind, sec, mret, L_ret, tcc_error.
  destruct (secs st !! s) as [syms|]; [|done]. destruct (hash syms =? 0); [naive_solver|].
  destruct (secs st !! hash syms) as [hs|]; [|done]. destruct (secs st !! link syms) as [strs|]; [|done].
  destruct (find_loop _ _ _ _ _ _ _); [naive_solver|done].
Qed.

(** One round: what it adds, and that a round which adds nothing found every entry settled or loaded. *)
Lemma round_spec n i p loaded bound st r st' : 0 <= i ->
  alacarte_round file fsize can_alloc n i p entrysize size idx loaded bound st = Some (r, st') ->
  forall loaded' bound', r = Some (loaded', bound') -> exists new, loaded' = loaded ++ new /\ bound' = bound + Z.of_nat (length new) /\
    (NoDup loaded -> NoDup loaded') /\ (forall o, o ∈ new -> exists j, i <= j < i + Z.of_nat n /\ o = member_of j) /\
    (forall st0, loads st0 loaded st -> loads st0 loaded' st') /\
    (new = [] -> st' = st /\ forall j, (j < n)%nat -> settled (name_at (name_pos j p)) st \/ member_of (i + Z.of_nat j) ∈ loaded).
Proof.
  revert i p loaded bound st. induction n as [|n IH]; intros i p loaded bound st Hi E loaded' bound' Er; subst r; cbn [alacarte_round] in E.
  { injection E as <- <- <-. exists []. rewrite app_nil_r. split; [done|]. split; [cbn; lia|]. split; [done|].
    split; [intros o Ho; by apply elem_of_nil in Ho|]. split; [done|]. intros _. split; [done|]. lia. }
  destruct (size <=? p); [done|]. fold (name_at p) in E. fold (member_of i) in E.
  unfold mbind at 1, L_bind, gets in E. cbv beta iota zeta in E.
  unfold mbind at 1, L_bind in E. destruct (find_elf_sym (symtab_section st) (name_at p) st) as [[k st1]|] eqn:Ef; [|done].
  assert (st1 = st) as -> by (by apply find_elf_sym_state in Ef).
  unfold mbind at 1, L_bind in E. unfold sec at 1 in E. destruct (secs st !! symtab_section st) as [syms|] eqn:Es; [|done].
  destruct (_ || bool_decide (member_of i ∈ loaded)) eqn:Ec.
  - destruct (IH (i + 1) _ loaded bound st ltac:(lia) E loaded' bound' eq_refl) as (new & H1 & H2 & H3 & H4 & H5 & H6).
    exists new. split; [done|]. split; [done|]. split; [done|]. split; [intros o Ho; destruct (H4 o Ho) as (j & Hj & ->); exists j; split; [lia|done]|].
    split; [done|]. intros Hn. destruct (H6 Hn) as [-> H6']. split; [done|]. intros [|j] Hj; cbn [name_pos].
    + rewrite Z.add_0_r. apply orb_true_iff in Ec as [Ec|Ec]; [left|right; by apply bool_decide_eq_true in Ec].
      exists k, syms. split; [done|]. split; [done|]. cbv zeta.
      apply orb_true_iff in Ec as [Ec|Ec]; [left; lia|right]. lia.
    + replace (i + Z.of_nat (S j)) with (i + 1 + Z.of_nat j) by lia. apply H6'. lia.
  - destruct (read_ar_header file fsize (i32 (member_of i))) as [|h]; [done|].
    destruct (negb (bool_decide (ar_fmag h = [96; 10]))); [done|].
    unfold mbind at 1, L_bind in E.
    destruct (tcc_load_object_file file fsize can_alloc (u64 (member_of i + 60)) st) as [[[[]|] st1]|] eqn:El; [|done..].
    destruct (IH (i + 1) _ _ _ st1 ltac:(lia) E loaded' bound' eq_refl) as (new & -> & -> & H3 & H4 & H5 & _).
    apply orb_false_iff in Ec as [_ Ec]. apply bool_decide_eq_false in Ec.
    exists (member_of i :: new). rewrite <- app_assoc in *. split; [done|]. split; [cbn [length]; lia|].
    split; [intros Hd; apply H3, NoDup_app; split; [done|]; split; [intros x Hx Hx'; apply elem_of_cons in Hx' as [->|Hx']; [done|by apply elem_of_nil in Hx']|apply NoDup_singleton]|].
    split; [intros o Ho; apply elem_of_cons in Ho as [->|Ho]; [exists i; split; [lia|done]|destruct (H4 o Ho) as (j & Hj & ->); exists j; split; [lia|done]]|].
    split; [intros st0 Hl; apply H5; by econstructor|done].
Qed.

Lemma rounds_spec fuel nsyms loaded st0 st r st' : 0 <= nsyms -> (Z.to_nat nsyms < fuel + length loaded)%nat ->
  NoDup loaded -> (forall o, o ∈ loaded -> exists j, 0 <= j < nsyms /\ o = member_of j) -> loads st0 loaded st ->
  alacarte_rounds file fsize can_alloc fuel nsyms entrysize size idx loaded st = Some (r, st') ->
  r <> None /\ (r = Some (Some ()) -> exists l, NoDup l /\ (forall o, o ∈ l -> exists j, 0 <= j < nsyms /\ o = member_of j) /\
    loads st0 l st' /\
    forall j, (j < Z.to_nat nsyms)%nat -> settled (name_at (name_pos j (entrysize + nsyms * entrysize))) st' \/ member_of (Z.of_nat j) ∈ l).
Proof.
  intros Hn. revert loaded st. induction fuel as [|fuel IH]; intros loaded st Hf Hd Hin Hl E.
  - exfalso. assert (length loaded <= Z.to_nat nsyms)%nat; [|lia].
    rewrite <- (length_seqZ 0 nsyms), <- (length_map member_of (seqZ 0 nsyms)). apply submseteq_length, NoDup_submseteq; [done|].
    intros o Ho. destruct (Hin o Ho) as (j & Hj & ->). apply list_elem_of_fmap_2, elem_of_seqZ. lia.
  - cbn [alacarte_rounds] in E. unfold mbind at 1, L_bind in E.
    destruct (alacarte_round _ _ _ _ _ _ _ _ _ _ _ _) as [[[[loaded' bound]|] st1]|] eqn:E1; [| |done].
    2:{ injection E as <- <-. done. }
    destruct (round_spec _ _ _ _ _ _ _ _ (Z.le_refl 0) E1 _ _ eq_refl) as (new & -> & -> & H3 & H4 & H5 & H6).
    destruct (Z.eqb_spec (0 + Z.of_nat (length new)) 0) as [E0|E0].
    + injection E as <- <-. split; [done|]. intros _. destruct new; [|cbn in E0; lia]. rewrite app_nil_r in *.
      destruct (H6 eq_refl) as [-> Hset]. exists loaded. split; [done|]. split; [done|]. split; [done|]. exact Hset.
    + apply (IH (loaded ++ new) st1); [rewrite length_app; lia|by apply H3| |by apply H5|done].
      intros o Ho. apply elem_of_app in Ho as [Ho|Ho]; [by apply Hin|]. destruct (H4 o Ho) as (j & Hj & ->). exists j. split; [lia|done].
Qed.
End archive.

(** C18: Searching an archive always comes to an end: the rounds of [tcc_load_alacarte] do not outnumber the
    symbols of the index by more than one.  When it succeeds it has loaded members of the index, each
    of them once, and for every symbol of the index either the linker has no use for another
    definition (it is unknown, or defined and not weak), or the member that defines it was loaded. *)
Theorem alacarte_correct file fsize can_alloc pos size entrysize st r st' : 0 < entrysize ->
  tcc_load_alacarte file fsize can_alloc pos size entrysize st = Some (r, st') ->
  let idx := aputs (full_read file fsize pos size) 0 ∅ in
  let nsyms := i32 (get_be (Z.to_nat entrysize) idx 0 0) in
  r <> None /\ (r = Some (Some ()) -> exists l, NoDup l /\
    (forall o, o ∈ l -> exists j, 0 <= j < nsyms /\ o = member_of idx entrysize j) /\ loads file fsize can_alloc st l st' /\
    forall j, 0 <= j < nsyms ->
      settled (name_at idx size (name_pos idx size (Z.to_nat j) (entrysize + nsyms * entrysize))) st' \/ member_of idx entrysize j ∈ l).
Proof.
  intros He E idx nsyms. unfold tcc_load_alacarte in E. destruct (size <? 0); [done|].
  destruct (negb _); [injection E as <- <-; done|]. destruct (size <? entrysize); [done|]. fold idx nsyms in E.
  destruct (Z_lt_le_dec nsyms 0) as [Hn|Hn].
  - cbn [alacarte_rounds] in E. replace (Z.to_nat nsyms) with 0%nat in E by lia. change (Some (Some (Some ()), st) = Some (r, st')) in E. injection E as <- <-. split; [done|]. intros _. exists [].
    split; [apply NoDup_nil_2|]. split; [intros o Ho; by apply elem_of_nil in Ho|]. split; [constructor|]. lia.
  - destruct (rounds_spec file fsize can_alloc idx size entrysize (S (Z.to_nat nsyms)) nsyms [] st st r st' Hn) as [H1 H2]; [cbn; lia|apply NoDup_nil_2| |constructor|done|].
    { intros o Ho. by apply elem_of_nil in Ho. }
    split; [done|]. intros Hr. destruct (H2 Hr) as (l & Hd & Hin & Hl & Hs). exists l. split; [done|]. split; [done|]. split; [done|].
    intros j Hj. specialize (Hs (Z.to_nat j) ltac:(lia)). by rewrite Z2Nat.id in Hs by lia.
Qed.

(** An object file that defines one symbol, an archive of it with its index, and a program that uses [f]. *)
Definition plenty : Z -> bool := fun _ => true.
Definition object_of (nm : list Z) : list Z :=
  match (tccelf_new plenty;; tccelf_begin_file;;
    t ← gets text_section; s ← gets symtab_section;
    on_sec t (section_ptr_add plenty 4);;
    put_elf_sym plenty s 0 4 (ST_INFO STB_GLOBAL STT_OBJECT) 0 1 nm;;
    tccelf_end_file plenty;;
    elf_output_file false 0 0 plenty (mret ()) true OUTPUT_OBJ (0, 0)) no_sections with
  | Some ((Some out, _), _) => out
  | _ => []
  end.
Definition object_of_f : list Z := object_of (lit "f").
Definition archive_of_f : list Z :=
  [0; 0; 0; 1; 0; 0; 0; 10; 102; 0] ++ replicate 58 32 ++ [96; 10] ++ object_of_f.
Definition uses_f : option TCCState :=
  match (tccelf_new plenty;; s ← gets symtab_section; set_elf_sym plenty s 0 0 (ST_INFO STB_GLOBAL STT_NOTYPE) 0 SHN_UNDEF (lit "f")) no_sections with
  | Some (_, st) => Some st
  | None => None
  end.
#[local] Notation searched st :=
  (tcc_load_alacarte (aputs archive_of_f 0 ∅) (Z.of_nat (length archive_of_f)) plenty 0 10 4 st) (only parsing).
Lemma alacarte_correct_witness : exists st st' l, uses_f = Some st /\ searched st = Some (Some (Some ()), st') /\ NoDup l /\
  loads (aputs archive_of_f 0 ∅) (Z.of_nat (length archive_of_f)) plenty st l st' /\
  get_sym_addr (lit "f") true st = None /\ option_map fst (get_sym_addr (lit "f") true st') = Some 0.
Proof.
  assert (match uses_f with
    | Some st => match searched st with
      | Some (Some (Some ()), st') => get_sym_addr (lit "f") true st = None /\ option_map fst (get_sym_addr (lit "f") true st') = Some 0
      | _ => False
      end
    | None => False
    end) as Hc by (vm_compute; split; reflexivity).
  revert Hc. destruct uses_f as [st|]; [|exact (False_ind _)].
  destruct (searched st) as [[[[[]|]|] st']|] eqn:E; [|exact (False_ind _)..].
  intros [H1 H2].
  destruct (alacarte_correct _ _ _ _ _ 4 _ _ _ (eq_refl : 0 < 4) E) as [_ H].
  destruct (H eq_refl) as (l & Hd & _ & Hl & _). exists st, st', l.
  exact (conj eq_refl (conj E (conj Hd (conj Hl (conj H1 H2))))).
Defined.
