(* ===== verification/TccLoads.v ===== *)
(** From the compiler to the kernel: the executable that the linker ([src/compiler/tccelf.c]) writes, loaded
    by the kernel ([src/kernel/mm/elf.c]), puts every section at the address it was linked for. *)
From S2P Require Import Prelude Pmm Paging PagingInv PagingMap PagingCow Elf ElfLoad RiscvLink TccElf TccLink TccOutput TccElfHash TccLayout TccImage.

#[local] Opaque ENTRIES zero_table.

(** ** Fields of the file *)

Fixpoint lget (n : nat) (l : list Z) (o : Z) : Z := match n with O => 0 | S n => byte_at l o + 256 * lget n l (o + 1) end.
Lemma lget_mem n m data l o : (forall i, o <= i < o + Z.of_nat n -> aget m (data + i) = byte_at l i) -> mget n m (data + o) = lget n l o.
Proof.
  revert o. induction n as [|n IH]; intros o H; cbn [mget lget]; [done|]. rewrite H by lia. f_equal. f_equal.
  rewrite <- Z.add_assoc. apply IH. intros i Hi. apply H. lia.
Qed.
Lemma lget_right n l1 l2 o : Z.of_nat (length l1) <= o -> lget n (l1 ++ l2) o = lget n l2 (o - Z.of_nat (length l1)).
Proof.
  revert o. induction n as [|n IH]; intros o H; cbn [lget]; [done|]. rewrite byte_at_app, IH by lia.
  destruct (Z.ltb_spec o (Z.of_nat (length l1))); [lia|]. do 3 f_equal. lia.
Qed.
Lemma lget_left n l1 l2 o : o + Z.of_nat n <= Z.of_nat (length l1) -> lget n (l1 ++ l2) o = lget n l1 o.
Proof.
  revert o. induction n as [|n IH]; intros o H; cbn [lget]; [done|]. rewrite byte_at_app, IH by lia.
  destruct (Z.ltb_spec o (Z.of_nat (length l1))); [done|lia].
Qed.
Lemma lget_cons n x l o : 0 <= o -> lget n (x :: l) (o + 1) = lget n l o.
Proof. intros H. change (x :: l) with ([x] ++ l). rewrite lget_right by (cbn; lia). f_equal. cbn. lia. Qed.
Lemma lget_le n v : lget n (le n v) 0 = v mod 256 ^ Z.of_nat n.
Proof.
  revert v. induction n as [|n IH]; intros v; cbn [lget le]; [by rewrite Z.mod_1_r|]. rewrite (lget_cons _ _ _ 0), IH by lia.
  change (byte_at (u8 v :: le n (v / 256)) 0) with (v mod 256). rewrite Nat2Z.inj_succ, Z.pow_succ_r by lia.
  rewrite Z.rem_mul_r by lia. done.
Qed.
(** Follows a field into the structure. *)
Ltac field := repeat first
  [ rewrite lget_right by (rewrite ?length_app, ?length_le, ?length_ehdr, ?length_phdr; cbn; lia)
  | rewrite lget_left by (rewrite ?length_app, ?length_le, ?length_ehdr, ?length_phdr; cbn; lia) ];
  rewrite ?length_le, ?length_ehdr, ?length_phdr; cbn [length replicate Z.of_nat]; apply lget_le.

Section fields.
Context (h : Ehdr) (t d : phdr) (rest : list Z).
Let file := ehdr_bytes h ++ phdr_bytes t ++ phdr_bytes d ++ rest.
Ltac header := unfold file; rewrite lget_left by (rewrite length_ehdr; cbn; lia); unfold ehdr_bytes; field.
Lemma get_e_type : lget 2 file 16 = e_type h mod 2 ^ 16. Proof. header. Qed.
Lemma get_e_machine : lget 2 file 18 = EM_RISCV mod 2 ^ 16. Proof. header. Qed.
Lemma get_e_entry : lget 8 file 24 = e_entry h mod 2 ^ 64. Proof. header. Qed.
Lemma get_e_phoff : lget 8 file 32 = e_phoff h mod 2 ^ 64. Proof. header. Qed.
Lemma get_e_phentsize : lget 2 file 54 = e_phentsize h mod 2 ^ 16. Proof. header. Qed.
Lemma get_e_phnum : lget 2 file 56 = e_phnum h mod 2 ^ 16. Proof. header. Qed.
Lemma get_phdr n x l o : 0 <= o -> o + Z.of_nat n <= 56 -> lget n (phdr_bytes x ++ l) o = lget n (phdr_bytes x) o.
Proof. intros H1 H2. apply lget_left. rewrite length_phdr. cbn. lia. Qed.
Lemma get_first n o : 0 <= o -> o + Z.of_nat n <= 56 -> lget n file (64 + o) = lget n (phdr_bytes t) o.
Proof.
  intros H1 H2. unfold file. rewrite lget_right by (rewrite length_ehdr; cbn; lia). rewrite length_ehdr.
  replace (64 + o - Z.of_nat 64) with o by lia. by apply get_phdr.
Qed.
Lemma get_second n o : 0 <= o -> o + Z.of_nat n <= 56 -> lget n file (120 + o) = lget n (phdr_bytes d) o.
Proof.
  intros H1 H2. unfold file. rewrite lget_right by (rewrite length_ehdr; cbn; lia). rewrite length_ehdr, lget_right by (rewrite length_phdr; cbn; lia).
  rewrite length_phdr. replace (120 + o - Z.of_nat 64 - Z.of_nat 56) with o by lia. by apply get_phdr.
Qed.
End fields.

(** The header fields the kernel reads. *)
Definition phdr_read (x : phdr) : Elf.phdr :=
  Elf.Phdr (p_type x mod 2 ^ 32) (p_flags x mod 2 ^ 32) (p_offset x mod 2 ^ 64) (p_vaddr x mod 2 ^ 64) (p_filesz x mod 2 ^ 64) (p_memsz x mod 2 ^ 64).
Lemma read_phdr m a x : (forall n o, 0 <= o -> o + Z.of_nat n <= 56 -> mget n m (a + o) = lget n (phdr_bytes x) o) -> Elf64_Phdr m a = phdr_read x.
Proof.
  intros H. unfold Elf64_Phdr, phdr_read. rewrite <- (Z.add_0_r a) at 1. rewrite !H by (cbn; lia). unfold phdr_bytes. f_equal; field.
Qed.

(** ** The file in memory *)

Section memory.
Context (data : Z) (file : list Z).
Definition in_memory (s : vm) : Prop := forall i, 0 <= i < Z.of_nat (length file) -> aget (vmem s) (data + i) = byte_at file i.
(** Its frames are in use, and are no page tables. *)
Definition file_held (s : vm) : Prop := forall i, 0 <= i < Z.of_nat (length file) -> exists t, held (vpmm s) t /\
  (forall q, path_ok q -> table_at (vmem s) (active_root s) q <> Some t) /\ t <= data + i < t + 4096.
Lemma read_file n s o : in_memory s -> 0 <= o -> o + Z.of_nat n <= Z.of_nat (length file) -> mget n (vmem s) (data + o) = lget n file o.
Proof. intros H H1 H2. apply lget_mem. intros i Hi. apply H. lia. Qed.

(** Loading a segment leaves the file where it is, and frames that were in use. *)
Lemma loaded_file root s pages s' : loaded root s pages s' -> active_root s = root -> in_memory s -> file_held s -> in_memory s' /\ file_held s'.
Proof.
  intros L Ha Hm Hh. split.
  - intros i Hi. destruct (Hh i Hi) as (t & H1 & H2 & H3). rewrite <- Hm by done. rewrite Ha in H2. by apply (ld_stable _ _ _ _ L t).
  - intros i Hi. destruct (Hh i Hi) as (t & H1 & H2 & H3). exists t. split; [by apply (ld_held _ _ _ _ L)|]. split; [|done].
    rewrite (ld_active _ _ _ _ L). rewrite Ha in H2. intros q Hq Ht. destruct (ld_new _ _ _ _ L q t Hq Ht) as [H|H]; [by apply (H2 q)|done].
Qed.

Definition needed (x : phdr) : Z := 3 * seg_pages (p_vaddr x) (p_memsz x).
(** The part of the file a segment wants, and the memory it has. *)
Record loadable (x : phdr) : Prop := {
  la_sizes : 0 <= p_filesz x <= p_memsz x /\ 0 <= p_offset x /\ 0 <= p_vaddr x /\ p_vaddr x + p_memsz x <= 2 ^ 38;
  la_file : p_offset x + p_filesz x <= Z.of_nat (length file) /\ p_offset x + p_filesz x < 2 ^ 31;
  la_type : p_type x = PT_LOAD
}.
Definition seg_byte (x : phdr) (va : Z) : Z :=
  if bool_decide (p_vaddr x <= va < p_vaddr x + p_filesz x) then byte_at file (p_offset x + (va - p_vaddr x)) else 0.
Definition seg_end (x : phdr) : Z := seg_first (p_vaddr x) + 4096 * seg_pages (p_vaddr x) (p_memsz x).

Lemma load_one x s : pt_ok (vmem s) (vpmm s) (active_root s) -> loadable x -> in_memory s -> file_held s -> needed x <= free_pages (vpmm s) ->
  exists s' pages, load_segment data (p_offset x) (p_vaddr x) (p_filesz x) (p_memsz x) s = Some (true, s') /\
    free_pages (vpmm s) - needed x <= free_pages (vpmm s') /\ loaded (active_root s) s pages s' /\
    (forall w, is_Some (pages !! w) -> seg_first (p_vaddr x) <= w < seg_end x /\ w mod 4096 = 0) /\
    forall va, seg_first (p_vaddr x) <= va < seg_end x -> is_Some (pages !! page_start va) /\ user_byte s' va = seg_byte x va.
Proof.
  intros Hpt [Hs Hf _] Hm Hh Hfree.
  destruct (load_segment_pages data (p_offset x) (p_vaddr x) (p_filesz x) (p_memsz x) s Hpt) as [H1 H2]; [lia|lia|lia| |].
  { intros i Hi. destruct (Hh (p_offset x + i) ltac:(lia)) as (t & Ht). exists t. by rewrite <- Z.add_assoc. }
  destruct (H1 Hfree) as (s' & E & Hfr). destruct (H2 s' E) as (pages & L & Hdom & Hu). exists s', pages. split; [done|]. split; [done|].
  split; [done|]. split; [intros w; apply Hdom|]. intros va Hva. destruct (Hu va Hva) as [Hin Eu]. split; [done|]. rewrite Eu. unfold seg_byte.
  case_bool_decide; [|done]. rewrite <- Z.add_assoc. apply Hm. lia.
Qed.

(** Both segments, when they have no page in common. *)
Lemma load_both t d s : pt_ok (vmem s) (vpmm s) (active_root s) -> loadable t -> loadable d -> in_memory s -> file_held s ->
  needed t + needed d <= free_pages (vpmm s) -> (exists b, b mod 4096 = 0 /\ p_vaddr t + p_memsz t <= b <= p_vaddr d) ->
  exists s1 s2, load_segment data (p_offset t) (p_vaddr t) (p_filesz t) (p_memsz t) s = Some (true, s1) /\ in_memory s1 /\
    load_segment data (p_offset d) (p_vaddr d) (p_filesz d) (p_memsz d) s1 = Some (true, s2) /\ in_memory s2 /\
    forall x va, x = t \/ x = d -> p_vaddr x <= va < p_vaddr x + p_memsz x ->
      user_byte s2 va = seg_byte x va /\ paging_get_flags va s2 = USER_FLAGS.
Proof.
  intros Hpt Lt Ld Hm Hh Hfree (b & Hb & Htb & Hbd).
  pose proof (seg_bounds (p_vaddr t) (p_memsz t) ltac:(apply Lt) ltac:(destruct (la_sizes _ Lt); lia) ltac:(apply Lt)) as (_ & _ & Bt1 & Bt2 & Bt3).
  pose proof (seg_bounds (p_vaddr d) (p_memsz d) ltac:(apply Ld) ltac:(destruct (la_sizes _ Ld); lia) ltac:(apply Ld)) as (_ & _ & Bd1 & Bd2 & Bd3).
  unfold needed in Hfree.
  destruct (load_one t s Hpt Lt Hm Hh) as (s1 & pg1 & E1 & F1 & L1 & D1 & U1); [unfold needed; lia|].
  destruct (loaded_file _ _ _ _ L1 eq_refl Hm Hh) as [Hm1 Hh1]. pose proof (ld_active _ _ _ _ L1) as Ha1.
  pose proof (ld_ok _ _ _ _ L1) as Hpt1. rewrite <- Ha1 in Hpt1.
  destruct (load_one d s1 Hpt1 Ld Hm1 Hh1) as (s2 & pg2 & E2 & _ & L2 & D2 & U2); [unfold needed in *; lia|].
  destruct (loaded_file _ _ _ _ L2 eq_refl Hm1 Hh1) as [Hm2 _].
  exists s1, s2. split; [done|]. split; [done|]. split; [done|]. split; [done|].
  assert (seg_end t <= b /\ b <= seg_first (p_vaddr d)) as [Et Ed] by (unfold seg_end, seg_pages, seg_first in *; zlia).
  fold (seg_end t) in Bt3. fold (seg_end d) in Bd3.
  intros x va [-> | ->] Hva.
  - destruct (U1 va ltac:(lia)) as [[f Hf] Eu]. destruct (user_byte_frame _ _ _ _ va f L1 Hf) as [Ef Efl].
    destruct (loaded_outside _ _ _ _ (seg_first (p_vaddr d)) (seg_end d) va L2 eq_refl) as [Ep Eg];
      [unfold seg_first; zlia|unfold seg_end, seg_first; zlia|exact D2|lia|lia|].
    split; [|by rewrite Eg]. rewrite <- Eu. unfold user_byte. rewrite Ep.
    assert (paging_get_phys va s1 = f + va mod 4096) as ->.
    { destruct (frame_byte _ _ _ _ (page_start va) f (va mod 4096) L1 Hf) as [Ex _]; [apply Z.mod_pos_bound; lia|].
      by replace (page_start va + va mod 4096) with va in Ex by (unfold page_start; lia). }
    pose proof (Z.mod_pos_bound va 4096 ltac:(lia)). apply (ld_stable _ _ _ _ L2 f); [by apply (ld_frame _ _ _ _ L1 (page_start va))| |lia].
    intros q Hq Ht. rewrite Ha1 in Ht. by apply (ld_apart _ _ _ _ L1 (page_start va) f q f Hf Hq Ht).
  - destruct (U2 va ltac:(lia)) as [[f Hf] Eu]. split; [done|]. apply (user_byte_frame _ _ _ _ va f L2 Hf).
Qed.

(** ** The loader on such a file *)

Lemma phdr_small x : loadable x -> 0 <= p_flags x < 2 ^ 32 ->
  phdr_read x = Elf.Phdr 1 (p_flags x) (p_offset x) (p_vaddr x) (p_filesz x) (p_memsz x).
Proof. intros [Hs Hf Ht] Hfl. unfold phdr_read. rewrite Ht. change (PT_LOAD mod 2 ^ 32) with 1. rewrite !Z.mod_small by lia. done. Qed.
Lemma segment_valid_ok x : loadable x -> segment_valid (Z.of_nat (length file)) (p_offset x) (p_vaddr x) (p_filesz x) (p_memsz x) = true.
Proof.
  intros [Hs Hf _]. unfold segment_valid. rewrite u64_small by lia.
  repeat (apply andb_true_iff; split); apply Z.leb_le; lia.
Qed.

Lemma elf_load_ok h t d rest s : file = ehdr_bytes h ++ phdr_bytes t ++ phdr_bytes d ++ rest ->
  e_type h = ET_EXEC -> e_phoff h = 64 -> e_phentsize h = 56 -> e_phnum h = 2 ->
  pt_ok (vmem s) (vpmm s) (active_root s) -> loadable t -> loadable d -> in_memory s -> file_held s ->
  needed t + needed d <= free_pages (vpmm s) -> (exists b, b mod 4096 = 0 /\ p_vaddr t + p_memsz t <= b <= p_vaddr d) ->
  p_flags t = Z.lor PF_R PF_X -> p_flags d = Z.lor PF_R PF_W -> p_vaddr t <= e_entry h mod 2 ^ 64 < p_vaddr t + p_memsz t ->
  exists s', elf_load data (Z.of_nat (length file)) s = Some (e_entry h mod 2 ^ 64, s') /\
    forall x va, x = t \/ x = d -> p_vaddr x <= va < p_vaddr x + p_memsz x ->
      user_byte s' va = seg_byte x va /\ paging_get_flags va s' = USER_FLAGS.
Proof.
  intros Ef Hty Hpo Hps Hpn Hpt Lt Ld Hm Hh Hfree Hpg Hft Hfd Hent.
  assert (176 <= Z.of_nat (length file)) as Hlen by (rewrite Ef, !length_app, length_ehdr, !length_phdr; lia).
  destruct (load_both t d s Hpt Lt Ld Hm Hh Hfree Hpg) as (s1 & s2 & E1 & Hm1 & E2 & Hm2 & Hu).
  exists s2. split; [|exact Hu].
  assert (forall sx n o, in_memory sx -> 0 <= o -> o + Z.of_nat n <= 56 -> mget n (vmem sx) (data + 64 + o) = lget n (phdr_bytes t) o) as Ht.
  { intros sx n o Hx H1 H2. rewrite <- Z.add_assoc, (read_file _ _ _ Hx) by lia. rewrite Ef. by apply get_first. }
  assert (forall sx n o, in_memory sx -> 0 <= o -> o + Z.of_nat n <= 56 -> mget n (vmem sx) (data + 64 + 56 + o) = lget n (phdr_bytes d) o) as Hd.
  { intros sx n o Hx H1 H2. replace (data + 64 + 56 + o) with (data + (120 + o)) by lia. rewrite (read_file _ _ _ Hx) by lia. rewrite Ef. by apply get_second. }
  assert (forall sx, in_memory sx -> Elf64_Phdr (vmem sx) (data + 64) = Elf.Phdr 1 (p_flags t) (p_offset t) (p_vaddr t) (p_filesz t) (p_memsz t)) as Rt.
  { intros sx Hx. rewrite (read_phdr _ _ t) by (intros; by apply Ht). apply phdr_small; [done|]. rewrite Hft. done. }
  assert (forall sx, in_memory sx -> Elf64_Phdr (vmem sx) (data + 64 + 56) = Elf.Phdr 1 (p_flags d) (p_offset d) (p_vaddr d) (p_filesz d) (p_memsz d)) as Rd.
  { intros sx Hx. rewrite (read_phdr _ _ d) by (intros; by apply Hd). apply phdr_small; [done|]. rewrite Hfd. done. }
  assert (forall i v, 0 <= i < 5 -> byte_at file i = v -> aget (vmem s) (data + i) = v) as Hb by (intros i v Hi <-; apply Hm; lia).
  unfold elf_load. replace (Z.of_nat (length file) <? 16) with false by lia.
  rewrite <- (Z.add_0_r data) at 1. rewrite (Hb 0 127), (Hb 1 69), (Hb 2 76), (Hb 3 70), (Hb 4 2) by (lia || by rewrite Ef). cbn [Z.eqb Pos.eqb negb orb].
  unfold elf_load64. replace (Z.of_nat (length file) <? 64) with false by lia.
  rewrite !(read_file _ _ _ Hm) by lia.
  rewrite Ef, get_e_machine, get_e_type, get_e_entry, get_e_phoff, get_e_phnum, get_e_phentsize, <- Ef.
  rewrite Hty, Hpo, Hps, Hpn. change (EM_RISCV mod 2 ^ 16 =? 243) with true. change (ET_EXEC mod 2 ^ 16 =? 2) with true.
  change (56 mod 2 ^ 16 =? 56) with true. change (64 mod 2 ^ 64) with 64. change (2 mod 2 ^ 16) with 2. cbn [negb orb].
  replace (Z.of_nat (length file) <? 64) with false by lia. replace ((Z.of_nat (length file) - 64) / 56 <? 2) with false by zlia. cbn [orb].
  change (Z.to_nat 2) with 2%nat. cbn [load_loop].
  rewrite (Rt s Hm). cbn [Elf.p_type Elf.p_flags Elf.p_offset Elf.p_vaddr Elf.p_filesz Elf.p_memsz]. change (1 =? Elf.PT_LOAD) with true. cbn [negb].
  rewrite (segment_valid_ok _ Lt). cbn [negb]. rewrite E1. rewrite (Rt s1 Hm1), (Rd s1 Hm1).
  cbn [Elf.p_type Elf.p_flags Elf.p_offset Elf.p_vaddr Elf.p_filesz Elf.p_memsz]. change (1 =? Elf.PT_LOAD) with true. cbn [negb].
  rewrite (segment_valid_ok _ Ld). cbn [negb]. rewrite E2.
  assert (tst (p_flags t) 1 && (p_vaddr t <=? e_entry h mod 2 ^ 64) && (u64 (e_entry h mod 2 ^ 64 - p_vaddr t) <? p_memsz t) = true) as ->.
  { destruct (la_sizes _ Lt) as (S1 & S2 & S3 & S4). rewrite Hft, u64_small by lia.
    apply andb_true_iff; split; [apply andb_true_iff; split; [done|apply Z.leb_le; lia]|apply Z.ltb_lt; lia]. }
  cbn [orb]. rewrite (read_file _ _ _ Hm2) by lia. rewrite Ef, get_e_entry. done.
Qed.
End memory.

(** ** The executable *)

(** Behind a section without data there is no data of its own segment. *)
Lemma hole m P N lo h p x va : segment_ok m P N lo h -> p ∈ N -> m !! p = Some x -> sh_addr x <= va < sh_addr x + sh_size x ->
  let pos := p_offset h + (va - p_vaddr h) in
  lo <= pos /\ forall q e, q ∈ P -> m !! q = Some e -> sh_offset e + sh_size e <= pos.
Proof.
  intros S Hp Hx Hva pos. split.
  - destruct (spaced_bounds _ _ _ _ _ _ p x (sg_first _ _ _ _ _ S)) as [H _]; [apply elem_of_app; by right|done|]. unfold pos. lia.
  - intros q e Hq He. pose proof (sg_after _ _ _ _ _ _ _ _ _ S Hq Hp He Hx). pose proof (sg_delta _ _ _ _ _ S q e Hq He). unfold pos. lia.
Qed.
Lemma memory_part_intro w st l p s s0 : p ∈ segment_part w st l -> secs st !! p = Some s0 -> moved s0 s -> sh_type s = SHT_NOBITS -> p ∈ memory_part w st l.
Proof.
  intros Hp Hs (a & o & ->) Ht. apply elem_of_app in Hp as [Hp|Hp]; [|done]. exfalso. apply elem_of_sel in Hp as (_ & e & He & Hs').
  assert (e = s0) as -> by congruence. apply andb_true_iff in Hs' as [_ Hs']. apply eqb_prop in Hs'. cbn in Ht. by apply Z.eqb_neq in Hs'.
Qed.
Lemma file_part_type w st l p s s0 : p ∈ file_part w st l \/ p ∈ memory_part w st l -> secs st !! p = Some s0 -> moved s0 s ->
  file_size s = sh_size s /\ p ∈ file_part w st l \/ file_size s = 0.
Proof.
  intros Hp Hs Hm. unfold file_size. destruct (Z.eqb_spec (sh_type s) SHT_NOBITS) as [E|E]; [by right|left]. split; [done|].
  apply (file_part_intro w st l p s s0); [by apply elem_of_app|done..].
Qed.

Lemma laid_out_hole k st st' l t d off p x va : laid_out k st st' l t d off -> p ∈ l -> secs st' !! p = Some x ->
  tst (sh_flags x) SHF_ALLOC = true -> sh_type x = SHT_NOBITS -> sh_addr x <= va < sh_addr x + sh_size x ->
  let h := segment_of t d x in let pos := p_offset h + (va - p_vaddr h) in pos < p_offset h + p_filesz h ->
  HEADERS <= pos < off /\ forall q e, q ∈ segment_part false st l ++ segment_part true st l ++ rest_part st l -> secs st' !! q = Some e ->
    ~ sh_offset e <= pos < sh_offset e + file_size e.
Proof.
  intros L Hp Hx Ha Ht Hva h pos Hpos. destruct (moved_back _ _ _ _ (lo_moved _ _ _ _ _ _ _ L) Hx) as (x0 & Hx0 & Hm).
  pose proof (lo_text _ _ _ _ _ _ _ L) as T. pose proof (lo_data _ _ _ _ _ _ _ L) as D. pose proof (lo_rest _ _ _ _ _ _ _ L) as R.
  pose proof (spaced_le _ _ _ _ _ _ (sg_off _ _ _ _ _ T)) as T1. pose proof (spaced_le _ _ _ _ _ _ (sg_off _ _ _ _ _ D)) as D1.
  pose proof (spaced_le _ _ _ _ _ _ R) as R1. rewrite alloc_segment in Ha.
  assert (p ∈ segment_part (in_segment true x) st l) as Hseg.
  { apply elem_of_segment. split; [done|]. exists x0. split; [done|]. rewrite <- (moved_in_segment _ _ _ Hm). destruct (in_segment true x) eqn:E; [exact E|exact Ha]. }
  pose proof (memory_part_intro _ _ _ _ _ _ Hseg Hx0 Hm Ht) as HpN. unfold segment_of in h.
  assert (forall q e, q ∈ rest_part st l -> secs st' !! q = Some e -> p_offset d + p_filesz d <= sh_offset e) as HR.
  { intros q e Hq He. by apply (spaced_bounds _ _ _ _ _ _ q e R). }
  assert (forall w q e, q ∈ segment_part w st l -> secs st' !! q = Some e -> file_size e = sh_size e /\ q ∈ file_part w st l \/ file_size e = 0) as HF.
  { intros w q e Hq He. destruct (moved_back _ _ _ _ (lo_moved _ _ _ _ _ _ _ L) He) as (e0 & He0 & Hme). apply elem_of_app in Hq. by eapply file_part_type. }
  destruct (in_segment true x); subst h.
  - destruct (hole _ _ _ _ _ _ _ va D HpN Hx Hva) as [H1 H2]. fold pos in H1, H2. split; [lia|]. intros q e Hq He. rewrite !elem_of_app in Hq.
    destruct Hq as [Hq|[Hq|Hq]].
    + destruct (spaced_bounds _ _ _ _ _ _ q e (sg_off _ _ _ _ _ T) Hq He). lia.
    + destruct (HF true q e Hq He) as [[-> Hq']| ->]; [specialize (H2 q e Hq' He)|]; lia.
    + specialize (HR q e Hq He). lia.
  - destruct (hole _ _ _ _ _ _ _ va T HpN Hx Hva) as [H1 H2]. fold pos in H1, H2. split; [lia|]. intros q e Hq He. rewrite !elem_of_app in Hq.
    destruct Hq as [Hq|[Hq|Hq]].
    + destruct (HF false q e Hq He) as [[-> Hq']| ->]; [specialize (H2 q e Hq' He)|]; lia.
    + destruct (spaced_bounds _ _ _ _ _ _ q e (sg_off _ _ _ _ _ D) Hq He). lia.
    + specialize (HR q e Hq He). lia.
Qed.

Lemma kept_back m m' p x : kept_secs m m' -> is_Some (m !! p) -> m' !! p = Some x -> exists x0, m !! p = Some x0 /\ kept x0 x.
Proof. intros K [x0 Hx0] Hx. destruct (K p x0 Hx0) as (x' & Hx' & Kx). exists x0. split; [done|]. assert (x' = x) as -> by congruence. done. Qed.

Lemma image_loadable k st stL l t d off file : laid_out k st stL l t d off -> off <= Z.of_nat (length file) -> loadable file t /\ loadable file d.
Proof.
  intros L Hlen. pose proof (sg_size _ _ _ _ _ (lo_text _ _ _ _ _ _ _ L)) as T. pose proof (sg_size _ _ _ _ _ (lo_data _ _ _ _ _ _ _ L)) as D.
  pose proof (spaced_le _ _ _ _ _ _ (sg_off _ _ _ _ _ (lo_data _ _ _ _ _ _ _ L))). pose proof (spaced_le _ _ _ _ _ _ (lo_rest _ _ _ _ _ _ _ L)).
  destruct (lo_end _ _ _ _ _ _ _ L) as [_ He]. destruct (lo_page _ _ _ _ _ _ _ L) as (_ & b & _ & Hb).
  split; split; try lia; [apply (lo_text _ _ _ _ _ _ _ L)|apply (lo_data _ _ _ _ _ _ _ L)].
Qed.

Lemma image_bytes k st stL l t d off entry ps m file p x j : laid_out k st stL l t d off -> kept_secs (secs stL) m ->
  (forall p, p ∈ ps <-> p ∈ segment_part false st l ++ segment_part true st l ++ rest_part st l /\ named (secs stL) p = true) ->
  image m ps entry t d off file -> sections_ok (secs st) l ->
  (forall p s, p ∈ l -> secs st !! p = Some s -> tst (sh_flags s) SHF_ALLOC = true -> sh_name s <> 0) ->
  p ∈ l -> m !! p = Some x -> tst (sh_flags x) SHF_ALLOC = true -> 0 <= j < sh_size x ->
  exists h, (h = t \/ h = d) /\ p_vaddr h <= sh_addr x + j < p_vaddr h + p_memsz h /\
    seg_byte file h (sh_addr x + j) = if sh_type x =? SHT_NOBITS then 0 else aget (TccElf.data x) j.
Proof.
  intros L K Hps Him Hok Hnm Hp Hx Ha Hj. destruct Him as (_ & _ & _ & _ & _ & Hby & Hze).
  destruct (Hok p Hp) as (s0 & Hs0 & _). destruct (moved_lookup _ _ _ _ (lo_moved _ _ _ _ _ _ _ L) Hs0) as (xL & HxL & Hm0).
  destruct (K p xL HxL) as (x' & Hx' & Kx). assert (x' = x) as -> by congruence.
  destruct Kx as (K1 & K2 & K3 & K4 & K5 & K6). rewrite K2 in Ha. rewrite K3 in Hj.
  destruct (laid_out_in_place _ _ _ _ _ _ _ _ _ L Hp HxL Ha) as (_ & A1 & A2 & A3).
  exists (segment_of t d xL). set (h := segment_of t d xL) in *. split; [unfold h, segment_of; destruct (in_segment true xL); tauto|].
  rewrite K4. split; [lia|]. unfold seg_byte. rewrite K1. destruct (Z.eqb_spec (sh_type xL) SHT_NOBITS) as [Et|Et].
  - case_bool_decide as Hb; [|done].
    destruct (laid_out_hole _ _ _ _ _ _ _ _ _ (sh_addr xL + j) L Hp HxL Ha Et ltac:(lia) ltac:(fold h; lia)) as [H1 H2]. fold h in H1, H2.
    apply Hze; [done|]. intros q e Hq He. apply Hps in Hq as [Hq _].
    assert (is_Some (secs stL !! q)) as HqL.
    { rewrite !elem_of_app, !elem_of_segment in Hq. unfold rest_part in Hq. rewrite elem_of_sel in Hq.
      assert (exists e0, secs st !! q = Some e0) as [e0 He0] by naive_solver.
      destruct (moved_lookup _ _ _ _ (lo_moved _ _ _ _ _ _ _ L) He0) as (e1 & He1 & _). by exists e1. }
    destruct (kept_back _ _ _ _ K HqL He) as (eL & HeL & Ke). rewrite (kept_file_size _ _ Ke). destruct Ke as (_ & _ & _ & _ & -> & _).
    by apply (H2 q eL).
  - destruct (A3 Et) as [A4 A5]. rewrite bool_decide_eq_true_2 by lia.
    rewrite <- (Hby p x j); [|apply Hps; split; [rewrite !elem_of_app; by eapply parts_cover|]|done|by rewrite K1|lia].
    + f_equal. rewrite K5. lia.
    + unfold named. rewrite HxL. destruct Hm0 as (a & o & ->). cbn [sh_name set_sh_addr set_sh_offset]. apply negb_true_iff, Z.eqb_neq.
      by apply (Hnm p s0).
Qed.

(** The memory the two program headers of a file ask the kernel for, page tables included, and the
    address the header says to start at. *)
Definition needed_at (file : list Z) (o : Z) : Z := 3 * seg_pages (lget 8 file (o + 16)) (lget 8 file (o + 40)).
Definition memory_needed (file : list Z) : Z := needed_at file 64 + needed_at file 120.
Definition entry_point (file : list Z) : Z := lget 8 file 24.
Lemma phdr_needed file l x o : (forall n i, 0 <= i -> i + Z.of_nat n <= 56 -> lget n file (o + i) = lget n (phdr_bytes x) i) ->
  loadable l x -> needed_at file o = needed x.
Proof.
  intros H [Hs _ _]. unfold needed_at, needed. rewrite !H by (cbn; lia).
  assert (lget 8 (phdr_bytes x) 16 = p_vaddr x mod 2 ^ 64) as -> by (unfold phdr_bytes; field).
  assert (lget 8 (phdr_bytes x) 40 = p_memsz x mod 2 ^ 64) as -> by (unfold phdr_bytes; field).
  by rewrite !Z.mod_small by lia.
Qed.


(** A program of eight bytes of code with data that refers to it, compiled from nothing and linked. *)
Definition any_size : Z -> bool := fun _ => true.
Definition before_layout : L unit :=
  tccelf_new any_size;; tccelf_begin_file;;
  t ← gets text_section; d ← gets data_section; s ← gets symtab_section;
  on_sec t (section_ptr_add any_size 8);;
  on_sec d (section_ptr_add any_size 16);;
  put_elf_sym any_size s 0 8 (ST_INFO STB_GLOBAL STT_OBJECT) 0 1 (lit "_start");;
  put_elf_reloca any_size s d 8 2 1 4;;
  tccelf_end_file any_size;;
  resolve_common_syms any_size;; build_got_entries any_size;;
  strsec ← new_section (lit ".shstrtab") SHT_STRTAB 0;
  put_elf_str any_size strsec [];;
  alloc_sec_names any_size OUTPUT_EXE strsec.
Definition small_state : TCCState := match before_layout no_sections with Some (_, st) => st | None => no_sections end.
Definition small_run : option (list Z * TCCState) :=
  match write_image false 0 0 any_size true OUTPUT_EXE (0, 0) small_state with Some ((Some f, _), st) => Some (f, st) | _ => None end.
Definition small_file : list Z := match small_run with Some (f, _) => f | None => [] end.

Definition section_okb (d : section) : bool :=
  existsb (fun k => sh_addralign d =? 2 ^ k) (seqZ 0 21) && (0 <=? sh_size d).
Lemma section_okb_ok d : section_okb d = true -> section_ok d.
Proof.
  unfold section_okb, section_ok, pow2. intros [H Hs]%andb_true_iff. split; [|lia].
  apply existsb_exists in H as (k & Hk & E). apply list_elem_of_In, elem_of_seqZ in Hk. exists k. lia.
Qed.
Definition all_sections (f : section -> bool) (m : gmap Z section) (l : list Z) : bool :=
  forallb (fun p => match m !! p with Some d => f d | None => false end) l.
Lemma all_sections_ok f m l p : all_sections f m l = true -> p ∈ l -> exists d, m !! p = Some d /\ f d = true.
Proof. intros H Hp. apply list_elem_of_In in Hp. pose proof (proj1 (forallb_forall _ _) H p Hp) as E. cbn in E. destruct (m !! p) as [d|]; [by exists d|done]. Qed.

Lemma small_linkable : linkable 12 0 0 small_state (tail (sections small_state)).
Proof.
  split.
  - vm_compute. reflexivity.
  - vm_compute. repeat split; congruence.
  - apply (bool_decide_unpack _). vm_compute. exact I.
  - intros p Hp. destruct (all_sections_ok section_okb (secs small_state) (tail (sections small_state)) p) as (d & Hd & H); [vm_compute; reflexivity|done|].
    exists d. split; [done|by apply section_okb_ok].
  - vm_compute. congruence.
  - vm_compute. congruence.
  - vm_compute. congruence.
Qed.
Lemma memory_with_ok file p : pt_ok ∅ p 0x80001000 -> held p 0x80000000 -> Z.of_nat (length file) <= 4096 ->
  forallb (fun b => (0 <=? b) && (b <? 256)) file = true ->
  pt_ok (aputs file 0x80000000 ∅) p 0x80001000 /\ in_memory 0x80000000 file (Vm (aputs file 0x80000000 ∅) p 0x80001000 0) /\
  file_held 0x80000000 file (Vm (aputs file 0x80000000 ∅) p 0x80001000 0).
Proof.
  intros Hpt Hheld Hlen Hf.
  assert (forall a, aget (aputs file 0x80000000 ∅) a = if bool_decide (0x80000000 <= a < 0x80000000 + Z.of_nat (length file)) then byte_at file (a - 0x80000000) else 0) as Hg.
  { intros a. rewrite aget_aputs. case_bool_decide; [|apply aget_empty]. unfold byte_at. destruct (Z.ltb_spec (a - 0x80000000) 0); [lia|done]. }
  assert (bytes_ok (aputs file 0x80000000 ∅)) as Hb.
  { intros a. rewrite Hg. case_bool_decide; [|lia]. unfold byte_at. destruct (_ <? 0); [lia|].
    destruct (nth_in_or_default (Z.to_nat (a - 0x80000000)) file 0) as [Hin| ->]; [|lia].
    pose proof (proj1 (forallb_forall _ _) Hf _ Hin) as E. cbv beta in E. lia. }
  destruct (pt_ok_frame ∅ (aputs file 0x80000000 ∅) p p 0x80001000 Hpt Hb (pt_pmm _ _ _ Hpt) eq_refl) as (A & B & _).
  { intros q t Hq Ht. split; [by apply (pt_held _ _ _ Hpt q)|]. apply empty_tables in Ht as [_ ->]. intros a Ha.
    rewrite Hg, bool_decide_eq_false_2 by lia. by rewrite aget_empty. }
  split; [exact A|]. split.
  - intros i Hi. cbn [vmem]. rewrite Hg, bool_decide_eq_true_2 by lia. f_equal. lia.
  - intros i Hi. exists 0x80000000. split; [exact Hheld|]. split; [|lia].
    intros q Hq Ht. cbn [vmem active_root] in Ht. rewrite B in Ht by done. apply empty_tables in Ht as [_ Ht]. discriminate Ht.
Qed.
Lemma small_pt_ok : pt_ok ∅ pmm_example 0x80001000.
Proof.
  destruct pmm_example_ok as [H E]. apply empty_pt_ok; [exact H|rewrite E; discriminate|rewrite E; reflexivity|].
  exists 1; vm_compute; repeat split; congruence.
Qed.
Lemma small_memory_held : held pmm_example 0x80000000.
Proof. exists 0; vm_compute; repeat split; congruence. Qed.
Lemma small_named p x : p ∈ tail (sections small_state) -> secs small_state !! p = Some x -> tst (sh_flags x) SHF_ALLOC = true -> sh_name x <> 0.
Proof.
  intros Hp Hx Ha. destruct (all_sections_ok (fun x => negb (tst (sh_flags x) SHF_ALLOC) || negb (sh_name x =? 0)) (secs small_state)
    (tail (sections small_state)) p) as (d & Hd & H); [vm_compute; reflexivity|done|].
  assert (d = x) as -> by congruence. rewrite Ha in H. cbn in H. lia.
Qed.
Definition small_final : TCCState := match small_run with Some (_, st) => st | None => small_state end.
Lemma small_run_ok : exists hi', write_image false 0 0 any_size true OUTPUT_EXE (0, 0) small_state = Some ((Some small_file, hi'), small_final).
Proof.
  assert (bool_decide (is_Some small_run) = true) as H by (vm_compute; reflexivity). revert H. unfold small_final, small_file, small_run.
  destruct (write_image false 0 0 any_size true OUTPUT_EXE (0, 0) small_state) as [[[[f|] hi'] st']|]; [|discriminate|discriminate].
  intros _. by exists hi'.
Qed.
Lemma small_text : exists x, secs small_final !! 1 = Some x /\ in_segment false x = true /\ sh_addr x <= entry_point small_file < sh_addr x + sh_size x.
Proof. destruct (secs small_final !! 1) as [x|] eqn:E; vm_compute in E; [|done]. exists x. injection E as <-. split; [done|]. split; [done|]. vm_compute. split; congruence. Qed.
Lemma small_data : exists x, secs small_final !! 2 = Some x /\ tst (sh_flags x) SHF_ALLOC = true /\ sh_addr x = 69816 /\ sh_size x = 16 /\
  (sh_type x =? SHT_NOBITS) = false /\ aget (TccElf.data x) 8 = 180.
Proof. destruct (secs small_final !! 2) as [x|] eqn:E; vm_compute in E; [|done]. exists x. injection E as <-. by vm_compute. Qed.
Lemma small_lists : 1 ∈ tail (sections small_state) /\ 2 ∈ tail (sections small_state).
Proof. split; apply (bool_decide_unpack _); vm_compute; exact I. Qed.
Lemma small_fits : Z.of_nat (length small_file) <= 4096 /\ forallb (fun b => (0 <=? b) && (b <? 256)) small_file = true /\
  memory_needed small_file <= free_pages pmm_example.
Proof. split; [|split]; vm_compute; congruence. Qed.

#[local] Opaque small_file small_state small_final pmm_example.
