(* ===== verification/TccAr.v ===== *)
(** The archiver of the compiler ([tcc_tool_ar] of [src/compiler/tcctools.c]) and the linker's view of the
    archives it writes: every symbol of the index leads to the member that defines it.

    An object file is read whole into a buffer.  [None] is a read outside the buffer, or through a
    pointer into the buffer of an earlier object, which was freed: [symtab] and [strtab] are not
    reset between objects. *)
From S2P Require Import Prelude RiscvLink TccElf TccLink TccOutput TccObject TccElfHash TccImage TccArchive.

Definition le2belong (ul : Z) : Z :=
  u64 (Z.shiftr (Z.land ul 0xFF0000) 8 + Z.shiftr (Z.land ul 0xFF000000) 24 + Z.shiftl (Z.land ul 0xFF) 24 + Z.shiftl (Z.land ul 0xFF00) 8).

(** [sprintf(stmp, "%-10d", v)]. *)
Fixpoint decimal (n : nat) (v : Z) (l : list Z) : list Z :=
  match n with
  | O => l
  | S n => let l := 48 + v mod 10 :: l in if v <? 10 then l else decimal n (v / 10) l
  end.
Definition spaces (n : nat) : list Z := replicate n 32.
Definition printf_10d (v : Z) : list Z :=
  let s := if v <? 0 then 45 :: decimal 10 (- v) [] else decimal 10 v [] in s ++ spaces (10 - length s).

Definition ARMAG : list Z := lit "!<arch>" ++ [10].
Definition ARFMAG : list Z := [96; 10].
(** An archive header with the name, mode and size fields given. *)
Definition arhdr_bytes (ar_name ar_mode ar_size : list Z) : list Z :=
  ar_name ++ spaces 12 ++ (lit "0" ++ spaces 5) ++ (lit "0" ++ spaces 5) ++ ar_mode ++ ar_size ++ ARFMAG.

(** [symtab] and [strtab] of the code: the object whose buffer they point into, and the offset. *)
Record tables := Tables { symtab : option (Z * Z); symtabsize : Z; strtab : option (Z * Z) }.

Section buffer.
Context (buf : gmap Z Z) (fsize : Z).
Definition peek (n : nat) (p : Z) : option Z :=
  if (0 <=? p) && (p + Z.of_nat n <=? fsize) then Some (mget n buf p) else None.
(** [!strcmp(p, l)]. *)
Fixpoint streq (l : list Z) (p : Z) : option bool :=
  b ← peek 1 p;
  match l with
  | [] => Some (b =? 0)
  | c :: l => if b =? c then streq l (p + 1) else Some false
  end.
Definition peek_str (p : Z) : option (list Z) :=
  let s := cstr (Z.to_nat (fsize - p)) buf p in
  if (0 <=? p) && (p + Z.of_nat (length s) <? fsize) then Some s else None.

Context (k : Z).
(** A pointer into the buffer of object [k]. *)
Definition deref (p : option (Z * Z)) : option Z :=
  match p with Some (j, off) => if j =? k then Some off else None | None => None end.

Fixpoint ar_sections (n : nat) (i e_shoff e_shentsize shstr : Z) (t : tables) : option tables :=
  match n with
  | O => Some t
  | S n =>
      let p := e_shoff + i * e_shentsize in
      sh_offset ← peek 8 (p + 24);
      if sh_offset =? 0 then ar_sections n (i + 1) e_shoff e_shentsize shstr t
      else
        sh_type ← peek 4 (p + 4);
        t ← (if sh_type =? SHT_SYMTAB then
               sh_size ← peek 8 (p + 32);
               Some (Tables (Some (k, sh_offset)) (i32 sh_size) (strtab t))
             else Some t);
        t ← (if sh_type =? SHT_STRTAB then
               sh_name ← peek 4 p;
               eq ← streq (lit ".strtab") (shstr + sh_name);
               Some (if eq : bool then Tables (symtab t) (symtabsize t) (Some (k, sh_offset)) else t)
             else Some t);
        ar_sections n (i + 1) e_shoff e_shentsize shstr t
  end.

(** The names of the symbols from number [i] on that the index lists. *)
Fixpoint ar_symbols (n : nat) (i : Z) (t : tables) : option (list (list Z)) :=
  match n with
  | O => Some []
  | S n =>
      sym ← deref (symtab t);
      let p := sym + i * 24 in
      st_shndx ← peek 2 (p + 6);
      listed ← (if st_shndx =? SHN_UNDEF then Some false else st_info ← peek 1 (p + 4); Some (negb (ST_BIND st_info =? STB_LOCAL)));
      if listed : bool then
        str ← deref (strtab t);
        st_name ← peek 4 p;
        nm ← peek_str (str + st_name);
        l ← ar_symbols n (i + 1) t;
        Some (nm :: l)
      else ar_symbols n (i + 1) t
  end.

(** One object: [None] in the result is the refusal of another ELF class. *)
Definition ar_object (t : tables) : option (option (tables * list (list Z))) :=
  class ← peek 1 4;
  if negb (class =? 2) then Some None
  else
    e_shoff ← peek 8 40; e_shentsize ← peek 2 58; e_shnum ← peek 2 60; e_shstrndx ← peek 2 62;
    shstr ← peek 8 (e_shoff + e_shstrndx * e_shentsize + 24);
    t ← ar_sections (Z.to_nat e_shnum) 0 e_shoff e_shentsize shstr t;
    let nsym := i32 (u64 (symtabsize t) / 24) in
    names ← (if bool_decide (symtab t = None) || (symtabsize t =? 0) then Some [] else ar_symbols (Z.to_nat (nsym - 1)) 1 t);
    Some (Some (t, names)).
End buffer.

(** [name] of the code: what follows the last [/] or [\]. *)
Fixpoint basename (l name : list Z) : list Z :=
  match l with
  | [] => name
  | c :: l => basename l (if (c =? 47) || (c =? 92) then l else name)
  end.
Definition member_name (file : list Z) : list Z :=
  let name := firstn 15 (basename file file) in name ++ [47] ++ spaces (15 - length name).
Definition member_header (file : list Z) (fsize : Z) : list Z :=
  arhdr_bytes (member_name file) (lit "100666" ++ spaces 2) (printf_10d fsize).

(** The state of the loop over the objects: [anames] with their terminators, [afpos] from 1 on,
    the members written to the temporary file. *)
Record archiver := Archiver { tabs : tables; anames : list Z; afpos : list Z; fpos : Z; members : list Z }.
Definition ar_init : archiver := Archiver (Tables None 0 None) [] [] 0 [].
Fixpoint ar_loop (k : Z) (files : list (list Z * option (list Z))) (a : archiver) : option (option archiver) :=
  match files with
  | [] => Some (Some a)
  | (_, None) :: _ => Some None
  | (file, Some buf) :: files =>
      let fsize := i32 (Z.of_nat (length buf)) in
      r ← ar_object (aputs buf 0 ∅) fsize k (tabs a);
      match r with
      | None => Some None
      | Some (t, names) =>
          ar_loop (k + 1) files
            (Archiver t (anames a ++ List.concat (map (fun nm => nm ++ [0]) names)) (afpos a ++ map (fun _ => fpos a) names)
              (i32 (fpos a + fsize + 60)) (members a ++ member_header file fsize ++ buf))
      end
  end.

(** The archive from the state after the loop. *)
Definition ar_hofs (a : archiver) : Z := i32 (8 + 60 + Z.of_nat (length (anames a)) + (Z.of_nat (length (afpos a)) + 1) * 4).
Definition ar_index_size (a : archiver) : Z := i32 (Z.of_nat (length (anames a)) + (Z.of_nat (length (afpos a)) + 1) * 4).
Definition ar_index (a : archiver) : list Z :=
  let hofs := ar_hofs a + ar_hofs a mod 2 in
  le 4 (i32 (le2belong (u64 (Z.of_nat (length (afpos a)))))) ++
  List.concat (map (fun v => le 4 (i32 (le2belong (u64 (i32 (v + hofs)))))) (afpos a)) ++ anames a.
Definition ar_output (a : archiver) : list Z :=
  ARMAG ++ arhdr_bytes (lit "/" ++ spaces 15) (lit "0" ++ spaces 7) (printf_10d (ar_index_size a)) ++
  ar_index a ++ replicate (Z.to_nat (ar_hofs a mod 2)) 0 ++ members a.

(** [tcc -ar options lib files]: the exit code and what the library file then holds.  [can_open]:
    whether the library and the temporary file can be created. *)
Definition tcc_tool_ar (can_open : bool) (options : list Z) (files : list (list Z * option (list Z))) : option (Z * list Z) :=
  if bool_decide (files = []) || negb (forallb (fun c => bool_decide (c ∈ lit "rcsv")) options) then Some (1, [])
  else if negb can_open then Some (2, [])
  else
    r ← ar_loop 0 files ar_init;
    match r with
    | None => Some (2, [])
    | Some a => Some (0, ar_output a)
    end.

(** ** Numbers in headers *)

Lemma decimal_spec n v : 0 <= v < 10 ^ Z.of_nat n -> (1 <= n)%nat -> exists d, (forall l, decimal n v l = d ++ l) /\
  (forall m, (1 <= m)%nat -> v < 10 ^ Z.of_nat m -> (length d <= m)%nat) /\ Forall (fun c => 48 <= c <= 57) d /\ (0 < v -> hd 0 d <> 48) /\ d <> [] /\
  forall acc l, digits 10 acc (d ++ l) = digits 10 (acc * 10 ^ Z.of_nat (length d) + v) l.
Proof.
  revert v. induction n as [|n IH]; intros v Hv Hn; [lia|]. cbn [decimal].
  pose proof (Z.mod_pos_bound v 10 ltac:(lia)) as Hm.
  assert (forall acc l, digits 10 acc ((48 + v mod 10) :: l) = digits 10 (10 * acc + v mod 10) l) as Hd.
  { intros acc l. cbn [digits]. assert (digit (48 + v mod 10) = v mod 10) as -> by (unfold digit; destruct (Z.leb_spec 48 (48 + v mod 10)), (Z.leb_spec (48 + v mod 10) 57); cbn [andb]; lia).
    replace (v mod 10 <? 10) with true by lia. done. }
  destruct (Z.ltb_spec v 10) as [H|H].
  - exists [48 + v mod 10]. rewrite Z.mod_small in * by lia. split; [done|]. split; [intros; cbn; lia|]. split; [repeat constructor; lia|].
    split; [cbn; lia|]. split; [done|]. intros acc l. cbn [app]. rewrite Hd. cbn [length Z.of_nat]. f_equal. lia.
  - assert (0 <= v / 10 < 10 ^ Z.of_nat n) as Hq by (rewrite Nat2Z.inj_succ, Z.pow_succ_r in Hv by lia; zlia).
    destruct (IH (v / 10) Hq) as (d & Ed & Hlen & Hdig & Hhd & Hne & Hv').
    { destruct n; [cbn in Hq; zlia|lia]. }
    exists (d ++ [48 + v mod 10]). split; [intros l; by rewrite Ed, <- app_assoc|]. split.
    { intros m Hm1 Hvm. rewrite length_app. cbn [length]. destruct m as [|m]; [lia|]. rewrite Nat2Z.inj_succ, Z.pow_succ_r in Hvm by lia.
      destruct m as [|m]; [cbn in Hvm; lia|]. assert (length d <= S m)%nat; [apply Hlen; [lia|zlia]|lia]. }
    split; [apply Forall_app; split; [done|repeat constructor; lia]|]. split; [destruct d; [done|]; cbn; intros _; apply Hhd; zlia|].
    split; [by destruct d|]. intros acc l. rewrite <- app_assoc, Hv'. cbn [app]. rewrite Hd. f_equal.
    rewrite length_app. cbn [length]. rewrite Nat2Z.inj_add, Z.pow_add_r by lia. change (10 ^ Z.of_nat 1) with 10. pose proof (Z.div_mod v 10). lia.
Qed.
Lemma digits_stop base v l : (match l with [] => True | c :: _ => base <= digit c end) -> digits base v l = v.
Proof. destruct l as [|c l]; intros H; [done|]. cbn [digits]. by replace (digit c <? base) with false by lia. Qed.
Lemma length_printf v : 0 <= v < 10 ^ 10 -> length (printf_10d v) = 10%nat.
Proof.
  intros Hv. destruct (decimal_spec 10 v Hv ltac:(lia)) as (d & Ed & Hlen & _). unfold printf_10d. replace (v <? 0) with false by lia.
  rewrite Ed, app_nil_r, length_app. unfold spaces. rewrite length_replicate. pose proof (Hlen 10%nat ltac:(lia) ltac:(lia)). lia.
Qed.
Lemma upto_nul_app l l' : Forall (fun c => c <> 0) l -> upto_nul (l ++ l') = l ++ upto_nul l'.
Proof. induction 1 as [|c l Hc _ IH]; [done|]. cbn [app upto_nul]. replace (c =? 0) with false by lia. by rewrite IH. Qed.
Lemma based_digits v d l : 0 < v -> Forall (fun c => 48 <= c <= 57) d -> hd 0 d <> 48 -> d <> [] -> based (d ++ l) = digits 10 0 (d ++ l).
Proof.
  intros Hv Hd H0 Hne. destruct d as [|c d]; [done|]. inversion Hd as [|? ? Hc _]; subst. cbn in H0. cbn [app]. unfold based.
  repeat (destruct c as [|c|c]; try lia; try done).
Qed.
(** The reader gets back the number the writer put into a size field of ten characters. *)
Lemma strtol_printf v : 0 < v < 10 ^ 9 -> strtol (upto_nul (firstn 9 (printf_10d v))) = v.
Proof.
  intros Hv. destruct (decimal_spec 10 v ltac:(lia) ltac:(lia)) as (d & Ed & Hlen & Hd & Hhd & Hne & Hdig).
  pose proof (Hlen 9%nat ltac:(lia) ltac:(lia)) as H9. unfold printf_10d. replace (v <? 0) with false by lia. rewrite Ed, app_nil_r.
  rewrite firstn_app, firstn_all2 by lia. unfold spaces. rewrite take_replicate, upto_nul_app by (eapply Forall_impl; [exact Hd|cbn; lia]).
  assert (upto_nul (replicate (Nat.min (9 - length d) (10 - length d)) 32) = replicate (9 - length d) 32) as ->.
  { replace (Nat.min _ _) with (9 - length d)%nat by lia. generalize (9 - length d)%nat. intros n. induction n as [|n IH]; [done|]. cbn [replicate upto_nul]. by rewrite IH. }
  destruct d as [|c d']; [done|]. inversion Hd as [|? ? Hc _]; subst.
  assert (strtol ((c :: d') ++ replicate (9 - length (c :: d')) 32) = based ((c :: d') ++ replicate (9 - length (c :: d')) 32)) as ->.
  { cbn [app strtol]. replace (c =? 32) with false by lia. replace (c <=? 13) with false by lia. rewrite andb_false_r. cbn [orb].
    replace (c =? 45) with false by lia. by replace (c =? 43) with false by lia. }
  rewrite (based_digits v) by (done || lia || by apply Hhd). rewrite Hdig. apply digits_stop. by destruct (9 - length (c :: d'))%nat.
Qed.

(** ** Big-endian words *)

Lemma land_byte v k : 0 <= k -> Z.land v (255 * 2 ^ k) = (v / 2 ^ k) mod 256 * 2 ^ k.
Proof.
  intros Hk. rewrite <- !Z.shiftl_mul_pow2, <- Z.shiftr_div_pow2 by lia. change 256 with (2 ^ 8). rewrite <- Z.land_ones by lia. change (Z.ones 8) with 255.
  apply Z.bits_inj'. intros i Hi. rewrite Z.land_spec. destruct (Z.lt_ge_cases i k); [by rewrite !Z.shiftl_spec_low, andb_false_r by lia|].
  rewrite !Z.shiftl_spec, Z.land_spec, Z.shiftr_spec by lia. by replace (i - k + k) with i by lia.
Qed.
Lemma le2belong_bytes v : 0 <= v < 2 ^ 32 ->
  le 4 (i32 (le2belong v)) = [v / 2 ^ 24; v / 2 ^ 16 mod 256; v / 2 ^ 8 mod 256; v mod 256].
Proof.
  intros Hv. unfold le2belong. change 0xFF0000 with (255 * 2 ^ 16). change 0xFF000000 with (255 * 2 ^ 24). change 0xFF00 with (255 * 2 ^ 8).
  replace 0xFF with (255 * 2 ^ 0) by done. rewrite !land_byte, !Z.shiftr_div_pow2, !Z.shiftl_mul_pow2 by lia.
  change (2 ^ 0) with 1. rewrite Z.div_1_r, Z.mul_1_r.
  set (b0 := v mod 256). set (b1 := v / 2 ^ 8 mod 256). set (b2 := v / 2 ^ 16 mod 256).
  assert (v / 2 ^ 24 mod 256 = v / 2 ^ 24) as -> by zlia. set (b3 := v / 2 ^ 24).
  assert (0 <= b0 < 256 /\ 0 <= b1 < 256 /\ 0 <= b2 < 256 /\ 0 <= b3 < 256) as (H0 & H1 & H2 & H3) by (unfold b0, b1, b2, b3; zlia).
  replace (b2 * 2 ^ 16 / 2 ^ 8) with (b2 * 2 ^ 8) by zlia. replace (b3 * 2 ^ 24 / 2 ^ 24) with b3 by zlia.
  clearbody b0 b1 b2 b3. unfold u64, i32. cbn [le]. unfold u8. repeat f_equal; zlia.
Qed.
(** A word as [get_be] reads it. *)
Lemma get_be_word d b v : 0 <= v < 2 ^ 32 -> (forall i, 0 <= i < 4 -> aget d (b + i) = byte_at (le 4 (i32 (le2belong v))) i) -> get_be 4 d b 0 = v.
Proof.
  intros Hv H. rewrite le2belong_bytes in H by done. cbn [get_be].
  pose proof (H 0 ltac:(lia)) as A0. pose proof (H 1 ltac:(lia)) as A1. pose proof (H 2 ltac:(lia)) as A2. pose proof (H 3 ltac:(lia)) as A3.
  change (byte_at _ 0) with (v / 2 ^ 24) in A0. change (byte_at _ 1) with (v / 2 ^ 16 mod 256) in A1.
  change (byte_at _ 2) with (v / 2 ^ 8 mod 256) in A2. change (byte_at _ 3) with (v mod 256) in A3.
  rewrite Z.add_0_r in A0. replace (b + 1 + 1) with (b + 2) by lia. replace (b + 2 + 1) with (b + 3) by lia. rewrite A0, A1, A2, A3.
  assert (forall x y, 0 <= x < 2 ^ 24 -> 0 <= y < 256 -> u64 (Z.lor (Z.shiftl x 8) y) = 256 * x + y) as E.
  { intros x y Hx Hy. rewrite Z.shiftl_mul_pow2, (lor_add x y 8) by lia. rewrite u64_small; lia. }
  rewrite (E 0 (v / 2 ^ 24)), (E _ (v / 2 ^ 16 mod 256)), (E _ (v / 2 ^ 8 mod 256)), (E _ (v mod 256)) by zlia. zlia.
Qed.

(** ** What an object exports *)

(** The names the archiver lists for an object, on its own. *)
Definition exports (content : list Z) : option (list (list Z)) :=
  r ← ar_object (aputs content 0 ∅) (Z.of_nat (length content)) 0 (Tables None 0 None);
  snd <$> r.

(** The tables of a run over object [k] and of the run of [exports]: what is left from earlier objects
    is not there in the latter. *)
Definition same_pointer (k : Z) (p p0 : option (Z * Z)) : Prop :=
  (exists off, p = Some (k, off) /\ p0 = Some (0, off)) \/ (p0 = None /\ forall j off, p = Some (j, off) -> j < k).
Definition same_tables (k : Z) (t t0 : tables) : Prop :=
  same_pointer k (symtab t) (symtab t0) /\ same_pointer k (strtab t) (strtab t0) /\ (symtab t0 <> None -> symtabsize t0 = symtabsize t).
Definition older (k : Z) (t : tables) : Prop :=
  (forall j off, symtab t = Some (j, off) -> j < k) /\ (forall j off, strtab t = Some (j, off) -> j < k).
Lemma same_old k t : older k t -> same_tables k t (Tables None 0 None).
Proof. intros [H1 H2]. split; [by right|]. split; [by right|done]. Qed.
Lemma same_older k t t0 : same_tables k t t0 -> older (k + 1) t.
Proof.
  intros (H1 & H2 & _). split; intros j off E.
  - destruct H1 as [(o & E' & _)|[_ H]]; [|apply H in E; lia]. rewrite E in E'. injection E' as -> _. lia.
  - destruct H2 as [(o & E' & _)|[_ H]]; [|apply H in E; lia]. rewrite E in E'. injection E' as -> _. lia.
Qed.
Lemma same_deref k p p0 off : same_pointer k p p0 -> deref k p = Some off -> deref 0 p0 = Some off.
Proof.
  intros [(o & -> & ->)|[-> H]]; cbn; [by rewrite Z.eqb_refl|]. destruct p as [[j o]|]; [|done]. cbn.
  specialize (H j o eq_refl). replace (j =? k) with false by lia. done.
Qed.

Section buffer_facts.
Context (buf : gmap Z Z) (fsize k : Z).
Lemma same_sections n i e_shoff e_shentsize shstr t t0 t' : same_tables k t t0 -> ar_sections buf fsize k n i e_shoff e_shentsize shstr t = Some t' ->
  exists t0', ar_sections buf fsize 0 n i e_shoff e_shentsize shstr t0 = Some t0' /\ same_tables k t' t0'.
Proof.
  revert i t t0. induction n as [|n IH]; intros i t t0 R E; cbn [ar_sections] in *; [injection E as <-; by exists t0|].
  apply bind_Some in E as (off & E1 & E). rewrite E1. cbn [mbind option_bind]. destruct (off =? 0); [by apply (IH _ t)|].
  apply bind_Some in E as (ty & E2 & E). rewrite E2. cbn [mbind option_bind].
  apply bind_Some in E as (t1 & E3 & E). apply bind_Some in E as (t2 & E4 & E).
  assert (exists t1', (if ty =? SHT_SYMTAB then sh_size ← peek buf fsize 8 (e_shoff + i * e_shentsize + 32); Some (Tables (Some (0, off)) (i32 sh_size) (strtab t0)) else Some t0) = Some t1' /\ same_tables k t1 t1') as (t1' & -> & R1).
  { destruct (ty =? SHT_SYMTAB); [|injection E3 as <-; by exists t0]. apply bind_Some in E3 as (sz & -> & [= <-]). eexists. split; [done|].
    destruct R as (_ & R2 & _). split; [left; by exists off|]. by split. }
  assert (exists t2', (if ty =? SHT_STRTAB then sh_name ← peek buf fsize 4 (e_shoff + i * e_shentsize); eq ← streq buf fsize (lit ".strtab") (shstr + sh_name);
    Some (if eq : bool then Tables (symtab t1') (symtabsize t1') (Some (0, off)) else t1') else Some t1') = Some t2' /\ same_tables k t2 t2') as (t2' & Eb & R2).
  { destruct (ty =? SHT_STRTAB); [|injection E4 as <-; by exists t1']. apply bind_Some in E4 as (sn & -> & E4). apply bind_Some in E4 as (eq & E5 & [= <-]). cbn [mbind option_bind].
    rewrite E5. eexists. split; [done|]. destruct eq; [|done]. destruct R1 as (R1 & _ & R3). split; [done|]. split; [left; by exists off|done]. }
  cbn [mbind option_bind] in *. rewrite Eb. by apply (IH _ t2).
Qed.
Lemma same_symbols n i t t0 l : same_tables k t t0 -> ar_symbols buf fsize k n i t = Some l -> ar_symbols buf fsize 0 n i t0 = Some l.
Proof.
  intros (R1 & R2 & _). revert i l. induction n as [|n IH]; intros i l E; cbn [ar_symbols] in *; [done|].
  apply bind_Some in E as (sym & E1 & E). rewrite (same_deref _ _ _ _ R1 E1). cbn [mbind option_bind].
  apply bind_Some in E as (x & E2 & E). rewrite E2. cbn [mbind option_bind]. apply bind_Some in E as (b & E3 & E). rewrite E3. cbn [mbind option_bind].
  destruct b; [|by apply IH]. apply bind_Some in E as (str & E4 & E). rewrite (same_deref _ _ _ _ R2 E4). cbn [mbind option_bind].
  apply bind_Some in E as (nn & E5 & E). rewrite E5. cbn [mbind option_bind]. apply bind_Some in E as (nm & E6 & E). rewrite E6. cbn [mbind option_bind].
  apply bind_Some in E as (l' & E7 & [= <-]). by rewrite (IH _ _ E7).
Qed.
End buffer_facts.

Lemma object_exports content k t t' names : older k t ->
  ar_object (aputs content 0 ∅) (Z.of_nat (length content)) k t = Some (Some (t', names)) -> exports content = Some names /\ older (k + 1) t'.
Proof.
  intros Ho E. unfold exports, ar_object in *. apply bind_Some in E as (c & -> & E). cbn [mbind option_bind]. destruct (c =? 2); [|done]. cbn [negb] in *.
  do 4 (apply bind_Some in E as (? & -> & E); cbn [mbind option_bind]). apply bind_Some in E as (shstr & -> & E). cbn [mbind option_bind].
  apply bind_Some in E as (t1 & E1 & E). destruct (same_sections _ _ _ _ _ _ _ _ _ _ _ (same_old _ _ Ho) E1) as (t0 & -> & R). cbn [mbind option_bind].
  apply bind_Some in E as (l & E2 & [= <- <-]). split; [|by eapply same_older].
  assert ((if bool_decide (symtab t0 = None) || (symtabsize t0 =? 0) then Some [] else
    ar_symbols (aputs content 0 ∅) (Z.of_nat (length content)) 0 (Z.to_nat (i32 (u64 (symtabsize t0) / 24) - 1)) 1 t0) = Some l) as ->; [|done].
  destruct R as (R1 & R2 & R3). destruct R1 as [(off & E3 & E4)|[E4 H]].
  - rewrite R3 by congruence. rewrite E4. rewrite E3 in E2. cbn [bool_decide decide] in E2 |- *. revert E2.
    rewrite (bool_decide_eq_false_2 (Some (k, off) = None)), (bool_decide_eq_false_2 (Some (0, off) = None)) by done. destruct (symtabsize t1 =? 0); [done|].
    apply same_symbols. split; [left; by exists off|]. done.
  - rewrite bool_decide_eq_true_2 by done. cbn [orb]. case_bool_decide as Hn; cbn [orb] in E2; [done|]. destruct (symtabsize t1 =? 0); [done|].
    destruct (Z.to_nat (_ - 1)); [exact E2|]. cbn [ar_symbols] in E2. apply bind_Some in E2 as (o & E2 & _). destruct (symtab t1) as [[j off]|]; [|done].
    cbn in E2. specialize (H j off eq_refl). replace (j =? k) with false in E2 by lia. done.
Qed.

(** ** The archive *)

Definition member_bytes (f : list Z * option (list Z)) : list Z :=
  match f with (file, Some content) => member_header file (Z.of_nat (length content)) ++ content | _ => [] end.
Definition join_members (files : list (list Z * option (list Z))) : list Z := List.concat (map member_bytes files).
(** Where the member of object [j] starts among the members. *)
Definition member_at (files : list (list Z * option (list Z))) (j : nat) : nat := length (join_members (firstn j files)).
(** The symbols the objects export, each with the number of its object. *)
Fixpoint listing (k : nat) (files : list (list Z * option (list Z))) : list (list Z * nat) :=
  match files with
  | [] => []
  | (_, content) :: files => map (fun nm => (nm, k)) (default [] (content ≫= exports)) ++ listing (S k) files
  end.
Definition name_bytes (l : list (list Z * nat)) : list Z := List.concat (map (fun p => fst p ++ [0]) l).

Lemma join_app l1 l2 : join_members (l1 ++ l2) = join_members l1 ++ join_members l2.
Proof. unfold join_members. by rewrite map_app, concat_app. Qed.
Lemma name_bytes_app l1 l2 : name_bytes (l1 ++ l2) = name_bytes l1 ++ name_bytes l2.
Proof. unfold name_bytes. by rewrite map_app, concat_app. Qed.
Lemma ar_loop_grows k files a a' : ar_loop k files a = Some (Some a') -> exists rest, members a' = members a ++ rest.
Proof.
  revert k a. induction files as [|[file [buf|]] files IH]; intros k a E; cbn [ar_loop] in E; [injection E as <-; exists []; by rewrite app_nil_r| |done].
  apply bind_Some in E as ([[t names]|] & _ & E); [|done]. destruct (IH _ _ E) as [rest Er]. cbn [members] in Er. rewrite Er, <- app_assoc. by eexists.
Qed.
Lemma length_member_name file : length (member_name file) = 16%nat.
Proof. unfold member_name, spaces. rewrite !length_app, length_replicate. cbn [length]. pose proof (firstn_le_length 15 (basename file file)). lia. Qed.
Lemma length_header file n : 0 <= n < 10 ^ 10 -> length (member_header file n) = 60%nat.
Proof. intros H. unfold member_header, arhdr_bytes. rewrite !length_app, length_member_name, length_printf by done. done. Qed.

Lemma ar_loop_spec files rest prev a a' : files = prev ++ rest -> ar_loop (Z.of_nat (length prev)) rest a = Some (Some a') ->
  members a = join_members prev -> fpos a = Z.of_nat (length (members a)) -> older (Z.of_nat (length prev)) (tabs a) -> Z.of_nat (length (members a')) < 2 ^ 31 ->
  members a' = join_members files /\ anames a' = anames a ++ name_bytes (listing (length prev) rest) /\
  afpos a' = afpos a ++ map (fun p => Z.of_nat (member_at files (snd p))) (listing (length prev) rest) /\
  Forall (fun f => exists content names, snd f = Some content /\ exports content = Some names) rest.
Proof.
  revert prev a. induction rest as [|[file [content|]] rest IH]; intros prev a Ef E Hm Hf Ho Hlen; cbn [ar_loop] in E; [| |done].
  { injection E as <-. rewrite Hm, Ef, !app_nil_r. done. }
  apply bind_Some in E as ([[t names]|] & E1 & E); [|done].
  destruct (ar_loop_grows _ _ _ _ E) as [more Emore]. cbn [members] in Emore.
  pose proof (f_equal length Emore) as Hl. rewrite !length_app in Hl.
  assert (i32 (Z.of_nat (length content)) = Z.of_nat (length content)) as Ei by (apply i32_small; lia).
  rewrite Ei in *. destruct (object_exports _ _ _ _ _ Ho E1) as [Ex Ho'].
  assert (length (member_header file (Z.of_nat (length content))) = 60%nat) as Hh by (apply length_header; lia).
  destruct (IH (prev ++ [(file, Some content)]) _ ltac:(by rewrite Ef, <- app_assoc)
    ltac:(rewrite length_app, Nat2Z.inj_add; exact E)) as (R1 & R2 & R3 & R4).
  - cbn [members]. rewrite join_app, Hm. unfold join_members. cbn [map List.concat member_bytes]. by rewrite app_nil_r.
  - cbn [members fpos]. rewrite Hf, i32_small by lia. rewrite !length_app, Hh. lia.
  - cbn [tabs]. by rewrite length_app, Nat2Z.inj_add.
  - done.
  - cbn [anames afpos] in *. rewrite length_app in R2, R3. cbn [length] in R2, R3. rewrite Nat.add_1_r in R2, R3.
    split; [done|]. cbn [listing mbind option_bind]. rewrite Ex. cbn [default]. split; [|split].
    + rewrite R2, name_bytes_app, app_assoc. do 2 f_equal. unfold name_bytes. by rewrite map_map.
    + rewrite R3, map_app, app_assoc. f_equal. f_equal. rewrite map_map. apply map_ext. intros nm. cbn [snd]. unfold member_at.
      rewrite Ef, firstn_app, firstn_all, Nat.sub_diag. cbn [firstn]. by rewrite app_nil_r, <- Hm.
    + constructor; [by exists content, names|done].
Qed.

(** ** Reading it *)

Lemma aget_list l i : aget (aputs l 0 ∅) i = byte_at l i.
Proof.
  rewrite aget_aputs, aget_empty, Z.sub_0_r. unfold byte_at. destruct (Z.ltb_spec i 0); [by rewrite bool_decide_eq_false_2 by lia|].
  case_bool_decide; [done|]. by rewrite nth_overflow by lia.
Qed.
Lemma full_read_list l pos count : 0 <= pos -> 0 <= count ->
  full_read (aputs l 0 ∅) (Z.of_nat (length l)) pos count = firstn (Z.to_nat count) (skipn (Z.to_nat pos) l).
Proof.
  intros Hp Hc. unfold full_read. apply list_eq. intros i. change (map ?f ?x) with (f <$> x). rewrite list_lookup_fmap.
  destruct (decide (i < Z.to_nat (Z.min count (Z.of_nat (length l) - pos)))%nat) as [H|H].
  - rewrite lookup_seqZ_lt by lia. cbn [fmap option_fmap option_map]. rewrite lookup_take_lt, lookup_drop by lia.
    destruct (lookup_lt_is_Some_2 l (Z.to_nat pos + i)) as [b Eb]; [lia|]. rewrite Eb, aget_list. f_equal. unfold byte_at.
    replace (_ <? 0) with false by lia. replace (Z.to_nat (pos + (0 + Z.of_nat i))) with (Z.to_nat pos + i)%nat by lia.
    apply (f_equal (default 0)) in Eb. cbn in Eb. by rewrite <- nth_lookup in Eb.
  - rewrite lookup_seqZ_ge by lia. cbn. symmetry. apply lookup_ge_None. rewrite length_take, length_drop. lia.
Qed.
(** A part of the file. *)
Lemma full_read_part l1 l2 l3 : full_read (aputs (l1 ++ l2 ++ l3) 0 ∅) (Z.of_nat (length (l1 ++ l2 ++ l3))) (Z.of_nat (length l1)) (Z.of_nat (length l2)) = l2.
Proof. rewrite full_read_list, !Nat2Z.id by lia. rewrite skipn_app, skipn_all, Nat.sub_diag. cbn [app]. rewrite drop_0. by rewrite firstn_app, firstn_all, Nat.sub_diag, app_nil_r. Qed.

Lemma full_read_n l1 l2 l3 n : n = Z.of_nat (length l2) -> full_read (aputs (l1 ++ l2 ++ l3) 0 ∅) (Z.of_nat (length (l1 ++ l2 ++ l3))) (Z.of_nat (length l1)) n = l2.
Proof. intros ->. apply full_read_part. Qed.

Lemma read_index_header l1 v l3 : 0 < v < 10 ^ 9 ->
  read_ar_header (aputs (l1 ++ arhdr_bytes (lit "/" ++ spaces 15) (lit "0" ++ spaces 7) (printf_10d v) ++ l3) 0 ∅)
    (Z.of_nat (length (l1 ++ arhdr_bytes (lit "/" ++ spaces 15) (lit "0" ++ spaces 7) (printf_10d v) ++ l3))) (Z.of_nat (length l1)) =
  inr (ArHdr (lit "/") (upto_nul (firstn 9 (printf_10d v))) ARFMAG).
Proof.
  intros Hv. pose proof (length_printf v ltac:(lia)) as Hp. unfold read_ar_header.
  assert (length (arhdr_bytes (lit "/" ++ spaces 15) (lit "0" ++ spaces 7) (printf_10d v)) = 60%nat) as Hl by (unfold arhdr_bytes; rewrite !length_app, Hp; done).
  rewrite (full_read_n l1 _ l3 60), Hl by (by rewrite Hl). cbn [Z.of_nat Pos.of_succ_nat Pos.succ Z.eqb Pos.eqb negb]. unfold arhdr_bytes.
  destruct (printf_10d v) as [|c0 [|c1 [|c2 [|c3 [|c4 [|c5 [|c6 [|c7 [|c8 [|c9 [|c10 l]]]]]]]]]]]; try discriminate. done.
Qed.
Lemma read_member_header l1 file n l3 : 0 <= n < 10 ^ 10 ->
  read_ar_header (aputs (l1 ++ member_header file n ++ l3) 0 ∅) (Z.of_nat (length (l1 ++ member_header file n ++ l3))) (Z.of_nat (length l1)) =
  inr (ArHdr (upto_nul (strip_spaces (member_name file))) (upto_nul (firstn 9 (printf_10d n))) ARFMAG).
Proof.
  intros Hv. pose proof (length_printf n ltac:(lia)) as Hp. unfold read_ar_header. pose proof (length_header file n Hv) as Hl.
  rewrite (full_read_n l1 _ l3 60), Hl by (by rewrite Hl). cbn [Z.of_nat Pos.of_succ_nat Pos.succ Z.eqb Pos.eqb negb]. unfold member_header, arhdr_bytes.
  pose proof (length_member_name file) as Hn. set (nm := member_name file) in *. clearbody nm.
  rewrite (firstn_app 16), Hn, Nat.sub_diag, firstn_all2 by lia. cbn [firstn]. rewrite app_nil_r.
  rewrite !skipn_app, Hn, !(skipn_all2 nm) by lia. cbn [Nat.sub].
  destruct (printf_10d n) as [|c0 [|c1 [|c2 [|c3 [|c4 [|c5 [|c6 [|c7 [|c8 [|c9 [|c10 l]]]]]]]]]]]; try discriminate. done.
Qed.

(** The index: a table of words, then the names. *)
Definition index_words (n : Z) (l : list Z) : list Z :=
  le 4 (i32 (le2belong n)) ++ List.concat (map (fun v => le 4 (i32 (le2belong v))) l).
Lemma length_words n l : length (index_words n l) = (4 + 4 * length l)%nat.
Proof. unfold index_words. rewrite length_app, length_le. f_equal. induction l as [|v l IH]; [done|]. cbn [map List.concat length]. rewrite length_app, length_le, IH. lia. Qed.
Lemma byte_at_word l i v j rest : l !! i = Some v -> 0 <= j < 4 ->
  byte_at (List.concat (map (fun v => le 4 (i32 (le2belong v))) l) ++ rest) (4 * Z.of_nat i + j) = byte_at (le 4 (i32 (le2belong v))) j.
Proof.
  intros E Hj. revert i E. induction l as [|w l IH]; intros i E; [done|]. cbn [map List.concat]. rewrite <- app_assoc, byte_at_app, length_le. destruct i as [|i].
  - injection E as ->. rewrite (proj2 (Z.ltb_lt _ _)) by lia. f_equal; lia.
  - rewrite (proj2 (Z.ltb_ge _ _)) by lia. cbn [lookup] in E. rewrite <- (IH i E). f_equal; lia.
Qed.
Lemma read_words n l rest d : 0 <= n < 2 ^ 32 -> (forall i, 0 <= i < Z.of_nat (length (index_words n l ++ rest)) -> aget d i = byte_at (index_words n l ++ rest) i) ->
  get_be 4 d 0 0 = n /\ forall i v, l !! i = Some v -> 0 <= v < 2 ^ 32 -> get_be 4 d (4 + Z.of_nat i * 4) 0 = v.
Proof.
  intros Hn H. rewrite length_app, length_words in H. split.
  - apply get_be_word; [done|]. intros i Hi. rewrite Z.add_0_l, H by lia. unfold index_words. rewrite <- app_assoc, byte_at_app, length_le.
    by rewrite (proj2 (Z.ltb_lt _ _)) by lia.
  - intros i v E Hv. apply get_be_word; [done|]. intros j Hj. pose proof (lookup_lt_Some _ _ _ E). rewrite H by lia. unfold index_words.
    rewrite <- app_assoc, byte_at_app, length_le. rewrite (proj2 (Z.ltb_ge _ _)) by lia. rewrite <- (byte_at_word l i v j rest) by done. f_equal; lia.
Qed.

(** ** An object inside a larger file *)

(** [m'] does what [m] does where [m] goes through. *)
Definition below {A} (m m' : L A) : Prop := forall st r, m st = Some r -> m' st = Some r.
Lemma below_refl {A} (m : L A) : below m m. Proof. by intros st r. Qed.
Lemma below_bind {A B} (m m' : L A) (f f' : A -> L B) : below m m' ->
  (forall a, (exists st st', m st = Some (a, st')) -> below (f a) (f' a)) -> below (m ≫= f) (m' ≫= f').
Proof.
  intros Hm Hf st r E. unfold mbind, L_bind in *. destruct (m st) as [[a st']|] eqn:E1; [|done]. rewrite (Hm _ _ E1). apply Hf; [by exists st, st'|done].
Qed.
(** Both begin with the same call. *)
Ltac same := apply below_bind; [apply below_refl|].

Section place.
Context (file lib : gmap Z Z) (fsize lsize off : Z).
Hypothesis view : forall i, 0 <= i < fsize -> aget lib (off + i) = aget file i.
Hypothesis room : 0 <= off /\ 0 <= fsize < 2 ^ 31 /\ off + fsize <= lsize /\ lsize < 2 ^ 62.
Lemma view_read pos n : 0 <= pos -> pos + n <= fsize -> full_read lib lsize (off + pos) n = full_read file fsize pos n.
Proof using view room.
  intros H1 H2. unfold full_read. rewrite !Z.min_l by lia. apply map_ext_in. intros i Hi. apply list_elem_of_In, elem_of_seqZ in Hi.
  rewrite <- view by lia. f_equal. lia.
Qed.
Lemma view_mget n pos : 0 <= pos -> pos + Z.of_nat n <= fsize -> mget n lib (off + pos) = mget n file pos.
Proof using view. intros H1 H2. apply mget_shift. intros j Hj. rewrite <- Z.add_assoc. apply view. lia. Qed.
Lemma view_offset e n : 0 <= n -> u64 (0 + e) + n <= fsize -> u64 (off + e) = off + u64 (0 + e).
Proof using room. intros H1 H2. rewrite Z.add_0_l in *. pose proof (u64_bound e). rewrite <- (u64_small (off + u64 e)) by lia. unfold u64. zlia. Qed.
Lemma view_load e n : 0 <= n -> below (load_data file fsize (u64 (0 + e)) n) (load_data lib lsize (u64 (off + e)) n).
Proof using view room.
  intros Hn st r. unfold load_data. pose proof (u64_bound (0 + e)). destruct (Z.leb_spec (u64 (0 + e) + n) fsize) as [H2|H2]; [|by rewrite andb_false_r].
  rewrite (view_offset e n), view_read by lia. replace (0 <=? u64 (0 + e)) with true by lia. cbn [andb].
  replace (0 <=? off + u64 (0 + e)) with true by lia. by replace (off + u64 (0 + e) + n <=? lsize) with true by lia.
Qed.

Context (can_alloc : Z -> bool) (e_shnum e_shstrndx : Z) (shdrs : gmap Z Z).
Definition header_in (h : shdr) : Prop := 0 <= h_size h /\ (h_type h <> SHT_NOBITS -> u64 (h_offset h) + h_size h <= fsize).
Hypothesis whole : forall i h st st', shdr_at shdrs e_shnum i st = Some (h, st') -> header_in h.

Lemma view_section h : header_in h -> below (load_section file fsize 0 h) (load_section lib lsize off h).
Proof using view room. intros [H _]. by apply view_load. Qed.
Lemma view_symtab n i found : below (find_symtab file fsize 0 e_shnum shdrs n i found) (find_symtab lib lsize off e_shnum shdrs n i found).
Proof using view room whole.
  revert i found. induction n as [|n IH]; intros i found; cbn [find_symtab]; [apply below_refl|].
  same. intros h (st & st' & E). destruct (negb _); [apply IH|]. destruct found; [apply below_refl|].
  apply below_bind; [by eapply view_section, whole|]. intros syms _. same. intros hs (st1 & st1' & E1).
  apply below_bind; [by eapply view_section, whole|]. intros strs _. apply IH.
Qed.
Lemma view_append p h : header_in h -> below (append_section file fsize can_alloc 0 p (i32 (h_size h)) h) (append_section lib lsize can_alloc off p (i32 (h_size h)) h).
Proof using view room.
  intros [Hs Hh] st r. unfold append_section, on_sec. destruct (secs st !! p) as [d|]; [|done]. destruct (Z.eqb_spec (h_type h) SHT_NOBITS) as [|Hn]; [done|].
  specialize (Hh Hn). pose proof (u64_bound (h_offset h)). rewrite i32_small by lia. replace (h_size h <? 0) with false by lia.
  by rewrite (view_offset (h_offset h) (h_size h)), view_read by (rewrite ?Z.add_0_l; lia).
Qed.
Lemma view_merge n i names size t : below (merge_sections file fsize can_alloc 0 e_shnum e_shstrndx shdrs n i names size t)
  (merge_sections lib lsize can_alloc off e_shnum e_shstrndx shdrs n i names size t).
Proof using view room whole.
  revert i t. induction n as [|n IH]; intros i t; cbn [merge_sections]; [apply below_refl|]. destruct (i =? e_shstrndx); [apply IH|].
  same. intros h (st & st' & E). same. intros h' _. destruct (negb _); [apply IH|].
  same. intros [p fresh] _. same. intros d _. destruct (negb _); [apply below_refl|].
  same. intros _ _. same. intros d' _.
  apply below_bind; [by eapply view_append, whole|]. intros _ _. apply IH.
Qed.
Lemma view_merged names size : below (load_merged file fsize can_alloc 0 e_shnum e_shstrndx shdrs names size)
  (load_merged lib lsize can_alloc off e_shnum e_shstrndx shdrs names size).
Proof using view room whole.
  unfold load_merged. apply below_bind; [apply view_symtab|]. intros [y|] _; [|apply below_refl]. same. intros symtab _.
  apply below_bind; [apply view_merge|]. intros t _. apply below_refl.
Qed.
End place.

Definition whole_object (content : list Z) : Prop :=
  let d := aputs content 0 ∅ in let n := Z.of_nat (length content) in
  64 <= n /\ forall i, 0 <= i < mget 2 d 60 -> let h := u64 (mget 8 d 40) + 64 * i in
    mget 4 d (h + 4) <> SHT_NOBITS -> mget 8 d (h + 24) + mget 8 d (h + 32) <= n.
Lemma bytes_ok_list l : Forall (fun b => isu8 b) l -> bytes_ok (aputs l 0 ∅).
Proof.
  intros H i. rewrite aget_list. unfold byte_at. destruct (i <? 0); [lia|].
  destruct (nth_in_or_default (Z.to_nat i) l 0) as [Hin| ->]; [|lia]. by apply (proj1 (List.Forall_forall _ _) H).
Qed.
Lemma shdr_at_fields t n i s h s' : shdr_at t n i s = Some (h, s') -> 0 <= i < n /\ h_type h = mget 4 t (64 * i + 4) /\
  h_offset h = mget 8 t (64 * i + 24) /\ h_size h = mget 8 t (64 * i + 32).
Proof.
  unfold shdr_at. destruct (Z.leb_spec 0 i), (Z.ltb_spec i n); try discriminate. intros E. split; [done|].
  apply (f_equal (fun r => match r with Some (h, _) => (h_type h, h_offset h, h_size h) | None => (0, 0, 0) end)) in E.
  change ((mget 4 t (64 * i + 4), mget 8 t (64 * i + 24), mget 8 t (64 * i + 32)) = (h_type h, h_offset h, h_size h)) in E. split_and!; congruence.
Qed.
Lemma member_loads lib lsize off content can_alloc : Forall (fun b => isu8 b) content -> whole_object content ->
  (forall i, 0 <= i < Z.of_nat (length content) -> aget lib (off + i) = aget (aputs content 0 ∅) i) ->
  0 <= off -> Z.of_nat (length content) < 2 ^ 31 -> off + Z.of_nat (length content) <= lsize -> lsize < 2 ^ 62 ->
  below (tcc_load_object_file (aputs content 0 ∅) (Z.of_nat (length content)) can_alloc 0) (tcc_load_object_file lib lsize can_alloc off).
Proof.
  intros Hb (H64 & Hw) Hv Ho Hc Hl Hs. pose proof (bytes_ok_list _ Hb) as Hok. set (file := aputs content 0 ∅) in *. set (n := Z.of_nat (length content)) in *.
  assert (0 <= off /\ 0 <= n < 2 ^ 31 /\ off + n <= lsize /\ lsize < 2 ^ 62) as Hr by lia.
  unfold tcc_load_object_file, tcc_object_type, EHDR_SIZE.
  replace (full_read lib lsize off 64) with (full_read file n 0 64) by (rewrite <- (view_read file lib n lsize off Hv Hr 0 64), Z.add_0_r by lia; done).
  rewrite !Z.add_0_l, Hv, !(view_mget file lib n off Hv) by lia.
  destruct (_ || _); [apply below_refl|].
  apply below_bind. { rewrite <- (Z.add_0_l (mget 8 file 40)) at 1. apply (view_load file lib n lsize off Hv Hr). pose proof (mget_bound 2 file 60 Hok). lia. }
  intros shdrs (st & st' & E). unfold load_data in E. destruct (Z.leb_spec (u64 (mget 8 file 40) + 64 * mget 2 file 60) n) as [Hin|]; [|by rewrite andb_false_r in E].
  pose proof (u64_bound (mget 8 file 40)) as Hu. replace (0 <=? u64 (mget 8 file 40)) with true in E by lia. cbn [andb] in E.
  assert (aputs (full_read file n (u64 (mget 8 file 40)) (64 * mget 2 file 60)) 0 ∅ = shdrs) as Esh by (apply (f_equal (fun r => match r with Some (x, _) => x | None => ∅ end)) in E; exact E).
  assert (forall k p, 0 <= p -> p + Z.of_nat k <= 64 * mget 2 file 60 -> mget k shdrs p = mget k file (u64 (mget 8 file 40) + p)) as Hsh.
  { intros k p Hp Hk. rewrite <- (Z.add_0_l p) at 1. rewrite <- Esh. apply mget_shift. intros j Hj. rewrite aget_list. unfold byte_at, full_read.
    rewrite (proj2 (Z.ltb_ge _ _)) by lia. rewrite nth_lookup. change (map ?f ?x) with (f <$> x). rewrite list_lookup_fmap, lookup_seqZ_lt by lia.
    cbn. f_equal. lia. }
  assert (forall i h s s', shdr_at shdrs (mget 2 file 60) i s = Some (h, s') -> header_in n h) as Hh.
  { intros i h s s' Eh. apply shdr_at_fields in Eh as (Hi & E1 & E2 & E3). unfold header_in. rewrite E1, E2, E3.
    rewrite !Hsh by lia. rewrite !Z.add_assoc. pose proof (Hw i ltac:(lia)) as Hw'. cbv zeta in Hw'.
    pose proof (mget_bound 8 file (u64 (mget 8 file 40) + 64 * i + 32) Hok). pose proof (mget_bound 8 file (u64 (mget 8 file 40) + 64 * i + 24) Hok).
    split; [lia|]. intros Ht. rewrite u64_small; [by apply Hw'|]. change (256 ^ Z.of_nat 8) with 18446744073709551616 in *. lia. }
  same. intros h (s & s' & Eh). apply below_bind; [apply (view_load file lib n lsize off Hv Hr); by eapply Hh|]. intros names _.
  by apply (view_merged file lib n lsize off Hv Hr).
Qed.

(** ** The index leads to the definitions *)

Lemma listing_lookup files k i nm j : listing k files !! i = Some (nm, j) -> (k <= j)%nat /\
  exists file content names, files !! (j - k)%nat = Some (file, Some content) /\ exports content = Some names /\ nm ∈ names.
Proof.
  revert k i. induction files as [|[file c] files IH]; intros k i E; [done|]. cbn [listing] in E. apply lookup_app_Some in E as [E|[_ E]].
  - change (map ?f ?x) with (f <$> x) in E. rewrite list_lookup_fmap in E. destruct (_ !! i) as [x|] eqn:Ex; [|done]. injection E as <- <-.
    split; [lia|]. rewrite Nat.sub_diag. apply list_elem_of_lookup_2 in Ex. destruct c as [content|]; [|by apply elem_of_nil in Ex].
    cbn [mbind option_bind] in Ex. destruct (exports content) as [names|] eqn:En; [|by apply elem_of_nil in Ex]. by exists file, content, names.
  - apply IH in E as (Hj & H). split; [lia|]. by replace (j - k)%nat with (S (j - S k)) by lia.
Qed.
Lemma cstr_nonzero n d p : Forall (fun c => c <> 0) (cstr n d p).
Proof. revert p. induction n as [|n IH]; intros p; cbn [cstr]; [constructor|]. destruct (Z.eqb_spec (aget d p) 0); [constructor|]. by constructor. Qed.
Lemma symbols_nonzero buf n k m i t l : ar_symbols buf n k m i t = Some l -> Forall (Forall (fun c => c <> 0)) l.
Proof.
  revert i l. induction m as [|m IH]; intros i l E; cbn [ar_symbols] in E; [injection E as <-; constructor|].
  apply bind_Some in E as (? & _ & E). apply bind_Some in E as (? & _ & E). apply bind_Some in E as (b & _ & E). destruct b; [|by eapply IH].
  apply bind_Some in E as (? & _ & E). apply bind_Some in E as (? & _ & E). apply bind_Some in E as (nm & En & E). apply bind_Some in E as (l' & El & [= <-]).
  constructor; [|by eapply IH]. unfold peek_str in En. destruct (_ && _); [|done]. injection En as <-. apply cstr_nonzero.
Qed.
Lemma exports_nonzero content names : exports content = Some names -> Forall (Forall (fun c => c <> 0)) names.
Proof.
  unfold exports, ar_object. intros E. apply bind_Some in E as (r & E & En). apply bind_Some in E as (c & _ & E). destruct (negb _); [injection E as <-; done|].
  do 5 (apply bind_Some in E as (? & _ & E)). apply bind_Some in E as (t & _ & E). apply bind_Some in E as (l & El & [= <-]). injection En as <-.
  destruct (_ || _); [injection El as <-; constructor|]. by eapply symbols_nonzero.
Qed.
Lemma cstr_back l n d p : Forall (fun c => c <> 0) l -> (length l < n)%nat ->
  (forall i, 0 <= i <= Z.of_nat (length l) -> aget d (p + i) = byte_at (l ++ [0]) i) -> cstr n d p = l.
Proof.
  revert n p. induction l as [|b l IH]; intros n p Hl Hn Hd; (destruct n as [|n]; [cbn in Hn; lia|]); cbn [cstr].
  - specialize (Hd 0 ltac:(cbn; lia)). rewrite Z.add_0_r in Hd. by rewrite Hd.
  - apply Forall_cons in Hl as [Hb Hl]. cbn [length] in *. pose proof (Hd 0 ltac:(lia)) as H0. rewrite Z.add_0_r in H0. change (aget d p = b) in H0. rewrite H0.
    replace (b =? 0) with false by lia. f_equal. apply IH; [done|lia|]. intros i Hi.
    replace (p + 1 + i) with (p + (i + 1)) by lia. rewrite Hd by lia. change ((b :: l) ++ [0]) with ([b] ++ (l ++ [0])).
    rewrite byte_at_app. cbn [length Z.of_nat Pos.of_succ_nat]. rewrite (proj2 (Z.ltb_ge _ _)) by lia. f_equal. lia.
Qed.
(** Where the name of entry [i] is in the index. *)
Definition entry_pos (l : list (list Z * nat)) (i : nat) : Z := 4 + 4 * Z.of_nat (length l) + Z.of_nat (length (name_bytes (firstn i l))).
Lemma split_at {A} (l : list A) i x : l !! i = Some x -> l = firstn i l ++ x :: skipn (S i) l.
Proof. intros E. by rewrite take_drop_middle. Qed.
Lemma read_member_name (l : list (list Z * nat)) i nm k words d size : l !! i = Some (nm, k) -> Forall (fun c => c <> 0) nm -> length words = (4 + 4 * length l)%nat ->
  (forall j, 0 <= j < Z.of_nat (length (words ++ name_bytes l)) -> aget d j = byte_at (words ++ name_bytes l) j) ->
  Z.of_nat (length (words ++ name_bytes l)) <= size -> cstr (Z.to_nat (size - entry_pos l i)) d (entry_pos l i) = nm.
Proof.
  intros E Hn Hw Hd Hs. pose proof (split_at _ _ _ E) as El.
  assert (name_bytes l = name_bytes (firstn i l) ++ (nm ++ [0]) ++ name_bytes (skipn (S i) l)) as En.
  { rewrite El at 1. rewrite name_bytes_app. f_equal. }
  assert (length (name_bytes l) = (length (name_bytes (firstn i l)) + (length nm + 1) + length (name_bytes (skipn (S i) l)))%nat) as Hlen.
  { rewrite En at 1. rewrite !length_app. cbn. lia. }
  rewrite length_app in Hs, Hd. unfold entry_pos. set (a := name_bytes (firstn i l)) in *. set (b := name_bytes (skipn (S i) l)) in *.
  apply cstr_back; [done|lia|]. intros j Hj. rewrite Hd by lia. rewrite byte_at_app. rewrite (proj2 (Z.ltb_ge _ _)) by lia.
  rewrite En, byte_at_app. rewrite (proj2 (Z.ltb_ge _ _)) by lia. rewrite byte_at_app. rewrite (proj2 (Z.ltb_lt _ _)) by (rewrite length_app; cbn; lia).
  f_equal. lia.
Qed.
(** The linker walks the names from one to the next. *)
Lemma walk_names (l : list (list Z * nat)) words d size : Forall (fun p => Forall (fun c => c <> 0) (fst p)) l -> length words = (4 + 4 * length l)%nat ->
  (forall j, 0 <= j < Z.of_nat (length (words ++ name_bytes l)) -> aget d j = byte_at (words ++ name_bytes l) j) ->
  Z.of_nat (length (words ++ name_bytes l)) <= size ->
  forall i nm k, l !! i = Some (nm, k) -> name_pos d size i (4 + Z.of_nat (length l) * 4) = entry_pos l i /\ name_at d size (entry_pos l i) = nm.
Proof.
  intros Hl Hw Hd Hs.
  assert (forall i nm k, l !! i = Some (nm, k) -> name_at d size (entry_pos l i) = nm) as Hat.
  { intros i nm k E. apply (read_member_name l i nm k words); try done. rewrite Forall_lookup in Hl. by apply (Hl i (nm, k)). }
  intros i nm k E. split; [|by eapply Hat].
  assert (forall m j, (j + m <= length l)%nat -> name_pos d size m (entry_pos l j) = entry_pos l (j + m)) as Hwalk.
  { induction m as [|m IH]; intros j Hj; cbn [name_pos]; [by rewrite Nat.add_0_r|].
    destruct (lookup_lt_is_Some_2 l j) as [[nm' k'] Ej]; [lia|]. rewrite (Hat _ _ _ Ej).
    replace (entry_pos l j + Z.of_nat (length nm') + 1) with (entry_pos l (S j)).
    { rewrite IH by lia. f_equal. lia. }
    unfold entry_pos. rewrite (take_S_r _ _ _ Ej), name_bytes_app, !length_app. unfold name_bytes at 2. cbn [map List.concat fst]. rewrite app_nil_r, length_app. cbn [length]. lia. }
  apply lookup_lt_Some in E. specialize (Hwalk i 0%nat ltac:(lia)). cbn [Nat.add] in Hwalk. rewrite <- Hwalk. f_equal. unfold entry_pos. change (length (name_bytes (firstn 0 l))) with 0%nat. lia.
Qed.
Lemma join_at files j f : files !! j = Some f -> join_members files = join_members (firstn j files) ++ member_bytes f ++ join_members (skipn (S j) files).
Proof. intros E. rewrite (split_at _ _ _ E) at 1. rewrite join_app. done. Qed.
Lemma output_shape files a : ar_loop 0 files ar_init = Some (Some a) -> Z.of_nat (length (ar_output a)) < 10 ^ 9 ->
  let defs := listing 0 files in let isz := 4 + 4 * Z.of_nat (length defs) + Z.of_nat (length (name_bytes defs)) in let base := 68 + isz + isz mod 2 in
  ar_output a = ARMAG ++ arhdr_bytes (lit "/" ++ spaces 15) (lit "0" ++ spaces 7) (printf_10d isz) ++
    (index_words (Z.of_nat (length defs)) (map (fun p => base + Z.of_nat (member_at files (snd p))) defs) ++ name_bytes defs) ++
    replicate (Z.to_nat (isz mod 2)) 0 ++ join_members files /\
  base + Z.of_nat (length (join_members files)) < 10 ^ 9.
Proof.
  intros E Hlen defs isz base.
  assert (Z.of_nat (length (members a)) < 2 ^ 31 /\ Z.of_nat (length (anames a)) + 4 * Z.of_nat (length (afpos a)) < 10 ^ 9 - 72 /\
    Z.of_nat (length (anames a)) + 4 * Z.of_nat (length (afpos a)) + ar_hofs a mod 2 + Z.of_nat (length (members a)) < 10 ^ 9 - 72) as (Hm & Hs & Hs2).
  { revert Hlen. unfold ar_output, ar_index. rewrite !length_app, length_le.
    assert (length (List.concat (map (fun v => le 4 (i32 (le2belong (u64 (i32 (v + (ar_hofs a + ar_hofs a mod 2))))))) (afpos a))) = (4 * length (afpos a))%nat) as ->.
    { induction (afpos a) as [|v l IH]; [done|]. cbn [map List.concat length]. rewrite length_app, length_le, IH. lia. }
    assert (10 <= length (printf_10d (ar_index_size a)))%nat by (unfold printf_10d, spaces; rewrite length_app, length_replicate; lia).
    unfold arhdr_bytes. rewrite !length_app, length_replicate. change (length ARMAG) with 8%nat. change (length ARFMAG) with 2%nat.
    change (length (lit "/")) with 1%nat. change (length (lit "0")) with 1%nat. unfold spaces. rewrite !length_replicate. pose proof (Z.mod_pos_bound (ar_hofs a) 2). lia. }
  destruct (ar_loop_spec files files [] ar_init a eq_refl E eq_refl eq_refl) as (R1 & R2 & R3 & _); [split; done|done|].
  cbn [ar_init anames afpos app length] in R2, R3. fold defs in R2, R3.
  assert (length (afpos a) = length defs) as Ha by (by rewrite R3, length_map). rewrite Ha in Hs, Hs2. rewrite R2 in Hs, Hs2.
  assert (ar_hofs a = 68 + isz) as Eh by (unfold ar_hofs; rewrite Ha, R2; unfold isz; rewrite i32_small; lia).
  assert (ar_index_size a = isz) as Ez by (unfold ar_index_size; rewrite Ha, R2; unfold isz; rewrite i32_small; lia).
  assert (ar_hofs a mod 2 = isz mod 2) as E2 by (rewrite Eh; zlia).
  rewrite R1 in Hs2, Hm. assert (0 <= isz mod 2 < 2) as Hpar by zlia.
  assert (0 <= isz /\ isz + isz mod 2 + Z.of_nat (length (join_members files)) < 10 ^ 9 - 68) as Hz by (rewrite <- E2; unfold isz; pose proof (Z.mod_pos_bound (ar_hofs a) 2); lia).
  split; [|unfold base; lia]. unfold ar_output. rewrite E2, Ez, R1. do 3 f_equal. unfold ar_index, index_words. rewrite E2, Eh, Ha, R2, R3.
  rewrite (u64_small (Z.of_nat (length defs))) by lia. rewrite <- app_assoc. do 2 f_equal. f_equal. rewrite !map_map. apply map_ext_in. intros p Hp.
  assert (member_at files (snd p) <= length (join_members files))%nat as Hat.
  { unfold member_at. rewrite <- (firstn_skipn (snd p) files) at 2. rewrite join_app, length_app. lia. }
  do 2 f_equal. change (10 ^ 9) with 1000000000 in Hz. rewrite i32_small by lia. rewrite u64_small by lia. unfold base. f_equal. lia.
Qed.

Lemma listing_nonzero k files : Forall (fun p => Forall (fun c => c <> 0) (fst p)) (listing k files).
Proof.
  apply Forall_lookup. intros i [nm j] E. destruct (listing_lookup _ _ _ _ _ E) as (_ & file & content & names & _ & Ex & Hn).
  by apply (proj1 (List.Forall_forall _ _) (exports_nonzero _ _ Ex)), list_elem_of_In.
Qed.
(** A member with what is before and behind it. *)
Section member.
Context (pre : list Z) (file content back : list Z).
Let out := pre ++ member_header file (Z.of_nat (length content)) ++ content ++ back.
Let lib := aputs out 0 ∅.
Let n := Z.of_nat (length out).
Hypothesis small : n < 1000000000.
Let off := Z.of_nat (length pre).
Lemma member_sizes : length (member_header file (Z.of_nat (length content))) = 60%nat /\ off + 60 + Z.of_nat (length content) + Z.of_nat (length back) = n.
Proof using small.
  unfold n, out in *. rewrite !length_app in *. assert (length (member_header file (Z.of_nat (length content))) = 60%nat) as -> by (apply length_header; lia). lia.
Qed.
Lemma member_header_found : exists h, read_ar_header lib n (i32 off) = inr h /\ ar_fmag h = ARFMAG.
Proof using small. pose proof member_sizes as [_ H]. eexists. split; [rewrite i32_small by lia; apply read_member_header; lia|reflexivity]. Qed.
Lemma member_content : full_read lib n (off + 60) (Z.of_nat (length content)) = content.
Proof using small.
  pose proof member_sizes as [Hh _]. unfold lib, n, out, off. set (hdr := member_header _ _) in *.
  replace (pre ++ hdr ++ content ++ back) with ((pre ++ hdr) ++ content ++ back) by (by rewrite <- app_assoc).
  replace (Z.of_nat (length pre) + 60) with (Z.of_nat (length (pre ++ hdr))) by (rewrite length_app, Hh; lia). apply full_read_part.
Qed.
Lemma member_below can_alloc : Forall (fun b => isu8 b) content -> whole_object content ->
  below (tcc_load_object_file (aputs content 0 ∅) (Z.of_nat (length content)) can_alloc 0) (tcc_load_object_file lib n can_alloc (u64 (off + 60))).
Proof using small.
  intros Hc Hw. pose proof member_sizes as [Hh Hn]. rewrite u64_small by lia. apply member_loads; [done|done| |lia|lia|lia|lia].
  intros j Hj. unfold lib, out. rewrite !aget_list, byte_at_app. rewrite (proj2 (Z.ltb_ge _ _)) by lia.
  rewrite byte_at_app, Hh. rewrite (proj2 (Z.ltb_ge _ _)) by lia. rewrite byte_at_app. rewrite (proj2 (Z.ltb_lt _ _)) by lia. f_equal. lia.
Qed.
End member.

(** The index is the first member, padded to an even size. *)
Lemma index_first isz rest can_alloc fuel st : 0 < isz < 1000000000 ->
  let out := ARMAG ++ arhdr_bytes (lit "/" ++ spaces 15) (lit "0" ++ spaces 7) (printf_10d isz) ++ rest in
  tcc_load_archive (aputs out 0 ∅) (Z.of_nat (length out)) can_alloc (S fuel) true st =
  tcc_load_alacarte (aputs out 0 ∅) (Z.of_nat (length out)) can_alloc 68 (isz + isz mod 2) 4 st.
Proof.
  intros Hisz out. unfold tcc_load_archive. cbn [archive_loop]. change (i32 8) with (Z.of_nat (length ARMAG)). unfold out.
  rewrite read_index_header by lia. cbn [ar_name ar_size]. rewrite strtol_printf by lia. rewrite bool_decide_eq_true_2 by done.
  change (u64 (Z.of_nat (length ARMAG) + 60)) with 68. f_equal. f_equal.
  rewrite (i32_small isz) by lia. assert (Z.land (isz + 1) (-2) = isz + isz mod 2) as ->; [|apply i32_small; zlia].
  change (-2) with (Z.lnot (Z.ones 1)). rewrite <- Z.ldiff_land, Z.ldiff_ones_r by lia. rewrite Z.shiftr_div_pow2, Z.shiftl_mul_pow2 by lia. change (2 ^ 1) with 2. zlia.
Qed.


(** An archive of two objects; the second exports [g]. *)
Definition two_objects : list (list Z * option (list Z)) := [(lit "obj/f.o", Some (object_of (lit "f"))); (lit "g.o", Some (object_of (lit "g")))].
Definition two_archive : list Z := match tcc_tool_ar true (lit "rcs") two_objects with Some (0, out) => out | _ => [] end.
Definition whole_objectb (content : list Z) : bool :=
  let d := aputs content 0 ∅ in let n := Z.of_nat (length content) in
  (64 <=? n) && forallb (fun i => let h := u64 (mget 8 d 40) + 64 * i in
    (mget 4 d (h + 4) =? SHT_NOBITS) || (mget 8 d (h + 24) + mget 8 d (h + 32) <=? n)) (seqZ 0 (mget 2 d 60)).
Lemma whole_objectb_ok content : whole_objectb content = true -> whole_object content.
Proof.
  unfold whole_objectb, whole_object. intros [H1 H2]%andb_true_iff. split; [lia|]. cbv zeta. intros i Hi Hn.
  pose proof (proj1 (forallb_forall _ _) H2 i ltac:(apply list_elem_of_In, elem_of_seqZ; lia)) as E. cbv beta zeta in E. lia.
Qed.
Lemma two_archive_ok : tcc_tool_ar true (lit "rcs") two_objects = Some (0, two_archive) /\ Z.of_nat (length two_archive) < 10 ^ 9.
Proof.
  assert (match tcc_tool_ar true (lit "rcs") two_objects with Some (0, out) => Z.of_nat (length out) < 10 ^ 9 | _ => False end) as H by (vm_compute; reflexivity).
  revert H. unfold two_archive. destruct (tcc_tool_ar true (lit "rcs") two_objects) as [[[|p|p] out]|]; [|exact (False_ind _)..]. intros H. exact (conj eq_refl H).
Qed.
Lemma two_listing : listing 0 two_objects !! 1%nat = Some (lit "g", 1%nat).
Proof. vm_compute. reflexivity. Qed.
Lemma object_of_g_ok : Forall (fun b => isu8 b) (object_of (lit "g")) /\ whole_object (object_of (lit "g")).
Proof.
  split; [|apply whole_objectb_ok; vm_compute; reflexivity].
  assert (forallb (fun b => (0 <=? b) && (b <? 256)) (object_of (lit "g")) = true) as H by (vm_compute; reflexivity).
  apply List.Forall_forall. intros b Hb. pose proof (proj1 (forallb_forall _ _) H b Hb) as E. cbv beta in E. lia.
Qed.
#[local] Opaque object_of two_archive.
