(* ===== verification/Token.v ===== *)
(** Tokens of the compiler's front end ([src/compiler/parsing.c], and [tok_get] of [tccpp.c]): the table
    of identifiers, and the token strings that hold macro bodies and saved code.

    A [TokenSym *] is the number of its token, 0 for NULL; an [int *] into a token string is an index.
    [None] is the exit through [_tcc_error]. *)
From S2P Require Import Prelude.

Definition TOK_IDENT : Z := 256.
Definition TOK_HASH_SIZE : Z := 16384.
Definition TOK_ALLOC_INCR : Z := 512.
Definition TOK_MAX_SIZE : Z := 4.
Definition TOK_HASH_INIT : Z := 1.
Definition TOK_HASH_FUNC (h c : Z) : Z := u32 (h + u32 (Z.shiftl h 5) + Z.shiftr h 27 + c).
Definition SYM_FIRST_ANOM : Z := 0x10000000.
Definition SYM_FIELD : Z := 0x20000000.
Definition SYM_STRUCT : Z := 0x40000000.

Definition TOK_CCHAR : Z := 0xc0.
Definition TOK_LCHAR : Z := 0xc1.
Definition TOK_CINT : Z := 0xc2.
Definition TOK_CUINT : Z := 0xc3.
Definition TOK_CLLONG : Z := 0xc4.
Definition TOK_CULLONG : Z := 0xc5.
Definition TOK_CLONG : Z := 0xc6.
Definition TOK_CULONG : Z := 0xc7.
Definition TOK_STR : Z := 0xc8.
Definition TOK_LSTR : Z := 0xc9.
Definition TOK_CFLOAT : Z := 0xca.
Definition TOK_CDOUBLE : Z := 0xcb.
Definition TOK_CLDOUBLE : Z := 0xcc.
Definition TOK_PPNUM : Z := 0xcd.
Definition TOK_PPSTR : Z := 0xce.
Definition TOK_LINENUM : Z := 0xcf.
Definition TOK_HAS_VALUE (t : Z) : bool := (TOK_CCHAR <=? t) && (t <=? TOK_LINENUM).

(** ** The table of identifiers *)

Record TokenSym := TokSym {
  hash_next : Z; sym_define : Z; sym_label : Z; sym_struct : Z; sym_identifier : Z; tok : Z; len : Z; str : list Z }.
Definition set_hash_next v t := TokSym v (sym_define t) (sym_label t) (sym_struct t) (sym_identifier t) (tok t) (len t) (str t).
Definition set_sym_struct v t := TokSym (hash_next t) (sym_define t) (sym_label t) v (sym_identifier t) (tok t) (len t) (str t).
Definition set_sym_identifier v t := TokSym (hash_next t) (sym_define t) (sym_label t) (sym_struct t) v (tok t) (len t) (str t).

(** [table_ident] is indexed by the token, not by its distance from [TOK_IDENT]. *)
Record token_table := Tokens { table_ident : gmap Z TokenSym; hash_ident : gmap Z Z; tok_ident : Z }.
Definition token_syms_init : token_table := Tokens ∅ ∅ TOK_IDENT.

Definition tok_hash (s : list Z) : Z := fold_left TOK_HASH_FUNC s TOK_HASH_INIT.

(** The walk along a bucket from [t]: the token with that spelling, or the last token of the chain,
    whose [hash_next] the new one goes to ([prev] when there is none). *)
Fixpoint tok_walk (fuel : nat) (m : gmap Z TokenSym) (s : list Z) (prev t : Z) : option (Z + Z) :=
  match fuel with
  | O => None
  | S fuel =>
      if t =? 0 then Some (inr prev)
      else
        ts ← m !! t;
        if (len ts =? Z.of_nat (length s)) && bool_decide (firstn (length s) (str ts) = s) then Some (inl t)
        else tok_walk fuel m s t (hash_next ts)
  end.

Section alloc.
Context (can_alloc : Z -> bool).
Definition tok_alloc_new (slot : Z) (s : list Z) (tt : token_table) : option (Z * token_table) :=
  let i := tok_ident tt - TOK_IDENT in
  if SYM_FIRST_ANOM <=? tok_ident tt then None
  else if (i mod TOK_ALLOC_INCR =? 0) && negb (can_alloc ((i + TOK_ALLOC_INCR) * 8)) then None
  else if negb (can_alloc (56 + Z.of_nat (length s))) then None
  else
    let t := tok_ident tt in
    let ts := TokSym 0 0 0 0 0 t (Z.of_nat (length s)) s in
    let h := tok_hash s mod TOK_HASH_SIZE in
    let m := <[t := ts]> (table_ident tt) in
    Some (t, if slot =? 0 then Tokens m (aset (hash_ident tt) h t) (t + 1)
             else Tokens (alter (set_hash_next t) slot m) (hash_ident tt) (t + 1)).
Definition tok_alloc (s : list Z) (tt : token_table) : option (Z * token_table) :=
  let h := tok_hash s mod TOK_HASH_SIZE in
  r ← tok_walk (S (Z.to_nat (tok_ident tt - TOK_IDENT))) (table_ident tt) s 0 (aget (hash_ident tt) h);
  match r with
  | inl t => Some (t, tt)
  | inr slot => tok_alloc_new slot s tt
  end.
End alloc.

(** ** Token strings *)

(** The union [CValue]: [tab], four words; [str.size] and the bytes at [str.data].  A token uses one of
    the two. *)
Record CValue := Cv { cv_tab : list Z; cv_size : Z; cv_data : list Z }.
Definition tab_at (cv : CValue) (i : nat) : Z := nth i (cv_tab cv) 0.
(** The first words of [tab]. *)
Definition set_tab (l : list Z) (cv : CValue) : CValue := Cv (l ++ skipn (length l) (cv_tab cv)) (cv_size cv) (cv_data cv).
Definition set_str (size : Z) (d : list Z) (cv : CValue) : CValue := Cv (cv_tab cv) size d.

(** [str] is the bytes of the array. *)
Record TokenString := TokStr { ts_str : gmap Z Z; ts_len : Z; lastlen : Z; allocated_len : Z; last_line_num : Z }.
Definition tok_str_new : TokenString := TokStr ∅ 0 0 0 (-1).
Definition get_word (m : gmap Z Z) (i : Z) : Z := i32 (mget 4 m (4 * i)).
Fixpoint put_words (l : list Z) (i : Z) (m : gmap Z Z) : gmap Z Z :=
  match l with [] => m | v :: l => put_words l (i + 1) (mput 4 m (4 * i) v) end.

Section strings.
Context (can_alloc : Z -> bool).
Fixpoint twice (fuel : nat) (size new_size : Z) : option Z :=
  if size <? new_size then match fuel with O => None | S fuel => twice fuel (i32 (size * 2)) new_size end else Some size.
Definition tok_str_realloc (new_size : Z) (s : TokenString) : option TokenString :=
  size ← twice 32 (if allocated_len s <? 16 then 16 else allocated_len s) new_size;
  if allocated_len s <? size then
    if can_alloc (size * 4) then Some (TokStr (ts_str s) (ts_len s) (lastlen s) size (last_line_num s)) else None
  else Some s.
Definition set_words (l : list Z) (i : Z) (s : TokenString) : TokenString :=
  TokStr (put_words l i (ts_str s)) (ts_len s) (lastlen s) (allocated_len s) (last_line_num s).
Definition set_len (v : Z) (s : TokenString) : TokenString := TokStr (ts_str s) v (lastlen s) (allocated_len s) (last_line_num s).
Definition set_lastlen (v : Z) (s : TokenString) : TokenString := TokStr (ts_str s) (ts_len s) v (allocated_len s) (last_line_num s).
Definition set_last_line_num (v : Z) (s : TokenString) : TokenString := TokStr (ts_str s) (ts_len s) (lastlen s) (allocated_len s) v.
Definition tok_str_add (t : Z) (s : TokenString) : option TokenString :=
  s ← (if allocated_len s <=? ts_len s then tok_str_realloc (ts_len s + 1) s else Some s);
  Some (set_len (ts_len s + 1) (set_words [t] (ts_len s) s)).

(** The cases of the switch. *)
Definition one_word (t : Z) : bool := bool_decide (t ∈ [TOK_CINT; TOK_CUINT; TOK_CCHAR; TOK_LCHAR; TOK_CFLOAT; TOK_LINENUM]).
Definition text (t : Z) : bool := bool_decide (t ∈ [TOK_PPNUM; TOK_PPSTR; TOK_STR; TOK_LSTR]).
Definition two_words (t : Z) : bool := bool_decide (t ∈ [TOK_CDOUBLE; TOK_CLLONG; TOK_CULLONG; TOK_CLONG; TOK_CULONG]).
(** The ints that hold [size] bytes. *)
Definition text_words (size : Z) : Z := u64 (size + 3) / 4.
Definition tok_str_add2 (t : Z) (cv : CValue) (s : TokenString) : option TokenString :=
  let len := ts_len s in
  let s := set_lastlen len s in
  s ← (if allocated_len s <=? len + TOK_MAX_SIZE then tok_str_realloc (len + TOK_MAX_SIZE + 1) s else Some s);
  let s := set_words [t] len s in
  let len := len + 1 in
  if one_word t then Some (set_len (len + 1) (set_words [tab_at cv 0] len s))
  else if text t then
    let words := 1 + text_words (cv_size cv) in
    s ← (if allocated_len s <=? len + words then tok_str_realloc (i32 (len + words + 1)) s else Some s);
    let s := set_words [cv_size cv] len s in
    let m := aputs (firstn (Z.to_nat (cv_size cv)) (cv_data cv)) (4 * (len + 1)) (ts_str s) in
    Some (set_len (i32 (len + words)) (TokStr m (ts_len s) (lastlen s) (allocated_len s) (last_line_num s)))
  else if two_words t then Some (set_len (len + 2) (set_words [tab_at cv 0; tab_at cv 1] len s))
  else if t =? TOK_CLDOUBLE then Some (set_len (len + 4) (set_words [tab_at cv 0; tab_at cv 1; tab_at cv 2; tab_at cv 3] len s))
  else Some (set_len len s).
(** [tok_str_add_tok], with the current line, token and value. *)
Definition tok_str_add_tok (line_num t : Z) (cv : CValue) (s : TokenString) : option TokenString :=
  s ← (if line_num =? last_line_num s then Some s
       else let s := set_last_line_num line_num s in tok_str_add2 TOK_LINENUM (Cv [u32 line_num; if line_num <? 0 then 4294967295 else 0; 0; 0] 0 []) s);
  tok_str_add2 t cv s.
End strings.

(** [tok_get]: the token at [p], the index behind it and the value. *)
Definition tok_get (m : gmap Z Z) (p : Z) (cv : CValue) : Z * Z * CValue :=
  let t := get_word m p in
  let w i := get_word m (p + i) in
  if bool_decide (t ∈ [TOK_CINT; TOK_CCHAR; TOK_LCHAR; TOK_LINENUM]) then (t, p + 2, set_tab [u32 (w 1); if w 1 <? 0 then 4294967295 else 0] cv)
  else if t =? TOK_CUINT then (t, p + 2, set_tab [u32 (w 1); 0] cv)
  else if t =? TOK_CFLOAT then (t, p + 2, set_tab [u32 (w 1)] cv)
  else if text t then
    let size := w 1 in
    (t, p + 2 + text_words size, set_str size (map (fun i => aget m (4 * (p + 2) + i)) (seqZ 0 size)) cv)
  else if two_words t then (t, p + 3, set_tab [u32 (w 1); u32 (w 2)] cv)
  else if t =? TOK_CLDOUBLE then (t, p + 5, set_tab [u32 (w 1); u32 (w 2); u32 (w 3); u32 (w 4)] cv)
  else (t, p + 1, cv).
(** The macro [TOK_GET]. *)
Definition TOK_GET (m : gmap Z Z) (p : Z) (cv : CValue) : Z * Z * CValue :=
  let t := get_word m p in if TOK_HAS_VALUE t then tok_get m p cv else (t, p + 1, cv).
