(* ===== verification/TokenTab.v ===== *)
(** The table of identifiers interns: one spelling has one token, found again for ever. *)
From S2P Require Import Prelude Token.

(** The tokens of a bucket. *)
Inductive chain (m : gmap Z TokenSym) : Z -> list Z -> Prop :=
  | chain_end : chain m 0 []
  | chain_next t ts l : t <> 0 -> m !! t = Some ts -> chain m (hash_next ts) l -> chain m t (t :: l).
#[export] Hint Constructors chain : core.

Definition bucket (s : list Z) : Z := tok_hash s mod TOK_HASH_SIZE.
Record tokens_ok (tt : token_table) : Prop := {
  tk_range : TOK_IDENT <= tok_ident tt <= SYM_FIRST_ANOM;
  tk_domain t : is_Some (table_ident tt !! t) <-> TOK_IDENT <= t < tok_ident tt;
  tk_fields t ts : table_ident tt !! t = Some ts -> tok ts = t /\ len ts = Z.of_nat (length (str ts));
  tk_chain h : exists l, chain (table_ident tt) (aget (hash_ident tt) h) l /\ NoDup l /\
    forall t, t ∈ l <-> exists ts, table_ident tt !! t = Some ts /\ bucket (str ts) = h;
  tk_unique t t' ts ts' : table_ident tt !! t = Some ts -> table_ident tt !! t' = Some ts' -> str ts = str ts' -> t = t'
}.
Definition spelled (tt : token_table) (t : Z) (s : list Z) : Prop := exists ts, table_ident tt !! t = Some ts /\ str ts = s.

Lemma tokens_init_ok : tokens_ok token_syms_init.
Proof.
  split; cbn.
  - unfold TOK_IDENT, SYM_FIRST_ANOM. lia.
  - intros t. rewrite lookup_empty. split; [by intros [? ?]|lia].
  - intros t ts. by rewrite lookup_empty.
  - intros h. exists []. rewrite aget_empty. split; [done|]. split; [constructor|]. intros t. split; [by intros ?%elem_of_nil|]. intros (ts & H & _). by rewrite lookup_empty in H.
  - intros t t' ts ts' H. by rewrite lookup_empty in H.
Qed.

Lemma chain_in m p l t : chain m p l -> t ∈ l -> is_Some (m !! t).
Proof. induction 1 as [|q ts l Hq E C IH]; intros H; [by apply elem_of_nil in H|]. apply elem_of_cons in H as [->|H]; [by exists ts|auto]. Qed.
Lemma chain_head m p l : chain m p l -> p = hd 0 l.
Proof. by destruct 1. Qed.
(** A chain does not see changes outside it. *)
Lemma chain_ext m m' p l : chain m p l -> (forall t ts, t ∈ l -> m !! t = Some ts -> exists ts', m' !! t = Some ts' /\ hash_next ts' = hash_next ts) -> chain m' p l.
Proof.
  induction 1 as [|q ts l Hq E C IH]; intros H; [done|]. destruct (H q ts) as (ts' & E' & Hn); [by left|done|].
  apply (chain_next _ q ts'); [done|done|]. rewrite Hn. apply IH. intros t u Ht. apply H. by right.
Qed.
Lemma chain_snoc m p l q ts' : chain m p l -> NoDup (l ++ [q]) -> q <> 0 -> m !! q = Some ts' -> hash_next ts' = 0 -> l <> [] ->
  chain (alter (set_hash_next q) (List.last l 0) m) p (l ++ [q]).
Proof.
  intros C Hd Hq E' Hn. revert Hd. induction C as [|p ts l Hp E C IH]; intros Hd Hl; [done|]. cbn [app] in *. apply NoDup_cons in Hd as [Hnin Hd].
  destruct l as [|p2 l].
  - inversion C as [Hz|]; subst. cbn. apply (chain_next _ p (set_hash_next q ts)); [done|by rewrite lookup_alter_eq, E|]. cbn. apply (chain_next _ q ts'); [done| |by rewrite Hn].
    rewrite lookup_alter_ne; [done|]. intros ->. apply Hnin. by left.
  - change (List.last (p :: p2 :: l) 0) with (List.last (p2 :: l) 0). specialize (IH Hd ltac:(done)).
    apply (chain_next _ p ts); [done| |done]. rewrite lookup_alter_ne; [done|]. intros Hlast. apply Hnin. rewrite <- Hlast. apply elem_of_app. left.
    destruct (exists_last (l := p2 :: l) ltac:(done)) as (l' & z & ->). rewrite last_last. apply elem_of_app. right. by left.
Qed.

Lemma exists_last' (l : list Z) : l = [] \/ exists l0 z, l = l0 ++ [z].
Proof. destruct l as [|x l]; [by left|right]. destruct (exists_last (l := x :: l) ltac:(done)) as (l0 & z & E). by exists l0, z. Qed.
Lemma last_default (l : list Z) x d d' : List.last (x :: l) d = List.last (x :: l) d'.
Proof. revert x. induction l as [|y l IH]; intros x; [done|]. apply IH. Qed.
Lemma walk_spec fuel m s prev p l : chain m p l -> (length l < fuel)%nat -> (forall t ts, t ∈ l -> m !! t = Some ts -> len ts = Z.of_nat (length (str ts))) ->
  (exists t ts, t ∈ l /\ m !! t = Some ts /\ str ts = s /\ tok_walk fuel m s prev p = Some (inl t)) \/
  ((forall t ts, t ∈ l -> m !! t = Some ts -> str ts <> s) /\ tok_walk fuel m s prev p = Some (inr (List.last l prev))).
Proof.
  intros C. revert fuel prev. induction C as [|p ts l Hp E C IH]; intros fuel prev Hf Hlen; (destruct fuel as [|fuel]; [cbn in Hf; lia|]); cbn [tok_walk].
  { right. split; [by intros t ts ?%elem_of_nil|done]. }
  replace (p =? 0) with false by lia. rewrite E. cbn [mbind option_bind].
  assert ((len ts =? Z.of_nat (length s)) && bool_decide (take (length s) (str ts) = s) = bool_decide (str ts = s)) as ->.
  { rewrite (Hlen p ts) by (done || by left). apply Bool.eq_true_iff_eq. rewrite andb_true_iff, !bool_decide_eq_true, Z.eqb_eq. split.
    - intros [H1 H2]. by rewrite firstn_all2 in H2 by lia.
    - intros <-. by rewrite firstn_all. }
  case_bool_decide as Hs; [left; exists p, ts; split; [by left|done]|].
  destruct (IH fuel p ltac:(cbn in Hf; lia) ltac:(intros t u Ht; apply Hlen; by right)) as [(t & u & H1 & H2 & H3 & H4)|[H1 H2]].
  - left. exists t, u. split; [by right|done].
  - right. split; [|rewrite H2; destruct l as [|y l]; [done|]; do 2 f_equal; exact (last_default l y p prev)].
    intros t u [->|Ht]%elem_of_cons Hu; [by assert (u = ts) as -> by congruence|by eapply H1].
Qed.
Lemma bucket_length tt l : tokens_ok tt -> NoDup l -> (forall t, t ∈ l -> is_Some (table_ident tt !! t)) -> (length l <= Z.to_nat (tok_ident tt - TOK_IDENT))%nat.
Proof.
  intros Hok Hd Hin. rewrite <- (length_seqZ TOK_IDENT). apply submseteq_length, NoDup_submseteq; [done|]. intros t Ht.
  apply elem_of_seqZ. apply Hin, (tk_domain _ Hok) in Ht. lia.
Qed.

(** The buckets after adding a token. *)
Lemma insert_chains tt s l : chain (table_ident tt) (aget (hash_ident tt) (bucket s)) l -> tokens_ok tt -> NoDup l ->
  (forall t, t ∈ l <-> exists ts, table_ident tt !! t = Some ts /\ bucket (str ts) = bucket s) ->
  let t := tok_ident tt in let m := <[t := TokSym 0 0 0 0 0 t (Z.of_nat (length s)) s]> (table_ident tt) in
  let tt' := if List.last l 0 =? 0 then Tokens m (aset (hash_ident tt) (bucket s) t) (t + 1)
             else Tokens (alter (set_hash_next t) (List.last l 0) m) (hash_ident tt) (t + 1) in
  forall h, exists l', chain (table_ident tt') (aget (hash_ident tt') h) l' /\ NoDup l' /\
    forall u, u ∈ l' <-> exists ts, table_ident tt' !! u = Some ts /\ bucket (str ts) = h.
Proof.
  intros C Hok Hd Hl t m tt' h. pose proof (tk_range _ Hok) as Hr. unfold TOK_IDENT in Hr.
  assert (table_ident tt !! t = None) as Ht by (apply eq_None_not_Some; rewrite (tk_domain _ Hok); lia).
  assert (t ∉ l) as Htl by (intros Hin; apply Hl in Hin as (ts & E & _); congruence).
  assert (forall u ts, u ∈ l -> table_ident tt !! u = Some ts -> m !! u = Some ts) as Hml.
  { intros u ts Hu E. unfold m. rewrite lookup_insert_ne; [done|]. intros <-. done. }
  assert (NoDup (l ++ [t])) as Hd' by (apply NoDup_app; split; [done|]; split; [by intros x Hx ->%list_elem_of_singleton|apply NoDup_singleton]).
  destruct (exists_last' l) as [->|(l0 & z & ->)].
  - (* a new bucket *) unfold tt'. cbn [List.last Z.eqb hash_ident table_ident]. destruct (decide (h = bucket s)) as [->|Hh].
    + exists [t]. rewrite aget_aset_eq. split; [apply (chain_next _ t (TokSym 0 0 0 0 0 t (Z.of_nat (length s)) s)); [lia|unfold m; by rewrite lookup_insert_eq|constructor]|].
      split; [apply NoDup_singleton|]. intros u. rewrite list_elem_of_singleton. split; [intros ->; eexists; unfold m; by rewrite lookup_insert_eq|].
      intros (ts & E & Eb). unfold m in E. destruct (decide (u = t)) as [|Hu]; [done|]. rewrite lookup_insert_ne in E by done.
      assert (u ∈ []) as []%elem_of_nil by (apply Hl; by exists ts).
    + rewrite aget_aset_ne by done. destruct (tk_chain _ Hok h) as (lh & Ch & Dh & Mh). exists lh.
      assert (t ∉ lh) as Hth by (intros Hin; apply Mh in Hin as (ts & E & _); congruence).
      split; [apply (chain_ext _ _ _ _ Ch); intros u ts Hu E; exists ts; split; [unfold m; rewrite lookup_insert_ne; [done|by intros <-]|done]|].
      split; [done|]. intros u. rewrite Mh. unfold m. destruct (decide (u = t)) as [->|Hu].
      * rewrite Ht, lookup_insert_eq. split; [by intros (? & ? & _)|]. intros (ts & [= <-] & Eb). done.
      * by rewrite lookup_insert_ne by done.
  - assert (List.last (l0 ++ [z]) 0 = z) as Elast by apply last_last. assert (z <> 0) as Hz.
    { assert (z ∈ l0 ++ [z]) as Hin by (apply elem_of_app; right; by left). apply Hl in Hin as (ts & E & _). assert (is_Some (table_ident tt !! z)) as Hs by (by exists ts).
      apply (tk_domain _ Hok) in Hs. unfold TOK_IDENT in Hs. lia. }
    unfold tt'. rewrite Elast. replace (z =? 0) with false by lia. cbn [hash_ident table_ident].
    assert (forall u ts, alter (set_hash_next t) z m !! u = Some ts -> exists ts0, m !! u = Some ts0 /\ str ts0 = str ts) as Hback.
    { intros u ts E. destruct (decide (u = z)) as [->|Hu]; [rewrite lookup_alter_eq in E|rewrite lookup_alter_ne in E by done; by exists ts].
      destruct (m !! z) as [ts0|]; [|done]. injection E as <-. by exists ts0. }
    assert (forall u ts, m !! u = Some ts -> exists ts0, alter (set_hash_next t) z m !! u = Some ts0 /\ str ts0 = str ts) as Hforth.
    { intros u ts E. destruct (decide (u = z)) as [->|Hu]; [rewrite lookup_alter_eq, E; by eexists|rewrite lookup_alter_ne by done; by exists ts]. }
    assert (forall u b, (exists ts, alter (set_hash_next t) z m !! u = Some ts /\ bucket (str ts) = b) <-> (exists ts, m !! u = Some ts /\ bucket (str ts) = b)) as Hiff.
    { intros u b. split; intros (ts & E & Eb); [destruct (Hback _ _ E) as (x & Ex & Sx)|destruct (Hforth _ _ E) as (x & Ex & Sx)]; exists x; (split; [done|congruence]). }
    destruct (decide (h = bucket s)) as [->|Hh].
    + exists ((l0 ++ [z]) ++ [t]). split; [|split; [done|]].
      * replace z with (List.last (l0 ++ [z]) 0) at 1 by apply last_last.
        apply (chain_snoc _ _ _ _ (TokSym 0 0 0 0 0 t (Z.of_nat (length s)) s)); [|done|lia|unfold m; by rewrite lookup_insert_eq|done|by destruct l0].
        apply (chain_ext _ _ _ _ C). intros u ts Hu E. exists ts. by rewrite (Hml u ts).
      * intros u. rewrite Hiff, elem_of_app, list_elem_of_singleton, Hl. unfold m. destruct (decide (u = t)) as [->|Hu].
        { rewrite lookup_insert_eq. split; [by eexists|by right]. }
        rewrite lookup_insert_ne by done. naive_solver.
    + destruct (tk_chain _ Hok h) as (lh & Ch & Dh & Mh). exists lh.
      assert (t ∉ lh) as Hth by (intros Hin; apply Mh in Hin as (ts & E & _); congruence).
      assert (z ∉ lh) as Hzh.
      { intros Hin. apply Mh in Hin as (ts & E & Eb). assert (z ∈ l0 ++ [z]) as Hin by (apply elem_of_app; right; by left). apply Hl in Hin as (ts' & E' & Eb'). congruence. }
      split; [apply (chain_ext _ _ _ _ Ch); intros u ts Hu E; exists ts; rewrite lookup_alter_ne by congruence; split; [unfold m; rewrite lookup_insert_ne; [done|by intros <-]|done]|].
      split; [done|]. intros u. rewrite Mh, Hiff. unfold m. destruct (decide (u = t)) as [->|Hu].
      * rewrite Ht, lookup_insert_eq. split; [by intros (? & ? & _)|]. intros (ts & [= <-] & Eb). done.
      * by rewrite lookup_insert_ne by done.
Qed.
(** Adding a token at the end of its bucket. *)
Lemma insert_spec tt s l : chain (table_ident tt) (aget (hash_ident tt) (bucket s)) l -> tokens_ok tt -> NoDup l ->
  (forall t, t ∈ l <-> exists ts, table_ident tt !! t = Some ts /\ bucket (str ts) = bucket s) ->
  (forall t ts, t ∈ l -> table_ident tt !! t = Some ts -> str ts <> s) -> tok_ident tt < SYM_FIRST_ANOM ->
  let t := tok_ident tt in let m := <[t := TokSym 0 0 0 0 0 t (Z.of_nat (length s)) s]> (table_ident tt) in
  let tt' := if List.last l 0 =? 0 then Tokens m (aset (hash_ident tt) (bucket s) t) (t + 1)
             else Tokens (alter (set_hash_next t) (List.last l 0) m) (hash_ident tt) (t + 1) in
  tokens_ok tt' /\ spelled tt' t s /\ (forall t0 ts0, table_ident tt !! t0 = Some ts0 -> exists ts0', table_ident tt' !! t0 = Some ts0' /\ str ts0' = str ts0 /\
      sym_identifier ts0' = sym_identifier ts0 /\ sym_struct ts0' = sym_struct ts0 /\ sym_define ts0' = sym_define ts0 /\ sym_label ts0' = sym_label ts0) /\
  tok_ident tt' = t + 1.
Proof.
  intros C Hok Hd Hl Hno Hlt t m tt'. pose proof (tk_range _ Hok) as Hr. unfold TOK_IDENT in Hr.
  assert (table_ident tt !! t = None) as Ht by (apply eq_None_not_Some; rewrite (tk_domain _ Hok); lia).
  assert (t ∉ l) as Htl by (intros Hin; apply Hl in Hin as (ts & E & _); congruence).
  (* every lookup of the new table *)
  assert (exists f, (forall x, f x = x \/ f x = set_hash_next t x) /\ (forall u, u <> List.last l 0 -> table_ident tt' !! u = m !! u) /\
    (forall u, table_ident tt' !! u = m !! u \/ table_ident tt' !! u = set_hash_next t <$> m !! u)) as (_ & _ & Hother & Hlook).
  { exists (fun x => x). split; [by left|]. unfold tt'. destruct (_ =? 0); cbn [table_ident]; [split; [done|by left]|]. split.
    - intros u Hu. by rewrite lookup_alter_ne by congruence.
    - intros u. destruct (decide (u = List.last l 0)) as [->|Hu]; [right; by rewrite lookup_alter_eq|left; by rewrite lookup_alter_ne by congruence]. }
  assert (forall u ts', table_ident tt' !! u = Some ts' -> exists ts, m !! u = Some ts /\ str ts = str ts' /\ tok ts = tok ts' /\ len ts = len ts') as Hback.
  { intros u ts' E. destruct (Hlook u) as [E'|E']; rewrite E' in E; [by exists ts'|]. destruct (m !! u) as [ts|]; [|done]. injection E as <-. by exists ts. }
  assert (forall u ts, m !! u = Some ts -> exists ts', table_ident tt' !! u = Some ts' /\ str ts' = str ts /\
      sym_identifier ts' = sym_identifier ts /\ sym_struct ts' = sym_struct ts /\ sym_define ts' = sym_define ts /\ sym_label ts' = sym_label ts) as Hforth.
  { intros u ts E. destruct (Hlook u) as [E'|E']; rewrite E'; rewrite E; by eexists. }
  assert (tok_ident tt' = t + 1) as Hti by (unfold tt'; by destruct (_ =? 0)).
  assert (m !! t = Some (TokSym 0 0 0 0 0 t (Z.of_nat (length s)) s)) as Hmt by (unfold m; by rewrite lookup_insert_eq).
  assert (forall u, u <> t -> m !! u = table_ident tt !! u) as Hmu by (intros u Hu; unfold m; by rewrite lookup_insert_ne by congruence).
  assert (forall u ts, m !! u = Some ts -> (u = t /\ str ts = s /\ tok ts = t /\ len ts = Z.of_nat (length s)) \/ (u <> t /\ table_ident tt !! u = Some ts)) as Hm.
  { intros u ts E. destruct (decide (u = t)) as [->|Hu]; [left; rewrite Hmt in E; by injection E as <-|right; by rewrite Hmu in E]. }
  split; [|split; [destruct (Hforth _ _ Hmt) as (ts' & E & Es & _); by exists ts'|split; [|done]]].
  2:{ intros t0 ts0 E0. apply Hforth. rewrite Hmu; [done|]. intros ->. congruence. }
  split.
  - rewrite Hti. unfold TOK_IDENT. lia.
  - intros u. rewrite Hti. transitivity (is_Some (m !! u)).
    { split; intros [ts E]; [destruct (Hback _ _ E) as (x & Ex & _)|destruct (Hforth _ _ E) as (x & Ex & _)]; by exists x. }
    destruct (decide (u = t)) as [->|Hu]; [rewrite Hmt; split; [unfold TOK_IDENT; lia|by eexists]|]. rewrite Hmu by done. rewrite (tk_domain _ Hok). unfold t in *. lia.
  - intros u ts' E. destruct (Hback _ _ E) as (ts & Em & E1 & E2 & E3). rewrite <- E1, <- E2, <- E3.
    destruct (Hm _ _ Em) as [(-> & -> & -> & ->)|[_ Eu]]; [done|by eapply tk_fields].
  - intros h. by apply (insert_chains tt s l).
  - intros u u' ts ts' E E' Hs. destruct (Hback _ _ E) as (x & Ex & Sx & _). destruct (Hback _ _ E') as (x' & Ex' & Sx' & _).
    destruct (Hm _ _ Ex) as [(-> & S1 & _)|[_ Eu]], (Hm _ _ Ex') as [(-> & S2 & _)|[_ Eu']]; [done| | |].
    + exfalso. apply (Hno u' x'); [apply Hl; exists x'; split; [done|]; f_equal; congruence|done|congruence].
    + exfalso. apply (Hno u x); [apply Hl; exists x; split; [done|]; f_equal; congruence|done|congruence].
    + eapply tk_unique; [done|exact Eu|exact Eu'|congruence].
Qed.


