(* ===== verification/TokenStr.v ===== *)
(** Token strings are read back as they were written: [tok_get] after [tok_str_add2]. *)
From S2P Require Import Prelude Token.

(** The ints a token takes. *)
Definition width (t : Z) (cv : CValue) : Z :=
  if one_word t then 2 else if text t then 2 + (cv_size cv + 3) / 4 else if two_words t then 3 else if t =? TOK_CLDOUBLE then 5 else 1.
Definition signed_word (t : Z) : bool := bool_decide (t ∈ [TOK_CINT; TOK_CCHAR; TOK_LCHAR; TOK_LINENUM]).
Definition sign_word (w : Z) : Z := if w <? 2147483648 then 0 else 4294967295.
(** The values a token can carry: an int is extended to the union's [i], by its kind. *)
Definition value_ok (t : Z) (cv : CValue) : Prop :=
  Forall (fun w => isu32 w) (cv_tab cv) /\
  (signed_word t = true -> tab_at cv 1 = sign_word (tab_at cv 0)) /\ (t = TOK_CUINT -> tab_at cv 1 = 0) /\
  (text t = true -> cv_size cv = Z.of_nat (length (cv_data cv)) /\ Forall (fun b => isu8 b) (cv_data cv)).
(** Equal in what the token uses of the union. *)
Definition same_value (t : Z) (cv cv' : CValue) : Prop :=
  if text t then cv_size cv' = cv_size cv /\ cv_data cv' = cv_data cv
  else if t =? TOK_CLDOUBLE then forall i, (i < 4)%nat -> tab_at cv' i = tab_at cv i
  else if t =? TOK_CFLOAT then tab_at cv' 0 = tab_at cv 0
  else if TOK_HAS_VALUE t then tab_at cv' 0 = tab_at cv 0 /\ tab_at cv' 1 = tab_at cv 1
  else True.

(** ** Words *)

Lemma get_put m i v : -2147483648 <= v < 4294967296 -> get_word (mput 4 m (4 * i) v) i = i32 v.
Proof. intros H. unfold get_word. rewrite mget_mput_same. change (256 ^ Z.of_nat 4) with 4294967296. unfold i32. zlia. Qed.
Lemma get_ext m m' i : (forall a, 4 * i <= a < 4 * i + 4 -> aget m a = aget m' a) -> get_word m i = get_word m' i.
Proof. intros H. unfold get_word. f_equal. by apply mget_ext. Qed.
Lemma aget_put_words l i m a : a < 4 * i \/ 4 * (i + Z.of_nat (length l)) <= a -> aget (put_words l i m) a = aget m a.
Proof. revert i m. induction l as [|v l IH]; intros i m H; cbn [put_words length] in *; [done|]. rewrite IH by lia. apply aget_mput_other. lia. Qed.
Lemma get_put_words l i m k v : l !! k = Some v -> -2147483648 <= v < 4294967296 -> get_word (put_words l i m) (i + Z.of_nat k) = i32 v.
Proof.
  revert i m k. induction l as [|w l IH]; intros i m k E Hv; [done|]. destruct k as [|k]; cbn [put_words].
  - injection E as ->. rewrite Z.add_0_r. rewrite <- (get_put m i v Hv). apply get_ext. intros a Ha. apply aget_put_words. lia.
  - replace (i + Z.of_nat (S k)) with (i + 1 + Z.of_nat k) by lia. by apply IH.
Qed.
Lemma token_u32_i32 v : isu32 v -> u32 (i32 v) = v.
Proof. unfold u32, i32. zlia. Qed.

(** ** Growing *)

Lemma twice_spec fuel size need : 0 < size -> need <= size * 2 ^ Z.of_nat fuel -> size < 2 ^ 29 -> need < 2 ^ 29 ->
  exists r, twice fuel size need = Some r /\ need <= r /\ size <= r < 2 ^ 30.
Proof.
  revert size. induction fuel as [|fuel IH]; intros size Hs Hn Hm Hb; cbn [twice].
  - change (2 ^ Z.of_nat 0) with 1 in Hn. replace (size <? need) with false by lia. exists size. split; [done|lia].
  - destruct (Z.ltb_spec size need); [|exists size; split; [done|lia]]. rewrite i32_small by lia. rewrite Nat2Z.inj_succ, Z.pow_succ_r in Hn by lia.
    destruct (Z.lt_ge_cases (size * 2) (2 ^ 29)).
    + destruct (IH (size * 2)) as (r & E & H1 & H2); [lia|lia|lia|lia|]. exists r. split; [done|lia].
    + exists (size * 2). destruct fuel; cbn [twice]; replace (size * 2 <? need) with false by lia; (split; [done|lia]).
Qed.
(** A token string whose ints lie in its array. *)
Definition string_ok (s : TokenString) : Prop := 0 <= ts_len s <= allocated_len s /\ allocated_len s < 2 ^ 30.
Section growing.
Context (can_alloc : Z -> bool).
Definition out_of_memory : Prop := exists n, can_alloc n = false.
Lemma realloc_spec need s : 0 <= allocated_len s < need -> need < 2 ^ 29 ->
  match tok_str_realloc can_alloc need s with
  | Some s' => exists n, s' = TokStr (ts_str s) (ts_len s) (lastlen s) n (last_line_num s) /\ need <= n < 2 ^ 30
  | None => out_of_memory
  end.
Proof.
  intros Ha Hn. unfold tok_str_realloc. destruct (twice_spec 32 (if allocated_len s <? 16 then 16 else allocated_len s) need) as (r & -> & H1 & H2);
    [destruct (_ <? 16) eqn:?; lia|destruct (_ <? 16) eqn:?; change (2 ^ Z.of_nat 32) with 4294967296; lia|destruct (_ <? 16) eqn:?; lia|done|].
  cbn [mbind option_bind]. replace (allocated_len s <? r) with true by lia. destruct (can_alloc (r * 4)) eqn:E; [|by exists (r * 4)]. exists r. split; [done|lia].
Qed.
Lemma ensure_spec need s : string_ok s -> need < 2 ^ 29 - 1 ->
  match (if allocated_len s <=? need then tok_str_realloc can_alloc (need + 1) s else Some s) with
  | Some s' => exists n, s' = TokStr (ts_str s) (ts_len s) (lastlen s) n (last_line_num s) /\ need < n < 2 ^ 30 /\ allocated_len s <= n
  | None => out_of_memory
  end.
Proof.
  intros [H1 H2] Hn. destruct (Z.leb_spec (allocated_len s) need) as [H|H].
  - pose proof (realloc_spec (need + 1) s ltac:(lia) ltac:(lia)) as R. destruct (tok_str_realloc _ _ _); [|done]. destruct R as (n & -> & R). exists n. split; [done|lia].
  - exists (allocated_len s). split; [by destruct s|lia].
Qed.
End growing.

(** ** One token *)

Lemma kinds t : TOK_HAS_VALUE t = one_word t || text t || two_words t || (t =? TOK_CLDOUBLE).
Proof.
  unfold TOK_HAS_VALUE, one_word, text, two_words. apply Bool.eq_true_iff_eq.
  rewrite !orb_true_iff, andb_true_iff, !bool_decide_eq_true, !list_elem_of_In, Z.eqb_eq. cbn [In].
  unfold TOK_CCHAR, TOK_LCHAR, TOK_CINT, TOK_CUINT, TOK_CLLONG, TOK_CULLONG, TOK_CLONG, TOK_CULONG, TOK_STR, TOK_LSTR, TOK_CFLOAT, TOK_CDOUBLE, TOK_CLDOUBLE, TOK_PPNUM, TOK_PPSTR, TOK_LINENUM. lia.
Qed.
(** The words of a token that carries no text. *)
Definition plain_words (t : Z) (cv : CValue) : list Z :=
  if one_word t then [tab_at cv 0] else if two_words t then [tab_at cv 0; tab_at cv 1]
  else if t =? TOK_CLDOUBLE then [tab_at cv 0; tab_at cv 1; tab_at cv 2; tab_at cv 3] else [].
Lemma tab_word cv i : Forall (fun w => isu32 w) (cv_tab cv) -> isu32 (tab_at cv i).
Proof. intros H. unfold tab_at. destruct (nth_in_or_default i (cv_tab cv) 0) as [Hin| ->]; [|lia]. by apply (proj1 (List.Forall_forall _ _) H). Qed.
Lemma get_plain t cv m p cv0 : text t = false -> value_ok t cv -> -2147483648 <= t < 2147483648 ->
  (forall k w, (t :: plain_words t cv) !! k = Some w -> get_word m (p + Z.of_nat k) = i32 w) ->
  exists cv', TOK_GET m p cv0 = (t, p + width t cv, cv') /\ same_value t cv cv'.
Proof.
  intros Ht (Hw & Hs & Hu & _) Hr H.
  pose proof (H 0%nat t eq_refl) as E0. change (Z.of_nat 0) with 0 in E0. rewrite Z.add_0_r, i32_small in E0 by done.
  unfold TOK_GET. rewrite E0. unfold width, same_value. rewrite Ht. destruct (one_word t) eqn:E1.
  - pose proof (H 1%nat (tab_at cv 0)) as W1. unfold plain_words in W1. rewrite E1 in W1. specialize (W1 eq_refl). change (p + Z.of_nat 1) with (p + 1) in W1.
    pose proof (token_u32_i32 _ (tab_word cv 0 Hw)) as Eu. pose proof (tab_word cv 0 Hw) as B0.
    unfold tok_get. rewrite E0, W1, Eu. assert ((i32 (tab_at cv 0) <? 0) = negb (tab_at cv 0 <? 2147483648)) as -> by (unfold i32; destruct (Z.ltb_spec (tab_at cv 0) 2147483648); cbn [negb]; zlia).
    apply bool_decide_eq_true, list_elem_of_In in E1. cbn [In] in E1.
    assert (signed_word t = true \/ t = TOK_CUINT \/ t = TOK_CFLOAT) as [Hk|[-> | ->]].
    { unfold signed_word. rewrite bool_decide_eq_true, list_elem_of_In. cbn [In]. intuition congruence. }
    + pose proof (Hs Hk) as Hs1. unfold signed_word in Hk. rewrite Hk.
      assert (TOK_HAS_VALUE t = true) as -> by (rewrite kinds; unfold one_word; rewrite bool_decide_eq_true_2; [done|apply list_elem_of_In; cbn [In]; tauto]).
      eexists. split; [done|]. assert (t <> TOK_CLDOUBLE /\ t <> TOK_CFLOAT) as [H1 H2].
      { apply bool_decide_eq_true, list_elem_of_In in Hk. cbn [In] in Hk. unfold TOK_CINT, TOK_CCHAR, TOK_LCHAR, TOK_LINENUM, TOK_CLDOUBLE, TOK_CFLOAT in *. lia. }
      replace (t =? TOK_CLDOUBLE) with false by lia. replace (t =? TOK_CFLOAT) with false by lia. split; [done|]. cbn. rewrite Hs1. unfold sign_word. by destruct (_ <? _).
    + eexists. split; [done|]. split; [done|]. cbn. by rewrite Hu.
    + eexists. split; [done|]. done.
  - destruct (two_words t) eqn:E2.
    + unfold plain_words in H. rewrite E1, E2 in H. pose proof (H 1%nat _ eq_refl) as W1. pose proof (H 2%nat _ eq_refl) as W2. change (p + Z.of_nat 1) with (p + 1) in W1. change (p + Z.of_nat 2) with (p + 2) in W2.
      pose proof (token_u32_i32 _ (tab_word cv 0 Hw)) as U1. pose proof (token_u32_i32 _ (tab_word cv 1 Hw)) as U2.
      apply bool_decide_eq_true, list_elem_of_In in E2. cbn [In] in E2.
      destruct E2 as [<-|[<-|[<-|[<-|[<-|[]]]]]]; unfold tok_get; rewrite E0, W1, W2, U1, U2; eexists; (split; [done|]); by split.
    + destruct (Z.eqb_spec t TOK_CLDOUBLE) as [->|Hl].
      * pose proof (H 1%nat _ eq_refl) as W1. pose proof (H 2%nat _ eq_refl) as W2. pose proof (H 3%nat _ eq_refl) as W3. pose proof (H 4%nat _ eq_refl) as W4.
        change (p + Z.of_nat 1) with (p + 1) in W1. change (p + Z.of_nat 2) with (p + 2) in W2. change (p + Z.of_nat 3) with (p + 3) in W3. change (p + Z.of_nat 4) with (p + 4) in W4.
        unfold tok_get. rewrite E0, W1, W2, W3, W4, !token_u32_i32 by (by apply tab_word). eexists. split; [done|]. intros [|[|[|[|i]]]] Hi; [done..|lia].
      * rewrite kinds, E1, Ht, E2. replace (t =? TOK_CLDOUBLE) with false by lia. cbn [orb]. exists cv0. split; [done|]. destruct (Z.eqb_spec t TOK_CFLOAT) as [->|_]; [discriminate E1|done].
Qed.

(** A token with text. *)
Lemma get_text t cv m p cv0 : text t = true -> value_ok t cv -> -2147483648 <= t < 2147483648 -> cv_size cv < 2147483648 ->
  get_word m p = t -> get_word m (p + 1) = cv_size cv -> (forall i, 0 <= i < cv_size cv -> aget m (4 * (p + 2) + i) = nth (Z.to_nat i) (cv_data cv) 0) ->
  exists cv', TOK_GET m p cv0 = (t, p + width t cv, cv') /\ same_value t cv cv'.
Proof.
  intros Ht (_ & _ & _ & Hd) Hr Hsz E0 E1 Hm. destruct (Hd Ht) as [Hlen _].
  assert (one_word t = false /\ two_words t = false /\ t <> TOK_CUINT /\ t <> TOK_CFLOAT /\ signed_word t = false) as (H1 & H2 & H3 & H4 & H5).
  { pose proof Ht as Ht'. apply bool_decide_eq_true, list_elem_of_In in Ht'. cbn [In] in Ht'. by destruct Ht' as [<-|[<-|[<-|[<-|[]]]]]. }
  unfold TOK_GET. rewrite E0, kinds, H1, Ht. cbn [orb]. unfold tok_get. rewrite E0, E1. fold (signed_word t). rewrite H5, Ht.
  replace (t =? TOK_CUINT) with false by lia. replace (t =? TOK_CFLOAT) with false by lia.
  eexists. split; [unfold width; rewrite H1, Ht; unfold text_words; rewrite u64_small by lia; do 2 f_equal; lia|].
  unfold same_value. rewrite Ht. cbn [cv_size cv_data set_str]. split; [done|]. apply list_eq. intros i. change (map ?f ?x) with (f <$> x). rewrite list_lookup_fmap.
  destruct (decide (i < length (cv_data cv))%nat) as [Hi|Hi].
  - rewrite lookup_seqZ_lt by lia. cbn. rewrite Hm by lia. destruct (lookup_lt_is_Some_2 (cv_data cv) i Hi) as [b Eb]. rewrite Eb. f_equal.
    replace (Z.to_nat (0 + Z.of_nat i)) with i by lia. apply (f_equal (default 0)) in Eb. by rewrite <- nth_lookup in Eb.
  - rewrite lookup_seqZ_ge by lia. cbn. symmetry. apply lookup_ge_None. lia.
Qed.

Section adding.
Context (can_alloc : Z -> bool).
(** What adding a token leaves. *)
Definition added (t : Z) (cv : CValue) (s s' : TokenString) : Prop :=
  string_ok s' /\ ts_len s' = ts_len s + width t cv /\ (forall a, a < 4 * ts_len s -> aget (ts_str s') a = aget (ts_str s) a) /\
  forall m cv0, (forall a, 4 * ts_len s <= a < 4 * ts_len s' -> aget m a = aget (ts_str s') a) ->
    exists cv', TOK_GET m (ts_len s) cv0 = (t, ts_len s', cv') /\ same_value t cv cv'.
Lemma add2_plain t cv s n : text t = false -> value_ok t cv -> -2147483648 <= t < 2147483648 -> 0 <= ts_len s -> ts_len s + 4 < n < 2 ^ 30 ->
  added t cv s (TokStr (put_words (t :: plain_words t cv) (ts_len s) (ts_str s)) (ts_len s + width t cv) (ts_len s) n (last_line_num s)).
Proof.
  intros Ht Hv Hr Hl Hn.
  assert (width t cv = Z.of_nat (length (t :: plain_words t cv)) /\ width t cv <= 5) as [Hw Hw5].
  { unfold width, plain_words. rewrite Ht. destruct (one_word t); [done|]. destruct (two_words t); [done|]. by destruct (t =? TOK_CLDOUBLE). }
  split; [unfold string_ok; cbn [ts_len allocated_len]; lia|]. split; [done|]. split.
  - intros a Ha. apply aget_put_words. lia.
  - intros m cv0 Hm. cbn [ts_len ts_str] in *. apply get_plain; [done..|]. intros k w E. pose proof (lookup_lt_Some _ _ _ E) as Hk.
    rewrite <- (get_put_words (t :: plain_words t cv) (ts_len s) (ts_str s) k w E).
    + apply get_ext. intros a Ha. apply Hm. lia.
    + destruct k as [|k]; [injection E as <-; lia|]. assert (exists i, w = tab_at cv i) as [i ->].
      { cbn [lookup list_lookup] in E. unfold plain_words in E. destruct (one_word t); [destruct k; [injection E as <-; by eexists|done]|].
        destruct (two_words t); [do 2 (destruct k; [injection E as <-; by eexists|]); done|]. destruct (t =? TOK_CLDOUBLE); [do 4 (destruct k; [injection E as <-; by eexists|]); done|done]. }
      destruct Hv as [Hv _]. pose proof (tab_word cv i Hv). lia.
Qed.
Lemma add2_text t cv s n q : text t = true -> one_word t = false -> value_ok t cv -> -2147483648 <= t < 2147483648 -> 0 <= ts_len s ->
  width t cv = 2 + q -> cv_size cv <= 4 * q -> cv_size cv < 2147483648 -> ts_len s + 2 + q < n < 2 ^ 30 ->
  added t cv s (TokStr (aputs (firstn (Z.to_nat (cv_size cv)) (cv_data cv)) (4 * (ts_len s + 1 + 1)) (put_words [cv_size cv] (ts_len s + 1) (put_words [t] (ts_len s) (ts_str s))))
    (ts_len s + 1 + (1 + q)) (ts_len s) n (last_line_num s)).
Proof.
  intros Ht H1 Hv Hr Hl Hw Hq Hsz Hn. pose proof Hv as (_ & _ & _ & Hd). destruct (Hd Ht) as [Hlen Hb]. rewrite Hlen at 1. rewrite Nat2Z.id, firstn_all.
  set (m1 := put_words [cv_size cv] (ts_len s + 1) (put_words [t] (ts_len s) (ts_str s))).
  assert (forall a, a < 4 * (ts_len s + 2) -> aget (aputs (cv_data cv) (4 * (ts_len s + 1 + 1)) m1) a = aget m1 a) as Hlow by (intros a Ha; rewrite aget_aputs, bool_decide_eq_false_2 by lia; done).
  split; [unfold string_ok; cbn [ts_len allocated_len]; lia|]. split; [cbn [ts_len]; lia|]. split.
  - intros a Ha. cbn [ts_str]. rewrite Hlow by lia. unfold m1. rewrite !aget_put_words by lia. done.
  - intros m cv0 Hm. cbn [ts_len ts_str] in *. replace (ts_len s + 1 + (1 + q)) with (ts_len s + width t cv) by lia. apply get_text; [done..| | |].
    + transitivity (get_word (put_words [t] (ts_len s) (ts_str s)) (ts_len s)).
      * apply get_ext. intros a Ha. rewrite Hm, Hlow by lia. unfold m1. apply aget_put_words. lia.
      * rewrite <- (Z.add_0_r (ts_len s)) at 2. rewrite (get_put_words [t] (ts_len s) _ 0 t eq_refl) by lia. by apply i32_small.
    + transitivity (get_word m1 (ts_len s + 1)).
      * apply get_ext. intros a Ha. by rewrite Hm, Hlow by lia.
      * unfold m1. rewrite <- (Z.add_0_r (ts_len s + 1)) at 2. rewrite (get_put_words [cv_size cv] (ts_len s + 1) _ 0 _ eq_refl) by lia. apply i32_small. lia.
    + intros i Hi. rewrite Hm by lia. rewrite aget_aputs, bool_decide_eq_true_2 by lia. f_equal. lia.
Qed.
Lemma add2_spec t cv s : string_ok s -> -2147483648 <= t < 2147483648 -> value_ok t cv -> ts_len s + width t cv < 2 ^ 28 ->
  match tok_str_add2 can_alloc t cv s with Some s' => added t cv s s' | None => out_of_memory can_alloc end.
Proof.
  intros Hs Hr Hv Hw. unfold tok_str_add2. set (s0 := set_lastlen (ts_len s) s).
  pose proof (ensure_spec can_alloc (ts_len s + TOK_MAX_SIZE) s0 Hs) as E. unfold TOK_MAX_SIZE in *.
  assert (1 <= width t cv) as Hw1.
  { unfold width. destruct (one_word t); [lia|]. destruct (text t) eqn:Et; [|destruct (two_words t); [lia|]; destruct (t =? TOK_CLDOUBLE); lia].
    destruct Hv as (_ & _ & _ & Hd). destruct (Hd Et). zlia. }
  specialize (E ltac:(lia)). cbn [allocated_len set_lastlen s0] in E |- *. fold s0 in E |- *.
  change (allocated_len s0) with (allocated_len s) in *.
  destruct (if allocated_len s <=? ts_len s + 4 then tok_str_realloc can_alloc (ts_len s + 4 + 1) s0 else Some s0) as [s1|]; [|done].
  destruct E as (n & -> & Hn & Hn'). cbn [mbind option_bind ts_str ts_len lastlen last_line_num set_lastlen s0].
  destruct (text t) eqn:Et.
  - assert (one_word t = false) as E1 by (pose proof Et as Et'; apply bool_decide_eq_true, list_elem_of_In in Et'; cbn [In] in Et'; by destruct Et' as [<-|[<-|[<-|[<-|[]]]]]).
    rewrite E1. unfold width in Hw |- *. rewrite E1, Et in Hw. pose proof Hv as (_ & _ & _ & Hd). destruct (Hd Et) as [Hlen Hb]. destruct Hs as [Hl Hal].
    assert (text_words (cv_size cv) = (cv_size cv + 3) / 4) as Ew by (unfold text_words; rewrite u64_small; [done|zlia]). rewrite Ew.
    set (q := (cv_size cv + 3) / 4) in *. assert (cv_size cv <= 4 * q /\ 0 <= q) as [Hq Hq0] by (unfold q; zlia).
    set (s1 := set_words [t] (ts_len s) (TokStr (ts_str s) (ts_len s) (ts_len s) n (last_line_num s))).
    assert (string_ok s1) as Hs1 by (unfold string_ok; cbn; lia).
    pose proof (ensure_spec can_alloc (ts_len s + 1 + (1 + q)) s1 Hs1 ltac:(lia)) as E. cbn [allocated_len set_words s1] in E |- *.
    rewrite (i32_small (ts_len s + 1 + (1 + q) + 1)) by lia.
    destruct (if n <=? ts_len s + 1 + (1 + q) then _ else _) as [s2|]; [|exact E]. destruct E as (n2 & -> & Hn2 & Hn2').
    cbn [mbind option_bind]. rewrite (i32_small (ts_len s + 1 + (1 + q))) by lia. refine (add2_text t cv s n2 q Et E1 Hv Hr ltac:(lia) _ Hq ltac:(lia) ltac:(lia)). unfold width. by rewrite E1, Et.
  - pose proof (add2_plain t cv s n Et Hv Hr ltac:(apply Hs) ltac:(lia)) as R. unfold width, plain_words in R. rewrite Et in R.
    rewrite <- !Z.add_assoc. destruct (one_word t); [exact R|]. destruct (two_words t); [exact R|]. destruct (t =? TOK_CLDOUBLE); exact R.
Qed.
End adding.

(** ** Token strings *)

Fixpoint add_all (can_alloc : Z -> bool) (l : list (Z * CValue)) (s : TokenString) : option TokenString :=
  match l with [] => Some s | (t, cv) :: l => s ← tok_str_add2 can_alloc t cv s; add_all can_alloc l s end.
(** The first [n] tokens from [p] on, read into the same [CValue], and where the next one starts. *)
Fixpoint read_all (n : nat) (m : gmap Z Z) (p : Z) (cv : CValue) : list (Z * CValue) * Z :=
  match n with
  | O => ([], p)
  | S n => let '(t, p, cv) := TOK_GET m p cv in let '(l, p) := read_all n m p cv in ((t, cv) :: l, p)
  end.
Definition total (l : list (Z * CValue)) : Z := fold_right (fun x v => width (fst x) (snd x) + v) 0 l.
Definition token_ok (x : Z * CValue) : Prop := -2147483648 <= fst x < 2147483648 /\ value_ok (fst x) (snd x).
Lemma width_pos t cv : value_ok t cv -> 1 <= width t cv.
Proof.
  intros (_ & _ & _ & Hd). unfold width. destruct (one_word t); [lia|]. destruct (text t) eqn:Et; [destruct (Hd eq_refl); zlia|].
  destruct (two_words t); [lia|]. destruct (t =? TOK_CLDOUBLE); lia.
Qed.
Lemma total_pos l : Forall token_ok l -> 0 <= total l.
Proof. induction 1 as [|[t cv] l [_ Hv] _ IH]; [done|]. change (total ((t, cv) :: l)) with (width t cv + total l). pose proof (width_pos t cv Hv). lia. Qed.

Lemma add_all_spec can_alloc l s : string_ok s -> Forall token_ok l -> ts_len s + total l < 2 ^ 28 ->
  match add_all can_alloc l s with
  | None => out_of_memory can_alloc
  | Some s' => string_ok s' /\ ts_len s' = ts_len s + total l /\ (forall a, a < 4 * ts_len s -> aget (ts_str s') a = aget (ts_str s) a) /\
      forall m cv0, (forall a, 4 * ts_len s <= a < 4 * ts_len s' -> aget m a = aget (ts_str s') a) ->
        exists l', read_all (length l) m (ts_len s) cv0 = (l', ts_len s') /\
          Forall2 (fun x x' => fst x' = fst x /\ same_value (fst x) (snd x) (snd x')) l l'
  end.
Proof.
  intros Hs Hl. revert s Hs. induction Hl as [|[t cv] l [Hr Hv] Hl IH]; intros s Hs Ht; cbn [add_all total fold_right fst snd] in *.
  { split; [done|]. split; [lia|]. split; [done|]. intros m cv0 _. exists []. split; [done|constructor]. }
  fold (total l) in *. pose proof (total_pos _ Hl) as Htl. pose proof (width_pos _ _ Hv) as Hwp.
  pose proof (add2_spec can_alloc t cv s Hs Hr Hv ltac:(lia)) as A. destruct (tok_str_add2 can_alloc t cv s) as [s1|]; [|done].
  destruct A as (Hs1 & El & Hlow & Hget). cbn [mbind option_bind]. specialize (IH s1 Hs1 ltac:(lia)).
  destruct (add_all can_alloc l s1) as [s'|]; [|done]. destruct IH as (Hs' & El' & Hlow' & Hget').
  split; [done|]. split; [lia|]. split; [intros a Ha; rewrite Hlow', Hlow by lia; done|].
  intros m cv0 Hm. destruct (Hget m cv0) as (cv' & Eg & Hsame); [intros a Ha; rewrite Hm, Hlow' by lia; done|].
  destruct (Hget' m cv') as (l' & Er & Hf); [intros a Ha; apply Hm; lia|].
  exists ((t, cv') :: l'). cbn [length read_all]. rewrite Eg, Er. split; [done|]. constructor; [by split|done].
Qed.

(** C15: A token string is read back as it was written.  Adding any list of tokens with
    [tok_str_add2], whatever their kinds, to a new string either runs out of memory or fills exactly the
    ints the tokens take, all of them inside the array; [TOK_GET] then returns the tokens one after the
    other, each with the value it was added with, and ends where the string ends. *)
Theorem token_string_roundtrip can_alloc l : Forall token_ok l -> total l < 2 ^ 28 ->
  match add_all can_alloc l tok_str_new with
  | None => exists n, can_alloc n = false
  | Some s => ts_len s = total l /\ ts_len s <= allocated_len s /\
      forall cv0, exists l', read_all (length l) (ts_str s) 0 cv0 = (l', ts_len s) /\
        Forall2 (fun x x' => fst x' = fst x /\ same_value (fst x) (snd x) (snd x')) l l'
  end.
Proof.
  intros Hl Ht. pose proof (add_all_spec can_alloc l tok_str_new) as A. cbn [ts_len tok_str_new] in A.
  specialize (A ltac:(unfold string_ok; cbn; lia) Hl ltac:(lia)). destruct (add_all can_alloc l tok_str_new) as [s|]; [|done].
  destruct A as ([Hs _] & El & _ & H). split; [lia|]. split; [lia|]. intros cv0. by apply H.
Qed.

(** [x = 'a' + 2.0 "ab"] with an identifier, a character, a double and a string of three bytes. *)
Definition some_tokens : list (Z * CValue) :=
  [(256, Cv [] 0 []); (61, Cv [] 0 []); (TOK_CCHAR, Cv [97; 0; 0; 0] 0 []); (43, Cv [] 0 []); (TOK_CDOUBLE, Cv [0; 0x40000000; 0; 0] 0 []);
   (TOK_STR, Cv [] 3 [97; 98; 0])].
Lemma some_tokens_ok : Forall token_ok some_tokens.
Proof.
  unfold some_tokens, token_ok, value_ok. repeat constructor; cbn [fst snd cv_tab cv_size cv_data]; try lia; try done; intros H; try discriminate H; done.
Qed.
Lemma token_string_roundtrip_witness : exists s l', add_all (fun _ => true) some_tokens tok_str_new = Some s /\ ts_len s = 11 /\
  read_all 6 (ts_str s) 0 (Cv [] 0 []) = (l', 11) /\
  Forall2 (fun x x' => fst x' = fst x /\ same_value (fst x) (snd x) (snd x')) some_tokens l'.
Proof.
  pose proof (token_string_roundtrip (fun _ => true) some_tokens some_tokens_ok eq_refl) as H.
  destruct (add_all (fun _ => true) some_tokens tok_str_new) as [s|]; [|destruct H as (n & H); discriminate H].
  destruct H as (E & _ & H). assert (ts_len s = 11) as E' by (rewrite E; reflexivity). destruct (H (Cv [] 0 [])) as (l' & R1 & R2).
  exists s, l'. rewrite E' in R1. exact (conj eq_refl (conj E' (conj R1 R2))).
Defined.
