(* ===== verification/Symbols.v ===== *)
(** The symbol tables of the compiler's front end ([src/compiler/symbols.c]): the allocator of symbols, the
    two symbol stacks, and the token table that leads from an identifier to its innermost declaration.

    A [Sym *] is a number, 0 for NULL.  [Error] is the exit through [_tcc_error], running out of memory
    included; [Wild] is a pointer that leads nowhere. *)
From S2P Require Import Prelude Token.

Definition VT_BTYPE : Z := 0x000f.
Definition VT_VOID : Z := 0.
Definition VT_BYTE : Z := 1.
Definition VT_SHORT : Z := 2.
Definition VT_INT : Z := 3.
Definition VT_LLONG : Z := 4.
Definition VT_PTR : Z := 5.
Definition VT_FUNC : Z := 6.
Definition VT_STRUCT : Z := 7.
Definition VT_FLOAT : Z := 8.
Definition VT_DOUBLE : Z := 9.
Definition VT_LDOUBLE : Z := 10.
Definition VT_BOOL : Z := 11.
Definition VT_QLONG : Z := 13.
Definition VT_QFLOAT : Z := 14.
Definition VT_UNSIGNED : Z := 0x0010.
Definition VT_DEFSIGN : Z := 0x0020.
Definition VT_ARRAY : Z := 0x0040.
Definition VT_BITFIELD : Z := 0x0080.
Definition VT_CONSTANT : Z := 0x0100.
Definition VT_VOLATILE : Z := 0x0200.
Definition VT_LONG : Z := 0x0800.
Definition VT_EXTERN : Z := 0x1000.
Definition VT_STATIC : Z := 0x2000.
Definition VT_TYPEDEF : Z := 0x4000.
Definition VT_INLINE : Z := 0x8000.
Definition VT_STRUCT_MASK : Z := Z.lor 0xfff00000 VT_BITFIELD.
Definition VT_ENUM : Z := 0x200000.
Definition VT_ENUM_VAL : Z := 0x300000.
Definition IS_ENUM (t : Z) : bool := Z.land (u32 t) VT_STRUCT_MASK =? VT_ENUM.
Definition IS_ENUM_VAL (t : Z) : bool := Z.land (u32 t) VT_STRUCT_MASK =? VT_ENUM_VAL.
Definition VT_STORAGE : Z := Z.lor (Z.lor VT_EXTERN VT_STATIC) (Z.lor VT_TYPEDEF VT_INLINE).
Definition VT_TYPE : Z := not32 (Z.lor VT_STORAGE VT_STRUCT_MASK).
Definition VT_ASM : Z := Z.lor VT_VOID VT_UNSIGNED.
Definition VT_CONST : Z := 0x0030.
Definition VT_SYM : Z := 0x0200.
Definition FUNC_OLD : Z := 2.

Record CType := CTy { ty_t : Z; ty_ref : Z }.
Record SymAttr := Attr { a_aligned : Z; a_packed : Z; a_weak : Z; a_visibility : Z; a_addrtaken : Z }.
(** The unions: [s_c] and [s_scope] are the halves of [enum_val]; [s_scope] is also the function
    attributes and [auxtype]; [s_next] is also [asm_label]. *)
Record Sym := MkSym {
  s_v : Z; s_r : Z; s_a : SymAttr; s_c : Z; s_scope : Z; s_type : CType; s_next : Z; s_prev : Z; s_prev_tok : Z }.
Definition zero_sym : Sym := MkSym 0 0 (Attr 0 0 0 0 0) 0 0 (CTy 0 0) 0 0 0.
Definition set_v x s := MkSym x (s_r s) (s_a s) (s_c s) (s_scope s) (s_type s) (s_next s) (s_prev s) (s_prev_tok s).
Definition set_r x s := MkSym (s_v s) x (s_a s) (s_c s) (s_scope s) (s_type s) (s_next s) (s_prev s) (s_prev_tok s).
Definition set_a x s := MkSym (s_v s) (s_r s) x (s_c s) (s_scope s) (s_type s) (s_next s) (s_prev s) (s_prev_tok s).
Definition set_c x s := MkSym (s_v s) (s_r s) (s_a s) x (s_scope s) (s_type s) (s_next s) (s_prev s) (s_prev_tok s).
Definition set_scope x s := MkSym (s_v s) (s_r s) (s_a s) (s_c s) x (s_type s) (s_next s) (s_prev s) (s_prev_tok s).
Definition set_type x s := MkSym (s_v s) (s_r s) (s_a s) (s_c s) (s_scope s) x (s_next s) (s_prev s) (s_prev_tok s).
Definition set_sym_next x s := MkSym (s_v s) (s_r s) (s_a s) (s_c s) (s_scope s) (s_type s) x (s_prev s) (s_prev_tok s).
Definition set_prev x s := MkSym (s_v s) (s_r s) (s_a s) (s_c s) (s_scope s) (s_type s) (s_next s) x (s_prev_tok s).
Definition set_prev_tok x s := MkSym (s_v s) (s_r s) (s_a s) (s_c s) (s_scope s) (s_type s) (s_next s) (s_prev s) x.

Record front := Front {
  toks : token_table; syms : gmap Z Sym; sym_free_first : Z; nb_sym_pools : Z; global_stack : Z; local_stack : Z; local_scope : Z }.
Definition set_toks x s := Front x (syms s) (sym_free_first s) (nb_sym_pools s) (global_stack s) (local_stack s) (local_scope s).
Definition set_syms x s := Front (toks s) x (sym_free_first s) (nb_sym_pools s) (global_stack s) (local_stack s) (local_scope s).
Definition set_free x s := Front (toks s) (syms s) x (nb_sym_pools s) (global_stack s) (local_stack s) (local_scope s).
Definition set_local_scope x s := Front (toks s) (syms s) (sym_free_first s) (nb_sym_pools s) (global_stack s) (local_stack s) x.
Definition set_pools x s := Front (toks s) (syms s) (sym_free_first s) x (global_stack s) (local_stack s) (local_scope s).
(** [Sym **]: the variables that hold a stack. *)
Inductive stack := Global | Local.
#[export] Instance stack_eq_dec : EqDecision stack.
Proof. solve_decision. Defined.
Definition top (ps : stack) (s : front) : Z := match ps with Global => global_stack s | Local => local_stack s end.
Definition set_top (ps : stack) x s := match ps with
  | Global => Front (toks s) (syms s) (sym_free_first s) (nb_sym_pools s) x (local_stack s) (local_scope s)
  | Local => Front (toks s) (syms s) (sym_free_first s) (nb_sym_pools s) (global_stack s) x (local_scope s) end.

Inductive front_result (A : Type) := Done (a : A) (s : front) | Error | Wild.
Arguments Done {A} a s. Arguments Error {A}. Arguments Wild {A}.
Definition F (A : Type) : Type := front -> front_result A.
#[export] Instance F_ret : MRet F := fun A a s => Done a s.
#[export] Instance F_bind : MBind F := fun A B k m s => match m s with Done a s => k a s | Error => Error | Wild => Wild end.
Definition get {A} (f : front -> A) : F A := fun s => Done (f s) s.
Definition assign (f : front -> front) : F unit := fun s => Done () (f s).
Definition error {A} : F A := fun _ => Error.
Definition wild {A} : F A := fun _ => Wild.
(** [*p], and an assignment to a member of [*p]. *)
Definition deref_sym (p : Z) : F Sym := fun s => match syms s !! p with Some y => Done y s | None => Wild end.
Definition upd_sym (p : Z) (f : Sym -> Sym) : F unit := fun s => match syms s !! p with Some y => Done () (set_syms (<[p := f y]> (syms s)) s) | None => Wild end.

(** ** The allocator *)

Definition SYM_POOL_NB : Z := 8192 / 56.
(** The symbols of the new pool number [k], from [i] on, linked downwards. *)
Fixpoint pool (n : nat) (k i last : Z) (m : gmap Z Sym) : Z * gmap Z Sym :=
  match n with
  | O => (last, m)
  | S n => let p := 1 + SYM_POOL_NB * k + i in pool n k (i + 1) p (<[p := set_sym_next last zero_sym]> m)
  end.
Section alloc.
Context (can_alloc : Z -> bool).
Definition __sym_malloc : F Z :=
  k ← get nb_sym_pools;
  if negb (can_alloc (SYM_POOL_NB * 56)) || ((Z.land k (k - 1) =? 0) && negb (can_alloc (8 * if k =? 0 then 1 else k * 2))) then error
  else
    fr ← get sym_free_first; m ← get syms;
    let '(p, m) := pool (Z.to_nat SYM_POOL_NB) k 0 fr m in
    assign (fun s => set_free p (set_pools (k + 1) (set_syms m s)));;
    mret p.
Definition sym_malloc : F Z :=
  p ← get sym_free_first;
  p ← (if p =? 0 then __sym_malloc else mret p);
  y ← deref_sym p;
  assign (set_free (s_next y));;
  mret p.
Definition sym_free (p : Z) : F unit :=
  fr ← get sym_free_first;
  upd_sym p (set_sym_next fr);;
  assign (set_free p).

(** ** The stacks *)

Definition sym_push2 (ps : stack) (v t c : Z) : F Z :=
  p ← sym_malloc;
  prev ← get (top ps);
  upd_sym p (fun _ => MkSym v 0 (Attr 0 0 0 0 0) c 0 (CTy t 0) 0 prev 0);;
  assign (set_top ps p);;
  mret p.
Fixpoint find2_loop (fuel : nat) (p v : Z) : F Z :=
  if p =? 0 then mret 0
  else match fuel with
  | O => wild
  | S fuel =>
      y ← deref_sym p;
      if s_v y =? v then mret p else if s_v y =? -1 then mret 0 else find2_loop fuel (s_prev y) v
  end.
(** A walk visits every symbol at most once. *)
Definition all_syms : F nat := get (fun s => size (syms s)).
Definition sym_find2 (p v : Z) : F Z := n ← all_syms; find2_loop n p v.

(** [table_ident[v - TOK_IDENT]]. *)
Definition token (v : Z) : F TokenSym := fun s => match table_ident (toks s) !! v with Some ts => Done ts s | None => Wild end.
Definition upd_token (v : Z) (f : TokenSym -> TokenSym) : F unit := fun s =>
  match table_ident (toks s) !! v with
  | Some ts => Done () (set_toks (Tokens (<[v := f ts]> (table_ident (toks s))) (hash_ident (toks s)) (tok_ident (toks s))) s)
  | None => Wild
  end.
Definition is_token (v : Z) : F bool := get (fun s => negb (u32 (tok_ident (toks s) - TOK_IDENT) <=? u32 (v - TOK_IDENT))).
Definition struct_find (v : Z) : F Z := b ← is_token v; if b : bool then ts ← token v; mret (sym_struct ts) else mret 0.
Definition sym_find (v : Z) : F Z := b ← is_token v; if b : bool then ts ← token v; mret (sym_identifier ts) else mret 0.

Definition sym_scope (p : Z) : F Z :=
  y ← deref_sym p;
  if IS_ENUM_VAL (ty_t (s_type y)) then e ← deref_sym (ty_ref (s_type y)); mret (i32 (s_scope e)) else mret (i32 (s_scope y)).

(** Symbols of these numbers are in the token table. *)
Definition recorded (v : Z) : bool := negb (tst v SYM_FIELD) && (Z.land v (Z.lnot SYM_STRUCT) <? SYM_FIRST_ANOM).
Definition sym_push (v : Z) (type : CType) (r c : Z) : F Z :=
  l ← get local_stack;
  p ← sym_push2 (if l =? 0 then Global else Local) v (ty_t type) c;
  upd_sym p (fun y => set_r (u16 r) (set_type (CTy (ty_t (s_type y)) (ty_ref type)) y));;
  if recorded v then
    let tok := Z.land v (Z.lnot SYM_STRUCT) in
    ts ← token tok;
    scope ← get local_scope;
    let old := if tst v SYM_STRUCT then sym_struct ts else sym_identifier ts in
    upd_sym p (fun y => set_scope (u32 scope) (set_prev_tok old y));;
    upd_token tok (if tst v SYM_STRUCT then set_sym_struct p else set_sym_identifier p);;
    if old =? 0 then mret p
    else
      a ← sym_scope old;
      b ← get local_scope;
      if a =? i32 b then error else mret p
  else mret p.

(** The pointer that [ps] ends on in [global_identifier_push]: 0 stands for the token's own. *)
Fixpoint last_local (fuel : nat) (from p : Z) : F (Z * Z) :=
  if p =? 0 then mret (from, p)
  else match fuel with
  | O => wild
  | S fuel => y ← deref_sym p; if s_scope y =? 0 then mret (from, p) else last_local fuel p (s_prev_tok y)
  end.
Definition global_identifier_push (v t c : Z) : F Z :=
  p ← sym_push2 Global v t c;
  upd_sym p (set_r (Z.lor VT_CONST VT_SYM));;
  if v <? SYM_FIRST_ANOM then
    ts ← token v;
    n ← all_syms;
    '(from, old) ← last_local n 0 (sym_identifier ts);
    upd_sym p (set_prev_tok old);;
    (if from =? 0 then upd_token v (set_sym_identifier p) else upd_sym from (set_prev_tok p));;
    mret p
  else mret p.

Fixpoint asm_label_loop (fuel : nat) (p : Z) : F Z :=
  if p =? 0 then mret 0
  else match fuel with
  | O => wild
  | S fuel => y ← deref_sym p; if negb (s_scope y =? 0) && negb (tst (ty_t (s_type y)) VT_STATIC) then asm_label_loop fuel (s_prev_tok y) else mret p
  end.
Definition asm_label_find (v : Z) : F Z := p ← sym_find v; n ← all_syms; asm_label_loop n p.
Definition asm_label_push (v : Z) : F Z := global_identifier_push v (Z.lor (Z.lor VT_ASM VT_EXTERN) VT_STATIC) 0.
Definition get_asm_sym (name csym : Z) : F Z :=
  p ← asm_label_find name;
  if p =? 0 then
    p ← asm_label_push name;
    (if csym =? 0 then mret () else y ← deref_sym csym; upd_sym p (set_c (s_c y)));;
    mret p
  else mret p.

Definition sym_copy (source : Z) (ps : stack) : F Z :=
  p ← sym_malloc;
  y ← deref_sym source;
  prev ← get (top ps);
  upd_sym p (fun _ => set_prev prev y);;
  assign (set_top ps p);;
  if s_v y <? SYM_FIRST_ANOM then
    ts ← token (s_v y);
    upd_sym p (set_prev_tok (sym_identifier ts));;
    upd_token (s_v y) (set_sym_identifier p);;
    mret p
  else mret p.

Fixpoint pop_loop (fuel : nat) (p b : Z) (keep : bool) : F unit :=
  if p =? b then mret ()
  else match fuel with
  | O => wild
  | S fuel =>
      y ← deref_sym p;
      let v := s_v y in
      (if recorded v then
         upd_token (Z.land v (Z.lnot SYM_STRUCT)) (if tst v SYM_STRUCT then set_sym_struct (s_prev_tok y) else set_sym_identifier (s_prev_tok y))
       else mret ());;
      (if keep then mret () else sym_free p);;
      pop_loop fuel (s_prev y) b keep
  end.
Definition sym_pop (ps : stack) (b : Z) (keep : bool) : F unit :=
  p ← get (top ps);
  n ← all_syms;
  pop_loop n p b keep;;
  if keep then mret () else assign (set_top ps b).

(** ** Scopes ([tccgen.c]) *)

(** The steps of [gen_function] before the parameters, before the body and behind it. *)
Definition enter_function : F unit := sym_push2 Local SYM_FIELD 0 0;; assign (set_local_scope 1).
Definition enter_body : F unit := assign (set_local_scope 0).
Definition leave_function : F unit := sym_pop Local 0 false;; assign (set_local_scope 0).
(** What [new_scope] and [prev_scope] do to the symbols; the result is [o->lstk]. *)
Definition new_scope : F Z :=
  l ← get local_stack;
  n ← get local_scope;
  assign (set_local_scope (i32 (n + 1)));;
  mret l.
Definition prev_scope (lstk : Z) (is_expr : bool) : F unit :=
  sym_pop Local lstk is_expr;;
  n ← get local_scope;
  assign (set_local_scope (i32 (n - 1))).
(** An enumeration constant of the tag [ref] in [struct_decl]. *)
Definition set_enum_val (ll : Z) (y : Sym) : Sym := set_c (i32 ll) (set_scope (u32 (Z.shiftr ll 32)) y).
Definition enumerator (v ref ll : Z) : F Z :=
  p ← sym_push v (CTy (Z.lor (Z.lor VT_INT VT_STATIC) VT_ENUM_VAL) ref) VT_CONST 0;
  upd_sym p (set_enum_val ll);;
  mret p.
End alloc.
