(* ===== verification/SymHeap.v ===== *)
(** The allocator of symbols: a symbol in use is never handed out again. *)
From S2P Require Import Prelude Token Symbols.

(** A list of symbols linked by a field. *)
Inductive linked (next : Sym -> Z) (m : gmap Z Sym) : Z -> list Z -> Prop :=
  | linked_end : linked next m 0 []
  | linked_next p y l : p <> 0 -> m !! p = Some y -> linked next m (next y) l -> linked next m p (p :: l).
#[export] Hint Constructors linked : core.
Lemma linked_in next m p l q : linked next m p l -> q ∈ l -> q <> 0 /\ is_Some (m !! q).
Proof. induction 1 as [|p y l Hp E L IH]; intros Hq; [by apply elem_of_nil in Hq|]. apply elem_of_cons in Hq as [->|Hq]; [by split; [|exists y]|auto]. Qed.
Lemma linked_head next m p l : linked next m p l -> p = hd 0 l.
Proof. by destruct 1. Qed.
Lemma linked_ext next m m' p l : linked next m p l -> (forall q y, q ∈ l -> m !! q = Some y -> exists y', m' !! q = Some y' /\ next y' = next y) -> linked next m' p l.
Proof.
  induction 1 as [|p y l Hp E L IH]; intros H; [done|]. destruct (H p y) as (y' & E' & Hn); [by left|done|].
  apply (linked_next _ _ p y'); [done|done|]. rewrite Hn. apply IH. intros q z Hq. apply H. by right.
Qed.
Lemma linked_app next m p l1 l2 : linked next m p (l1 ++ l2) -> linked next m (hd 0 l2) l2.
Proof. revert p. induction l1 as [|x l1 IH]; intros p L; cbn [app] in L; [by rewrite <- (linked_head _ _ _ _ L)|]. inversion L; subst. by eapply IH. Qed.

Lemma used_size (m : gmap Z Sym) (l : list Z) : NoDup l -> (forall p, p ∈ l -> is_Some (m !! p)) -> (length l <= size m)%nat.
Proof.
  intros Hd H. rewrite <- (size_list_to_set (C := gset Z) l Hd), <- size_dom. apply subseteq_size. intros p Hp. apply elem_of_list_to_set in Hp. by apply elem_of_dom, H.
Qed.

(** The symbols [used] are allocated and the free list holds none of them. *)
Record heap_ok (s : front) (used free : list Z) : Prop := {
  hp_free : linked s_next (syms s) (sym_free_first s) free;
  hp_nodup : NoDup (used ++ free);
  hp_used p : p ∈ used -> is_Some (syms s !! p);
  hp_bound p : is_Some (syms s !! p) -> 0 < p <= SYM_POOL_NB * nb_sym_pools s;
  hp_pools : 0 <= nb_sym_pools s
}.
Lemma heap_pos s used free p : heap_ok s used free -> p ∈ used -> p <> 0.
Proof. intros H Hp. pose proof (hp_bound _ _ _ H p (hp_used _ _ _ H p Hp)). lia. Qed.
Lemma heap_perm s used used' free : used ≡ₚ used' -> heap_ok s used free -> heap_ok s used' free.
Proof. intros Hp [H1 H2 H3 H4 H5]. split; [done|by rewrite <- Hp| |done|done]. intros p Hin. apply H3. by rewrite Hp. Qed.
(** What is not the free list may change. *)
Lemma heap_change s s' used free : heap_ok s used free -> sym_free_first s' = sym_free_first s -> nb_sym_pools s' = nb_sym_pools s ->
  (forall p, p ∉ used -> syms s' !! p = syms s !! p) -> (forall p, p ∈ used -> is_Some (syms s' !! p)) -> heap_ok s' used free.
Proof.
  intros [H1 H2 H3 H4 H5] Ef En Hs Hu. split; [| |done| |by rewrite En].
  - rewrite Ef. apply (linked_ext _ _ _ _ _ H1). intros q y Hq E. exists y. split; [|done]. rewrite Hs; [done|]. intros Hin.
    apply NoDup_app in H2 as (_ & H2 & _). by apply (H2 q).
  - done.
  - intros p Hp. rewrite En. destruct (decide (p ∈ used)) as [Hin|Hin]; [by apply H4, H3|]. rewrite Hs in Hp by done. by apply H4.
Qed.

Lemma pool_spec n k i last m free : linked s_next m last free -> 0 <= k -> 0 <= i -> i + Z.of_nat n <= SYM_POOL_NB -> NoDup free ->
  (forall j, i <= j < SYM_POOL_NB -> m !! (1 + SYM_POOL_NB * k + j) = None) ->
  exists new, let '(p, m') := pool n k i last m in linked s_next m' p (new ++ free) /\ NoDup (new ++ free) /\ (n <> 0%nat -> p <> 0 /\ new <> []) /\
    (forall q, q ∈ new <-> exists j, i <= j < i + Z.of_nat n /\ q = 1 + SYM_POOL_NB * k + j) /\ (forall q, q ∉ new -> m' !! q = m !! q).
Proof.
  revert i last m free. induction n as [|n IH]; intros i last m free L Hk Hi Hn Hd Hm; cbn [pool].
  { exists []. split; [done|]. split; [done|]. split; [done|]. split; [|done]. intros q. split; [by intros ?%elem_of_nil|intros (j & Hj & _); lia]. }
  set (p := 1 + SYM_POOL_NB * k + i). change SYM_POOL_NB with 146 in *.
  assert (p <> 0) as Hp0 by (unfold p; lia). assert (m !! p = None) as Hp by (apply Hm; lia). assert (p ∉ free) as Hpf by (intros Hin; destruct (linked_in _ _ _ _ _ L Hin) as [_ [y E]]; congruence).
  destruct (IH (i + 1) p (<[p := set_sym_next last zero_sym]> m) (p :: free)) as (new & H); [| |lia|lia|by apply NoDup_cons| |].
  - apply (linked_next _ _ p (set_sym_next last zero_sym)); [unfold p; lia|by rewrite lookup_insert_eq|]. cbn. apply (linked_ext _ _ _ _ _ L).
    intros q y Hq E. exists y. split; [|done]. rewrite lookup_insert_ne; [done|]. by intros <-.
  - done.
  - intros j Hj. rewrite lookup_insert_ne by (unfold p; lia). apply Hm. lia.
  - exists (new ++ [p]). destruct (pool n k (i + 1) p _) as [p' m']. destruct H as (H1 & H2 & H3 & H4 & H5). rewrite <- app_assoc. cbn [app].
    split; [done|]. split; [done|]. split.
    { intros _. split; [|by destruct new]. destruct n; [|by apply H3]. rewrite (linked_head _ _ _ _ H1). destruct new as [|x new]; [exact Hp0|].
      change (x <> 0). assert (x ∈ x :: new) as Hx by by left. apply H4 in Hx as (j & Hj & ->). lia. }
    split.
    + intros q. rewrite elem_of_app, H4, list_elem_of_singleton. split.
      * intros [(j & Hj & ->)| ->]; [exists j; lia|exists i; lia].
      * intros (j & Hj & ->). destruct (decide (j = i)) as [->|]; [by right|left; exists j; lia].
    + intros q [Hq1 Hq2]%not_elem_of_app. rewrite H5 by done. apply lookup_insert_ne. intros <-. apply Hq2. by left.
Qed.

(** What [sym_malloc] leaves. *)
Record allocated (s s' : front) (used : list Z) (p : Z) : Prop := {
  al_new : p ∉ used;
  al_heap : exists free, heap_ok s' (p :: used) free;
  al_syms q : q ∈ used -> syms s' !! q = syms s !! q;
  al_toks : toks s' = toks s;
  al_tops ps : top ps s' = top ps s;
  al_scope : local_scope s' = local_scope s
}.
Lemma sym_malloc_spec can_alloc s used free : heap_ok s used free ->
  match sym_malloc can_alloc s with
  | Done p s' => allocated s s' used p
  | Error => exists n, can_alloc n = false
  | Wild => False
  end.
Proof.
  intros H. unfold sym_malloc, mbind, F_bind, get, mret, F_ret. destruct (Z.eqb_spec (sym_free_first s) 0) as [Hz|Hz].
  - unfold __sym_malloc, mbind, F_bind, get. destruct (negb (can_alloc (SYM_POOL_NB * 56))) eqn:E1; [cbn; by exists (SYM_POOL_NB * 56); destruct (can_alloc _)|].
    cbn [orb]. destruct (_ && negb (can_alloc (8 * _))) eqn:E2; [cbn; apply andb_true_iff in E2 as [_ E2]; eexists; by apply negb_true_iff in E2|].
    assert (free = []) as -> by (pose proof (hp_free _ _ _ H) as L; rewrite Hz in L; by inversion L).
    destruct (pool_spec (Z.to_nat SYM_POOL_NB) (nb_sym_pools s) 0 (sym_free_first s) (syms s) []) as (new & P);
      [by apply (hp_free _ _ _ H)|apply (hp_pools _ _ _ H)|lia|by cbn|constructor| |].
    { intros j Hj. apply eq_None_not_Some. intros Hs. apply (hp_bound _ _ _ H) in Hs. lia. }
    destruct (pool _ _ _ _ _) as [p m']. destruct P as (L & Hd & Hne & Hnew & Hold). rewrite app_nil_r in L, Hd.
    destruct (Hne ltac:(done)) as [Hp _]. inversion L as [|p0 y l Hp' E Ll E0 El]; [congruence|]. subst p0 new.
    unfold assign, deref_sym, F_bind, F_ret. cbn -[SYM_POOL_NB]. rewrite E. cbn -[SYM_POOL_NB].
    assert (forall q, q ∈ p :: l -> q ∉ used) as Hfresh.
    { intros q Hq Hin. apply Hnew in Hq as (j & Hj & ->). pose proof (hp_bound _ _ _ H _ (hp_used _ _ _ H _ Hin)). lia. }
    apply NoDup_cons in Hd as [Hpl Hd]. pose proof (hp_nodup _ _ _ H) as Hu. rewrite app_nil_r in Hu.
    split; [apply Hfresh; by left| |intros q Hq; cbn; apply Hold; intros Hin; by apply (Hfresh q)|done|by intros []|done].
    exists l. split; cbn [syms sym_free_first nb_sym_pools set_free set_pools set_syms].
    + done.
    + cbn [app]. apply NoDup_cons. split; [rewrite not_elem_of_app; split; [apply Hfresh; by left|done]|]. apply NoDup_app. split; [done|]. split; [|done].
      intros q Hq Hin. apply (Hfresh q); [by right|done].
    + intros q Hq. apply elem_of_cons in Hq as [->|Hq]; [by exists y|]. rewrite Hold; [by apply (hp_used _ _ _ H)|]. intros Hin. by apply (Hfresh q).
    + intros q Hq. pose proof (hp_pools _ _ _ H). destruct (decide (q ∈ p :: l)) as [Hin|Hin]; [apply Hnew in Hin as (j & Hj & ->); change SYM_POOL_NB with 146 in *; lia|].
      rewrite Hold in Hq by done. apply (hp_bound _ _ _ H) in Hq. change SYM_POOL_NB with 146 in *. lia.
    + pose proof (hp_pools _ _ _ H). lia.
  - pose proof (hp_free _ _ _ H) as L. inversion L as [|p y l Hp E Ll]; subst; [congruence|]. unfold deref_sym. rewrite E. cbn.
    pose proof (hp_nodup _ _ _ H) as Hd. apply NoDup_app in Hd as (Hu & Hx & Hf). apply NoDup_cons in Hf as [Hpl Hf].
    assert (sym_free_first s ∉ used) as Hnu by (intros Hin; apply (Hx _ Hin); by left).
    split; [done| |done|done|by intros []|done]. exists l. destruct H as [_ _ H3 H4 H5]. split; cbn; [done| |intros q [->|Hq]%elem_of_cons; [by exists y|auto]|done|done].
    apply NoDup_cons. split; [rewrite not_elem_of_app; by split|]. apply NoDup_app. split; [done|]. split; [|done]. intros q Hq Hin. apply (Hx _ Hq). by right.
Qed.
