(* ===== verification/SymPush.v ===== *)
(** What the operations on symbols do, one call at a time: [sym_push], and the loop of [sym_pop]. *)
From S2P Require Import Prelude Token Symbols SymHeap.

(** ** The slots of the token table *)

(** The name a symbol is recorded under: the name space of tags, or the ordinary one, and the token. *)
Definition key (v : Z) : option (bool * Z) :=
  if recorded v then Some (tst v SYM_STRUCT, Z.land v (Z.lnot SYM_STRUCT)) else None.
Definition key_at (m : gmap Z Sym) (p : Z) : option (bool * Z) := y ← m !! p; key (s_v y).
Definition slot (s : front) (k : bool * Z) : Z :=
  match table_ident (toks s) !! snd k with Some ts => if fst k then sym_struct ts else sym_identifier ts | None => 0 end.
Definition is_tok (s : front) (t : Z) : Prop := is_Some (table_ident (toks s) !! t).
(** [s'] has the tokens of [s] with other symbols. *)
Definition slots_only (s s' : front) : Prop := tok_ident (toks s') = tok_ident (toks s) /\ forall t, is_tok s' t <-> is_tok s t.

Definition set_slot (k : bool * Z) (x : Z) : F unit := upd_token (snd k) (if fst k then set_sym_struct x else set_sym_identifier x).
Lemma set_slot_spec k x s : is_tok s (snd k) -> exists s', set_slot k x s = Done () s' /\ syms s' = syms s /\ sym_free_first s' = sym_free_first s /\
  nb_sym_pools s' = nb_sym_pools s /\ (forall ps, top ps s' = top ps s) /\ local_scope s' = local_scope s /\ slots_only s s' /\
  slot s' k = x /\ forall k', k' <> k -> slot s' k' = slot s k'.
Proof.
  destruct k as [st t]. intros [ts E]. cbn [snd] in E. unfold set_slot, upd_token. cbn [fst snd]. rewrite E. eexists. split; [done|].
  split; [done|]. split; [done|]. split; [done|]. split; [by intros []|]. split; [done|]. split.
  { split; [done|]. intros u. unfold is_tok. cbn. destruct (decide (u = t)) as [->|]; [rewrite lookup_insert_eq, E|rewrite lookup_insert_ne by done]; firstorder eauto. }
  split.
  - unfold slot. cbn. rewrite lookup_insert_eq. by destruct st.
  - intros [st' t'] Hk. unfold slot. cbn. destruct (decide (t' = t)) as [->|]; [|by rewrite lookup_insert_ne]. rewrite lookup_insert_eq, E.
    destruct st, st'; try done; congruence.
Qed.
Lemma key_inv v k : key v = Some k -> recorded v = true /\ k = (tst v SYM_STRUCT, Z.land v (Z.lnot SYM_STRUCT)).
Proof. unfold key. destruct (recorded v); [|done]. by intros [= <-]. Qed.
Lemma slot_eq s v k ts : key v = Some k -> table_ident (toks s) !! Z.land v (Z.lnot SYM_STRUCT) = Some ts ->
  slot s k = if tst v SYM_STRUCT then sym_struct ts else sym_identifier ts.
Proof. intros [_ ->]%key_inv E. unfold slot. cbn [fst snd]. by rewrite E. Qed.

(** [sym_scope] as a function of the symbols. *)
Definition scope_of (m : gmap Z Sym) (p : Z) : option Z :=
  y ← m !! p;
  if IS_ENUM_VAL (ty_t (s_type y)) then e ← m !! ty_ref (s_type y); Some (i32 (s_scope e)) else Some (i32 (s_scope y)).
Lemma sym_scope_eq p s a : scope_of (syms s) p = Some a -> sym_scope p s = Done a s.
Proof.
  unfold scope_of, sym_scope, deref_sym, mbind, F_bind, option_bind, mret, F_ret. destruct (syms s !! p) as [y|]; [|done].
  destruct (IS_ENUM_VAL _); [|by intros [= <-]]. destruct (syms s !! _); [|done]. by intros [= <-].
Qed.
Lemma scope_of_ext m m' p y : m !! p = Some y -> m' !! p = m !! p -> (IS_ENUM_VAL (ty_t (s_type y)) = true -> m' !! ty_ref (s_type y) = m !! ty_ref (s_type y)) ->
  scope_of m' p = scope_of m p.
Proof. intros E Ep Er. unfold scope_of. rewrite Ep, E. cbn. destruct (IS_ENUM_VAL _); [|done]. by rewrite Er. Qed.

(** ** [sym_push] *)

(** The stack that declarations go to. *)
Definition current (s : front) : stack := if local_stack s =? 0 then Global else Local.
Record pushed (s s' : front) (used : list Z) (p v : Z) (type : CType) (r c : Z) : Prop := {
  pu_new : p ∉ used;
  pu_heap : exists free, heap_ok s' (p :: used) free;
  pu_syms q : q ∈ used -> syms s' !! q = syms s !! q;
  pu_sym : syms s' !! p = Some (MkSym v (u16 r) (Attr 0 0 0 0 0) c (if key v then u32 (local_scope s) else 0) type 0
                                  (top (current s) s) (match key v with Some k => slot s k | None => 0 end));
  pu_top : top (current s) s' = p;
  pu_other ps : ps <> current s -> top ps s' = top ps s;
  pu_tok : slots_only s s';
  pu_slot k : slot s' k = if decide (key v = Some k) then p else slot s k;
  pu_scope : local_scope s' = local_scope s
}.
Lemma upd_sym_eq p f s y : syms s !! p = Some y -> upd_sym p f s = Done () (set_syms (<[p := f y]> (syms s)) s).
Proof. unfold upd_sym. by intros ->. Qed.
Lemma token_eq t s ts : table_ident (toks s) !! t = Some ts -> token t s = Done ts s.
Proof. unfold token. by intros ->. Qed.
Lemma heap_alter s s' used free p y : heap_ok s used free -> p ∈ used -> sym_free_first s' = sym_free_first s -> nb_sym_pools s' = nb_sym_pools s ->
  syms s' = <[p := y]> (syms s) -> heap_ok s' used free.
Proof.
  intros H Hp Ef En Es. apply (heap_change s s' used free); [done..| |].
  - intros q Hq. rewrite Es, lookup_insert_ne; [done|]. by intros <-.
  - intros q Hq. rewrite Es. destruct (decide (q = p)) as [->|]; [rewrite lookup_insert_eq; by eexists|]. rewrite lookup_insert_ne by done. by apply (hp_used _ _ _ H).
Qed.

Section push.
Context (can_alloc : Z -> bool).
Definition no_memory : Prop := exists n, can_alloc n = false.
Lemma sym_push2_spec ps v t c s used free : heap_ok s used free ->
  match sym_push2 can_alloc ps v t c s with
  | Done p s' => p ∉ used /\ (exists free', heap_ok s' (p :: used) free') /\ (forall q, q ∈ used -> syms s' !! q = syms s !! q) /\
      syms s' !! p = Some (MkSym v 0 (Attr 0 0 0 0 0) c 0 (CTy t 0) 0 (top ps s) 0) /\ top ps s' = p /\
      (forall ps', ps' <> ps -> top ps' s' = top ps' s) /\ toks s' = toks s /\ local_scope s' = local_scope s
  | Error => no_memory
  | Wild => False
  end.
Proof.
  intros H. pose proof (sym_malloc_spec can_alloc s used free H) as M. unfold sym_push2, mbind, F_bind. destruct (sym_malloc can_alloc s) as [p s1| |]; [|done..].
  destruct M as [M1 [free' M2] M3 M4 M5 M6]. destruct (hp_used _ _ _ M2 p) as [y Ey]; [by left|]. unfold get. rewrite (upd_sym_eq p _ s1 y Ey).
  cbn. split; [done|]. split.
  { exists free'. apply (heap_alter s1 _ _ _ p (MkSym v 0 (Attr 0 0 0 0 0) c 0 (CTy t 0) 0 (top ps s1) 0) M2); [by left|by destruct ps..]. }
  split. { intros q Hq. rewrite <- (M3 q Hq). destruct ps; cbn; (rewrite lookup_insert_ne; [done|]; by intros <-). }
  split. { rewrite <- M5. destruct ps; cbn; by rewrite lookup_insert_eq. }
  split; [by destruct ps|]. split. { intros ps' Hne. rewrite <- M5. by destruct ps, ps'. } split; [by rewrite <- M4; destruct ps|by rewrite <- M6; destruct ps].
Qed.

Lemma recorded_key v k : key v = Some k -> recorded v = true /\ snd k = Z.land v (Z.lnot SYM_STRUCT) /\ fst k = tst v SYM_STRUCT.
Proof. by intros [R ->]%key_inv. Qed.

Lemma sym_push_spec v type r c s used free : heap_ok s used free ->
  (forall k, key v = Some k -> is_tok s (snd k) /\ (slot s k <> 0 -> slot s k ∈ used /\ exists a, scope_of (syms s) (slot s k) = Some a /\
    forall y, syms s !! slot s k = Some y -> IS_ENUM_VAL (ty_t (s_type y)) = true -> ty_ref (s_type y) ∈ used)) ->
  match sym_push can_alloc v type r c s with
  | Done p s' => pushed s s' used p v type r c /\ forall k, key v = Some k -> slot s k <> 0 -> scope_of (syms s) (slot s k) <> Some (i32 (local_scope s))
  | Error => no_memory \/ exists k, key v = Some k /\ slot s k <> 0 /\ scope_of (syms s) (slot s k) = Some (i32 (local_scope s))
  | Wild => False
  end.
Proof.
  intros H Hk. unfold sym_push, mbind, F_bind, get. pose proof (sym_push2_spec (current s) v (ty_t type) c s used free H) as P. unfold current in P |- *.
  destruct (sym_push2 can_alloc _ v (ty_t type) c s) as [p s1| |]; [|by left|done]. fold (current s) in P.
  destruct P as (P1 & [free1 P2] & P3 & P4 & P5 & P6 & P7 & P8).
  rewrite (upd_sym_eq p _ s1 _ P4). cbn [set_r set_type s_v s_r s_a s_c s_scope s_type s_next s_prev s_prev_tok ty_t ty_ref].
  set (s2 := set_syms _ s1). assert (syms s2 !! p = Some (MkSym v (u16 r) (Attr 0 0 0 0 0) c 0 (CTy (ty_t type) (ty_ref type)) 0 (top (current s) s) 0)) as E2 by (subst s2; cbn; by rewrite lookup_insert_eq).
  assert (forall q, q ∈ used -> syms s2 !! q = syms s !! q) as U2 by (intros q Hq; rewrite <- (P3 q Hq); subst s2; cbn; rewrite lookup_insert_ne; [done|]; by intros <-).
  assert (heap_ok s2 (p :: used) free1) as H2 by (eapply (heap_alter s1 s2 _ _ p _ P2); [by left|done..]).
  assert (toks s2 = toks s) as T2 by exact P7. assert (local_scope s2 = local_scope s) as L2 by exact P8.
  assert (forall ps, top ps s2 = top ps s1) as O2 by (by intros []). clearbody s2.
  destruct (recorded v) eqn:R.
  2: { assert (key v = None) as Kv by (unfold key; by rewrite R). split; [|by rewrite Kv]. split; rewrite ?Kv; [done|by exists free1|done|by rewrite E2; destruct type|by rewrite O2|intros ps Hp; rewrite O2; by apply P6| | |done].
       - unfold slots_only, is_tok. by rewrite T2.
       - intros k. unfold slot. by rewrite T2. }
  assert (key v = Some (tst v SYM_STRUCT, Z.land v (Z.lnot SYM_STRUCT))) as Kv by (unfold key; by rewrite R). set (k := (tst v SYM_STRUCT, Z.land v (Z.lnot SYM_STRUCT))) in *.
  destruct (Hk k Kv) as [[ts Et] Hold]. cbn [snd] in Et. change (snd k) with (Z.land v (Z.lnot SYM_STRUCT)) in Et.
  rewrite (token_eq _ s2 ts) by (rewrite T2; exact Et).
  pose proof (slot_eq s v k ts Kv Et) as Es. rewrite <- Es. rewrite L2.
  rewrite (upd_sym_eq p _ s2 _ E2). cbn [set_scope set_prev_tok s_v s_r s_a s_c s_scope s_type s_next s_prev s_prev_tok ty_t ty_ref].
  set (s3 := set_syms _ s2). destruct (set_slot_spec k p s3) as (s4 & E4 & S4 & F4 & N4 & T4 & L4 & O4 & K4 & K4').
  { unfold is_tok. subst s3. cbn. rewrite T2. by exists ts. }
  unfold set_slot, k in E4. cbn [fst snd] in E4. rewrite E4.
  assert (forall q, q ∈ used -> syms s4 !! q = syms s !! q) as U4 by (intros q Hq; rewrite <- (U2 q Hq), S4; subst s3; cbn; rewrite lookup_insert_ne; [done|]; by intros <-).
  assert (pushed s s4 used p v type r c) as PU.
  { split; rewrite ?Kv.
    - done.
    - exists free1. eapply (heap_alter s2 s4 _ _ p _ H2); [by left|exact F4|exact N4|exact S4].
    - done.
    - rewrite S4. subst s3. cbn. rewrite lookup_insert_eq. by destruct type.
    - rewrite T4, <- P5, <- O2. by destruct (current s).
    - intros ps Hp. rewrite T4, <- (P6 ps Hp), <- O2. by destruct ps.
    - destruct O4 as [O4 O4']. split; [rewrite O4; subst s3; cbn; by rewrite T2|]. intros u. rewrite (O4' u). unfold is_tok. subst s3. cbn. by rewrite T2.
    - intros k'. destruct (decide (Some k = Some k')) as [[= <-]|Hne]; [done|]. rewrite K4' by congruence. unfold slot. subst s3. cbn. by rewrite T2.
    - rewrite L4. subst s3. cbn. done. }
  unfold mret, F_ret. destruct (Z.eqb_spec (slot s k) 0) as [Hz|Hz].
  { split; [done|]. intros k' E'. congruence. }
  destruct (Hold Hz) as (Hin & a & Ha & Href). assert (scope_of (syms s4) (slot s k) = Some a) as Ha4.
  { rewrite <- Ha. destruct (hp_used _ _ _ H _ Hin) as [y Ey]. apply (scope_of_ext _ _ _ y Ey); [by apply U4|]. intros En. apply U4. by apply Href. }
  rewrite (sym_scope_eq _ _ _ Ha4). assert (local_scope s4 = local_scope s) as -> by exact (pu_scope _ _ _ _ _ _ _ _ PU).
  destruct (Z.eqb_spec a (i32 (local_scope s))) as [->|Hne].
  - right. by exists k.
  - split; [done|]. intros k' [= <-]%(eq_trans (eq_sym Kv)) _. rewrite Ha. congruence.
Qed.
End push.
