(* ===== verification/SymPop.v ===== *)
(** What [sym_pop] leaves: every name gets back the meaning it had before the lowest of the popped symbols. *)
From S2P Require Import Prelude Token Symbols SymHeap SymPush.

Definition prev_tok_at (m : gmap Z Sym) (p : Z) : Z := match m !! p with Some y => s_prev_tok y | None => 0 end.
(** The slot of [k] after the symbols [P] are popped, one after the other. *)
Fixpoint undone (m : gmap Z Sym) (P : list Z) (k : bool * Z) (x : Z) : Z :=
  match P with [] => x | p :: P => undone m P k (if decide (key_at m p = Some k) then prev_tok_at m p else x) end.
Lemma undone_ext m m' P k x : (forall q, q ∈ P -> m' !! q = m !! q) -> undone m' P k x = undone m P k x.
Proof.
  revert x. induction P as [|p P IH]; intros x H; [done|]. cbn [undone]. rewrite IH by (intros q Hq; apply H; by right).
  unfold key_at, prev_tok_at. by rewrite (H p) by by left.
Qed.
(** Only the lowest symbol of the name counts. *)
Lemma undone_eq m P k x w : (forall a p b, P = a ++ p :: b -> key_at m p = Some k -> (forall q, q ∈ b -> key_at m q <> Some k) -> prev_tok_at m p = w) ->
  ((forall q, q ∈ P -> key_at m q <> Some k) -> x = w) -> undone m P k x = w.
Proof.
  revert x. induction P as [|p P IH]; intros x H Hx; cbn [undone]; [apply Hx; by intros q ?%elem_of_nil|].
  apply IH; [intros a q b E; apply (H (p :: a) q b); by rewrite E|]. intros Hn. case_decide as Hk; [by apply (H [] p P)|].
  apply Hx. intros q [->|Hq]%elem_of_cons; [done|by apply Hn].
Qed.

Lemma sym_free_spec p s U free : heap_ok s (p :: U) free -> exists y, syms s !! p = Some y /\
  sym_free p s = Done () (set_free p (set_syms (<[p := set_sym_next (sym_free_first s) y]> (syms s)) s)) /\
  heap_ok (set_free p (set_syms (<[p := set_sym_next (sym_free_first s) y]> (syms s)) s)) U (p :: free).
Proof.
  intros H. destruct (hp_used _ _ _ H p) as [y Ey]; [by left|]. exists y. split; [done|]. split.
  { unfold sym_free, mbind, F_bind, get. by rewrite (upd_sym_eq _ _ _ _ Ey). }
  assert (p <> 0) as Hp0 by (eapply heap_pos; [exact H|by left]). destruct H as [H1 H2 H3 H4 H5].
  cbn [app] in H2. apply NoDup_cons in H2 as [Hp H2]. apply not_elem_of_app in Hp as [HpU Hpf].
  split; cbn.
  - apply (linked_next _ _ p (set_sym_next (sym_free_first s) y)); [done|by rewrite lookup_insert_eq|]. cbn. apply (linked_ext _ _ _ _ _ H1).
    intros q z Hq E. exists z. split; [|done]. rewrite lookup_insert_ne; [done|]. by intros <-.
  - rewrite <- Permutation_middle. apply NoDup_cons. split; [by apply not_elem_of_app|done].
  - intros q Hq. rewrite lookup_insert_ne by (by intros <-). apply H3. by right.
  - intros q Hq. destruct (decide (q = p)) as [->|]; [apply H4; by exists y|]. rewrite lookup_insert_ne in Hq by done. by apply H4.
  - done.
Qed.

(** What a pop of the symbols [P] changes. *)
Record popped (s s' : front) (P U : list Z) (keep : bool) : Prop := {
  po_slot k : slot s' k = undone (syms s) P k (slot s k);
  po_heap : exists free, heap_ok s' (if keep then P ++ U else U) free;
  po_syms q : keep = true \/ q ∉ P -> syms s' !! q = syms s !! q;
  po_tok : slots_only s s';
  po_top ps : top ps s' = top ps s;
  po_scope : local_scope s' = local_scope s
}.
Lemma popped_nil s U keep free : heap_ok s U free -> popped s s [] U keep.
Proof. intros H. split; try done. exists free. by destruct keep. Qed.
(** One turn of the loop, before the symbol is given back. *)
Lemma pop_slot p y s free U : heap_ok s (p :: U) free -> syms s !! p = Some y -> (forall k, key (s_v y) = Some k -> is_tok s (snd k)) ->
  exists s', (if recorded (s_v y) then
         upd_token (Z.land (s_v y) (Z.lnot SYM_STRUCT)) (if tst (s_v y) SYM_STRUCT then set_sym_struct (s_prev_tok y) else set_sym_identifier (s_prev_tok y))
       else mret ()) s = Done () s' /\ popped s s' [p] U true /\ syms s' = syms s /\ heap_ok s' (p :: U) free.
Proof.
  intros H Ey Ht. destruct (recorded (s_v y)) eqn:R.
  - assert (key (s_v y) = Some (tst (s_v y) SYM_STRUCT, Z.land (s_v y) (Z.lnot SYM_STRUCT))) as Kv by (unfold key; by rewrite R).
    destruct (set_slot_spec _ (s_prev_tok y) s (Ht _ Kv)) as (s' & E & S & Fr & N & T & L & O & K & K'). exists s'. split; [exact E|].
    assert (heap_ok s' (p :: U) free) as H' by (apply (heap_change s s' _ _ H Fr N); [by rewrite S|rewrite S; apply (hp_used _ _ _ H)]).
    split; [|done]. split; [| |by rewrite S|done|done|done].
    + intros k. cbn [undone]. unfold key_at, prev_tok_at. rewrite Ey. cbn. rewrite Kv. destruct (decide (_ = Some k)) as [[= <-]|Hne]; [done|]. apply K'. congruence.
    + by exists free.
  - exists s. split; [done|]. split; [|done]. split; try done; [|by exists free]. intros k. cbn [undone]. unfold key_at. rewrite Ey. cbn. unfold key. by rewrite R.
Qed.
Lemma pop_loop_spec P R keep : forall fuel U s p free, linked s_prev (syms s) p (P ++ R) -> NoDup (P ++ R) -> heap_ok s (P ++ U) free ->
  (forall q k, q ∈ P -> key_at (syms s) q = Some k -> is_tok s (snd k)) -> (length P <= fuel)%nat ->
  exists s', pop_loop fuel p (hd 0 R) keep s = Done () s' /\ popped s s' P U keep.
Proof.
  induction P as [|p0 P IH]; intros fuel U s p free L Hd H Ht Hf.
  { cbn [app] in L. pose proof (linked_head _ _ _ _ L) as ->. exists s. split; [destruct fuel; cbn; by rewrite Z.eqb_refl|]. by apply (popped_nil _ _ _ free). }
  cbn [app] in L, Hd, H. inversion L as [|p1 y l Hp E Ll E0 El]. subst p1 p0 l. apply NoDup_cons in Hd as [Hpn Hd]. apply not_elem_of_app in Hpn as [HpP HpR].
  destruct fuel as [|fuel]; [cbn in Hf; lia|]. cbn [pop_loop]. destruct (Z.eqb_spec p (hd 0 R)) as [Eh|_].
  { exfalso. destruct R as [|r R]; [done|]. apply HpR. rewrite Eh. by left. }
  unfold mbind at 1, F_bind at 1. unfold deref_sym. rewrite E. destruct (pop_slot p y s free (P ++ U) H E) as (s1 & E1 & P1 & S1 & H1).
  { intros k Hk. apply (Ht p); [by left|]. unfold key_at. by rewrite E. }
  unfold mbind at 1, F_bind at 1. rewrite E1. destruct (po_tok _ _ _ _ _ P1) as [N1 O1].
  pose proof (po_slot _ _ _ _ _ P1) as K1. cbn [undone] in K1. pose proof (po_top _ _ _ _ _ P1) as T1. pose proof (po_scope _ _ _ _ _ P1) as L1.
  destruct keep.
  - unfold mbind at 1, F_bind at 1, mret, F_ret. destruct (IH fuel (p :: U) s1 (s_prev y) free) as (s' & E' & [K' [free' H'] S' [N' O'] T' L']); rewrite ?S1; [done|done| | |cbn in Hf; lia|].
    + eapply heap_perm; [|exact H1]. apply Permutation_middle.
    + intros q k Hq Hk. apply O1. apply (Ht q); [by right|done].
    + exists s'. split; [exact E'|]. split.
      * intros k. rewrite K'. cbn [undone]. rewrite S1, K1. done.
      * exists free'. eapply heap_perm; [|exact H']. cbn. symmetry. apply Permutation_middle.
      * intros q _. rewrite S' by by left. by rewrite S1.
      * split; [by rewrite N'|]. intros t. by rewrite (O' t).
      * intros ps. by rewrite T'.
      * by rewrite L'.
  - destruct (sym_free_spec p s1 (P ++ U) free H1) as (y' & Ey' & E2 & H2). rewrite S1, E in Ey'. injection Ey' as <-.
    unfold mbind at 1, F_bind at 1. rewrite E2. set (s2 := set_free p _) in *. assert (forall q, q <> p -> syms s2 !! q = syms s !! q) as S2 by (intros q Hq; subst s2; cbn; rewrite S1; by rewrite lookup_insert_ne).
    assert (forall k, slot s2 k = slot s1 k) as K2 by done. assert (forall t, is_tok s2 t <-> is_tok s1 t) as O2 by done. assert (tok_ident (toks s2) = tok_ident (toks s1)) as N2 by done. assert (forall ps, top ps s2 = top ps s1) as T2 by (by intros []). assert (local_scope s2 = local_scope s1) as L2 by done. clearbody s2.
    destruct (IH fuel U s2 (s_prev y) (p :: free)) as (s' & E' & [K' [free' H'] S' [N' O'] T' L']); [ |done|done| |cbn in Hf; lia|].
    + apply (linked_ext _ _ _ _ _ Ll). intros q z Hq Ez. exists z. split; [|done]. rewrite S2; [done|]. intros ->. apply elem_of_app in Hq as [?|?]; done.
    + intros q k Hq Hk. apply O2, O1. apply (Ht q); [by right|]. unfold key_at in *. rewrite <- S2; [done|]. by intros ->.
    + exists s'. split; [exact E'|]. split.
      * intros k. rewrite K'. cbn [undone]. rewrite K2, K1. apply undone_ext. intros q Hq. apply S2. by intros ->.
      * by exists free'.
      * intros q [[=]|Hq]. apply not_elem_of_cons in Hq as [Hq1 Hq2]. rewrite S' by by right. by apply S2.
      * split; [by rewrite N', N2|]. intros t. by rewrite (O' t), (O2 t).
      * intros ps. by rewrite T', T2.
      * by rewrite L', L2.
Qed.

Lemma sym_pop_spec ps P R U keep s free : linked s_prev (syms s) (top ps s) (P ++ R) -> heap_ok s (P ++ U) free -> NoDup (P ++ R) ->
  (forall q k, q ∈ P -> key_at (syms s) q = Some k -> is_tok s (snd k)) ->
  exists s1, popped s s1 P U keep /\ sym_pop ps (hd 0 R) keep s = Done () (if keep then s1 else set_top ps (hd 0 R) s1).
Proof.
  intros L H Hd Ht. destruct (pop_loop_spec P R keep (size (syms s)) U s (top ps s) free L Hd H Ht) as (s1 & E & Po).
  { apply used_size; [by apply NoDup_app in Hd as [? _]|]. intros p Hp. apply (hp_used _ _ _ H). apply elem_of_app. by left. }
  exists s1. split; [done|]. unfold sym_pop, all_syms, mbind, F_bind, get. rewrite E. by destruct keep.
Qed.
