(* ===== verification/SymScope.v ===== *)
(** Block structure: the symbol stacks and the token table implement nested scopes.

    The specification is an environment: the scopes open, innermost first, each with its declarations, and
    the declarations of the file.  A declaration in a statement expression that has ended stays on the
    stack, but no longer belongs to the environment. *)
From S2P Require Import Prelude Token Symbols SymHeap SymPush SymPop.

Record decl := Decl { d_name : option (bool * Z); d_scope : Z; d_sym : Z }.
Record env := Env { scopes : list (list decl); globals : list decl; depth : Z }.
Definition visible (e : env) : list decl := List.concat (scopes e) ++ globals e.
Fixpoint find (k : bool * Z) (l : list decl) : option decl :=
  match l with [] => None | d :: l => if decide (d_name d = Some k) then Some d else find k l end.
Definition found (k : bool * Z) (l : list decl) : Z := match find k l with Some d => d_sym d | None => 0 end.
Lemma found_app k l1 l2 : found k (l1 ++ l2) = match find k l1 with Some d => d_sym d | None => found k l2 end.
Proof. unfold found. induction l1 as [|d l1 IH]; [done|]. cbn [app find]. by case_decide. Qed.
Lemma find_none k l : (forall d, d ∈ l -> d_name d <> Some k) -> find k l = None.
Proof. induction l as [|d l IH]; intros H; [done|]. cbn [find]. case_decide as Hd; [destruct (H d); [by left|done]|]. apply IH. intros d' Hd'. apply H. by right. Qed.
Lemma find_some k l d : find k l = Some d -> d ∈ l /\ d_name d = Some k.
Proof. induction l as [|d' l IH]; [done|]. cbn [find]. case_decide as Hd; [intros [= ->]; split; [by left|done]|]. intros H. destruct (IH H). split; [by right|done]. Qed.

(** The symbols behind an environment: [gone] are those of statement expressions that have ended, and
    [others] are on stacks of their own. *)
Record view := View { segs : list (list Z); glob : list Z; others : list Z; gone : gset Z }.
Definition all (V : view) : list Z := List.concat (segs V) ++ glob V.
Definition decls (m : gmap Z Sym) (g : gset Z) (l : list Z) : list decl :=
  omap (fun p => if decide (p ∈ g) then None else Some (Decl (key_at m p) (default 0 (scope_of m p)) p)) l.
Lemma decls_app m g l1 l2 : decls m g (l1 ++ l2) = decls m g l1 ++ decls m g l2.
Proof. apply omap_app. Qed.
Lemma decls_cons m g p l : decls m g (p :: l) = if decide (p ∈ g) then decls m g l else Decl (key_at m p) (default 0 (scope_of m p)) p :: decls m g l.
Proof. unfold decls. cbn. by case_decide. Qed.
Lemma decls_in m g l d : d ∈ decls m g l <-> d_sym d ∈ l /\ d_sym d ∉ g /\ d = Decl (key_at m (d_sym d)) (default 0 (scope_of m (d_sym d))) (d_sym d).
Proof.
  unfold decls. rewrite list_elem_of_omap. split.
  - intros (p & Hp & E). case_decide; [done|]. injection E as <-. done.
  - intros (H1 & H2 & ->). exists (d_sym d). split; [done|]. by rewrite decide_False.
Qed.
Lemma decls_ext m m' g g' l : (forall p, p ∈ l -> (p ∈ g' <-> p ∈ g) /\ (p ∉ g -> key_at m' p = key_at m p /\ scope_of m' p = scope_of m p)) ->
  decls m' g' l = decls m g l.
Proof.
  induction l as [|p l IH]; intros H; [done|]. rewrite !decls_cons, IH by (intros q Hq; apply H; by right).
  destruct (H p) as [Hg Hm]; [by left|]. destruct (decide (p ∈ g)) as [Hp|Hp].
  - by rewrite decide_True by tauto.
  - rewrite decide_False by tauto. by destruct (Hm Hp) as [-> ->].
Qed.
Lemma decls_gone m g l : (forall p, p ∈ l -> p ∈ g) -> decls m g l = [].
Proof.
  induction l as [|p l IH]; intros H; [done|]. rewrite decls_cons, decide_True by (apply H; by left). apply IH. intros q Hq. apply H. by right.
Qed.

Record scoped (s : front) (V : view) : Prop := {
  sc_heap : exists free, heap_ok s (all V ++ others V) free;
  sc_local : linked s_prev (syms s) (local_stack s) (List.concat (segs V));
  sc_global : linked s_prev (syms s) (global_stack s) (glob V);
  sc_gone p : p ∈ gone V -> p ∈ List.concat (segs V);
  sc_tok p k : p ∈ all V -> key_at (syms s) p = Some k -> is_tok s (snd k);
  sc_slot k : slot s k = found k (decls (syms s) (gone V) (all V));
  sc_end pre a p b rest k : segs V = pre ++ (a ++ p :: b) :: rest -> key_at (syms s) p = Some k -> (forall q, q ∈ b -> key_at (syms s) q <> Some k) ->
    prev_tok_at (syms s) p = found k (decls (syms s) (gone V) (List.concat rest ++ glob V));
  sc_ref a p b y : all V = a ++ p :: b -> p ∉ gone V -> syms s !! p = Some y -> IS_ENUM_VAL (ty_t (s_type y)) = true ->
    (exists t, key_at (syms s) p = Some (false, t)) /\ ty_ref (s_type y) ∈ b;
  sc_bottom pre seg : segs V = pre ++ [seg] -> seg <> []
}.
Definition env_of (s : front) (V : view) : env := Env (map (decls (syms s) (gone V)) (segs V)) (decls (syms s) (gone V) (glob V)) (local_scope s).
Lemma visible_of s V : visible (env_of s V) = decls (syms s) (gone V) (all V).
Proof.
  unfold visible, all. cbn. rewrite decls_app. f_equal. induction (segs V) as [|l ls IH]; [done|]. cbn [map List.concat]. by rewrite decls_app, IH.
Qed.
(** The stack that each scope but the outermost found when it was opened. *)
Fixpoint saved_of (ls : list (list Z)) : list Z :=
  match ls with [] => [] | _ :: rest => match rest with [] => [] | _ => hd 0 (List.concat rest) :: saved_of rest end end.
Definition related (s : front) (saved : list Z) (e : env) : Prop := exists V, scoped s V /\ e = env_of s V /\ saved = saved_of (segs V).

Lemma scoped_nodup s V : scoped s V -> NoDup (all V).
Proof. intros H. destruct (sc_heap _ _ H) as [free Hh]. pose proof (hp_nodup _ _ _ Hh) as Hd. apply NoDup_app in Hd as [Hd _]. by apply NoDup_app in Hd as [Hd _]. Qed.
Lemma scoped_sym s V p : scoped s V -> p ∈ all V -> p <> 0 /\ is_Some (syms s !! p).
Proof.
  intros H Hp. destruct (sc_heap _ _ H) as [free Hh]. assert (p ∈ all V ++ others V) as Hin by (apply elem_of_app; by left).
  split; [by eapply heap_pos|by apply (hp_used _ _ _ Hh)].
Qed.
Lemma scoped_ref s V p y : scoped s V -> p ∈ all V -> p ∉ gone V -> syms s !! p = Some y -> IS_ENUM_VAL (ty_t (s_type y)) = true -> ty_ref (s_type y) ∈ all V.
Proof.
  intros H Hp Hg E En. apply list_elem_of_split in Hp as (a & b & Ea). destruct (sc_ref _ _ H a p b y Ea Hg E En) as [_ Hr].
  rewrite Ea. apply elem_of_app. right. by right.
Qed.
Lemma scoped_scope s V p : scoped s V -> p ∈ all V -> p ∉ gone V -> is_Some (scope_of (syms s) p).
Proof.
  intros H Hp Hg. destruct (scoped_sym _ _ _ H Hp) as [_ [y E]]. unfold scope_of. rewrite E. cbn. destruct (IS_ENUM_VAL _) eqn:En; [|by eexists].
  destruct (scoped_sym s V (ty_ref (s_type y)) H) as [_ [z Ez]]; [by eapply scoped_ref|]. rewrite Ez. cbn. by eexists.
Qed.
(** A symbol found in the table is one of the visible ones. *)
Lemma slot_visible s V k : scoped s V -> slot s k <> 0 -> exists d, find k (decls (syms s) (gone V) (all V)) = Some d /\ slot s k = d_sym d /\
  d_sym d ∈ all V /\ d_sym d ∉ gone V /\ scope_of (syms s) (d_sym d) = Some (d_scope d).
Proof.
  intros H. rewrite (sc_slot _ _ H). unfold found. destruct (find k _) as [d|] eqn:E; [|done]. intros _. exists d. apply find_some in E as [Hd _].
  apply decls_in in Hd as (H1 & H2 & H3). split; [done|]. split; [done|]. split; [done|]. split; [done|]. destruct (scoped_scope _ _ _ H H1 H2) as [a Ha].
  rewrite H3 at 2. cbn. by rewrite Ha.
Qed.
Lemma slot_zero s V k : scoped s V -> slot s k = 0 -> find k (decls (syms s) (gone V) (all V)) = None.
Proof.
  intros H. rewrite (sc_slot _ _ H). unfold found. destruct (find k _) as [d|] eqn:E; [|done]. intros Hz. apply find_some in E as [Hd _].
  apply decls_in in Hd as (H1 & _). destruct (scoped_sym _ _ _ H H1). congruence.
Qed.

(** ** Declaring *)

Definition push_view (p : Z) (V : view) : view :=
  match segs V with
  | [] => View [] (p :: glob V) (others V) (gone V)
  | l :: rest => View ((p :: l) :: rest) (glob V) (others V) (gone V)
  end.
Lemma all_push p V : all (push_view p V) = p :: all V.
Proof. unfold push_view, all. by destruct (segs V). Qed.
Lemma others_push p V : others (push_view p V) = others V.
Proof. unfold push_view. by destruct (segs V). Qed.
Lemma gone_push p V : gone (push_view p V) = gone V.
Proof. unfold push_view. by destruct (segs V). Qed.
Lemma gone_all s V p : scoped s V -> p ∈ gone V -> p ∈ all V.
Proof. intros H Hp. apply elem_of_app. left. by apply (sc_gone _ _ H). Qed.
(** The outermost scope starts with a symbol, so that the stack is empty at file level only. *)
Lemma local_empty s V : scoped s V -> (local_stack s = 0 <-> segs V = []).
Proof.
  intros H. pose proof (sc_local _ _ H) as L. split.
  - intros Hz. rewrite Hz in L. assert (List.concat (segs V) = []) as E by (by inversion L). clear L. destruct (segs V) as [|l ls _] eqn:Es using rev_ind; [done|]. exfalso.
    apply (sc_bottom _ _ H _ _ Es). rewrite concat_app in E. cbn in E. by destruct (List.concat ls), l.
  - intros Es. rewrite Es in L. by inversion L.
Qed.
Lemma key_same (m m' : gmap Z Sym) p : m' !! p = m !! p -> key_at m' p = key_at m p.
Proof. unfold key_at. by intros ->. Qed.
Lemma decls_same s s' V g l : scoped s V -> (forall q, q ∈ all V -> syms s' !! q = syms s !! q) -> (forall q, q ∈ l -> q ∈ all V) ->
  (forall q, q ∈ l -> (q ∈ g <-> q ∈ gone V)) -> decls (syms s') g l = decls (syms s) (gone V) l.
Proof.
  intros H Hs Hl Hg. apply decls_ext. intros q Hq. split; [by apply Hg|]. intros Hgone. pose proof (Hl q Hq) as Ha. split; [by apply key_same, Hs|].
  destruct (scoped_sym _ _ _ H Ha) as [_ [y E]]. apply (scope_of_ext _ _ _ y E); [by apply Hs|]. intros En. apply Hs. by eapply scoped_ref.
Qed.
Lemma seg_in V pre l rest q : segs V = pre ++ l :: rest -> q ∈ l -> q ∈ all V.
Proof. intros E Hq. unfold all. rewrite E, concat_app. cbn. rewrite !elem_of_app. tauto. Qed.
Lemma rest_in V pre l rest q : segs V = pre ++ l :: rest -> q ∈ List.concat rest ++ glob V -> q ∈ all V.
Proof. intros E Hq. unfold all. rewrite E, concat_app. cbn. rewrite !elem_of_app in *. tauto. Qed.

Lemma push_stack s s' V p v type r c : scoped s V -> pushed s s' (all V ++ others V) p v type r c ->
  linked s_prev (syms s') (local_stack s') (List.concat (segs (push_view p V))) /\ linked s_prev (syms s') (global_stack s') (glob (push_view p V)).
Proof.
  intros H P. pose proof (pu_top _ _ _ _ _ _ _ _ P) as Ht. pose proof (pu_other _ _ _ _ _ _ _ _ P) as Ho. pose proof (pu_sym _ _ _ _ _ _ _ _ P) as Es.
  assert (forall l q, linked s_prev (syms s) q l -> (forall x, x ∈ l -> x ∈ all V) -> linked s_prev (syms s') q l) as Keep.
  { intros l q L Hl. apply (linked_ext _ _ _ _ _ L). intros x y Hx E. exists y. split; [|done]. rewrite (pu_syms _ _ _ _ _ _ _ _ P); [done|]. apply elem_of_app. left. by apply Hl. }
  assert (p <> 0) as Hp. { destruct (pu_heap _ _ _ _ _ _ _ _ P) as [free Hh]. eapply heap_pos; [exact Hh|by left]. }
  pose proof (local_empty _ _ H) as He. unfold current in Ht, Ho, Es. unfold push_view. destruct (Z.eqb_spec (local_stack s) 0) as [Hz|Hz].
  - apply He in Hz as Hs. rewrite Hs. cbn. specialize (Ho Local ltac:(done)). cbn in Ht, Ho. rewrite Ho, Ht, Hz. split; [done|].
    eapply linked_next; [done|exact Es|]. cbn. apply Keep; [apply (sc_global _ _ H)|]. intros x Hx. apply elem_of_app. by right.
  - destruct (segs V) as [|l rest] eqn:Hs; [by destruct Hz; apply He|]. cbn. specialize (Ho Global ltac:(done)). cbn in Ht, Ho. rewrite Ho, Ht. pose proof (sc_local _ _ H) as L. rewrite Hs in L. split.
    + eapply linked_next; [done|exact Es|]. cbn. apply Keep; [exact L|]. intros x Hx. unfold all. rewrite Hs. apply elem_of_app. by left.
    + apply Keep; [apply (sc_global _ _ H)|]. intros x Hx. apply elem_of_app. by right.
Qed.
Lemma push_scoped s s' V p v type r c : scoped s V -> pushed s s' (all V ++ others V) p v type r c -> (forall k, key v = Some k -> is_tok s (snd k)) ->
  (IS_ENUM_VAL (ty_t type) = true -> (exists t, key v = Some (false, t)) /\ ty_ref type ∈ all V) -> scoped s' (push_view p V).
Proof.
  intros H P Hk He. assert (forall q, q ∈ all V -> syms s' !! q = syms s !! q) as Hs by (intros q Hq; apply (pu_syms _ _ _ _ _ _ _ _ P), elem_of_app; by left).
  assert (p ∉ all V) as Hp by (intros Hin; apply (pu_new _ _ _ _ _ _ _ _ P), elem_of_app; by left).
  assert (key_at (syms s') p = key v) as Kp by (unfold key_at; by rewrite (pu_sym _ _ _ _ _ _ _ _ P)).
  assert (forall q, q ∈ all V -> key_at (syms s') q = key_at (syms s) q) as Kq by (intros q Hq; by apply key_same, Hs).
  destruct (push_stack _ _ _ _ _ _ _ _ H P) as [Ll Lg]. split.
  - destruct (pu_heap _ _ _ _ _ _ _ _ P) as [free Hh]. exists free. by rewrite all_push, others_push.
  - done.
  - done.
  - intros q. rewrite gone_push. intros Hq%(sc_gone _ _ H). unfold push_view. destruct (segs V); [done|]. cbn in *. by right.
  - intros q k. rewrite all_push. intros [->|Hq]%elem_of_cons Hkey; apply (pu_tok _ _ _ _ _ _ _ _ P); [apply Hk; congruence|]. rewrite Kq in Hkey by done. by apply (sc_tok _ _ H q).
  - intros k. rewrite all_push, gone_push, (pu_slot _ _ _ _ _ _ _ _ P), decls_cons, (decide_False (P := p ∈ gone V)) by (intros Hg; apply Hp; by apply (gone_all s)).
    unfold found. cbn [find d_name]. rewrite Kp. case_decide; [done|]. rewrite (decls_same s s' V (gone V) (all V) H Hs); [|done..]. apply (sc_slot _ _ H).
  - intros pre a q b rest k. rewrite gone_push. unfold push_view. destruct (segs V) as [|l ls] eqn:Es; cbn [segs glob]; [by destruct pre|]. intros E Hq Hb.
    destruct pre as [|x pre]; injection E as E1 E2.
    + subst ls. rewrite (decls_same s s' V (gone V)); [|done|done|intros x Hx; by apply (rest_in V [] l rest x Es)|done]. destruct a as [|x a]; injection E1 as E1 E3.
      * subst q l. unfold prev_tok_at. rewrite (pu_sym _ _ _ _ _ _ _ _ P). cbn [s_prev_tok]. rewrite Kp in Hq. rewrite Hq, (sc_slot _ _ H). unfold all at 1. rewrite Es. cbn [List.concat].
        rewrite <- app_assoc, decls_app, found_app, find_none; [done|]. intros d (Hd & _ & ->)%decls_in. cbn [d_name]. rewrite <- (Kq _ (seg_in V [] b rest _ Es Hd)). by apply Hb.
      * subst l. rewrite <- (sc_end _ _ H [] a q b rest k Es); [|rewrite <- Hq; symmetry; apply Kq, (seg_in V [] _ rest _ Es), elem_of_app; right; by left|].
        -- unfold prev_tok_at. rewrite Hs; [done|]. apply (seg_in V [] _ rest _ Es), elem_of_app; right; by left.
        -- intros z Hz. rewrite <- Kq; [by apply Hb|]. apply (seg_in V [] _ rest _ Es), elem_of_app; right; by right.
    + subst x ls. rewrite (decls_same s s' V (gone V)); [|done|done|intros y Hy; by apply (rest_in V (l :: pre) (a ++ q :: b) rest y Es)|done].
      rewrite <- (sc_end _ _ H (l :: pre) a q b rest k Es); [|rewrite <- Hq; symmetry; apply Kq, (seg_in V (l :: pre) _ rest _ Es), elem_of_app; right; by left|].
      * unfold prev_tok_at. rewrite Hs; [done|]. apply (seg_in V (l :: pre) _ rest _ Es), elem_of_app; right; by left.
      * intros z Hz. rewrite <- Kq; [by apply Hb|]. apply (seg_in V (l :: pre) _ rest _ Es), elem_of_app; right; by right.
  - intros a q b y. rewrite all_push, gone_push. intros E Hg Ey En. destruct a as [|x a]; injection E as E1 E2.
    + subst q b. rewrite (pu_sym _ _ _ _ _ _ _ _ P) in Ey. injection Ey as <-. cbn [s_type] in *. rewrite Kp. by apply He.
    + assert (q ∈ all V) as Hq by (rewrite E2; apply elem_of_app; right; by left). rewrite Hs in Ey by done. rewrite Kq by done. by apply (sc_ref _ _ H a q b y).
  - intros pre seg. unfold push_view. destruct (segs V) as [|l ls] eqn:Es; cbn [segs]; [by destruct pre|]. intros E. destruct pre as [|x pre]; injection E as E1 E2.
    + by subst seg.
    + subst x ls. by apply (sc_bottom _ _ H (l :: pre) seg).
Qed.
