(* ===== verification/SymBlocks.v ===== *)
(** Block structure, continued: the end of a scope, and every step of the compiler as a step of the
    specification. *)
From S2P Require Import Prelude Token Symbols SymHeap SymPush SymPop SymScope.

(** ** The end of a scope *)

Definition pop_view (keep : bool) (V : view) : view :=
  match segs V with
  | [] => V
  | l :: rest =>
      if keep then match rest with
        | [] => V
        | l' :: rest => View ((l ++ l') :: rest) (glob V) (others V) (gone V ∪ list_to_set l)
        end
      else View rest (glob V) (others V) (gone V ∖ list_to_set l)
  end.
Section pop.
Context (s : front) (V : view) (l : list Z) (rest : list (list Z)) (H : scoped s V) (Hs : segs V = l :: rest).
Notation below := (List.concat rest ++ glob V).
Lemma all_split : all V = l ++ below.
Proof. unfold all. rewrite Hs. cbn. by rewrite app_assoc. Qed.
Lemma below_not q : q ∈ below -> q ∉ l.
Proof. intros Hq Hl. pose proof (scoped_nodup _ _ H) as Hd. rewrite all_split in Hd. apply NoDup_app in Hd as (_ & Hd & _). by apply (Hd q). Qed.
Lemma pop_done keep : exists s1, popped s s1 l (below ++ others V) keep /\
  sym_pop Local (hd 0 (List.concat rest)) keep s = Done () (if keep then s1 else set_top Local (hd 0 (List.concat rest)) s1).
Proof.
  destruct (sc_heap _ _ H) as [free Hh]. rewrite all_split in Hh. pose proof (sc_local _ _ H) as L. rewrite Hs in L. cbn [List.concat] in L.
  pose proof (scoped_nodup _ _ H) as Hd. rewrite all_split, app_assoc in Hd. apply NoDup_app in Hd as [Hd _].
  apply (sym_pop_spec Local l (List.concat rest) (below ++ others V) keep s free); [done|by rewrite app_assoc|done|].
  intros q k Hq. apply (sc_tok _ _ H). rewrite all_split. apply elem_of_app. by left.
Qed.
(** Every name means again what it meant outside. *)
Lemma pop_slots k : undone (syms s) l k (slot s k) = found k (decls (syms s) (gone V) below).
Proof.
  apply undone_eq.
  - intros a p b E Hk Hb. apply (sc_end _ _ H [] a p b rest k); [by rewrite <- E|done..].
  - intros Hn. rewrite (sc_slot _ _ H), all_split, decls_app, found_app, find_none; [done|]. intros d (Hd & _ & ->)%decls_in. by apply Hn.
Qed.
Lemma pop_scoped s1 : popped s s1 l (below ++ others V) false -> let s' := set_top Local (hd 0 (List.concat rest)) s1 in
  scoped s' (pop_view false V) /\ env_of s' (pop_view false V) = Env (tl (map (decls (syms s) (gone V)) (segs V))) (decls (syms s) (gone V) (glob V)) (local_scope s).
Proof.
  intros [K [free Hh] S [Nt O] T L] s'. assert (forall q, q ∈ below -> syms s' !! q = syms s !! q) as Sb by (intros q Hq; apply S; right; by apply below_not).
  assert (forall q, q ∈ below -> q ∈ all V) as Ba by (intros q Hq; rewrite all_split; apply elem_of_app; by right).
  assert (forall q, q ∈ below -> (q ∈ gone V ∖ list_to_set l <-> q ∈ gone V)) as Gb.
  { intros q Hq. rewrite elem_of_difference, elem_of_list_to_set. pose proof (below_not q Hq). tauto. }
  assert (forall ls, (forall q, q ∈ ls -> q ∈ below) -> decls (syms s') (gone V ∖ list_to_set l) ls = decls (syms s) (gone V) ls) as Db.
  { intros ls Hls. apply decls_ext. intros q Hq. apply Hls in Hq. split; [by apply Gb|]. intros Hg. split; [by apply key_same, Sb|].
    destruct (scoped_sym _ _ _ H (Ba q Hq)) as [_ [y E]]. apply (scope_of_ext _ _ _ y E); [by apply Sb|]. intros En. apply Sb.
    apply list_elem_of_split in Hq as (a & b & Eb). destruct (sc_ref _ _ H (l ++ a) q b y) as [_ Hr]; [by rewrite all_split, Eb, <- app_assoc|done..|].
    rewrite Eb. apply elem_of_app. right. by right. }
  unfold pop_view. rewrite Hs. split; [|unfold env_of; cbn [segs glob gone map tl]; f_equal; [|apply Db; intros q Hq; apply elem_of_app; by right|done]].
  2: { apply map_ext_in. intros ls Hls. apply Db. intros q Hq. apply elem_of_app. left. apply list_elem_of_In, in_concat. exists ls. split; [done|by apply list_elem_of_In]. }
  split; cbn [segs glob others gone]; unfold all; cbn [segs glob others].
  - exists free. destruct Hh as [H1 H2 H3 H4 H5]. by split.
  - cbn. pose proof (sc_local _ _ H) as Ll. rewrite Hs in Ll. apply linked_app in Ll. apply (linked_ext _ _ _ _ _ Ll). intros q y Hq E. exists y. split; [|done].
    rewrite <- E. apply Sb, elem_of_app. by left.
  - pose proof (sc_global _ _ H) as Lg. pose proof (T Global) as TG. cbn in TG |- *. rewrite TG. apply (linked_ext _ _ _ _ _ Lg). intros q y Hq E. exists y. split; [|done].
    rewrite <- E. apply Sb, elem_of_app. by right.
  - intros q [Hq Hn]%elem_of_difference. apply (sc_gone _ _ H) in Hq. rewrite Hs in Hq. cbn in Hq. apply elem_of_app in Hq as [Hq|Hq]; [|done]. by rewrite elem_of_list_to_set in Hn.
  - intros q k Hq Hk. apply O. rewrite (key_same (syms s)) in Hk by (by apply Sb). apply (sc_tok _ _ H q); [by apply Ba|done].
  - intros k. change (slot s' k) with (slot s1 k). rewrite K, pop_slots. by rewrite Db.
  - intros pre a q b rest' k E Hk Hb. assert (segs V = (l :: pre) ++ (a ++ q :: b) :: rest') as E' by (by rewrite Hs, E).
    assert (forall z, z ∈ a ++ q :: b -> z ∈ below) as Hz by (intros z Hz%elem_of_app; rewrite E, concat_app; cbn; rewrite !elem_of_app; tauto).
    assert (q ∈ below) as Hq by (apply Hz, elem_of_app; right; by left).
    rewrite Db; [|intros z Hz'%elem_of_app; rewrite E, concat_app; cbn; rewrite !elem_of_app; tauto]. rewrite <- (sc_end _ _ H (l :: pre) a q b rest' k E').
    + unfold prev_tok_at. by rewrite Sb.
    + by rewrite <- (key_same _ _ q (Sb q Hq)).
    + intros z Hz'. assert (z ∈ below) as Hzb by (apply Hz, elem_of_app; right; by right). rewrite <- (key_same _ _ z (Sb z Hzb)). by apply Hb.
  - intros a q b y E Hg Ey En. assert (q ∈ below) as Hq by (rewrite E; apply elem_of_app; right; by left). rewrite Sb in Ey by done. rewrite (key_same _ _ q (Sb q Hq)).
    apply (sc_ref _ _ H (l ++ a) q b y); [by rewrite all_split, E, <- app_assoc|by rewrite <- Gb|done..].
  - intros pre seg E. apply (sc_bottom _ _ H (l :: pre)). by rewrite Hs, E.
Qed.
(** The end of a statement expression: its symbols stay on the stack, behind those of the scope around. *)
Lemma keep_scoped l' rest' s1 : rest = l' :: rest' -> popped s s1 l (below ++ others V) true ->
  scoped s1 (pop_view true V) /\ env_of s1 (pop_view true V) = Env (tl (map (decls (syms s) (gone V)) (segs V))) (decls (syms s) (gone V) (glob V)) (local_scope s).
Proof.
  intros Hr [K [free Hh] S [Nt O] T L]. assert (forall q, syms s1 !! q = syms s !! q) as Sq by (intros q; apply S; by left).
  assert (syms s1 = syms s) as Sm by (by apply map_eq).
  assert (forall ls, (forall q, q ∈ ls -> q ∈ below) -> decls (syms s) (gone V ∪ list_to_set l) ls = decls (syms s) (gone V) ls) as Db.
  { intros ls Hls. apply decls_ext. intros q Hq. split; [|done]. rewrite elem_of_union, elem_of_list_to_set. pose proof (below_not q (Hls q Hq)). tauto. }
  assert (forall ls, decls (syms s) (gone V ∪ list_to_set l) (l ++ ls) = decls (syms s) (gone V ∪ list_to_set l) ls) as Dl.
  { intros ls. rewrite decls_app, decls_gone; [done|]. intros q Hq. rewrite elem_of_union, elem_of_list_to_set. by right. }
  assert (all (View ((l ++ l') :: rest') (glob V) (others V) (gone V ∪ list_to_set l)) = all V) as Ea by (unfold all; rewrite Hs, Hr; cbn; by rewrite <- !app_assoc).
  unfold pop_view. rewrite Hs, Hr. split.
  2: { unfold env_of. cbn [segs glob gone map tl]. rewrite Sm, Dl, L. f_equal; [|apply Db; intros q Hq; apply elem_of_app; by right].
       f_equal; [apply Db; intros q Hq; rewrite Hr; cbn; rewrite !elem_of_app; tauto|]. apply map_ext_in. intros ls Hls. apply Db. intros q Hq. apply elem_of_app. left. rewrite Hr. cbn. apply elem_of_app. right.
       apply list_elem_of_In, in_concat. exists ls. split; [done|by apply list_elem_of_In]. }
  pose proof all_split as Eb. split; rewrite ?Ea; cbn [segs glob others gone]; rewrite ?Sm.
  - exists free. rewrite Eb. by rewrite <- app_assoc.
  - pose proof (T Local) as TL. cbn in TL. rewrite TL. pose proof (sc_local _ _ H) as Ll. rewrite Hs, Hr in Ll. cbn in *. by rewrite <- app_assoc.
  - pose proof (T Global) as TG. cbn in TG. rewrite TG. apply (sc_global _ _ H).
  - intros q [Hq|Hq]%elem_of_union; [apply (sc_gone _ _ H) in Hq; rewrite Hs, Hr in Hq; cbn in *; by rewrite <- app_assoc|]. apply elem_of_list_to_set in Hq. cbn. apply elem_of_app. left. apply elem_of_app. by left.
  - intros q k Hq Hk. apply O. by apply (sc_tok _ _ H q).
  - intros k. rewrite K, pop_slots, Eb, Dl. by rewrite Db.
  - intros pre a q b rest0 k E Hk Hb. destruct pre as [|x pre]; injection E as E1 E2.
    + subst rest0. assert (decls (syms s) (gone V ∪ list_to_set l) (List.concat rest' ++ glob V) = decls (syms s) (gone V) (List.concat rest' ++ glob V)) as ->.
      { apply Db. intros z. rewrite Hr. cbn. rewrite !elem_of_app. tauto. }
      destruct (app_eq_app _ _ _ _ E1) as [w [[El Eq]|[Ea' Eq]]].
      * destruct w as [|w0 w]; cbn in Eq.
        { rewrite app_nil_r in El. subst a. apply (sc_end _ _ H [l] [] q b rest' k); [by rewrite Hs, Hr, <- Eq|done..]. }
        injection Eq as <- ->. rewrite (sc_end _ _ H [] a q w rest k); [|by rewrite Hs, El|done|intros z Hz; apply Hb, elem_of_app; by left].
        rewrite Hr. cbn [List.concat]. rewrite <- app_assoc, decls_app, found_app, find_none; [done|]. intros d (Hd & _ & ->)%decls_in. apply Hb, elem_of_app. by right.
      * subst a. apply (sc_end _ _ H [l] w q b rest' k); [by rewrite Hs, Hr, Eq|done..].
    + subst x rest'. rewrite Db by (intros z; rewrite Hr; cbn; rewrite concat_app; cbn; rewrite !elem_of_app; tauto).
      by apply (sc_end _ _ H (l :: l' :: pre) a q b rest0 k); [rewrite Hs, Hr|..].
  - intros a q b y E Hg. apply (sc_ref _ _ H a q b y E). intros Hq. apply Hg, elem_of_union. by left.
  - intros pre seg E. destruct pre as [|x pre]; injection E as E1 E2.
    + subst seg rest'. intros [_ El]%app_nil. apply (sc_bottom _ _ H [l] l'); [by rewrite Hs, Hr|done].
    + subst rest'. apply (sc_bottom _ _ H (l :: l' :: pre)). by rewrite Hs, Hr.
Qed.
End pop.

(** ** Entering a function, opening a scope *)

Lemma scoped_depth s V n : scoped s V -> scoped (set_local_scope n s) V.
Proof. intros [[free [h1 h2 h3 h4 h5]] H2 H3 H4 H5 H6 H7 H8 H9]. split; try done. exists free. by split. Qed.
Lemma env_depth s V n : env_of (set_local_scope n s) V = Env (scopes (env_of s V)) (globals (env_of s V)) n.
Proof. done. Qed.
Lemma open_scoped s V : scoped s V -> segs V <> [] -> scoped s (View ([] :: segs V) (glob V) (others V) (gone V)).
Proof.
  intros [H1 H2 H3 H4 H5 H6 H7 H8 H9] Hne. split; try done.
  - intros pre a p b rest k E. destruct pre as [|x pre]; injection E as E1 E2; [by destruct a|]. by apply (H7 pre a p b rest k).
  - intros pre seg E. destruct pre as [|x pre]; injection E as E1 E2; [done|]. by apply (H9 pre).
Qed.
(** The symbol that a function starts with has no name. *)
Lemma enter_scoped s V p s' : scoped s V -> segs V = [] -> p ∉ all V ++ others V -> (exists free, heap_ok s' (p :: all V ++ others V) free) ->
  (forall q, q ∈ all V ++ others V -> syms s' !! q = syms s !! q) -> syms s' !! p = Some (MkSym SYM_FIELD 0 (Attr 0 0 0 0 0) 0 0 (CTy 0 0) 0 0 0) ->
  local_stack s' = p -> global_stack s' = global_stack s -> toks s' = toks s ->
  let V' := View [[p]] (glob V) (others V) (gone V) in
  scoped s' V' /\ env_of s' V' = Env [[Decl None 0 p]] (globals (env_of s V)) (local_scope s').
Proof.
  intros H Hs Hp Hh Hq Ep Hl Hg Ht V'. assert (all V = glob V) as Ea by (unfold all; by rewrite Hs). assert (p ∉ gone V) as Hpg by (intros Hin; apply (sc_gone _ _ H) in Hin; rewrite Hs in Hin; by apply elem_of_nil in Hin).
  assert (forall q, q ∈ glob V -> syms s' !! q = syms s !! q) as Hq' by (intros q Hin; apply Hq, elem_of_app; left; by rewrite Ea).
  assert (key_at (syms s') p = None) as Kp by (unfold key_at; by rewrite Ep).
  assert (forall ls, (forall q, q ∈ ls -> q ∈ glob V) -> decls (syms s') (gone V) ls = decls (syms s) (gone V) ls) as Db.
  { intros ls Hls. apply (decls_same s s' V); [done|intros q Hin; apply Hq'; by rewrite <- Ea|intros q Hin; rewrite Ea; by apply Hls|done]. }
  split.
  2: { unfold env_of. cbn [segs glob gone map globals V']. rewrite (Db (glob V)) by done. rewrite decls_cons, decide_False by done. rewrite Kp. unfold scope_of. by rewrite Ep. }
  subst V'. split; unfold all; cbn [segs glob others gone List.concat app].
  - by rewrite <- Ea.
  - rewrite Hl. destruct Hh as [free Hh]. eapply linked_next; [eapply heap_pos; [exact Hh|by left]|exact Ep|]. constructor.
  - rewrite Hg. apply (linked_ext _ _ _ _ _ (sc_global _ _ H)). intros q y Hin E. exists y. by rewrite Hq'.
  - intros q Hin. apply (sc_gone _ _ H) in Hin. rewrite Hs in Hin. by apply elem_of_nil in Hin.
  - intros q k [->|Hin]%elem_of_cons Hk; [congruence|]. unfold is_tok. rewrite Ht. apply (sc_tok _ _ H q); [by rewrite Ea|]. by rewrite <- (key_same _ _ q (Hq' q Hin)).
  - intros k. rewrite decls_cons, decide_False by done. unfold found. cbn [find d_name]. rewrite Kp. rewrite decide_False by done. rewrite (Db (glob V)) by done. unfold slot. rewrite Ht.
    rewrite <- Ea. apply (sc_slot _ _ H).
  - intros pre a q b rest k E Hk. destruct pre as [|x pre]; injection E as E1 E2; [|by destruct pre]. destruct a as [|x a]; injection E1 as E1 E3; [congruence|by destruct a].
  - intros a q b y E Hgn Ey En. destruct a as [|x a]; injection E as E1 E2; [subst q; rewrite Ep in Ey; by injection Ey as <-|].
    assert (q ∈ glob V) as Hin by (rewrite E2; apply elem_of_app; right; by left). rewrite Hq' in Ey by done. rewrite (key_same _ _ q (Hq' q Hin)). apply (sc_ref _ _ H a q b y); [by rewrite Ea|done..].
  - intros pre seg E. destruct pre as [|x [|z pre]]; by simplify_eq/=.
Qed.
(** The value of an enumeration constant overwrites its scope number, which [sym_scope] does not read. *)
Lemma enum_scoped s V p y ll l : scoped s V -> all V = p :: l -> syms s !! p = Some y -> IS_ENUM_VAL (ty_t (s_type y)) = true ->
  let s' := set_syms (<[p := set_enum_val ll y]> (syms s)) s in scoped s' V /\ env_of s' V = env_of s V.
Proof.
  intros H Ha Ey En s'. assert (forall q, q <> p -> syms s' !! q = syms s !! q) as Hq by (intros q Hne; subst s'; cbn; by rewrite lookup_insert_ne).
  assert (syms s' !! p = Some (set_enum_val ll y)) as Ep by (subst s'; cbn; by rewrite lookup_insert_eq).
  assert (forall q, key_at (syms s') q = key_at (syms s) q) as Kq by (intros q; unfold key_at; destruct (decide (q = p)) as [->|]; [by rewrite Ep, Ey|by rewrite Hq]).
  assert (forall q, prev_tok_at (syms s') q = prev_tok_at (syms s) q) as Pq by (intros q; unfold prev_tok_at; destruct (decide (q = p)) as [->|]; [by rewrite Ep, Ey|by rewrite Hq]).
  pose proof (scoped_nodup _ _ H) as Hd. rewrite Ha in Hd. apply NoDup_cons in Hd as [Hpl _].
  assert (forall q z, q ∈ all V -> q ∉ gone V -> syms s !! q = Some z -> IS_ENUM_VAL (ty_t (s_type z)) = true -> ty_ref (s_type z) <> p) as Hr.
  { intros q z Hin Hg Ez Ezn Er. apply list_elem_of_split in Hin as (a & b & Eab). destruct (sc_ref _ _ H a q b z Eab Hg Ez Ezn) as [_ Hb]. rewrite Er in Hb. apply Hpl.
    rewrite Ha in Eab. destruct a as [|x a]; injection Eab as E1 E2; [by subst|]. rewrite E2. apply elem_of_app. right. by right. }
  assert (forall ls, (forall q, q ∈ ls -> q ∈ all V) -> decls (syms s') (gone V) ls = decls (syms s) (gone V) ls) as Db.
  { intros ls Hls. apply decls_ext. intros q Hin. split; [done|]. intros Hg. split; [apply Kq|]. unfold scope_of. destruct (decide (q = p)) as [->|Hne].
    - rewrite Ep, Ey. cbn. rewrite En, Hq; [done|]. apply (Hr p y); [rewrite Ha; by left|done..].
    - rewrite Hq by done. destruct (syms s !! q) as [z|] eqn:Ez; [|done]. cbn. destruct (IS_ENUM_VAL (ty_t (s_type z))) eqn:Ezn; [|done]. rewrite Hq; [done|]. apply (Hr q z); [by apply Hls|done..]. }
  assert (forall nx q ls, (forall z, nx (set_enum_val ll z) = nx z) -> linked nx (syms s) q ls -> linked nx (syms s') q ls) as Lq.
  { intros nx q ls Hn L. apply (linked_ext _ _ _ _ _ L). intros z w _ E. destruct (decide (z = p)) as [->|]; [exists (set_enum_val ll y); split; [done|]; rewrite Hn; congruence|exists w; by rewrite Hq]. }
  split.
  2: { unfold env_of. f_equal; [|apply Db; intros q Hin; apply elem_of_app; by right]. apply map_ext_in. intros ls Hls. apply Db. intros q Hin. apply elem_of_app. left.
       apply list_elem_of_In, in_concat. exists ls. split; [done|by apply list_elem_of_In]. }
  destruct (sc_heap _ _ H) as [free Hh]. split.
  - exists free. eapply (heap_alter s s' _ _ p); [exact Hh|rewrite Ha; by left|done..].
  - by apply Lq, (sc_local _ _ H).
  - by apply Lq, (sc_global _ _ H).
  - apply (sc_gone _ _ H).
  - intros q k. rewrite Kq. apply (sc_tok _ _ H).
  - intros k. rewrite Db by done. apply (sc_slot _ _ H).
  - intros pre a q b rest k E. rewrite Kq, Pq, Db by (intros z; by apply (rest_in V pre (a ++ q :: b) rest z E)). intros Hk Hb. apply (sc_end _ _ H pre a q b rest k E); [done|]. intros z. rewrite <- Kq. by apply Hb.
  - intros a q b z E Hg Ez Ezn. rewrite Kq. destruct (decide (q = p)) as [->|]; [|rewrite Hq in Ez by done; by apply (sc_ref _ _ H a q b z)].
    rewrite Ep in Ez. injection Ez as <-. by apply (sc_ref _ _ H a p b y).
  - apply (sc_bottom _ _ H).
Qed.
