(* ===== verification/Scopes.v ===== *)
(** The compiler's scopes refine nested environments. *)
From S2P Require Import Prelude Token Symbols SymHeap SymPush SymPop SymScope SymBlocks.

Inductive step :=
  | Enter | Body | Leave | Open | Close (is_expr : bool) | Push (v : Z) (type : CType) (r c : Z) | Enumerator (v tag ll : Z).
(** One step of the compiler, with the [o->lstk] of the scopes that are open. *)
Definition exec (can_alloc : Z -> bool) (o : step) (saved : list Z) : F (list Z) :=
  match o with
  | Enter => enter_function can_alloc;; mret saved
  | Body => enter_body;; mret saved
  | Leave => leave_function;; mret saved
  | Open => l ← new_scope; mret (l :: saved)
  | Close is_expr => match saved with [] => wild | l :: saved => prev_scope l is_expr;; mret saved end
  | Push v type r c => sym_push can_alloc v type r c;; mret saved
  | Enumerator v tag ll => enumerator can_alloc v tag ll;; mret saved
  end.

(** A redeclaration is one whose name is already declared in the current scope number. *)
Definition declare (n : option (bool * Z)) (scope p : Z) (e : env) : option env :=
  let redeclared := match n with Some k => match find k (visible e) with Some d => d_scope d =? i32 (depth e) | None => false end | None => false end in
  if redeclared then None
  else Some match scopes e with
    | [] => Env [] (Decl n scope p :: globals e) (depth e)
    | l :: rest => Env ((Decl n scope p :: l) :: rest) (globals e) (depth e)
    end.
Definition scope_number (p : Z) (l : list decl) : Z := match filter (fun d => d_sym d = p) l with d :: _ => d_scope d | [] => 0 end.
(** The step of the specification, for the symbol [p]; [None] is the error. *)
Definition spec (o : step) (p : Z) (e : env) : option env :=
  match o with
  | Enter => Some (Env [[Decl None 0 p]] (globals e) 1)
  | Body => Some (Env (scopes e) (globals e) 0)
  | Leave => Some (Env [] (globals e) 0)
  | Open => Some (Env ([] :: scopes e) (globals e) (i32 (depth e + 1)))
  | Close _ => Some (Env (tl (scopes e)) (globals e) (i32 (depth e - 1)))
  | Push v _ _ _ => declare (key v) (if key v then i32 (depth e) else 0) p e
  | Enumerator v tag _ => declare (key v) (scope_number tag (visible e)) p e
  end.
(** What the rest of the compiler sees to. *)
Definition proper (s : front) (o : step) (e : env) : Prop :=
  match o with
  | Enter => scopes e = []
  | Body => True
  | Leave => length (scopes e) = 1%nat
  | Open => scopes e <> []
  | Close _ => (2 <= length (scopes e))%nat
  | Push v type _ _ => (forall k, key v = Some k -> is_tok s (snd k)) /\ IS_ENUM_VAL (ty_t type) = false
  | Enumerator v tag _ => key v = Some (false, v) /\ is_tok s v /\ exists d, d ∈ visible e /\ d_sym d = tag /\ forall t, d_name d <> Some (false, t)
  end.

Lemma scope_i32_u32 x : i32 (u32 x) = i32 x.
Proof. unfold i32, u32. f_equal. by rewrite Zplus_mod_idemp_l. Qed.
Lemma env_push s s' V p v type r c : scoped s V -> scoped s' (push_view p V) -> pushed s s' (all V ++ others V) p v type r c ->
  env_of s' (push_view p V) = let d := Decl (key v) (default 0 (scope_of (syms s') p)) p in
    match scopes (env_of s V) with
    | [] => Env [] (d :: globals (env_of s V)) (local_scope s)
    | l :: rest => Env ((d :: l) :: rest) (globals (env_of s V)) (local_scope s)
    end.
Proof.
  intros H H' P. assert (forall q, q ∈ all V -> syms s' !! q = syms s !! q) as Hs by (intros q Hq; apply (pu_syms _ _ _ _ _ _ _ _ P), elem_of_app; by left).
  assert (p ∉ gone V) as Hg by (intros Hin; apply (pu_new _ _ _ _ _ _ _ _ P), elem_of_app; left; by apply (gone_all s)).
  assert (forall ls, (forall q, q ∈ ls -> q ∈ all V) -> decls (syms s') (gone V) ls = decls (syms s) (gone V) ls) as Db by (intros ls Hls; by apply (decls_same s s' V)).
  assert (key_at (syms s') p = key v) as Kp by (unfold key_at; by rewrite (pu_sym _ _ _ _ _ _ _ _ P)).
  assert (decls (syms s') (gone V) (glob V) = decls (syms s) (gone V) (glob V)) as Dg by (apply Db; intros q Hq; apply elem_of_app; by right).
  assert (forall ls, ls ∈ segs V -> decls (syms s') (gone V) ls = decls (syms s) (gone V) ls) as Dl.
  { intros ls Hls. apply Db. intros q Hq. apply elem_of_app. left. apply list_elem_of_In, in_concat. exists ls. split; by apply list_elem_of_In. }
  unfold env_of, push_view. destruct (segs V) as [|l rest]; cbn [map segs glob gone scopes globals]; rewrite decls_cons, decide_False, Kp, (pu_scope _ _ _ _ _ _ _ _ P) by done.
  - by rewrite Dg.
  - rewrite Dg. rewrite (Dl l) by by left. cbn. do 2 f_equal. apply map_ext_in. intros ls Hls. apply Dl. right. by apply list_elem_of_In.
Qed.
Lemma saved_push p V : saved_of (segs (push_view p V)) = saved_of (segs V).
Proof. unfold push_view. by destruct (segs V). Qed.
(** The table leads to the declaration that the specification finds. *)
Lemma redeclared_iff s V k : scoped s V -> slot s k <> 0 ->
  (scope_of (syms s) (slot s k) = Some (i32 (local_scope s)) <-> exists d, find k (visible (env_of s V)) = Some d /\ d_scope d = i32 (local_scope s)).
Proof.
  intros H Hk. destruct (slot_visible _ _ _ H Hk) as (d & E & Es & _ & _ & Hd). rewrite visible_of, E, Es, Hd. split.
  - intros [= Ed]. by exists d.
  - intros (d' & [= Ed'] & Ed). subst d'. by rewrite Ed.
Qed.
Lemma push_refines can_alloc v type r c s V : scoped s V -> (forall k, key v = Some k -> is_tok s (snd k)) ->
  (IS_ENUM_VAL (ty_t type) = true -> (exists t, key v = Some (false, t)) /\ ty_ref type ∈ all V) ->
  match sym_push can_alloc v type r c s with
  | Done p s' => scoped s' (push_view p V) /\ all (push_view p V) = p :: all V /\ is_Some (syms s' !! p) /\ (forall q, q ∈ all V -> syms s' !! q = syms s !! q) /\ p ∉ all V /\
      (forall y, syms s' !! p = Some y -> s_type y = type /\ s_scope y = if key v then u32 (local_scope s) else 0) /\ slots_only s s' /\
      declare (key v) (default 0 (scope_of (syms s') p)) p (env_of s V) = Some (env_of s' (push_view p V))
  | Error => no_memory can_alloc \/ forall scope p, declare (key v) scope p (env_of s V) = None
  | Wild => False
  end.
Proof.
  intros H Hk He. destruct (sc_heap _ _ H) as [free Hh]. pose proof (sym_push_spec can_alloc v type r c s (all V ++ others V) free Hh) as P.
  match type of P with ?A -> _ => assert A as HA end.
  { intros k Kv. split; [by apply Hk|]. intros Hz. destruct (slot_visible _ _ _ H Hz) as (d & _ & Es & Hin & Hg & Hd). rewrite Es. split; [apply elem_of_app; by left|].
    exists (d_scope d). split; [done|]. intros y Ey En. apply elem_of_app. left. by eapply scoped_ref. }
  specialize (P HA). destruct (sym_push can_alloc v type r c s) as [p s'| |]; [|destruct P as [P|(k & Kv & Hz & Hsc)]; [by left|right]|done].
  - destruct P as [P Hno]. pose proof (push_scoped _ _ _ _ _ _ _ _ H P Hk He) as H'. split; [done|]. split; [apply all_push|]. split; [rewrite (pu_sym _ _ _ _ _ _ _ _ P); by eexists|].
    split; [intros q Hq; apply (pu_syms _ _ _ _ _ _ _ _ P), elem_of_app; by left|]. split; [intros Hin; apply (pu_new _ _ _ _ _ _ _ _ P), elem_of_app; by left|].
    split; [intros y Ey; rewrite (pu_sym _ _ _ _ _ _ _ _ P) in Ey; by injection Ey as <-|]. split; [apply (pu_tok _ _ _ _ _ _ _ _ P)|].
    rewrite (env_push _ _ _ _ _ _ _ _ H H' P). unfold declare. cbn [depth env_of].
    assert (match key v with Some k => match find k (visible (env_of s V)) with Some d => d_scope d =? i32 (local_scope s) | None => false end | None => false end = false) as Hr.
    { destruct (key v) as [k|] eqn:Kv; [|done]. destruct (find k _) as [d|] eqn:Ef; [|done]. apply Z.eqb_neq. intros Hd.
      assert (slot s k <> 0) as Hz by (intros Hz; rewrite visible_of, (slot_zero _ _ _ H Hz) in Ef; done). apply (Hno k eq_refl Hz). apply (redeclared_iff _ _ _ H Hz). by exists d. }
    unfold env_of in Hr |- *. cbn [depth] in Hr |- *. rewrite Hr. by destruct (map _ (segs V)).
  - intros scope p. apply (redeclared_iff _ _ _ H Hz) in Hsc as (d & Ef & Ed). unfold declare. rewrite Kv, Ef, Ed. unfold env_of. cbn [depth]. by rewrite Z.eqb_refl.
Qed.

(** Tokens are numbered without gaps. *)
Definition table_ok (s : front) : Prop := TOK_IDENT <= tok_ident (toks s) <= SYM_FIRST_ANOM /\ forall t, is_tok s t <-> TOK_IDENT <= t < tok_ident (toks s).
Lemma table_same s s' : table_ok s -> slots_only s s' -> table_ok s'.
Proof. intros [H1 H2] [N O]. split; [by rewrite N|]. intros t. by rewrite O, N. Qed.
Definition meaning (s : front) (e : env) : Prop := forall t, -2147483648 <= t < 2147483648 ->
  sym_find t s = Done (found (false, t) (visible e)) s /\ struct_find t s = Done (found (true, t) (visible e)) s.
Lemma found_token s V st t : scoped s V -> ~ is_tok s t -> found (st, t) (visible (env_of s V)) = 0.
Proof.
  intros H Ht. rewrite visible_of. unfold found. rewrite find_none; [done|]. intros d (Hd & _ & ->)%decls_in Hn. apply Ht. by apply (sc_tok _ _ H _ _ Hd Hn).
Qed.
Lemma scoped_meaning s V : scoped s V -> table_ok s -> meaning s (env_of s V).
Proof.
  intros H [Hn Ht] t Hb. unfold sym_find, struct_find, is_token, mbind, F_bind, get. unfold TOK_IDENT, SYM_FIRST_ANOM in *.
  destruct (decide (is_tok s t)) as [Hi|Hi].
  - destruct Hi as [ts Ets]. assert (256 <= t < tok_ident (toks s)) as Hr by (apply Ht; by exists ts).
    rewrite !u32_small by lia. replace (tok_ident (toks s) - 256 <=? t - 256) with false by lia. cbn [negb]. rewrite !(token_eq t s ts Ets).
    pose proof (sc_slot _ _ H (false, t)) as S1. pose proof (sc_slot _ _ H (true, t)) as S2. rewrite <- visible_of in S1, S2. rewrite <- S1, <- S2. unfold slot. cbn [fst snd]. by rewrite Ets.
  - rewrite !(found_token s V _ t H Hi). assert (~ 256 <= t < tok_ident (toks s)) as Hr by (by rewrite <- Ht).
    replace (u32 (tok_ident (toks s) - 256) <=? u32 (t - 256)) with true; [done|]. symmetry. apply Z.leb_le. unfold u32.
    rewrite (Z.mod_small (tok_ident (toks s) - 256)) by lia. destruct (decide (t < 256)); [|rewrite Z.mod_small; lia].
    rewrite <- (Z.mod_add _ 1) by lia. rewrite Z.mod_small; lia.
Qed.

Lemma concat_one (V : view) l : segs V = [l] -> List.concat (segs V) = l.
Proof. intros ->. cbn. apply app_nil_r. Qed.
(** A scope ends. *)
Lemma close_refines is_expr s V l rest : scoped s V -> segs V = l :: rest -> (is_expr = true -> rest <> []) ->
  exists s' V', sym_pop Local (hd 0 (List.concat rest)) is_expr s = Done () s' /\ scoped s' V' /\ slots_only s s' /\ local_scope s' = local_scope s /\
    saved_of (segs V') = saved_of rest /\ env_of s' V' = Env (tl (scopes (env_of s V))) (globals (env_of s V)) (local_scope s).
Proof.
  intros H Hs Hk. destruct (pop_done s V l rest H Hs is_expr) as (s1 & P & E). pose proof (po_tok _ _ _ _ _ P) as O. pose proof (po_scope _ _ _ _ _ P) as L. destruct is_expr.
  - destruct rest as [|l' rest']; [by destruct Hk|]. destruct (keep_scoped s V l _ H Hs l' rest' s1 eq_refl P) as [H' He].
    exists s1, (pop_view true V). split; [done|]. split; [done|]. split; [done|]. split; [done|]. split; [|done]. unfold pop_view. rewrite Hs. by destruct rest'.
  - destruct (pop_scoped s V l rest H Hs s1 P) as [H' He]. exists (set_top Local (hd 0 (List.concat rest)) s1), (pop_view false V).
    split; [done|]. split; [done|]. split; [done|]. split; [done|]. split; [|done]. unfold pop_view. by rewrite Hs.
Qed.
Lemma enter_refines can_alloc s V : scoped s V -> segs V = [] ->
  match enter_function can_alloc s with
  | Done _ s' => exists p V', scoped s' V' /\ segs V' = [[p]] /\ slots_only s s' /\ (forall d, d ∈ visible (env_of s V) -> d_sym d <> p) /\ env_of s' V' = Env [[Decl None 0 p]] (globals (env_of s V)) 1
  | Error => no_memory can_alloc
  | Wild => False
  end.
Proof.
  intros H Hs. destruct (sc_heap _ _ H) as [free Hh]. pose proof (sym_push2_spec can_alloc Local SYM_FIELD 0 0 s (all V ++ others V) free Hh) as P.
  unfold enter_function, mbind, F_bind. destruct (sym_push2 can_alloc Local SYM_FIELD 0 0 s) as [p s1| |]; [|done..].
  destruct P as (P1 & P2 & P3 & P4 & P5 & P6 & P7 & P8). assert (local_stack s = 0) as Hz by (by apply (local_empty _ _ H)). cbn [top] in P4, P5. rewrite Hz in P4.
  destruct (enter_scoped s V p s1 H Hs P1 P2 P3 P4 P5 (P6 Global ltac:(done)) P7) as [H' He]. exists p, (View [[p]] (glob V) (others V) (gone V)).
  split; [by apply scoped_depth|]. split; [done|]. split; [unfold slots_only, is_tok; cbn; by rewrite P7|]. split.
  - intros d Hd <-. rewrite visible_of in Hd. apply decls_in in Hd as (Hd & _). apply P1, elem_of_app. by left.
  - rewrite env_depth, He. done.
Qed.
Lemma visible_sym s V d : scoped s V -> d ∈ visible (env_of s V) -> d_sym d ∈ all V /\ d_sym d ∉ gone V.
Proof. intros H Hd. rewrite visible_of in Hd. by apply decls_in in Hd as (H1 & H2 & _). Qed.
Lemma scope_number_eq s V p : scoped s V -> (exists d, d ∈ visible (env_of s V) /\ d_sym d = p) -> Some (scope_number p (visible (env_of s V))) = scope_of (syms s) p.
Proof.
  intros H (d & Hd & <-). unfold scope_number. destruct (filter _ _) as [|d' l] eqn:E.
  - exfalso. assert (d ∈ filter (fun d' => d_sym d' = d_sym d) (visible (env_of s V))) as Hin by (by apply list_elem_of_filter). rewrite E in Hin. by apply elem_of_nil in Hin.
  - assert (d' ∈ filter (fun d' => d_sym d' = d_sym d) (visible (env_of s V))) as Hin by (rewrite E; by left). apply list_elem_of_filter in Hin as [Es Hin].
    destruct (visible_sym _ _ _ H Hin) as [Ha Hg]. rewrite visible_of in Hin. apply decls_in in Hin as (_ & _ & Ed). destruct (scoped_scope _ _ _ H Ha Hg) as [a Ea].
    rewrite Ed. cbn. rewrite <- Es, Ea. done.
Qed.
(** What a tag declares is no enumeration constant. *)
Lemma tag_scope s V d y : scoped s V -> d ∈ visible (env_of s V) -> (forall t, d_name d <> Some (false, t)) -> syms s !! d_sym d = Some y ->
  scope_of (syms s) (d_sym d) = Some (i32 (s_scope y)).
Proof.
  intros H Hd Hn Ey. destruct (visible_sym _ _ _ H Hd) as [Ha Hg]. unfold scope_of. rewrite Ey. cbn. destruct (IS_ENUM_VAL _) eqn:En; [|done]. exfalso.
  apply list_elem_of_split in Ha as (a & b & Eab). destruct (sc_ref _ _ H a _ b y Eab Hg Ey En) as [[t Ht] _].
  rewrite visible_of in Hd. apply decls_in in Hd as (_ & _ & Ed). apply (Hn t). by rewrite Ed.
Qed.
Definition after (can_alloc : Z -> bool) (o : step) (e : env) (r : front_result (list Z)) : Prop :=
  match r with
  | Done saved' s' => exists p e', spec o p e = Some e' /\ (forall d, d ∈ visible e -> d_sym d <> p) /\ related s' saved' e' /\ table_ok s' /\ meaning s' e'
  | Error => no_memory can_alloc \/ forall p, spec o p e = None
  | Wild => False
  end.
Lemma after_done can_alloc o e p s s' saved' V' : table_ok s -> spec o p e = Some (env_of s' V') -> (forall d, d ∈ visible e -> d_sym d <> p) -> scoped s' V' -> slots_only s s' ->
  saved' = saved_of (segs V') -> after can_alloc o e (Done saved' s').
Proof.
  intros Ht Hs Hp H' O Hv. exists p, (env_of s' V'). split; [done|]. split; [done|]. assert (table_ok s') as Ht' by (by eapply table_same). split; [by exists V'|]. split; [done|by apply scoped_meaning].
Qed.
Lemma declare_after can_alloc v type r c s V : scoped s V -> table_ok s -> (forall k, key v = Some k -> is_tok s (snd k)) -> IS_ENUM_VAL (ty_t type) = false ->
  after can_alloc (Push v type r c) (env_of s V) (exec can_alloc (Push v type r c) (saved_of (segs V)) s).
Proof.
  intros H Ht Hk He. cbn [exec]. unfold mbind, F_bind. pose proof (push_refines can_alloc v type r c s V H Hk ltac:(by rewrite He)) as P.
  destruct (sym_push can_alloc v type r c s) as [p s'| |]; [|destruct P as [P|P]; [by left|right; intros p; apply P]|done].
  destruct P as (H' & Ha & [y Ey] & _ & Hp & Hy & O & Hd). destruct (Hy y Ey) as [Ety Esc].
  apply (after_done _ _ _ p s s' _ (push_view p V)); [done| |intros d Hin <-; by destruct (visible_sym _ _ _ H Hin)|done|done|by rewrite saved_push].
  cbn [spec]. rewrite <- Hd. f_equal. unfold scope_of. rewrite Ey. cbn. rewrite Ety, He. cbn. rewrite Esc. destruct (key v); [symmetry; apply scope_i32_u32|done].
Qed.
Lemma enumerator_after can_alloc v tag ll s V : scoped s V -> table_ok s -> proper s (Enumerator v tag ll) (env_of s V) ->
  after can_alloc (Enumerator v tag ll) (env_of s V) (exec can_alloc (Enumerator v tag ll) (saved_of (segs V)) s).
Proof.
  intros H Ht (Kv & Hv & d & Hd & <- & Hn). cbn [exec]. unfold enumerator. destruct (visible_sym _ _ _ H Hd) as [Ha Hg].
  set (ty := CTy _ (d_sym d)). pose proof (push_refines can_alloc v ty VT_CONST 0 s V H) as P.
  specialize (P ltac:(intros k Ek; rewrite Kv in Ek; by injection Ek as <-) ltac:(intros _; split; [by exists v|done])).
  unfold mbind, F_bind. destruct (sym_push can_alloc v ty VT_CONST 0 s) as [p s'| |]; [|destruct P as [P|P]; [by left|right; intros p; apply P]|done].
  destruct P as (H' & Hall & [y Ey] & Hs & Hp & Hy & O & Hdecl). destruct (Hy y Ey) as [Ety _]. rewrite (upd_sym_eq p _ s' y Ey).
  destruct (enum_scoped s' (push_view p V) p y ll (all V) H' Hall Ey) as [H2 He2]; [by rewrite Ety|].
  apply (after_done _ _ _ p s _ _ (push_view p V)); [done| |intros d' Hin <-; by destruct (visible_sym _ _ _ H Hin)|done|by split; apply O|by rewrite saved_push].
  cbn [spec]. rewrite He2, <- Hdecl. f_equal. destruct (scoped_sym _ _ _ H Ha) as [_ [z Ez]].
  assert (Some (scope_number (d_sym d) (visible (env_of s V))) = Some (i32 (s_scope z))) as [= ->] by (rewrite (scope_number_eq s V _ H) by (by exists d); by apply (tag_scope s V d z H Hd Hn Ez)).
  unfold scope_of. rewrite Ey. cbn. rewrite Ety. change (IS_ENUM_VAL (ty_t ty)) with true. cbn. change (ty_ref ty) with (d_sym d). by rewrite Hs, Ez.
Qed.


Lemma init_related tt : (forall t ts, table_ident tt !! t = Some ts -> sym_identifier ts = 0 /\ sym_struct ts = 0) -> related (Front tt ∅ 0 0 0 0 0) [] (Env [] [] 0).
Proof.
  intros Ht. exists (View [] [] [] ∅). split; [|done]. split; unfold all; cbn.
  - exists []. split; cbn; [constructor|constructor|by intros p ?%elem_of_nil|by intros p [y Hy]; rewrite lookup_empty in Hy|done].
  - constructor.
  - constructor.
  - by intros p.
  - by intros p k ?%elem_of_nil.
  - intros [st t]. unfold slot. cbn. destruct (table_ident tt !! t) as [ts|] eqn:E; [|done]. destruct (Ht t ts E). by destruct st.
  - intros pre a p b rest k E. by destruct pre.
  - intros a p b y E. by destruct a.
  - intros pre seg E. by destruct pre.
Qed.
(** The tokens [x] and [E]. *)
Definition two_tokens : front := Front (Tokens {[256 := TokSym 0 0 0 0 0 256 1 (lit "x"); 257 := TokSym 0 0 0 0 0 257 1 (lit "E")]} ∅ 258) ∅ 0 0 0 0 0.
Definition int_type : CType := CTy VT_INT 0.
Lemma two_tokens_related : related two_tokens [] (Env [] [] 0).
Proof.
  apply init_related. intros t ts E. cbn [table_ident] in E. apply lookup_insert_Some in E as [[_ <-]|[_ E]]; [done|]. apply lookup_singleton_Some in E as [_ <-]. done.
Qed.
Lemma two_tokens_ok : table_ok two_tokens.
Proof.
  split; [cbn; unfold TOK_IDENT, SYM_FIRST_ANOM; lia|]. intros t. unfold is_tok, TOK_IDENT, two_tokens. cbn [toks table_ident tok_ident]. destruct (decide (t = 256)) as [->|H1]; [rewrite lookup_insert_eq; split; [lia|by eexists]|].
  rewrite lookup_insert_ne by done. destruct (decide (t = 257)) as [->|H2]; [rewrite lookup_singleton_eq; split; [lia|by eexists]|]. rewrite lookup_singleton_ne by done. split; [by intros [? ?]|lia].
Qed.

Fixpoint exec_all (l : list step) (saved : list Z) : F (list Z) :=
  match l with [] => mret saved | o :: l => saved ← exec (fun _ => true) o saved; exec_all l saved end.
(** [enum { x }; int x;] in a block is accepted, since the tag of the unnamed enumeration is not recorded and so has no scope number; [enum E { x }; int x;] is
    refused. *)
Definition enum_then_int (tag : Z) : list step :=
  [Enter; Body; Open; Push (Z.lor tag SYM_STRUCT) (CTy (Z.lor VT_ENUM VT_INT) 0) 0 (-1); Enumerator 256 145 0; Push 256 int_type 0 0].
Definition accepted {A} (r : front_result A) : bool := match r with Done _ _ => true | _ => false end.
Example unnamed_enum_redeclared : accepted (exec_all (enum_then_int SYM_FIRST_ANOM) [] two_tokens) = true /\ exec_all (enum_then_int 257) [] two_tokens = Error.
Proof. by vm_compute. Qed.
(** [{ ({ int x; }); x(); }] outside any declaration of [x]: the global that the call declares is forgotten when the block ends. *)
Definition forgotten : F (Z * Z) :=
  saved ← exec_all [Enter; Body; Open; Open; Push 256 int_type 0 0; Close true] [];
  global_identifier_push (fun _ => true) 256 (Z.lor VT_FUNC VT_EXTERN) 0;;
  p ← sym_find 256;
  exec_all [Close false; Leave] saved;;
  q ← sym_find 256;
  mret (p, q).
Example global_forgotten :
  match forgotten two_tokens with Done (p, q) s => negb (p =? 0) && (q =? 0) && (global_stack s =? p) | _ => false end = true.
Proof. by vm_compute. Qed.
