(* ===== verification/SoftQuad.v ===== *)
(** Long double on riscv64 ([src/compiler/risc/riscv64-softquad.c]): binary128 in memory, double in
    arithmetic.

    A [ld_t] is its two words; a [double] is its bits where the code takes them apart, and a [SpecFloat]
    number where the code computes with it. *)
From S2P Require Import Prelude Rv64Float.
From Stdlib Require Import SpecFloat.

Record ld_t := Quad { w0 : Z; w1 : Z }.
Definition from_double (d : Z) : ld_t :=
  let sign := Z.shiftr d 63 in
  let exp := Z.land (u32 (Z.shiftr d 52)) 0x7ff in
  let frac := Z.land d 0xfffffffffffff in
  let out0 := u64 (Z.shiftl frac 60) in
  let out1 := Z.lor (u64 (Z.shiftl sign 63)) (Z.shiftr frac 4) in
  Quad out0 (if exp =? 0 then out1 else Z.lor out1 (u64 (Z.shiftl (if exp =? 0x7ff then 0x7fff else u32 (exp + 15360)) 48))).
Definition to_double (q : ld_t) : Z :=
  let sign := Z.shiftr (w1 q) 63 in
  let exp := Z.land (u32 (Z.shiftr (w1 q) 48)) 0x7fff in
  let frac := Z.lor (u64 (Z.shiftl (Z.land (w1 q) 0xffffffffffff) 4)) (Z.shiftr (w0 q) 60) in
  let dexp :=
    if exp =? 0 then 0
    else if exp =? 0x7fff then 0x7ff
    else if exp <=? 15360 then 0
    else if 15360 + 0x7ff <=? exp then 0x7ff
    else u32 (exp - 15360) in
  Z.lor (Z.lor (u64 (Z.shiftl sign 63)) (u64 (Z.shiftl dexp 52))) frac.

Section quad.
Context `{HF : HostFloat}.
Definition __extenddftf2 (a : Z) : ld_t := from_double a.
Definition __extendsftf2 (a : Z) : ld_t := from_double (f64_bits (sf_convert 52 11 (f32_of_bits a))).
Definition __trunctfdf2 (a : ld_t) : Z := to_double a.
Definition __trunctfsf2 (a : ld_t) : Z := f32_bits (sf_convert 23 8 (f64_of_bits (to_double a))).

Definition quad_op (f : Z -> Z -> spec_float -> spec_float -> spec_float) (a b : ld_t) : ld_t :=
  from_double (f64_bits (f64_op f (f64_of_bits (to_double a)) (f64_of_bits (to_double b)))).
Definition __addtf3 : ld_t -> ld_t -> ld_t := quad_op SFadd.
Definition __subtf3 : ld_t -> ld_t -> ld_t := quad_op SFsub.
Definition __multf3 : ld_t -> ld_t -> ld_t := quad_op SFmul.
Definition __divtf3 : ld_t -> ld_t -> ld_t := quad_op SFdiv.
Definition __negtf2 (a : ld_t) : ld_t := Quad (w0 a) (Z.lxor (w1 a) (Z.shiftl 1 63)).

Notation val q := (f64_of_bits (to_double q)).
Definition __eqtf2 (a b : ld_t) : Z := Z.b2z (negb (SFeqb (val a) (val b))).
Definition __netf2 (a b : ld_t) : Z := Z.b2z (negb (SFeqb (val a) (val b))).
Definition __lttf2 (a b : ld_t) : Z := let x := val a in let y := val b in if SFltb x y then -1 else if SFeqb x y then 0 else 1.
Definition __letf2 (a b : ld_t) : Z := __lttf2 a b.
(** [x > y] is [y < x]. *)
Definition __gttf2 (a b : ld_t) : Z := let x := val a in let y := val b in if SFltb y x then 1 else if SFeqb x y then 0 else -1.
Definition __getf2 (a b : ld_t) : Z := __gttf2 a b.
Definition __unordtf2 (a b : ld_t) : Z := Z.b2z (negb (SFeqb (val a) (val a)) || negb (SFeqb (val b) (val b))).

Definition from_int (n : Z) : ld_t := from_double (f64_bits (int_to_double n)).
Definition __floatsitf (a : Z) : ld_t := from_int a.
Definition __floatditf (a : Z) : ld_t := from_int a.
Definition __floatunsitf (a : Z) : ld_t := from_int a.
Definition __floatunditf (a : Z) : ld_t := from_int a.
Definition __fixtfsi (a : ld_t) : Z := sf_to_int (-2147483648) 2147483648 (val a).
Definition __fixtfdi (a : ld_t) : Z := sf_to_int (-9223372036854775808) 9223372036854775808 (val a).
Definition __fixunstfsi (a : ld_t) : Z := sf_to_int 0 4294967296 (val a).
Definition __fixunstfdi (a : ld_t) : Z := sf_to_int 0 18446744073709551616 (val a).
End quad.

(** ** The fields *)

Lemma double_parts d : isu64 d -> exists s e f, d = s * 2 ^ 63 + e * 2 ^ 52 + f /\ 0 <= s < 2 /\ 0 <= e < 2048 /\ 0 <= f < 2 ^ 52.
Proof. intros H. exists (d / 2 ^ 63), (d / 2 ^ 52 mod 2048), (d mod 2 ^ 52). Z.to_euclidean_division_equations. lia. Qed.
Definition widen_exp (e : Z) : Z := if e =? 0 then 0 else if e =? 2047 then 32767 else e + 15360.
Lemma widen_exp_bound e : 0 <= e < 2048 -> 0 <= widen_exp e < 32768.
Proof. unfold widen_exp. destruct (Z.eqb_spec e 0), (Z.eqb_spec e 2047); lia. Qed.
Lemma from_double_parts s e f : 0 <= s < 2 -> 0 <= e < 2048 -> 0 <= f < 2 ^ 52 ->
  from_double (s * 2 ^ 63 + e * 2 ^ 52 + f) = Quad (f mod 16 * 2 ^ 60) (s * 2 ^ 63 + widen_exp e * 2 ^ 48 + f / 16).
Proof.
  intros Hs He Hf. set (d := s * 2 ^ 63 + e * 2 ^ 52 + f).
  assert (Z.shiftr d 63 = s) as Es by (subst d; rewrite Z.shiftr_div_pow2 by lia; Z.to_euclidean_division_equations; lia).
  assert (Z.land d 0xfffffffffffff = f) as Ef by (change 0xfffffffffffff with (2 ^ 52 - 1); rewrite land_ones_mod by lia; subst d; Z.to_euclidean_division_equations; lia).
  assert (Z.land (u32 (Z.shiftr d 52)) 0x7ff = e) as Ee.
  { change 0x7ff with (2 ^ 11 - 1). rewrite land_ones_mod, Z.shiftr_div_pow2 by lia. unfold u32. subst d. Z.to_euclidean_division_equations. lia. }
  unfold from_double. rewrite Es, Ee, Ef. f_equal.
  - rewrite Z.shiftl_mul_pow2 by lia. unfold u64. Z.to_euclidean_division_equations. lia.
  - rewrite !Z.shiftl_mul_pow2, Z.shiftr_div_pow2 by lia. assert (u64 (s * 2 ^ 63) = s * 2 ^ 63) as -> by (apply u64_small; lia).
    change (2 ^ 4) with 16. assert (0 <= f / 16 < 2 ^ 48) as Hg by (Z.to_euclidean_division_equations; lia).
    rewrite (lor_add s (f / 16) 63) by lia. unfold widen_exp. destruct (Z.eqb_spec e 0) as [->|He0]; [lia|].
    assert (0 <= (if e =? 2047 then 32767 else e + 15360) < 32768) as Hb by (destruct (Z.eqb_spec e 2047); lia).
    replace (if e =? 2047 then 32767 else u32 (e + 15360)) with (if e =? 2047 then 32767 else e + 15360) by (destruct (Z.eqb_spec e 2047); [done|symmetry; apply u32_small; lia]).
    set (E := if e =? 2047 then 32767 else e + 15360) in *. rewrite (u64_small (E * 2 ^ 48)) by lia.
    rewrite <- (lor_add s (f / 16) 63) by lia. rewrite <- Z.lor_assoc, (Z.lor_comm (f / 16)), (lor_add E (f / 16) 48) by lia. rewrite lor_add by lia. lia.
Qed.
Lemma to_double_parts s E g r : 0 <= s < 2 -> 0 <= E < 32768 -> 0 <= g < 2 ^ 48 -> 0 <= r < 16 ->
  to_double (Quad (r * 2 ^ 60) (s * 2 ^ 63 + E * 2 ^ 48 + g)) =
  s * 2 ^ 63 + (if E =? 0 then 0 else if E =? 32767 then 2047 else if E <=? 15360 then 0 else if 17407 <=? E then 2047 else E - 15360) * 2 ^ 52 + (g * 16 + r).
Proof.
  intros Hs HE Hg Hr. set (w := s * 2 ^ 63 + E * 2 ^ 48 + g).
  assert (Z.shiftr w 63 = s) as Es by (subst w; rewrite Z.shiftr_div_pow2 by lia; Z.to_euclidean_division_equations; lia).
  assert (Z.land w 0xffffffffffff = g) as Eg by (change 0xffffffffffff with (2 ^ 48 - 1); rewrite land_ones_mod by lia; subst w; Z.to_euclidean_division_equations; lia).
  assert (Z.land (u32 (Z.shiftr w 48)) 0x7fff = E) as EE.
  { change 0x7fff with (2 ^ 15 - 1). rewrite land_ones_mod, Z.shiftr_div_pow2 by lia. unfold u32. subst w. Z.to_euclidean_division_equations. lia. }
  assert (Z.shiftr (r * 2 ^ 60) 60 = r) as Er by (rewrite Z.shiftr_div_pow2, Z.div_mul by lia; done).
  unfold to_double. cbn [w0 w1]. rewrite Es, EE, Eg, Er. change (15360 + 0x7ff) with 17407. change 0x7fff with 32767.
  set (x := if E =? 0 then 0 else if E =? 32767 then 0x7ff else if E <=? 15360 then 0 else if 17407 <=? E then 0x7ff else u32 (E - 15360)).
  assert (x = if E =? 0 then 0 else if E =? 32767 then 2047 else if E <=? 15360 then 0 else if 17407 <=? E then 2047 else E - 15360) as <-.
  { subst x. repeat case_match; try lia. rewrite u32_small; lia. }
  assert (0 <= x < 2048) as Hx. { subst x. repeat case_match; try lia. rewrite u32_small; lia. }
  rewrite !Z.shiftl_mul_pow2 by lia. rewrite !u64_small by lia. rewrite (lor_add g r 4) by lia. change (2 ^ 4) with 16.
  rewrite (lor_add s (x * 2 ^ 52) 63) by lia. replace (s * 2 ^ 63 + x * 2 ^ 52) with ((s * 2 ^ 11 + x) * 2 ^ 52) by lia. rewrite lor_add by lia. lia.
Qed.
Lemma quad_roundtrip d : isu64 d -> to_double (from_double d) = d.
Proof.
  intros H. destruct (double_parts d H) as (s & e & f & -> & Hs & He & Hf). rewrite from_double_parts by done.
  rewrite to_double_parts; [|done|by apply widen_exp_bound|Z.to_euclidean_division_equations; lia|Z.to_euclidean_division_equations; lia].
  replace (f / 16 * 16 + f mod 16) with f by (Z.to_euclidean_division_equations; lia). do 2 f_equal. f_equal.
  unfold widen_exp. repeat case_match; lia.
Qed.

(** ** The number *)

Definition quad_bits (q : ld_t) : Z := w1 q * 2 ^ 64 + w0 q.
Definition quad_value (q : ld_t) : spec_float := sf_of_bits 112 15 (quad_bits q).
(** The same number with the significand of a quad. *)
Definition widened (x : spec_float) : spec_float := match x with S754_finite s m e => S754_finite s (m * 2 ^ 60)%positive (e - 60) | x => x end.
Definition subnormal (d : Z) : bool := (Z.land (Z.shiftr d 52) 0x7ff =? 0) && negb (Z.land d 0xfffffffffffff =? 0).
Lemma sf_parts mw ew s e f : 0 < mw -> 0 < ew -> 0 <= s < 2 -> 0 <= e < 2 ^ ew -> 0 <= f < 2 ^ mw ->
  sf_of_bits mw ew (s * 2 ^ (mw + ew) + e * 2 ^ mw + f) =
  if e =? 0 then match f with Zpos p => S754_finite (s =? 1) p (femin mw ew) | _ => S754_zero (s =? 1) end
  else if e =? 2 ^ ew - 1 then if f =? 0 then S754_infinity (s =? 1) else S754_nan
  else match f + 2 ^ mw with Zpos p => S754_finite (s =? 1) p (e - 1 + femin mw ew) | _ => S754_nan end.
Proof.
  intros Hm He Hs Hexp Hf. unfold sf_of_bits. assert (0 < 2 ^ mw) as Pm by (apply Z.pow_pos_nonneg; lia). assert (0 < 2 ^ ew) as Pe by (apply Z.pow_pos_nonneg; lia).
  rewrite Z.pow_add_r by lia. replace (s * (2 ^ mw * 2 ^ ew) + e * 2 ^ mw + f) with (f + (s * 2 ^ ew + e) * 2 ^ mw) by ring.
  rewrite Z.div_add, Z.div_small by lia. rewrite Z.mod_add, (Z.mod_small f) by lia. replace (0 + (s * 2 ^ ew + e)) with (e + s * 2 ^ ew) by lia. rewrite Z.mod_add, (Z.mod_small e) by lia.
  assert (Z.testbit (f + (s * 2 ^ ew + e) * 2 ^ mw) (mw + ew) = (s =? 1)) as ->; [|done].
  rewrite Z.testbit_odd, Z.shiftr_div_pow2, Z.pow_add_r, <- Z.div_div by lia. rewrite Z.div_add, (Z.div_small f) by lia.
  replace (0 + (s * 2 ^ ew + e)) with (e + s * 2 ^ ew) by lia. rewrite Z.div_add, (Z.div_small e) by lia. assert (s = 0 \/ s = 1) as [->| ->] by lia; done.
Qed.
Lemma quad_value_exact d : isu64 d -> subnormal d = false -> quad_value (from_double d) = widened (f64_of_bits d).
Proof.
  intros H Hn. destruct (double_parts d H) as (s & e & f & -> & Hs & He & Hf).
  assert (e <> 0 \/ f = 0) as Hef.
  { unfold subnormal in Hn. change 0x7ff with (2 ^ 11 - 1) in Hn. change 0xfffffffffffff with (2 ^ 52 - 1) in Hn. rewrite !land_ones_mod, Z.shiftr_div_pow2 in Hn by lia.
    apply andb_false_iff in Hn as [Hn|Hn]; [left; apply Z.eqb_neq in Hn|right; apply negb_false_iff, Z.eqb_eq in Hn]; Z.to_euclidean_division_equations; lia. }
  clear Hn H. rewrite from_double_parts by done. unfold quad_value, quad_bits, f64_of_bits. cbn [w0 w1]. pose proof (widen_exp_bound e He) as HE.
  replace ((s * 2 ^ 63 + widen_exp e * 2 ^ 48 + f / 16) * 2 ^ 64 + f mod 16 * 2 ^ 60) with (s * 2 ^ (112 + 15) + widen_exp e * 2 ^ 112 + f * 2 ^ 60) by (Z.to_euclidean_division_equations; lia).
  rewrite sf_parts by lia. rewrite (sf_parts 52 11) by lia. change (2 ^ 15 - 1) with 32767. change (2 ^ 11 - 1) with 2047.
  change (femin 112 15) with (-16494). change (femin 52 11) with (-1074). unfold widen_exp. destruct (Z.eqb_spec e 0) as [->|He0].
  { destruct Hef as [|Hf0]; [lia|]. by rewrite Hf0. }
  destruct (Z.eqb_spec e 2047) as [->|He1]; cbn [Z.eqb Pos.eqb].
  { destruct (Z.eqb_spec f 0) as [->|Hf0]; [done|]. by replace (f * 2 ^ 60 =? 0) with false by lia. }
  replace (e + 15360 =? 0) with false by lia. replace (e + 15360 =? 32767) with false by lia.
  replace (f * 2 ^ 60 + 2 ^ 112) with ((f + 2 ^ 52) * 2 ^ 60) by lia. assert (0 < f + 2 ^ 52) as Hp by lia. destruct (f + 2 ^ 52) as [|p|p]; [lia| |lia].
  change (Z.pos p * 2 ^ 60) with (Z.pos (p * 2 ^ 60)). cbn [widened]. f_equal. lia.
Qed.
Lemma quad_neg d : isu64 d -> __negtf2 (from_double d) = from_double (Z.lxor d (2 ^ 63)).
Proof.
  intros H. destruct (double_parts d H) as (s & e & f & -> & Hs & He & Hf). pose proof (widen_exp_bound e He) as HE.
  assert (forall x, 0 <= x < 2 ^ 63 -> Z.lxor (s * 2 ^ 63 + x) (2 ^ 63) = (1 - s) * 2 ^ 63 + x) as Hx.
  { intros x Hb. assert (Z.lxor x (2 ^ 63) = x + 2 ^ 63) as Ex.
    { assert (Z.land x (2 ^ 63) = 0) as Hl by (apply Z.bits_inj_0; intros i; rewrite Z.land_spec, Z.pow2_bits_eqb by lia; destruct (Z.eqb_spec 63 i) as [<-|]; [rewrite (testbit_high x 63) by lia; done|by rewrite andb_false_r]).
      by rewrite <- Z.add_nocarry_lxor. }
    assert (s = 0 \/ s = 1) as [->| ->] by lia; [rewrite Z.add_0_l, Ex; lia|]. replace (1 * 2 ^ 63 + x) with (x + 2 ^ 63) by lia. rewrite <- Ex, Z.lxor_assoc, Z.lxor_nilpotent, Z.lxor_0_r. lia. }
  rewrite <- (Z.add_assoc (s * 2 ^ 63)), Hx by lia. rewrite !Z.add_assoc. rewrite !from_double_parts by lia. unfold __negtf2. cbn [w0 w1]. f_equal. change (Z.shiftl 1 63) with (2 ^ 63).
  assert (0 <= f / 16 < 2 ^ 48) as Hg by (Z.to_euclidean_division_equations; lia). rewrite <- (Z.add_assoc (s * 2 ^ 63)), Hx by lia. lia.
Qed.

(** ** Comparison *)

Lemma compare_swap x y : SFcompare y x = option_map CompOpp (SFcompare x y).
Proof.
  destruct x as [s|s| |s m e], y as [t|t| |t n k]; try done; try (by destruct s); try (by destruct t); try (by destruct s, t).
  cbn. rewrite (Z.compare_antisym e k). pose proof (Pos.compare_cont_antisym m n Eq) as Ha. cbn in Ha. destruct s, t; try done; destruct (e ?= k); try done; cbn; by rewrite <- Ha.
Qed.
Definition is_nan (x : spec_float) : bool := match x with S754_nan => true | _ => false end.
Lemma eqb_self x : SFeqb x x = negb (is_nan x).
Proof.
  unfold SFeqb. destruct x as [s|s| |s m e]; try done; try (by destruct s). cbn. rewrite Z.compare_refl. pose proof (Pos.compare_refl m) as Hm. unfold Pos.compare in Hm. rewrite Hm. by destruct s.
Qed.
Lemma is_nan_true x : is_nan x = true <-> x = S754_nan.
Proof. by destruct x. Qed.

Section double.
Context `{HF : HostFloat}.
(** C36: Long double is double.  A double that is widened and narrowed again is the same bits; widening keeps the
    number, NaNs and infinities (a subnormal excepted), and commutes with negation; on widened doubles the
    arithmetic helpers round exactly as the double operation does, and the comparison helpers return a
    result whose sign is what the two doubles compare as. *)
Theorem soft_quad_is_double a b : isu64 a -> isu64 b -> let x := f64_of_bits a in let y := f64_of_bits b in let p := from_double a in let q := from_double b in
  to_double p = a /\ (subnormal a = false -> quad_value p = widened x) /\ __negtf2 p = from_double (Z.lxor a (2 ^ 63)) /\
  __addtf3 p q = from_double (f64_bits (f64_op SFadd x y)) /\ __subtf3 p q = from_double (f64_bits (f64_op SFsub x y)) /\
  __multf3 p q = from_double (f64_bits (f64_op SFmul x y)) /\ __divtf3 p q = from_double (f64_bits (f64_op SFdiv x y)) /\
  (__eqtf2 p q = 0 <-> SFeqb x y = true) /\ (__lttf2 p q < 0 <-> SFltb x y = true) /\ (__letf2 p q <= 0 <-> SFleb x y = true) /\
  (0 < __gttf2 p q <-> SFltb y x = true) /\ (0 <= __getf2 p q <-> SFleb y x = true) /\ (__unordtf2 p q <> 0 <-> x = S754_nan \/ y = S754_nan).
Proof.
  intros Ha Hb x y p q. assert (to_double p = a) as Ep by (by apply quad_roundtrip). assert (to_double q = b) as Eq by (by apply quad_roundtrip).
  split; [done|]. split; [by apply quad_value_exact|]. split; [by apply quad_neg|].
  unfold __addtf3, __subtf3, __multf3, __divtf3, quad_op, __eqtf2, __letf2, __lttf2, __getf2, __gttf2, __unordtf2. rewrite Ep, Eq. fold x y.
  do 4 (split; [done|]). rewrite !eqb_self, !negb_involutive. unfold SFeqb, SFltb, SFleb. rewrite (compare_swap x y).
  repeat match goal with |- _ /\ _ => split end; try (destruct (SFcompare x y) as [[]|]; cbn; lia).
  rewrite <- !is_nan_true. by destruct (is_nan x), (is_nan y); cbn; intuition.
Qed.

End double.

Lemma soft_quad_is_double_witness : to_double (from_double 0x3ff8000000000000) = 0x3ff8000000000000 /\ subnormal 0x3ff8000000000000 = false /\
  quad_value (from_double 0x3ff8000000000000) = S754_finite false (3 * 2 ^ 111) (-112) /\
  __addtf3 (HF := plain_host) (from_double 0x3ff8000000000000) (from_double 0x3ff8000000000000) = from_double 0x4008000000000000 /\ __lttf2 (from_double 0) (from_double 0x3ff8000000000000) < 0.
Proof.
  destruct (soft_quad_is_double (HF := plain_host) 0x3ff8000000000000 0x3ff8000000000000 ltac:(lia) ltac:(lia)) as (H1 & H2 & _ & H3 & _).
  destruct (soft_quad_is_double (HF := plain_host) 0 0x3ff8000000000000 ltac:(lia) ltac:(lia)) as (_ & _ & _ & _ & _ & _ & _ & _ & H4 & _).
  split; [exact H1|]. split; [reflexivity|]. split; [rewrite (H2 eq_refl); reflexivity|]. split; [rewrite H3; vm_compute; reflexivity|]. apply H4. reflexivity.
Defined.
(** A quad above every double becomes a NaN, not an infinity, when its fraction is not zero: 1.5 * 2^1024. *)
Example too_large_is_nan : quad_value (Quad 0 (17407 * 2 ^ 48 + 2 ^ 47)) = S754_finite false (3 * 2 ^ 111) 912 /\ f64_of_bits (to_double (Quad 0 (17407 * 2 ^ 48 + 2 ^ 47))) = S754_nan.
Proof. by vm_compute. Qed.
(** The least subnormal double, 2^-1074, is widened to a quad near 2^-16434. *)
Example subnormal_is_lost : f64_of_bits 1 = S754_finite false 1 (-1074) /\ quad_value (from_double 1) = S754_finite false (2 ^ 60) (-16494).
Proof. by vm_compute. Qed.
