(* ===== verification/Kprintf.v ===== *)
(** The kernel's formatted output ([src/kernel/drivers/kprintf.c]): what it hands to [serial_putc], in order.

    [None] is undefined behaviour: a store outside [buf], or an argument that is not of the type
    [va_arg] names. *)
From S2P Require Import Prelude.

(** The variable arguments: an [int], a [long] (or an unsigned one), a pointer, a string. *)
Inductive arg := Int (v : Z) | Long (v : Z) | Ptr (v : Z) | Str (s : list Z).
Definition digit_of (upper : bool) (d : Z) : Z := if d <? 10 then 48 + d else if upper then 55 + d else 87 + d.

Definition BUF : nat := 32.
(** The second loop's order: [buf] from its last digit down. *)
Fixpoint digits_loop (fuel : nat) (v base : Z) (upper : bool) (buf : list Z) : option (list Z) :=
  if v =? 0 then Some buf
  else match fuel with
  | O => None
  | S fuel => if (length buf <? BUF)%nat then digits_loop fuel (v / base) base upper (digit_of upper (v mod base) :: buf) else None
  end.
Definition print_ulong (v base : Z) (upper : bool) : option (list Z) := if v =? 0 then Some [48] else digits_loop (S BUF) v base upper [].
Definition print_uint (v base : Z) (upper : bool) : option (list Z) := print_ulong v base upper.
Definition print_int (v : Z) : option (list Z) :=
  if v <? 0 then s ← print_uint (u32 (u32 (- (v + 1)) + 1)) 10 false; Some (45 :: s) else print_uint (u32 v) 10 false.
Definition print_long (v : Z) : option (list Z) :=
  if v <? 0 then s ← print_ulong (u64 (u64 (- (v + 1)) + 1)) 10 false; Some (45 :: s) else print_ulong (u64 v) 10 false.

(** The two switches, on the character behind [%] and behind [%l]: the output and the arguments left. *)
Definition format_long (c : Z) (args : list arg) : option (list Z * list arg) :=
  if c =? 100 then match args with Long v :: args => s ← print_long (i64 v); Some (s, args) | _ => None end
  else if c =? 117 then match args with Long v :: args => s ← print_ulong (u64 v) 10 false; Some (s, args) | _ => None end
  else if c =? 120 then match args with Long v :: args => s ← print_ulong (u64 v) 16 false; Some (s, args) | _ => None end
  else if c =? 88 then match args with Long v :: args => s ← print_ulong (u64 v) 16 true; Some (s, args) | _ => None end
  else Some ([37; 108; c], args).
Definition format_plain (c : Z) (args : list arg) : option (list Z * list arg) :=
  if c =? 100 then match args with Int v :: args => s ← print_int (i32 v); Some (s, args) | _ => None end
  else if c =? 117 then match args with Int v :: args => s ← print_uint (u32 v) 10 false; Some (s, args) | _ => None end
  else if c =? 120 then match args with Int v :: args => s ← print_uint (u32 v) 16 false; Some (s, args) | _ => None end
  else if c =? 88 then match args with Int v :: args => s ← print_uint (u32 v) 16 true; Some (s, args) | _ => None end
  else if c =? 112 then match args with Ptr v :: args => s ← print_ulong (u64 v) 16 false; Some (48 :: 120 :: s, args) | _ => None end
  else if c =? 115 then match args with Str s :: args => Some (s, args) | _ => None end
  else if c =? 99 then match args with Int v :: args => Some ([u8 v], args) | _ => None end
  else if c =? 37 then Some ([37], args)
  else Some ([37; c], args).
Fixpoint kprintf (fmt : list Z) (args : list arg) : option (list Z) :=
  match fmt with
  | [] => Some []
  | c :: fmt =>
      if negb (c =? 37) then s ← kprintf fmt args; Some (c :: s)
      else match fmt with
      | [] => Some []
      | c :: fmt =>
          if c =? 108 then
            match fmt with
            | [] => Some []
            | c :: fmt => '(s, args) ← format_long c args; t ← kprintf fmt args; Some (s ++ t)
            end
          else '(s, args) ← format_plain c args; t ← kprintf fmt args; Some (s ++ t)
      end
  end.

(** ** What the output means *)

Definition digit_value (c : Z) : Z := if c <? 58 then c - 48 else if c <? 97 then c - 55 else c - 87.
Definition numeral_value (base : Z) (s : list Z) : Z := fold_left (fun n c => n * base + digit_value c) s 0.
(** The digits of a number: no more than there must be, capital letters or small ones. *)
Definition numeral (base v : Z) (upper : bool) (s : list Z) : Prop :=
  numeral_value base s = v /\ (forall c, c ∈ s -> exists d, 0 <= d < base /\ c = digit_of upper d) /\ (s = [48] \/ head s <> Some 48 /\ s <> []).
Definition decimal (v : Z) (s : list Z) : Prop := if v <? 0 then exists t, s = 45 :: t /\ numeral 10 (- v) false t else numeral 10 v false s.

(** A format as a list of characters and of directives, each with the [l] in front of it or not. *)
Inductive item := Char (c : Z) | Directive (l : bool) (c : Z).
Fixpoint items (fmt : list Z) : list item :=
  match fmt with
  | [] => []
  | c :: fmt =>
      if c =? 37 then match fmt with
        | [] => []
        | c :: fmt => if c =? 108 then match fmt with [] => [] | c :: fmt => Directive true c :: items fmt end else Directive false c :: items fmt
        end
      else Char c :: items fmt
  end.
(** How a directive shows its argument. *)
Inductive shows : bool -> Z -> arg -> list Z -> Prop :=
  | shows_d v s : decimal (i32 v) s -> shows false 100 (Int v) s
  | shows_u v s : numeral 10 (u32 v) false s -> shows false 117 (Int v) s
  | shows_x v s : numeral 16 (u32 v) false s -> shows false 120 (Int v) s
  | shows_X v s : numeral 16 (u32 v) true s -> shows false 88 (Int v) s
  | shows_p v s : numeral 16 (u64 v) false s -> shows false 112 (Ptr v) (48 :: 120 :: s)
  | shows_s s : shows false 115 (Str s) s
  | shows_c v : shows false 99 (Int v) [u8 v]
  | shows_ld v s : decimal (i64 v) s -> shows true 100 (Long v) s
  | shows_lu v s : numeral 10 (u64 v) false s -> shows true 117 (Long v) s
  | shows_lx v s : numeral 16 (u64 v) false s -> shows true 120 (Long v) s
  | shows_lX v s : numeral 16 (u64 v) true s -> shows true 88 (Long v) s.
Definition known (l : bool) (c : Z) : bool := bool_decide (c ∈ (if l then [100; 117; 120; 88] else [100; 117; 120; 88; 112; 115; 99])).
Definition unknown (l : bool) (c : Z) : list Z := if l then [37; 108; c] else if c =? 37 then [37] else [37; c].
Inductive rendered : list item -> list arg -> list Z -> Prop :=
  | rendered_end args : rendered [] args []
  | rendered_char c l args t : rendered l args t -> rendered (Char c :: l) args (c :: t)
  | rendered_unknown lg c l args t : known lg c = false -> rendered l args t -> rendered (Directive lg c :: l) args (unknown lg c ++ t)
  | rendered_arg lg c l a args s t : shows lg c a s -> rendered l args t -> rendered (Directive lg c :: l) (a :: args) (s ++ t).
(** The arguments have the types that the directives call for. *)
Definition takes (l : bool) (c : Z) (a : arg) : bool :=
  match a with Int _ => negb l && negb (c =? 112) && negb (c =? 115) | Long _ => l | Ptr _ => negb l && (c =? 112) | Str _ => negb l && (c =? 115) end.
Fixpoint typed (l : list item) (args : list arg) : bool :=
  match l with
  | [] => true
  | Char _ :: l => typed l args
  | Directive lg c :: l => if known lg c then match args with a :: args => takes lg c a && typed l args | [] => false end else typed l args
  end.

(** ** Numbers *)

Lemma digit_back upper d : 0 <= d < 16 -> digit_value (digit_of upper d) = d.
Proof. intros H. unfold digit_value, digit_of. destruct upper; repeat case_match; lia. Qed.
Lemma digit_zero upper d : 0 <= d < 16 -> digit_of upper d = 48 -> d = 0.
Proof. intros H. unfold digit_of. destruct upper; repeat case_match; lia. Qed.
Lemma value_snoc base s c : numeral_value base (s ++ [c]) = numeral_value base s * base + digit_value c.
Proof. unfold numeral_value. by rewrite fold_left_app. Qed.
Lemma digits_spec base upper n : forall fuel v buf, 2 <= base <= 16 -> 0 <= v < base ^ Z.of_nat n -> (length buf + n <= BUF)%nat -> (n <= fuel)%nat ->
  exists s, digits_loop fuel v base upper buf = Some (s ++ buf) /\ numeral_value base s = v /\ (forall c, c ∈ s -> exists d, 0 <= d < base /\ c = digit_of upper d) /\
    (v = 0 -> s = []) /\ (v <> 0 -> s <> [] /\ head s <> Some 48).
Proof.
  induction n as [|n IH]; intros fuel v buf Hb Hv Hl Hf.
  { assert (v = 0) as -> by (cbn in Hv; lia). exists []. split; [by destruct fuel|]. split; [done|]. split; [by intros c ?%elem_of_nil|]. by split. }
  destruct (Z.eqb_spec v 0) as [->|Hv0]; [exists []; split; [by destruct fuel|]; split; [done|]; split; [by intros c ?%elem_of_nil|by split]|].
  destruct fuel as [|fuel]; [lia|]. cbn [digits_loop]. replace (v =? 0) with false by lia. replace (length buf <? BUF)%nat with true by (symmetry; apply Nat.ltb_lt; lia).
  assert (0 <= v mod base < base) as Hm by (apply Z.mod_pos_bound; lia). pose proof (Z.div_mod v base) as Hdm.
  rewrite Nat2Z.inj_succ, Z.pow_succ_r in Hv by lia.
  destruct (IH fuel (v / base) (digit_of upper (v mod base) :: buf) Hb) as (s & E & Hs & Hd & Hz & Hh); [split; [apply Z.div_pos; lia|apply Z.div_lt_upper_bound; lia]|cbn; lia|lia|].
  exists (s ++ [digit_of upper (v mod base)]). split; [rewrite E, <- app_assoc; done|]. split; [rewrite value_snoc, Hs, digit_back by lia; lia|]. split.
  - intros c [Hc| ->%list_elem_of_singleton]%elem_of_app; [by apply Hd|by exists (v mod base)].
  - split; [done|]. intros _. split; [by destruct s|]. destruct s as [|c s]; [|destruct (decide (v / base = 0)) as [H0|H0]; [by discriminate (Hz H0)|by apply Hh]].
    cbn. intros [= H48]. apply digit_zero in H48; [|lia]. cbn in Hs. lia.
Qed.
Lemma print_ulong_spec v base upper : base = 10 \/ base = 16 -> isu64 v -> exists s, print_ulong v base upper = Some s /\ numeral base v upper s.
Proof.
  intros Hb Hv. unfold print_ulong. destruct (Z.eqb_spec v 0) as [->|H0].
  { exists [48]. split; [done|]. split; [done|]. split; [|by left]. intros c ->%list_elem_of_singleton. exists 0. split; [lia|]. by destruct upper. }
  assert (v < base ^ Z.of_nat 20) as Hlt by (destruct Hb as [->| ->]; cbn; lia).
  destruct (digits_spec base upper 20 (S BUF) v []) as (s & E & Hs & Hd & _ & Hh); [lia|lia|cbn; unfold BUF; lia|unfold BUF; lia|].
  exists s. rewrite app_nil_r in E. split; [done|]. split; [done|]. split; [done|]. right. destruct (Hh H0). done.
Qed.
Lemma print_int_spec v : -2147483648 <= v < 2147483648 -> exists s, print_int v = Some s /\ decimal v s.
Proof.
  intros Hv. unfold print_int, print_uint, decimal. destruct (Z.ltb_spec v 0).
  - rewrite (u32_small (- (v + 1))), u32_small by lia. replace (- (v + 1) + 1) with (- v) by lia.
    destruct (print_ulong_spec (- v) 10 false) as (s & E & Hs); [by left|lia|]. rewrite E. exists (45 :: s). split; [done|by exists s].
  - rewrite u32_small by lia. apply print_ulong_spec; [by left|lia].
Qed.
Lemma print_long_spec v : -9223372036854775808 <= v < 9223372036854775808 -> exists s, print_long v = Some s /\ decimal v s.
Proof.
  intros Hv. unfold print_long, decimal. destruct (Z.ltb_spec v 0).
  - rewrite (u64_small (- (v + 1))), u64_small by lia. replace (- (v + 1) + 1) with (- v) by lia.
    destruct (print_ulong_spec (- v) 10 false) as (s & E & Hs); [by left|lia|]. rewrite E. exists (45 :: s). split; [done|by exists s].
  - rewrite u64_small by lia. apply print_ulong_spec; [by left|lia].
Qed.

(** ** Formats *)

Ltac shown L := match goal with |- exists s, ((?f ≫= _) = _) /\ _ => destruct L as (s & E & Hs); rewrite E; cbn [mbind option_bind]; eexists; split; [reflexivity|by constructor] end.
Lemma format_plain_spec c a args : known false c = true -> takes false c a = true -> exists s, format_plain c (a :: args) = Some (s, args) /\ shows false c a s.
Proof.
  intros Hk Ht. apply bool_decide_eq_true in Hk. rewrite !elem_of_cons, elem_of_nil in Hk.
  destruct Hk as [->|[->|[->|[->|[->|[->|[->|[]]]]]]]]; destruct a as [v|v|v|s]; try discriminate Ht; unfold format_plain, print_uint; cbn [Z.eqb Pos.eqb].
  - shown (print_int_spec (i32 v) (i32_bound v)).
  - shown (print_ulong_spec (u32 v) 10 false (or_introl eq_refl) ltac:(pose proof (u32_bound v); lia)).
  - shown (print_ulong_spec (u32 v) 16 false (or_intror eq_refl) ltac:(pose proof (u32_bound v); lia)).
  - shown (print_ulong_spec (u32 v) 16 true (or_intror eq_refl) ltac:(pose proof (u32_bound v); lia)).
  - shown (print_ulong_spec (u64 v) 16 false (or_intror eq_refl) (u64_bound v)).
  - eexists. split; [reflexivity|constructor].
  - eexists. split; [reflexivity|constructor].
Qed.
Lemma format_long_spec c a args : known true c = true -> takes true c a = true -> exists s, format_long c (a :: args) = Some (s, args) /\ shows true c a s.
Proof.
  intros Hk Ht. apply bool_decide_eq_true in Hk. rewrite !elem_of_cons, elem_of_nil in Hk.
  destruct Hk as [->|[->|[->|[->|[]]]]]; destruct a as [v|v|v|s]; try discriminate Ht; unfold format_long; cbn [Z.eqb Pos.eqb].
  - shown (print_long_spec (i64 v) (i64_bound v)).
  - shown (print_ulong_spec (u64 v) 10 false (or_introl eq_refl) (u64_bound v)).
  - shown (print_ulong_spec (u64 v) 16 false (or_intror eq_refl) (u64_bound v)).
  - shown (print_ulong_spec (u64 v) 16 true (or_intror eq_refl) (u64_bound v)).
Qed.
Lemma format_unknown lg c args : known lg c = false -> (if lg then format_long c args else format_plain c args) = Some (unknown lg c, args).
Proof.
  intros Hk. apply bool_decide_eq_false in Hk. destruct lg; rewrite !not_elem_of_cons in Hk; unfold format_long, format_plain, unknown.
  - by repeat (rewrite (proj2 (Z.eqb_neq c _)) by tauto).
  - do 7 (rewrite (proj2 (Z.eqb_neq c _)) by tauto). by destruct (c =? 37).
Qed.
Lemma format_spec lg c l args : typed (Directive lg c :: l) args = true -> exists s args' , (if lg then format_long c args else format_plain c args) = Some (s, args') /\ typed l args' = true /\
  forall t, rendered l args' t -> rendered (Directive lg c :: l) args (s ++ t).
Proof.
  intros Ht. cbn [typed] in Ht. destruct (known lg c) eqn:Hk.
  - destruct args as [|a args]; [done|]. apply andb_true_iff in Ht as [Ha Ht]. assert (exists s, (if lg then format_long c (a :: args) else format_plain c (a :: args)) = Some (s, args) /\ shows lg c a s) as (s & E & Hs).
    { destruct lg; [by apply format_long_spec|by apply format_plain_spec]. }
    exists s, args. split; [done|]. split; [done|]. intros t. by constructor.
  - exists (unknown lg c), args. split; [by apply format_unknown|]. split; [done|]. intros t. by constructor.
Qed.

(** C37: [kprintf] prints what its format says.  When the arguments have the types the directives call for,
    the call returns, without ever storing outside the buffer of 32 digits, and its output is the format's
    characters with each directive replaced by its argument: signed numbers in decimal, unsigned ones in the
    base and the letters asked for, all without leading zeros and reading back as the number
    itself (the least [int] and [long] included), strings and characters as they are, and unknown
    directives literally; a directive cut off by the end of the format ends the output. *)
Theorem kprintf_correct fmt args : typed (items fmt) args = true -> exists out, kprintf fmt args = Some out /\ rendered (items fmt) args out.
Proof.
  remember (length fmt) as n eqn:En. assert (length fmt <= n)%nat as Hn by lia. clear En. revert fmt args Hn.
  induction n as [|n IH]; intros fmt args Hn Ht; (destruct fmt as [|c fmt]; [exists []; split; [done|constructor]|]); cbn [List.length] in Hn; [lia|].
  cbn [kprintf items] in Ht |- *. destruct (Z.eqb_spec c 37) as [->|Hc]; cbn [negb].
  2: { cbn [typed] in Ht. destruct (IH fmt args ltac:(lia) Ht) as (t & E & Hr). rewrite E. exists (c :: t). split; [done|by constructor]. }
  destruct fmt as [|c1 fmt]; [exists []; split; [done|constructor]|]. cbn [List.length] in Hn. destruct (Z.eqb_spec c1 108) as [->|Hc1].
  - destruct fmt as [|c2 fmt]; [exists []; split; [done|constructor]|]. cbn [List.length] in Hn.
    destruct (format_spec true c2 _ args Ht) as (s & args' & E & Ht' & Hr). cbn iota in E. rewrite E. destruct (IH fmt args' ltac:(lia) Ht') as (t & E' & Hr').
    cbn [mbind option_bind]. rewrite E'. exists (s ++ t). split; [done|by apply Hr].
  - destruct (format_spec false c1 _ args Ht) as (s & args' & E & Ht' & Hr). cbn iota in E. rewrite E. destruct (IH fmt args' ltac:(lia) Ht') as (t & E' & Hr').
    cbn [mbind option_bind]. rewrite E'. exists (s ++ t). split; [done|by apply Hr].
Qed.
Lemma kprintf_correct_witness : exists out, kprintf (lit "pid %d at %p: %s%%") [Int (-2147483648); Ptr 0x80001000; Str (lit "ok")] = Some out /\
  out = lit "pid -2147483648 at 0x80001000: ok%" /\ rendered (items (lit "pid %d at %p: %s%%")) [Int (-2147483648); Ptr 0x80001000; Str (lit "ok")] out.
Proof.
  destruct (kprintf_correct (lit "pid %d at %p: %s%%") [Int (-2147483648); Ptr 0x80001000; Str (lit "ok")] eq_refl) as (out & E & Hr).
  exists out. split; [exact E|]. split; [|exact Hr]. vm_compute in E. injection E as <-. reflexivity.
Defined.
