(* ===== verification/CTypes.v ===== *)
(** The compiler's types ([src/compiler/types.c]): sizes, compatibility, and the type of an arithmetic
    expression.  The target is riscv64: [PTR_SIZE] and [LONG_SIZE] 8, [LDOUBLE_SIZE] and [LDOUBLE_ALIGN] 16.

    A type is a [CType], whose reference leads into the symbols [m]; [None] is a pointer that leads nowhere, or
    a type that contains itself. *)
From S2P Require Import Prelude Token Symbols SymHeap.

Definition VT_QUAL : Z := Z.lor VT_CONSTANT VT_VOLATILE.
Definition btype (t : Z) : Z := Z.land t VT_BTYPE.
Definition is_float (t : Z) : bool := let bt := btype t in (bt =? VT_LDOUBLE) || (bt =? VT_DOUBLE) || (bt =? VT_FLOAT) || (bt =? VT_QFLOAT).
Definition is_integer_btype (bt : Z) : bool := (bt =? VT_BYTE) || (bt =? VT_BOOL) || (bt =? VT_SHORT) || (bt =? VT_INT) || (bt =? VT_LLONG).
Definition btype_size (bt : Z) : Z :=
  if (bt =? VT_BYTE) || (bt =? VT_BOOL) then 1 else if bt =? VT_SHORT then 2 else if bt =? VT_INT then 4 else if bt =? VT_LLONG then 8
  else if bt =? VT_PTR then 8 else 0.

(** [combine_types] on two arithmetic types. *)
Definition unsigned_btype (t bt : Z) : bool := Z.land t (Z.lor (Z.lor VT_BTYPE VT_UNSIGNED) VT_BITFIELD) =? Z.lor bt VT_UNSIGNED.
Definition combine_arith (t1 t2 : Z) : Z :=
  let bt1 := btype t1 in
  let bt2 := btype t2 in
  if is_float bt1 || is_float bt2 then
    if (bt1 =? VT_LDOUBLE) || (bt2 =? VT_LDOUBLE) then VT_LDOUBLE
    else if (bt1 =? VT_DOUBLE) || (bt2 =? VT_DOUBLE) then VT_DOUBLE
    else VT_FLOAT
  else if (bt1 =? VT_LLONG) || (bt2 =? VT_LLONG) then
    let t := Z.lor VT_LLONG VT_LONG in
    let t := if bt1 =? VT_LLONG then Z.land t t1 else t in
    let t := if bt2 =? VT_LLONG then Z.land t t2 else t in
    if unsigned_btype t1 VT_LLONG || unsigned_btype t2 VT_LLONG then Z.lor t VT_UNSIGNED else t
  else
    let t := Z.lor VT_INT (Z.land VT_LONG (Z.lor t1 t2)) in
    if unsigned_btype t1 VT_INT || unsigned_btype t2 VT_INT then Z.lor t VT_UNSIGNED else t.

Section types.
Context (m : gmap Z Sym).
Definition pointed_type (ty : CType) : option CType := y ← m !! ty_ref ty; Some (s_type y).
(** The size, and the alignment where the function stores one. *)
Fixpoint type_size (fuel : nat) (ty : CType) : option (Z * option Z) :=
  match fuel with
  | O => None
  | S fuel =>
      let bt := btype (ty_t ty) in
      if bt =? VT_STRUCT then y ← m !! ty_ref ty; Some (s_c y, Some (s_r y))
      else if bt =? VT_PTR then
        if tst (ty_t ty) VT_ARRAY then
          y ← m !! ty_ref ty;
          '(ts, a) ← type_size fuel (s_type y);
          let ts := if (ts <? 0) && (s_c y <? 0) then i32 (- ts) else ts in
          Some (i32 (ts * s_c y), a)
        else Some (8, Some 8)
      else
        incomplete ← (if IS_ENUM (ty_t ty) then y ← m !! ty_ref ty; Some (s_c y <? 0) else Some false);
        if incomplete : bool then Some (-1, None)
        else if bt =? VT_LDOUBLE then Some (16, Some 16)
        else if (bt =? VT_DOUBLE) || (bt =? VT_LLONG) then Some (8, Some 8)
        else if (bt =? VT_INT) || (bt =? VT_FLOAT) then Some (4, Some 4)
        else if bt =? VT_SHORT then Some (2, Some 2)
        else if (bt =? VT_QLONG) || (bt =? VT_QFLOAT) then Some (16, Some 8)
        else Some (1, Some 1)
  end.
Definition pointed_size (fuel : nat) (ty : CType) : option Z := ty ← pointed_type ty; '(size, _) ← type_size fuel ty; Some size.

(** The bits that [compare_types] compares. *)
Definition compared (t other : Z) (unqualified : bool) : Z :=
  let strip t := let t := Z.land (u32 t) VT_TYPE in if unqualified then Z.land t (not32 VT_QUAL) else t in
  if btype (strip other) =? VT_BYTE then strip t else Z.land (strip t) (not32 VT_DEFSIGN).
Definition func_type (y : Sym) : Z := Z.land (s_scope y) 3.
(** [is_compatible_func] from the types of the return values on, given the comparison of two types. *)
Fixpoint same_params (compare : CType -> CType -> option bool) (fuel : nat) (s1 s2 : Z) : option bool :=
  match fuel with
  | O => None
  | S fuel =>
      y1 ← m !! s1;
      y2 ← m !! s2;
      b ← compare (s_type y1) (s_type y2);
      if negb b then Some false
      else if s_next y1 =? 0 then Some (s_next y2 =? 0)
      else if s_next y2 =? 0 then Some false
      else same_params compare fuel (s_next y1) (s_next y2)
  end.
Definition is_compatible_func (compare : CType -> CType -> option bool) (ty1 ty2 : CType) : option bool :=
  s1 ← m !! ty_ref ty1;
  s2 ← m !! ty_ref ty2;
  if negb (func_type s1 =? func_type s2) && negb (func_type s1 =? FUNC_OLD) && negb (func_type s2 =? FUNC_OLD) then Some false
  else if (func_type s1 =? FUNC_OLD) && (s_next s1 =? 0) then Some true
  else if (func_type s2 =? FUNC_OLD) && (s_next s2 =? 0) then Some true
  else same_params compare (size m) (ty_ref ty1) (ty_ref ty2).
Fixpoint compare_types (fuel : nat) (ty1 ty2 : CType) (unqualified : bool) : option bool :=
  match fuel with
  | O => None
  | S fuel =>
      let t1 := compared (ty_t ty1) (ty_t ty1) unqualified in
      let t2 := compared (ty_t ty2) (ty_t ty1) unqualified in
      if negb (t1 =? t2) then Some false
      else
        dims ← (if tst t1 VT_ARRAY then
                  y1 ← m !! ty_ref ty1; y2 ← m !! ty_ref ty2;
                  Some ((s_c y1 <? 0) || (s_c y2 <? 0) || (s_c y1 =? s_c y2))
                else Some true);
        if negb dims then Some false
        else
          let bt1 := btype t1 in
          if bt1 =? VT_PTR then p1 ← pointed_type ty1; p2 ← pointed_type ty2; compare_types fuel p1 p2 false
          else if bt1 =? VT_STRUCT then Some (ty_ref ty1 =? ty_ref ty2)
          else if bt1 =? VT_FUNC then is_compatible_func (fun a b => compare_types fuel a b true) ty1 ty2
          else if IS_ENUM (ty_t ty1) && IS_ENUM (ty_t ty2) then Some (ty_ref ty1 =? ty_ref ty2)
          else Some true
  end.
Definition is_compatible_types (fuel : nat) (ty1 ty2 : CType) : option bool := compare_types fuel ty1 ty2 false.
Definition is_compatible_unqualified_types (fuel : nat) (ty1 ty2 : CType) : option bool := compare_types fuel ty1 ty2 true.
End types.
(** [mk_pointer]: the new type. *)
Definition mk_pointer (can_alloc : Z -> bool) (ty : CType) : F CType :=
  p ← sym_push can_alloc SYM_FIELD ty 0 (-1);
  mret (CTy (Z.lor VT_PTR (Z.land (u32 (ty_t ty)) VT_STORAGE)) p).

(** ** The usual arithmetic conversions (C11, 6.3.1.8) *)

Inductive arith := Bool | SChar | UChar | Short | UShort | Int_ | UInt | Long_ | ULong | LLong | ULLong | Float | Double | LDouble.
Definition arith_bits (a : arith) : Z :=
  match a with
  | Bool => VT_BOOL | SChar => VT_BYTE | UChar => Z.lor VT_BYTE VT_UNSIGNED | Short => VT_SHORT | UShort => Z.lor VT_SHORT VT_UNSIGNED
  | Int_ => VT_INT | UInt => Z.lor VT_INT VT_UNSIGNED | Long_ => Z.lor VT_LLONG VT_LONG | ULong => Z.lor (Z.lor VT_LLONG VT_LONG) VT_UNSIGNED
  | LLong => VT_LLONG | ULLong => Z.lor VT_LLONG VT_UNSIGNED | Float => VT_FLOAT | Double => VT_DOUBLE | LDouble => VT_LDOUBLE
  end.
(** [t] is the type [a], qualified and stored in whatever way, but no bit-field. *)
Definition denotes (t : Z) (a : arith) : Prop := Z.land t (Z.lor (Z.lor (Z.lor VT_BTYPE VT_UNSIGNED) VT_LONG) VT_BITFIELD) = arith_bits a.
Definition rank (a : arith) : Z :=
  match a with Bool => 0 | SChar | UChar => 1 | Short | UShort => 2 | Int_ | UInt => 3 | Long_ | ULong => 4 | LLong | ULLong => 5 | Float | Double | LDouble => 6 end.
Definition width (a : arith) : Z :=
  match a with Bool | SChar | UChar => 8 | Short | UShort => 16 | Int_ | UInt | Float => 32 | Long_ | ULong | LLong | ULLong | Double => 64 | LDouble => 128 end.
Definition is_signed (a : arith) : bool := match a with Bool | UChar | UShort | UInt | ULong | ULLong => false | _ => true end.
Definition to_unsigned (a : arith) : arith := match a with SChar => UChar | Short => UShort | Int_ => UInt | Long_ => ULong | LLong => ULLong | a => a end.
#[export] Instance arith_eq_dec : EqDecision arith.
Proof. solve_decision. Defined.
Definition promote (a : arith) : arith := if rank a <? rank Int_ then Int_ else a.
Definition usual (a b : arith) : arith :=
  if bool_decide (LDouble ∈ [a; b]) then LDouble else if bool_decide (Double ∈ [a; b]) then Double else if bool_decide (Float ∈ [a; b]) then Float
  else
    let a := promote a in let b := promote b in
    if bool_decide (a = b) then a
    else if Bool.eqb (is_signed a) (is_signed b) then if rank a <? rank b then b else a
    else
      let '(u, s) := if is_signed a then (b, a) else (a, b) in
      if rank s <=? rank u then u else if width u <? width s then s else to_unsigned s.
Notation MASK := (Z.lor (Z.lor (Z.lor VT_BTYPE VT_UNSIGNED) VT_LONG) VT_BITFIELD).
Lemma land_in_mask t k : Z.land MASK k = k -> Z.land (Z.land t MASK) k = Z.land t k.
Proof. intros H. by rewrite <- Z.land_assoc, H. Qed.
Lemma mask_land t k : Z.land MASK k = k -> Z.land k (Z.land t MASK) = Z.land k t.
Proof. intros H. by rewrite (Z.land_comm k), (Z.land_comm k), land_in_mask. Qed.
Lemma combine_masked t1 t2 : combine_arith t1 t2 = combine_arith (Z.land t1 MASK) (Z.land t2 MASK).
Proof.
  unfold combine_arith, unsigned_btype, btype. rewrite !land_in_mask by done. rewrite (Z.land_lor_distr_r VT_LONG), (Z.land_lor_distr_r VT_LONG), !(mask_land _ VT_LONG) by done.
  rewrite !(mask_land _ (Z.lor VT_LLONG VT_LONG)) by done. set (k := if Z.land t1 VT_BTYPE =? VT_LLONG then _ else _). rewrite (mask_land t2 k); [done|].
  subst k. case_match; [|done]. by rewrite Z.land_assoc.
Qed.
(** C17: The usual arithmetic conversions.  For operands of any two arithmetic types, however qualified or stored,
    [combine_types] gives the type that C11 prescribes: the widest floating type if there is one; else, both
    operands promoted, the type of greater rank, which is unsigned unless the signed type holds all values
    of the unsigned one. *)
Theorem usual_conversions t1 t2 a b : denotes t1 a -> denotes t2 b -> combine_arith t1 t2 = arith_bits (usual a b).
Proof. unfold denotes. intros H1 H2. rewrite combine_masked, H1, H2. by destruct a, b. Qed.
Lemma usual_conversions_witness : denotes (Z.lor (arith_bits ULong) VT_CONSTANT) ULong /\ combine_arith (Z.lor (arith_bits ULong) VT_CONSTANT) (arith_bits LLong) = arith_bits ULLong /\
  combine_arith (arith_bits UChar) (arith_bits UShort) = arith_bits Int_.
Proof.
  split; [reflexivity|]. split; [apply (usual_conversions (Z.lor (arith_bits ULong) VT_CONSTANT) (arith_bits LLong) ULong LLong); reflexivity|].
  apply (usual_conversions (arith_bits UChar) (arith_bits UShort) UChar UShort); reflexivity.
Defined.

(** ** Compatibility *)

Section compatible.
Context (m : gmap Z Sym).
(** Types of at most [n] levels: what a declaration builds. *)
Fixpoint type_tree (n : nat) (ty : CType) : Prop :=
  match n with
  | O => False
  | S n =>
      if btype (ty_t ty) =? VT_PTR then exists y, m !! ty_ref ty = Some y /\ type_tree n (s_type y)
      else tst (ty_t ty) VT_ARRAY = false /\ (btype (ty_t ty) = VT_FUNC -> exists l, l <> [] /\ NoDup l /\ linked s_next m (ty_ref ty) l /\
        forall p y, p ∈ l -> m !! p = Some y -> type_tree n (s_type y))
  end.
Lemma same_params_swap f g : (forall a b, f a b = g b a) -> forall k s1 s2, same_params m f k s1 s2 = same_params m g k s2 s1.
Proof.
  intros H k. induction k as [|k IH]; intros s1 s2; [done|]. cbn [same_params]. destruct (m !! s1) as [y1|], (m !! s2) as [y2|]; cbn [mbind option_bind]; [|done..].
  rewrite H. destruct (g _ _) as [b|]; cbn [option_bind]; [|done]. destruct b; cbn [negb]; [|done].
  destruct (Z.eqb_spec (s_next y1) 0) as [E1|E1], (Z.eqb_spec (s_next y2) 0) as [E2|E2]; try done. apply IH.
Qed.
Lemma compatible_func_swap f g ty1 ty2 : (forall a b, f a b = g b a) -> is_compatible_func m f ty1 ty2 = is_compatible_func m g ty2 ty1.
Proof.
  intros H. unfold is_compatible_func. destruct (m !! ty_ref ty1) as [y1|], (m !! ty_ref ty2) as [y2|]; cbn [mbind option_bind]; [|done..].
  rewrite (Z.eqb_sym (func_type y2) (func_type y1)), (same_params_swap f g H).
  destruct (func_type y1 =? func_type y2), (func_type y1 =? FUNC_OLD), (func_type y2 =? FUNC_OLD), (s_next y1 =? 0), (s_next y2 =? 0); done.
Qed.

Definition stripped (t : Z) (u : bool) : Z := let t := Z.land (u32 t) VT_TYPE in if u then Z.land t (not32 VT_QUAL) else t.
Lemma land_type t k : Z.land 4294967295 (Z.land VT_TYPE k) = k -> Z.land (Z.land (u32 t) VT_TYPE) k = Z.land t k.
Proof. intros H. unfold u32. change 4294967296 with (2 ^ 32). rewrite <- land_ones_mod by lia. change (2 ^ 32 - 1) with 4294967295. by rewrite <- !Z.land_assoc, H. Qed.
Lemma stripped_btype t u : btype (stripped t u) = btype t.
Proof. unfold btype, stripped. destruct u; [rewrite <- Z.land_assoc|]; by apply land_type. Qed.
Lemma compared_eq t o u : compared t o u = if btype o =? VT_BYTE then stripped t u else Z.land (stripped t u) (not32 VT_DEFSIGN).
Proof. unfold compared. fold (stripped o u) (stripped t u). by rewrite stripped_btype. Qed.
Lemma compared_btype t o u : btype (compared t o u) = btype t.
Proof. rewrite compared_eq, <- (stripped_btype t u). destruct (_ =? _); [done|]. unfold btype. by rewrite <- Z.land_assoc. Qed.
Lemma compared_same t1 t2 o1 o2 u : compared t1 o1 u = compared t2 o1 u -> compared t1 o2 u = compared t2 o2 u \/ btype o2 <> btype o1.
Proof. intros H. destruct (decide (btype o2 = btype o1)) as [E|E]; [left|by right]. rewrite !compared_eq, E, <- !compared_eq. done. Qed.
Lemma compared_swap t1 t2 u : (compared t1 t1 u =? compared t2 t1 u) = (compared t2 t2 u =? compared t1 t2 u) /\
  (compared t1 t1 u = compared t2 t1 u -> compared t2 t2 u = compared t1 t1 u).
Proof.
  destruct (decide (btype t1 = btype t2)) as [E|E].
  - rewrite !(compared_eq _ t2), <- E, <- !(compared_eq _ t1). split; [apply Z.eqb_sym|done].
  - assert (forall o, compared t1 o u <> compared t2 o u) as Hne by (intros o Ho; apply E; by rewrite <- (compared_btype t1 o u), Ho, compared_btype).
    split; [|by intros ?%Hne]. rewrite (proj2 (Z.eqb_neq _ _) (Hne t1)), Z.eqb_sym. by rewrite (proj2 (Z.eqb_neq _ _) (Hne t2)).
Qed.
Lemma compare_symmetric n : forall a b u, compare_types m n a b u = compare_types m n b a u.
Proof.
  induction n as [|n IH]; intros a b u; [done|]. cbn [compare_types]. destruct (compared_swap (ty_t a) (ty_t b) u) as [E E']. rewrite <- E.
  destruct (Z.eqb_spec (compared (ty_t a) (ty_t a) u) (compared (ty_t b) (ty_t a) u)) as [Ht|Ht]; cbn [negb]; [|done]. rewrite (E' Ht). set (t := compared (ty_t a) (ty_t a) u).
  assert ((if tst t VT_ARRAY then y1 ← m !! ty_ref a; y2 ← m !! ty_ref b; Some ((s_c y1 <? 0) || (s_c y2 <? 0) || (s_c y1 =? s_c y2)) else Some true) =
          (if tst t VT_ARRAY then y1 ← m !! ty_ref b; y2 ← m !! ty_ref a; Some ((s_c y1 <? 0) || (s_c y2 <? 0) || (s_c y1 =? s_c y2)) else Some true)) as ->.
  { destruct (tst t VT_ARRAY); [|done]. destruct (m !! ty_ref a) as [y1|], (m !! ty_ref b) as [y2|]; cbn; try done. by rewrite (orb_comm (s_c y1 <? 0)), Z.eqb_sym. }
  destruct (if tst t VT_ARRAY then _ else _) as [[]|]; cbn [mbind option_bind negb]; try done.
  destruct (btype t =? VT_PTR); [|destruct (btype t =? VT_STRUCT); [by rewrite Z.eqb_sym|destruct (btype t =? VT_FUNC); [by apply compatible_func_swap; intros; apply IH|by rewrite andb_comm, Z.eqb_sym]]].
  unfold pointed_type. destruct (m !! ty_ref a), (m !! ty_ref b); cbn [mbind option_bind]; try done.
Qed.

Lemma compared_array t o u : tst (compared t o u) VT_ARRAY = tst t VT_ARRAY.
Proof.
  rewrite compared_eq. assert (Z.land (stripped t u) VT_ARRAY = Z.land t VT_ARRAY) as E by (unfold stripped; destruct u; [rewrite <- Z.land_assoc|]; by apply land_type).
  unfold tst. f_equal. f_equal. destruct (_ =? _); [done|]. by rewrite <- Z.land_assoc.
Qed.
Lemma params_total (compare : CType -> CType -> option bool) k : forall s1 s2 l1 l2, linked s_next m s1 l1 -> linked s_next m s2 l2 -> l1 <> [] -> l2 <> [] -> (length l1 <= k)%nat ->
  (forall p q y z, p ∈ l1 -> q ∈ l2 -> m !! p = Some y -> m !! q = Some z -> is_Some (compare (s_type y) (s_type z))) -> is_Some (same_params m compare k s1 s2).
Proof.
  induction k as [|k IH]; intros s1 s2 l1 l2 L1 L2 H1 H2 Hk Hc; [by destruct l1; cbn in Hk; [|lia]|].
  inversion L1 as [|p y l1' Hp Ep L1']; subst; [done|]. inversion L2 as [|q z l2' Hq Eq L2']; subst; [done|]. cbn [same_params]. rewrite Ep, Eq. cbn [mbind option_bind].
  destruct (Hc s1 s2 y z) as [b ->]; [by left|by left|done|done|]. cbn [option_bind]. destruct b; cbn [negb]; [|by eexists].
  destruct (Z.eqb_spec (s_next y) 0) as [Ey|Ey]; [by eexists|]. destruct (Z.eqb_spec (s_next z) 0) as [Ez|Ez]; [by eexists|].
  apply (IH _ _ l1' l2' L1' L2'); [intros ->; by inversion L1'|intros ->; by inversion L2'|cbn in Hk; lia|]. intros p' q' y' z' Hp' Hq'. apply Hc; by right.
Qed.
Lemma params_refl (compare : CType -> CType -> option bool) k : forall s l, linked s_next m s l -> l <> [] -> (length l <= k)%nat ->
  (forall p y, p ∈ l -> m !! p = Some y -> compare (s_type y) (s_type y) = Some true) -> same_params m compare k s s = Some true.
Proof.
  induction k as [|k IH]; intros s l L H Hk Hc; [by destruct l; cbn in Hk; [|lia]|].
  inversion L as [|p y l' Hp Ep L']; subst; [done|]. cbn [same_params]. rewrite Ep. cbn [mbind option_bind]. rewrite (Hc s y) by (try done; by left). cbn [option_bind negb].
  destruct (Z.eqb_spec (s_next y) 0) as [Ey|Ey]; [done|]. apply (IH _ l' L'); [intros ->; by inversion L'|cbn in Hk; lia|]. intros p' y' Hp'. apply Hc. by right.
Qed.
Lemma linked_size nx s l : linked nx m s l -> NoDup l -> (length l <= size m)%nat.
Proof. intros L Hd. apply used_size; [done|]. intros p Hp. by apply (linked_in _ _ _ _ _ L). Qed.
Lemma compare_total n : forall a b u, type_tree n a -> type_tree n b -> is_Some (compare_types m n a b u).
Proof.
  induction n as [|n IH]; intros a b u Ta Tb; [done|]. cbn [type_tree compare_types] in *.
  destruct (Z.eqb_spec (compared (ty_t a) (ty_t a) u) (compared (ty_t b) (ty_t a) u)) as [Ht|Ht]; cbn [negb]; [|by eexists].
  assert (btype (ty_t b) = btype (ty_t a)) as Eb by (by rewrite <- (compared_btype (ty_t b) (ty_t a) u), <- Ht, compared_btype). rewrite compared_array, compared_btype. rewrite Eb in Tb.
  destruct (Z.eqb_spec (btype (ty_t a)) VT_PTR) as [Hp|Hp].
  - destruct Ta as (y & Ey & Ty), Tb as (z & Ez & Tz). unfold pointed_type. rewrite Ey, Ez. cbn [mbind option_bind]. destruct (tst (ty_t a) VT_ARRAY); cbn [option_bind]; [destruct (_ || _); cbn [negb]; [|by eexists]|cbn [negb]]; by apply IH.
  - destruct Ta as [-> Fa], Tb as [_ Fb]. cbn [mbind option_bind negb]. destruct (_ =? VT_STRUCT); [by eexists|]. destruct (Z.eqb_spec (btype (ty_t a)) VT_FUNC) as [Hf|Hf]; [|destruct (_ && _); by eexists].
    destruct (Fa Hf) as (l1 & H1 & D1 & L1 & T1), (Fb Hf) as (l2 & H2 & D2 & L2 & T2). unfold is_compatible_func.
    destruct (linked_in _ _ _ _ (ty_ref a) L1) as [_ [y Ey]]; [inversion L1; [congruence|by left]|]. destruct (linked_in _ _ _ _ (ty_ref b) L2) as [_ [z Ez]]; [inversion L2; [congruence|by left]|].
    rewrite Ey, Ez. cbn [mbind option_bind]. do 3 (destruct (_ && _); [by eexists|]). apply (params_total _ _ _ _ l1 l2 L1 L2 H1 H2); [by apply (linked_size _ _ _ L1)|].
    intros p q y' z' Hp' Hq' E1 E2. apply IH; [by apply (T1 p)|by apply (T2 q)].
Qed.
Lemma compare_reflexive n : forall a u, type_tree n a -> compare_types m n a a u = Some true.
Proof.
  induction n as [|n IH]; intros a u Ta; [done|]. cbn [type_tree compare_types] in *. rewrite Z.eqb_refl, compared_array, compared_btype. cbn [negb].
  destruct (Z.eqb_spec (btype (ty_t a)) VT_PTR) as [Hp|Hp].
  - destruct Ta as (y & Ey & Ty). unfold pointed_type. rewrite Ey. cbn [mbind option_bind]. rewrite Z.eqb_refl, orb_true_r. destruct (tst _ _); cbn [option_bind negb]; by apply IH.
  - destruct Ta as [-> Fa]. cbn [mbind option_bind negb]. rewrite Z.eqb_refl. destruct (_ =? VT_STRUCT); [done|]. destruct (Z.eqb_spec (btype (ty_t a)) VT_FUNC) as [Hf|Hf]; [|by destruct (_ && _)].
    destruct (Fa Hf) as (l & Hl & Hd & L & Tl). unfold is_compatible_func. destruct (linked_in _ _ _ _ (ty_ref a) L) as [_ [y Ey]]; [inversion L; [congruence|by left]|].
    rewrite Ey. cbn [mbind option_bind]. rewrite Z.eqb_refl. cbn [negb andb]. destruct (_ && _); [done|]. apply (params_refl _ _ _ l L Hl); [by apply (linked_size _ _ _ L)|].
    intros p y' Hp' E'. apply IH. by apply (Tl p).
Qed.
End compatible.

(** [char *(int)] and [char *(long)]. *)
Definition two_functions : gmap Z Sym :=
  list_to_map (imap (fun i '(ty, next) => (Z.of_nat i + 1, set_type ty (set_sym_next next (set_c (-1) (set_scope 1 zero_sym)))))
    [(CTy VT_BYTE 0, 0); (CTy VT_PTR 1, 3); (CTy VT_INT 0, 0); (CTy VT_PTR 1, 5); (CTy (Z.lor VT_LLONG VT_LONG) 0, 0)]).
Lemma two_functions_tree : type_tree two_functions 3 (CTy VT_FUNC 2) /\ type_tree two_functions 3 (CTy VT_FUNC 4).
Proof.
  split; cbn [type_tree]; (split; [done|]); intros _; [exists [2; 3]|exists [4; 5]]; (split; [done|]); (split; [by apply (bool_decide_unpack _)|]); (split; [repeat (eapply linked_next; [done|reflexivity|]); constructor|]).
  all: intros p y [->|[->|[]%elem_of_nil]%elem_of_cons]%elem_of_cons E; vm_compute in E; injection E as <-; cbn; try (by split); eexists; by split.
Qed.
